(* ===== verification/_CoqProject ===== *)
-Q . S2P
Prelude.v
Json.v
Urls.v
JsonLoads.v
Difflib.v
Messages.v
Broker.v
BrokerInv.v
BrokerSpec.v
BrokerAccounts.v
BrokerEmits.v
BrokerTheorems.v
BrokerRefinement.v
Policy.v
Harness.v
Client.v
ClientTheorems.v
ClientSession.v
Sync.v
AgentTypes.v
Registry.v
Compaction.v
Loop.v
LoopLemmas.v
CompactionTheorems.v
LoopTheorems.v
Delegation.v
DelegationTheorems.v
Prompt.v
Connector.v
Orchestrator.v
OrchestratorTheorems.v
Regex.v
Slack.v
SlackTheorems.v
SlackConnector.v
SlackConnectorTheorems.v
SlackFlow.v
InferenceHub.v
InferenceHubTheorems.v
Protocol.v
Finalization.v
FinalizationTheorems.v
GitHelpers.v
SlackFinalization.v
Dispatcher.v
DispatcherTheorems.v
Buttons.v
SubAgent.v
SubAgentTheorems.v
DelegateTask.v
Files.v
Config.v
ConfigTheorems.v
Skills.v
Tools.v
Processes.v
Service.v
GitLab.v
Jira.v
Gerrit.v
Confluence.v
SlackSearch.v
WebSearch.v
ServiceTheorems.v
LiveChecks.v
GitTools.v
GitToolsTheorems.v
ShellTools.v
CodingTools.v
ToolRegistryFactory.v
ToolRegistryFactoryTheorems.v
AuditLog.v
BuildScripts.v
AuditTheorems.v
AuditWriter.v
Payloads.v
FinalizationRun.v
Migrations.v
Prototypes.v
