(* ===== verification/Prelude.v ===== *)
(** * NemoClaw Escapades: a verification library

    The program is an orchestrator for language-model agents.  A connector
    (Slack) hands user requests to the orchestrator; the orchestrator builds
    a prompt, runs an agent loop that lets the model call tools, gates writes
    behind an Approve button, and can delegate work to sub-agent processes.
    Orchestrator and sub-agents talk over the NMB message bus, a broker with
    one websocket per sandbox.  When a sub-agent reports a result, a
    finalisation lets the model present, push, discard or re-delegate it.

    This library models the core of the package [src/nemoclaw_escapades] as
    executable definitions and proves what its parts promise and where they
    fall short.  Names follow the source.

    ** Files, bottom up

    A file with its name followed by [Theorems] holds the theorems of the
    other; where there is none, they close the file itself.

    - [Prelude]: Python strings (UTF-8 text, lengths in code points), results,
      counting in maps, automation.  [Json]: JSON values, [json.dumps],
      [repr].  [JsonLoads]: [json.loads] with the texts of its errors, which
      reads back what [json.dumps] writes.
    - The bus.  [Messages] is [nmb/models.py].  [Broker] is [nmb/broker.py]:
      one definition per handler, and the event loop as labelled steps
      [sys_step]; [BrokerInv], [BrokerSpec], [BrokerAccounts], [BrokerEmits]
      hold the invariant, its preservation, the request accounting and the
      frames each step may emit; [BrokerTheorems] the promises.  [Policy] is
      [nmb/testing/policy.py], [Harness] the integration harness over it.
      [Client] and [ClientTheorems] are what the calls of [nmb/client.py] put
      in its tables; [ClientSession] its life, from connecting to closing,
      with the coroutines of its callers; [Sync] the blocking wrapper
      [nmb/sync.py] and the command line.
    - The agent.  [AgentTypes]: data of [models/types.py], the interfaces
      [Backend] and [ApprovalGate] and the monad [M].  [Registry] is
      [tools/registry.py] and [tools/tool_search.py], with [Difflib] for the
      similarity by which it ranks; [Compaction] is
      [agent/compaction.py] and [orchestrator/transcript_repair.py]; [Loop]
      is [agent/loop.py] and [agent/approval.py]; with [CompactionTheorems],
      [LoopLemmas] (the case analysis of one round, [round_step]) and
      [LoopTheorems], which ends with an induction over the primitive steps
      of a run.
    - The orchestrator.  [Prompt] is [agent/prompt_builder.py]; [Connector]
      the requests and responses and the interface [FinalizationActions];
      [Orchestrator] and [OrchestratorTheorems] are
      [orchestrator/orchestrator.py].
    - Delegation.  [Delegation] and [DelegationTheorems] are
      [orchestrator/delegation.py]; [Protocol] the payloads of
      [nmb/protocol.py], [Payloads] how they are written and read;
      [Finalization] and [FinalizationTheorems] are [tools/finalization.py],
      [orchestrator/finalization.py], [run_git] of [tools/git.py] and
      [create_pull_request]; [FinalizationRun] runs them as the tools of the
      agent loop, from the completion to the result; [GitHelpers] is
      [agent/git_helpers.py]; [Dispatcher] and [DispatcherTheorems] are
      [orchestrator/dispatcher.py], the latter with its loop, start and
      close; [Buttons] is [orchestrator/finalization_actions.py], the
      implementation of the interface the orchestrator is proved against;
      [DelegateTask] is the [delegate_task] tool of [tools/delegation.py].
    - The sub-agent.  [SubAgent] and [SubAgentTheorems] are
      [agent/__main__.py] with [agent/audit_buffer.py]: the process that runs
      the loop of [Loop] on one assignment and answers it with the frames of
      [Client], which the theorems hand to the handlers of [Broker].
    - The connector.  [Regex] is the fragment of regular expressions the code
      uses; [Slack] the texts and Block Kit blocks of
      [connectors/slack/connector.py], [SlackConnector] its request pipeline
      as interleaved tasks, [SlackFinalization] its renderer for
      finalisations; [SlackFlow] runs the connector with the orchestrator.
      [SlackTheorems] and [SlackConnectorTheorems] hold their theorems, the
      latter also the start, the stop and the listeners.
    - The tools.  [Files], [ShellTools] and [GitTools] are the file, search,
      shell and git tools; [Skills] the skill loader and its tool; [Urls]
      quoting and parsing of URLs; [Tools] what a tool declares (schema,
      flags, signature); [Service] the requests of an HTTP client, and over
      it [GitLab], [Jira], [Gerrit], [Confluence], [SlackSearch] and
      [WebSearch]; [LiveChecks] the checks of [testing/live_checks.py] over
      these clients.  [CodingTools] and [ToolRegistryFactory] assemble the
      two registries.  Theorems: [GitToolsTheorems], [ServiceTheorems],
      [ToolRegistryFactoryTheorems].
    - The surroundings.  [Config] and [ConfigTheorems] are [config.py];
      [InferenceHub] and [InferenceHubTheorems] the inference client of
      [backends/]; [AuditLog] is the audit database with the sub-agent's
      buffer, with [AuditTheorems], and [AuditWriter] its background writer;
      [Migrations] are the scripts under
      [audit/alembic]; [BuildScripts] the generators of configuration and
      policy, [scripts/gen_config.py] and [scripts/gen_policy.py].
    - The processes.  [Processes] is the self-check [runtime.py], the start
      and the end of [main.py] and of [agent/__main__.py], the broker as a
      process with its admin commands, the process a delegation starts, and
      what a log line and a request context hold.
    - [Prototypes] are the reachability prototypes under [prototypes]: the HTTP
      server of a sandbox with the host's probe of it, and the scripts that
      hand one task over the bus, run against the handlers of [Broker].
    - [BrokerRefinement] states the bus as an abstract machine of sandboxes,
      subscriptions and open requests, which the broker refines.

    ** How the parts are modelled

    - State is a record per class; a shared mutable object (a future, a
      queue, a workflow context) is a cell of a store named by an identity.
    - A coroutine runs without interruption between two [await]s.  Where the
      interleaving of coroutines matters (broker, client, delegation manager,
      dispatcher, Slack connector, audit writer) each stretch is a labelled
      step and the theorems hold for every sequence of enabled steps; the
      blocking client adds the steps of its threads.  The tasks of [asyncio.gather] run in
      an arbitrary order, the argument [sched].
    - Exceptions are the left values of a sum; whether a websocket send, a
      spawn, a render or a process fails is chosen by an argument or a label.
    - Python numbers are unbounded, so integers are [Z] or [nat]; times are
      integers.

    ** What is outside and enters as an argument

    The validation of received frames and payloads (pydantic:
    [model_validate_json], the [load_*] functions), YAML and dotenv files, [float()], the rendering of a float ([show_seconds]),
    [html.unescape], [re.compile] on a pattern
    of the model, the clock, uuids (identities are given by the caller), the
    inference service ([Backend] for the loop, the answers of the HTTP client
    for [InferenceHub]), HTTP and Slack, the handlers of tools, the [git],
    [gh], ripgrep and shell processes, the file system with globbing and
    [Path.resolve], the connector's renderer, the failures of SQLite with the
    outcome of its checkpoints, what SQLite does with a statement of a
    migration (the classes [Sqlite] and [FtsIndex]), and alembic.  What a theorem assumes of them
    is a named hypothesis of it, with a witness at a concrete instance.

    ** What the theorems show

    - Bus: a delivered frame carries the identity of the connection that
      sent it; the routing tables mirror each other and respect the limits;
      the request counter is exact, unless a timeout or reply overtakes a
      failing delivery, in which case the limit can be exceeded; every
      pending request times out or is answered once; publications reach the
      subscribers and only them; leaving cleans every table; the policy gate
      enforces exactly the allow-lists, and the harness makes it enforce the
      declared ones under display names; client futures are settled once and
      never left behind; streams arrive in order; closing a client ends and
      wakes every caller but the subscribers, which a lost connection leaves
      waiting; an iterator of the blocking client gives the messages of its
      generator, unless the client is closed from another thread.
    - Agent: [json.loads] ends and reads back what was dumped, so that a call's
      arguments reach its handler as they were written; a tool is found by a
      word of its name or toolset; a batch of tool calls is answered call by call under any
      schedule; a run makes a bounded number of requests and counts its calls
      exactly; no write runs without approval; the requests keep the tool
      protocol until a compaction, which may break it; tools found by
      [tool_search] are never offered in the run that found them.
    - Orchestrator: a write runs only for the Approve click of its thread,
      once; a pending write was shown; the history records what was shown;
      errors are answered, except after an approved write; a click on a
      superseded prompt approves the newer write; the prompt is a window of
      the conversation behind a stable prefix.
    - Delegation: concurrency slots are exact while operations on one
      workflow do not overlap; one is lost when a teardown overlaps a
      re-delegation, and one too many is given back when it overlaps a send
      that fails; an offline agent is retried; a push follows its guarded
      script; committed work cannot be pushed again; a finalisation stays on
      its workflow, the model's session with its tools is a sequence of
      their calls, and each of them is audited; payloads are read as they were written; a spawned agent
      loads the identity and workspace it was spawned for; a finalisation
      that arrives while the dispatcher closes outlives it; the workflow
      registry is consistent, and an iteration can
      be lost; the buttons close a workflow only on success, and Iterate
      turns the next message into the next assignment.
    - Sub-agent: an assignment is answered exactly once, a finished task is
      never reported as an error, a completion echoes the assignment and
      counts the rounds and the calls of its run, only the round cap is recoverable, nothing pauses for
      an approval; the assignment's tool allow-list has no effect; and since
      the assignment is sent as a SEND, the broker refuses the answer, in
      every run of broker and connections.  [delegate_task] registers a workflow before it is sent and closes it
      when it is refused.
    - Connector: approval clicks of a thread exclude each other, and a
      cancelled one blocks its thread for good; error
      replies are limited; long texts are cut without losing a visible
      character (whitespace is Python's); every response renders to well-typed blocks within the
      budget of its parts; a prompt posted as a fallback cannot be answered.
    - Tools: the file tools stay inside the workspace, but for the directories
      a write makes above a workspace that is not there; a clone stays inside
      it and on its allow-list; a service tool registered as read-only sends only
      reads, as every live check does; the schema of a tool is the signature of its handler; a
      sub-agent gets neither [git_commit] nor [delegate_task]; skills are
      found whatever the order of the directory.
    - Surroundings: the precedence of configuration sources and exactly when
      loading fails; the inference client repeats what can be repeated, a
      bounded number of times, and reads back documented answers; audit rows
      are never changed or lost once written, a flush may be repeated, and
      batching is invisible while every batch succeeds, and one bad row loses
      its batch; a history of migrations that succeed has the schema of its
      revision and the last one cannot be repeated after it was undone; from
      the second revision on the search indexes hold exactly their tables; the generators change only the settings, hosts and
      address ranges they are meant to; the standalone broker is never
      stopped, so its queued audit rows are lost.
    - Prototypes: the host's probe gets its message back from a server that
      comes up within its attempts, and its exit status says whether the
      server could fetch; the server opens only http and https URLs; the
      scripts of the bus succeed exactly when the orchestrator subscribes
      before the client publishes, and end what they started.

    ** Bounds

    The fuels are loop bounds of the code, so running out is the code's own
    exit: the round counter of [run_rounds] ([max_tool_rounds]), the retry
    counters of [continue_from], [repair_attempts] and the inference client
    ([max_retries]).  Where a loop of the code has no counter its fuel is the
    length of the text it consumes ([split_loop] of [Slack], the matcher of
    [Regex], the scanner of [JsonLoads], the blocks of [Difflib]), and a theorem or lemma says that this much is enough.
    Everything else is structural.

    ** What is not modelled

    Argument parsing and the offline mode of the migrations are input and
    output around this core.  In the modelled parts: the interpreter's
    recursion limit is not reached; requests
    to the orchestrator are handled one at a time; a tool handler and a
    finalisation tool are atomic steps; of an audit row of a sub-agent's run
    the fields the call and the registry determine are kept, and the rows of
    the orchestrator's own calls are left out; [str.split()] and the class
    [\s] of regular expressions split at ASCII whitespace. *)

From Stdlib Require Import Ascii.
From Stdlib Require Export ZArith Lia.
From stdpp Require Export base gmap strings list fin_maps pretty option.

#[global] Open Scope string_scope.
#[global] Open Scope list_scope.

(** ** Python strings

    A model string is the UTF-8 encoding of the Python [str].  Lengths and
    slices therefore count code points: the continuation bytes
    [0x80 .. 0xBF] do not start a new one. *)

Definition is_continuation (c : ascii) : bool :=
  let n := N_of_ascii c in (128 <=? n)%N && (n <? 192)%N.

(** [len(s)] *)
Fixpoint py_len (s : string) : Z :=
  match s with
  | EmptyString => 0
  | String c s' => (if is_continuation c then 0 else 1) + py_len s'
  end%Z.

Fixpoint take_chars (n : Z) (s : string) : string :=
  match s with
  | EmptyString => EmptyString
  | String c s' =>
      if is_continuation c then String c (take_chars n s')
      else if (n <=? 0)%Z then EmptyString
           else String c (take_chars (n - 1) s')
  end.

(** [s[:limit]], a negative [limit] counting from the end. *)
Definition py_prefix (limit : Z) (s : string) : string :=
  take_chars (if (limit <? 0)%Z then Z.max 0 (py_len s + limit) else limit) s.

(** [not s] is the test for the empty string; an [Optional[str]] is falsy
    when it is [None] or empty. *)
Definition str_truthy (s : string) : bool := negb (String.eqb s "").

Definition opt_truthy (o : option string) : bool :=
  match o with Some s => str_truthy s | None => false end.

(** [s or d] *)
Definition str_or (s d : string) : string := if str_truthy s then s else d.

(** [o or d] *)
Definition opt_or (o : option string) (d : string) : string :=
  match o with Some s => str_or s d | None => d end.

(** [s.startswith(p)] *)
Definition startswith (p s : string) : bool := String.prefix p s.

(** [s.endswith(p)] *)
Definition endswith (p s : string) : bool :=
  (String.length p <=? String.length s)%nat
  && String.eqb (String.substring (String.length s - String.length p)
                                  (String.length p) s) p.

(** [p in s] for strings *)
Fixpoint str_contains (p s : string) : bool :=
  String.prefix p s ||
  match s with
  | EmptyString => false
  | String _ s' => str_contains p s'
  end.

(** The ASCII characters [str.strip] removes ... *)
Definition is_space (c : ascii) : bool :=
  let n := N_of_ascii c in
  ((9 <=? n)%N && (n <=? 13)%N) || ((28 <=? n)%N && (n <=? 32)%N).

(** ... those of two bytes, U+0085 and U+00A0 ... *)
Definition is_space2 (a b : ascii) : bool :=
  let b := N_of_ascii b in
  (N_of_ascii a =? 194)%N && ((b =? 133)%N || (b =? 160)%N).

(** ... and those of three: U+1680, U+2000 to U+200A, U+2028, U+2029, U+202F,
    U+205F and U+3000. *)
Definition is_space3 (a b c : ascii) : bool :=
  let a := N_of_ascii a in
  let b := N_of_ascii b in
  let c := N_of_ascii c in
  ((a =? 225)%N && (b =? 154)%N && (c =? 128)%N)
  || ((a =? 226)%N && (b =? 128)%N
      && (((128 <=? c)%N && (c <=? 138)%N) || (c =? 168)%N || (c =? 169)%N || (c =? 175)%N))
  || ((a =? 226)%N && (b =? 129)%N && (c =? 159)%N)
  || ((a =? 227)%N && (b =? 128)%N && (c =? 128)%N).

(** What follows the whitespace character [s] starts with, if it does. *)
Definition after_space (s : string) : option string :=
  match s with
  | EmptyString => None
  | String a s1 =>
      if is_space a then Some s1 else
      match s1 with
      | EmptyString => None
      | String b s2 =>
          if is_space2 a b then Some s2 else
          match s2 with
          | EmptyString => None
          | String c s3 => if is_space3 a b c then Some s3 else None
          end
      end
  end.

(** [s.strip()] is empty exactly when every character is whitespace.  (The
    fuel is the length; a character is at least one byte.) *)
Fixpoint all_space_from (fuel : nat) (s : string) : bool :=
  match s, fuel with
  | EmptyString, _ => true
  | _, O => false
  | _, S fuel => match after_space s with Some s => all_space_from fuel s | None => false end
  end.

Definition all_space (s : string) : bool := all_space_from (String.length s) s.

Fixpoint lstrip_from (fuel : nat) (s : string) : string :=
  match fuel, after_space s with
  | S fuel, Some s => lstrip_from fuel s
  | _, _ => s
  end.

Definition lstrip (s : string) : string := lstrip_from (String.length s) s.

Fixpoint rstrip (s : string) : string :=
  match s with
  | EmptyString => EmptyString
  | String c s' => if all_space s then EmptyString else String c (rstrip s')
  end.

(** [s.strip()] *)
Definition strip (s : string) : string := rstrip (lstrip s).

(** [s.split(c)] at a character *)
Fixpoint split_on (c : ascii) (s : string) : list string :=
  match s with
  | EmptyString => [EmptyString]
  | String d s =>
      if Ascii.eqb d c then EmptyString :: split_on c s
      else match split_on c s with
           | [] => [String d EmptyString]
           | l :: ls => String d l :: ls
           end
  end.

Definition newline : string := String (ascii_of_nat 10) EmptyString.

(** [str(n)] of an integer *)
Definition show_Z (z : Z) : string := pretty z.

Lemma string_app_cons (c : ascii) (a b : string) :
  String c a +:+ b = String c (a +:+ b).
Proof. done. Qed.

(** ** Whitespace *)

Lemma after_space_split s r :
  after_space s = Some r ->
  exists w, s = w +:+ r /\ w <> "" /\ forall t, after_space (w +:+ t) = Some t.
Proof.
  destruct s as [|a s1]; [done|]. simpl. destruct (is_space a) eqn:Ha.
  { intros [= <-]. exists (String a ""). split_and!; [done..|]. intros t. simpl. by rewrite Ha. }
  destruct s1 as [|b s2]; [done|]. destruct (is_space2 a b) eqn:Hb.
  { intros [= <-]. exists (String a (String b "")). split_and!; [done..|]. intros t. simpl. by rewrite Ha, Hb. }
  destruct s2 as [|c s3]; [done|]. destruct (is_space3 a b c) eqn:Hc; [|done].
  intros [= <-]. exists (String a (String b (String c ""))). split_and!; [done..|]. intros t. simpl.
  by rewrite Ha, Hb, Hc.
Qed.

Lemma after_space_shorter s r : after_space s = Some r -> String.length r < String.length s.
Proof.
  destruct s as [|a s1]; [done|]. simpl. destruct (is_space a); [intros [= <-]; lia|].
  destruct s1 as [|b s2]; [done|]. destruct (is_space2 a b); [intros [= <-]; simpl; lia|].
  destruct s2 as [|c s3]; [done|]. destruct (is_space3 a b c); [|done]. intros [= <-]. simpl. lia.
Qed.

(** Induction on the characters of a text, whitespace or not. *)
Lemma space_ind (P : string -> Prop) :
  (forall s, (forall r, String.length r < String.length s -> P r) -> P s) -> forall s, P s.
Proof.
  intros H s. remember (String.length s) as n eqn:Hn. revert s Hn.
  induction n as [n IH] using lt_wf_ind. intros s ->. apply H. intros r Hr. by apply (IH _ Hr).
Qed.

Lemma all_space_fuel n m s :
  String.length s <= n -> String.length s <= m -> all_space_from n s = all_space_from m s.
Proof.
  revert m s. induction n as [|n IH]; intros m s Hn Hm.
  { destruct s; [by destruct m|simpl in Hn; lia]. }
  destruct m as [|m]; [destruct s; [done|simpl in Hm; lia]|]. destruct s as [|c s]; [done|].
  cbn [all_space_from]. destruct (after_space (String c s)) as [r|] eqn:Hr; [|done].
  apply after_space_shorter in Hr. apply IH; lia.
Qed.

Lemma all_space_eq s :
  all_space s = match after_space s with
                | Some r => all_space r
                | None => match s with EmptyString => true | _ => false end
                end.
Proof.
  unfold all_space. destruct s as [|c s]; [done|]. cbn [String.length all_space_from].
  destruct (after_space (String c s)) as [r|] eqn:Hr; [|done].
  apply after_space_shorter in Hr. simpl in Hr. apply all_space_fuel; lia.
Qed.

Lemma lstrip_fuel n m s :
  String.length s <= n -> String.length s <= m -> lstrip_from n s = lstrip_from m s.
Proof.
  revert m s. induction n as [|n IH]; intros m s Hn Hm.
  { destruct s; [by destruct m|simpl in Hn; lia]. }
  destruct m as [|m]; [destruct s; [done|simpl in Hm; lia]|].
  cbn [lstrip_from]. destruct (after_space s) as [r|] eqn:Hr; [|done].
  apply after_space_shorter in Hr. apply IH; lia.
Qed.

Lemma lstrip_eq s : lstrip s = match after_space s with Some r => lstrip r | None => s end.
Proof.
  unfold lstrip. destruct s as [|c s]; [done|]. cbn [String.length lstrip_from].
  destruct (after_space (String c s)) as [r|] eqn:Hr; [|done].
  apply after_space_shorter in Hr. simpl in Hr. apply lstrip_fuel; lia.
Qed.

Lemma string_app_nil_r (s : string) : s +:+ "" = s.
Proof. induction s as [|c s IH]; [done|]. by rewrite string_app_cons, IH. Qed.

Lemma string_app_assoc (a b c : string) : (a +:+ b) +:+ c = a +:+ (b +:+ c).
Proof. induction a as [|x a IH]; [done|]. by rewrite !string_app_cons, IH. Qed.

Lemma string_length_app (a b : string) :
  String.length (a +:+ b) = (String.length a + String.length b)%nat.
Proof. induction a as [|x a IH]; [done|]. rewrite string_app_cons. simpl. by rewrite IH. Qed.

Lemma substring_all (n : nat) (s : string) : (String.length s <= n)%nat -> String.substring 0 n s = s.
Proof.
  revert n. induction s as [|c s IH]; intros [|n] Hn; simpl in *; try done; [lia|].
  f_equal. apply IH. lia.
Qed.

Lemma prefix_app (p b : string) : String.prefix p (p +:+ b) = true.
Proof.
  induction p as [|c p IH]; [by destruct b|]. rewrite string_app_cons. simpl.
  destruct (ascii_dec c c); [done|congruence].
Qed.

Lemma str_contains_prefix (p s : string) :
  String.prefix p s = true -> str_contains p s = true.
Proof. intros H. destruct s; unfold str_contains; fold str_contains; by rewrite H. Qed.

Lemma str_contains_app (a p b : string) : str_contains p (a +:+ (p +:+ b)) = true.
Proof.
  induction a as [|c a IH].
  - exact (str_contains_prefix p (p +:+ b) (prefix_app p b)).
  - rewrite string_app_cons. simpl. rewrite IH. apply orb_true_r.
Qed.

Lemma py_len_nonneg (s : string) : (0 <= py_len s)%Z.
Proof. induction s as [|c s IH]; simpl; [lia|]. destruct (is_continuation c); lia. Qed.

Lemma py_len_app (a b : string) : py_len (a +:+ b) = (py_len a + py_len b)%Z.
Proof.
  induction a as [|c a IH]; [done|].
  rewrite string_app_cons; simpl. rewrite IH. lia.
Qed.

Lemma py_len_take (n : Z) (s : string) :
  (0 <= n)%Z -> py_len (take_chars n s) = Z.min n (py_len s).
Proof.
  revert n; induction s as [|c s IH]; intros n Hn; simpl; [lia|].
  pose proof (py_len_nonneg s).
  destruct (is_continuation c) eqn:Hc.
  { simpl. rewrite Hc, IH; lia. }
  destruct (Z.leb_spec n 0); simpl; [lia|].
  rewrite Hc, IH; lia.
Qed.

Lemma take_chars_all (n : Z) (s : string) :
  (py_len s <= n)%Z -> take_chars n s = s.
Proof.
  revert n; induction s as [|c s IH]; intros n Hn; simpl in *; [done|].
  pose proof (py_len_nonneg s).
  destruct (is_continuation c).
  { f_equal. apply IH. lia. }
  destruct (Z.leb_spec n 0); [lia|]. f_equal. apply IH. lia.
Qed.

(** ** Whitespace at the end *)

(** [s] does not start inside a character. *)
Definition starts_char (s : string) : Prop :=
  match s with EmptyString => True | String c _ => is_continuation c = false end.

Lemma space2_continues a b : is_space2 a b = true -> is_continuation b = true.
Proof.
  unfold is_space2, is_continuation. cbv zeta.
  intros [_ H]%andb_true_iff. apply andb_true_iff.
  rewrite N.leb_le, N.ltb_lt. apply orb_true_iff in H as [H|H]; apply N.eqb_eq in H; lia.
Qed.

Lemma space3_continues a b c : is_space3 a b c = true -> is_continuation b = true /\ is_continuation c = true.
Proof.
  unfold is_space3, is_continuation. cbv zeta.
  rewrite !orb_true_iff, !andb_true_iff, !orb_true_iff, !andb_true_iff, !N.eqb_eq, !N.leb_le, !N.ltb_lt. lia.
Qed.

(** No whitespace starts inside a character. *)
Lemma inside_no_space c s : is_continuation c = true -> after_space (String c s) = None.
Proof.
  intros Hc. unfold is_continuation in Hc. cbv zeta in Hc.
  rewrite andb_true_iff, N.leb_le, N.ltb_lt in Hc.
  assert (H1 : is_space c = false).
  { apply not_true_iff_false. unfold is_space. cbv zeta.
    rewrite orb_true_iff, !andb_true_iff, !N.leb_le. lia. }
  assert (H2 : forall b, is_space2 c b = false).
  { intros b. apply not_true_iff_false. unfold is_space2. cbv zeta. rewrite andb_true_iff, N.eqb_eq. lia. }
  assert (H3 : forall b d, is_space3 c b d = false).
  { intros b d. apply not_true_iff_false. unfold is_space3. cbv zeta.
    rewrite !orb_true_iff, !andb_true_iff, !N.eqb_eq. lia. }
  simpl. rewrite H1. destruct s as [|b s]; [done|]. rewrite H2. destruct s as [|d s]; [done|]. by rewrite H3.
Qed.

Lemma after_space_app a b :
  a <> "" -> starts_char b ->
  after_space (a +:+ b) = option_map (fun r => r +:+ b) (after_space a).
Proof.
  intros Ha Hb. destruct (after_space a) as [r|] eqn:Hr.
  { apply after_space_split in Hr as (w & -> & _ & Hw). rewrite string_app_assoc. apply Hw. }
  destruct a as [|x a]; [done|]. simpl in *. destruct (is_space x); [done|]. destruct a as [|y a].
  - change ("" +:+ b) with b. destruct b as [|y b]; [done|].
    destruct (is_space2 x y) eqn:H2; [apply space2_continues in H2; simpl in Hb; congruence|].
    destruct b as [|z b]; [done|]. destruct (is_space3 x y z) eqn:H3; [|done].
    apply space3_continues in H3 as [H3 _]. simpl in Hb. congruence.
  - rewrite string_app_cons. destruct (is_space2 x y); [done|]. destruct a as [|z a].
    + change ("" +:+ b) with b. destruct b as [|z b]; [done|]. destruct (is_space3 x y z) eqn:H3; [|done].
      apply space3_continues in H3 as [_ H3]. simpl in Hb. congruence.
    + rewrite string_app_cons. by destruct (is_space3 x y z).
Qed.

Lemma all_space_app a b : starts_char b -> all_space (a +:+ b) = all_space a && all_space b.
Proof.
  intros Hb. induction a as [a IH] using space_ind. destruct a as [|c a]; [done|].
  rewrite (all_space_eq (String c a)), (all_space_eq (String c a +:+ b)), after_space_app by done.
  destruct (after_space (String c a)) as [r|] eqn:Hr; simpl; [|done].
  by apply IH, after_space_shorter.
Qed.

Lemma all_space_starts s : all_space s = true -> starts_char s.
Proof.
  destruct s as [|c s]; [done|]. rewrite all_space_eq. simpl starts_char.
  destruct (is_continuation c) eqn:Hc; [|done]. by rewrite inside_no_space.
Qed.

Lemma rstrip_split s : exists t, s = rstrip s +:+ t /\ all_space t = true.
Proof.
  induction s as [|c s (t & Hs & Ht)]; [by exists ""|]. cbn [rstrip].
  destruct (all_space (String c s)) eqn:H; [by exists (String c s)|]. exists t.
  split; [|done]. rewrite string_app_cons. by f_equal.
Qed.

Lemma rstrip_app a b : starts_char b -> all_space b = false -> rstrip (a +:+ b) = a +:+ rstrip b.
Proof.
  intros Hs Hb. induction a as [|c a IH]; [done|]. rewrite !string_app_cons. cbn [rstrip].
  change (String c (a +:+ b)) with (String c a +:+ b). by rewrite all_space_app, Hb, andb_false_r, IH.
Qed.

(** ** Counting the entries of a dictionary *)

Section count.
Context {K A : Type} `{Countable K}.

(** How many entries of [m] hold a value that satisfies [p]. *)
Definition count_if (p : A -> bool) (m : gmap K A) : nat :=
  size (filter (fun kv : K * A => p kv.2 = true) m).

Lemma count_if_empty (p : A -> bool) : count_if p ∅ = 0%nat.
Proof. unfold count_if. by rewrite map_filter_empty, map_size_empty. Qed.

Lemma count_if_insert (p : A -> bool) (m : gmap K A) i x :
  m !! i = None ->
  count_if p (<[i:=x]> m) = ((if p x then 1 else 0) + count_if p m)%nat.
Proof.
  intros Hi. unfold count_if.
  assert (Hf : filter (fun kv : K * A => p kv.2 = true) m !! i = None)
    by (apply map_lookup_filter_None; by left).
  destruct (p x) eqn:Hp.
  - rewrite map_filter_insert_True by done. by rewrite map_size_insert_None.
  - rewrite map_filter_insert_False by (simpl; congruence).
    by rewrite delete_id.
Qed.

Lemma count_if_delete (p : A -> bool) (m : gmap K A) i x :
  m !! i = Some x ->
  count_if p m = ((if p x then 1 else 0) + count_if p (delete i m))%nat.
Proof.
  intros Hi. rewrite <- (insert_delete_id m i x Hi) at 1.
  apply count_if_insert, lookup_delete_eq.
Qed.

Lemma count_if_update (p : A -> bool) (m : gmap K A) i x y :
  m !! i = Some x ->
  (count_if p (<[i:=y]> m) + (if p x then 1 else 0) =
   count_if p m + (if p y then 1 else 0))%nat.
Proof.
  intros Hi. rewrite <- insert_delete_eq, count_if_insert by apply lookup_delete_eq.
  rewrite (count_if_delete p m i x Hi). lia.
Qed.

Lemma count_if_zero (p : A -> bool) (m : gmap K A) :
  (forall i x, m !! i = Some x -> p x = false) -> count_if p m = 0%nat.
Proof.
  intros Hm. unfold count_if. apply map_size_empty_iff, map_eq. intros i.
  rewrite lookup_empty. apply map_lookup_filter_None.
  destruct (m !! i) as [x|] eqn:Hi; [right|by left].
  intros y [= <-]. simpl. by rewrite (Hm _ _ Hi).
Qed.

Lemma count_if_ext (p q : A -> bool) (m m' : gmap K A) :
  (forall i x, (m !! i = Some x /\ p x = true) <-> (m' !! i = Some x /\ q x = true)) ->
  count_if p m = count_if q m'.
Proof.
  intros Hm. unfold count_if. f_equal. apply map_eq. intros i.
  apply option_eq. intros x. rewrite !map_lookup_filter_Some. simpl. apply Hm.
Qed.
End count.

(** ** Results

    A computation that may raise: [inl e] is the exception, [inr x] the
    returned value. *)

Definition bind_result {E A B} (m : E + A) (k : A -> E + B) : E + B :=
  match m with inl e => inl e | inr x => k x end.

Declare Scope result_scope.
Delimit Scope result_scope with result.
Notation "x <-- m ;; k" := (bind_result m (fun x => k))
  (at level 60, m at next level, right associativity) : result_scope.
Notation "m ;;; k" := (bind_result m (fun _ => k))
  (at level 60, right associativity) : result_scope.

(** ** Automation

    [nmb] collects the lookup lemmas the components' records add;
    [crush] is the case analysis their proofs share. *)

Create HintDb nmb.

Ltac case_all :=
  repeat match goal with
  | |- context [match ?x with _ => _ end] => destruct x eqn:?
  end.

Ltac case_if :=
  match goal with
  | |- context [if ?x then _ else _] => destruct x eqn:?
  end.

(** Split a hypothesis on the scrutinee it is stuck on. *)
Ltac case_in H :=
  match type of H with
  | context [match ?x with _ => _ end] => destruct x eqn:?
  end.

(** Lookups in updated dictionaries, then the closing solvers. *)
Ltac map_crush :=
  repeat first
    [ progress simplify_map_eq
    | progress simpl in *
    | case_decide ];
  try done; try congruence; try lia.
