(* ===== verification/Json.v ===== *)
(** * Json

    The JSON values the program exchanges and [json.dumps] with its default
    settings (item and key separators with a space, [ensure_ascii=True]).  The
    broker measures payloads by the length of that text
    ([nmb/models.py], [validate_frame]) and the agent loop returns tool
    errors in it ([agent/loop.py], [_execute_one]). *)

From Stdlib Require Import Ascii.
From S2P Require Import Prelude.

(** A float is carried as the text [float.__repr__] gives it. *)
Inductive json :=
| JNull
| JBool (b : bool)
| JInt (z : Z)
| JFloat (repr : string)
| JStr (s : string)
| JArr (l : list json)
| JObj (o : list (string * json)).

(** Induction through arrays and objects. *)
Lemma json_nested_ind (P : json -> Prop) :
  P JNull -> (forall b, P (JBool b)) -> (forall z, P (JInt z)) -> (forall r, P (JFloat r)) ->
  (forall s, P (JStr s)) -> (forall l, Forall P l -> P (JArr l)) ->
  (forall o, Forall (fun kv => P kv.2) o -> P (JObj o)) -> forall j, P j.
Proof.
  intros Hn Hb Hi Hf Hs Ha Ho. fix IH 1.
  intros [|b|z|r|s|l|o]; [exact Hn|exact (Hb b)|exact (Hi z)|exact (Hf r)|exact (Hs s)| |].
  - apply Ha. induction l as [|x l IHl]; constructor; [apply IH|exact IHl].
  - apply Ho. induction o as [|[k x] o IHo]; constructor; [apply IH|exact IHo].
Qed.

Definition hex_digit (n : N) : ascii :=
  ascii_of_N (if (n <? 10)%N then (48 + n)%N else (87 + n)%N).

(** [\uXXXX] *)
Definition u_escape (n : N) : string :=
  String "\" (String "u" (String (hex_digit (n / 4096 mod 16))
    (String (hex_digit (n / 256 mod 16)) (String (hex_digit (n / 16 mod 16))
      (String (hex_digit (n mod 16)) EmptyString)))))%N.

(** A code point outside the basic plane is written as a surrogate pair. *)
Definition cp_escape (n : N) : string :=
  if (n <? 65536)%N then u_escape n
  else let m := (n - 65536)%N in
       u_escape (55296 + m / 1024)%N +:+ u_escape (56320 + m mod 1024)%N.

Definition ascii_escape (c : ascii) : string :=
  let n := N_of_ascii c in
  if (n =? 34)%N then String "\" (String (ascii_of_N 34) EmptyString)
  else if (n =? 92)%N then "\\"
  else if (n =? 10)%N then "\n"
  else if (n =? 13)%N then "\r"
  else if (n =? 9)%N then "\t"
  else if (n =? 8)%N then "\b"
  else if (n =? 12)%N then "\f"
  else if (n <? 32)%N || (n =? 127)%N then u_escape n
  else String c EmptyString.

(** Walks the UTF-8 bytes; [acc] is the code point read so far and [k] the
    number of continuation bytes still to come. *)
Fixpoint escape_from (k : nat) (acc : N) (s : string) : string :=
  match s with
  | EmptyString => EmptyString
  | String c s' =>
      let n := N_of_ascii c in
      match k with
      | S k' =>
          let acc' := (acc * 64 + n mod 64)%N in
          match k' with
          | O => cp_escape acc' +:+ escape_from 0 0 s'
          | S _ => escape_from k' acc' s'
          end
      | O =>
          if (n <? 128)%N then ascii_escape c +:+ escape_from 0 0 s'
          else if (n <? 224)%N then escape_from 1 (n mod 32) s'
          else if (n <? 240)%N then escape_from 2 (n mod 16) s'
          else escape_from 3 (n mod 8) s'
      end
  end.

Definition dquote : string := String (ascii_of_N 34) EmptyString.

Definition dump_str (s : string) : string :=
  dquote +:+ escape_from 0 0 s +:+ dquote.

(** A float: its [repr], but for the names of the values that are no numbers. *)
Definition dump_float (repr : string) : string :=
  if String.eqb repr "nan" then "NaN" else if String.eqb repr "inf" then "Infinity"
  else if String.eqb repr "-inf" then "-Infinity" else repr.

(** [json.dumps(j)] *)
Fixpoint json_dumps (j : json) : string :=
  match j with
  | JNull => "null"
  | JBool true => "true"
  | JBool false => "false"
  | JInt z => show_Z z
  | JFloat r => dump_float r
  | JStr s => dump_str s
  | JArr l => "[" +:+ String.concat ", " (map json_dumps l) +:+ "]"
  | JObj o =>
      "{" +:+ String.concat ", "
        (map (fun kv => dump_str kv.1 +:+ ": " +:+ json_dumps kv.2) o) +:+ "}"
  end.

(** [d.get(key)] on a JSON object: the first binding of the key. *)
Fixpoint obj_get (k : string) (o : list (string * json)) : option json :=
  match o with
  | [] => None
  | (k', v) :: o' => if String.eqb k k' then Some v else obj_get k o'
  end.

(** [d[k] = v]: a new key comes last. *)
Fixpoint obj_set (k : string) (v : json) (o : list (string * json)) : list (string * json) :=
  match o with
  | [] => [(k, v)]
  | (k', v') :: o => if String.eqb k k' then (k', v) :: o else (k', v') :: obj_set k v o
  end.

Lemma obj_get_set k v o : obj_get k (obj_set k v o) = Some v.
Proof.
  induction o as [|[k' v'] o IH]; simpl; [by rewrite String.eqb_refl|].
  destruct (String.eqb k k') eqn:Hk; simpl; by rewrite Hk.
Qed.

Lemma obj_get_set_ne k k' v o : k' ≠ k -> obj_get k' (obj_set k v o) = obj_get k' o.
Proof.
  intros Hne%String.eqb_neq. induction o as [|[k1 v1] o IH]; simpl; [by rewrite Hne|].
  destruct (String.eqb k k1) eqn:Hk; simpl; [|by rewrite IH].
  apply String.eqb_eq in Hk as ->. by rewrite Hne.
Qed.

(** ** Python's view of a parsed value *)

(** [\xNN] *)
Definition x_escape (n : N) : string :=
  String "\" (String "x" (String (hex_digit (n / 16)) (String (hex_digit (n mod 16))
    EmptyString)))%N.

(** One byte inside [repr]; non-ASCII characters are taken as printable. *)
Definition repr_char (quote : ascii) (c : ascii) : string :=
  let n := N_of_ascii c in
  if Ascii.eqb c quote then String "\" (String c EmptyString)
  else if (n =? 92)%N then "\\"
  else if (n =? 10)%N then "\n"
  else if (n =? 13)%N then "\r"
  else if (n =? 9)%N then "\t"
  else if (n <? 32)%N || (n =? 127)%N then x_escape n
  else String c EmptyString.

Fixpoint repr_body (quote : ascii) (s : string) : string :=
  match s with
  | EmptyString => EmptyString
  | String c s' => repr_char quote c +:+ repr_body quote s'
  end.

Definition squote : ascii := ascii_of_N 39.

Fixpoint has_char (c : ascii) (s : string) : bool :=
  match s with
  | EmptyString => false
  | String c' s' => Ascii.eqb c c' || has_char c s'
  end.

(** [repr(s)] of a string: double quotes only around a text that holds a
    single quote and no double one. *)
Definition py_repr (s : string) : string :=
  let q := if has_char squote s && negb (has_char (ascii_of_N 34) s)
           then ascii_of_N 34 else squote in
  String q (repr_body q s) +:+ String q EmptyString.

(** [repr] of the value [json.loads] builds. *)
Fixpoint json_repr (j : json) : string :=
  match j with
  | JNull => "None"
  | JBool true => "True"
  | JBool false => "False"
  | JInt z => show_Z z
  | JFloat r => r
  | JStr s => py_repr s
  | JArr l => "[" +:+ String.concat ", " (map json_repr l) +:+ "]"
  | JObj o =>
      "{" +:+ String.concat ", "
        (map (fun kv => py_repr kv.1 +:+ ": " +:+ json_repr kv.2) o) +:+ "}"
  end.

(** [str(v)] *)
Definition json_str (j : json) : string :=
  match j with JStr s => s | _ => json_repr j end.

(** [bool(v)] *)
Definition json_truthy (j : json) : bool :=
  match j with
  | JNull | JBool false => false
  | JInt z => negb (z =? 0)%Z
  | JFloat r => negb (String.eqb r "0.0" || String.eqb r "-0.0")
  | JStr s => str_truthy s
  | JArr [] | JObj [] => false
  | _ => true
  end.

(** [type(v).__name__] *)
Definition json_type_name (j : json) : string :=
  match j with
  | JNull => "NoneType" | JBool _ => "bool" | JInt _ => "int" | JFloat _ => "float"
  | JStr _ => "str" | JArr _ => "list" | JObj _ => "dict"
  end.

Example reprs :
  (py_repr "it's", json_repr (JObj [("k", JArr [JBool true; JNull; JStr "x"])])) =
  (String (ascii_of_N 34) ("it's" +:+ String (ascii_of_N 34) EmptyString),
   "{'k': [True, None, 'x']}").
Proof. vm_compute. reflexivity. Qed.

Example dumps_object :
  String.length (json_dumps (JObj [("a", JArr [JInt 1; JNull]); ("é", JStr "b")])) = 31%nat.
Proof. vm_compute. reflexivity. Qed.
