(* ===== verification/Urls.v ===== *)
(** * Urls

    [urllib.parse.quote] and [unquote] as the service tools use them (no safe
    characters, UTF-8, invalid bytes replaced), and [json.dumps] with an
    indent of two.

    Theorems: percent-encoding: what [quote] writes is one path segment,
    [unquote] reads it back, and decoding what was decoded changes nothing. *)

From S2P Require Import Prelude Json.
From Stdlib Require Import Ascii.

(** ** Percent-encoding *)

(** The characters [quote(s, safe="")] keeps. *)
Definition unreserved (c : ascii) : bool :=
  let n := N_of_ascii c in
  ((65 <=? n) && (n <=? 90) || (97 <=? n) && (n <=? 122) || (48 <=? n) && (n <=? 57)
   || (n =? 95) || (n =? 46) || (n =? 45) || (n =? 126))%N.

(** Upper-case hexadecimal digits. *)
Definition upper_hex (n : N) : ascii := ascii_of_N (if (n <? 10)%N then 48 + n else 55 + n)%N.

Fixpoint quote (s : string) : string :=
  match s with
  | EmptyString => EmptyString
  | String c s =>
      if unreserved c then String c (quote s)
      else let n := N_of_ascii c in
           String "%" (String (upper_hex (n / 16)) (String (upper_hex (n mod 16)) (quote s)))
  end.

Definition hex_value (c : ascii) : option N :=
  let n := N_of_ascii c in
  (if (48 <=? n) && (n <=? 57) then Some (n - 48)
   else if (65 <=? n) && (n <=? 70) then Some (n - 55)
   else if (97 <=? n) && (n <=? 102) then Some (n - 87)
   else None)%N.
#[global] Arguments hex_value _ : simpl never.

(** Two hexadecimal digits at the front. *)
Definition hex_pair (s : string) : option (N * string) :=
  match s with
  | String a (String b s) => h ← hex_value a; l ← hex_value b; Some (16 * h + l, s)%N
  | _ => None
  end.

(** [unquote_to_bytes]: a percent sign that starts no escape stays; [skip]
    characters belong to an escape already read. *)
Fixpoint unquote_bytes (skip : nat) (s : string) : string :=
  match s with
  | EmptyString => EmptyString
  | String c s =>
      match skip with
      | S k => unquote_bytes k s
      | O => if Ascii.eqb c "%" then
               match hex_pair s with
               | Some (n, _) => String (ascii_of_N n) (unquote_bytes 2 s)
               | None => String c (unquote_bytes 0 s)
               end
             else String c (unquote_bytes 0 s)
      end
  end.

(** ** UTF-8 with replacement *)

Definition between (lo hi : N) (c : ascii) : bool :=
  let n := N_of_ascii c in (lo <=? n)%N && (n <=? hi)%N.

(** The ranges of the bytes that follow a first byte, when it is one. *)
Definition continuation_ranges (c : ascii) : option (list (N * N)) :=
  if between 0 127 c then Some []
  else if between 194 223 c then Some [(128, 191)]%N
  else if between 224 224 c then Some [(160, 191); (128, 191)]%N
  else if between 237 237 c then Some [(128, 159); (128, 191)]%N
  else if between 225 239 c then Some [(128, 191); (128, 191)]%N
  else if between 240 240 c then Some [(144, 191); (128, 191); (128, 191)]%N
  else if between 241 243 c then Some [(128, 191); (128, 191); (128, 191)]%N
  else if between 244 244 c then Some [(128, 143); (128, 191); (128, 191)]%N
  else None.
#[global] Arguments continuation_ranges _ : simpl never.

(** U+FFFD *)
Definition replacement : string :=
  String (ascii_of_N 239) (String (ascii_of_N 191) (String (ascii_of_N 189) EmptyString)).

(** [bytes.decode(errors="replace")]: [pending] are the bytes of the character
    being read and [need] the ranges of those still to come. *)
Fixpoint decode_from (pending : string) (need : list (N * N)) (s : string) : string :=
  match s with
  | EmptyString => match need with [] => EmptyString | _ => replacement end
  | String c s =>
      let first (before : string) :=
        match continuation_ranges c with
        | None => before +:+ replacement +:+ decode_from EmptyString [] s
        | Some [] => before +:+ String c (decode_from EmptyString [] s)
        | Some need => before +:+ decode_from (String c EmptyString) need s
        end in
      match need with
      | [] => first EmptyString
      | (lo, hi) :: need =>
          if between lo hi c then
            match need with
            | [] => pending +:+ String c (decode_from EmptyString [] s)
            | _ => decode_from (pending +:+ String c EmptyString) need s
            end
          else first replacement
      end
  end.

Definition decode_replace (s : string) : string := decode_from EmptyString [] s.

Definition unquote (s : string) : string := decode_replace (unquote_bytes 0 s).

(** ** [json.dumps(data, indent=2)] *)

Fixpoint indentation (level : nat) : string :=
  match level with O => EmptyString | S n => "  " +:+ indentation n end.

Definition comma_line : string := "," +:+ newline.

Fixpoint dumps_indent (level : nat) (j : json) : string :=
  match j with
  | JArr ((_ :: _) as l) =>
      "[" +:+ newline +:+
      String.concat comma_line
        (map (fun v => indentation (S level) +:+ dumps_indent (S level) v) l) +:+
      newline +:+ indentation level +:+ "]"
  | JObj ((_ :: _) as o) =>
      "{" +:+ newline +:+
      String.concat comma_line
        (map (fun kv => indentation (S level) +:+ dump_str kv.1 +:+ ": " +:+
                        dumps_indent (S level) kv.2) o) +:+
      newline +:+ indentation level +:+ "}"
  | _ => json_dumps j
  end.

Example quoted : quote "dpickem/nv é" = "dpickem%2Fnv%20%C3%A9".
Proof. vm_compute. reflexivity. Qed.

Example unquoted : unquote "a%2fb%zz%C3%A9%C3x%E2%82" = "a/b%zzé" +:+ replacement +:+ "x" +:+ replacement.
Proof. vm_compute. reflexivity. Qed.

Example indented : dumps_indent 0 (JObj [("a", JArr [JInt 1; JObj []]); ("b", JNull)]) =
  String.concat newline
    ["{"; "  " +:+ dump_str "a" +:+ ": ["; "    1,"; "    {}"; "  ],";
     "  " +:+ dump_str "b" +:+ ": null"; "}"].
Proof. vm_compute. reflexivity. Qed.

(** ** Segments *)

(** The characters of an encoded segment. *)
Definition segment_char (c : ascii) : bool := unreserved c || Ascii.eqb c "%".

Fixpoint all_chars (p : ascii -> bool) (s : string) : bool :=
  match s with EmptyString => true | String c s => p c && all_chars p s end.

Lemma hex_is_segment c :
  segment_char (upper_hex (N_of_ascii c / 16)) = true /\
  segment_char (upper_hex (N_of_ascii c mod 16)) = true.
Proof. by destruct c as [[] [] [] [] [] [] [] []]. Qed.

Lemma quote_segment s : all_chars segment_char (quote s) = true.
Proof.
  induction s as [|c s IH]; [done|]. cbn [quote]. destruct (unreserved c) eqn:Hu; cbn [all_chars].
  - unfold segment_char at 1. by rewrite Hu, IH.
  - destruct (hex_is_segment c) as [-> ->]. by rewrite IH.
Qed.

Lemma segment_no_char c s :
  segment_char c = false -> all_chars segment_char s = true -> has_char c s = false.
Proof.
  intros Hc. induction s as [|d s IH]; [done|]. cbn. intros [Hd Hs]%andb_prop.
  destruct (Ascii.eqb_spec c d) as [->|]; [congruence|]. by apply IH.
Qed.

(** ** Reading back *)

Lemma hex_pair_back c s :
  hex_pair (String (upper_hex (N_of_ascii c / 16)) (String (upper_hex (N_of_ascii c mod 16)) s)) =
  Some (N_of_ascii c, s).
Proof. by destruct c as [[] [] [] [] [] [] [] []]. Qed.

Lemma unquote_quote s : unquote_bytes 0 (quote s) = s.
Proof.
  induction s as [|c s IH]; [done|]. cbn [quote]. destruct (unreserved c) eqn:Hu.
  - cbn [unquote_bytes]. destruct (Ascii.eqb_spec c "%") as [->|]; [discriminate|]. by rewrite IH.
  - cbn [unquote_bytes]. rewrite Ascii.eqb_refl, hex_pair_back, ascii_N_embedding. by rewrite IH.
Qed.

Lemma unquote_plain s : has_char "%" s = false -> unquote_bytes 0 s = s.
Proof.
  induction s as [|c s IH]; [done|]. cbn [has_char unquote_bytes]. rewrite Ascii.eqb_sym.
  intros [-> Hs]%orb_false_iff. by rewrite IH.
Qed.

(** ** Decoding *)

(** Bytes in the ranges of [need]. *)
Inductive fits : list (N * N) -> string -> Prop :=
| fits_nil : fits [] EmptyString
| fits_cons lo hi need c s :
    between lo hi c = true -> fits need s -> fits ((lo, hi) :: need) (String c s).

(** The UTF-8 texts. *)
Inductive utf8 : string -> Prop :=
| utf8_nil : utf8 EmptyString
| utf8_cons c need rest s :
    continuation_ranges c = Some need -> fits need rest -> utf8 s ->
    utf8 (String c rest +:+ s).

Lemma fits_app need need' a b : fits need a -> fits need' b -> fits (need ++ need') (a +:+ b).
Proof. induction 1; [done|]. intros. cbn. rewrite string_app_cons. by constructor; auto. Qed.

Lemma utf8_app a b : utf8 a -> utf8 b -> utf8 (a +:+ b).
Proof.
  induction 1 as [|c need rest s Hc Hf _ IH]; [done|]. intros Hb. rewrite string_app_assoc.
  by eapply utf8_cons; eauto.
Qed.

Lemma utf8_replacement : utf8 replacement.
Proof.
  assert (H := utf8_cons (ascii_of_N 239) _ (String (ascii_of_N 191) (String (ascii_of_N 189) ""))
    "" eq_refl). apply H; [|constructor].
  by repeat constructor.
Qed.

(** Part of a character is pending, or none. *)
Definition pending_ok (pending : string) (need : list (N * N)) : Prop :=
  need = [] \/ exists c seen rest,
    pending = String c rest /\ continuation_ranges c = Some (seen ++ need) /\ fits seen rest.

Lemma decode_utf8_from s :
  forall pending need, pending_ok pending need -> utf8 (decode_from pending need s).
Proof.
  induction s as [|c s IH]; intros pending need Hp; cbn [decode_from].
  { destruct need; [constructor|apply utf8_replacement]. }
  assert (Hfirst : forall before, utf8 before -> utf8
    match continuation_ranges c with
    | None => before +:+ replacement +:+ decode_from EmptyString [] s
    | Some [] => before +:+ String c (decode_from EmptyString [] s)
    | Some need => before +:+ decode_from (String c EmptyString) need s
    end).
  { intros before Hb. destruct (continuation_ranges c) as [[|r need']|] eqn:Hc.
    - apply utf8_app; [done|]. apply (utf8_cons c [] ""); [done|constructor|]. apply IH. by left.
    - apply utf8_app; [done|]. apply IH. right. exists c, [], "". split_and!; [done|done|constructor].
    - apply utf8_app; [done|]. apply utf8_app; [apply utf8_replacement|]. apply IH. by left. }
  destruct need as [|[lo hi] need]; [apply (Hfirst ""); constructor|].
  destruct (between lo hi c) eqn:Hb; [|apply Hfirst, utf8_replacement].
  destruct Hp as [|(d & seen & rest & -> & Hd & Hs)]; [done|].
  destruct need as [|r need].
  - change (String c (decode_from "" [] s)) with (String c "" +:+ decode_from "" [] s).
    rewrite <- string_app_assoc, string_app_cons. eapply utf8_cons; [exact Hd| |].
    + apply fits_app; [done|]. by repeat constructor.
    + apply IH. by left.
  - apply IH. right. exists d, (seen ++ [(lo, hi)]), (rest +:+ String c "").
    split_and!; [by rewrite string_app_cons|by rewrite <- app_assoc|].
    apply fits_app; [done|]. by repeat constructor.
Qed.

Lemma decode_char need rest s :
  need <> [] -> fits need rest ->
  forall pending, decode_from pending need (rest +:+ s) = pending +:+ rest +:+ decode_from "" [] s.
Proof.
  intros Hne Hf. revert Hne. induction Hf as [|lo hi need c rest Hb Hf IH]; [done|].
  intros _ pending. rewrite string_app_cons. cbn [decode_from]. rewrite Hb.
  destruct Hf as [|lo' hi' need' c' rest' Hb' Hf']; [done|].
  rewrite IH by done. by rewrite !string_app_assoc.
Qed.

Lemma decode_utf8 s : utf8 s -> decode_replace s = s.
Proof.
  unfold decode_replace. induction 1 as [|c need rest s Hc Hf _ IH]; [done|].
  rewrite string_app_cons. cbn [decode_from]. rewrite Hc.
  destruct need as [|r need].
  - inversion Hf; subst. change ("" +:+ s) with s. by rewrite IH.
  - rewrite decode_char by done. by rewrite IH.
Qed.

Lemma unquote_utf8 s : utf8 (unquote s).
Proof. apply decode_utf8_from. by left. Qed.

Lemma unquote_quoted s : utf8 s -> unquote (quote s) = s.
Proof. intros Hs. unfold unquote. by rewrite unquote_quote, decode_utf8. Qed.

(** ** Path segments of a request *)

(** [_encode_path] on a text. *)
Definition encode (s : string) : string := quote (unquote s).

Lemma encode_idempotent s : encode (encode s) = encode s.
Proof. unfold encode. by rewrite (unquote_quoted (unquote s) (unquote_utf8 s)). Qed.

Lemma encode_plain s : utf8 s -> has_char "%" s = false -> encode s = quote s.
Proof.
  intros Hu Hs. unfold encode, unquote. by rewrite unquote_plain, decode_utf8.
Qed.

Lemma encode_encoded s : utf8 s -> encode (quote s) = quote s.
Proof. intros Hu. unfold encode. by rewrite unquote_quoted. Qed.
