(* ===== verification/JsonLoads.v ===== *)
(** * JsonLoads

    [json.loads] as CPython 3.13's scanner implements it, by which the program
    reads the arguments of tool calls ([tools/registry.py], [execute];
    [agent/loop.py]), Gerrit's answers, the payloads of the command line
    ([nmb/client.py]) and the answers of the browser prototype: white space,
    strings with their escapes and surrogate pairs, numbers, the constants
    [NaN] and [Infinity], objects with repeated keys, and the text of each
    [JSONDecodeError] with its line, column and character.  A float is rounded
    to binary64 and carried as its shortest [repr]; [int] of it is here too.

    The limit of the interpreter's recursion is not modelled.

    Theorems: reading ends for every text; a text that writes a value, in
    whatever layout, is read as that value, and so are the texts of
    [json.dumps] with and without an indent. *)

From Stdlib Require Import Ascii.
From S2P Require Import Prelude Json Urls.

(** ** Errors *)

(** A [JSONDecodeError] with the rest of the document from where it points, or
    a plain [ValueError]. *)
Inductive LoadError :=
| DecodeError (msg : string) (rest : string)
| ValueError (msg : string)
| OutOfFuel.

(** What a scanner returns: the error, or the value and the rest of the text. *)
Definition Scanned (A : Type) : Type := LoadError + A * string.

(** Newlines, and the characters after the last one. *)
Fixpoint newlines (s : string) : Z :=
  match s with
  | EmptyString => 0
  | String c s => (if Ascii.eqb c (ascii_of_nat 10) then 1 else 0) + newlines s
  end%Z.

Fixpoint column (col : Z) (s : string) : Z :=
  match s with
  | EmptyString => col
  | String c s =>
      column (if Ascii.eqb c (ascii_of_nat 10) then 1
              else if is_continuation c then col else col + 1) s
  end%Z.

(** [str(exc)] of an error in the document [doc]. *)
Definition error_text (doc : string) (e : LoadError) : string :=
  match e with
  | DecodeError msg rest =>
      let read := String.substring 0 (String.length doc - String.length rest) doc in
      msg +:+ ": line " +:+ show_Z (newlines read + 1) +:+ " column " +:+ show_Z (column 1 read)
      +:+ " (char " +:+ show_Z (py_len read) +:+ ")"
  | ValueError msg => msg
  | OutOfFuel => "out of fuel"
  end.

(** ** Characters *)

Definition is_ws (c : ascii) : bool :=
  let n := N_of_ascii c in ((n =? 32) || (n =? 9) || (n =? 10) || (n =? 13))%N.

Fixpoint skip_ws (s : string) : string :=
  match s with
  | EmptyString => EmptyString
  | String c t => if is_ws c then skip_ws t else s
  end.

Definition is_digit (c : ascii) : bool := between 48 57 c.

(** Is [c] the first character? *)
Definition next_is (c : ascii) (s : string) : option string :=
  match s with String d t => if Ascii.eqb c d then Some t else None | EmptyString => None end.

(** The digits at the front and what follows them. *)
Fixpoint span_digits (s : string) : string * string :=
  match s with
  | EmptyString => (EmptyString, EmptyString)
  | String c t => if is_digit c then let '(ds, r) := span_digits t in (String c ds, r) else (EmptyString, s)
  end.

Fixpoint decimal_from (acc : Z) (ds : string) : Z :=
  match ds with
  | EmptyString => acc
  | String c ds => decimal_from (10 * acc + Z.of_N (N_of_ascii c - 48)) ds
  end%Z.

Definition decimal (ds : string) : Z := decimal_from 0 ds.

(** The UTF-8 bytes of a code point; a lone surrogate is written like the
    others of its length. *)
Definition utf8_char (n : N) : string :=
  (if n <? 128 then String (ascii_of_N n) EmptyString
   else if n <? 2048 then
     String (ascii_of_N (192 + n / 64)) (String (ascii_of_N (128 + n mod 64)) EmptyString)
   else if n <? 65536 then
     String (ascii_of_N (224 + n / 4096)) (String (ascii_of_N (128 + n / 64 mod 64))
       (String (ascii_of_N (128 + n mod 64)) EmptyString))
   else
     String (ascii_of_N (240 + n / 262144)) (String (ascii_of_N (128 + n / 4096 mod 64))
       (String (ascii_of_N (128 + n / 64 mod 64)) (String (ascii_of_N (128 + n mod 64)) EmptyString))))%N.

(** ** Strings: [scanstring_unicode] *)

Definition hex4 (a b c d : ascii) : option N :=
  a ← hex_value a; b ← hex_value b; c ← hex_value c; d ← hex_value d;
  Some (4096 * a + 256 * b + 16 * c + d)%N.

Definition high_surrogate (n : N) : bool := ((55296 <=? n) && (n <=? 56319))%N.
Definition low_surrogate (n : N) : bool := ((56320 <=? n) && (n <=? 57343))%N.

Definition join_surrogates (h l : N) : N := (65536 + (h - 55296) * 1024 + (l - 56320))%N.

(** The character of a short escape. *)
Definition short_escape (c : ascii) : option ascii :=
  if Ascii.eqb c (ascii_of_nat 34) || Ascii.eqb c "\" || Ascii.eqb c "/" then Some c
  else if Ascii.eqb c "b" then Some (ascii_of_nat 8)
  else if Ascii.eqb c "f" then Some (ascii_of_nat 12)
  else if Ascii.eqb c "n" then Some (ascii_of_nat 10)
  else if Ascii.eqb c "r" then Some (ascii_of_nat 13)
  else if Ascii.eqb c "t" then Some (ascii_of_nat 9)
  else None.

Definition prepend (x : string) (m : Scanned string) : Scanned string :=
  match m with inl e => inl e | inr (s, r) => inr (x +:+ s, r) end.

Definition BAD_U_ESCAPE : string := "Invalid \uXXXX escape".

(** The rest of a string that was opened at [begin]. *)
Fixpoint scan_string (begin s : string) : Scanned string :=
  match s with
  | EmptyString => inl (DecodeError "Unterminated string starting at" begin)
  | String c s1 =>
      if Ascii.eqb c (ascii_of_nat 34) then inr (EmptyString, s1)
      else if Ascii.eqb c "\" then
        match s1 with
        | EmptyString => inl (DecodeError "Unterminated string starting at" begin)
        | String e s2 =>
            if Ascii.eqb e "u" then
              match s2 with
              | String h1 (String h2 (String h3 (String h4 s3))) =>
                  match hex4 h1 h2 h3 h4, s3 with
                  | Some n, String _ _ =>
                      let alone := prepend (utf8_char n) (scan_string begin s3) in
                      match s3 with
                      | String b ((String u s4) as at_u) =>
                          if high_surrogate n && Ascii.eqb b "\" && Ascii.eqb u "u" then
                            match s4 with
                            | String k1 (String k2 (String k3 (String k4 s5))) =>
                                match hex4 k1 k2 k3 k4, s5 with
                                | Some m, String _ _ =>
                                    if low_surrogate m
                                    then prepend (utf8_char (join_surrogates n m)) (scan_string begin s5)
                                    else alone
                                | _, _ => inl (DecodeError BAD_U_ESCAPE at_u)
                                end
                            | _ => inl (DecodeError BAD_U_ESCAPE at_u)
                            end
                          else alone
                      | _ => alone
                      end
                  | _, _ => inl (DecodeError BAD_U_ESCAPE s1)
                  end
              | _ => inl (DecodeError BAD_U_ESCAPE s1)
              end
            else match short_escape e with
                 | Some x => prepend (String x EmptyString) (scan_string begin s2)
                 | None => inl (DecodeError "Invalid \escape" s)
                 end
        end
      else if (N_of_ascii c <? 32)%N then inl (DecodeError "Invalid control character at" s)
      else prepend (String c EmptyString) (scan_string begin s1)
  end.

(** ** Floats *)

(** [n / d] to the nearest integer, a tie to the even one. *)
Definition round_div (n d : Z) : Z :=
  let q := (n / d)%Z in let r := (n mod d)%Z in
  if (2 * r <? d)%Z then q else if (d <? 2 * r)%Z then (q + 1)%Z
  else if Z.even q then q else (q + 1)%Z.

(** [n / (d * base^e)] to the nearest integer. *)
Definition scaled (base n d e : Z) : Z :=
  if (0 <=? e)%Z then round_div n (d * base ^ e)
  else round_div (n * base ^ (- e)) d.

(** The binary64 nearest to [n / d > 0], as mantissa and exponent; [None]
    beyond the largest. *)
Definition to_double (n d : Z) : option (Z * Z) :=
  (let e := Z.log2 n - Z.log2 d - 53 in
   let above := if 0 <=? 53 + e then d * 2 ^ (53 + e) <=? n else d <=? n * 2 ^ (- (53 + e)) in
   let e := Z.max (if above then e + 1 else e) (- 1074) in
   let m := scaled 2 n d e in
   let '(m, e) := if m =? 2 ^ 53 then (2 ^ 52, e + 1) else (m, e) in
   if 971 <? e then None else Some (m, e))%Z.

(** The value [digits * 10^k]. *)
Definition of_decimal (digits k : Z) : option (Z * Z) :=
  if (0 <=? k)%Z then to_double (digits * 10 ^ k) 1 else to_double digits (10 ^ (- k)).

(** The exponent of the first decimal digit of [n / d > 0]. *)
Definition first_exponent (n d : Z) : Z :=
  if (d <=? n)%Z then (Z.of_nat (String.length (show_Z (n / d))) - 1)%Z
  else (- Z.of_nat (String.length (show_Z ((d - 1) / n))))%Z.

(** The first [p] digits of [n / d], rounded, and the exponent of the first. *)
Definition digits_of (p n d : Z) : Z * Z :=
  (let x := first_exponent n d in
   let ds := scaled 10 n d (x - p + 1) in
   if ds =? 10 ^ p then (10 ^ (p - 1), x + 1) else (ds, x))%Z.

(** As few digits as give the float back; seventeen always do. *)
Fixpoint shortest (tries : nat) (p m e : Z) : Z * Z :=
  (let n := m * 2 ^ Z.max 0 e in let d := 2 ^ Z.max 0 (- e) in
   let '(ds, x) := digits_of p n d in
   match tries with
   | O => (ds, x)
   | S tries => if bool_decide (of_decimal ds (x - p + 1) = Some (m, e)) then (ds, x)
                else shortest tries (p + 1) m e
   end)%Z.

Fixpoint zeros (n : nat) : string :=
  match n with O => EmptyString | S n => String "0" (zeros n) end.

Fixpoint rstrip_zeros (s : string) : string :=
  match s with
  | EmptyString => EmptyString
  | String c s =>
      match rstrip_zeros s with
      | EmptyString => if Ascii.eqb c "0" then EmptyString else String c EmptyString
      | t => String c t
      end
  end.

(** [float.__repr__] of the digits [ds] with the point before the one of
    exponent [x - 1]. *)
Definition format_repr (ds : string) (x : Z) : string :=
  let point := (x + 1)%Z in let n := Z.of_nat (String.length ds) in
  if ((point <=? -4) || (16 <? point))%Z then
    String.substring 0 1 ds
    +:+ (if (1 <? n)%Z then "." +:+ String.substring 1 (String.length ds) ds else EmptyString)
    +:+ "e" +:+ (if (x <? 0)%Z then "-" else "+")
    +:+ (if (Z.abs x <? 10)%Z then "0" else EmptyString) +:+ show_Z (Z.abs x)
  else if (point <=? 0)%Z then "0." +:+ zeros (Z.to_nat (- point)) +:+ ds
  else if (n <=? point)%Z then ds +:+ zeros (Z.to_nat (point - n)) +:+ ".0"
  else String.substring 0 (Z.to_nat point) ds +:+ "."
       +:+ String.substring (Z.to_nat point) (String.length ds) ds.

(** [repr(float(text))] of a literal: its integer and fraction digits and its
    exponent. *)
Definition float_repr (negative : bool) (int frac : string) (exponent : Z) : string :=
  let sign := if negative then "-" else EmptyString in
  let digits := decimal (int +:+ frac) in
  let k := (exponent - Z.of_nat (String.length frac))%Z in
  let size := (Z.of_nat (String.length (show_Z digits)) + k)%Z in
  sign +:+
  (if (digits =? 0)%Z || (size <? -330)%Z then "0.0"
   else if (310 <? size)%Z then "inf"
   else match of_decimal digits k with
        | None => "inf"
        | Some (0%Z, _) => "0.0"
        | Some (m, e) => let '(ds, x) := shortest 16 1 m e in format_repr (rstrip_zeros (show_Z ds)) x
        end).

(** ** Numbers: [_match_number_unicode] *)

Definition MAX_INT_DIGITS : nat := 4300.

Definition too_many_digits (n : nat) : string :=
  "Exceeds the limit (4300 digits) for integer string conversion: value has "
  +:+ show_Z (Z.of_nat n) +:+ " digits; use sys.set_int_max_str_digits() to increase the limit".

(** A sign at the front. *)
Definition minus (s : string) : bool * string :=
  match next_is "-" s with Some t => (true, t) | None => (false, s) end.

Definition sign (s : string) : bool * string :=
  match next_is "+" s with Some t => (false, t) | None => minus s end.

Definition signed (negative : bool) (n : Z) : Z := if negative then (- n)%Z else n.

(** The digits before the point: a zero stands alone. *)
Definition scan_int (s : string) : string * string :=
  match next_is "0" s with Some t => ("0", t) | None => span_digits s end.

(** The fraction at the front, if there is one, and the exponent. *)
Definition scan_fraction (s : string) : option string * string :=
  match next_is "." s with
  | Some t => let '(ds, r) := span_digits t in if str_truthy ds then (Some ds, r) else (None, s)
  | None => (None, s)
  end.

Definition scan_exponent (s : string) : option Z * string :=
  match s with
  | String c t =>
      if Ascii.eqb c "e" || Ascii.eqb c "E" then
        let '(negative, t) := sign t in
        let '(ds, r) := span_digits t in
        if str_truthy ds then (Some (signed negative (decimal ds)), r) else (None, s)
      else (None, s)
  | EmptyString => (None, s)
  end.

Definition scan_number (start : string) : Scanned json :=
  let '(negative, s) := minus start in
  let '(int, s) := scan_int s in
  if str_truthy int then
    let '(frac, s) := scan_fraction s in
    let '(exponent, s) := scan_exponent s in
    match frac, exponent with
    | None, None =>
        if (MAX_INT_DIGITS <? String.length int)%nat
        then inl (ValueError (too_many_digits (String.length int)))
        else inr (JInt (signed negative (decimal int)), s)
    | _, _ => inr (JFloat (float_repr negative int (default EmptyString frac) (default 0%Z exponent)), s)
    end
  else inl (DecodeError "Expecting value" start).

(** [int(x)] of a float, towards zero. *)
Definition int_of_float (repr : string) : string + Z :=
  if String.eqb repr "nan" then inl "cannot convert float NaN to integer"
  else
    let '(negative, s) := minus repr in
    if String.eqb s "inf" then inl "cannot convert float infinity to integer"
    else
      let '(int, s) := scan_int s in
      let '(frac, s) := scan_fraction s in
      let frac := default EmptyString frac in
      let k := (default 0 (scan_exponent s).1 - Z.of_nat (String.length frac))%Z in
      match of_decimal (decimal (int +:+ frac)) k with
      | Some (m, e) => inr (signed negative (if (0 <=? e)%Z then m * 2 ^ e else m / 2 ^ (- e))%Z)
      | None => inl "cannot convert float infinity to integer"
      end.

Example truncated :
  map int_of_float ["2.9"; "-2.9"; "0.0"; "1e+22"; "1e-05"; "-inf"] =
  [inr 2%Z; inr (-2)%Z; inr 0%Z; inr 10000000000000000000000%Z; inr 0%Z;
   inl "cannot convert float infinity to integer"].
Proof. vm_compute. reflexivity. Qed.

(** ** Values: [_scan_once_unicode], [_parse_array_unicode] and
    [_parse_object_unicode] *)

(** The constant [word] at the front. *)
Definition constant (word s : string) : option string :=
  if startswith word s
  then Some (String.substring (String.length word) (String.length s - String.length word) s) else None.

Definition constants : list (string * json) :=
  [("null", JNull); ("true", JBool true); ("false", JBool false); ("NaN", JFloat "nan");
   ("Infinity", JFloat "inf"); ("-Infinity", JFloat "-inf")].

Definition scan_constant (s : string) : option (json * string) :=
  fold_right (fun wv found => match constant wv.1 s with Some r => Some (wv.2, r) | None => found end)
    None constants.

(** A [dict]: the last value of a key, where the key was first. *)
Definition dict (kvs : list (string * json)) : list (string * json) :=
  fold_left (fun o kv => obj_set kv.1 kv.2 o) kvs [].

(** An item of an object or an array, and then the end or the next one. *)
Definition listed {A} (close : ascii) (trailing : string) (item : string -> Scanned A)
  (more : string -> Scanned (list A)) (s : string) : Scanned (list A) :=
  (p <-- item s;;
   let s := skip_ws p.2 in
   match next_is close s with
   | Some r => inr ([p.1], r)
   | None =>
       match next_is "," s with
       | None => inl (DecodeError "Expecting ',' delimiter" s)
       | Some t =>
           let t := skip_ws t in
           match next_is close t with
           | Some _ => inl (DecodeError trailing s)
           | None => q <-- more t;; inr (p.1 :: q.1, q.2)
           end
       end
   end)%result.

(** A key, a colon and a value. *)
Definition scan_member (value : string -> Scanned json) (s : string) : Scanned (string * json) :=
  match next_is (ascii_of_nat 34) s with
  | None => inl (DecodeError "Expecting property name enclosed in double quotes" s)
  | Some t =>
      (p <-- scan_string s t;;
       let r := skip_ws p.2 in
       match next_is ":" r with
       | None => inl (DecodeError "Expecting ':' delimiter" r)
       | Some t => q <-- value (skip_ws t);; inr ((p.1, q.1), q.2)
       end)%result
  end.

Fixpoint scan_once (fuel : nat) (s : string) : Scanned json :=
  match fuel with
  | O => inl OutOfFuel
  | S fuel =>
      match s with
      | EmptyString => inl (DecodeError "Expecting value" s)
      | String c t =>
          if Ascii.eqb c (ascii_of_nat 34) then (p <-- scan_string s t;; inr (JStr p.1, p.2))%result
          else if Ascii.eqb c "[" then
            let t := skip_ws t in
            match next_is "]" t with
            | Some r => inr (JArr [], r)
            | None => (p <-- scan_elements fuel t;; inr (JArr p.1, p.2))%result
            end
          else if Ascii.eqb c "{" then
            let t := skip_ws t in
            match next_is "}" t with
            | Some r => inr (JObj [], r)
            | None => (p <-- scan_members fuel t;; inr (JObj (dict p.1), p.2))%result
            end
          else match scan_constant s with Some vr => inr vr | None => scan_number s end
      end
  end

with scan_elements (fuel : nat) (s : string) : Scanned (list json) :=
  match fuel with
  | O => inl OutOfFuel
  | S fuel => listed "]" "Illegal trailing comma before end of array" (scan_once fuel) (scan_elements fuel) s
  end

with scan_members (fuel : nat) (s : string) : Scanned (list (string * json)) :=
  match fuel with
  | O => inl OutOfFuel
  | S fuel => listed "}" "Illegal trailing comma before end of object" (scan_member (scan_once fuel))
                (scan_members fuel) s
  end.

(** ** [json.loads] *)

Definition BOM : string :=
  String (ascii_of_nat 239) (String (ascii_of_nat 187) (String (ascii_of_nat 191) EmptyString)).

Definition load (doc : string) : LoadError + json :=
  if startswith BOM doc
  then inl (DecodeError "Unexpected UTF-8 BOM (decode using utf-8-sig)" doc)
  else match scan_once (2 * String.length doc + 1) (skip_ws doc) with
       | inl e => inl e
       | inr (v, r) => let r := skip_ws r in
                       if str_truthy r then inl (DecodeError "Extra data" r) else inr v
       end.

(** The text of the exception, or the value. *)
Definition json_loads (doc : string) : string + json :=
  match load doc with inl e => inl (error_text doc e) | inr v => inr v end.

(** Documents are written with single quotes here. *)
Fixpoint with_quotes (s : string) : string :=
  match s with
  | EmptyString => EmptyString
  | String c s => String (if Ascii.eqb c "'" then ascii_of_nat 34 else c) (with_quotes s)
  end.

Example documents :
  map (fun s => json_loads (with_quotes s))
    [" {'a': [1, -2.50, '\u00e9\n'], 'b': true, 'a': null}"; "'\ud83d\ude00'"; "-0";
     "0.1e1"; "1e23"; "123456789012345678.5"; "1e400"; "0.00001"] =
  map inr [JObj [("a", JNull); ("b", JBool true)]; JStr "😀"; JInt 0;
           JFloat "1.0"; JFloat "1e+23"; JFloat "1.2345678901234568e+17"; JFloat "inf"; JFloat "1e-05"].
Proof. vm_compute. reflexivity. Qed.

Example mistakes :
  map (fun s => json_loads (with_quotes s))
    [""; "{'é': nul}"; "[1, 2,]"; "{'a': 1" +:+ newline +:+ " 'b'"; "'\x'"; "'ab"; "01"; "{'a' 1}"; "{1: 2}"] =
  map inl ["Expecting value: line 1 column 1 (char 0)"; "Expecting value: line 1 column 7 (char 6)";
           "Illegal trailing comma before end of array: line 1 column 6 (char 5)";
           "Expecting ',' delimiter: line 2 column 2 (char 9)";
           "Invalid \escape: line 1 column 2 (char 1)";
           "Unterminated string starting at: line 1 column 1 (char 0)";
           "Extra data: line 1 column 2 (char 1)"; "Expecting ':' delimiter: line 1 column 6 (char 5)";
           "Expecting property name enclosed in double quotes: line 1 column 2 (char 1)"].
Proof. vm_compute. reflexivity. Qed.

(** ** Reading ends *)

(** What a scanner leaves is shorter, and it does not run out of fuel. *)
Definition consumes {A} (s : string) (m : Scanned A) : Prop :=
  match m with inl e => e <> OutOfFuel | inr (_, r) => String.length r < String.length s end.

Lemma skip_ws_length s : String.length (skip_ws s) <= String.length s.
Proof. induction s as [|c s IH]; [done|]. cbn. destruct (is_ws c); cbn; lia. Qed.

Lemma next_is_length c s t : next_is c s = Some t -> String.length s = S (String.length t).
Proof. destruct s as [|d s]; [done|]. cbn. destruct (Ascii.eqb c d); [|done]. by intros [= ->]. Qed.

Lemma prepend_consumes x s s' m :
  consumes s' m -> String.length s' <= String.length s -> consumes s (prepend x m).
Proof. destruct m as [e|[v r]]; cbn; [done|lia]. Qed.

Lemma scan_string_consumes begin s : consumes s (scan_string begin s).
Proof.
  remember (String.length s) as n eqn:Hn. revert s Hn.
  induction (lt_wf n) as [n _ IH]. intros s ->.
  assert (H : forall s' x, String.length s' < String.length s -> consumes s (prepend x (scan_string begin s'))).
  { intros s' x Hs. apply (prepend_consumes x s s'); [by apply (IH (String.length s'))|lia]. }
  clear IH. destruct s as [|c s]; [done|]. cbn [scan_string].
  repeat first [done | apply H; cbn; lia | case_match]; cbn; lia.
Qed.

Lemma span_digits_length s ds r : span_digits s = (ds, r) -> String.length s = (String.length ds + String.length r)%nat.
Proof.
  revert ds r. induction s as [|c s IH]; intros ds r; cbn; [by intros [= <- <-]|].
  destruct (is_digit c); [|by intros [= <- <-]].
  destruct (span_digits s) as [ds' r'] eqn:Hs. intros [= <- <-]. cbn. by rewrite (IH ds' r' eq_refl).
Qed.

Lemma minus_length s : String.length (minus s).2 <= String.length s.
Proof. unfold minus. destruct (next_is _ s) eqn:Hs; [apply next_is_length in Hs; cbn; lia|done]. Qed.

Lemma sign_length s : String.length (sign s).2 <= String.length s.
Proof. unfold sign. destruct (next_is "+" s) eqn:Hs; [apply next_is_length in Hs; cbn; lia|apply minus_length]. Qed.

Lemma scan_int_length s int r :
  scan_int s = (int, r) -> String.length s = (String.length int + String.length r)%nat.
Proof.
  unfold scan_int. destruct (next_is _ s) as [t|] eqn:Hs; [|apply span_digits_length].
  apply next_is_length in Hs. by intros [= <- <-].
Qed.

Lemma scan_fraction_length s f r : scan_fraction s = (f, r) -> String.length r <= String.length s.
Proof.
  unfold scan_fraction. destruct (next_is _ s) as [t|] eqn:Hs; [|by intros [= <- <-]].
  apply next_is_length in Hs. destruct (span_digits t) as [ds r'] eqn:Ht. apply span_digits_length in Ht.
  destruct (str_truthy ds); intros [= <- <-]; lia.
Qed.

Lemma scan_exponent_length s x r : scan_exponent s = (x, r) -> String.length r <= String.length s.
Proof.
  destruct s as [|c s]; [by intros [= <- <-]|]. cbn [scan_exponent]. destruct (_ || _); [|by intros [= <- <-]].
  pose proof (sign_length s) as Hs. destruct (sign s) as [b t]. destruct (span_digits t) as [ds r'] eqn:Ht.
  apply span_digits_length in Ht. destruct (str_truthy ds); intros [= <- <-]; cbn in *; lia.
Qed.

Lemma scan_number_consumes s : consumes s (scan_number s).
Proof.
  unfold scan_number. pose proof (minus_length s) as H0. destruct (minus s) as [b s0].
  destruct (scan_int s0) as [int s1] eqn:H1. apply scan_int_length in H1.
  destruct int as [|c int]; [done|]. cbn [str_truthy negb String.eqb].
  destruct (scan_fraction s1) as [f s2] eqn:H2. apply scan_fraction_length in H2.
  destruct (scan_exponent s2) as [x s3] eqn:H3. apply scan_exponent_length in H3.
  cbn [String.length fst snd] in *. generalize MAX_INT_DIGITS. intros limit.
  repeat case_match; cbn [consumes]; done || lia.
Qed.

Lemma substring_app w r :
  String.substring (String.length w) (String.length (w +:+ r) - String.length w) (w +:+ r) = r.
Proof.
  induction w as [|c w IH]; [cbn [String.length]; rewrite Nat.sub_0_r; by apply substring_all|done].
Qed.

Lemma startswith_app w s : startswith w s = true -> exists r, s = w +:+ r.
Proof.
  unfold startswith. revert s. induction w as [|c w IH]; intros s; [by exists s|].
  destruct s as [|d s]; [done|]. cbn. destruct (ascii_dec c d) as [->|]; [|done].
  intros [r ->]%IH. by exists r.
Qed.

(** A constant is at the front exactly when the text starts with it. *)
Lemma constant_spec w s r : constant w s = Some r <-> s = w +:+ r.
Proof.
  unfold constant. split.
  - destruct (startswith w s) eqn:Hw; [|done]. apply startswith_app in Hw as [t ->].
    rewrite substring_app. by intros [= ->].
  - intros ->. unfold startswith. by rewrite prefix_app, substring_app.
Qed.

Lemma scan_constant_spec s v r :
  scan_constant s = Some (v, r) -> exists w, (w, v) ∈ constants /\ s = w +:+ r.
Proof.
  unfold scan_constant. induction constants as [|[w v'] l IH]; cbn [fold_right fst snd]; [done|].
  destruct (constant w s) as [r'|] eqn:Hw.
  - intros [= -> ->]. exists w. split; [by left|]. by apply constant_spec.
  - intros H. destruct (IH H) as (w' & Hin & Hc). exists w'. by split; [right|].
Qed.

Lemma scan_constant_length s v r : scan_constant s = Some (v, r) -> String.length r < String.length s.
Proof.
  intros (w & Hin & ->)%scan_constant_spec. rewrite string_length_app.
  assert (0 < String.length w); [|lia]. revert Hin. unfold constants.
  repeat (rewrite elem_of_cons; intros [[= -> _]|Hin]; [cbn; lia|revert Hin]). set_solver.
Qed.

(** A bound of the items is one of the list. *)
Lemma listed_consumes {A} close trailing (item : string -> Scanned A) more s :
  consumes s (item s) ->
  (forall t, String.length t < String.length s -> consumes t (more t)) ->
  consumes s (listed close trailing item more s).
Proof.
  intros Hi Hm. unfold listed. destruct (item s) as [e|[x r]]; [done|]. cbn in *.
  pose proof (skip_ws_length r) as Hr. destruct (next_is close (skip_ws r)) as [t|] eqn:Hc.
  { apply next_is_length in Hc. cbn. lia. }
  destruct (next_is "," (skip_ws r)) as [t|] eqn:Ht; [|done]. apply next_is_length in Ht.
  pose proof (skip_ws_length t). destruct (next_is close (skip_ws t)); [done|].
  specialize (Hm (skip_ws t) ltac:(lia)). destruct (more (skip_ws t)) as [e|[l q]]; cbn in *; [done|lia].
Qed.

Lemma scan_member_consumes value s :
  (forall t, String.length t < String.length s -> consumes t (value t)) -> consumes s (scan_member value s).
Proof.
  intros Hv. unfold scan_member. destruct (next_is _ s) as [t|] eqn:Hs; [|done]. apply next_is_length in Hs.
  pose proof (scan_string_consumes s t) as Hk. destruct (scan_string s t) as [e|[k r]]; [done|]. cbn in *.
  pose proof (skip_ws_length r) as Hr. destruct (next_is ":" (skip_ws r)) as [u|] eqn:Hu; [|done].
  apply next_is_length in Hu. pose proof (skip_ws_length u).
  specialize (Hv (skip_ws u) ltac:(lia)). destruct (value (skip_ws u)) as [e|[v q]]; cbn in *; [done|lia].
Qed.

Lemma scan_consumes fuel :
  (forall s, 2 * String.length s < fuel -> consumes s (scan_once fuel s)) /\
  (forall s, 2 * String.length s + 1 < fuel -> consumes s (scan_elements fuel s)) /\
  (forall s, 2 * String.length s + 1 < fuel -> consumes s (scan_members fuel s)).
Proof.
  induction fuel as [|fuel (IHv & IHe & IHm)]; [split_and!; lia|]. split_and!; intros s Hs.
  - destruct s as [|c s]; [done|]. cbn [scan_once String.length] in *. pose proof (skip_ws_length s) as Hw.
    assert (Hget : forall c t, next_is c (skip_ws s) = Some t -> String.length t < S (String.length s))
      by (intros d t Ht%next_is_length; lia).
    destruct (Ascii.eqb c (ascii_of_nat 34)).
    { pose proof (scan_string_consumes (String c s) s) as Hk.
      destruct (scan_string (String c s) s) as [e|[k r]]; cbn in *; [done|lia]. }
    destruct (Ascii.eqb c "[").
    { destruct (next_is "]" (skip_ws s)) as [t|] eqn:Ht; [by apply Hget in Ht|].
      specialize (IHe (skip_ws s) ltac:(lia)). destruct (scan_elements fuel (skip_ws s)) as [e|[l r]]; cbn in *; [done|lia]. }
    destruct (Ascii.eqb c "{").
    { destruct (next_is "}" (skip_ws s)) as [t|] eqn:Ht; [by apply Hget in Ht|].
      specialize (IHm (skip_ws s) ltac:(lia)). destruct (scan_members fuel (skip_ws s)) as [e|[l r]]; cbn in *; [done|lia]. }
    destruct (scan_constant (String c s)) as [[v r]|] eqn:Hc; [by apply scan_constant_length in Hc|].
    apply scan_number_consumes.
  - cbn [scan_elements]. apply listed_consumes; [apply IHv; lia|]. intros t Ht. apply IHe. lia.
  - cbn [scan_members]. apply listed_consumes; [|intros t Ht; apply IHm; lia].
    apply scan_member_consumes. intros t Ht. apply IHv. lia.
Qed.

(** Every document is read to its end or to an error of the scanner. *)
Theorem loading_ends doc : load doc <> inl OutOfFuel.
Proof.
  unfold load. destruct (startswith BOM doc); [done|].
  pose proof (skip_ws_length doc) as Hl.
  pose proof (proj1 (scan_consumes (2 * String.length doc + 1)) (skip_ws doc) ltac:(lia)) as Hc.
  destruct (scan_once _ (skip_ws doc)) as [e|[v r]]; [cbn in Hc; congruence|].
  by destruct (str_truthy _).
Qed.

(** ** Strings are read as they were written *)

Lemma hex_value_digit n : (n < 16)%N -> hex_value (hex_digit n) = Some n.
Proof.
  intros Hn. destruct n as [|p]; [done|]. by repeat (destruct p as [p|p|]; try done; try lia).
Qed.

Lemma hex4_digits n :
  (n < 65536)%N ->
  hex4 (hex_digit (n / 4096 mod 16)) (hex_digit (n / 256 mod 16)) (hex_digit (n / 16 mod 16))
       (hex_digit (n mod 16)) = Some n.
Proof.
  intros Hn. unfold hex4. rewrite !hex_value_digit by (apply N.mod_lt; lia). cbn [mbind option_bind].
  f_equal. zify. Z.to_euclidean_division_equations. lia.
Qed.

Lemma string_nil_app s : "" +:+ s = s.
Proof. done. Qed.

Section strings.
Context (begin : string).

Lemma scan_u_escape n c s :
  (n < 65536)%N -> high_surrogate n = false ->
  scan_string begin (u_escape n +:+ String c s) = prepend (utf8_char n) (scan_string begin (String c s)).
Proof.
  intros Hn Hh. unfold u_escape. rewrite !string_app_cons, ?string_nil_app.
  cbn [scan_string Ascii.eqb Bool.eqb]. rewrite (hex4_digits n Hn).
  destruct s as [|u s]; [done|]. by rewrite Hh.
Qed.

Lemma scan_surrogates h l c s :
  high_surrogate h = true -> low_surrogate l = true ->
  scan_string begin (u_escape h +:+ u_escape l +:+ String c s) =
  prepend (utf8_char (join_surrogates h l)) (scan_string begin (String c s)).
Proof.
  intros Hh Hl. pose proof Hh as H1. pose proof Hl as H2.
  apply andb_prop in H1 as [_ H1%N.leb_le], H2 as [_ H2%N.leb_le].
  unfold u_escape. rewrite !string_app_cons, ?string_nil_app.
  cbn [scan_string Ascii.eqb Bool.eqb].
  rewrite (hex4_digits h) by lia. rewrite Hh. cbn [andb]. rewrite (hex4_digits l) by lia. by rewrite Hl.
Qed.

Lemma scan_cp_escape n c s :
  (n < 1114112)%N -> high_surrogate n = false ->
  scan_string begin (cp_escape n +:+ String c s) = prepend (utf8_char n) (scan_string begin (String c s)).
Proof.
  intros Hn Hh. unfold cp_escape. destruct (N.ltb_spec n 65536) as [Hlt|Hge]; [by apply scan_u_escape|].
  rewrite string_app_assoc, scan_surrogates.
  - f_equal. f_equal. unfold join_surrogates. zify. Z.to_euclidean_division_equations. lia.
  - unfold high_surrogate. apply andb_true_intro. rewrite !N.leb_le. zify. Z.to_euclidean_division_equations. lia.
  - unfold low_surrogate. apply andb_true_intro. rewrite !N.leb_le. zify. Z.to_euclidean_division_equations. lia.
Qed.

Lemma scan_ascii_escape c d s :
  (N_of_ascii c < 128)%N ->
  scan_string begin (ascii_escape c +:+ String d s) =
  prepend (String c EmptyString) (scan_string begin (String d s)).
Proof.
  intros Hc. destruct c as [[] [] [] [] [] [] [] []]; try (cbn in Hc; lia);
    cbn; (done || by destruct s).
Qed.
End strings.

(** The code point that the bytes of a character add up to, as [json.dumps]
    computes it. *)
Section code_points.
#[local] Open Scope N_scope.

Lemma base64 x y : y < 64 -> (x * 64 + y) / 64 = x /\ (x * 64 + y) mod 64 = y.
Proof.
  intros Hy. rewrite N.add_comm, N.div_add, N.Div0.mod_add by lia.
  by rewrite N.div_small, N.mod_small by lia.
Qed.

Lemma below_multiple a m k : k * m <= a -> a < k * m + m -> a mod m = a - k * m.
Proof. intros H1 H2. symmetry. apply (N.mod_unique _ _ k); lia. Qed.

(** The six bits of a continuation byte. *)
Lemma continued b : 128 <= b <= 191 -> exists x, b mod 64 = x /\ x < 64 /\ 128 + x = b.
Proof. intros Hb. exists (b - 128). rewrite (below_multiple b 64 2) by lia. lia. Qed.

Lemma utf8_char_2 a b :
  194 <= a <= 223 -> 128 <= b <= 191 ->
  let n := a mod 32 * 64 + b mod 64 in
  utf8_char n = String (ascii_of_N a) (String (ascii_of_N b) EmptyString) /\ 128 <= n < 2048.
Proof.
  intros Ha (x & -> & Hx & Hb)%continued n. unfold n. rewrite (below_multiple a 32 6) by lia. split; [|lia].
  unfold utf8_char. destruct (base64 (a - 6 * 32) _ Hx) as [-> ->].
  replace (192 + (a - 6 * 32)) with a by lia. rewrite Hb.
  destruct (N.ltb_spec ((a - 6 * 32) * 64 + x) 128); [lia|].
  by destruct (N.ltb_spec ((a - 6 * 32) * 64 + x) 2048); [|lia].
Qed.

Lemma utf8_char_3 a b c :
  224 <= a <= 239 -> 128 <= b <= 191 -> 128 <= c <= 191 -> (a = 224 -> 160 <= b) -> (a = 237 -> b <= 159) ->
  let n := (a mod 16 * 64 + b mod 64) * 64 + c mod 64 in
  utf8_char n = String (ascii_of_N a) (String (ascii_of_N b) (String (ascii_of_N c) EmptyString)) /\
  128 <= n < 65536 /\ high_surrogate n = false.
Proof.
  intros Ha (x & -> & Hx & <-)%continued (y & -> & Hy & <-)%continued H224 H237.
  rewrite (below_multiple a 16 14) by lia. remember ((a - 14 * 16) * 64 + x) as m eqn:Hm.
  destruct (base64 (a - 14 * 16) _ Hx) as [Hm1 Hm2], (base64 m _ Hy) as [Hn1 Hn2]. rewrite <- Hm in Hm1, Hm2.
  intros n. change (m * 64 + y) with n in Hn1, Hn2. assert (Hn : n = m * 64 + y) by done. clearbody n.
  assert (Hr : 2048 <= n < 65536 /\ high_surrogate n = false).
  { split; [lia|]. unfold high_surrogate. destruct (N.leb_spec 55296 n), (N.leb_spec n 56319); cbn; lia. }
  split; [|destruct Hr; split; [lia|done]]. unfold utf8_char. destruct Hr as [Hr _].
  destruct (N.ltb_spec n 128); [lia|]. destruct (N.ltb_spec n 2048); [lia|].
  destruct (N.ltb_spec n 65536); [|lia]. change 4096 with (64 * 64).
  rewrite <- N.Div0.div_div, Hn1, Hn2, Hm1, Hm2. by replace (224 + (a - 14 * 16)) with a by lia.
Qed.

Lemma utf8_char_4 a b c d :
  240 <= a <= 244 -> 128 <= b <= 191 -> 128 <= c <= 191 -> 128 <= d <= 191 ->
  (a = 240 -> 144 <= b) -> (a = 244 -> b <= 143) ->
  let n := ((a mod 8 * 64 + b mod 64) * 64 + c mod 64) * 64 + d mod 64 in
  utf8_char n = String (ascii_of_N a) (String (ascii_of_N b) (String (ascii_of_N c)
                  (String (ascii_of_N d) EmptyString))) /\ 65536 <= n < 1114112.
Proof.
  intros Ha (x & -> & Hx & <-)%continued (y & -> & Hy & <-)%continued (z & -> & Hz & <-)%continued H240 H244.
  rewrite (below_multiple a 8 30) by lia. remember ((a - 30 * 8) * 64 + x) as k eqn:Hk.
  remember (k * 64 + y) as m eqn:Hm.
  destruct (base64 (a - 30 * 8) _ Hx) as [Hk1 Hk2], (base64 k _ Hy) as [Hm1 Hm2], (base64 m _ Hz) as [Hn1 Hn2].
  rewrite <- Hk in Hk1, Hk2. rewrite <- Hm in Hm1, Hm2.
  intros n. change (m * 64 + z) with n in Hn1, Hn2. assert (Hn : n = m * 64 + z) by done. clearbody n.
  assert (Hr : 65536 <= n < 1114112) by lia. split; [|done]. unfold utf8_char.
  destruct (N.ltb_spec n 128); [lia|]. destruct (N.ltb_spec n 2048); [lia|].
  destruct (N.ltb_spec n 65536); [lia|]. change 262144 with (64 * 64 * 64). change 4096 with (64 * 64).
  rewrite <- !N.Div0.div_div, Hn1, Hn2, Hm1, Hm2, Hk1, Hk2.
  by replace (240 + (a - 30 * 8)) with a by lia.
Qed.
End code_points.

Lemma app_string a d t : exists c s, a +:+ String d t = String c s.
Proof. destruct a as [|c a]; eexists _, _; reflexivity. Qed.

Lemma prepend_prepend a b m : prepend a (prepend b m) = prepend (a +:+ b) m.
Proof. destruct m as [e|[s r]]; [done|]. cbn. by rewrite string_app_assoc. Qed.

Lemma between_spec lo hi c : between lo hi c = true -> (lo <= N_of_ascii c <= hi)%N.
Proof. unfold between. intros [H1%N.leb_le H2%N.leb_le]%andb_prop. lia. Qed.

(** The shapes of a character's bytes. *)
Lemma char_shapes c need rest :
  continuation_ranges c = Some need -> fits need rest ->
  (let a := N_of_ascii c in
   rest = EmptyString /\ a < 128 \/
   (exists x, rest = String x EmptyString /\ 194 <= a <= 223 /\ 128 <= N_of_ascii x <= 191) \/
   (exists x y, rest = String x (String y EmptyString) /\ 224 <= a <= 239 /\ 128 <= N_of_ascii x <= 191 /\
      128 <= N_of_ascii y <= 191 /\ (a = 224 -> 160 <= N_of_ascii x) /\ (a = 237 -> N_of_ascii x <= 159)) \/
   (exists x y z, rest = String x (String y (String z EmptyString)) /\ 240 <= a <= 244 /\
      128 <= N_of_ascii x <= 191 /\ 128 <= N_of_ascii y <= 191 /\ 128 <= N_of_ascii z <= 191 /\
      (a = 240 -> 144 <= N_of_ascii x) /\ (a = 244 -> N_of_ascii x <= 143)))%N.
Proof.
  unfold continuation_ranges. intros Hc Hf. cbn zeta.
  repeat (case_match; [|]); simplify_eq; repeat match goal with
    | H : fits (_ :: _) _ |- _ => inversion H; clear H; subst
    | H : fits [] _ |- _ => inversion H; clear H; subst
    end;
    repeat match goal with
    | H : between 237 237 c = false |- _ =>
        assert (N_of_ascii c <> 237%N)
          by (intros E; unfold between in H; rewrite E in H; discriminate H); clear H
    | H : between 224 224 c = false |- _ =>
        assert (N_of_ascii c <> 224%N)
          by (intros E; unfold between in H; rewrite E in H; discriminate H); clear H
    | H : between 240 240 c = false |- _ =>
        assert (N_of_ascii c <> 240%N)
          by (intros E; unfold between in H; rewrite E in H; discriminate H); clear H
    | H : between _ _ _ = true |- _ => apply between_spec in H
    end;
    first [ left; split; [done|lia]
          | right; left; eexists; split; [done|lia]
          | right; right; left; eexists _, _; split; [done|lia]
          | right; right; right; eexists _, _, _; split; [done|lia] ].
Qed.

(** The escape of one character is read as the character. *)
Lemma scan_escaped_char begin c need rest s d t :
  continuation_ranges c = Some need -> fits need rest ->
  scan_string begin (escape_from 0 0 (String c rest +:+ s) +:+ String d t) =
  prepend (String c rest) (scan_string begin (escape_from 0 0 s +:+ String d t)).
Proof.
  intros Hc Hf. pose proof (char_shapes c need rest Hc Hf) as Hs. clear Hc Hf.
  destruct (app_string (escape_from 0 0 s) d t) as (d' & t' & Ht).
  assert (Hcp : forall n, utf8_char n = String c rest -> (n < 1114112)%N -> high_surrogate n = false ->
    scan_string begin ((cp_escape n +:+ escape_from 0 0 s) +:+ String d t) =
    prepend (String c rest) (scan_string begin (escape_from 0 0 s +:+ String d t))).
  { intros n Hn H1 H2. rewrite string_app_assoc, Ht, scan_cp_escape by done. by rewrite Hn. }
  rewrite string_app_cons. cbn [escape_from].
  destruct Hs as [[-> Ha]|[(x & -> & Ha & Hx)|[(x & y & -> & Ha & Hx & Hy & H1 & H2)
    |(x & y & z & -> & Ha & Hx & Hy & Hz & H1 & H2)]]].
  - rewrite (proj2 (N.ltb_lt _ _) Ha), string_nil_app, string_app_assoc, Ht. by apply scan_ascii_escape.
  - destruct (N.ltb_spec (N_of_ascii c) 128); [lia|]. destruct (N.ltb_spec (N_of_ascii c) 224); [|lia].
    pose proof (utf8_char_2 _ _ Ha Hx) as [Hu Hn]. rewrite !ascii_N_embedding in Hu.
    rewrite string_app_cons, string_nil_app. cbn [escape_from]. apply Hcp; [done|lia|].
    unfold high_surrogate. apply andb_false_intro1, N.leb_gt. lia.
  - destruct (N.ltb_spec (N_of_ascii c) 128); [lia|]. destruct (N.ltb_spec (N_of_ascii c) 224); [lia|].
    destruct (N.ltb_spec (N_of_ascii c) 240); [|lia].
    pose proof (utf8_char_3 _ _ _ Ha Hx Hy H1 H2) as (Hu & Hn & Hh). rewrite !ascii_N_embedding in Hu.
    rewrite !string_app_cons, string_nil_app. cbn [escape_from]. apply Hcp; [done|lia|done].
  - destruct (N.ltb_spec (N_of_ascii c) 128); [lia|]. destruct (N.ltb_spec (N_of_ascii c) 224); [lia|].
    destruct (N.ltb_spec (N_of_ascii c) 240); [lia|].
    pose proof (utf8_char_4 _ _ _ _ Ha Hx Hy Hz H1 H2) as (Hu & Hn). rewrite !ascii_N_embedding in Hu.
    rewrite !string_app_cons, string_nil_app. cbn [escape_from]. apply Hcp; [done|lia|].
    unfold high_surrogate. apply andb_false_intro2, N.leb_gt. lia.
Qed.

(** The escaped text is read to its closing quote. *)
Lemma scan_escaped begin s d t :
  utf8 s -> scan_string begin (escape_from 0 0 s +:+ String d t) = prepend s (scan_string begin (String d t)).
Proof.
  induction 1 as [|c need rest s Hc Hf _ IH]; [cbn [escape_from]; rewrite string_nil_app; by destruct (scan_string _ _) as [|[? ?]]|].
  rewrite (scan_escaped_char begin c need rest) by done. by rewrite IH, prepend_prepend.
Qed.

Lemma scan_dumped begin s r :
  utf8 s -> scan_string begin (escape_from 0 0 s +:+ dquote +:+ r) = inr (s, r).
Proof.
  intros Hs. unfold dquote. rewrite string_app_cons, string_nil_app, scan_escaped by done.
  change (prepend s (inr (EmptyString, r)) = inr (s, r)). unfold prepend. by rewrite string_app_nil_r.
Qed.

(** ** Numbers are read as they were written *)

(** What may follow a value. *)
Definition delimiter (c : ascii) : bool :=
  is_ws c || Ascii.eqb c "," || Ascii.eqb c "]" || Ascii.eqb c "}".

Definition delimited (r : string) : bool :=
  match r with String c _ => delimiter c | EmptyString => true end.

Lemma delimiter_ends c t :
  delimiter c = true ->
  is_digit c = false /\ (Ascii.eqb c "e" || Ascii.eqb c "E") = false /\ next_is "." (String c t) = None /\
  next_is "+" (String c t) = None /\ next_is "-" (String c t) = None /\ next_is "0" (String c t) = None.
Proof. by destruct c as [[] [] [] [] [] [] [] []]. Qed.

Section followed.
Context (r : string) (ends : delimited r = true).

Lemma next_is_app c s :
  next_is c r = None -> next_is c (s +:+ r) = option_map (fun t => t +:+ r) (next_is c s).
Proof. intros Hr. destruct s as [|d s]; [done|]. rewrite string_app_cons. cbn. by destruct (Ascii.eqb c d). Qed.

Lemma next_is_ends c : In c ["."; "+"; "-"; "0"]%char -> next_is c r = None.
Proof.
  intros Hc. cbn in Hc. destruct r as [|d t]; [done|]. destruct (delimiter_ends d t ends) as (_ & _ & ? & ? & ? & ?).
  by destruct Hc as [<-|[<-|[<-|[<-|[]]]]].
Qed.

Lemma span_digits_app s : span_digits (s +:+ r) = ((span_digits s).1, (span_digits s).2 +:+ r).
Proof.
  induction s as [|c s IH].
  - rewrite string_nil_app. destruct r as [|d t]; [done|]. cbn.
    by destruct (delimiter_ends d t ends) as (-> & _).
  - rewrite string_app_cons. cbn [span_digits]. destruct (is_digit c); [|done].
    rewrite IH. by destruct (span_digits s).
Qed.

Lemma minus_app s : minus (s +:+ r) = ((minus s).1, (minus s).2 +:+ r).
Proof. unfold minus. rewrite next_is_app by (apply next_is_ends; cbn; auto). by destruct (next_is "-" s). Qed.

Lemma sign_app s : sign (s +:+ r) = ((sign s).1, (sign s).2 +:+ r).
Proof.
  unfold sign. rewrite next_is_app by (apply next_is_ends; cbn; auto). destruct (next_is "+" s); [done|apply minus_app].
Qed.

Lemma scan_int_app s : scan_int (s +:+ r) = ((scan_int s).1, (scan_int s).2 +:+ r).
Proof.
  unfold scan_int. rewrite next_is_app by (apply next_is_ends; cbn; auto).
  destruct (next_is "0" s); [done|apply span_digits_app].
Qed.

Lemma scan_fraction_app s : scan_fraction (s +:+ r) = ((scan_fraction s).1, (scan_fraction s).2 +:+ r).
Proof.
  unfold scan_fraction. rewrite next_is_app by (apply next_is_ends; cbn; auto).
  destruct (next_is "." s) as [t|]; [|done]. cbn [option_map]. rewrite span_digits_app.
  destruct (span_digits t) as [ds u]. cbn [fst snd]. by destruct (str_truthy ds).
Qed.

Lemma scan_exponent_app s : scan_exponent (s +:+ r) = ((scan_exponent s).1, (scan_exponent s).2 +:+ r).
Proof.
  destruct s as [|c s].
  - rewrite string_nil_app. destruct r as [|d t]; [done|]. cbn [scan_exponent fst snd].
    by destruct (delimiter_ends d t ends) as (_ & -> & _).
  - rewrite string_app_cons. cbn [scan_exponent]. destruct (_ || _); [|done]. rewrite sign_app.
    destruct (sign s) as [b t]. cbn [fst snd]. rewrite span_digits_app. destruct (span_digits t) as [ds u].
    cbn [fst snd]. by destruct (str_truthy ds).
Qed.

(** A number ends where a delimiter follows. *)
Lemma scan_number_app s v t : scan_number s = inr (v, t) -> scan_number (s +:+ r) = inr (v, t +:+ r).
Proof.
  unfold scan_number. rewrite minus_app. destruct (minus s) as [b s0]. cbn [fst snd].
  rewrite scan_int_app. destruct (scan_int s0) as [int s1]. cbn [fst snd]. destruct (str_truthy int); [|done].
  rewrite scan_fraction_app. destruct (scan_fraction s1) as [f s2]. cbn [fst snd].
  rewrite scan_exponent_app. destruct (scan_exponent s2) as [x s3]. cbn [fst snd].
  destruct f, x; try by intros [= <- <-]. destruct (_ <? _)%nat; [done|]. by intros [= <- <-].
Qed.
End followed.

(** The digits [str] writes. *)
Lemma decimal_pretty n acc : decimal_from 0 (pretty_N_go n acc) = decimal_from (Z.of_N n) acc.
Proof.
  revert acc. induction (N.lt_wf_0 n) as [n _ IH]; intros acc.
  destruct (decide (n = 0)%N) as [->|Hn]; [by rewrite pretty_N_go_0|].
  rewrite pretty_N_go_step by lia. rewrite IH by (apply N.div_lt; lia). cbn [decimal_from]. f_equal.
  assert (Hm : (n mod 10 < 10)%N) by (apply N.mod_lt; lia).
  assert (Hd : forall k, (k < 10)%N -> (N_of_ascii (pretty_N_char k) - 48 = k)%N).
  { intros k Hk. destruct k as [|p]; [done|]. by repeat (destruct p as [p|p|]; try done; try lia). }
  rewrite Hd by done. pose proof (N.div_mod n 10 ltac:(lia)). lia.
Qed.

Lemma pretty_digits n acc : all_chars is_digit acc = true -> all_chars is_digit (pretty_N_go n acc) = true.
Proof.
  revert acc. induction (N.lt_wf_0 n) as [n _ IH]; intros acc Hacc.
  destruct (decide (n = 0)%N) as [->|Hn]; [by rewrite pretty_N_go_0|].
  rewrite pretty_N_go_step by lia. apply IH; [apply N.div_lt; lia|]. cbn [all_chars].
  rewrite Hacc, andb_true_r. unfold pretty_N_char. by repeat case_match.
Qed.

(** No leading zero. *)
Lemma pretty_head n acc :
  (0 < n)%N -> exists c t, pretty_N_go n acc = String c t /\ is_digit c = true /\ Ascii.eqb "0" c = false.
Proof.
  revert acc. induction (N.lt_wf_0 n) as [n _ IH]; intros acc Hn.
  rewrite pretty_N_go_step by lia. destruct (decide (n / 10 = 0)%N) as [Hz|Hz].
  - rewrite Hz, pretty_N_go_0. eexists _, _. split; [reflexivity|].
    apply N.div_small_iff in Hz; [|lia]. rewrite N.mod_small by done.
    destruct n as [|p]; [lia|]. by repeat (destruct p as [p|p|]; try done; try lia).
  - apply IH; [apply N.div_lt; lia|by apply N.neq_0_lt_0].
Qed.

Lemma span_all_digits s : all_chars is_digit s = true -> span_digits s = (s, EmptyString).
Proof.
  induction s as [|c s IH]; [done|]. cbn. intros [-> Hs]%andb_prop. by rewrite IH.
Qed.

(** Within the limit of the interpreter. *)
Definition short_int (z : Z) : Prop := String.length (show_Z (Z.abs z)) <= MAX_INT_DIGITS.

Lemma scan_pretty negative s p :
  minus s = (negative, pretty (Npos p)) -> String.length (pretty (Npos p)) <= MAX_INT_DIGITS ->
  scan_number s = inr (JInt (signed negative (Z.pos p)), EmptyString).
Proof.
  assert (Hp : pretty (Npos p) = pretty_N_go (Npos p) EmptyString) by done. rewrite Hp. clear Hp.
  destruct (pretty_head (Npos p) EmptyString) as (c & t & Ht & Hc & H0); [done|].
  pose proof (pretty_digits (Npos p) EmptyString eq_refl) as Hds.
  pose proof (decimal_pretty (Npos p) EmptyString) as Hdec.
  rewrite Ht in *. intros Hm Hl. unfold scan_number. rewrite Hm. clear Hm.
  assert (Hi : scan_int (String c t) = (String c t, EmptyString)).
  { unfold scan_int. cbn [next_is]. rewrite H0. by apply span_all_digits. }
  rewrite Hi. cbn [str_truthy negb String.eqb scan_fraction next_is scan_exponent].
  rewrite (proj2 (Nat.ltb_ge _ _) Hl). unfold decimal. by rewrite Hdec.
Qed.

Lemma scan_show_Z z : short_int z -> scan_number (show_Z z) = inr (JInt z, EmptyString).
Proof.
  unfold short_int. destruct z as [|p|p]; [done| |]; cbn [Z.abs]; intros Hl.
  - apply (scan_pretty false); [|exact Hl].
    change (minus (pretty_N_go (Npos p) EmptyString) = (false, pretty_N_go (Npos p) EmptyString)).
    destruct (pretty_head (Npos p) EmptyString) as (c & t & -> & Hc & _); [done|].
    unfold minus. cbn [next_is]. destruct (Ascii.eqb_spec "-" c) as [<-|]; [discriminate Hc|done].
  - by apply (scan_pretty true).
Qed.

Lemma scan_int_start s :
  str_truthy (scan_int s).1 = true -> exists c t, s = String c t /\ is_digit c = true.
Proof.
  destruct s as [|c s]; [done|]. unfold scan_int. cbn [next_is]. intros H. exists c, s. split; [done|].
  destruct (Ascii.eqb_spec "0" c) as [<-|]; [done|]. cbn [span_digits] in H. by destruct (is_digit c).
Qed.

Lemma scan_number_start s v r :
  scan_number s = inr (v, r) ->
  exists c t, s = String c t /\ (is_digit c = true \/ c = "-"%char /\ exists d u, t = String d u /\ is_digit d = true).
Proof.
  unfold scan_number. intros H. assert (Hi : str_truthy (scan_int (minus s).2).1 = true).
  { destruct (minus s) as [b s0]. cbn [snd]. destruct (scan_int s0) as [int s1]. cbn [fst]. by destruct (str_truthy int). }
  apply scan_int_start in Hi as (d & u & Hu & Hd). destruct s as [|c s]; [done|].
  exists c, s. split; [done|]. unfold minus in Hu. cbn [next_is] in Hu.
  destruct (Ascii.eqb_spec "-" c) as [<-|Hne]; cbn in Hu; [right|left]; [|by injection Hu as -> _].
  split; [done|]. by exists d, u.
Qed.

Lemma no_constant s v r : scan_number s = inr (v, r) -> scan_constant s = None.
Proof.
  intros (c & t & -> & Hc)%scan_number_start. destruct (scan_constant (String c t)) as [[j u]|] eqn:Hs; [|done].
  exfalso. apply scan_constant_spec in Hs as (w & Hin & Hw). revert Hw. unfold constants in Hin.
  repeat (rewrite elem_of_cons in Hin; destruct Hin as [[= -> _]|Hin]);
    [..|set_solver]; intros [= -> Ht];
    destruct Hc as [Hc|(Hc & d & u' & -> & Hd)]; try discriminate; injection Ht as -> _; discriminate Hd.
Qed.

(** ** Values *)

Lemma next_is_app_string c s r :
  s <> EmptyString -> next_is c (s +:+ r) = option_map (fun t => t +:+ r) (next_is c s).
Proof. destruct s as [|d s]; [done|]. intros _. rewrite string_app_cons. cbn. by destruct (Ascii.eqb c d). Qed.

(** What a value starts with. *)
Definition starts (t : string) : bool :=
  match t with String c _ => negb (delimiter c) | EmptyString => false end.

(** The scanner reads [t] as [x], whatever follows. *)
Definition reads {A} (scan : nat -> string -> Scanned A) (x : A) (t : string) : Prop :=
  starts t = true /\
  forall fuel r, 2 * String.length t < fuel -> delimited r = true -> scan fuel (t +:+ r) = inr (x, r).

Definition blank (s : string) : Prop := all_chars is_ws s = true.

Lemma skip_blank a s : blank a -> skip_ws (a +:+ s) = skip_ws s.
Proof.
  induction a as [|c a IH]; [done|]. unfold blank. cbn [all_chars]. intros [Hc Ha]%andb_prop.
  rewrite string_app_cons. cbn [skip_ws]. rewrite Hc. by apply IH.
Qed.

Lemma delimited_blank a s : blank a -> delimited s = true -> delimited (a +:+ s) = true.
Proof.
  destruct a as [|c a]; [done|]. intros [Hc _]%andb_prop _. rewrite string_app_cons. cbn. unfold delimiter. by rewrite Hc.
Qed.

Lemma starts_spec t :
  starts t = true -> exists c u, t = String c u /\ is_ws c = false /\ Ascii.eqb "]" c = false /\ Ascii.eqb "}" c = false.
Proof.
  destruct t as [|c t]; [done|]. cbn [starts]. unfold delimiter. intros H%negb_true_iff. exists c, t.
  apply orb_false_elim in H as [[[H1 H2]%orb_false_elim H3]%orb_false_elim H4].
  rewrite (Ascii.eqb_sym "]"), (Ascii.eqb_sym "}"). by rewrite H1, H3, H4.
Qed.

Lemma skip_starts t s : starts t = true -> skip_ws (t +:+ s) = t +:+ s.
Proof. intros (c & u & -> & Hc & _)%starts_spec. rewrite string_app_cons. cbn [skip_ws]. by rewrite Hc. Qed.

Lemma reads_number v t : scan_number t = inr (v, EmptyString) -> reads scan_once v t.
Proof.
  intros H. destruct (scan_number_start _ _ _ H) as (c & u & Ht & Hc).
  assert (Hs : negb (delimiter c) && negb (Ascii.eqb c (ascii_of_nat 34) || Ascii.eqb c "[" || Ascii.eqb c "{") = true).
  { destruct Hc as [Hc|[-> _]]; [|done]. clear -Hc. revert Hc. by destruct c as [[] [] [] [] [] [] [] []]. }
  apply andb_prop in Hs as [Hd Hn%negb_true_iff]. apply orb_false_elim in Hn as [[H1 H2]%orb_false_elim H3].
  split; [by rewrite Ht|]. intros [|fuel] r Hf Hr; [lia|].
  pose proof (scan_number_app r Hr t v "" H) as Happ. rewrite string_nil_app in Happ.
  pose proof (no_constant _ _ _ Happ) as Hno. rewrite Ht, string_app_cons in *.
  cbn [scan_once]. by rewrite H1, H2, H3, Hno.
Qed.

Lemma reads_constant w v : (w, v) ∈ constants -> reads scan_once v w.
Proof.
  intros Hin. split.
  { unfold constants in Hin. repeat (rewrite elem_of_cons in Hin; destruct Hin as [[= -> _]|Hin]; [done|]). set_solver. }
  intros [|fuel] r Hf _; [lia|].
  assert (Hc : scan_constant (w +:+ r) = Some (v, r)).
  { unfold scan_constant, constants in *.
    repeat (rewrite elem_of_cons in Hin; destruct Hin as [[= -> ->]|Hin];
      [by cbn [fold_right fst snd]; rewrite (proj2 (constant_spec _ _ _) eq_refl)|]). set_solver. }
  clear Hf. unfold constants in Hin. cbn [scan_once].
  repeat (rewrite elem_of_cons in Hin; destruct Hin as [[= -> ->]|Hin];
    [rewrite string_app_cons in *; by rewrite Hc|]). set_solver.
Qed.

Lemma reads_string s : utf8 s -> reads scan_once (JStr s) (dump_str s).
Proof.
  intros Hs. split; [done|]. intros [|fuel] r Hf _; [lia|].
  unfold dump_str, dquote at 1. rewrite !string_app_cons, string_nil_app, string_app_assoc. cbn [scan_once].
  change (Ascii.eqb (ascii_of_N 34) (ascii_of_nat 34)) with true. cbn iota. by rewrite scan_dumped.
Qed.

(** An item behind white space. *)
Definition padded {A} (scan : nat -> string -> Scanned A) (x : A) (t : string) : Prop :=
  exists a u, t = a +:+ u /\ blank a /\ reads scan x u.

Lemma concat_cons sep t u ts : String.concat sep (t :: u :: ts) = t +:+ sep +:+ String.concat sep (u :: ts).
Proof. done. Qed.

(** The items between commas, each with white space around it, are read in
    order. *)
Lemma scan_listed {A} close trailing (item : nat -> string -> Scanned A) scan xs ts a b fuel r :
  close = "]"%char \/ close = "}"%char ->
  (forall f s, scan (S f) s = listed close trailing (item f) (scan f) s) ->
  Forall2 (padded item) xs ts -> xs <> [] -> blank a -> blank b ->
  let text := String.concat ("," +:+ a) ts +:+ b in
  2 * String.length text + 1 < fuel ->
  next_is close (skip_ws (text +:+ String close r)) = None /\
  scan fuel (skip_ws (text +:+ String close r)) = inr (xs, r).
Proof.
  intros Hclose Hscan Hxs Hne Ha Hb. revert fuel.
  assert (Hd : delimiter close = true /\ is_ws close = false /\ Ascii.eqb close "," = false) by (by destruct Hclose as [->| ->]).
  destruct Hd as (Hd & Hw & Hcomma).
  assert (Hstart : forall t s, starts t = true -> next_is close (t +:+ s) = None).
  { intros t s (c & u & -> & _ & H1 & H2)%starts_spec. rewrite string_app_cons. cbn [next_is].
    by destruct Hclose as [->| ->]; [rewrite H1|rewrite H2]. }
  induction Hxs as [|x t xs ts (p & u & -> & Hp & Hu & Hread) Hxs IH]; [done|]. intros fuel text Hf.
  destruct fuel as [|fuel]; [lia|]. rewrite Hscan. unfold text in *. clear text.
  destruct Hxs as [|y t xs ts Hy Hxs].
  - cbn [String.concat]. rewrite !string_app_assoc, skip_blank, skip_starts by done.
    split; [by apply Hstart|]. unfold listed. cbn [String.concat] in Hf. rewrite !string_length_app in Hf.
    rewrite Hread; [|lia|by apply delimited_blank]. cbn [bind_result fst snd].
    rewrite skip_blank by done. cbn [skip_ws]. rewrite Hw. cbn [next_is]. by rewrite Ascii.eqb_refl.
  - rewrite concat_cons in *. rewrite !string_length_app in Hf. change (String.length ",") with 1 in Hf.
    destruct (IH ltac:(done) fuel) as [Hnext Hrest]; [rewrite string_length_app; lia|].
    rewrite !string_app_assoc, skip_blank, skip_starts by done. split; [by apply Hstart|].
    unfold listed. rewrite Hread; [|lia|done]. cbn [bind_result fst snd]. rewrite !string_app_cons.
    cbn [skip_ws next_is]. change (is_ws ",") with false. cbn iota. cbn [next_is]. rewrite Hcomma.
    change (Ascii.eqb "," ",") with true. cbn iota.
    rewrite string_app_assoc in Hnext, Hrest. rewrite string_nil_app, skip_blank by done. change (String "," ("" +:+ a)) with ("," +:+ a).
    by rewrite Hnext, Hrest.
Qed.

Lemma char_app c s : String c EmptyString +:+ s = String c s.
Proof. done. Qed.

Lemma reads_array l ts a0 a b :
  Forall2 (padded scan_once) l ts -> l <> [] -> blank a0 -> blank a -> blank b ->
  reads scan_once (JArr l) ("[" +:+ a0 +:+ String.concat ("," +:+ a) ts +:+ b +:+ "]").
Proof.
  intros Hl Hne Ha0 Ha Hb. split; [done|]. intros [|fuel] r Hf _; [lia|].
  rewrite !string_length_app in Hf. cbn [String.length] in Hf.
  rewrite !string_app_assoc, (char_app "["), (char_app "]"). cbn [scan_once].
  change (Ascii.eqb "[" (ascii_of_nat 34)) with false. change (Ascii.eqb "[" "[") with true. cbn iota.
  rewrite skip_blank by done.
  destruct (scan_listed "]" "Illegal trailing comma before end of array" scan_once scan_elements l ts a b fuel r)
    as [Hn Hs]; try done; [by left|rewrite string_length_app; lia|].
  rewrite string_app_assoc in Hn, Hs. by rewrite Hn, Hs.
Qed.

Lemma obj_set_new k v o : k ∉ map fst o -> obj_set k v o = o ++ [(k, v)].
Proof.
  induction o as [|[k' v'] o IH]; [done|]. cbn. intros Hk. destruct (String.eqb_spec k k') as [->|Hne].
  - exfalso. apply Hk. by left.
  - rewrite IH; [done|]. intros Hin. apply Hk. by right.
Qed.

Lemma dict_distinct o : NoDup (map fst o) -> dict o = o.
Proof.
  unfold dict. assert (H : forall o acc, NoDup (map fst (acc ++ o)) ->
    fold_left (fun o kv => obj_set kv.1 kv.2 o) o acc = acc ++ o).
  { clear o. induction o as [|[k v] o IH]; intros acc Hnd; [by rewrite app_nil_r|]. cbn [fold_left fst snd].
    rewrite map_app in Hnd. cbn [map fst] in Hnd. rewrite obj_set_new.
    - rewrite IH by (rewrite <- app_assoc, map_app; exact Hnd). by rewrite <- app_assoc.
    - apply list.NoDup_app in Hnd as (_ & Hd & _). intros Hin. apply (Hd k Hin). by left. }
  intros Hnd. by apply (H o []).
Qed.

Lemma reads_member k v t b c :
  utf8 k -> reads scan_once v t -> blank b -> blank c ->
  reads (fun f => scan_member (scan_once f)) (k, v) (dump_str k +:+ b +:+ ":" +:+ c +:+ t).
Proof.
  intros Hk [Ht Hread] Hb Hc. split; [done|]. intros fuel r Hf Hr.
  rewrite !string_length_app in Hf. unfold dump_str, scan_member.
  rewrite !string_app_assoc. unfold dquote at 1. rewrite string_app_cons. cbn [next_is].
  change (Ascii.eqb (ascii_of_nat 34) (ascii_of_N 34)) with true. cbn iota. rewrite string_nil_app.
  rewrite scan_dumped by done. cbn [bind_result fst snd]. rewrite skip_blank by done.
  rewrite !string_app_cons. cbn [skip_ws]. change (is_ws ":") with false. cbn iota. cbn [next_is].
  change (Ascii.eqb ":" ":") with true. cbn iota.
  rewrite string_nil_app, skip_blank, skip_starts by done. by rewrite Hread by (done || lia).
Qed.

Lemma reads_object o ts a0 a b :
  Forall2 (padded (fun f => scan_member (scan_once f))) o ts -> o <> [] -> NoDup (map fst o) ->
  blank a0 -> blank a -> blank b ->
  reads scan_once (JObj o) ("{" +:+ a0 +:+ String.concat ("," +:+ a) ts +:+ b +:+ "}").
Proof.
  intros Ho Hne Hnd Ha0 Ha Hb. split; [done|]. intros [|fuel] r Hf _; [lia|].
  rewrite !string_length_app in Hf. cbn [String.length] in Hf.
  rewrite !string_app_assoc, (char_app "{"), (char_app "}"). cbn [scan_once].
  change (Ascii.eqb "{" (ascii_of_nat 34)) with false. change (Ascii.eqb "{" "[") with false.
  change (Ascii.eqb "{" "{") with true. cbn iota. rewrite skip_blank by done.
  destruct (scan_listed "}" "Illegal trailing comma before end of object"
    (fun f => scan_member (scan_once f)) scan_members o ts a b fuel r)
    as [Hn Hs]; try done; [by right|rewrite string_length_app; lia|].
  rewrite string_app_assoc in Hn, Hs. rewrite Hn, Hs.
  cbn [bind_result fst snd]. by rewrite dict_distinct.
Qed.

(** ** What is written is read back *)

(** A float is carried by the text of its [repr]. *)
Definition is_repr (r : string) : Prop :=
  In r ["nan"; "inf"; "-inf"] \/ scan_number r = inr (JFloat r, EmptyString).

Definition all_of_list {A} (P : A -> Prop) (l : list A) : Prop := fold_right (fun x Q => P x /\ Q) True l.

(** The values Python's parser can build: texts are UTF-8, floats the
    shortest texts of doubles, integers within the interpreter's limit, and
    the keys of an object distinct. *)
Fixpoint loadable (j : json) : Prop :=
  match j with
  | JNull | JBool _ => True
  | JInt z => short_int z
  | JFloat r => is_repr r
  | JStr s => utf8 s
  | JArr l => fold_right (fun x P => loadable x /\ P) True l
  | JObj o => NoDup (map fst o) /\ fold_right (fun kv P => (utf8 kv.1 /\ loadable kv.2) /\ P) True o
  end.

Lemma reads_float r : is_repr r -> reads scan_once (JFloat r) (dump_float r).
Proof.
  intros [Hc|Hr].
  - destruct Hc as [<-|[<-|[<-|[]]]]; apply reads_constant; unfold constants; set_solver.
  - assert (H : dump_float r = r); [|rewrite H; by apply reads_number].
    unfold dump_float.
    destruct (String.eqb_spec r "nan") as [->|]; [discriminate Hr|].
    destruct (String.eqb_spec r "inf") as [->|]; [discriminate Hr|].
    by destruct (String.eqb_spec r "-inf") as [->|]; [discriminate Hr|].
Qed.

Lemma padded_reads {A} (scan : nat -> string -> Scanned A) x a t : blank a -> reads scan x t -> padded scan x (a +:+ t).
Proof. intros Ha Ht. by exists a, t. Qed.

Lemma blank_app a b : blank a -> blank b -> blank (a +:+ b).
Proof.
  unfold blank. induction a as [|c a IH]; [done|]. cbn [all_chars]. rewrite string_app_cons. cbn [all_chars].
  intros [-> Ha]%andb_prop Hb. by apply IH.
Qed.

Lemma blank_indentation n : blank (indentation n).
Proof. by induction n. Qed.

(** The printed elements and members, each read by its scanner. *)
Section printed.
Context (print : json -> string) (pad : string) (pad_blank : blank pad).

Definition prints (v : json) : Prop := loadable v -> reads scan_once v (print v).

Lemma elements_read l :
  Forall prints l -> loadable (JArr l) -> Forall2 (padded scan_once) l (map (fun v => pad +:+ print v) l).
Proof.
  induction 1 as [|v l Hv _ IH]; cbn; [constructor|]. intros [Hl Hls].
  constructor; [by apply padded_reads; [|apply Hv]|by apply IH].
Qed.

Lemma members_read o :
  Forall (fun kv => prints kv.2) o -> loadable (JObj o) ->
  Forall2 (padded (fun g => scan_member (scan_once g))) o
    (map (fun kv => pad +:+ dump_str kv.1 +:+ ": " +:+ print kv.2) o).
Proof.
  intros Ho [_ Hl]. induction Ho as [|[k v] o Hv _ IH]; cbn [map fst snd]; [constructor|].
  cbn [fold_right fst snd] in Hl. destruct Hl as [[Hk Hkv] Hl].
  constructor; [|by apply IH]. apply padded_reads; [done|].
  by apply (reads_member k v (print v) "" " "); [|apply Hv| |].
Qed.
End printed.

Lemma dumps_reads v : prints json_dumps v.
Proof.
  induction v as [| [] | z | r | s | l IH | o IH] using json_nested_ind; intros Hv; cbn [json_dumps].
  - apply reads_constant. unfold constants. set_solver.
  - apply reads_constant. unfold constants. set_solver.
  - apply reads_constant. unfold constants. set_solver.
  - by apply reads_number, scan_show_Z.
  - by apply reads_float.
  - by apply reads_string.
  - destruct l as [|x l]; [by split; [|intros [|fuel] r Hf _; [lia|]]|].
    apply (reads_array (x :: l) (map (fun v => "" +:+ json_dumps v) (x :: l)) "" " " ""); try done.
    by apply elements_read.
  - destruct o as [|x o]; [by split; [|intros [|fuel] r Hf _; [lia|]]|].
    apply (reads_object (x :: o) (map (fun kv => "" +:+ dump_str kv.1 +:+ ": " +:+ json_dumps kv.2) (x :: o)) "" " " "");
      try done; [by apply members_read|apply Hv].
Qed.

Lemma indented_reads v : forall n, prints (dumps_indent n) v.
Proof.
  assert (Hnl : blank newline) by done.
  induction v as [| b | z | r | s | l IH | o IH] using json_nested_ind; intros n Hv; try by apply dumps_reads.
  - destruct l as [|x l]; [by apply dumps_reads|].
    apply (reads_array (x :: l) (map (fun v => indentation (S n) +:+ dumps_indent (S n) v) (x :: l))
             newline newline (newline +:+ indentation n)); try done.
    + apply elements_read; [apply blank_indentation| |done]. eapply List.Forall_impl; [|exact IH]. cbn. auto.
    + apply blank_app; [done|apply blank_indentation].
  - destruct o as [|x o]; [by apply dumps_reads|].
    apply (reads_object (x :: o) (map (fun kv => indentation (S n) +:+ dump_str kv.1 +:+ ": " +:+ dumps_indent (S n) kv.2) (x :: o))
             newline newline (newline +:+ indentation n)); try done.
    + apply members_read; [apply blank_indentation| |done]. eapply List.Forall_impl; [|exact IH]. cbn. auto.
    + apply Hv.
    + apply blank_app; [done|apply blank_indentation].
Qed.

(** A text that the scanner reads, between white space, is a document. *)
Lemma load_reads v a t b : blank a -> blank b -> reads scan_once v t -> load (a +:+ t +:+ b) = inr v.
Proof.
  intros Ha Hb [Hs Hread]. unfold load.
  assert (Hbom : startswith BOM (a +:+ t +:+ b) = false).
  { destruct (startswith BOM (a +:+ t +:+ b)) eqn:Hw; [|done]. exfalso. apply startswith_app in Hw as [u Hu].
    destruct a as [|c a]; [|by injection Hu as -> _].
    destruct t as [|c t]; [done|]. injection Hu as -> _.
    specialize (Hread (S (2 * String.length (String (ascii_of_nat 239) t))) "" ltac:(lia) eq_refl). discriminate Hread. }
  rewrite Hbom, skip_blank, skip_starts by done.
  rewrite Hread; [|rewrite !string_length_app; lia|].
  - rewrite <- (string_app_nil_r b), skip_blank by done. done.
  - rewrite <- (string_app_nil_r b). by apply delimited_blank.
Qed.

Lemma dumps_loaded v : loadable v -> json_loads (json_dumps v) = inr v.
Proof.
  intros Hv. pose proof (load_reads v "" (json_dumps v) "" eq_refl eq_refl (dumps_reads v Hv)) as Hl.
  rewrite string_nil_app, string_app_nil_r in Hl. unfold json_loads. by rewrite Hl.
Qed.

(** [json.loads] reads back what [json.dumps] writes, with and without an
    indent. *)
Theorem loads_dumps v :
  loadable v -> json_loads (json_dumps v) = inr v /\ forall n, json_loads (dumps_indent n v) = inr v.
Proof.
  intros Hv. split; [by apply dumps_loaded|]. intros n.
  pose proof (load_reads v "" (dumps_indent n v) "" eq_refl eq_refl (indented_reads v n Hv)) as Hl.
  rewrite string_nil_app, string_app_nil_r in Hl. unfold json_loads. by rewrite Hl.
Qed.

(** ** Witness *)

Definition sample_value : json :=
  JObj [("query", JStr (with_quotes "project = 'X' & é"));
        ("limits", JArr [JInt (-15); JFloat "0.5"; JFloat "nan"; JNull])].

Lemma sample_loadable : loadable sample_value.
Proof.
  assert (Hu : forall s, decode_replace s = s -> utf8 s)
    by (intros s <-; apply (decode_utf8_from s "" [] (or_introl eq_refl))).
  cbn [loadable sample_value fold_right map fst snd]. unfold is_repr, short_int.
  split_and!; try (by apply Hu); try done.
  - apply (bool_decide_unpack (NoDup ["query"; "limits"])). by vm_compute.
  - apply (Nat.leb_le 2 MAX_INT_DIGITS). reflexivity.
  - by right.
  - by left; left.
Qed.

Lemma loads_dumps_witness :
  json_loads (json_dumps sample_value) = inr sample_value /\
  json_loads (dumps_indent 0 sample_value) = inr sample_value.
Proof. destruct (loads_dumps sample_value sample_loadable) as [H1 H2]. split; [exact H1|exact (H2 0)]. Defined.
