(* ===== verification/Difflib.v ===== *)
(** * Difflib

    [difflib.SequenceMatcher(None, a, b).ratio()], by which [tool_search]
    ranks tools ([tools/registry.py], [_field_score]): the Ratcliff/Obershelp
    algorithm with its heuristic for long texts, over code points.  The ratio
    is the rational the float approximates.

    Theorems: the ratio lies between zero and one and is one for equal texts,
    and the recursion over matching blocks ends. *)

From Stdlib Require Import Ascii QArith.
From S2P Require Import Prelude.
#[local] Close Scope Q_scope.
#[local] Open Scope nat_scope.

(** ** Characters *)

Definition starts_continued (s : string) : bool :=
  match s with String c _ => is_continuation c | EmptyString => false end.

(** The characters of a text, each as its bytes. *)
Fixpoint characters (s : string) : list string :=
  match s with
  | EmptyString => []
  | String c s =>
      match characters s with
      | x :: l => if starts_continued x then String c x :: l else String c EmptyString :: x :: l
      | [] => [String c EmptyString]
      end
  end.

(** ** [SequenceMatcher] *)

Section matcher.
Context (a b : list string).

Definition occurrences (x : string) : nat := length (List.filter (String.eqb x) b).

(** [__chain_b]: in a [b] of 200 characters or more the characters that make
    up more than one percent of it are not indexed. *)
Definition indexed (x : string) : bool :=
  negb ((200 <=? length b) && (length b / 100 + 1 <? occurrences x)).

(** A match: where it starts in [a] and in [b], and its size. *)
Definition Match : Type := nat * nat * nat.

(** [j2len.get(j - 1, 0)] *)
Definition run_before (j2len : gmap nat nat) (j : nat) : nat :=
  match j with O => 0 | S j => default 0 (j2len !! j) end.

(** One [j] of the inner loop. *)
Definition visit (x : string) (i : nat) (j2len : gmap nat nat) (st : gmap nat nat * Match) (j : nat)
  : gmap nat nat * Match :=
  let '(newj2len, (besti, bestj, bestsize)) := st in
  if bool_decide (b !! j = Some x) && indexed x then
    let k := S (run_before j2len j) in
    (<[j := k]> newj2len,
     if bestsize <? k then (i + 1 - k, j + 1 - k, k) else (besti, bestj, bestsize))
  else st.

(** One [i] of the outer loop. *)
Definition row (blo bhi : nat) (st : gmap nat nat * Match) (i : nat) : gmap nat nat * Match :=
  match a !! i with
  | Some x => fold_left (visit x i st.1) (seq blo (bhi - blo)) (∅, st.2)
  | None => (∅, st.2)
  end.

Definition same (i j : nat) : bool :=
  match a !! i, b !! j with Some x, Some y => String.eqb x y | _, _ => false end.

(** The match grows to the left, then to the right. *)
Fixpoint extend_left (n alo blo : nat) (m : Match) : Match :=
  match n, m with
  | S n, (S i, S j, k) =>
      if (alo <=? i) && (blo <=? j) && same i j then extend_left n alo blo (i, j, S k) else m
  | _, _ => m
  end.

Fixpoint extend_right (n ahi bhi : nat) (m : Match) : Match :=
  match n with
  | O => m
  | S n => let '(i, j, k) := m in
           if (i + k <? ahi) && (j + k <? bhi) && same (i + k) (j + k)
           then extend_right n ahi bhi (i, j, S k) else m
  end.

Definition find_longest_match (alo ahi blo bhi : nat) : Match :=
  let m := (fold_left (row blo bhi) (seq alo (ahi - alo)) (∅, (alo, blo, 0))).2 in
  let m := extend_left (length a) alo blo m in
  extend_right (length a) ahi bhi m.

(** The sizes of the matching blocks: the longest match, and those before and
    after it.  The queue of the code gives the same sum in another order. *)
Fixpoint matched (fuel alo ahi blo bhi : nat) : nat :=
  match fuel with
  | O => 0
  | S fuel =>
      let '(i, j, k) := find_longest_match alo ahi blo bhi in
      if k =? 0 then 0
      else k + (if (alo <? i) && (blo <? j) then matched fuel alo i blo j else 0)
             + (if (i + k <? ahi) && (j + k <? bhi) then matched fuel (i + k) ahi (j + k) bhi else 0)
  end.

Definition matches : nat := matched (S (length a)) 0 (length a) 0 (length b).
End matcher.

(** [ratio()] *)
Definition ratio (s t : string) : Q :=
  let a := characters s in let b := characters t in
  let n := length a + length b in
  if n =? 0 then 1%Q else Qmake (Z.of_nat (2 * matches a b)) (Pos.of_nat n).

Example ratios :
  map (fun x => Qred (ratio x.1 x.2))
    [("jora", "jira"); ("abcd", "bcde"); ("", ""); ("tide", "diet"); ("diet", "tide"); ("é", "é")] =
  [Qmake 3 4; Qmake 3 4; 1%Q; Qmake 1 4; Qmake 1 2; 1%Q].
Proof. vm_compute. reflexivity. Qed.

Fixpoint repeated (n : nat) (s : string) : string :=
  match n with O => "" | S n => s +:+ repeated n s end.

(** Over a long text the frequent characters only extend a match. *)
Example long_ratios :
  map (fun x => matches (characters x.1) (characters x.2))
    [("search", repeated 8 "searching jira issues by jql query");
     ("merge request", repeated 12 "create a merge request ")] = [6; 0].
Proof. vm_compute. reflexivity. Qed.

(** ** Within bounds *)

Section bounds.
Context (a b : list string) (alo ahi blo bhi : nat).

Definition within (m : Match) : Prop :=
  let '(i, j, k) := m in alo <= i /\ i + k <= ahi /\ blo <= j /\ j + k <= bhi.

(** The runs that end in row [i]. *)
Definition runs_within (i : nat) (j2len : gmap nat nat) : Prop :=
  forall j k, j2len !! j = Some k -> blo <= j < bhi /\ k + alo <= S i /\ k + blo <= S j.

Lemma visit_within x i j2len newj2len m j :
  (forall j k, j2len !! j = Some k -> blo <= j < bhi /\ k + alo <= i /\ k + blo <= S j) ->
  alo <= i < ahi -> blo <= j < bhi -> runs_within i newj2len -> within m ->
  runs_within i (visit b x i j2len (newj2len, m) j).1 /\ within (visit b x i j2len (newj2len, m) j).2.
Proof.
  intros Hold Hi Hj Hnew Hm. destruct m as [[bi bj] bs]. unfold visit.
  destruct (_ && _); [|done]. cbn [fst snd]. set (k := S (run_before j2len j)).
  assert (Hk : k + alo <= S i /\ k + blo <= S j).
  { unfold k, run_before. destruct j as [|j]; [lia|].
    destruct (j2len !! j) as [n|] eqn:Hn; cbn; [|lia]. apply Hold in Hn. lia. }
  split.
  - intros j' k' Hl. destruct (decide (j' = j)) as [->|Hne].
    + rewrite lookup_insert_eq in Hl. injection Hl as <-. lia.
    + rewrite lookup_insert_ne in Hl by done. by apply Hnew.
  - destruct (bs <? k); [|done]. unfold within. lia.
Qed.

Lemma row_within i st :
  alo <= i < ahi ->
  (forall j k, st.1 !! j = Some k -> blo <= j < bhi /\ k + alo <= i /\ k + blo <= S j) -> within st.2 ->
  runs_within i (row a b blo bhi st i).1 /\ within (row a b blo bhi st i).2.
Proof.
  intros Hi Hst Hm. unfold row. destruct (a !! i) as [x|]; [|by split; [intros j k|]].
  assert (H : forall js st', (forall j, j ∈ js -> blo <= j < bhi) ->
    runs_within i st'.1 -> within st'.2 ->
    runs_within i (fold_left (visit b x i st.1) js st').1 /\
    within (fold_left (visit b x i st.1) js st').2).
  { induction js as [|j js IH]; intros [n m] Hjs Hn Hw; [done|]. cbn [fold_left].
    destruct (visit_within x i st.1 n m j Hst Hi) as [H1 H2]; [by apply Hjs; left|done|done|].
    destruct (visit b x i st.1 (n, m) j) as [n' m']. apply IH; [|done|done].
    intros j' Hj'. apply Hjs. by right. }
  apply H; [|by intros j k|done]. intros j Hj. apply elem_of_seq in Hj. lia.
Qed.

Lemma extend_left_within n m : within m -> within (extend_left a b n alo blo m).
Proof.
  revert m. induction n as [|n IH]; intros [[[|i] [|j]] k] Hm; try done. cbn [extend_left].
  destruct (_ && _ && _) eqn:He; [|done]. apply andb_prop in He as [[H1 H2]%andb_prop _].
  apply Nat.leb_le in H1, H2. apply IH. unfold within in *. lia.
Qed.

Lemma extend_right_within n m : within m -> within (extend_right a b n ahi bhi m).
Proof.
  revert m. induction n as [|n IH]; intros [[i j] k] Hm; [done|]. cbn [extend_right].
  destruct (_ && _ && _) eqn:He; [|done]. apply andb_prop in He as [[H1 H2]%andb_prop _].
  apply Nat.ltb_lt in H1, H2. apply IH. unfold within in *. lia.
Qed.

Lemma longest_within : alo <= ahi -> blo <= bhi -> within (find_longest_match a b alo ahi blo bhi).
Proof.
  intros Ha Hb. apply extend_right_within, extend_left_within.
  assert (H : forall n, alo + n <= ahi ->
    let st := fold_left (row a b blo bhi) (seq alo n) (∅, (alo, blo, 0)) in
    (forall j k, st.1 !! j = Some k -> blo <= j < bhi /\ k + alo <= alo + n /\ k + blo <= S j) /\ within st.2).
  { induction n as [|n IH]; intros Hn; cbn zeta.
    { cbn. split; [by intros j k|lia]. }
    rewrite seq_S, fold_left_app. cbn [fold_left]. destruct IH as [H1 H2]; [lia|].
    destruct (row_within (alo + n) _ ltac:(lia) H1 H2) as [H3 H4]. split; [|done].
    intros j k Hj. apply H3 in Hj. lia. }
  apply H. lia.
Qed.
End bounds.

Lemma matched_bound a b fuel alo ahi blo bhi :
  alo <= ahi -> blo <= bhi -> matched a b fuel alo ahi blo bhi <= Nat.min (ahi - alo) (bhi - blo).
Proof.
  revert alo ahi blo bhi. induction fuel as [|fuel IH]; intros alo ahi blo bhi Ha Hb; cbn [matched]; [lia|].
  pose proof (longest_within a b alo ahi blo bhi Ha Hb) as Hw.
  destruct (find_longest_match a b alo ahi blo bhi) as [[i j] k]. unfold within in Hw.
  destruct (k =? 0); [lia|].
  pose proof (IH alo i blo j ltac:(lia) ltac:(lia)). pose proof (IH (i + k) ahi (j + k) bhi ltac:(lia) ltac:(lia)).
  repeat case_match; lia.
Qed.

(** As much fuel as the range is long is enough. *)
Lemma matched_fuel a b fuel fuel' alo ahi blo bhi :
  alo <= ahi -> blo <= bhi -> ahi - alo < fuel -> ahi - alo < fuel' ->
  matched a b fuel alo ahi blo bhi = matched a b fuel' alo ahi blo bhi.
Proof.
  revert fuel' alo ahi blo bhi. induction fuel as [|fuel IH]; intros [|fuel'] alo ahi blo bhi Ha Hb Hf Hf';
    try lia. cbn [matched].
  pose proof (longest_within a b alo ahi blo bhi Ha Hb) as Hw.
  destruct (find_longest_match a b alo ahi blo bhi) as [[i j] k]. unfold within in Hw.
  destruct (Nat.eqb_spec k 0); [done|].
  f_equal; [f_equal|]; case_match; try done; apply IH; lia.
Qed.

(** ** A text and itself *)

Section itself.
Context (l : list string).

(** The longest run of indexed equal characters that ends at a pair. *)
Definition hit (i j : nat) : bool :=
  match l !! i with Some x => bool_decide (l !! j = Some x) && indexed l x | None => false end.

Fixpoint run (i j : nat) : nat :=
  if hit i j then S (match i, j with S i, S j => run i j | _, _ => 0 end) else 0.

Lemma hit_diagonal i j : hit i j = true -> hit i i = true /\ hit j j = true.
Proof.
  unfold hit. destruct (l !! i) as [x|]; [|done]. intros [Hj Hx]%andb_prop.
  apply bool_decide_eq_true in Hj. rewrite Hj. by rewrite !bool_decide_eq_true_2, Hx.
Qed.

(** A run off the diagonal is no longer than the ones on it. *)
Lemma run_diagonal i j : run i j <= run i i /\ run i j <= run j j.
Proof.
  revert j. induction i as [|i IH]; intros j.
  - cbn. destruct (hit 0 j) eqn:Hh; [|lia]. destruct (hit_diagonal _ _ Hh) as [-> H].
    destruct j; cbn; rewrite H; lia.
  - destruct j as [|j].
    + cbn. destruct (hit (S i) 0) eqn:Hh; [|lia]. destruct (hit_diagonal _ _ Hh) as [-> ->]. lia.
    + cbn. destruct (hit (S i) (S j)) eqn:Hh; [|lia]. destruct (hit_diagonal _ _ Hh) as [-> ->].
      destruct (IH j). lia.
Qed.

(** [j2len] after a row holds its runs. *)
Definition holds_runs (i bound : nat) (j2len : gmap nat nat) : Prop :=
  forall j, default 0 (j2len !! j) = if (j <? bound) then run i j else 0.

(** The best match lies on the diagonal and is as long as any run seen. *)
Definition best_run (seen : nat -> nat -> Prop) (m : Match) : Prop :=
  let '(i, j, k) := m in i = j /\ i + k <= length l /\ forall r c, seen r c -> run r c <= k.

Lemma visit_itself x i j2len newj2len m j :
  l !! i = Some x -> j < length l ->
  (forall i', i = S i' -> holds_runs i' (length l) j2len) -> (i = 0 -> j2len = ∅) ->
  holds_runs i j newj2len ->
  best_run (fun r c => c < length l /\ (r < i \/ r = i /\ c < j)) m ->
  holds_runs i (S j) (visit l x i j2len (newj2len, m) j).1 /\
  best_run (fun r c => c < length l /\ (r < i \/ r = i /\ c < S j)) (visit l x i j2len (newj2len, m) j).2.
Proof.
  intros Hx Hj Hold Hfirst Hnew Hm. destruct m as [[bi bj] bs]. destruct Hm as (-> & Hlen & Hmax).
  assert (Hi : i < length l) by (by apply lookup_lt_is_Some; eexists).
  assert (Hhit : hit i j = bool_decide (l !! j = Some x) && indexed l x) by (unfold hit; by rewrite Hx).
  assert (Hrun : hit i j = true -> run i j = S (run_before j2len j)).
  { intros Hh. destruct i as [|i], j as [|j]; cbn [run run_before]; rewrite Hh; try done.
    - by rewrite (Hfirst eq_refl), lookup_empty.
    - pose proof (Hold i eq_refl j) as H. rewrite H. destruct (Nat.ltb_spec j (length l)); [done|lia]. }
  unfold visit. rewrite <- Hhit. destruct (hit i j) eqn:Hh; cbn [fst snd].
  - rewrite <- (Hrun eq_refl). split.
    + intros c. destruct (decide (c = j)) as [->|Hne].
      * rewrite lookup_insert_eq, (proj2 (Nat.ltb_lt j (S j))) by lia. done.
      * rewrite lookup_insert_ne by done. rewrite Hnew.
        destruct (Nat.ltb_spec c j), (Nat.ltb_spec c (S j)); try done; lia.
    + destruct (Nat.ltb_spec bs (run i j)) as [Hlt|Hge].
      * assert (j = i) as ->.
        { destruct (run_diagonal i j) as [H1 H2].
          destruct (lt_eq_lt_dec j i) as [[Hji|]|Hji]; [|done|].
          - pose proof (Hmax j j ltac:(lia)). lia.
          - pose proof (Hmax i i ltac:(lia)). lia. }
        assert (Hri : run i i <= S i).
        { clear. induction i as [|i IH]; cbn; case_match; lia. }
        split; [done|]. split; [lia|]. intros r c Hrc.
        destruct (decide (r = i /\ c = i)) as [[-> ->]|Hne]; [done|].
        pose proof (Hmax r c ltac:(lia)). lia.
      * split; [done|]. split; [done|]. intros r c Hrc.
        destruct (decide (r = i /\ c = j)) as [[-> ->]|Hne]; [done|]. apply Hmax. lia.
  - assert (Hz : run i j = 0) by (destruct i, j; cbn; by rewrite Hh).
    split.
    + intros c. rewrite Hnew. destruct (Nat.ltb_spec c j), (Nat.ltb_spec c (S j)); try done; [lia|].
      by replace c with j by lia.
    + split; [done|]. split; [done|]. intros r c Hrc.
      destruct (decide (r = i /\ c = j)) as [[-> ->]|Hne]; [lia|]. apply Hmax. lia.
Qed.

Lemma row_itself i st :
  i < length l ->
  (forall i', i = S i' -> holds_runs i' (length l) st.1) -> (i = 0 -> st.1 = ∅) ->
  best_run (fun r c => c < length l /\ r < i) st.2 ->
  holds_runs i (length l) (row l l 0 (length l) st i).1 /\
  best_run (fun r c => c < length l /\ r < S i) (row l l 0 (length l) st i).2.
Proof.
  intros Hi Hold Hfirst Hm. unfold row. destruct (l !! i) as [x|] eqn:Hx.
  2: { apply lookup_ge_None in Hx. lia. }
  rewrite Nat.sub_0_r.
  assert (H : forall n, n <= length l ->
    let st' := fold_left (visit l x i st.1) (seq 0 n) (∅, st.2) in
    holds_runs i n st'.1 /\ best_run (fun r c => c < length l /\ (r < i \/ r = i /\ c < n)) st'.2).
  { induction n as [|n IH]; intros Hn; cbn zeta.
    - cbn [seq fold_left]. split; [intros j; cbn [fst]; by rewrite lookup_empty|]. cbn. destruct st.2 as [[bi bj] bs].
      destruct Hm as (? & ? & Hmax). split; [done|]. split; [done|]. intros r c Hrc. apply Hmax. lia.
    - rewrite seq_S, fold_left_app. destruct IH as [H1 H2]; [lia|]. cbn [fold_left Nat.add].
      destruct (fold_left _ (seq 0 n) _) as [nj m]. by apply visit_itself. }
  destruct (H (length l) (le_n _)) as [H1 H2]. split; [done|].
  destruct (fold_left _ _ _).2 as [[bi bj] bs]. destruct H2 as (? & ? & Hmax).
  split; [done|]. split; [done|]. intros r c Hrc. apply Hmax. lia.
Qed.

Lemma same_itself i : i < length l -> same l l i i = true.
Proof.
  intros Hi. unfold same. destruct (l !! i) eqn:Hx; [apply String.eqb_refl|].
  apply lookup_ge_None in Hx. lia.
Qed.

Lemma left_itself n i k : i <= n -> i + k <= length l -> extend_left l l n 0 0 (i, i, k) = (0, 0, i + k).
Proof.
  revert i k. induction n as [|n IH]; intros [|i] k Hn Hl; try done; try lia.
  cbn [extend_left]. rewrite same_itself by lia. cbn [andb Nat.leb]. rewrite IH by lia.
  by rewrite Nat.add_succ_r.
Qed.

Lemma right_itself n k :
  length l <= n + k -> k <= length l -> extend_right l l n (length l) (length l) (0, 0, k) = (0, 0, length l).
Proof.
  revert k. induction n as [|n IH]; intros k Hn Hk; cbn [extend_right].
  { by replace k with (length l) by lia. }
  cbn [Nat.add]. destruct (Nat.ltb_spec k (length l)) as [Hlt|].
  - rewrite same_itself by done. apply IH; lia.
  - by replace k with (length l) by lia.
Qed.

Lemma longest_itself : find_longest_match l l 0 (length l) 0 (length l) = (0, 0, length l).
Proof.
  unfold find_longest_match. rewrite Nat.sub_0_r.
  assert (H : forall n, n <= length l ->
    let st := fold_left (row l l 0 (length l)) (seq 0 n) (∅, (0, 0, 0)) in
    (forall i', n = S i' -> holds_runs i' (length l) st.1) /\ (n = 0 -> st.1 = ∅) /\
    best_run (fun r c => c < length l /\ r < n) st.2).
  { induction n as [|n IH]; intros Hn; cbn zeta.
    - split_and!; [done|done|]. cbn. split_and!; [done|lia|]. intros r c. lia.
    - rewrite seq_S, fold_left_app. destruct IH as (H1 & H2 & H3); [lia|]. cbn [fold_left Nat.add].
      destruct (row_itself n _ ltac:(lia) H1 H2 H3) as [H4 H5].
      split_and!; [by intros ? [= <-]|done|done]. }
  destruct (H (length l) (le_n _)) as (_ & _ & Hb).
  destruct (fold_left _ _ _).2 as [[i j] k]. destruct Hb as (-> & Hl & _).
  rewrite left_itself by lia. apply right_itself; lia.
Qed.

Lemma matches_itself : matches l l = length l.
Proof.
  unfold matches. cbn [matched]. rewrite longest_itself. destruct (Nat.eqb_spec (length l) 0) as [->|]; [done|].
  cbn [Nat.add]. rewrite !Nat.ltb_irrefl. cbn [andb]. lia.
Qed.
End itself.

(** ** The ratio *)

Lemma ratio_nonneg s t : (0 <= ratio s t)%Q.
Proof.
  unfold ratio. destruct (_ =? 0); [easy|]. unfold Qle. cbn [Qnum Qden]. lia.
Qed.

Lemma ratio_le_one s t : (ratio s t <= 1)%Q.
Proof.
  unfold ratio. destruct (Nat.eqb_spec (length (characters s) + length (characters t)) 0) as [|Hn]; [easy|].
  pose proof (matched_bound (characters s) (characters t) (S (length (characters s))) 0 (length (characters s))
    0 (length (characters t)) ltac:(lia) ltac:(lia)) as H. fold (matches (characters s) (characters t)) in H.
  unfold Qle. cbn [Qnum Qden]. rewrite Z.mul_1_l, Z.mul_1_r.
  rewrite <- (positive_nat_Z (Pos.of_nat _)), Nat2Pos.id by done. lia.
Qed.

Lemma ratio_itself s : (ratio s s == 1)%Q.
Proof.
  unfold ratio. destruct (Nat.eqb_spec (length (characters s) + length (characters s)) 0) as [|Hn]; [easy|].
  rewrite matches_itself. unfold Qeq. cbn [Qnum Qden]. rewrite Z.mul_1_l, Z.mul_1_r.
  rewrite <- (positive_nat_Z (Pos.of_nat _)), Nat2Pos.id by done. lia.
Qed.
