(* ===== verification/Messages.v ===== *)
(** * Messages

    The wire types of the message bus ([nmb/models.py]): operation codes,
    error codes, delivery states, the frame [NMBMessage] and its per-[op]
    validation. *)

From S2P Require Import Prelude Json.

(** [Op] *)
Inductive Op :=
| SEND | REQUEST | REPLY | SUBSCRIBE | UNSUBSCRIBE | PUBLISH | STREAM
| DELIVER | ACK | ERROR | TIMEOUT.

#[export] Instance Op_eq_dec : EqDecision Op.
Proof. solve_decision. Defined.

#[export] Instance Op_countable : Countable Op.
Proof.
  refine (inj_countable'
    (fun o => match o with
      | SEND => 0 | REQUEST => 1 | REPLY => 2 | SUBSCRIBE => 3
      | UNSUBSCRIBE => 4 | PUBLISH => 5 | STREAM => 6 | DELIVER => 7
      | ACK => 8 | ERROR => 9 | TIMEOUT => 10 end%nat)
    (fun n => match n with
      | 0 => SEND | 1 => REQUEST | 2 => REPLY | 3 => SUBSCRIBE
      | 4 => UNSUBSCRIBE | 5 => PUBLISH | 6 => STREAM | 7 => DELIVER
      | 8 => ACK | 9 => ERROR | _ => TIMEOUT end%nat) _); by intros [].
Defined.

(** The [StrEnum] value of an [Op]. *)
Definition op_value (o : Op) : string :=
  match o with
  | SEND => "send" | REQUEST => "request" | REPLY => "reply"
  | SUBSCRIBE => "subscribe" | UNSUBSCRIBE => "unsubscribe"
  | PUBLISH => "publish" | STREAM => "stream" | DELIVER => "deliver"
  | ACK => "ack" | ERROR => "error" | TIMEOUT => "timeout"
  end.

(** [ErrorCode] *)
Inductive ErrorCode :=
| TARGET_OFFLINE | TARGET_UNKNOWN | REQUEST_TIMEOUT | PAYLOAD_TOO_LARGE
| RATE_LIMITED | CHANNEL_FULL | INVALID_FRAME | POLICY_DENIED.

#[export] Instance ErrorCode_eq_dec : EqDecision ErrorCode.
Proof. solve_decision. Defined.

Definition code_value (c : ErrorCode) : string :=
  match c with
  | TARGET_OFFLINE => "TARGET_OFFLINE" | TARGET_UNKNOWN => "TARGET_UNKNOWN"
  | REQUEST_TIMEOUT => "REQUEST_TIMEOUT"
  | PAYLOAD_TOO_LARGE => "PAYLOAD_TOO_LARGE" | RATE_LIMITED => "RATE_LIMITED"
  | CHANNEL_FULL => "CHANNEL_FULL" | INVALID_FRAME => "INVALID_FRAME"
  | POLICY_DENIED => "POLICY_DENIED"
  end.

(** [DeliveryStatus] *)
Inductive DeliveryStatus := ST_DELIVERED | ST_ERROR | ST_TIMEOUT.

(** Seconds held in a Python [float] ([timeout], [timestamp]) are an integer
    number of microseconds; the code stores them, compares them with zero
    and prints them, nothing else. *)
Definition seconds := Z.

(** [NMBMessage] *)
Record NMBMessage := {
  op : Op;
  id : string;
  from_sandbox : option string;
  to_sandbox : option string;
  type : option string;
  reply_to : option string;
  channel : option string;
  stream_id : option string;
  seq : option Z;
  done_ : option bool;
  timeout : option seconds;
  timestamp : option seconds;
  payload : option (list (string * json));
  code : option string;
  message : option string
}.

(** [NMBMessage(op=..., id=...)] with every other field at its default. *)
Definition new_message (o : Op) (i : string) : NMBMessage :=
  {| op := o; id := i; from_sandbox := None; to_sandbox := None; type := None;
     reply_to := None; channel := None; stream_id := None; seq := None;
     done_ := None; timeout := None; timestamp := None; payload := None;
     code := None; message := None |}.

(** [msg.from_sandbox = s; msg.timestamp = now] *)
Definition stamp_identity (s : string) (now : seconds) (m : NMBMessage) : NMBMessage :=
  {| op := op m; id := id m; from_sandbox := Some s; to_sandbox := to_sandbox m;
     type := type m; reply_to := reply_to m; channel := channel m;
     stream_id := stream_id m; seq := seq m; done_ := done_ m;
     timeout := timeout m; timestamp := Some now; payload := payload m;
     code := code m; message := message m |}.

(** The fields the required-field table names. *)
Inductive Field :=
| F_id | F_from_sandbox | F_to_sandbox | F_type | F_reply_to | F_channel
| F_stream_id | F_seq | F_payload | F_code | F_message.

Definition field_name (f : Field) : string :=
  match f with
  | F_id => "id" | F_from_sandbox => "from_sandbox"
  | F_to_sandbox => "to_sandbox" | F_type => "type"
  | F_reply_to => "reply_to" | F_channel => "channel"
  | F_stream_id => "stream_id" | F_seq => "seq" | F_payload => "payload"
  | F_code => "code" | F_message => "message"
  end.

(** [_REQUIRED_FIELDS]; a Python set has no order, the model fixes one. *)
Definition _REQUIRED_FIELDS (o : Op) : list Field :=
  match o with
  | SEND | REQUEST => [F_id; F_to_sandbox; F_type; F_payload]
  | REPLY => [F_id; F_reply_to; F_type; F_payload]
  | SUBSCRIBE | UNSUBSCRIBE => [F_channel]
  | PUBLISH => [F_channel; F_type; F_payload]
  | STREAM => [F_to_sandbox; F_stream_id; F_seq; F_payload]
  | DELIVER => [F_id; F_from_sandbox; F_type; F_payload]
  | ACK | TIMEOUT => [F_id]
  | ERROR => [F_id; F_code; F_message]
  end.

Definition is_some {A} (o : option A) : bool :=
  match o with Some _ => true | None => false end.

(** [getattr(self, field_name, None) is not None] *)
Definition field_present (m : NMBMessage) (f : Field) : bool :=
  match f with
  | F_id => true
  | F_from_sandbox => is_some (from_sandbox m)
  | F_to_sandbox => is_some (to_sandbox m)
  | F_type => is_some (type m)
  | F_reply_to => is_some (reply_to m)
  | F_channel => is_some (channel m)
  | F_stream_id => is_some (stream_id m)
  | F_seq => is_some (seq m)
  | F_payload => is_some (payload m)
  | F_code => is_some (code m)
  | F_message => is_some (message m)
  end.

(** [FrameValidationError] *)
Record FrameValidationError := { err_code : ErrorCode; err_text : string }.

Definition DEFAULT_NMB_MAX_PAYLOAD_BYTES : Z := (10 * 1024 * 1024)%Z.

(** [len(json.dumps(self.payload).encode())]: the text is ASCII. *)
Definition payload_bytes (p : list (string * json)) : Z :=
  Z.of_nat (String.length (json_dumps (JObj p))).

(** The size check of a payload that is present. *)
Definition check_payload (p : option (list (string * json)))
  : FrameValidationError + unit :=
  match p with
  | Some p =>
      let n := payload_bytes p in
      if (DEFAULT_NMB_MAX_PAYLOAD_BYTES <? n)%Z then
        inl {| err_code := PAYLOAD_TOO_LARGE;
               err_text := "Payload size " +:+ show_Z n +:+ " exceeds "
                 +:+ show_Z DEFAULT_NMB_MAX_PAYLOAD_BYTES +:+ " byte limit" |}
      else inr tt
  | None => inr tt
  end.

(** [validate_frame]: the first missing required field, then the size. *)
Fixpoint check_required (m : NMBMessage) (fs : list Field)
  : FrameValidationError + unit :=
  match fs with
  | [] => inr tt
  | f :: fs' =>
      if field_present m f then check_required m fs'
      else inl {| err_code := INVALID_FRAME;
                  err_text := "Missing required field '" +:+ field_name f
                    +:+ "' for op=" +:+ op_value (op m) |}
  end.

Definition validate_frame (m : NMBMessage) : FrameValidationError + unit :=
  (check_required m (_REQUIRED_FIELDS (op m)) ;;; check_payload (payload m))%result.

(** [NMBMessage.from_json]: pydantic's [model_validate_json] with its
    [ValidationError] turned into an [INVALID_FRAME].  The pydantic parser
    is a parameter: text to either its error text or a message. *)
Definition from_json (model_validate_json : string -> string + NMBMessage)
  (raw : string) : FrameValidationError + NMBMessage :=
  match model_validate_json raw with
  | inl exc => inl {| err_code := INVALID_FRAME; err_text := exc |}
  | inr m => inr m
  end.

(** [PendingRequest] *)
Record PendingRequest := {
  request_id : string;
  pr_from_sandbox : string;
  created_at : seconds;
  pr_timeout : seconds
}.

(** ** What validation guarantees *)

Lemma check_required_ok (m : NMBMessage) (fs : list Field) :
  check_required m fs = inr tt <-> Forall (fun f => field_present m f = true) fs.
Proof.
  induction fs as [|f fs IH]; simpl.
  { split; [by constructor|done]. }
  rewrite Forall_cons_iff. destruct (field_present m f); [|split; [done|by intros []]].
  rewrite IH. split; [by split|by intros []].
Qed.

Lemma validate_frame_ok (m : NMBMessage) :
  validate_frame m = inr tt <->
  Forall (fun f => field_present m f = true) (_REQUIRED_FIELDS (op m)) /\
  (forall p, payload m = Some p ->
     (payload_bytes p <= DEFAULT_NMB_MAX_PAYLOAD_BYTES)%Z).
Proof.
  pose proof (check_required_ok m (_REQUIRED_FIELDS (op m))) as Hreq.
  unfold validate_frame.
  destruct (check_required m (_REQUIRED_FIELDS (op m))) as [e|[]]; simpl.
  { split; [done|]. intros [HF _]. apply Hreq in HF. done. }
  assert (HF := proj1 Hreq eq_refl).
  unfold check_payload. destruct (payload m) as [p|]; [|done].
  destruct (Z.ltb_spec DEFAULT_NMB_MAX_PAYLOAD_BYTES (payload_bytes p)); split.
  - done.
  - intros [_ Hp]. specialize (Hp p eq_refl). lia.
  - intros _. split; [done|]. by intros ? [= <-].
  - done.
Qed.
