(* ===== verification/Broker.v ===== *)
(** * Broker

    The message router [NMBBroker] of [nmb/broker.py]: its state, one
    definition per handler, and the labelled transition system the event
    loop drives.

    A coroutine runs without interruption between two [await]s.  Every
    handler but one changes the routing state only before its first
    [await], so it is a single step; [_handle_request] also changes it
    after awaiting the delivery, so it is split there:
    [_handle_request_begin] runs up to the send and
    [_handle_request_end] from its outcome on.  A websocket [send] either
    goes through or raises [ConnectionClosed]; which one is the oracle
    [sok], asked once per socket and frame. *)

From S2P Require Import Prelude Json Messages.

(** The identity [id(ws)] of a connection object. *)
Abbreviation WS := nat (only parsing).
(** The identity of an [asyncio.Task]. *)
Abbreviation TaskId := nat (only parsing).

(** [BrokerConfig], the fields the routing reads. *)
Record BrokerConfig := {
  max_pending_per_sandbox : nat;
  default_request_timeout : seconds;
  max_channels_per_sandbox : nat
}.

(** [TrackedPending] *)
Record TrackedPending := {
  tp_pending : PendingRequest;
  timeout_task : option TaskId
}.

(** A live [_timeout_request] task: its three arguments. *)
Record Timer := {
  t_request_id : string;
  t_requester_id : string;
  t_timeout : seconds
}.

(** What reaches the audit writer, in order. *)
Inductive AuditEvent :=
| AuditConnection (sandbox_id : string)
| AuditDisconnection (sandbox_id reason : string)
| AuditMessage (m : NMBMessage) (status : DeliveryStatus)
| AuditStatus (msg_id : string) (status : DeliveryStatus).

(** The broker object, with what it has handed to the event loop: the live
    timeout tasks, the frames sent, the sockets it asked to close and the
    audit events. *)
Record Broker := {
  config : BrokerConfig;
  connections : gmap string WS;
  ws_to_sandbox : gmap WS string;
  channels : gmap string (gset string);
  sandbox_channels : gmap string (gset string);
  pending : gmap string TrackedPending;
  pending_counts : gmap string nat;
  has_audit : bool;
  timers : gmap TaskId Timer;
  next_task : TaskId;
  outbox : list (WS * NMBMessage);
  closing : list WS;
  audit_log : list AuditEvent
}.

(** [NMBBroker(config)] once [start()] has run. *)
Definition new_broker (c : BrokerConfig) (audit : bool) : Broker :=
  {| config := c; connections := ∅; ws_to_sandbox := ∅; channels := ∅;
     sandbox_channels := ∅; pending := ∅; pending_counts := ∅;
     has_audit := audit; timers := ∅; next_task := 0; outbox := [];
     closing := []; audit_log := [] |}.

(** ** Field updates *)

Definition set_registry (cs : gmap string WS) (rs : gmap WS string) (b : Broker) : Broker :=
  {| config := config b; connections := cs; ws_to_sandbox := rs;
     channels := channels b; sandbox_channels := sandbox_channels b;
     pending := pending b; pending_counts := pending_counts b;
     has_audit := has_audit b; timers := timers b; next_task := next_task b;
     outbox := outbox b; closing := closing b; audit_log := audit_log b |}.

Definition set_channels (ch sc : gmap string (gset string)) (b : Broker) : Broker :=
  {| config := config b; connections := connections b;
     ws_to_sandbox := ws_to_sandbox b; channels := ch; sandbox_channels := sc;
     pending := pending b; pending_counts := pending_counts b;
     has_audit := has_audit b; timers := timers b; next_task := next_task b;
     outbox := outbox b; closing := closing b; audit_log := audit_log b |}.

Definition set_pending (p : gmap string TrackedPending) (pc : gmap string nat)
  (b : Broker) : Broker :=
  {| config := config b; connections := connections b;
     ws_to_sandbox := ws_to_sandbox b; channels := channels b;
     sandbox_channels := sandbox_channels b; pending := p; pending_counts := pc;
     has_audit := has_audit b; timers := timers b; next_task := next_task b;
     outbox := outbox b; closing := closing b; audit_log := audit_log b |}.

Definition set_timers (ts : gmap TaskId Timer) (n : TaskId) (b : Broker) : Broker :=
  {| config := config b; connections := connections b;
     ws_to_sandbox := ws_to_sandbox b; channels := channels b;
     sandbox_channels := sandbox_channels b; pending := pending b;
     pending_counts := pending_counts b; has_audit := has_audit b;
     timers := ts; next_task := n; outbox := outbox b; closing := closing b;
     audit_log := audit_log b |}.

Definition emit (ws : WS) (m : NMBMessage) (b : Broker) : Broker :=
  {| config := config b; connections := connections b;
     ws_to_sandbox := ws_to_sandbox b; channels := channels b;
     sandbox_channels := sandbox_channels b; pending := pending b;
     pending_counts := pending_counts b; has_audit := has_audit b;
     timers := timers b; next_task := next_task b;
     outbox := outbox b ++ [(ws, m)]; closing := closing b;
     audit_log := audit_log b |}.

Definition schedule_close (ws : WS) (b : Broker) : Broker :=
  {| config := config b; connections := connections b;
     ws_to_sandbox := ws_to_sandbox b; channels := channels b;
     sandbox_channels := sandbox_channels b; pending := pending b;
     pending_counts := pending_counts b; has_audit := has_audit b;
     timers := timers b; next_task := next_task b; outbox := outbox b;
     closing := closing b ++ [ws]; audit_log := audit_log b |}.

(** Every audit call is guarded by [if self._audit]. *)
Definition audit (e : AuditEvent) (b : Broker) : Broker :=
  {| config := config b; connections := connections b;
     ws_to_sandbox := ws_to_sandbox b; channels := channels b;
     sandbox_channels := sandbox_channels b; pending := pending b;
     pending_counts := pending_counts b; has_audit := has_audit b;
     timers := timers b; next_task := next_task b; outbox := outbox b;
     closing := closing b;
     audit_log := if has_audit b then audit_log b ++ [e] else audit_log b |}.

(** ** Helpers *)

Section broker.
(** pydantic's JSON parser and the printing of a float. *)
Context (model_validate_json : string -> string + NMBMessage).
Context (show_seconds : seconds -> string).

(** The outcome of sending a frame on a socket: [true] when [send]
    returns, [false] when it raises [ConnectionClosed] (or, under
    [_safe_send], times out). *)
Definition Oracle : Type := WS -> NMBMessage -> bool.

Definition ws_send (sok : Oracle) (ws : WS) (m : NMBMessage) (b : Broker)
  : Broker * bool :=
  if sok ws m then (emit ws m b, true) else (b, false).

(** [_safe_send]: a failed send is swallowed. *)
Definition _safe_send (sok : Oracle) (ws : WS) (m : NMBMessage) (b : Broker) : Broker :=
  (ws_send sok ws m b).1.

Definition _audit_msg (m : NMBMessage) (s : DeliveryStatus) (b : Broker) : Broker :=
  audit (AuditMessage m s) b.

Definition _audit_update_status (i : string) (s : DeliveryStatus) (b : Broker) : Broker :=
  audit (AuditStatus i s) b.

Definition _make_deliver (m : NMBMessage) : NMBMessage :=
  {| op := DELIVER; id := id m; from_sandbox := from_sandbox m;
     to_sandbox := None; type := type m; reply_to := reply_to m;
     channel := channel m; stream_id := stream_id m; seq := seq m;
     done_ := done_ m; timeout := None; timestamp := timestamp m;
     payload := payload m; code := None; message := None |}.

Definition error_frame (i : string) (c : ErrorCode) (text : string) : NMBMessage :=
  {| op := ERROR; id := i; from_sandbox := None; to_sandbox := None;
     type := None; reply_to := None; channel := None; stream_id := None;
     seq := None; done_ := None; timeout := None; timestamp := None;
     payload := None; code := Some (code_value c); message := Some text |}.

Definition timeout_frame (i : string) (t : seconds) : NMBMessage :=
  {| op := TIMEOUT; id := i; from_sandbox := None; to_sandbox := None;
     type := None; reply_to := None; channel := None; stream_id := None;
     seq := None; done_ := None; timeout := None; timestamp := None;
     payload := None; code := None;
     message := Some ("No reply within " +:+ show_seconds t +:+ "s") |}.

Definition audit_opt (m : option NMBMessage) (s : DeliveryStatus) (b : Broker) : Broker :=
  match m with Some m => _audit_msg m s b | None => b end.

Definition _send_ack (sok : Oracle) (ws : WS) (i : string)
  (audit_msg : option NMBMessage) (b : Broker) : Broker :=
  audit_opt audit_msg ST_DELIVERED (ws_send sok ws (new_message ACK i) b).1.

Definition _send_error (sok : Oracle) (ws : WS) (i : string) (c : ErrorCode)
  (text : string) (audit_msg : option NMBMessage) (b : Broker) : Broker :=
  audit_opt audit_msg ST_ERROR (ws_send sok ws (error_frame i c text) b).1.

(** [asyncio.create_task(self._timeout_request(...))] *)
Definition create_timer (t : Timer) (b : Broker) : Broker * TaskId :=
  (set_timers (<[next_task b := t]> (timers b)) (S (next_task b)) b, next_task b).

(** [if task and not task.done(): task.cancel()] *)
Definition cancel_timer (t : option TaskId) (b : Broker) : Broker :=
  match t with
  | Some t => set_timers (delete t (timers b)) (next_task b) b
  | None => b
  end.

(** [counts[s] = max(0, counts.get(s, 1) - 1)] *)
Definition decrement_count (s : string) (pc : gmap string nat) : gmap string nat :=
  <[s := (default 1 (pc !! s) - 1)%nat]> pc.

(** Delivers one frame to every socket of a list, as [asyncio.gather]
    over [_safe_send]. *)
Definition gather_sends (sok : Oracle) (wss : list WS) (m : NMBMessage)
  (b : Broker) : Broker :=
  fold_left (fun b ws => _safe_send sok ws m b) wss b.

(** The sockets of the subscribers of [ch] that are connected, without
    [skip]. *)
Definition subscriber_sockets (ch : string) (skip : option string) (b : Broker)
  : list WS :=
  omap (fun s => if decide (Some s = skip) then None else connections b !! s)
       (elements (default ∅ (channels b !! ch))).

Definition _broadcast_system (sok : Oracle) (m : NMBMessage) (b : Broker) : Broker :=
  gather_sends sok (subscriber_sockets "system" None b) m b.

(** ** Connections *)

Definition _register (sandbox_id : string) (ws : WS) (b : Broker) : Broker :=
  match connections b !! sandbox_id with
  | Some _ => schedule_close ws b
  | None =>
      audit (AuditConnection sandbox_id)
        (set_registry (<[sandbox_id := ws]> (connections b))
                      (<[ws := sandbox_id]> (ws_to_sandbox b)) b)
  end.

(** [subs = channels.get(ch); if subs: subs.discard(s); if not subs: del] *)
Definition discard_subscriber (s ch : string) (chs : gmap string (gset string))
  : gmap string (gset string) :=
  match chs !! ch with
  | Some subs =>
      if decide (subs = ∅) then chs
      else let subs' := subs ∖ {[s]} in
           if decide (subs' = ∅) then delete ch chs else <[ch := subs']> chs
  | None => chs
  end.

(** Pops one pending request and cancels its timeout task. *)
Definition drop_pending (rid : string) (b : Broker) : Broker :=
  match pending b !! rid with
  | Some t =>
      cancel_timer (timeout_task t)
        (set_pending (delete rid (pending b)) (pending_counts b) b)
  | None => b
  end.

(** The ids of the pending requests that [s] originated. *)
Definition expired_requests (s : string) (b : Broker) : list string :=
  (map_to_list (filter
    (fun kv : string * TrackedPending => pr_from_sandbox (tp_pending kv.2) = s)
    (pending b))).*1.

Definition shutdown_frame (i s : string) (now : seconds) : NMBMessage :=
  {| op := DELIVER; id := i; from_sandbox := Some "system"; to_sandbox := None;
     type := Some "sandbox.shutdown"; reply_to := None; channel := None;
     stream_id := None; seq := None; done_ := None; timeout := None;
     timestamp := Some now;
     payload := Some [("sandbox_id", JStr s); ("reason", JStr "disconnected")];
     code := None; message := None |}.

(** [i] is the fresh id of the shutdown event. *)
Definition _unregister (sok : Oracle) (i : string) (now : seconds)
  (sandbox_id : string) (ws : WS) (b : Broker) : Broker :=
  if decide (connections b !! sandbox_id = Some ws) then
    let b := set_registry (delete sandbox_id (connections b))
                          (delete ws (ws_to_sandbox b)) b in
    let chans := elements (default ∅ (sandbox_channels b !! sandbox_id)) in
    let b := set_channels
               (fold_left (fun chs ch => discard_subscriber sandbox_id ch chs)
                          chans (channels b))
               (delete sandbox_id (sandbox_channels b)) b in
    let b := fold_left (fun b rid => drop_pending rid b)
                       (expired_requests sandbox_id b) b in
    let b := set_pending (pending b) (delete sandbox_id (pending_counts b)) b in
    let b := _broadcast_system sok (shutdown_frame i sandbox_id now) b in
    audit (AuditDisconnection sandbox_id "disconnected") b
  else set_registry (connections b) (delete ws (ws_to_sandbox b)) b.

(** ** Handlers *)

Definition _handle_send (sok : Oracle) (sender_id : string) (ws : WS)
  (msg : NMBMessage) (b : Broker) : Broker :=
  if negb (opt_truthy (to_sandbox msg)) then
    _send_error sok ws (id msg) INVALID_FRAME "Missing to_sandbox" None b
  else
    let to := default "" (to_sandbox msg) in
    match connections b !! to with
    | None =>
        _send_error sok ws (id msg) TARGET_OFFLINE (to +:+ " not connected")
                    (Some msg) b
    | Some target_ws =>
        match ws_send sok target_ws (_make_deliver msg) b with
        | (b, false) =>
            _send_error sok ws (id msg) TARGET_OFFLINE (to +:+ " disconnected")
                        (Some msg) b
        | (b, true) => _send_ack sok ws (id msg) (Some msg) b
        end
    end.

(** A request whose delivery is being awaited: the locals of
    [_handle_request] at that point. *)
Record Inflight := {
  if_sender : string;
  if_ws : WS;
  if_msg : NMBMessage;
  if_target : string;
  if_target_ws : WS;
  if_task : TaskId
}.

(** [msg.timeout or self.config.default_request_timeout] *)
Definition effective_timeout (msg : NMBMessage) (b : Broker) : seconds :=
  match timeout msg with
  | Some t => if (t =? 0)%Z then default_request_timeout (config b) else t
  | None => default_request_timeout (config b)
  end.

Definition _handle_request_begin (sok : Oracle) (now : seconds)
  (sender_id : string) (ws : WS) (msg : NMBMessage) (b : Broker)
  : Broker * option Inflight :=
  if negb (opt_truthy (to_sandbox msg)) then
    (_send_error sok ws (id msg) INVALID_FRAME "Missing to_sandbox" None b, None)
  else
    let count := default 0%nat (pending_counts b !! sender_id) in
    if (max_pending_per_sandbox (config b) <=? count)%nat then
      (_send_error sok ws (id msg) RATE_LIMITED "Too many pending requests" None b, None)
    else
      let to := default "" (to_sandbox msg) in
      match connections b !! to with
      | None =>
          (_send_error sok ws (id msg) TARGET_OFFLINE (to +:+ " not connected")
                       (Some msg) b, None)
      | Some target_ws =>
          let t := effective_timeout msg b in
          let '(b, task) := create_timer
            {| t_request_id := id msg; t_requester_id := sender_id; t_timeout := t |} b in
          let entry :=
            {| tp_pending := {| request_id := id msg; pr_from_sandbox := sender_id;
                                created_at := now; pr_timeout := t |};
               timeout_task := Some task |} in
          (set_pending (<[id msg := entry]> (pending b))
                       (<[sender_id := S count]> (pending_counts b)) b,
           Some {| if_sender := sender_id; if_ws := ws; if_msg := msg;
                   if_target := to; if_target_ws := target_ws; if_task := task |})
      end.

(** After [await target_ws.send(...)]: rolled back when it raised. *)
Definition _handle_request_end (sok : Oracle) (k : Inflight) (b : Broker) : Broker :=
  let msg := if_msg k in
  match ws_send sok (if_target_ws k) (_make_deliver msg) b with
  | (b, false) =>
      let b := set_pending (delete (id msg) (pending b)) (pending_counts b) b in
      let b := cancel_timer (Some (if_task k)) b in
      let b := set_pending (pending b)
                 (decrement_count (if_sender k) (pending_counts b)) b in
      _send_error sok (if_ws k) (id msg) TARGET_OFFLINE
                  (if_target k +:+ " disconnected") (Some msg) b
  | (b, true) => _send_ack sok (if_ws k) (id msg) (Some msg) b
  end.

(** [_handle_request] when nothing else runs while it awaits. *)
Definition _handle_request (sok : Oracle) (now : seconds) (sender_id : string)
  (ws : WS) (msg : NMBMessage) (b : Broker) : Broker :=
  match _handle_request_begin sok now sender_id ws msg b with
  | (b, Some k) => _handle_request_end sok k b
  | (b, None) => b
  end.

Definition _handle_reply (sok : Oracle) (sender_id : string) (ws : WS)
  (msg : NMBMessage) (b : Broker) : Broker :=
  if negb (opt_truthy (reply_to msg)) then
    _send_error sok ws (id msg) INVALID_FRAME "Missing reply_to" None b
  else
    let rid := default "" (reply_to msg) in
    match pending b !! rid with
    | None =>
        _send_error sok ws (id msg) INVALID_FRAME
                    ("No pending request with id=" +:+ rid) None b
    | Some tracked =>
        let b := set_pending (delete rid (pending b)) (pending_counts b) b in
        let b := cancel_timer (timeout_task tracked) b in
        let requester_id := pr_from_sandbox (tp_pending tracked) in
        let b := set_pending (pending b)
                   (decrement_count requester_id (pending_counts b)) b in
        match connections b !! requester_id with
        | None => _audit_msg msg ST_ERROR b
        | Some target_ws =>
            match ws_send sok target_ws (_make_deliver msg) b with
            | (b, false) => _audit_msg msg ST_ERROR b
            | (b, true) => _audit_msg msg ST_DELIVERED b
            end
        end
    end.

(** [setdefault] registers an empty set even when the limit refuses. *)
Definition _handle_subscribe (sok : Oracle) (sender_id : string) (ws : WS)
  (msg : NMBMessage) (b : Broker) : Broker :=
  if negb (opt_truthy (channel msg)) then
    _send_error sok ws (id msg) INVALID_FRAME "Missing channel" None b
  else
    let ch := default "" (channel msg) in
    let sandbox_chans := default ∅ (sandbox_channels b !! sender_id) in
    let b := set_channels (channels b)
               (<[sender_id := sandbox_chans]> (sandbox_channels b)) b in
    if (max_channels_per_sandbox (config b) <=? size sandbox_chans)%nat then
      _send_error sok ws (id msg) CHANNEL_FULL "Too many channel subscriptions" None b
    else
      let subs := default ∅ (channels b !! ch) in
      let b := set_channels
                 (<[ch := {[sender_id]} ∪ subs]> (channels b))
                 (<[sender_id := {[ch]} ∪ sandbox_chans]> (sandbox_channels b)) b in
      _send_ack sok ws (id msg) None b.

Definition _handle_unsubscribe (sok : Oracle) (sender_id : string) (ws : WS)
  (msg : NMBMessage) (b : Broker) : Broker :=
  if negb (opt_truthy (channel msg)) then
    _send_error sok ws (id msg) INVALID_FRAME "Missing channel" None b
  else
    let ch := default "" (channel msg) in
    let chs := discard_subscriber sender_id ch (channels b) in
    let sc := match sandbox_channels b !! sender_id with
              | Some cs => if decide (cs = ∅) then sandbox_channels b
                           else <[sender_id := cs ∖ {[ch]}]> (sandbox_channels b)
              | None => sandbox_channels b
              end in
    _send_ack sok ws (id msg) None (set_channels chs sc b).

Definition _handle_publish (sok : Oracle) (sender_id : string) (ws : WS)
  (msg : NMBMessage) (b : Broker) : Broker :=
  if negb (opt_truthy (channel msg)) then
    _send_error sok ws (id msg) INVALID_FRAME "Missing channel" None b
  else
    let ch := default "" (channel msg) in
    let b := gather_sends sok (subscriber_sockets ch (Some sender_id) b)
                          (_make_deliver msg) b in
    _send_ack sok ws (id msg) (Some msg) b.

Definition _handle_stream (sok : Oracle) (sender_id : string) (ws : WS)
  (msg : NMBMessage) (b : Broker) : Broker :=
  if negb (opt_truthy (to_sandbox msg)) then
    _send_error sok ws (id msg) INVALID_FRAME "Missing to_sandbox" None b
  else
    let to := default "" (to_sandbox msg) in
    match connections b !! to with
    | None =>
        _send_error sok ws (id msg) TARGET_OFFLINE (to +:+ " not connected")
                    (Some msg) b
    | Some target_ws =>
        match ws_send sok target_ws (_make_deliver msg) b with
        | (b, false) =>
            _send_error sok ws (id msg) TARGET_OFFLINE (to +:+ " disconnected")
                        (Some msg) b
        | (b, true) => b
        end
    end.

(** The timeout task [t] once its sleep is over. *)
Definition _timeout_request (sok : Oracle) (t : TaskId) (b : Broker) : Broker :=
  match timers b !! t with
  | None => b
  | Some tm =>
      let b := set_timers (delete t (timers b)) (next_task b) b in
      match pending b !! t_request_id tm with
      | None => b
      | Some _ =>
          let b := set_pending (delete (t_request_id tm) (pending b))
                     (decrement_count (t_requester_id tm) (pending_counts b)) b in
          let b := match connections b !! t_requester_id tm with
                   | Some ws =>
                       (ws_send sok ws (timeout_frame (t_request_id tm) (t_timeout tm)) b).1
                   | None => b
                   end in
          _audit_update_status (t_request_id tm) ST_TIMEOUT b
      end
  end.

(** ** Dispatch *)

(** Parsing, identity stamping and validation, shared by both brokers:
    either the frame to answer with an error, or the message to route. *)
Definition receive (now : seconds) (sender_id raw : string)
  : (string * FrameValidationError) + NMBMessage :=
  match from_json model_validate_json raw with
  | inl exc => inl ("", exc)
  | inr msg =>
      let msg := stamp_identity sender_id now msg in
      match validate_frame msg with
      | inl exc => inl (id msg, exc)
      | inr _ => inr msg
      end
  end.

(** The handler map; a request may leave its delivery in flight. *)
Definition route (sok : Oracle) (now : seconds) (sender_id : string) (ws : WS)
  (msg : NMBMessage) (b : Broker) : Broker * option Inflight :=
  match op msg with
  | SEND => (_handle_send sok sender_id ws msg b, None)
  | REQUEST => _handle_request_begin sok now sender_id ws msg b
  | REPLY => (_handle_reply sok sender_id ws msg b, None)
  | SUBSCRIBE => (_handle_subscribe sok sender_id ws msg b, None)
  | UNSUBSCRIBE => (_handle_unsubscribe sok sender_id ws msg b, None)
  | PUBLISH => (_handle_publish sok sender_id ws msg b, None)
  | STREAM => (_handle_stream sok sender_id ws msg b, None)
  | DELIVER | ACK | ERROR | TIMEOUT =>
      (_send_error sok ws (id msg) INVALID_FRAME
         ("Client cannot send op=" +:+ op_value (op msg)) None b, None)
  end.

Definition _dispatch_begin (sok : Oracle) (now : seconds) (sender_id : string)
  (ws : WS) (raw : string) (b : Broker) : Broker * option Inflight :=
  match receive now sender_id raw with
  | inl (i, exc) =>
      (_send_error sok ws i (err_code exc) (err_text exc) None b, None)
  | inr msg => route sok now sender_id ws msg b
  end.

(** [_dispatch] when nothing else runs while it awaits. *)
Definition _dispatch (sok : Oracle) (now : seconds) (sender_id : string)
  (ws : WS) (raw : string) (b : Broker) : Broker :=
  match _dispatch_begin sok now sender_id ws raw b with
  | (b, Some k) => _handle_request_end sok k b
  | (b, None) => b
  end.

(** ** The event loop

    [handlers] are the running [_handler] coroutines with the identity
    each one serves, [inflight] those suspended in the delivery of a
    request.  A handler reads its next frame, or leaves its loop, only
    when it is not suspended. *)
Record Sys := {
  br : Broker;
  handlers : gmap WS string;
  inflight : gmap WS Inflight
}.

Definition new_sys (c : BrokerConfig) (a : bool) : Sys :=
  {| br := new_broker c a; handlers := ∅; inflight := ∅ |}.

Inductive Label :=
| LConnect (sandbox_id : string) (ws : WS)
| LFrame (sok : Oracle) (now : seconds) (ws : WS) (raw : string)
| LResume (sok : Oracle) (ws : WS)
| LTimer (sok : Oracle) (t : TaskId)
| LClose (sok : Oracle) (i : string) (now : seconds) (ws : WS).

(** One scheduling step; [None] when it is not enabled.  [LConnect] is
    the entry of [_handler] on a new socket whose upgrade request carried
    a non-empty [X-Sandbox-ID] ([_process_request] refuses the others),
    [LClose] its [finally]. *)
Definition sys_step (l : Label) (s : Sys) : option Sys :=
  match l with
  | LConnect sandbox_id ws =>
      if str_truthy sandbox_id then
        match handlers s !! ws with
        | Some _ => None
        | None => Some {| br := _register sandbox_id ws (br s);
                          handlers := <[ws := sandbox_id]> (handlers s);
                          inflight := inflight s |}
        end
      else None
  | LFrame sok now ws raw =>
      match handlers s !! ws, inflight s !! ws with
      | Some sandbox_id, None =>
          let '(b, k) := _dispatch_begin sok now sandbox_id ws raw (br s) in
          Some {| br := b; handlers := handlers s;
                  inflight := match k with
                              | Some k => <[ws := k]> (inflight s)
                              | None => inflight s
                              end |}
      | _, _ => None
      end
  | LResume sok ws =>
      match inflight s !! ws with
      | Some k => Some {| br := _handle_request_end sok k (br s);
                          handlers := handlers s;
                          inflight := delete ws (inflight s) |}
      | None => None
      end
  | LTimer sok t =>
      match timers (br s) !! t with
      | Some _ => Some {| br := _timeout_request sok t (br s);
                          handlers := handlers s; inflight := inflight s |}
      | None => None
      end
  | LClose sok i now ws =>
      match handlers s !! ws, inflight s !! ws with
      | Some sandbox_id, None =>
          Some {| br := _unregister sok i now sandbox_id ws (br s);
                  handlers := delete ws (handlers s); inflight := inflight s |}
      | _, _ => None
      end
  end.

(** A schedule run from a state; [None] if some step is not enabled. *)
Fixpoint run_schedule (ls : list Label) (s : Sys) : option Sys :=
  match ls with
  | [] => Some s
  | l :: ls => match sys_step l s with
               | Some s => run_schedule ls s
               | None => None
               end
  end.

Inductive reachable (c : BrokerConfig) (a : bool) : Sys -> Prop :=
| reach_init : reachable c a (new_sys c a)
| reach_step s l s' : reachable c a s -> sys_step l s = Some s' -> reachable c a s'.

(** [health()]: the connected ids, how many connections and pending
    requests there are, and the subscribers of each channel. *)
Definition health (b : Broker) : list string * nat * nat * list (string * list string) :=
  ((map_to_list (connections b)).*1, size (connections b), size (pending b),
   map (fun kv => (kv.1, elements kv.2)) (map_to_list (channels b))).

(** [stop()]: every live timeout task of a pending request is cancelled
    and the requests are forgotten. *)
Definition stop (b : Broker) : Broker :=
  let b := fold_left (fun b t => cancel_timer (timeout_task t) b)
                     (map_to_list (pending b)).*2 b in
  set_pending ∅ (pending_counts b) b.
End broker.

(** Proofs treat sending as a unit. *)
#[global] Arguments _send_ack : simpl never.
#[global] Arguments _send_error : simpl never.
#[global] Arguments ws_send : simpl never.
#[global] Arguments gather_sends : simpl never.
#[global] Arguments audit : simpl never.

(** [_process_request]: the identity of the upgrade request, or the HTTP
    status that refuses it. *)
Definition _process_request (header : option string) : nat + string :=
  if opt_truthy header then inr (default "" header) else inl 400.
