(* ===== verification/BrokerInv.v ===== *)
(** * BrokerInv

    The invariant of the broker's routing state and its preservation by
    every step of the event loop: the two connection dictionaries mirror
    each other, so do the two subscription dictionaries, every pending
    request has a live timeout task, and the limits of the configuration
    hold. *)

From S2P Require Import Prelude Json Messages Broker.

(** ** Routing equality

    Two broker objects that differ only in what was sent and audited. *)

Definition strip (b : Broker) : Broker :=
  {| config := config b; connections := connections b;
     ws_to_sandbox := ws_to_sandbox b; channels := channels b;
     sandbox_channels := sandbox_channels b; pending := pending b;
     pending_counts := pending_counts b; has_audit := has_audit b;
     timers := timers b; next_task := next_task b; outbox := [];
     closing := []; audit_log := [] |}.

Definition routing_eq (b b' : Broker) : Prop := strip b = strip b'.

#[export] Instance routing_eq_equiv : Equivalence routing_eq.
Proof. unfold routing_eq. split; [by intros ?|by intros ??|intros ???; congruence]. Qed.

Lemma routing_eq_fields b b' :
  routing_eq b b' ->
  connections b = connections b' /\ ws_to_sandbox b = ws_to_sandbox b' /\
  channels b = channels b' /\ sandbox_channels b = sandbox_channels b' /\
  pending_counts b = pending_counts b' /\ pending b = pending b' /\
  timers b = timers b' /\ config b = config b'.
Proof. destruct b, b'. intros H. injection H. intros. by subst. Qed.

(** ** The components of the invariant *)

Definition registry_ok (cs : gmap string WS) (rs : gmap WS string) : Prop :=
  forall s w, cs !! s = Some w <-> rs !! w = Some s.

Record channels_ok (limit : nat) (ch sc : gmap string (gset string)) : Prop := {
  mirror : forall c s, s ∈ default ∅ (ch !! c) <-> c ∈ default ∅ (sc !! s);
  subs_nonempty : forall c subs, ch !! c = Some subs -> subs ≠ ∅;
  subs_limit : forall s cs, sc !! s = Some cs -> size cs <= limit
}.

(** The pending entry [e] of request [rid] is guarded by a live timer that
    carries the request's id and its requester. *)
Definition guarded (ts : gmap TaskId Timer) (rid : string) (e : TrackedPending) : Prop :=
  exists t tm, timeout_task e = Some t /\ ts !! t = Some tm /\
    t_request_id tm = rid /\ t_requester_id tm = pr_from_sandbox (tp_pending e).

Record timers_ok (p : gmap string TrackedPending) (ts : gmap TaskId Timer)
  (next : TaskId) : Prop := {
  pending_guarded : forall rid e, p !! rid = Some e -> guarded ts rid e;
  timers_below : forall t tm, ts !! t = Some tm -> t < next
}.

Definition counts_ok (limit : nat) (pc : gmap string nat) : Prop :=
  forall s n, pc !! s = Some n -> n <= limit.

Record broker_inv (b : Broker) : Prop := {
  inv_registry : registry_ok (connections b) (ws_to_sandbox b);
  inv_channels : channels_ok (max_channels_per_sandbox (config b))
                   (channels b) (sandbox_channels b);
  inv_timers : timers_ok (pending b) (timers b) (next_task b);
  inv_counts : counts_ok (max_pending_per_sandbox (config b)) (pending_counts b)
}.

#[export] Instance broker_inv_proper : Proper (routing_eq ==> iff) broker_inv.
Proof.
  assert (H : forall b b', routing_eq b b' -> broker_inv b -> broker_inv b').
  { intros [] [] [= -> -> -> -> -> -> -> -> -> ->] [????]. by split. }
  intros b b' Hb. split; apply H; [done|by symmetry].
Qed.

(** ** Sending and auditing leave the routing state alone *)

Section quiet.
Context (show_seconds : seconds -> string).

Lemma emit_quiet ws m b : routing_eq (emit ws m b) b.
Proof. done. Qed.

Lemma audit_quiet e b : routing_eq (audit e b) b.
Proof. done. Qed.

Lemma audit_msg_quiet m st b : routing_eq (_audit_msg m st b) b.
Proof. done. Qed.

Lemma ws_send_quiet sok ws m b : routing_eq (ws_send sok ws m b).1 b.
Proof. unfold ws_send. by destruct (sok ws m). Qed.

Lemma send_ack_quiet sok ws i a b : routing_eq (_send_ack sok ws i a b) b.
Proof. unfold _send_ack, ws_send. by destruct a, (sok ws _). Qed.

Lemma send_error_quiet sok ws i c t a b :
  routing_eq (_send_error sok ws i c t a b) b.
Proof. unfold _send_error, ws_send. by destruct a, (sok ws _). Qed.

Lemma gather_quiet sok wss m b : routing_eq (gather_sends sok wss m b) b.
Proof.
  unfold gather_sends. revert b. induction wss as [|w wss IH]; intros b; simpl; [done|].
  rewrite IH. apply ws_send_quiet.
Qed.

Lemma broadcast_quiet sok m b : routing_eq (_broadcast_system sok m b) b.
Proof. apply gather_quiet. Qed.

Lemma handle_send_quiet sok s ws m b : routing_eq (_handle_send sok s ws m b) b.
Proof.
  unfold _handle_send. case_if; [apply send_error_quiet|].
  destruct (connections b !! _) as [w|]; [|apply send_error_quiet].
  unfold ws_send. destruct (sok w _).
  - etrans; [apply send_ack_quiet|done].
  - apply send_error_quiet.
Qed.

Lemma handle_stream_quiet sok s ws m b : routing_eq (_handle_stream sok s ws m b) b.
Proof.
  unfold _handle_stream. case_if; [apply send_error_quiet|].
  destruct (connections b !! _) as [w|]; [|apply send_error_quiet].
  unfold ws_send. destruct (sok w _); [done|apply send_error_quiet].
Qed.

Lemma handle_publish_quiet sok s ws m b : routing_eq (_handle_publish sok s ws m b) b.
Proof.
  unfold _handle_publish. case_if; [apply send_error_quiet|].
  rewrite send_ack_quiet. apply gather_quiet.
Qed.
End quiet.

#[export] Hint Resolve emit_quiet audit_quiet audit_msg_quiet ws_send_quiet send_ack_quiet
  send_error_quiet gather_quiet broadcast_quiet handle_send_quiet handle_stream_quiet
  handle_publish_quiet : nmb.

(** Moves [broker_inv] across a step that is quiet. *)
Ltac quiet_step := 
  match goal with
  | |- broker_inv ?b => 
      let H := fresh in
      eassert (routing_eq b _) as H by eauto with nmb; rewrite H; clear H
  end.

(** ** Connections *)

Lemma registry_insert cs rs s w :
  registry_ok cs rs -> cs !! s = None -> rs !! w = None ->
  registry_ok (<[s:=w]> cs) (<[w:=s]> rs).
Proof.
  intros Hr Hs Hw s' w'. rewrite !lookup_insert. repeat case_decide; subst.
  - done.
  - split; [congruence|]. intros H'. apply Hr in H'. congruence.
  - split; [|congruence]. intros H'. apply Hr in H'. congruence.
  - apply Hr.
Qed.

Lemma registry_delete cs rs s w :
  registry_ok cs rs -> cs !! s = Some w ->
  registry_ok (delete s cs) (delete w rs).
Proof.
  intros Hr Hs s' w'. pose proof (proj1 (Hr _ _) Hs) as Hw.
  rewrite !lookup_delete. repeat case_decide; subst; split; try done;
    intros H'; apply Hr in H'; congruence.
Qed.

(** ** Subscriptions *)

Lemma discard_lookup s c chs c' s' :
  s' ∈ default ∅ (discard_subscriber s c chs !! c') <->
  s' ∈ default ∅ (chs !! c') /\ ~ (c' = c /\ s' = s).
Proof.
  unfold discard_subscriber.
  destruct (chs !! c) as [subs|] eqn:Hc.
  2:{ split; [|by intros []]. intros Hin. split; [done|].
      intros [-> ->]. rewrite Hc in Hin. set_solver. }
  case_decide as He; [|case_decide as He'].
  - subst subs. split; [|by intros []]. intros Hin. split; [done|].
    intros [-> ->]. rewrite Hc in Hin. set_solver.
  - rewrite lookup_delete. case_decide; subst; simpl; [|naive_solver].
    rewrite Hc. simpl. set_solver.
  - rewrite lookup_insert. case_decide; subst; simpl; [|naive_solver].
    rewrite Hc. simpl. set_solver.
Qed.

Lemma discard_nonempty s c chs :
  (forall c subs, chs !! c = Some subs -> subs ≠ ∅) ->
  forall c' subs, discard_subscriber s c chs !! c' = Some subs -> subs ≠ ∅.
Proof.
  intros Hne c' subs. unfold discard_subscriber.
  destruct (chs !! c) as [u|] eqn:Hc; [|by apply Hne].
  repeat case_decide; [by apply Hne| |].
  - rewrite lookup_delete. case_decide; [done|by apply Hne].
  - rewrite lookup_insert. case_decide; [by intros [= <-]|by apply Hne].
Qed.

(** Removing [s] from a whole list of channels. *)
Lemma discard_all_lookup s cs chs c' s' :
  s' ∈ default ∅ (fold_left (fun m c => discard_subscriber s c m) cs chs !! c') <->
  s' ∈ default ∅ (chs !! c') /\ ~ (c' ∈ cs /\ s' = s).
Proof.
  revert chs. induction cs as [|c cs IH]; intros chs; simpl; [set_solver|].
  rewrite IH, discard_lookup. set_solver.
Qed.

Lemma discard_all_nonempty s cs chs :
  (forall c subs, chs !! c = Some subs -> subs ≠ ∅) ->
  forall c' subs,
    fold_left (fun m c => discard_subscriber s c m) cs chs !! c' = Some subs -> subs ≠ ∅.
Proof.
  revert chs. induction cs as [|c cs IH]; intros chs Hne; simpl; [done|].
  apply IH. by apply discard_nonempty.
Qed.

Lemma channels_subscribe limit ch sc s c :
  channels_ok limit ch sc -> size (default ∅ (sc !! s)) < limit ->
  channels_ok limit (<[c := {[s]} ∪ default ∅ (ch !! c)]> ch)
                    (<[s := {[c]} ∪ default ∅ (sc !! s)]> sc).
Proof.
  intros [Hm Hn Hl] Hlt. split.
  - intros c' s'. rewrite !lookup_insert.
    pose proof (Hm c' s'). pose proof (Hm c s').
    repeat case_decide; subst; simpl; set_solver.
  - intros c' subs. rewrite lookup_insert. case_decide; [|by apply Hn].
    intros [= <-]. set_solver.
  - intros s' cs. rewrite lookup_insert. case_decide; [|by apply Hl].
    intros [= <-]. rewrite size_union_alt.
    assert (size ({[c]} : gset string) = 1) by apply size_singleton.
    assert (size (default ∅ (sc !! s) ∖ {[c]}) <= size (default ∅ (sc !! s)))
      by (apply subseteq_size; set_solver).
    lia.
Qed.

(** [setdefault] with an empty set changes nothing observable. *)
Lemma channels_setdefault limit ch sc s :
  channels_ok limit ch sc ->
  channels_ok limit ch (<[s := default ∅ (sc !! s)]> sc).
Proof.
  intros [Hm Hn Hl]. split; [|done|].
  - intros c' s'. rewrite lookup_insert. case_decide; subst; apply Hm.
  - intros s' cs. rewrite lookup_insert. case_decide; [|by apply Hl].
    intros [= <-]. destruct (sc !! s) eqn:Hs; [by eapply Hl|].
    change (size (∅ : gset string) <= limit). rewrite size_empty. lia.
Qed.

Lemma channels_unsubscribe limit ch sc s c :
  channels_ok limit ch sc ->
  channels_ok limit (discard_subscriber s c ch)
    (match sc !! s with
     | Some cs => if decide (cs = ∅) then sc else <[s := cs ∖ {[c]}]> sc
     | None => sc
     end).
Proof.
  intros [Hm Hn Hl]. split.
  - intros c' s'. rewrite discard_lookup, Hm.
    destruct (sc !! s) as [cs|] eqn:Hs; [case_decide|].
    + subst. split; [by intros []|]. intros Hin. split; [done|].
      intros [-> ->]. rewrite Hs in Hin. set_solver.
    + rewrite lookup_insert. case_decide; subst; simpl; [|naive_solver].
      rewrite Hs. simpl. set_solver.
    + split; [by intros []|]. intros Hin. split; [done|].
      intros [-> ->]. rewrite Hs in Hin. set_solver.
  - by apply discard_nonempty.
  - intros s' cs'. destruct (sc !! s) as [cs|] eqn:Hs; [case_decide|]; [by apply Hl| |by apply Hl].
    rewrite lookup_insert. case_decide; [|by apply Hl]. intros [= <-].
    transitivity (size cs); [|by eapply Hl].
    apply subseteq_size. set_solver.
Qed.

Lemma channels_forget limit ch sc s :
  channels_ok limit ch sc ->
  channels_ok limit
    (fold_left (fun m c => discard_subscriber s c m)
               (elements (default ∅ (sc !! s))) ch)
    (delete s sc).
Proof.
  intros [Hm Hn Hl]. split.
  - intros c' s'. rewrite discard_all_lookup, elem_of_elements, lookup_delete.
    pose proof (Hm c' s'). case_decide; subst; simpl; set_solver.
  - by apply discard_all_nonempty.
  - intros s' cs. rewrite lookup_delete. case_decide; [done|apply Hl].
Qed.

(** ** Timers and counters *)

Lemma timers_delete p ts n rid t :
  timers_ok p ts n ->
  (forall tm, ts !! t = Some tm -> t_request_id tm = rid) ->
  timers_ok (delete rid p) (delete t ts) n.
Proof.
  intros [Hp Hb] Ht. split.
  - intros rid' e. rewrite lookup_delete. case_decide; [done|]. intros He.
    destruct (Hp _ _ He) as (t' & tm & H1 & H2 & H3 & H4).
    exists t', tm. rewrite lookup_delete_ne; [done|]. intros ->.
    rewrite (Ht _ H2) in H3. congruence.
  - intros t' tm. rewrite lookup_delete. case_decide; [done|]. apply Hb.
Qed.

Lemma timers_create p ts n rid e tm :
  timers_ok p ts n ->
  timeout_task e = Some n -> t_request_id tm = rid ->
  t_requester_id tm = pr_from_sandbox (tp_pending e) ->
  timers_ok (<[rid := e]> p) (<[n := tm]> ts) (S n).
Proof.
  intros [Hp Hb] He Hid Hreq. split.
  - intros rid' e'. rewrite lookup_insert. case_decide.
    + intros [= <-]. subst. exists n, tm. by rewrite lookup_insert_eq.
    + intros He'. destruct (Hp _ _ He') as (t' & tm' & H1 & H2 & H3 & H4).
      exists t', tm'. rewrite lookup_insert_ne; [done|].
      intros <-. apply Hb in H2. lia.
  - intros t' tm'. rewrite lookup_insert. case_decide; [lia|].
    intros H'. apply Hb in H'. lia.
Qed.

Lemma counts_insert limit pc s n :
  counts_ok limit pc -> n <= limit -> counts_ok limit (<[s := n]> pc).
Proof. intros Hc Hn s' n'. rewrite lookup_insert. case_decide; [by intros [= <-]|apply Hc]. Qed.

Lemma counts_delete limit pc s : counts_ok limit pc -> counts_ok limit (delete s pc).
Proof. intros Hc s' n'. rewrite lookup_delete. case_decide; [done|apply Hc]. Qed.

Lemma counts_decrement limit pc s :
  counts_ok limit pc -> counts_ok limit (decrement_count s pc).
Proof.
  intros Hc. apply counts_insert; [done|].
  destruct (pc !! s) as [n|] eqn:Hs; simpl; [apply Hc in Hs|]; lia.
Qed.

#[export] Hint Resolve counts_insert counts_delete counts_decrement : nmb.

(** ** Sound steps

    What every handler guarantees: it preserves the invariant, keeps the
    connections, and never re-uses the identity of a timeout task. *)
Record sound (b b' : Broker) : Prop := {
  sound_inv : broker_inv b -> broker_inv b';
  sound_conn : connections b' = connections b;
  sound_config : config b' = config b;
  sound_next : next_task b <= next_task b';
  sound_old : forall t tm, timers b' !! t = Some tm -> t < next_task b ->
                timers b !! t = Some tm
}.

#[export] Instance sound_preorder : PreOrder sound.
Proof.
  split.
  - intros b. by split.
  - intros b1 b2 b3 [i1 c1 g1 n1 o1] [i2 c2 g2 n2 o2]. split; [auto|congruence|congruence|lia|].
    intros t tm Ht Hlt. apply o1; [|done]. apply o2; [done|lia].
Qed.

Lemma quiet_sound b b' : routing_eq b' b -> sound b b'.
Proof.
  intros H. split; [by rewrite H| | | |];
    (destruct b, b'; injection H; intros; simpl in *; subst; done || lia).
Qed.

#[export] Hint Resolve quiet_sound : nmb.

(** Forgetting a request together with a timer that can only be its own. *)
Lemma sound_forget b rid t pc :
  (forall tm, timers b !! t = Some tm -> t_request_id tm = rid) ->
  (counts_ok (max_pending_per_sandbox (config b)) (pending_counts b) ->
   counts_ok (max_pending_per_sandbox (config b)) pc) ->
  sound b (set_timers (delete t (timers b)) (next_task b)
             (set_pending (delete rid (pending b)) pc b)).
Proof.
  intros Ht Hc. split; simpl; [|done..|].
  - intros []. split; simpl; auto using timers_delete.
  - intros t' tm. rewrite lookup_delete. by case_decide.
Qed.

Lemma guarded_request_id b rid e t :
  broker_inv b -> pending b !! rid = Some e -> timeout_task e = Some t ->
  forall tm, timers b !! t = Some tm -> t_request_id tm = rid.
Proof.
  intros Hb He Ht tm Htm.
  destruct (pending_guarded _ _ _ (inv_timers _ Hb) _ _ He) as (t' & tm' & ? & ? & ? & _).
  congruence.
Qed.

(** [broker_inv b] may be assumed while proving [sound b b']. *)
Lemma sound_assume b b' :
  connections b' = connections b -> config b' = config b ->
  next_task b <= next_task b' ->
  (forall t tm, timers b' !! t = Some tm -> t < next_task b -> timers b !! t = Some tm) ->
  (broker_inv b -> sound b b') -> sound b b'.
Proof. intros ???? H. split; [|done..]. intros Hb. by apply H. Qed.

Lemma cancel_timers_sub t b t' tm :
  timers (cancel_timer t b) !! t' = Some tm -> timers b !! t' = Some tm.
Proof. destruct t; simpl; [rewrite lookup_delete; by case_decide|done]. Qed.

Lemma drop_pending_sound rid b : sound b (drop_pending rid b).
Proof.
  unfold drop_pending. destruct (pending b !! rid) as [e|] eqn:He; [|done].
  apply sound_assume.
  - by destruct (timeout_task e).
  - by destruct (timeout_task e).
  - by destruct (timeout_task e).
  - intros t tm H _. by apply cancel_timers_sub in H.
  - intros Hb.
    destruct (pending_guarded _ _ _ (inv_timers _ Hb) _ _ He) as (t & ? & Ht & _).
    rewrite Ht. apply (sound_forget b rid t (pending_counts b)); [|done].
    by eapply guarded_request_id.
Qed.

Lemma drop_all_sound rids b : sound b (fold_left (fun b rid => drop_pending rid b) rids b).
Proof.
  revert b. induction rids as [|r rids IH]; intros b; simpl; [done|].
  etrans; [apply drop_pending_sound|apply IH].
Qed.

Lemma set_counts_sound b pc :
  (counts_ok (max_pending_per_sandbox (config b)) (pending_counts b) ->
   counts_ok (max_pending_per_sandbox (config b)) pc) ->
  sound b (set_pending (pending b) pc b).
Proof. intros Hc. split; simpl; [|done..]. intros []. by split; auto. Qed.

Lemma set_channels_sound b ch sc :
  (channels_ok (max_channels_per_sandbox (config b)) (channels b) (sandbox_channels b) ->
   channels_ok (max_channels_per_sandbox (config b)) ch sc) ->
  sound b (set_channels ch sc b).
Proof. intros Hc. split; simpl; [|done..]. intros []. by split; auto. Qed.

(** ** Every handler is sound *)

Section sound_handlers.
Context (model_validate_json : string -> string + NMBMessage).
Context (show_seconds : seconds -> string).

(** What is known of a suspended delivery: its own timer, if it still
    lives, is the one of its request and names its sender. *)
Definition inflight_ok (b : Broker) (k : Inflight) : Prop :=
  if_task k < next_task b /\
  forall tm, timers b !! if_task k = Some tm ->
    t_request_id tm = id (if_msg k) /\ t_requester_id tm = if_sender k.

Lemma inflight_ok_sound b b' k : sound b b' -> inflight_ok b k -> inflight_ok b' k.
Proof.
  intros [_ _ _ Hn Ho] [Hlt Hk]. split; [lia|]. intros tm Htm. apply Hk. by apply Ho.
Qed.

Lemma request_begin_sound sok now s ws m b :
  sound b (_handle_request_begin sok now s ws m b).1.
Proof.
  unfold _handle_request_begin.
  case_if; [simpl; auto with nmb|]. case_if; [simpl; auto with nmb|].
  destruct (connections b !! _) as [tws|]; simpl; [|auto with nmb].
  split; simpl; [|done|done|lia|].
  - intros []. split; simpl; [done..|by apply timers_create|].
    apply counts_insert; [done|]. apply Nat.leb_gt in Heqb1. lia.
  - intros t tm. rewrite lookup_insert. case_decide; [lia|done].
Qed.

Lemma request_begin_inflight sok now s ws m b k :
  (_handle_request_begin sok now s ws m b).2 = Some k ->
  if_ws k = ws /\ if_sender k = s /\ if_msg k = m /\
  inflight_ok (_handle_request_begin sok now s ws m b).1 k.
Proof.
  unfold _handle_request_begin. case_if; [done|]. case_if; [done|].
  destruct (connections b !! _) as [tws|]; simpl; [|done]. intros [= <-].
  split; [done|]. split; [done|]. split; [done|]. split; simpl; [lia|].
  intros tm. rewrite lookup_insert_eq. by intros [= <-].
Qed.

Lemma request_end_sound sok k b : inflight_ok b k -> sound b (_handle_request_end sok k b).
Proof.
  intros [_ Hk]. unfold _handle_request_end, ws_send.
  destruct (sok _ _).
  - etrans; [|apply quiet_sound, send_ack_quiet]. auto with nmb.
  - etrans; [|apply quiet_sound, send_error_quiet].
    apply (sound_forget b (id (if_msg k)) (if_task k)
      (decrement_count (if_sender k) (pending_counts b))); [|auto with nmb].
    intros tm Htm. by destruct (Hk _ Htm).
Qed.

Lemma reply_sound sok s ws m b : sound b (_handle_reply sok s ws m b).
Proof.
  unfold _handle_reply. case_if; [auto with nmb|].
  destruct (pending b !! _) as [e|] eqn:He; [|auto with nmb].
  set (b1 := set_pending _ _ (cancel_timer _ _)).
  assert (Hs : sound b b1).
  { apply sound_assume.
    - subst b1. by destruct (timeout_task e).
    - subst b1. by destruct (timeout_task e).
    - subst b1. by destruct (timeout_task e).
    - intros t tm H _. by apply (cancel_timers_sub (timeout_task e)) in H.
    - intros Hb.
      destruct (pending_guarded _ _ _ (inv_timers _ Hb) _ _ He) as (t & ? & Ht & _).
      subst b1. rewrite Ht.
      apply (sound_forget b (default "" (reply_to m)) t
        (decrement_count (pr_from_sandbox (tp_pending e)) (pending_counts b)));
        [by eapply guarded_request_id|auto with nmb]. }
  etrans; [exact Hs|]. destruct (connections b1 !! _); [|auto with nmb].
  unfold ws_send. destruct (sok _ _); [|auto with nmb].
  etrans; [|apply quiet_sound, audit_msg_quiet]. auto with nmb.
Qed.

Lemma subscribe_sound sok s ws m b : sound b (_handle_subscribe sok s ws m b).
Proof.
  unfold _handle_subscribe. case_if; [auto with nmb|].
  case_if.
  - etrans; [|apply quiet_sound, send_error_quiet].
    apply set_channels_sound. apply channels_setdefault.
  - etrans; [|apply quiet_sound, send_ack_quiet].
    apply Nat.leb_gt in Heqb1. simpl.
    etrans; [|apply (set_channels_sound (set_channels _ _ b))].
    { apply set_channels_sound, channels_setdefault. }
    simpl. intros Hc.
    pose proof (channels_subscribe _ _ _ s (default "" (channel m)) Hc) as Hc'.
    rewrite lookup_insert_eq in Hc'. auto.
Qed.

Lemma unsubscribe_sound sok s ws m b : sound b (_handle_unsubscribe sok s ws m b).
Proof.
  unfold _handle_unsubscribe. case_if; [auto with nmb|].
  etrans; [|apply quiet_sound, send_ack_quiet].
  apply set_channels_sound, channels_unsubscribe.
Qed.

Lemma timeout_sound sok t b : sound b (_timeout_request show_seconds sok t b).
Proof.
  unfold _timeout_request. destruct (timers b !! t) as [tm|] eqn:Ht; [|done].
  destruct (pending _ !! _) as [e|] eqn:He; simpl in He.
  - etrans; [|apply quiet_sound, audit_quiet].
    match goal with |- sound b (match ?c with _ => _ end) => set (x := c) end.
    etrans; [apply (sound_forget b (t_request_id tm) t
      (decrement_count (t_requester_id tm) (pending_counts b))); auto with nmb|].
    { intros tm' H'. congruence. }
    destruct x; [apply quiet_sound, ws_send_quiet|done].
  - assert (Hd : delete (t_request_id tm) (pending b) = pending b) by by apply delete_id.
    pose proof (sound_forget b (t_request_id tm) t (pending_counts b)) as Hs.
    rewrite Hd in Hs. apply Hs; [|done]. intros tm' H'. congruence.
Qed.

Lemma route_sound sok now s ws m b : sound b (route sok now s ws m b).1.
Proof.
  unfold route. destruct (op m); simpl;
    auto using request_begin_sound, reply_sound, subscribe_sound, unsubscribe_sound
    with nmb.
Qed.

Lemma dispatch_begin_sound sok now s ws raw b :
  sound b (_dispatch_begin model_validate_json sok now s ws raw b).1.
Proof.
  unfold _dispatch_begin. destruct (receive _ _ _ _) as [[i exc]|m]; simpl;
    [auto with nmb|apply route_sound].
Qed.

Lemma dispatch_begin_inflight sok now s ws raw b k :
  (_dispatch_begin model_validate_json sok now s ws raw b).2 = Some k ->
  if_ws k = ws /\ if_sender k = s /\
  inflight_ok (_dispatch_begin model_validate_json sok now s ws raw b).1 k.
Proof.
  unfold _dispatch_begin. destruct (receive _ _ _ _) as [[i exc]|m]; simpl; [done|].
  unfold route. destruct (op m); simpl; try done.
  intros Hk. destruct (request_begin_inflight _ _ _ _ _ _ _ Hk) as (? & ? & _ & ?). done.
Qed.

(** ** Connecting and leaving *)

Lemma register_inv s ws b :
  broker_inv b -> (forall s', connections b !! s' ≠ Some ws) ->
  broker_inv (_register s ws b).
Proof.
  intros Hb Hf. unfold _register. destruct (connections b !! s) eqn:Hs.
  { destruct Hb. by split. }
  destruct Hb as [Hr ???]. split; simpl; [|done..].
  apply registry_insert; [done|done|].
  destruct (ws_to_sandbox b !! ws) as [s'|] eqn:Hw; [|done].
  apply Hr in Hw. by apply Hf in Hw.
Qed.

(** [_unregister] of a registered socket, up to what it sends. *)
Lemma unregister_sound sok i now s ws b :
  connections b !! s = Some ws ->
  sound (set_registry (delete s (connections b)) (delete ws (ws_to_sandbox b)) b)
        (_unregister sok i now s ws b).
Proof.
  intros Hc. unfold _unregister. rewrite decide_True by done.
  etrans; [|apply quiet_sound, audit_quiet].
  etrans; [|apply quiet_sound, gather_quiet].
  etrans; [|apply set_counts_sound; auto with nmb].
  etrans; [|apply drop_all_sound].
  apply set_channels_sound, channels_forget.
Qed.

Lemma unregister_inv sok i now s ws b :
  broker_inv b -> (connections b !! s ≠ Some ws -> ws_to_sandbox b !! ws = None) ->
  broker_inv (_unregister sok i now s ws b).
Proof.
  intros Hb Hws. destruct (decide (connections b !! s = Some ws)) as [Hc|Hc].
  - apply (sound_inv _ _ (unregister_sound sok i now s ws b Hc)).
    destruct Hb as [Hr ???]. split; simpl; [|done..]. by apply registry_delete.
  - unfold _unregister. rewrite decide_False by done.
    rewrite (delete_id _ _ (Hws Hc)). by destruct Hb.
Qed.
End sound_handlers.

(** ** Where pending requests come from

    Only a REQUEST frame makes its id pending. *)
Definition frees (b b' : Broker) : Prop :=
  forall i, pending b !! i = None -> pending b' !! i = None.

#[export] Instance frees_preorder : PreOrder frees.
Proof. split; [by intros ???|]. intros b1 b2 b3 H1 H2 i Hi. by apply H2, H1. Qed.

Lemma quiet_frees b b' : routing_eq b' b -> frees b b'.
Proof. intros H i. by destruct (routing_eq_fields _ _ H) as (_ & _ & _ & _ & _ & -> & _). Qed.

Lemma same_frees b b' : pending b' = pending b -> frees b b'.
Proof. by intros H i; rewrite H. Qed.

Lemma delete_frees b b' rid : pending b' = delete rid (pending b) -> frees b b'.
Proof. intros H i Hi. rewrite H, lookup_delete. by case_decide. Qed.

#[export] Hint Resolve quiet_frees : nmb.

Section pending_origin.
Context (model_validate_json : string -> string + NMBMessage).
Context (show_seconds : seconds -> string).

Lemma cancel_pending t b : pending (cancel_timer t b) = pending b.
Proof. by destruct t. Qed.

Lemma reply_frees sok s ws m b : frees b (_handle_reply sok s ws m b).
Proof.
  unfold _handle_reply. case_if; [auto with nmb|].
  destruct (pending b !! _) as [e|]; [|auto with nmb].
  set (b1 := set_pending _ _ (cancel_timer _ _)).
  transitivity b1; [eapply delete_frees; exact (cancel_pending _ (set_pending _ _ b))|].
  destruct (connections b1 !! _); [|auto with nmb].
  unfold ws_send. destruct (sok _ _); auto with nmb.
  apply quiet_frees. etrans; [apply audit_msg_quiet|apply emit_quiet].
Qed.

Lemma request_end_frees sok k b : frees b (_handle_request_end sok k b).
Proof.
  unfold _handle_request_end, ws_send. destruct (sok _ _).
  - apply quiet_frees. etrans; [apply send_ack_quiet|apply emit_quiet].
  - etrans; [|apply quiet_frees, send_error_quiet]. eapply delete_frees. reflexivity.
Qed.

Lemma subscription_frees sok s ws m b :
  frees b (_handle_subscribe sok s ws m b) /\ frees b (_handle_unsubscribe sok s ws m b).
Proof.
  unfold _handle_subscribe, _handle_unsubscribe. split; (case_if; [auto with nmb|]); try case_if;
    (etrans; [|apply quiet_frees; first [apply send_error_quiet|apply send_ack_quiet]]);
    by apply same_frees.
Qed.

Lemma route_frees sok now s ws m b i :
  ~ (op m = REQUEST /\ id m = i) ->
  pending b !! i = None -> pending (route sok now s ws m b).1 !! i = None.
Proof.
  intros Hn Hi. assert (Hf : forall b', frees b b' -> pending b' !! i = None) by auto.
  unfold route. destruct (op m) eqn:Ho; simpl; try (apply Hf; auto with nmb; fail).
  - unfold _handle_request_begin. case_if; [apply Hf; simpl; auto with nmb|].
    case_if; [apply Hf; simpl; auto with nmb|].
    destruct (connections b !! _); [|apply Hf; simpl; auto with nmb]. simpl.
    rewrite lookup_insert_ne; [done|]. intros ?. by apply Hn.
  - apply Hf, reply_frees.
  - apply Hf, subscription_frees.
  - apply Hf, subscription_frees.
Qed.

Lemma timeout_frees sok t b : frees b (_timeout_request show_seconds sok t b).
Proof.
  unfold _timeout_request. destruct (timers b !! t) as [tm|]; [|done].
  destruct (pending _ !! _); [|by apply same_frees].
  etrans; [|apply quiet_frees, audit_quiet].
  set (b1 := set_pending _ _ _). transitivity b1; [by eapply delete_frees|].
  destruct (connections b1 !! _); [auto with nmb|done].
Qed.

Lemma drop_all_frees rids b : frees b (fold_left (fun b rid => drop_pending rid b) rids b).
Proof.
  revert b. induction rids as [|r rids IH]; intros b; [done|]. cbn [fold_left].
  etrans; [|apply IH]. unfold drop_pending. destruct (pending b !! r); [|done].
  eapply delete_frees. apply (cancel_pending _ (set_pending _ _ b)).
Qed.

Lemma unregister_frees sok i now s ws b : frees b (_unregister sok i now s ws b).
Proof.
  unfold _unregister. case_decide; [|by apply same_frees].
  etrans; [|apply quiet_frees, audit_quiet]. etrans; [|apply quiet_frees, broadcast_quiet].
  etrans; [|apply same_frees; reflexivity]. etrans; [|apply drop_all_frees]. by apply same_frees.
Qed.

(** The step handles a REQUEST frame with id [i]. *)
Definition requests_id (i : string) (l : Label) : Prop :=
  match l with
  | LFrame _ _ _ raw => exists m, model_validate_json raw = inr m /\ op m = REQUEST /\ id m = i
  | _ => False
  end.

Lemma step_frees i l s s' :
  ~ requests_id i l -> sys_step model_validate_json show_seconds l s = Some s' ->
  pending (br s) !! i = None -> pending (br s') !! i = None.
Proof.
  intros Hn Hs Hi. destruct l as [sid ws|sok now ws raw|sok ws|sok t|sok j now ws]; simpl in Hs.
  - destruct (str_truthy sid); [|done]. destruct (handlers s !! ws); [done|]. simplify_eq.
    simpl. unfold _register. by destruct (connections (br s) !! sid).
  - destruct (handlers s !! ws) as [sid|]; [|done]. destruct (inflight s !! ws); [done|].
    destruct (_dispatch_begin _ _ _ _ _ _ _) as [b k] eqn:Hd. simplify_eq. simpl.
    change b with (b, k).1. rewrite <- Hd. unfold _dispatch_begin.
    destruct (receive _ _ _ _) as [[? ?]|m] eqn:Hr; [by apply (quiet_frees _ _ (send_error_quiet _ _ _ _ _ _ _))|].
    apply route_frees; [|done]. intros [Ho Hm]. apply Hn. unfold receive, from_json in Hr.
    simpl. destruct (model_validate_json raw) as [|m0]; [done|]. exists m0. split; [done|].
    destruct (validate_frame _); [done|]. by simplify_eq.
  - destruct (inflight s !! ws); [|done]. simplify_eq. by apply request_end_frees.
  - destruct (timers (br s) !! t); [|done]. simplify_eq. by apply timeout_frees.
  - destruct (handlers s !! ws); [|done]. destruct (inflight s !! ws); [done|]. simplify_eq.
    by apply unregister_frees.
Qed.

(** The id of no REQUEST of a schedule is pending after it. *)
Lemma schedule_frees i ls s s' :
  Forall (fun l => ~ requests_id i l) ls ->
  run_schedule model_validate_json show_seconds ls s = Some s' ->
  pending (br s) !! i = None -> pending (br s') !! i = None.
Proof.
  intros Hf. revert s. induction Hf as [|l ls Hl _ IH]; intros s Hr Hi; simpl in Hr; [by simplify_eq|].
  destruct (sys_step _ _ l s) as [s1|] eqn:Hs; [|done].
  apply (IH s1 Hr). by apply (step_frees i l s s1).
Qed.
End pending_origin.
