(* ===== verification/BrokerSpec.v ===== *)
(** * BrokerSpec

    The reachable states of the broker's event loop and the invariant of the
    whole system: the routing invariant, and what ties the tables to the
    running handlers and the suspended deliveries. *)

From S2P Require Import Prelude Json Messages Broker BrokerInv.

(** ** Reachable states *)

Section reachability.
Context (model_validate_json : string -> string + NMBMessage).
Context (show_seconds : seconds -> string).

Abbreviation step := (sys_step model_validate_json show_seconds).
Abbreviation reach := (reachable model_validate_json show_seconds).

(** The broker's invariant, and what ties it to the running handlers: a
    registered socket is served by a handler of that identity, and a
    suspended delivery belongs to the handler that started it. *)
Record sys_inv (s : Sys) : Prop := {
  si_broker : broker_inv (br s);
  si_handlers : forall sid w,
    connections (br s) !! sid = Some w -> handlers s !! w = Some sid;
  si_inflight : forall w k, inflight s !! w = Some k ->
    if_ws k = w /\ handlers s !! w = Some (if_sender k) /\ inflight_ok (br s) k
}.

Lemma new_sys_inv c a : sys_inv (new_sys c a).
Proof.
  split; simpl; [|done|done]. split; simpl; [done| |by split|done].
  split; [|done|done]. intros ch s. rewrite !lookup_empty. set_solver.
Qed.

(** A sound step that keeps handlers and suspended deliveries. *)
Lemma sys_inv_sound s b :
  sys_inv s -> sound (br s) b ->
  sys_inv {| br := b; handlers := handlers s; inflight := inflight s |}.
Proof.
  intros [Hb Hh Hi] Hs. split; simpl.
  - by apply (sound_inv _ _ Hs).
  - intros sid w. rewrite (sound_conn _ _ Hs). apply Hh.
  - intros w k Hk. destruct (Hi _ _ Hk) as (? & ? & ?).
    split; [done|]. split; [done|]. by eapply inflight_ok_sound.
Qed.

Lemma sys_inv_connect s sid ws :
  sys_inv s -> handlers s !! ws = None ->
  sys_inv {| br := _register sid ws (br s);
             handlers := <[ws := sid]> (handlers s); inflight := inflight s |}.
Proof.
  intros [Hb Hh Hi] Hws.
  assert (Hfresh : forall s', connections (br s) !! s' ≠ Some ws).
  { intros s' H. apply Hh in H. congruence. }
  split; simpl.
  - by apply register_inv.
  - intros s' w H. unfold _register in H.
    destruct (connections (br s) !! sid) eqn:Hc; simpl in H.
    + rewrite lookup_insert_ne by (intros ->; by eapply Hfresh). by apply Hh.
    + rewrite lookup_insert in H. rewrite lookup_insert.
      repeat case_decide; simplify_eq; [done| |by apply Hh].
      by apply Hfresh in H.
  - intros w k Hk. destruct (Hi _ _ Hk) as (Hw & Hh' & Hok).
    split; [done|]. rewrite lookup_insert_ne by (intros ->; congruence).
    split; [done|]. unfold _register. by destruct (connections (br s) !! sid).
Qed.

Lemma sys_inv_close s sok i now sid ws :
  sys_inv s -> handlers s !! ws = Some sid -> inflight s !! ws = None ->
  sys_inv {| br := _unregister sok i now sid ws (br s);
             handlers := delete ws (handlers s); inflight := inflight s |}.
Proof.
  intros [Hb Hh Hi] Hws Hf.
  assert (Hinv : broker_inv (_unregister sok i now sid ws (br s))).
  { apply unregister_inv; [done|]. intros Hne.
    destruct (ws_to_sandbox (br s) !! ws) as [s'|] eqn:Hr; [|done].
    apply (inv_registry _ Hb) in Hr. pose proof (Hh _ _ Hr). congruence. }
  destruct (decide (connections (br s) !! sid = Some ws)) as [Hc|Hc].
  - pose proof (unregister_sound sok i now sid ws (br s) Hc) as Hs.
    split; simpl; [done| |].
    + intros s' w. rewrite (sound_conn _ _ Hs); simpl. rewrite lookup_delete.
      case_decide; [done|]. intros Hc0. rewrite lookup_delete_ne; [by apply Hh|].
      intros <-. apply Hh in Hc0. congruence.
    + intros w k Hk. destruct (Hi _ _ Hk) as (Hw & Hh' & Hok).
      split; [done|]. rewrite lookup_delete_ne by (intros ->; congruence).
      split; [done|]. by eapply (inflight_ok_sound _ _ _ Hs).
  - unfold _unregister in *. rewrite decide_False in * by done.
    split; simpl; [done| |].
    + intros s' w Hw. rewrite lookup_delete_ne; [by apply Hh|].
      intros <-. pose proof (Hh _ _ Hw). congruence.
    + intros w k Hk. destruct (Hi _ _ Hk) as (Hw & Hh' & Hok).
      split; [done|]. by rewrite lookup_delete_ne by (intros ->; congruence).
Qed.

Lemma sys_inv_step s l s' : sys_inv s -> step l s = Some s' -> sys_inv s'.
Proof.
  intros Hs Hl. destruct l as [sid ws|sok now ws raw|sok ws|sok t|sok i now ws]; simpl in Hl.
  - destruct (str_truthy sid); [|done].
    destruct (handlers s !! ws) eqn:Hw; [done|]. simplify_eq. by apply sys_inv_connect.
  - destruct (handlers s !! ws) as [sid|] eqn:Hw; [|done].
    destruct (inflight s !! ws) eqn:Hf; [done|].
    pose proof (dispatch_begin_sound model_validate_json sok now sid ws raw (br s)) as Hd.
    pose proof (dispatch_begin_inflight model_validate_json sok now sid ws raw (br s)) as Hk.
    destruct (_dispatch_begin _ _ _ _ _ _ _) as [b k]; simpl in *. simplify_eq.
    pose proof (sys_inv_sound _ _ Hs Hd) as [Hb Hh Hi]. simpl in *.
    destruct k as [k|]; split; simpl in *; try done.
    intros w k'. rewrite lookup_insert. case_decide; [|apply Hi].
    subst. intros [= <-]. destruct (Hk _ eq_refl) as (? & -> & ?). done.
  - destruct (inflight s !! ws) as [k|] eqn:Hf; [|done]. simplify_eq.
    destruct (si_inflight _ Hs _ _ Hf) as (_ & _ & Hok).
    pose proof (sys_inv_sound _ _ Hs (request_end_sound sok k _ Hok)) as [Hb Hh Hi].
    split; simpl in *; [done|done|]. intros w k'. rewrite lookup_delete.
    case_decide; [done|]. apply Hi.
  - destruct (timers (br s) !! t); [|done]. simplify_eq.
    by apply sys_inv_sound, timeout_sound.
  - destruct (handlers s !! ws) as [sid|] eqn:Hw; [|done].
    destruct (inflight s !! ws) eqn:Hf; [done|]. simplify_eq. by apply sys_inv_close.
Qed.

Lemma reachable_sys_inv c a s : reach c a s -> sys_inv s.
Proof. induction 1; [apply new_sys_inv|by eapply sys_inv_step]. Qed.

Lemma reachable_run c a ls s : run_schedule model_validate_json show_seconds ls (new_sys c a) = Some s -> reach c a s.
Proof.
  assert (H : forall s0, reach c a s0 ->
    run_schedule model_validate_json show_seconds ls s0 = Some s -> reach c a s).
  { induction ls as [|l ls IH]; intros s0 Hs0; simpl; [by intros [= <-]|].
    destruct (step l s0) eqn:Hl; [|done]. apply IH. by eapply reach_step. }
  apply H, reach_init.
Qed.

End reachability.
