(* ===== verification/BrokerAccounts.v ===== *)
(** * BrokerAccounts

    Request accounting: the broker bounds a sandbox's outstanding requests
    by a counter it keeps beside the pending table.  The counter is exact
    along every schedule in which request ids are fresh and no timeout or
    reply overtakes a delivery that then fails; without the second
    condition it is not, and the bound is lost. *)

From S2P Require Import Prelude Json Messages Broker BrokerInv BrokerSpec.

Definition from_is (s : string) (e : TrackedPending) : bool :=
  String.eqb (pr_from_sandbox (tp_pending e)) s.

(** How many requests of [s] are pending. *)
Definition outstanding (s : string) (b : Broker) : nat :=
  count_if (from_is s) (pending b).

Record accounts_exact (b : Broker) : Prop := {
  exact_count : forall s, default 0 (pending_counts b !! s) = outstanding s b;
  exact_timers : forall t tm, timers b !! t = Some tm ->
    exists e, pending b !! t_request_id tm = Some e /\ timeout_task e = Some t
}.

#[export] Instance accounts_exact_proper : Proper (routing_eq ==> iff) accounts_exact.
Proof.
  assert (H : forall b b', routing_eq b b' -> accounts_exact b -> accounts_exact b').
  { intros [] [] [= -> -> -> -> -> -> -> -> -> ->] [??]. by split. }
  intros b b' Hb. split; apply H; [done|by symmetry].
Qed.

Lemma from_is_spec s e : from_is s e = true <-> pr_from_sandbox (tp_pending e) = s.
Proof. apply String.eqb_eq. Qed.

(** Registering a request under a fresh id. *)
Lemma exact_create b rid e tm :
  accounts_exact b -> broker_inv b -> pending b !! rid = None ->
  timeout_task e = Some (next_task b) -> t_request_id tm = rid ->
  let s := pr_from_sandbox (tp_pending e) in
  accounts_exact
    (set_pending (<[rid := e]> (pending b))
       (<[s := S (default 0 (pending_counts b !! s))]> (pending_counts b))
       (set_timers (<[next_task b := tm]> (timers b)) (S (next_task b)) b)).
Proof.
  intros [Hc Ht] Hb Hf He Htm s. subst s. split; simpl.
  - intros s'. unfold outstanding; simpl. rewrite count_if_insert by done.
    fold (outstanding s' b). rewrite <- Hc, lookup_insert. case_decide.
    + subst s'. assert (from_is (pr_from_sandbox (tp_pending e)) e = true) as -> by by apply from_is_spec. done.
    + destruct (from_is s' e) eqn:Hs'; [|done]. apply from_is_spec in Hs'. congruence.
  - intros t tm'. rewrite lookup_insert. case_decide.
    + intros [= <-]. exists e. subst. by rewrite lookup_insert_eq.
    + intros H'. destruct (Ht _ _ H') as (e' & He' & Ht').
      exists e'. rewrite lookup_insert_ne; [done|]. intros Heq. rewrite <- Heq in He'. congruence.
Qed.

(** Forgetting a request together with its own timer and one unit of its
    requester's count. *)
Lemma exact_forget b rid e t :
  accounts_exact b -> pending b !! rid = Some e -> timeout_task e = Some t ->
  accounts_exact
    (set_timers (delete t (timers b)) (next_task b)
       (set_pending (delete rid (pending b))
          (decrement_count (pr_from_sandbox (tp_pending e)) (pending_counts b)) b)).
Proof.
  intros [Hc Ht] He Hte. split; simpl.
  - intros s. unfold outstanding, decrement_count; simpl. rewrite lookup_insert.
    pose proof (count_if_delete (from_is s) _ _ _ He) as Hd.
    fold (outstanding s b) in Hd. rewrite <- Hc in Hd. case_decide as Hs.
    + subst s.
      assert (from_is (pr_from_sandbox (tp_pending e)) e = true) as Hf
        by by apply from_is_spec.
      rewrite Hf in Hd.
      destruct (pending_counts b !! _) as [n|]; simpl in *; lia.
    + destruct (from_is s e) eqn:Hs'; [apply from_is_spec in Hs'; congruence|].
      simpl in Hd. lia.
  - intros t' tm. rewrite lookup_delete. case_decide; [done|]. intros H'.
    destruct (Ht _ _ H') as (e' & He' & Ht').
    exists e'. rewrite lookup_delete_ne; [done|]. intros Heq. rewrite <- Heq in He'. congruence.
Qed.

(** ** A departing sandbox *)

Lemma drop_pending_counts rid b : pending_counts (drop_pending rid b) = pending_counts b.
Proof. unfold drop_pending. destruct (pending b !! rid) as [e|]; [|done]. by destruct (timeout_task e). Qed.

Lemma drop_pending_lookup rid b r :
  pending (drop_pending rid b) !! r = if decide (r = rid) then None else pending b !! r.
Proof.
  unfold drop_pending. destruct (pending b !! rid) as [e|] eqn:He.
  - assert (Hp : pending (cancel_timer (timeout_task e)
        (set_pending (delete rid (pending b)) (pending_counts b) b)) = delete rid (pending b))
      by by destruct (timeout_task e).
    rewrite Hp, lookup_delete. repeat case_decide; congruence.
  - case_decide; congruence.
Qed.

Lemma drop_pending_timers rid b :
  (forall t tm, timers b !! t = Some tm ->
     exists e, pending b !! t_request_id tm = Some e /\ timeout_task e = Some t) ->
  forall t tm, timers (drop_pending rid b) !! t = Some tm ->
     exists e, pending (drop_pending rid b) !! t_request_id tm = Some e /\ timeout_task e = Some t.
Proof.
  intros Ht t tm Htm.
  assert (Hold : timers b !! t = Some tm).
  { unfold drop_pending in Htm. destruct (pending b !! rid); [|done].
    by apply cancel_timers_sub in Htm. }
  destruct (Ht _ _ Hold) as (e & He & Hte). exists e. split; [|done].
  rewrite drop_pending_lookup. case_decide as Hr; [|done]. exfalso.
  rewrite Hr in He. unfold drop_pending in Htm. rewrite He, Hte in Htm. simpl in Htm.
  by rewrite lookup_delete_eq in Htm.
Qed.

Lemma drop_all_spec rids b :
  let b' := fold_left (fun b rid => drop_pending rid b) rids b in
  pending_counts b' = pending_counts b /\
  (forall r, pending b' !! r = if decide (r ∈ rids) then None else pending b !! r) /\
  ((forall t tm, timers b !! t = Some tm ->
     exists e, pending b !! t_request_id tm = Some e /\ timeout_task e = Some t) ->
   forall t tm, timers b' !! t = Some tm ->
     exists e, pending b' !! t_request_id tm = Some e /\ timeout_task e = Some t).
Proof.
  revert b. induction rids as [|r rids IH]; intros b; cbn [fold_left].
  { split; [done|]. split; [|done]. intros r. by rewrite decide_False by set_solver. }
  destruct (IH (drop_pending r b)) as (Hc & Hp & Ht). split; [|split].
  - by rewrite Hc, drop_pending_counts.
  - intros r'. rewrite Hp, drop_pending_lookup.
    repeat case_decide; first [done|set_solver].
  - intros H0. apply Ht. by apply drop_pending_timers.
Qed.

Lemma expired_spec s b r :
  r ∈ expired_requests s b <->
  exists e, pending b !! r = Some e /\ pr_from_sandbox (tp_pending e) = s.
Proof.
  unfold expired_requests. rewrite list_elem_of_fmap. split.
  - intros ([r' e] & -> & Hin). apply elem_of_map_to_list in Hin.
    apply map_lookup_filter_Some in Hin. exists e. naive_solver.
  - intros (e & He & Hs). exists (r, e). split; [done|].
    apply elem_of_map_to_list, map_lookup_filter_Some. done.
Qed.

Lemma outstanding_forgotten s b r e :
  pending (fold_left (fun b rid => drop_pending rid b) (expired_requests s b) b) !! r = Some e ->
  pending b !! r = Some e /\ pr_from_sandbox (tp_pending e) ≠ s.
Proof.
  destruct (drop_all_spec (expired_requests s b) b) as (_ & Hp & _).
  rewrite Hp. case_decide as Hd; [done|]. intros He. split; [done|].
  intros Hs. apply Hd, expired_spec. by exists e.
Qed.

Lemma exact_leave s b :
  accounts_exact b ->
  let b' := fold_left (fun b rid => drop_pending rid b) (expired_requests s b) b in
  accounts_exact (set_pending (pending b') (delete s (pending_counts b')) b').
Proof.
  intros [Hc Ht] b'.
  destruct (drop_all_spec (expired_requests s b) b) as (Hpc & Hp & Htt).
  split; simpl; [|by apply Htt].
  intros s'. unfold outstanding; simpl. fold b' in Hpc, Hp. rewrite Hpc, lookup_delete.
  case_decide as Hs.
  - subst s'. symmetry. apply count_if_zero. intros r e He.
    destruct (from_is s e) eqn:Hf; [|done]. apply from_is_spec in Hf.
    by apply outstanding_forgotten in He as [_ ?].
  - rewrite Hc. apply count_if_ext. intros r e. rewrite Hp.
    split; intros [He Hf]; (split; [|done]).
    + rewrite decide_False; [done|]. rewrite expired_spec. intros (e' & He' & <-).
      apply from_is_spec in Hf. congruence.
    + by case_decide.
Qed.

(** ** Every disciplined step keeps the counter exact *)

Lemma accounts_same b b' :
  pending b' = pending b -> pending_counts b' = pending_counts b ->
  timers b' = timers b -> accounts_exact b -> accounts_exact b'.
Proof.
  intros Hp Hc Ht [H1 H2]. split; unfold outstanding; rewrite ?Hp, ?Hc, ?Ht; done.
Qed.

(** Moves [accounts_exact] across a quiet step. *)
Ltac exact_quiet :=
  match goal with
  | |- accounts_exact ?b =>
      let H := fresh in
      eassert (routing_eq b _) as H by eauto with nmb; rewrite H; clear H
  end.

Section accounts.
Context (model_validate_json : string -> string + NMBMessage).
Context (show_seconds : seconds -> string).

Lemma request_begin_exact sok now s ws m b :
  broker_inv b -> accounts_exact b -> pending b !! id m = None ->
  accounts_exact (_handle_request_begin sok now s ws m b).1.
Proof.
  intros Hb Ha Hf. unfold _handle_request_begin.
  case_if; [by exact_quiet|]. case_if; [by exact_quiet|].
  destruct (connections b !! _) as [tws|]; [|by exact_quiet]. simpl.
  match goal with |- context [<[id m := ?x]> _] => set (e := x) end.
  match goal with |- context [<[next_task b := ?x]> _] => set (tm := x) end.
  by apply (exact_create b (id m) e tm).
Qed.

Lemma request_end_exact sok k b :
  broker_inv b -> inflight_ok b k -> accounts_exact b ->
  (sok (if_target_ws k) (_make_deliver (if_msg k)) = false ->
   exists e, pending b !! id (if_msg k) = Some e /\ timeout_task e = Some (if_task k)) ->
  accounts_exact (_handle_request_end sok k b).
Proof.
  intros Hb [_ Hk] Ha Hown. unfold _handle_request_end, ws_send.
  destruct (sok _ _).
  - exact_quiet. by exact_quiet.
  - destruct (Hown eq_refl) as (e & He & Hte).
    destruct (pending_guarded _ _ _ (inv_timers _ Hb) _ _ He) as (t & tm & Ht & Htm & _ & Hs).
    simplify_eq. destruct (Hk _ Htm) as [_ Hs']. rewrite Hs in Hs'.
    exact_quiet. rewrite <- Hs'. by apply (exact_forget b).
Qed.

Lemma reply_exact sok s ws m b :
  broker_inv b -> accounts_exact b -> accounts_exact (_handle_reply sok s ws m b).
Proof.
  intros Hb Ha. unfold _handle_reply. case_if; [by exact_quiet|].
  destruct (pending b !! _) as [e|] eqn:He; [|by exact_quiet].
  destruct (pending_guarded _ _ _ (inv_timers _ Hb) _ _ He) as (t & tm & Ht & _).
  pose proof (exact_forget _ _ _ _ Ha He Ht) as Hx. rewrite Ht. simpl.
  destruct (connections b !! _) as [tws|]; [|exact_quiet; exact Hx].
  unfold ws_send. destruct (sok _ _); exact_quiet; [exact_quiet|]; exact Hx.
Qed.

Lemma timeout_exact sok t b :
  broker_inv b -> accounts_exact b -> accounts_exact (_timeout_request show_seconds sok t b).
Proof.
  intros Hb Ha. unfold _timeout_request.
  destruct (timers b !! t) as [tm|] eqn:Ht; [|done].
  destruct (exact_timers _ Ha _ _ Ht) as (e & He & Hte).
  destruct (pending_guarded _ _ _ (inv_timers _ Hb) _ _ He)
    as (t' & tm' & Ht' & Htm' & _ & Hs). simplify_eq.
  pose proof (exact_forget _ _ _ _ Ha He Hte) as Hx.
  simpl. rewrite He, Hs. exact_quiet.
  destruct (connections b !! _); [|exact Hx]. exact_quiet. exact Hx.
Qed.

Lemma route_exact sok now s ws m b :
  broker_inv b -> accounts_exact b ->
  (op m = REQUEST -> pending b !! id m = None) ->
  accounts_exact (route sok now s ws m b).1.
Proof.
  intros Hb Ha Hf. unfold route. destruct (op m); simpl; try by exact_quiet.
  - by apply request_begin_exact; auto.
  - by apply reply_exact.
  - unfold _handle_subscribe. case_if; [by exact_quiet|].
    case_if; exact_quiet; by eapply accounts_same; [| | |exact Ha].
  - unfold _handle_unsubscribe. case_if; [by exact_quiet|].
    exact_quiet. by eapply accounts_same; [| | |exact Ha].
Qed.

Lemma unregister_exact sok i now s ws b :
  accounts_exact b -> accounts_exact (_unregister sok i now s ws b).
Proof.
  intros Ha. unfold _unregister. case_decide.
  - exact_quiet. unfold _broadcast_system. exact_quiet.
    apply exact_leave. by eapply accounts_same; [| | |exact Ha].
  - by eapply accounts_same; [| | |exact Ha].
Qed.

Lemma register_exact s ws b : accounts_exact b -> accounts_exact (_register s ws b).
Proof.
  intros Ha. unfold _register. destruct (connections b !! s);
    by eapply accounts_same; [| | |exact Ha].
Qed.

(** Request ids are fresh (the clients draw them as UUIDs), and when a
    delivery fails its request is still the pending one. *)
Definition disciplined (l : Label) (s : Sys) : Prop :=
  match l with
  | LFrame _ now ws raw =>
      forall sid m, handlers s !! ws = Some sid ->
        receive model_validate_json now sid raw = inr m -> op m = REQUEST ->
        pending (br s) !! id m = None
  | LResume sok ws =>
      forall k, inflight s !! ws = Some k ->
        sok (if_target_ws k) (_make_deliver (if_msg k)) = false ->
        exists e, pending (br s) !! id (if_msg k) = Some e /\
                  timeout_task e = Some (if_task k)
  | _ => True
  end.

Inductive disciplined_reach (c : BrokerConfig) (a : bool) : Sys -> Prop :=
| disc_init : disciplined_reach c a (new_sys c a)
| disc_step s l s' :
    disciplined_reach c a s -> disciplined l s ->
    sys_step model_validate_json show_seconds l s = Some s' ->
    disciplined_reach c a s'.

(** A schedule all of whose steps are disciplined. *)
Fixpoint disciplined_along (ls : list Label) (s : Sys) : Prop :=
  match ls with
  | [] => True
  | l :: ls => disciplined l s /\
      forall s', sys_step model_validate_json show_seconds l s = Some s' ->
        disciplined_along ls s'
  end.

Lemma disciplined_run c a ls s s' :
  disciplined_reach c a s -> disciplined_along ls s ->
  run_schedule model_validate_json show_seconds ls s = Some s' -> disciplined_reach c a s'.
Proof.
  revert s. induction ls as [|l ls IH]; intros s Hs Hd Hr; simpl in Hr; [by simplify_eq|].
  destruct (sys_step _ _ l s) as [s1|] eqn:Hl; [|done]. destruct Hd as [Hd Hd'].
  eapply IH; [by eapply disc_step|by apply Hd'|done].
Qed.

Lemma disciplined_reachable c a s :
  disciplined_reach c a s -> reachable model_validate_json show_seconds c a s.
Proof. induction 1; [apply reach_init|by eapply reach_step]. Qed.

Lemma disciplined_step_exact s l s' :
  sys_inv s -> accounts_exact (br s) -> disciplined l s ->
  sys_step model_validate_json show_seconds l s = Some s' -> accounts_exact (br s').
Proof.
  intros [Hb Hh Hi] Ha Hd Hl.
  destruct l as [sid ws|sok now ws raw|sok ws|sok t|sok i now ws]; simpl in Hl.
  - destruct (str_truthy sid); [|done]. destruct (handlers s !! ws); [done|].
    simplify_eq. by apply register_exact.
  - destruct (handlers s !! ws) as [sid|] eqn:Hw; [|done].
    destruct (inflight s !! ws); [done|].
    assert (He : accounts_exact (_dispatch_begin model_validate_json sok now sid ws raw (br s)).1).
    { unfold _dispatch_begin. destruct (receive _ _ _ _) as [[i exc]|m] eqn:Hr; simpl;
        [by exact_quiet|]. apply route_exact; [done..|]. by eapply Hd. }
    destruct (_dispatch_begin _ _ _ _ _ _ _) as [b k]. by simplify_eq.
  - destruct (inflight s !! ws) as [k|] eqn:Hk; [|done]. simplify_eq.
    destruct (Hi _ _ Hk) as (_ & _ & Hok). simpl.
    apply request_end_exact; [done..|]. by apply Hd.
  - destruct (timers (br s) !! t); [|done]. simplify_eq. by apply timeout_exact.
  - destruct (handlers s !! ws) as [sid|]; [|done]. destruct (inflight s !! ws); [done|].
    simplify_eq. by apply unregister_exact.
Qed.

Lemma disciplined_exact c a s : disciplined_reach c a s -> accounts_exact (br s).
Proof.
  induction 1 as [|s l s' Hr IH Hd Hl].
  - split; simpl; [|done]. intros s. symmetry. apply (count_if_zero _ ∅).
    intros i x. by rewrite lookup_empty.
  - eapply disciplined_step_exact; [|done..].
    by eapply reachable_sys_inv, disciplined_reachable.
Qed.

(** The configuration never changes. *)
Lemma step_config s l s' :
  sys_inv s -> sys_step model_validate_json show_seconds l s = Some s' ->
  config (br s') = config (br s).
Proof.
  intros [Hb Hh Hi] Hl.
  destruct l as [sid ws|sok now ws raw|sok ws|sok t|sok i now ws]; simpl in Hl.
  - destruct (str_truthy sid); [|done]. destruct (handlers s !! ws); [done|].
    simplify_eq. simpl. unfold _register. by destruct (connections _ !! _).
  - destruct (handlers s !! ws) as [sid|]; [|done]. destruct (inflight s !! ws); [done|].
    pose proof (sound_config _ _ (dispatch_begin_sound model_validate_json sok now sid ws raw (br s))).
    destruct (_dispatch_begin _ _ _ _ _ _ _) as [b k]. by simplify_eq.
  - destruct (inflight s !! ws) as [k|] eqn:Hk; [|done]. simplify_eq.
    destruct (Hi _ _ Hk) as (_ & _ & Hok). by apply sound_config, request_end_sound.
  - destruct (timers (br s) !! t); [|done]. simplify_eq. by apply sound_config, timeout_sound.
  - destruct (handlers s !! ws) as [sid|]; [|done]. destruct (inflight s !! ws); [done|].
    simplify_eq. simpl. destruct (decide (connections (br s) !! sid = Some ws)) as [Hc|Hc].
    + by apply (sound_config _ _ (unregister_sound sok i now sid ws (br s) Hc)).
    + unfold _unregister. by rewrite decide_False by done.
Qed.

Lemma reachable_config c a s :
  reachable model_validate_json show_seconds c a s -> config (br s) = c.
Proof.
  induction 1 as [|s l s' Hr IH Hl]; [done|]. rewrite <- IH.
  eapply step_config; [|done]. by eapply reachable_sys_inv.
Qed.
End accounts.
