(* ===== verification/BrokerEmits.v ===== *)
(** * BrokerEmits

    What the broker puts on the wire: every step only appends to the frames
    sent, and each delivered frame carries the identity of the connection
    whose coroutine sent it. *)

From S2P Require Import Prelude Json Messages Broker BrokerInv BrokerSpec.

(** [b'] sent more frames than [b], all of them satisfying [P]. *)
Definition emits (P : WS * NMBMessage -> Prop) (b b' : Broker) : Prop :=
  exists fs, outbox b' = outbox b ++ fs /\ Forall P fs.

#[export] Instance emits_preorder P : PreOrder (emits P).
Proof.
  split.
  - intros b. exists []. by rewrite app_nil_r.
  - intros b1 b2 b3 (f1 & H1 & F1) (f2 & H2 & F2). exists (f1 ++ f2).
    rewrite H2, H1, <- app_assoc. split; [done|]. by apply Forall_app.
Qed.

Lemma emits_same P b b' : outbox b' = outbox b -> emits P b b'.
Proof. intros H. exists []. by rewrite app_nil_r. Qed.

Lemma emits_emit (P : WS * NMBMessage -> Prop) ws m b : P (ws, m) -> emits P b (emit ws m b).
Proof. intros H. exists [(ws, m)]. split; [done|]. by constructor. Qed.

Lemma emits_ws_send (P : WS * NMBMessage -> Prop) sok ws m b :
  P (ws, m) -> emits P b (ws_send sok ws m b).1.
Proof. intros H. unfold ws_send. destruct (sok ws m); [by apply emits_emit|by apply emits_same]. Qed.

Lemma emits_audit P e b : emits P b (audit e b).
Proof. by apply emits_same. Qed.

Lemma emits_ack (P : WS * NMBMessage -> Prop) sok ws i a b :
  P (ws, new_message ACK i) -> emits P b (_send_ack sok ws i a b).
Proof.
  intros H. unfold _send_ack. etrans; [by apply emits_ws_send|].
  destruct a; [apply emits_audit|by apply emits_same].
Qed.

Lemma emits_error (P : WS * NMBMessage -> Prop) sok ws i c t a b :
  P (ws, error_frame i c t) -> emits P b (_send_error sok ws i c t a b).
Proof.
  intros H. unfold _send_error. etrans; [by apply emits_ws_send|].
  destruct a; [apply emits_audit|by apply emits_same].
Qed.

Lemma emits_gather (P : WS * NMBMessage -> Prop) sok wss m b :
  (forall w, P (w, m)) -> emits P b (gather_sends sok wss m b).
Proof.
  intros H. unfold gather_sends. revert b. induction wss as [|w wss IH]; intros b; simpl; [done|].
  etrans; [|apply IH]. by apply emits_ws_send.
Qed.

(** A frame delivered to a sandbox says it is from [s]. *)
Definition deliver_from (s : string) (f : WS * NMBMessage) : Prop :=
  op f.2 = DELIVER -> from_sandbox f.2 = Some s.

Section emits_handlers.
Context (model_validate_json : string -> string + NMBMessage).
Context (show_seconds : seconds -> string).

Lemma receive_stamped now s raw m :
  receive model_validate_json now s raw = inr m ->
  from_sandbox m = Some s /\ timestamp m = Some now /\ validate_frame m = inr tt.
Proof.
  unfold receive. destruct (from_json _ _) as [|m']; [done|].
  destruct (validate_frame _) as [|[]] eqn:Hv; [done|]. intros [= <-]. done.
Qed.

(** The tactic for a handler: each branch is a chain of sends. *)
Ltac frame_ok :=
  intros; unfold deliver_from; simpl; intros; first [assumption | discriminate | reflexivity].

Ltac emit_one :=
  first
    [ apply emits_error; frame_ok
    | apply emits_ack; frame_ok
    | apply emits_audit
    | apply emits_gather; frame_ok
    | apply emits_ws_send; frame_ok
    | apply emits_emit; frame_ok
    | apply emits_same; reflexivity ].

Lemma send_from sok s ws m b :
  from_sandbox m = Some s -> emits (deliver_from s) b (_handle_send sok s ws m b).
Proof.
  intros Hm. unfold _handle_send. case_if; [emit_one|].
  destruct (connections b !! _); [|emit_one].
  unfold ws_send. destruct (sok _ _); [|emit_one]. etrans; [|emit_one]. emit_one.
Qed.

Lemma stream_from sok s ws m b :
  from_sandbox m = Some s -> emits (deliver_from s) b (_handle_stream sok s ws m b).
Proof.
  intros Hm. unfold _handle_stream. case_if; [emit_one|].
  destruct (connections b !! _); [|emit_one].
  unfold ws_send. destruct (sok _ _); emit_one.
Qed.

Lemma publish_from sok s ws m b :
  from_sandbox m = Some s -> emits (deliver_from s) b (_handle_publish sok s ws m b).
Proof.
  intros Hm. unfold _handle_publish. case_if; [emit_one|]. etrans; cycle 1; emit_one.
Qed.

Lemma cancel_outbox t b : outbox (cancel_timer t b) = outbox b.
Proof. by destruct t. Qed.

Lemma reply_from sok s ws m b :
  from_sandbox m = Some s -> emits (deliver_from s) b (_handle_reply sok s ws m b).
Proof.
  intros Hm. unfold _handle_reply. case_if; [emit_one|].
  destruct (pending b !! _) as [e|]; [|emit_one].
  set (b1 := set_pending _ _ (cancel_timer _ _)).
  transitivity b1; [apply emits_same, (cancel_outbox _ (set_pending _ _ b))|].
  destruct (connections b1 !! _); [|emit_one].
  unfold ws_send. destruct (sok _ _); [|emit_one].
  etrans; [|emit_one]. emit_one.
Qed.

Lemma request_begin_from sok now s ws m b :
  emits (deliver_from s) b (_handle_request_begin sok now s ws m b).1.
Proof.
  unfold _handle_request_begin. case_if; [emit_one|]. case_if; [emit_one|].
  destruct (connections b !! _); simpl; emit_one.
Qed.

Lemma request_end_from sok k s b :
  from_sandbox (if_msg k) = Some s -> emits (deliver_from s) b (_handle_request_end sok k b).
Proof.
  intros Hm. unfold _handle_request_end, ws_send. destruct (sok _ _).
  - etrans; [|emit_one]. emit_one.
  - etrans; [|emit_one]. emit_one.
Qed.

Lemma route_from sok now s ws m b :
  from_sandbox m = Some s -> emits (deliver_from s) b (route sok now s ws m b).1.
Proof.
  intros Hm. unfold route. destruct (op m); simpl;
    auto using send_from, stream_from, publish_from, reply_from, request_begin_from;
    try emit_one.
  - unfold _handle_subscribe. case_if; [emit_one|]. case_if; (etrans; [|emit_one]); emit_one.
  - unfold _handle_unsubscribe. case_if; [emit_one|]. etrans; cycle 1; emit_one.
Qed.

Lemma dispatch_begin_from sok now s ws raw b :
  emits (deliver_from s) b (_dispatch_begin model_validate_json sok now s ws raw b).1.
Proof.
  unfold _dispatch_begin. destruct (receive _ _ _ _) as [[i exc]|m] eqn:Hr; [emit_one|].
  apply route_from. by apply receive_stamped in Hr as [].
Qed.

Lemma timeout_from sok t b s :
  emits (deliver_from s) b (_timeout_request show_seconds sok t b).
Proof.
  unfold _timeout_request. destruct (timers b !! t) as [tm|]; [|done].
  simpl. destruct (pending b !! _); [|emit_one].
  etrans; [|emit_one]. destruct (connections b !! _); [|emit_one].
  etrans; cycle 1; emit_one.
Qed.

Lemma drop_all_outbox rids b :
  outbox (fold_left (fun b rid => drop_pending rid b) rids b) = outbox b.
Proof.
  revert b. induction rids as [|r rids IH]; intros b; simpl; [done|]. rewrite IH.
  unfold drop_pending. destruct (pending b !! r); [|done]. by rewrite cancel_outbox.
Qed.

Lemma unregister_from sok i now s ws b :
  emits (deliver_from "system") b (_unregister sok i now s ws b).
Proof.
  unfold _unregister. case_decide; [|emit_one].
  etrans; [|emit_one]. unfold _broadcast_system. etrans; [|emit_one].
  apply emits_same. etrans; [exact (drop_all_outbox _ (set_channels _ _ (set_registry _ _ b)))|done].
Qed.

Lemma register_outbox s ws b : outbox (_register s ws b) = outbox b.
Proof. unfold _register. by destruct (connections b !! s). Qed.

(** A suspended request was stamped with its handler's identity. *)
Lemma inflight_stamped c a s w k :
  reachable model_validate_json show_seconds c a s ->
  inflight s !! w = Some k -> from_sandbox (if_msg k) = Some (if_sender k).
Proof.
  intros Hr. revert w k. induction Hr as [|s l s' Hr IH Hl]; [done|]. intros w k.
  destruct l as [sid ws|sok now ws raw|sok ws|sok t|sok i now ws]; simpl in Hl.
  - destruct (str_truthy sid); [|done]. destruct (handlers s !! ws); [done|].
    simplify_eq. apply IH.
  - destruct (handlers s !! ws) as [sid|] eqn:Hw; [|done].
    destruct (inflight s !! ws) eqn:Hf; [done|].
    destruct (_dispatch_begin _ _ _ _ _ _ _) as [b k'] eqn:Hd. simplify_eq. simpl.
    destruct k' as [k'|]; [|apply IH]. rewrite lookup_insert. case_decide; [|apply IH].
    intros [= <-]. unfold _dispatch_begin in Hd.
    destruct (receive _ _ _ _) as [[? ?]|m] eqn:Hm; [done|].
    apply receive_stamped in Hm as [Hm _].
    assert (Hk : (_handle_request_begin sok now sid ws m (br s)).2 = Some k').
    { unfold route in Hd. destruct (op m); simplify_eq. by rewrite Hd. }
    by apply request_begin_inflight in Hk as (_ & -> & -> & _).
  - destruct (inflight s !! ws) eqn:Hf; [|done]. simplify_eq. simpl.
    rewrite lookup_delete. case_decide; [done|apply IH].
  - destruct (timers (br s) !! t); [|done]. simplify_eq. apply IH.
  - destruct (handlers s !! ws) as [sid|]; [|done]. destruct (inflight s !! ws); [done|].
    simplify_eq. apply IH.
Qed.

(** The identity a step acts for. *)
Definition acting (l : Label) (s : Sys) : option string :=
  match l with
  | LFrame _ _ ws _ | LResume _ ws => handlers s !! ws
  | LClose _ _ _ _ => Some "system"
  | LConnect _ _ | LTimer _ _ => None
  end.

(** What the frames of a step for [o] look like. *)
Definition deliver_by (o : option string) (f : WS * NMBMessage) : Prop :=
  op f.2 = DELIVER -> o ≠ None /\ from_sandbox f.2 = o.

Lemma deliver_from_by s b b' :
  emits (deliver_from s) b b' -> emits (deliver_by (Some s)) b b'.
Proof.
  intros (fs & H & F). exists fs. split; [done|]. eapply Forall_impl; [|exact F].
  intros f Hf Hop. split; [done|]. by apply Hf.
Qed.

Lemma timeout_by sok t b : emits (deliver_by None) b (_timeout_request show_seconds sok t b).
Proof.
  destruct (timeout_from sok t b "a") as (fs & H & Fa).
  destruct (timeout_from sok t b "b") as (fs' & H' & Fb).
  rewrite H in H'. apply app_inv_head in H' as <-. exists fs. split; [done|].
  rewrite Forall_forall in *. intros f Hf Hop.
  specialize (Fa _ Hf Hop). specialize (Fb _ Hf Hop). congruence.
Qed.
End emits_handlers.
