(* ===== verification/BrokerTheorems.v ===== *)
(** * BrokerTheorems

    What the message broker promises, over every schedule of its event
    loop: sender identity, the routing invariant, request accounting and
    the race that breaks it, timeouts, the request/reply round trip,
    fan-out, clean-up and the refusal of invalid frames. *)

From S2P Require Import Prelude Json Messages Broker BrokerInv BrokerSpec.
From S2P Require Import BrokerAccounts BrokerEmits.

(** ** A concrete bus

    A parser for a handful of frame texts, and the frames they stand for. *)

Definition sample_request (i to : string) : NMBMessage :=
  {| op := REQUEST; id := i; from_sandbox := None; to_sandbox := Some to;
     type := Some "task"; reply_to := None; channel := None; stream_id := None;
     seq := None; done_ := None; timeout := None; timestamp := None;
     payload := Some [("n", JInt 1)]; code := None; message := None |}.

Definition sample_reply (i to_request : string) : NMBMessage :=
  {| op := REPLY; id := i; from_sandbox := Some "forged"; to_sandbox := None;
     type := Some "task"; reply_to := Some to_request; channel := None;
     stream_id := None; seq := None; done_ := None; timeout := None;
     timestamp := None; payload := Some []; code := None; message := None |}.

Definition sample_on_channel (o : Op) (i ch : string) : NMBMessage :=
  {| op := o; id := i; from_sandbox := None; to_sandbox := None;
     type := Some "event"; reply_to := None; channel := Some ch;
     stream_id := None; seq := None; done_ := None; timeout := None;
     timestamp := None; payload := Some []; code := None; message := None |}.

Definition sample_parse (raw : string) : string + NMBMessage :=
  if String.eqb raw "r0" then inr (sample_request "r0" "c")
  else if String.eqb raw "r1" then inr (sample_request "r1" "b")
  else if String.eqb raw "r2" then inr (sample_request "r2" "c")
  else if String.eqb raw "r3" then inr (sample_request "r3" "c")
  else if String.eqb raw "reply r0" then inr (sample_reply "p0" "r0")
  else if String.eqb raw "sub" then inr (sample_on_channel SUBSCRIBE "s0" "news")
  else if String.eqb raw "pub" then inr (sample_on_channel PUBLISH "e0" "news")
  else inl "not JSON".

Definition sample_config : BrokerConfig :=
  {| max_pending_per_sandbox := 2; default_request_timeout := 300000000%Z;
     max_channels_per_sandbox := 3 |}.

Definition every_send_ok : Oracle := fun _ _ => true.
Definition no_send_ok : Oracle := fun _ _ => false.

(** Three sandboxes connect and [a] sends a request to [c]. *)
Definition sample_schedule : list Label :=
  [LConnect "a" 1; LConnect "b" 2; LConnect "c" 3;
   LFrame every_send_ok 5%Z 1 "r0"; LResume every_send_ok 1].

(** [a]'s request to [b] times out while its delivery is still being
    awaited, the delivery then fails, and [a] sends two more requests. *)
Definition racing_schedule : list Label :=
  sample_schedule ++
  [LFrame every_send_ok 6%Z 1 "r1"; LTimer every_send_ok 1; LResume no_send_ok 1;
   LFrame every_send_ok 7%Z 1 "r2"; LResume every_send_ok 1;
   LFrame every_send_ok 8%Z 1 "r3"; LResume every_send_ok 1].

Definition sample_run (ls : list Label) : option Sys :=
  run_schedule sample_parse show_Z ls (new_sys sample_config true).

Definition sample_state : Sys := default (new_sys sample_config true) (sample_run sample_schedule).

Lemma sample_runs : sample_run sample_schedule = Some sample_state.
Proof. vm_compute. reflexivity. Qed.

Lemma sample_reachable : reachable sample_parse show_Z sample_config true sample_state.
Proof. eapply reachable_run. exact sample_runs. Qed.

(** ** Over every schedule *)

Section schedules.
Context (model_validate_json : string -> string + NMBMessage).
Context (show_seconds : seconds -> string).


(** C2: sender identity cannot be forged.  In every reachable state, every
    frame a step delivers to a sandbox carries as [from_sandbox] the
    identity of the connection the step acts for (the [X-Sandbox-ID] of
    its upgrade request), whatever the frame the client sent claims; the
    broker itself delivers only as [system], and a timeout delivers
    nothing. *)
Theorem sender_identity c a s l s' :
  reachable model_validate_json show_seconds c a s -> sys_step model_validate_json show_seconds l s = Some s' ->
  exists fs, outbox (br s') = outbox (br s) ++ fs /\
    forall w m, (w, m) ∈ fs -> op m = DELIVER ->
      acting l s ≠ None /\ from_sandbox m = acting l s.
Proof.
  intros Hr Hl.
  enough (emits (deliver_by (acting l s)) (br s) (br s')) as (fs & H & F).
  { exists fs. split; [done|]. intros w m Hin Hop.
    rewrite List.Forall_forall in F. apply list_elem_of_In in Hin. exact (F _ Hin Hop). }
  destruct l as [sid ws|sok now ws raw|sok ws|sok t|sok i now ws]; simpl in *.
  - destruct (str_truthy sid); [|done]. destruct (handlers s !! ws); [done|].
    simplify_eq. apply emits_same, register_outbox.
  - destruct (handlers s !! ws) as [sid|]; [|done]. destruct (inflight s !! ws); [done|].
    pose proof (dispatch_begin_from model_validate_json sok now sid ws raw (br s)) as H.
    destruct (_dispatch_begin _ _ _ _ _ _ _) as [b k]. simplify_eq. by apply deliver_from_by.
  - destruct (inflight s !! ws) as [k|] eqn:Hk; [|done]. simplify_eq.
    destruct (si_inflight _ (reachable_sys_inv _ _ _ _ _ Hr) _ _ Hk) as (_ & -> & _).
    apply deliver_from_by, request_end_from. by eapply inflight_stamped.
  - destruct (timers (br s) !! t); [|done]. simplify_eq. apply timeout_by.
  - destruct (handlers s !! ws) as [sid|]; [|done]. destruct (inflight s !! ws); [done|].
    simplify_eq. apply deliver_from_by, unregister_from.
Qed.

(** C4: the routing tables stay consistent.  In every reachable state the
    two connection dictionaries are inverse to each other, the channel
    and per-sandbox subscription tables mirror each other with no empty
    subscriber set, the configured channel and pending limits hold for the
    tables the code checks, and every registered socket is served by the
    handler of its sandbox. *)
Theorem routing_consistent c a s :
  reachable model_validate_json show_seconds c a s ->
  let b := br s in
  (forall sid w, connections b !! sid = Some w <-> ws_to_sandbox b !! w = Some sid) /\
  (forall ch sid, sid ∈ default ∅ (channels b !! ch) <->
                  ch ∈ default ∅ (sandbox_channels b !! sid)) /\
  (forall ch subs, channels b !! ch = Some subs -> subs ≠ ∅) /\
  (forall sid cs, sandbox_channels b !! sid = Some cs ->
     size cs <= max_channels_per_sandbox c) /\
  (forall sid n, pending_counts b !! sid = Some n -> n <= max_pending_per_sandbox c) /\
  (forall sid w, connections b !! sid = Some w -> handlers s !! w = Some sid).
Proof.
  intros Hr b. pose proof (reachable_config _ _ _ _ _ Hr) as Hc.
  destruct (reachable_sys_inv _ _ _ _ _ Hr) as [[Hreg [Hm Hn Hl] _ Hp] Hh _].
  rewrite Hc in *. auto 10.
Qed.

(** C14: request accounting is exact and bounded.  Along every schedule in
    which request ids are fresh and no timeout or reply overtakes a
    delivery that then fails, the counter of every sandbox equals its
    number of pending requests, which therefore never exceeds
    [max_pending_per_sandbox]. *)
Theorem requests_bounded c a s sid :
  disciplined_reach model_validate_json show_seconds c a s ->
  default 0 (pending_counts (br s) !! sid) = outstanding sid (br s) /\
  outstanding sid (br s) <= max_pending_per_sandbox c.
Proof.
  intros Hd. pose proof (disciplined_exact _ _ _ _ _ Hd) as Ha.
  pose proof (disciplined_reachable _ _ _ _ _ Hd) as Hr.
  split; [apply (exact_count _ Ha)|]. rewrite <- (exact_count _ Ha).
  pose proof (inv_counts _ (si_broker _ (reachable_sys_inv _ _ _ _ _ Hr))) as Hp.
  rewrite (reachable_config _ _ _ _ _ Hr) in Hp.
  destruct (pending_counts (br s) !! sid) as [n|] eqn:Hn; simpl; [by eapply Hp|lia].
Qed.

(** No request is left pending for ever.  In every reachable state each
    pending request has a live timeout task; letting that task fire is
    always possible, removes the request, and, when its requester is
    connected and the send goes through, sends it a TIMEOUT frame with the
    request's id. *)
Theorem pending_times_out c a s rid e sok :
  reachable model_validate_json show_seconds c a s -> pending (br s) !! rid = Some e ->
  exists t tm s',
    timeout_task e = Some t /\ timers (br s) !! t = Some tm /\
    sys_step model_validate_json show_seconds (LTimer sok t) s = Some s' /\
    pending (br s') = delete rid (pending (br s)) /\
    (forall w, connections (br s) !! pr_from_sandbox (tp_pending e) = Some w ->
       let f := timeout_frame show_seconds rid (t_timeout tm) in
       sok w f = true -> outbox (br s') = outbox (br s) ++ [(w, f)]).
Proof.
  intros Hr He. pose proof (si_broker _ (reachable_sys_inv _ _ _ _ _ Hr)) as Hb.
  destruct (pending_guarded _ _ _ (inv_timers _ Hb) _ _ He) as (t & tm & Ht & Htm & Hid & Hs).
  exists t, tm. eexists. split; [done|]. split; [done|]. simpl. rewrite Htm.
  split; [done|]. simpl. unfold _timeout_request. rewrite Htm. simpl.
  rewrite Hid, He, Hs. split.
  - destruct (connections (br s) !! _); [|done]. unfold ws_send. by destruct (sok _ _).
  - intros w -> Hok. unfold ws_send. by rewrite Hok.
Qed.
End schedules.

(** The limit does not survive a race.  When a request's timeout fires
    while its delivery is still awaited and the delivery then fails, the
    rollback decrements the sender's counter a second time
    ([_handle_request], the [except] branch): a schedule of three sandboxes
    leaves [a] with three requests pending under a limit of two. *)
Theorem rollback_race_breaks_limit :
  exists s, sample_run racing_schedule = Some s /\
    max_pending_per_sandbox (config (br s)) < outstanding "a" (br s).
Proof.
  destruct (sample_run racing_schedule) as [s|] eqn:Hs.
  - exists s. split; [done|].
    assert (Hc : option_map (fun s => (max_pending_per_sandbox (config (br s)),
                   outstanding "a" (br s))) (sample_run racing_schedule) = Some (2, 3))
      by (vm_compute; reflexivity).
    rewrite Hs in Hc. simpl in Hc. injection Hc as -> ->. lia.
  - exfalso. revert Hs. vm_compute. discriminate.
Qed.

(** ** What one operation does *)

Lemma gather_outbox sok wss m b :
  outbox (gather_sends sok wss m b) =
  outbox b ++ map (fun w => (w, m)) (List.filter (fun w => sok w m) wss).
Proof.
  unfold gather_sends. revert b. induction wss as [|w wss IH]; intros b; simpl;
    [by rewrite app_nil_r|].
  rewrite IH. unfold _safe_send, ws_send. destruct (sok w m); simpl; [|done].
  by rewrite <- app_assoc.
Qed.

Lemma send_ack_outbox sok ws i a b :
  sok ws (new_message ACK i) = true ->
  outbox (_send_ack sok ws i a b) = outbox b ++ [(ws, new_message ACK i)].
Proof. intros H. unfold _send_ack, ws_send. rewrite H. by destruct a. Qed.

Lemma send_error_outbox sok ws i c t a b :
  sok ws (error_frame i c t) = true ->
  outbox (_send_error sok ws i c t a b) = outbox b ++ [(ws, error_frame i c t)].
Proof. intros H. unfold _send_error, ws_send. rewrite H. by destruct a. Qed.

Lemma truthy_some s : s ≠ "" -> opt_truthy (Some s) = true.
Proof. intros H. simpl. unfold str_truthy. destruct (String.eqb_spec s ""); done. Qed.

Lemma opt_truthy_spec o : opt_truthy o = true -> exists s, o = Some s /\ s ≠ "".
Proof.
  destruct o as [s|]; simpl; [|done]. unfold str_truthy.
  destruct (String.eqb_spec s ""); simpl; [done|]. intros _. by exists s.
Qed.

Lemma subscriber_sockets_spec ch skip b w :
  w ∈ subscriber_sockets ch skip b <->
  exists sid, Some sid ≠ skip /\ sid ∈ default ∅ (channels b !! ch) /\
              connections b !! sid = Some w.
Proof.
  unfold subscriber_sockets. rewrite list_elem_of_omap. split.
  - intros (sid & Hin & Hs). case_decide; [done|]. exists sid.
    by rewrite elem_of_elements in Hin.
  - intros (sid & Hne & Hin & Hc). exists sid. rewrite elem_of_elements.
    by rewrite decide_False.
Qed.

Lemma NoDup_omap_inj {A B} (f : A -> option B) (l : list A) :
  (forall x y z, f x = Some z -> f y = Some z -> x = y) -> NoDup l -> NoDup (omap f l).
Proof.
  intros Hf. induction 1 as [|x l Hx Hl IH]; simpl; [constructor|].
  destruct (f x) as [z|] eqn:Hz; [|done]. constructor; [|done].
  rewrite list_elem_of_omap. intros (y & Hy & Hyz). by rewrite (Hf _ _ _ Hz Hyz) in Hx.
Qed.

Lemma subscriber_sockets_NoDup ch skip b :
  broker_inv b -> NoDup (subscriber_sockets ch skip b).
Proof.
  intros Hb. apply NoDup_omap_inj; [|apply NoDup_elements].
  intros x y z. repeat case_decide; try done. intros Hx Hy.
  apply (inv_registry _ Hb) in Hx, Hy. congruence.
Qed.

Section operations.
Context (model_validate_json : string -> string + NMBMessage).
Context (show_seconds : seconds -> string).

(** Request/reply round trip.  When the requester and target are
    connected, the request id is fresh, the requester is under its limit
    and sends go through, the request is delivered to the target and
    acknowledged to the requester and becomes pending; the reply is then
    delivered to the requester, after which the pending table, the timeout
    tasks and every counter are what they were before the request, and any
    further reply to the same request is refused as INVALID_FRAME. *)
Theorem request_reply_roundtrip b sok now a wa to wt req rep :
  broker_inv b -> (forall w m, sok w m = true) ->
  to_sandbox req = Some to -> to ≠ "" -> id req ≠ "" ->
  connections b !! to = Some wt -> connections b !! a = Some wa ->
  default 0 (pending_counts b !! a) < max_pending_per_sandbox (config b) ->
  pending b !! id req = None -> reply_to rep = Some (id req) ->
  let b1 := _handle_request sok now a wa req b in
  let b2 := _handle_reply sok to wt rep b1 in
  outbox b1 = outbox b ++ [(wt, _make_deliver req); (wa, new_message ACK (id req))] /\
  (exists e, pending b1 = <[id req := e]> (pending b)) /\
  default 0 (pending_counts b1 !! a) = S (default 0 (pending_counts b !! a)) /\
  outbox b2 = outbox b1 ++ [(wa, _make_deliver rep)] /\
  pending b2 = pending b /\ timers b2 = timers b /\
  (forall s, default 0 (pending_counts b2 !! s) = default 0 (pending_counts b !! s)) /\
  (forall rep' s w, reply_to rep' = Some (id req) ->
     let b3 := _handle_reply sok s w rep' b2 in
     routing_eq b3 b2 /\
     outbox b3 = outbox b2 ++ [(w, error_frame (id rep') INVALID_FRAME
                                     ("No pending request with id=" +:+ id req))]).
Proof.
  intros Hb Hok Hto Htone Hidne Hct Hca Hlim Hfresh Hrep b1 b2.
  assert (Hnt : timers b !! next_task b = None).
  { destruct (timers b !! next_task b) as [tm|] eqn:Ht; [|done].
    apply (timers_below _ _ _ (inv_timers _ Hb)) in Ht. lia. }
  assert (H1 : exists e, timeout_task e = Some (next_task b) /\
    pr_from_sandbox (tp_pending e) = a /\ connections b1 = connections b /\
    pending b1 = <[id req := e]> (pending b) /\
    pending_counts b1 = <[a := S (default 0 (pending_counts b !! a))]> (pending_counts b) /\
    (exists tm, timers b1 = <[next_task b := tm]> (timers b)) /\
    outbox b1 = outbox b ++ [(wt, _make_deliver req); (wa, new_message ACK (id req))]).
  { unfold b1, _handle_request, _handle_request_begin.
    rewrite Hto, (truthy_some _ Htone). simpl.
    apply Nat.leb_gt in Hlim. rewrite Hlim, Hct. simpl.
    unfold _handle_request_end, _send_ack, ws_send. simpl. rewrite !Hok.
    exists {| tp_pending := {| request_id := id req; pr_from_sandbox := a;
                created_at := now; pr_timeout := effective_timeout req b |};
              timeout_task := Some (next_task b) |}.
    repeat (split; [reflexivity|]). split; [by eexists|].
    simpl. by rewrite <- app_assoc. }
  destruct H1 as (e & Hte & Hea & Hc1 & Hp1 & Hpc1 & (tm & Ht1) & Ho1).
  assert (H2 : pending b2 = pending b /\ timers b2 = timers b /\
    pending_counts b2 = decrement_count a (pending_counts b1) /\
    outbox b2 = outbox b1 ++ [(wa, _make_deliver rep)]).
  { unfold b2, _handle_reply. rewrite Hrep, (truthy_some _ Hidne). simpl.
    rewrite Hp1, lookup_insert_eq, Hte, Hea. simpl. rewrite Hc1, Hca.
    unfold ws_send. rewrite Hok. simpl.
    rewrite Ht1. by rewrite !delete_insert_id. }
  destruct H2 as (Hp2 & Ht2 & Hpc2 & Ho2).
  split; [done|]. split; [by exists e|]. split; [by rewrite Hpc1, lookup_insert_eq|].
  split; [done|]. split; [done|]. split; [done|]. split.
  - intros s. rewrite Hpc2, Hpc1. unfold decrement_count.
    rewrite insert_insert_eq, lookup_insert_eq, lookup_insert. case_decide; [|done].
    subst. simpl. destruct (pending_counts b !! _); simpl; lia.
  - intros rep' s w Hrep'. unfold _handle_reply.
    rewrite Hrep', (truthy_some _ Hidne). simpl. rewrite Hp2, Hfresh.
    split; [auto with nmb|]. by apply send_error_outbox.
Qed.

(** Publishing reaches exactly the subscribers.  In every reachable
    state, the sockets a publish on [ch] addresses are, once each, those
    of the connected subscribers of [ch] other than the sender; the frame
    goes to each of them whose send succeeds, a failed one keeping it from
    none of the others, then the publisher is acknowledged, and no routing
    state changes. *)
Theorem publish_fanout c au s sok sender ws msg ch :
  reachable model_validate_json show_seconds c au s ->
  channel msg = Some ch -> ch ≠ "" ->
  let b := br s in
  let b' := _handle_publish sok sender ws msg b in
  let rs := subscriber_sockets ch (Some sender) b in
  NoDup rs /\
  (forall w, w ∈ rs <-> exists sid, sid ≠ sender /\
     sid ∈ default ∅ (channels b !! ch) /\ connections b !! sid = Some w) /\
  routing_eq b' b /\
  (sok ws (new_message ACK (id msg)) = true ->
   outbox b' = outbox b ++
     map (fun w => (w, _make_deliver msg))
         (List.filter (fun w => sok w (_make_deliver msg)) rs) ++
     [(ws, new_message ACK (id msg))]).
Proof.
  intros Hr Hch Hne b b' rs.
  pose proof (si_broker _ (reachable_sys_inv _ _ _ _ _ Hr)) as Hb.
  split; [by apply subscriber_sockets_NoDup|]. split.
  { intros w. unfold rs. rewrite subscriber_sockets_spec.
    split; intros (sid & Hs & H); exists sid; (split; [congruence|done]). }
  split; [apply handle_publish_quiet|]. intros Hack.
  unfold b', _handle_publish. rewrite Hch, (truthy_some _ Hne). cbn [negb].
  by rewrite send_ack_outbox, gather_outbox, <- app_assoc.
Qed.

Lemma drop_all_connections rids b :
  let b' := fold_left (fun b rid => drop_pending rid b) rids b in
  connections b' = connections b /\ ws_to_sandbox b' = ws_to_sandbox b /\
  channels b' = channels b /\ sandbox_channels b' = sandbox_channels b.
Proof.
  revert b. induction rids as [|r rids IH]; intros b; [done|]. cbn [fold_left].
  specialize (IH (drop_pending r b)). destruct IH as (-> & -> & -> & ->).
  unfold drop_pending. destruct (pending b !! r) as [e|]; [|done].
  by destruct (timeout_task e).
Qed.

Lemma drop_pending_gone rid e t b :
  pending b !! rid = Some e -> timeout_task e = Some t ->
  timers (drop_pending rid b) !! t = None.
Proof.
  intros He Ht. unfold drop_pending. rewrite He, Ht. simpl. apply lookup_delete_eq.
Qed.

Lemma drop_pending_stays rid b t :
  timers b !! t = None -> timers (drop_pending rid b) !! t = None.
Proof.
  intros H. unfold drop_pending. destruct (pending b !! rid) as [e|]; [|done].
  destruct (timers (cancel_timer _ _) !! t) eqn:Hc; [|done].
  apply cancel_timers_sub in Hc. simpl in Hc. congruence.
Qed.

Lemma drop_all_gone rids b rid e t :
  rid ∈ rids -> pending b !! rid = Some e -> timeout_task e = Some t ->
  timers (fold_left (fun b rid => drop_pending rid b) rids b) !! t = None.
Proof.
  assert (Hstay : forall rids b, timers b !! t = None ->
    timers (fold_left (fun b rid => drop_pending rid b) rids b) !! t = None).
  { intros rs. induction rs as [|r rs IH]; intros b0 H; [done|]. cbn [fold_left].
    apply IH. by apply drop_pending_stays. }
  intros Hin. revert b. induction rids as [|r rids IH]; intros b He Ht; [set_solver|].
  cbn [fold_left]. destruct (decide (r = rid)) as [->|Hr].
  - apply Hstay. by eapply drop_pending_gone.
  - apply IH; [set_solver| |done]. rewrite drop_pending_lookup. by case_decide.
Qed.

(** A sandbox that leaves leaves nothing behind.  Closing the registered
    connection of [sid] removes it from the connection tables and from
    every channel, forgets its counter and every request it had pending
    together with the timeout task, and keeps every other sandbox's
    connection, subscriptions and pending requests. *)
Theorem leave_cleans c au s sok i now w sid s' :
  reachable model_validate_json show_seconds c au s ->
  connections (br s) !! sid = Some w ->
  sys_step model_validate_json show_seconds (LClose sok i now w) s = Some s' ->
  let b := br s in let b' := br s' in
  connections b' = delete sid (connections b) /\
  ws_to_sandbox b' = delete w (ws_to_sandbox b) /\
  (forall ch s0, s0 ∈ default ∅ (channels b' !! ch) <->
     s0 ∈ default ∅ (channels b !! ch) /\ s0 ≠ sid) /\
  sandbox_channels b' = delete sid (sandbox_channels b) /\
  pending_counts b' = delete sid (pending_counts b) /\
  (forall rid e, pending b' !! rid = Some e <->
     pending b !! rid = Some e /\ pr_from_sandbox (tp_pending e) ≠ sid) /\
  (forall rid e t, pending b !! rid = Some e ->
     pr_from_sandbox (tp_pending e) = sid -> timeout_task e = Some t ->
     timers b' !! t = None).
Proof.
  intros Hr Hc Hl b b'. destruct (reachable_sys_inv _ _ _ _ _ Hr) as [Hb Hh _].
  simpl in Hl. rewrite (Hh _ _ Hc) in Hl.
  destruct (inflight s !! w); [done|]. simplify_eq. unfold b'. simpl.
  unfold _unregister. rewrite decide_True by done.
  match goal with |- context [set_channels ?x ?y ?z] => set (b0 := set_channels x y z) end.
  set (b1 := fold_left _ _ b0).
  match goal with |- context [_broadcast_system ?k ?f ?x] =>
    set (b2 := x); set (b3 := _broadcast_system k f b2);
    destruct (routing_eq_fields b3 b2 (broadcast_quiet k f b2))
      as (E1 & E2 & E3 & E4 & E5 & E6 & E7 & _)
  end.
  simpl. rewrite E1, E2, E3, E4, E5, E6, E7. simpl.
  destruct (drop_all_connections (expired_requests sid b0) b0) as (H1 & H2 & H3 & H4).
  destruct (drop_all_spec (expired_requests sid b0) b0) as (H5 & H6 & _).
  fold b1 in H1, H2, H3, H4, H5, H6. rewrite H1, H2, H3, H4, H5. simpl.
  split; [done|]. split; [done|]. split.
  { intros ch s0. rewrite discard_all_lookup, elem_of_elements.
    pose proof (mirror _ _ _ (inv_channels _ Hb) ch sid) as Hm.
    split; intros [Hin Hn]; (split; [done|]); [|by intros []].
    intros ->. apply Hn. split; [|done]. by apply Hm. }
  split; [done|]. split; [done|]. split.
  - intros rid e. rewrite H6. case_decide as Hd.
    + split; [done|]. intros [He Hne]. apply expired_spec in Hd as (e' & He' & <-).
      simpl in He'. unfold b in He. congruence.
    + split; [|by intros []]. intros He. split; [done|]. intros Hs.
      apply Hd, expired_spec. by exists e.
  - intros rid e t He Hs Ht. eapply drop_all_gone; [|exact He|exact Ht].
    apply expired_spec. by exists e.
Qed.
End operations.

(** ** Frames and subscriptions *)

(** The operations a client may send. *)
Definition client_op (o : Op) : Prop :=
  match o with DELIVER | ACK | ERROR | TIMEOUT => False | _ => True end.

Lemma stamp_present s now m f :
  f ≠ F_from_sandbox -> field_present (stamp_identity s now m) f = field_present m f.
Proof. by destruct f. Qed.

Lemma stamp_required s now m :
  client_op (op m) ->
  Forall (fun f => field_present m f = true) (_REQUIRED_FIELDS (op m)) ->
  Forall (fun f => field_present (stamp_identity s now m) f = true) (_REQUIRED_FIELDS (op m)).
Proof.
  intros Hop. apply Forall_impl.
  assert (Hno : F_from_sandbox ∉ _REQUIRED_FIELDS (op m))
    by (destruct (op m); simpl in *; set_solver).
  intros f Hf. destruct f; done.
Qed.

(** What makes the broker route a frame. *)
Definition routable (model_validate_json : string -> string + NMBMessage) (raw : string) : Prop :=
  exists m, model_validate_json raw = inr m /\ client_op (op m) /\
    Forall (fun f => field_present m f = true) (_REQUIRED_FIELDS (op m)) /\
    (forall p, payload m = Some p -> (payload_bytes p <= DEFAULT_NMB_MAX_PAYLOAD_BYTES)%Z).

Lemma stamp_validate s now m :
  client_op (op m) ->
  validate_frame (stamp_identity s now m) = inr tt <-> validate_frame m = inr tt.
Proof.
  intros Hop. rewrite !validate_frame_ok. simpl.
  assert (Hno : F_from_sandbox ∉ _REQUIRED_FIELDS (op m))
    by (destruct (op m); simpl in *; set_solver).
  split; intros [HF Hp]; (split; [|exact Hp]); rewrite List.Forall_forall in *;
    intros f Hf; specialize (HF f Hf);
    (rewrite stamp_present in * || rewrite <- (stamp_present s now)); try done;
    intros ->; by apply list_elem_of_In in Hf.
Qed.

Lemma receive_routable mvj now s raw m :
  receive mvj now s raw = inr m -> client_op (op m) -> routable mvj raw.
Proof.
  unfold receive, from_json. destruct (mvj raw) as [|m'] eqn:Hm; [done|].
  destruct (validate_frame _) as [|[]] eqn:Hv; [done|]. intros [= <-] Hop. simpl in Hop.
  apply stamp_validate, validate_frame_ok in Hv as []; [|done]. by exists m'.
Qed.

(** A frame that is not routable changes nothing.  When the text does not
    parse, a field its operation requires is missing, the payload is over
    ten mebibytes or the operation is one only the broker sends, [_dispatch]
    answers the sender with exactly one ERROR frame and leaves the routing
    state and the audit log as they were; every other frame passes parsing
    and validation stamped with the connection's identity. *)
Theorem invalid_frame_refused mvj sok now s ws raw b :
  (forall w m, sok w m = true) ->
  (~ routable mvj raw ->
   exists i c text,
     let b' := _dispatch mvj sok now s ws raw b in
     routing_eq b' b /\ audit_log b' = audit_log b /\
     outbox b' = outbox b ++ [(ws, error_frame i c text)]) /\
  (routable mvj raw ->
   exists m, mvj raw = inr m /\ receive mvj now s raw = inr (stamp_identity s now m)).
Proof.
  intros Hok. split.
  - intros Hn. unfold _dispatch, _dispatch_begin.
    destruct (receive mvj now s raw) as [[i exc]|m] eqn:Hr.
    + exists i, (err_code exc), (err_text exc). simpl.
      split; [auto with nmb|]. unfold _send_error, ws_send. by rewrite Hok.
    + assert (Hc : ~ client_op (op m)).
      { intros Hop. by eapply Hn, receive_routable. }
      exists (id m), INVALID_FRAME, ("Client cannot send op=" +:+ op_value (op m)).
      simpl. unfold route. destruct (op m); try (exfalso; by apply Hc);
        (split; [auto with nmb|]); unfold _send_error, ws_send; by rewrite Hok.
  - intros (m & Hm & Hop & HF & Hp). exists m. split; [done|].
    unfold receive, from_json. rewrite Hm.
    assert (validate_frame (stamp_identity s now m) = inr tt) as ->; [|done].
    apply stamp_validate; [done|]. by apply validate_frame_ok.
Qed.

(** Who is subscribed to what. *)
Definition subscribed (b : Broker) (ch s : string) : Prop := s ∈ default ∅ (channels b !! ch).

(** Subscribing is undone by unsubscribing.  A subscribe to [ch] adds
    exactly that subscription, unless the sandbox already holds the
    configured number of channels, when it is refused with CHANNEL_FULL and
    no subscription changes; an unsubscribe removes exactly that
    subscription, so that it undoes a subscribe of a new channel. *)
Theorem subscribe_unsubscribe sok s ws m m' b ch :
  broker_inv b -> (forall w m, sok w m = true) ->
  channel m = Some ch -> channel m' = Some ch -> ch ≠ "" ->
  let b1 := _handle_subscribe sok s ws m b in
  let b2 := _handle_unsubscribe sok s ws m' b1 in
  broker_inv b2 /\
  (size (default ∅ (sandbox_channels b !! s)) < max_channels_per_sandbox (config b) ->
   outbox b1 = outbox b ++ [(ws, new_message ACK (id m))] /\
   (forall c s', subscribed b1 c s' <-> subscribed b c s' \/ (c = ch /\ s' = s))) /\
  (max_channels_per_sandbox (config b) <= size (default ∅ (sandbox_channels b !! s)) ->
   outbox b1 = outbox b ++ [(ws, error_frame (id m) CHANNEL_FULL
                                    "Too many channel subscriptions")] /\
   (forall c s', subscribed b1 c s' <-> subscribed b c s')) /\
  outbox b2 = outbox b1 ++ [(ws, new_message ACK (id m'))] /\
  (forall c s', subscribed b2 c s' <-> subscribed b1 c s' /\ ~ (c = ch /\ s' = s)) /\
  (~ subscribed b ch s -> forall c s', subscribed b2 c s' <-> subscribed b c s').
Proof.
  intros Hb Hok Hm Hm' Hne b1 b2.
  assert (Hunder : size (default ∅ (sandbox_channels b !! s)) < max_channels_per_sandbox (config b) ->
    outbox b1 = outbox b ++ [(ws, new_message ACK (id m))] /\
    (forall c s', subscribed b1 c s' <-> subscribed b c s' \/ (c = ch /\ s' = s))).
  { intros Hlt. unfold b1, _handle_subscribe. rewrite Hm, (truthy_some _ Hne). cbn [negb].
    change (config (set_channels _ _ b)) with (config b).
    apply Nat.leb_gt in Hlt. rewrite Hlt. rewrite send_ack_outbox by done. split; [done|].
    intros c s'. unfold subscribed, _send_ack, ws_send. rewrite Hok. simpl.
    rewrite lookup_insert. case_decide; subst; simpl; [set_solver|].
    split; [by left|]. intros [H'|[-> _]]; done. }
  assert (Hover : max_channels_per_sandbox (config b) <= size (default ∅ (sandbox_channels b !! s)) ->
    outbox b1 = outbox b ++ [(ws, error_frame (id m) CHANNEL_FULL
                                    "Too many channel subscriptions")] /\
    (forall c s', subscribed b1 c s' <-> subscribed b c s')).
  { intros Hle. unfold b1, _handle_subscribe. rewrite Hm, (truthy_some _ Hne). cbn [negb].
    change (config (set_channels _ _ b)) with (config b).
    apply Nat.leb_le in Hle. rewrite Hle. rewrite send_error_outbox by done. split; [done|].
    intros c s'. unfold subscribed, _send_error, ws_send. by rewrite Hok. }
  assert (Hun : outbox b2 = outbox b1 ++ [(ws, new_message ACK (id m'))] /\
    (forall c s', subscribed b2 c s' <-> subscribed b1 c s' /\ ~ (c = ch /\ s' = s))).
  { unfold b2, _handle_unsubscribe. rewrite Hm', (truthy_some _ Hne). cbn [negb].
    rewrite send_ack_outbox by done. split; [done|].
    intros c s'. unfold subscribed, _send_ack, ws_send. rewrite Hok. simpl.
    apply discard_lookup. }
  split; [by apply (sound_inv _ _ (unsubscribe_sound sok s ws m' _)),
                   (sound_inv _ _ (subscribe_sound sok s ws m _))|].
  split; [done|]. split; [done|]. destruct Hun as [Ho Hs]. split; [done|].
  split; [done|]. intros Hnot c s'. rewrite Hs.
  destruct (decide (size (default ∅ (sandbox_channels b !! s)) < max_channels_per_sandbox (config b)))
    as [Hlt|Hge].
  - destruct (Hunder Hlt) as [_ ->]. split; [tauto|]. intros H. split; [by left|].
    intros [-> ->]. done.
  - destruct Hover as [_ ->]; [lia|]. split; [by intros []|]. intros H. split; [done|].
    intros [-> ->]. done.
Qed.

(** ** Witnesses: the theorems at the concrete bus *)

Definition sample_after (l : Label) : Sys :=
  default sample_state (sys_step sample_parse show_Z l sample_state).

Lemma sender_identity_witness :
  let l := LFrame every_send_ok 9%Z 3 "reply r0" in
  exists fs, outbox (br (sample_after l)) = outbox (br sample_state) ++ fs /\
    forall w m, (w, m) ∈ fs -> op m = DELIVER ->
      acting l sample_state ≠ None /\ from_sandbox m = acting l sample_state.
Proof.
  intros l. apply (sender_identity sample_parse show_Z sample_config true sample_state l).
  - exact sample_reachable.
  - vm_compute. reflexivity.
Defined.

Lemma routing_consistent_witness :
  let b := br sample_state in
  (forall sid w, connections b !! sid = Some w <-> ws_to_sandbox b !! w = Some sid) /\
  (forall ch sid, sid ∈ default ∅ (channels b !! ch) <->
                  ch ∈ default ∅ (sandbox_channels b !! sid)) /\
  (forall ch subs, channels b !! ch = Some subs -> subs ≠ ∅) /\
  (forall sid cs, sandbox_channels b !! sid = Some cs -> size cs <= 3) /\
  (forall sid n, pending_counts b !! sid = Some n -> n <= 2) /\
  (forall sid w, connections b !! sid = Some w -> handlers sample_state !! w = Some sid).
Proof. exact (routing_consistent sample_parse show_Z sample_config true sample_state sample_reachable). Defined.

Ltac sample_next :=
  split; [exact I|];
  let s' := fresh "s" in let H := fresh in
  intros s' H; vm_compute in H; injection H as <-.

Lemma sample_disciplined :
  disciplined_reach sample_parse show_Z sample_config true sample_state.
Proof.
  eapply disciplined_run; [apply disc_init| |exact sample_runs].
  do 3 sample_next. split.
  { intros sid m _ _ _. vm_compute. reflexivity. }
  intros s' _. split; [|done]. intros k _. discriminate.
Qed.

Lemma requests_bounded_witness :
  default 0 (pending_counts (br sample_state) !! "a") = outstanding "a" (br sample_state) /\
  outstanding "a" (br sample_state) <= 2.
Proof.
  exact (requests_bounded sample_parse show_Z sample_config true sample_state "a"
           sample_disciplined).
Defined.

Definition sample_entry : TrackedPending :=
  {| tp_pending := {| request_id := "r0"; pr_from_sandbox := "a"; created_at := 5%Z;
                      pr_timeout := 300000000%Z |};
     timeout_task := Some 0 |}.

Lemma pending_times_out_witness :
  exists t tm s',
    timeout_task sample_entry = Some t /\ timers (br sample_state) !! t = Some tm /\
    sys_step sample_parse show_Z (LTimer every_send_ok t) sample_state = Some s' /\
    pending (br s') = delete "r0" (pending (br sample_state)) /\
    (forall w, connections (br sample_state) !! "a" = Some w ->
       let f := timeout_frame show_Z "r0" (t_timeout tm) in
       every_send_ok w f = true -> outbox (br s') = outbox (br sample_state) ++ [(w, f)]).
Proof.
  apply (pending_times_out sample_parse show_Z sample_config true sample_state "r0"
           sample_entry every_send_ok).
  - exact sample_reachable.
  - vm_compute. reflexivity.
Defined.

Definition connected_state : Sys :=
  default (new_sys sample_config true)
    (sample_run [LConnect "a" 1; LConnect "b" 2; LConnect "c" 3]).

Lemma connected_reachable : reachable sample_parse show_Z sample_config true connected_state.
Proof.
  eapply (reachable_run _ _ _ _ [LConnect "a" 1; LConnect "b" 2; LConnect "c" 3]).
  vm_compute. reflexivity.
Qed.

Lemma connected_inv : broker_inv (br connected_state).
Proof. exact (si_broker _ (reachable_sys_inv _ _ _ _ _ connected_reachable)). Qed.

Lemma request_reply_roundtrip_witness :
  let b := br connected_state in
  let b1 := _handle_request every_send_ok 5%Z "a" 1 (sample_request "r0" "c") b in
  let b2 := _handle_reply every_send_ok "c" 3 (sample_reply "p0" "r0") b1 in
  outbox b2 = outbox b1 ++ [(1, _make_deliver (sample_reply "p0" "r0"))] /\
  pending b2 = pending b.
Proof.
  destruct (request_reply_roundtrip (br connected_state) every_send_ok 5%Z "a" 1 "c" 3
    (sample_request "r0" "c") (sample_reply "p0" "r0"))
    as (_ & _ & _ & Ho & Hp & _).
  - exact connected_inv.
  - reflexivity.
  - reflexivity.
  - discriminate.
  - discriminate.
  - vm_compute. reflexivity.
  - vm_compute. reflexivity.
  - vm_compute. lia.
  - vm_compute. reflexivity.
  - reflexivity.
  - split; [exact Ho|exact Hp].
Defined.

(** [b] and [c] subscribe to a channel. *)
Definition fanout_schedule : list Label :=
  [LConnect "a" 1; LConnect "b" 2; LConnect "c" 3;
   LFrame every_send_ok 5%Z 2 "sub"; LFrame every_send_ok 5%Z 3 "sub"].

Definition fanout_state : Sys :=
  default (new_sys sample_config true) (sample_run fanout_schedule).

Lemma fanout_reachable : reachable sample_parse show_Z sample_config true fanout_state.
Proof. eapply (reachable_run _ _ _ _ fanout_schedule). vm_compute. reflexivity. Qed.

Lemma publish_fanout_witness :
  let b := br fanout_state in
  let msg := sample_on_channel PUBLISH "e0" "news" in
  let rs := subscriber_sockets "news" (Some "b") b in
  rs = [3] /\ NoDup rs /\ routing_eq (_handle_publish every_send_ok "b" 2 msg b) b.
Proof.
  destruct (publish_fanout sample_parse show_Z sample_config true fanout_state every_send_ok
    "b" 2 (sample_on_channel PUBLISH "e0" "news") "news") as (Hn & _ & Hq & _).
  - exact fanout_reachable.
  - reflexivity.
  - discriminate.
  - split; [vm_compute; reflexivity|]. split; [exact Hn|exact Hq].
Defined.

Lemma leave_cleans_witness :
  let s' := sample_after (LClose every_send_ok "x" 9%Z 1) in
  connections (br s') = delete "a" (connections (br sample_state)) /\
  (forall rid e, pending (br s') !! rid = Some e <->
     pending (br sample_state) !! rid = Some e /\ pr_from_sandbox (tp_pending e) ≠ "a") /\
  pending (br sample_state) !! "r0" = Some sample_entry.
Proof.
  destruct (leave_cleans sample_parse show_Z sample_config true sample_state every_send_ok
    "x" 9%Z 1 "a" (sample_after (LClose every_send_ok "x" 9%Z 1)))
    as (Hc & _ & _ & _ & _ & Hp & _).
  - exact sample_reachable.
  - vm_compute. reflexivity.
  - vm_compute. reflexivity.
  - split; [exact Hc|]. split; [exact Hp|]. vm_compute. reflexivity.
Defined.

Lemma sample_not_routable : ~ routable sample_parse "junk".
Proof. intros (m & Hm & _). discriminate. Qed.

Lemma invalid_frame_refused_witness :
  exists i c text,
    let b' := _dispatch sample_parse every_send_ok 5%Z "a" 1 "junk" (br connected_state) in
    routing_eq b' (br connected_state) /\
    audit_log b' = audit_log (br connected_state) /\
    outbox b' = outbox (br connected_state) ++ [(1, error_frame i c text)].
Proof.
  apply (invalid_frame_refused sample_parse every_send_ok 5%Z "a" 1 "junk").
  - reflexivity.
  - exact sample_not_routable.
Defined.

Lemma subscribe_unsubscribe_witness :
  let m := sample_on_channel SUBSCRIBE "s0" "news" in
  let m' := sample_on_channel UNSUBSCRIBE "u0" "news" in
  let b := br connected_state in
  let b1 := _handle_subscribe every_send_ok "b" 2 m b in
  let b2 := _handle_unsubscribe every_send_ok "b" 2 m' b1 in
  (forall c s', subscribed b1 c s' <-> subscribed b c s' \/ (c = "news" /\ s' = "b")) /\
  (forall c s', subscribed b2 c s' <-> subscribed b1 c s' /\ ~ (c = "news" /\ s' = "b")).
Proof.
  destruct (subscribe_unsubscribe every_send_ok "b" 2 (sample_on_channel SUBSCRIBE "s0" "news")
    (sample_on_channel UNSUBSCRIBE "u0" "news") (br connected_state) "news")
    as (_ & Hs & _ & _ & Hu & _).
  - exact connected_inv.
  - reflexivity.
  - reflexivity.
  - reflexivity.
  - discriminate.
  - split; [apply Hs; vm_compute; lia|exact Hu].
Defined.
