(* ===== verification/BrokerRefinement.v ===== *)
(** * BrokerRefinement

    What the broker promises, without its tables: a bus of sandboxes that
    join and leave, subscriptions, and open requests.  Every step of the
    event loop is a step of this bus by the sandbox it serves, or no step. *)

From S2P Require Import Prelude Json Messages Broker BrokerInv BrokerSpec BrokerAccounts BrokerTheorems.

(** ** The bus *)

(** Who is online, who is subscribed to what, and who opened which request. *)
Record Bus := {
  online : string -> Prop;
  subscription : string -> string -> Prop;
  request_of : string -> option string
}.

(** Two buses no client can tell apart. *)
Definition bus_equiv (B B' : Bus) : Prop :=
  (forall s, online B s <-> online B' s) /\
  (forall ch s, subscription B ch s <-> subscription B' ch s) /\
  (forall r, request_of B r = request_of B' r).

#[export] Instance bus_equivalence : Equivalence bus_equiv.
Proof.
  split.
  - by intros B.
  - intros B B' (H1 & H2 & H3). split_and!; intros; by rewrite ?H1, ?H2, ?H3.
  - intros B B' B'' (H1 & H2 & H3) (K1 & K2 & K3).
    split_and!; intros; by rewrite ?H1, ?H2, ?H3, ?K1, ?K2, ?K3.
Qed.

Definition empty_bus : Bus :=
  {| online := fun _ => False; subscription := fun _ _ => False; request_of := fun _ => None |}.

Inductive BusEvent :=
| Join (s : string)
| Leave (s : string)
| Subscribe (s ch : string)
| Unsubscribe (s ch : string)
| Ask (s rid to : string)
| Answer (s rid : string)
| GiveUp (s rid : string)
| Expire (rid : string)
| Nothing.

Definition close_request (rid : string) (B : Bus) : Bus :=
  {| online := online B; subscription := subscription B;
     request_of := fun r => if decide (r = rid) then None else request_of B r |}.

Definition bus_next (e : BusEvent) (B : Bus) : Bus :=
  match e with
  | Join s =>
      {| online := fun s' => s' = s \/ online B s'; subscription := subscription B;
         request_of := request_of B |}
  | Leave s =>
      {| online := fun s' => s' <> s /\ online B s';
         subscription := fun ch s' => s' <> s /\ subscription B ch s';
         request_of := fun r => if decide (request_of B r = Some s) then None else request_of B r |}
  | Subscribe s ch =>
      {| online := online B;
         subscription := fun ch' s' => (ch' = ch /\ s' = s) \/ subscription B ch' s';
         request_of := request_of B |}
  | Unsubscribe s ch =>
      {| online := online B;
         subscription := fun ch' s' => ~ (ch' = ch /\ s' = s) /\ subscription B ch' s';
         request_of := request_of B |}
  | Ask s rid to =>
      {| online := online B; subscription := subscription B;
         request_of := fun r => if decide (r = rid) then Some s else request_of B r |}
  | Answer _ rid | GiveUp _ rid | Expire rid => close_request rid B
  | Nothing => B
  end.

(** What the sandbox [o], or nobody, may do to the bus. *)
Definition allowed (o : option string) (e : BusEvent) (B : Bus) : Prop :=
  match e with
  | Join s => o = None /\ s <> "" /\ ~ online B s
  | Leave s => o = Some s /\ online B s
  | Subscribe s ch | Unsubscribe s ch => o = Some s /\ ch <> ""
  | Ask s _ to => o = Some s /\ online B to
  | Answer s rid => o = Some s /\ is_Some (request_of B rid)
  | GiveUp s _ => o = Some s
  | Expire rid => o = None /\ is_Some (request_of B rid)
  | Nothing => True
  end.

Definition bus_step (o : option string) (B B' : Bus) : Prop :=
  exists e, allowed o e B /\ bus_equiv B' (bus_next e B).

(** ** The broker as a bus *)

Definition view (b : Broker) : Bus :=
  {| online := fun s => is_Some (connections b !! s);
     subscription := fun ch s => s ∈ default ∅ (channels b !! ch);
     request_of := fun r => pr_from_sandbox ∘ tp_pending <$> pending b !! r |}.

#[export] Instance view_proper : Proper (routing_eq ==> bus_equiv) view.
Proof.
  intros b b' H. apply routing_eq_fields in H as (Hc & _ & Hch & _ & _ & Hp & _).
  unfold view. rewrite Hc, Hch, Hp. reflexivity.
Qed.

#[export] Instance bus_step_proper : Proper (eq ==> eq ==> bus_equiv ==> iff) bus_step.
Proof.
  intros o ? <- B ? <- B1 B2 H. split; intros (e & Ha & He); exists e; (split; [done|]).
  - by rewrite <- H.
  - by rewrite H.
Qed.

Lemma nothing_step o B : bus_step o B B.
Proof. by exists Nothing. Qed.

Lemma unchanged_step o b b' : routing_eq b' b -> bus_step o (view b) (view b').
Proof. intros H. rewrite H. apply nothing_step. Qed.

(** The identity a step of the event loop serves. *)
Definition serves (l : Label) (s : Sys) : option string :=
  match l with
  | LFrame _ _ ws _ | LResume _ ws | LClose _ _ _ ws => handlers s !! ws
  | LConnect _ _ | LTimer _ _ => None
  end.

(** The three tables the view shows. *)
Definition tables (b : Broker) : gmap string WS * gmap string (gset string) * gmap string TrackedPending :=
  (connections b, channels b, pending b).

Lemma quiet_tables b b' : routing_eq b b' -> tables b = tables b'.
Proof.
  intros H. apply routing_eq_fields in H as (Hc & _ & Hch & _ & _ & Hp & _).
  unfold tables. by rewrite Hc, Hch, Hp.
Qed.

Lemma tables_view b b' : tables b = tables b' -> bus_equiv (view b) (view b').
Proof. unfold tables, view. intros [= -> -> ->]. reflexivity. Qed.

Lemma close_view rid b b' :
  tables b' = (connections b, channels b, delete rid (pending b)) ->
  bus_equiv (view b') (close_request rid (view b)).
Proof.
  intros [= Hc Hch Hp]. unfold view. rewrite Hc, Hch, Hp. split_and!; [done|done|]. intros r. cbn.
  rewrite lookup_delete. destruct (decide (rid = r)) as [->|Hr].
  - by rewrite decide_True.
  - by rewrite decide_False by congruence.
Qed.

Lemma cancel_tables t b : tables (cancel_timer t b) = tables b.
Proof. by destruct t. Qed.

(** ** The handlers *)

Section handlers.
Context (model_validate_json : string -> string + NMBMessage).
Context (show_seconds : seconds -> string).

Lemma subscribe_refines sok s ws m b :
  bus_step (Some s) (view b) (view (_handle_subscribe sok s ws m b)).
Proof.
  unfold _handle_subscribe. destruct (opt_truthy (channel m)) eqn:Ht; cbn [negb];
    [|apply unchanged_step, send_error_quiet].
  case_if.
  - rewrite send_error_quiet. apply nothing_step.
  - rewrite send_ack_quiet. exists (Subscribe s (default "" (channel m))). split; [split; [done|]|].
    { destruct (channel m) as [ch|]; [|done]. by destruct ch. }
    split_and!; [done| |done]. intros ch s'. cbn. rewrite lookup_insert.
    case_decide as Hc; [subst ch; cbn; set_solver|]. naive_solver.
Qed.

Lemma unsubscribe_refines sok s ws m b :
  bus_step (Some s) (view b) (view (_handle_unsubscribe sok s ws m b)).
Proof.
  unfold _handle_unsubscribe. destruct (opt_truthy (channel m)) eqn:Ht; cbn [negb];
    [|apply unchanged_step, send_error_quiet].
  rewrite send_ack_quiet. exists (Unsubscribe s (default "" (channel m))). split; [split; [done|]|].
  { destruct (channel m) as [ch|]; [|done]. by destruct ch. }
  split_and!; [done| |done]. intros ch s'. cbn. rewrite discard_lookup. naive_solver.
Qed.

Lemma reply_refines sok s ws m b :
  bus_step (Some s) (view b) (view (_handle_reply sok s ws m b)).
Proof.
  unfold _handle_reply. case_if; [apply unchanged_step, send_error_quiet|].
  destruct (pending b !! default "" (reply_to m)) as [tr|] eqn:Hp;
    [|apply unchanged_step, send_error_quiet].
  set (b1 := cancel_timer _ _).
  assert (H1 : tables b1 = (connections b, channels b, delete (default "" (reply_to m)) (pending b)))
    by (unfold b1; by rewrite cancel_tables).
  set (b2 := set_pending _ _ b1).
  assert (H2 : bus_equiv (view b2) (close_request (default "" (reply_to m)) (view b)))
    by (apply close_view; unfold b2; exact H1).
  exists (Answer s (default "" (reply_to m))). split; [split; [done|cbn; by rewrite Hp]|].
  cbn [bus_next]. rewrite <- H2. apply tables_view, quiet_tables.
  destruct (connections b2 !! _) as [w|]; [|apply audit_msg_quiet].
  pose proof (ws_send_quiet sok w (_make_deliver m) b2) as Hq.
  destruct (ws_send sok w (_make_deliver m) b2) as [b3 []]; cbn in Hq; rewrite <- Hq; apply audit_msg_quiet.
Qed.

Lemma request_refines sok now s ws m b :
  bus_step (Some s) (view b) (view (_handle_request_begin sok now s ws m b).1).
Proof.
  unfold _handle_request_begin. case_if; [apply unchanged_step, send_error_quiet|].
  case_if; [apply unchanged_step, send_error_quiet|].
  destruct (connections b !! default "" (to_sandbox m)) as [w|] eqn:Hc;
    [|apply unchanged_step, send_error_quiet].
  exists (Ask s (id m) (default "" (to_sandbox m))). split; [split; [done|cbn; by rewrite Hc]|].
  split_and!; [done|done|]. intros r. cbn. rewrite lookup_insert.
  destruct (decide (id m = r)) as [->|Hr]; [by rewrite decide_True|by rewrite decide_False by congruence].
Qed.

Lemma request_end_refines sok k b :
  bus_step (Some (if_sender k)) (view b) (view (_handle_request_end sok k b)).
Proof.
  unfold _handle_request_end, ws_send. destruct (sok (if_target_ws k) _).
  - rewrite send_ack_quiet. apply unchanged_step, emit_quiet.
  - rewrite send_error_quiet. exists (GiveUp (if_sender k) (id (if_msg k))). split; [done|].
    apply close_view. reflexivity.
Qed.

Lemma timeout_refines sok t b :
  bus_step None (view b) (view (_timeout_request show_seconds sok t b)).
Proof.
  unfold _timeout_request. destruct (timers b !! t) as [tm|]; [|apply nothing_step].
  destruct (pending (set_timers _ _ b) !! t_request_id tm) as [e|] eqn:Hp;
    [|by exists Nothing; split; [|by apply tables_view]].
  set (b1 := set_pending _ _ _).
  exists (Expire (t_request_id tm)). split; [split; [done|cbn in *; by rewrite Hp]|]. cbn [bus_next].
  transitivity (view b1); [|by apply close_view].
  apply tables_view, quiet_tables. unfold _audit_update_status.
  destruct (connections b1 !! t_requester_id tm) as [w|]; [|apply audit_quiet].
  rewrite audit_quiet. apply ws_send_quiet.
Qed.

Lemma route_refines sok now s ws m b :
  bus_step (Some s) (view b) (view (route sok now s ws m b).1).
Proof.
  unfold route. destruct (op m); cbn [fst];
    try (apply unchanged_step; auto with nmb; fail).
  - apply request_refines.
  - apply reply_refines.
  - apply subscribe_refines.
  - apply unsubscribe_refines.
Qed.

Lemma frame_refines sok now s ws raw b :
  bus_step (Some s) (view b) (view (_dispatch_begin model_validate_json sok now s ws raw b).1).
Proof.
  unfold _dispatch_begin. destruct (receive _ _ _ _) as [[i exc]|m];
    [apply unchanged_step, send_error_quiet|apply route_refines].
Qed.
End handlers.

(** ** Joining and leaving *)

Lemma register_refines s ws b :
  str_truthy s = true -> bus_step None (view b) (view (_register s ws b)).
Proof.
  intros Hs. unfold _register. destruct (connections b !! s) eqn:Hc.
  - exists Nothing. split; [done|]. by apply tables_view.
  - rewrite audit_quiet. exists (Join s). split; [split_and!; [done|by intros ->|cbn; rewrite Hc; by intros []]|].
    split_and!; [|done|done]. intros s'. cbn. rewrite lookup_insert. unfold is_Some.
    case_decide; naive_solver.
Qed.

(** Leaving drops the leaver's subscriptions, which both tables list, and
    its requests. *)
Lemma drop_all_channels rids b :
  channels (fold_left (fun b rid => drop_pending rid b) rids b) = channels b /\
   connections (fold_left (fun b rid => drop_pending rid b) rids b) = connections b.
Proof.
  revert b; induction rids as [|r rids IH]; intros b; [done|]. cbn [fold_left].
  destruct (IH (drop_pending r b)) as [-> ->]. unfold drop_pending.
  destruct (pending b !! r) as [e|]; [|done]. by destruct (timeout_task e).
Qed.

Lemma unregister_refines sok i now s ws b :
  broker_inv b -> bus_step (Some s) (view b) (view (_unregister sok i now s ws b)).
Proof.
  intros Hinv. unfold _unregister. case_decide as Hc.
  2: { exists Nothing. split; [done|]. by apply tables_view. }
  set (b1 := set_registry _ _ b).
  set (b2 := set_channels _ _ b1). cbn [channels sandbox_channels b1 set_registry] in b2.
  set (b3 := fold_left _ (expired_requests s b2) b2).
  set (b4 := set_pending _ _ b3).
  rewrite audit_quiet, broadcast_quiet. exists (Leave s). split; [split; [done|cbn; by rewrite Hc]|].
  destruct (drop_all_channels (expired_requests s b2) b2) as [Hch Hcn]. fold b3 in Hch, Hcn.
  split_and!.
  - intros s'. cbn. rewrite Hcn. cbn. rewrite lookup_delete. unfold is_Some.
    case_decide; naive_solver.
  - intros ch s'. cbn. rewrite Hch. cbn. rewrite discard_all_lookup, elem_of_elements.
    rewrite <- (mirror _ _ _ (inv_channels _ Hinv) ch s). naive_solver.
  - intros r. cbn. unfold b3. destruct (drop_all_spec (expired_requests s b2) b2) as (_ & -> & _).
    assert (Hp : pending b2 = pending b) by done. rewrite Hp.
    destruct (decide (r ∈ expired_requests s b2)) as [Hin|Hin]; rewrite expired_spec, Hp in Hin.
    + destruct Hin as (e & -> & Hs). rewrite decide_True; [done|]. cbn. by rewrite Hs.
    + destruct (pending b !! r) as [e|] eqn:He; [|by case_decide]. cbn. rewrite decide_False; [done|].
      intros [= Hs]. apply Hin. by exists e.
Qed.

(** ** The refinement *)

(** Runs of the bus, with who acted in each step. *)
Inductive bus_run : list (option string) -> Bus -> Bus -> Prop :=
| run_start B B' : bus_equiv B B' -> bus_run [] B B'
| run_step os o B B1 B2 : bus_run os B B1 -> bus_step o B1 B2 -> bus_run (os ++ [o]) B B2.

(** On the bus, a sandbox's subscriptions change only in steps of its own,
    and a request opens in its name only in such a step. *)
Lemma bus_isolation o B B' s :
  bus_step o B B' -> o <> Some s ->
  (forall ch, subscription B' ch s <-> subscription B ch s) /\
  (forall r, request_of B' r = Some s -> request_of B r = Some s).
Proof.
  intros (e & Ha & _ & Hs & Hr) Ho.
  assert (Hcl : forall rid, (forall r, (if decide (r = rid) then None else request_of B r) = Some s ->
                                       request_of B r = Some s))
    by (intros rid r; by case_decide).
  split; [intros ch; rewrite Hs|intros r; rewrite Hr]; destruct e; cbn in *; try done;
    try (by apply Hcl); try (case_decide; try done);
    destruct Ha as [-> _]; intuition congruence.
Qed.

Section refinement.
Context (model_validate_json : string -> string + NMBMessage).
Context (show_seconds : seconds -> string).

Abbreviation step := (sys_step model_validate_json show_seconds).
Abbreviation reach := (reachable model_validate_json show_seconds).

Lemma step_refines s l s' :
  sys_inv s -> step l s = Some s' -> bus_step (serves l s) (view (br s)) (view (br s')).
Proof.
  intros Hinv Hs. destruct l as [sid ws|sok now ws raw|sok ws|sok t|sok i now ws]; cbn in *.
  - destruct (str_truthy sid) eqn:Ht; [|done]. destruct (handlers s !! ws); [done|].
    injection Hs as <-. by apply register_refines.
  - destruct (handlers s !! ws) as [sid|]; [|done]. destruct (inflight s !! ws); [done|].
    pose proof (frame_refines model_validate_json sok now sid ws raw (br s)) as Hf.
    destruct (_dispatch_begin _ _ _ _ _ _ _) as [b k]. by injection Hs as <-.
  - destruct (inflight s !! ws) as [k|] eqn:Hk; [|done]. injection Hs as <-.
    destruct (si_inflight _ Hinv ws k Hk) as (_ & -> & _). apply request_end_refines.
  - destruct (timers (br s) !! t); [|done]. injection Hs as <-. apply timeout_refines.
  - destruct (handlers s !! ws) as [sid|]; [|done]. destruct (inflight s !! ws); [done|].
    injection Hs as <-. apply unregister_refines, Hinv.
Qed.

(** C5: the broker implements the bus.  It starts as the empty bus, and
    under every interleaving of connections, frames, deliveries, timers and
    disconnections each step of the event loop is one step of the bus by the
    sandbox whose handler runs (or by nobody): joining, leaving, subscribing,
    unsubscribing, opening a request to a sandbox that is online, answering,
    giving up or timing out an open one, or nothing.  So no sandbox changes
    the subscriptions of another or opens a request in its name. *)
Theorem broker_refines_bus c a s :
  reach c a s ->
  (exists os, bus_run os empty_bus (view (br s))) /\
  forall l s', step l s = Some s' ->
    bus_step (serves l s) (view (br s)) (view (br s')) /\
    forall sid, serves l s <> Some sid ->
      (forall ch, subscription (view (br s')) ch sid <-> subscription (view (br s)) ch sid) /\
      (forall r, request_of (view (br s')) r = Some sid -> request_of (view (br s)) r = Some sid).
Proof.
  intros Hr. split.
  - induction Hr as [|s l s' Hr [os IH] Hs].
    + exists []. constructor. split_and!; intros; cbn.
      * rewrite lookup_empty. split; [done|by intros []].
      * rewrite lookup_empty. set_solver.
      * by rewrite lookup_empty.
    + exists (os ++ [serves l s]). eapply run_step; [exact IH|]. apply step_refines; [|done].
      by eapply reachable_sys_inv.
  - intros l s' Hs.
    assert (Hb : bus_step (serves l s) (view (br s)) (view (br s')))
      by (apply step_refines; [by eapply reachable_sys_inv|done]).
    split; [done|]. intros sid Hne. by apply (bus_isolation _ _ _ _ Hb).
Qed.
End refinement.

(** The third sandbox answers the first one's request: on the bus, the
    request is answered and closed. *)
Lemma broker_refines_bus_witness :
  request_of (view (br sample_state)) "r0" = Some "a" /\
  let l := LFrame every_send_ok 9%Z 3 "reply r0" in
  bus_step (Some "c") (view (br sample_state)) (view (br (sample_after l))).
Proof.
  split; [vm_compute; reflexivity|].
  destruct (broker_refines_bus sample_parse show_Z sample_config true sample_state sample_reachable)
    as [_ H].
  set (l := LFrame every_send_ok 9%Z 3 "reply r0").
  assert (Hs : sys_step sample_parse show_Z l sample_state = Some (sample_after l))
    by (vm_compute; reflexivity).
  exact (proj1 (H l (sample_after l) Hs)).
Defined.
