(* ===== verification/Policy.v ===== *)
(** * Policy

    The policy-enforcing broker of [nmb/testing/policy.py]: per-sandbox
    policies, the gate [_enforce_policy] in front of the handlers, and the
    re-keying of policies from display names to unique identities. *)

From S2P Require Import Prelude Json Messages Broker BrokerInv.

(** [SandboxPolicy]; [None] means unrestricted. *)
Record SandboxPolicy := {
  sp_sandbox_id : string;
  can_connect : bool;
  allowed_egress_targets : option (gset string);
  allowed_ingress_sources : option (gset string);
  allowed_channels : option (gset string);
  allowed_ops : option (gset Op)
}.

(** [_channel_matches] *)
Definition pattern_matches (channel pattern : string) : bool :=
  String.eqb pattern "*" || String.eqb pattern channel
  || (endswith ".*" pattern && startswith (py_prefix (-1) pattern) channel).

Definition _channel_matches (channel : string) (patterns : gset string) : bool :=
  existsb (pattern_matches channel) (elements patterns).

(** The policy tables of [PolicyBroker]; [_renames] keeps its insertion
    order, which is the order the renames are replayed in. *)
Record PolicyTable := {
  _policies : gmap string SandboxPolicy;
  _renames : list (string * string)
}.

(** [__init__]: later declarations of a name win. *)
Definition new_policies (ps : list SandboxPolicy) : PolicyTable :=
  {| _policies := fold_left (fun m p => <[sp_sandbox_id p := p]> m) ps ∅;
     _renames := [] |}.

Definition add_policy (p : SandboxPolicy) (t : PolicyTable) : PolicyTable :=
  {| _policies := <[sp_sandbox_id p := p]> (_policies t); _renames := _renames t |}.

(** One allow-list of [_apply_rename]. *)
Definition rename_in (old new : string) (s : option (gset string)) : option (gset string) :=
  match s with
  | Some s => Some (if decide (old ∈ s) then {[new]} ∪ s ∖ {[old]} else s)
  | None => None
  end.

Definition _apply_rename (p : SandboxPolicy) (old new : string) : SandboxPolicy :=
  {| sp_sandbox_id := sp_sandbox_id p; can_connect := can_connect p;
     allowed_egress_targets := rename_in old new (allowed_egress_targets p);
     allowed_ingress_sources := rename_in old new (allowed_ingress_sources p);
     allowed_channels := allowed_channels p; allowed_ops := allowed_ops p |}.

(** [d[k] = v] on an insertion-ordered dictionary. *)
Fixpoint dict_set (k v : string) (d : list (string * string)) : list (string * string) :=
  match d with
  | [] => [(k, v)]
  | (k', v') :: d' => if String.eqb k k' then (k, v) :: d' else (k', v') :: dict_set k v d'
  end.

Definition with_id (new : string) (p : SandboxPolicy) : SandboxPolicy :=
  {| sp_sandbox_id := new; can_connect := can_connect p;
     allowed_egress_targets := allowed_egress_targets p;
     allowed_ingress_sources := allowed_ingress_sources p;
     allowed_channels := allowed_channels p; allowed_ops := allowed_ops p |}.

(** The replay of the earlier renames on the re-keyed policy. *)
Definition replay_renames (skip : string) (rs : list (string * string)) (p : SandboxPolicy)
  : SandboxPolicy :=
  fold_left (fun p r => if String.eqb r.1 skip then p else _apply_rename p r.1 r.2) rs p.

Definition rekey_policy (old new : string) (t : PolicyTable) : PolicyTable :=
  match _policies t !! old with
  | None => t
  | Some policy =>
      let renames := dict_set old new (_renames t) in
      let others := (fun p => _apply_rename p old new) <$> delete new (delete old (_policies t)) in
      {| _policies := <[new := replay_renames old renames (with_id new policy)]> others;
         _renames := renames |}
  end.

(** [_process_request]: the identity, or the status that refuses it. *)
Definition policy_process_request (t : PolicyTable) (header : option string) : nat + string :=
  if opt_truthy header then
    let s := default "" header in
    match _policies t !! s with
    | Some p => if can_connect p then inr s else inl 403
    | None => inr s
    end
  else inl 400.

Definition permits `{Countable A} (s : option (gset A)) (x : A) : bool :=
  match s with Some s => bool_decide (x ∈ s) | None => true end.

(** [_enforce_policy]: [None] lets the message through, [Some text] is the
    text of the POLICY_DENIED frame. *)
Definition enforce_policy (t : PolicyTable) (sender_id : string) (msg : NMBMessage)
  : option string :=
  let policy := _policies t !! sender_id in
  let restrict {A} `{Countable A} (f : SandboxPolicy -> option (gset A)) x :=
    match policy with Some p => permits (f p) x | None => true end in
  if negb (restrict allowed_ops (op msg)) then
    Some ("Op '" +:+ op_value (op msg) +:+ "' not allowed for sandbox '"
          +:+ sender_id +:+ "'")
  else
    let targeted := match op msg with SEND | REQUEST | STREAM => true | _ => false end in
    let target_id := default "" (to_sandbox msg) in
    let on_target := targeted && opt_truthy (to_sandbox msg) in
    if on_target && negb (restrict allowed_egress_targets target_id) then
      Some ("Egress to '" +:+ target_id +:+ "' denied for sandbox '"
            +:+ sender_id +:+ "'")
    else if on_target && negb (match _policies t !! target_id with
                               | Some p => permits (allowed_ingress_sources p) sender_id
                               | None => true end) then
      Some ("Ingress from '" +:+ sender_id +:+ "' denied for sandbox '"
            +:+ target_id +:+ "'")
    else
      let ch := default "" (channel msg) in
      let on_channel := match op msg with SUBSCRIBE | PUBLISH => true | _ => false end
                        && opt_truthy (channel msg) in
      if on_channel && negb (match policy with
                             | Some p => match allowed_channels p with
                                         | Some ps => _channel_matches ch ps
                                         | None => true end
                             | None => true end) then
        Some ("Channel '" +:+ ch +:+ "' not allowed for sandbox '"
              +:+ sender_id +:+ "'")
      else None.

(** [PolicyBroker._dispatch], up to the delivery of a request. *)
Definition policy_dispatch_begin (model_validate_json : string -> string + NMBMessage)
  (t : PolicyTable) (sok : Oracle) (now : seconds) (sender_id : string) (ws : WS)
  (raw : string) (b : Broker) : Broker * option Inflight :=
  match receive model_validate_json now sender_id raw with
  | inl (i, exc) =>
      (_send_error sok ws i (err_code exc) (err_text exc) None b, None)
  | inr msg =>
      match enforce_policy t sender_id msg with
      | Some text => (_send_error sok ws (id msg) POLICY_DENIED text None b, None)
      | None => route sok now sender_id ws msg b
      end
  end.

(** ** Patterns *)

Lemma channel_matches_spec ch ps :
  _channel_matches ch ps = true <-> exists p, p ∈ ps /\ pattern_matches ch p = true.
Proof.
  unfold _channel_matches. rewrite existsb_exists. split; intros (p & Hin & Hp);
    exists p; (split; [|done]).
  - apply list_elem_of_In in Hin. by apply elem_of_elements in Hin.
  - apply list_elem_of_In. by apply elem_of_elements.
Qed.

Example wildcard_suffix :
  (pattern_matches "progress.coding-1" "progress.*",
   pattern_matches "progressx" "progress.*",
   pattern_matches "progress" "progress.*",
   pattern_matches "anything" "*") = (true, false, false, true).
Proof. vm_compute. reflexivity. Qed.

(** ** What the gate permits *)

(** The sender may use the operation, the target and the channel. *)
Definition policy_permits (t : PolicyTable) (sender : string) (m : NMBMessage) : Prop :=
  (forall p os, _policies t !! sender = Some p -> allowed_ops p = Some os -> op m ∈ os) /\
  (op m ∈ [SEND; REQUEST; STREAM] -> forall to, to_sandbox m = Some to -> to ≠ "" ->
     (forall p ts, _policies t !! sender = Some p -> allowed_egress_targets p = Some ts ->
        to ∈ ts) /\
     (forall p ss, _policies t !! to = Some p -> allowed_ingress_sources p = Some ss ->
        sender ∈ ss)) /\
  (op m ∈ [SUBSCRIBE; PUBLISH] -> forall ch, channel m = Some ch -> ch ≠ "" ->
     forall p cs, _policies t !! sender = Some p -> allowed_channels p = Some cs ->
       exists pat, pat ∈ cs /\ pattern_matches ch pat = true).

Lemma permits_spec `{Countable A} (s : option (gset A)) x :
  permits s x = true <-> forall s', s = Some s' -> x ∈ s'.
Proof.
  destruct s as [s|]; simpl; [|by split].
  rewrite bool_decide_eq_true. split; [by intros ?? [= <-]|auto].
Qed.

Lemma restrict_spec `{Countable A} (o : option SandboxPolicy)
  (f : SandboxPolicy -> option (gset A)) x :
  match o with Some p => permits (f p) x | None => true end = true <->
  forall p s, o = Some p -> f p = Some s -> x ∈ s.
Proof.
  destruct o as [p|]; [|by split]. rewrite permits_spec.
  split; [by intros ??? [= <-]; auto|]. intros Hp s Hs. by eapply Hp.
Qed.

Lemma truthy_iff (o : option string) :
  opt_truthy o = true <-> exists s, o = Some s /\ s ≠ "".
Proof.
  destruct o as [s|]; simpl; [|split; [done|by intros (? & ? & ?)]].
  unfold str_truthy. destruct (String.eqb_spec s ""); simpl.
  - split; [done|]. intros (? & [= <-] & ?). done.
  - split; [|done]. intros _. by exists s.
Qed.

Lemma guard_false (c d : bool) : c && negb d = false <-> (c = true -> d = true).
Proof. destruct c, d; simpl; naive_solver. Qed.

Lemma guard_spec {A} (c d : bool) (x : A) (k : option A) :
  (if c && negb d then Some x else k) = None <-> (c = true -> d = true) /\ k = None.
Proof. rewrite <- guard_false. destruct (c && negb d); naive_solver. Qed.

Lemma targeted_spec o :
  match o with SEND | REQUEST | STREAM => true | _ => false end = true <->
  o ∈ [SEND; REQUEST; STREAM].
Proof. destruct o; split; intros H; try done; set_solver. Qed.

Lemma on_channel_spec o :
  match o with SUBSCRIBE | PUBLISH => true | _ => false end = true <->
  o ∈ [SUBSCRIBE; PUBLISH].
Proof. destruct o; split; intros H; try done; set_solver. Qed.

Lemma enforce_policy_spec t sender m :
  enforce_policy t sender m = None <-> policy_permits t sender m.
Proof.
  unfold enforce_policy, policy_permits.
  set (po := _policies t !! sender).
  rewrite <- (restrict_spec po allowed_ops (op m)).
  destruct (match po with Some p => permits (allowed_ops p) (op m) | None => true end);
    simpl; [|split; [done|by intros []]].
  rewrite !guard_spec, !andb_true_iff, targeted_spec, on_channel_spec, !truthy_iff.
  split.
  - intros (He & Hi & Hc & _). split; [done|]. split.
    + intros Ht to Hto Hne. split.
      * apply restrict_spec. rewrite Hto in He. apply He. split; [done|]. by exists to.
      * apply restrict_spec. rewrite Hto in Hi. apply Hi. split; [done|]. by exists to.
    + intros Ht ch Hch Hne p cs Hp Hcs. apply channel_matches_spec.
      rewrite Hp, Hcs, Hch in Hc. apply Hc. split; [done|]. by exists ch.
  - intros (_ & Ht & Hc). split; [|split; [|split; [|done]]].
    + intros [Hop (to & Hto & Hne)]. apply restrict_spec.
      rewrite Hto. by apply Ht.
    + intros [Hop (to & Hto & Hne)]. apply restrict_spec.
      rewrite Hto. simpl. by apply (Ht Hop to).
    + intros [Hop (ch & Hch & Hne)]. destruct po as [p|]; [|done].
      destruct (allowed_channels p) as [cs|] eqn:Hcs; [|done].
      rewrite Hch. apply channel_matches_spec. by apply (Hc Hop ch Hch Hne p cs).
Qed.

(** ** Re-keying *)

Definition egress (p : SandboxPolicy) : gset string := default ∅ (allowed_egress_targets p).
Definition ingress (p : SandboxPolicy) : gset string := default ∅ (allowed_ingress_sources p).

(** A name that appears in neither allow-list. *)
Definition unmentioned (x : string) (p : SandboxPolicy) : Prop := (x ∉ egress p) /\ (x ∉ ingress p).

(** The harness's calls. *)
Inductive PolicyCall := Add (p : SandboxPolicy) | Rekey (old new : string).

Definition policy_call (t : PolicyTable) (c : PolicyCall) : PolicyTable :=
  match c with Add p => add_policy p t | Rekey old new => rekey_policy old new t end.

Definition call_names (c : PolicyCall) : list string :=
  match c with Add p => [sp_sandbox_id p] | Rekey old _ => [old] end.

Definition call_uniques (c : PolicyCall) : list string :=
  match c with Add _ => [] | Rekey _ new => [new] end.

Definition resolved (t : PolicyTable) : Prop :=
  forall k p, _policies t !! k = Some p -> k ∈ (_renames t).*2 ->
    forall old new, (old, new) ∈ _renames t -> new ≠ k -> unmentioned old p.

Lemma rename_in_spec old new s x :
  x ∈ default ∅ (rename_in old new s) <->
  (x ∈ default ∅ s /\ (x ≠ old \/ old = new)) \/ (x = new /\ old ∈ default ∅ s).
Proof.
  destruct s as [s|]; simpl; [|set_solver]. case_decide.
  - destruct (decide (x = new)) as [->|]; [destruct (decide (old = new)) as [->|]|];
      set_solver.
  - split; [|set_solver]. intros Hx. left. split; [done|].
    destruct (decide (x = old)) as [->|]; [done|by left].
Qed.

Lemma apply_rename_unmentioned x p old new :
  x ≠ new -> unmentioned x p -> unmentioned x (_apply_rename p old new).
Proof.
  intros Hx [He Hi]. unfold unmentioned, egress, ingress. simpl.
  rewrite !rename_in_spec. split; intros [[H _]|[H _]]; done.
Qed.

Lemma apply_rename_gone p old new :
  old ≠ new -> unmentioned old (_apply_rename p old new).
Proof.
  intros Hx. unfold unmentioned, egress, ingress. simpl. rewrite !rename_in_spec.
  split; intros [[_ [H|H]]|[H _]]; done.
Qed.

Lemma replay_unmentioned skip rs x p :
  x ∉ rs.*2 -> unmentioned x p -> unmentioned x (replay_renames skip rs p).
Proof.
  unfold replay_renames. revert p. induction rs as [|[o n] rs IH]; intros p Hx Hp; [done|].
  simpl in *. apply IH; [set_solver|]. case_if; [done|].
  apply apply_rename_unmentioned; [set_solver|done].
Qed.

Lemma replay_gone skip rs x p :
  x ∈ rs.*1 -> x ≠ skip -> x ∉ rs.*2 -> unmentioned x (replay_renames skip rs p).
Proof.
  unfold replay_renames. revert p. induction rs as [|[o n] rs IH]; intros p Hin Hs Hx; [set_solver|].
  simpl in *. destruct (decide (x = o)) as [->|Hne]; [|apply IH; set_solver].
  assert (String.eqb o skip = false) as -> by by apply String.eqb_neq.
  apply (replay_unmentioned skip rs); [set_solver|]. apply apply_rename_gone. set_solver.
Qed.

Lemma dict_set_elem k v d x y :
  NoDup d.*1 -> (x, y) ∈ dict_set k v d <-> (x = k /\ y = v) \/ (x ≠ k /\ (x, y) ∈ d).
Proof.
  induction d as [|[k' v'] d IH]; simpl; [set_solver|]. intros Hnd.
  apply list.NoDup_cons in Hnd as [Hk Hnd].
  destruct (String.eqb_spec k k') as [->|Hne].
  - assert (Hd : (k', y) ∉ d).
    { intros H. apply Hk, list_elem_of_fmap. by exists (k', y). }
    destruct (decide (x = k')) as [->|]; set_solver.
  - rewrite elem_of_cons, IH by done. destruct (decide (x = k)) as [->|]; set_solver.
Qed.

Lemma dict_set_NoDup k v d : NoDup d.*1 -> NoDup (dict_set k v d).*1.
Proof.
  induction d as [|[k' v'] d IH]; simpl; [intros _; by apply NoDup_singleton|].
  intros Hnd. apply list.NoDup_cons in Hnd as [Hk Hnd].
  destruct (String.eqb_spec k k') as [->|Hne]; simpl; [by apply list.NoDup_cons|].
  apply list.NoDup_cons. split; [|by apply IH]. intros H. apply Hk.
  apply list_elem_of_fmap in H as ([x y] & Hx & Hin). simpl in Hx. subst x.
  apply dict_set_elem in Hin as [[Heq _]|[_ Hin]]; [congruence| |done].
  apply list_elem_of_fmap. by exists (k', y).
Qed.

(** What the invariant needs of the tables, for a given set of unique
    identities. *)
Record rekey_inv (olds news : gset string) (t : PolicyTable) : Prop := {
  ri_nodup : NoDup (_renames t).*1;
  ri_olds : forall o n, (o, n) ∈ _renames t -> o ∈ olds /\ n ∈ news;
  ri_resolved : resolved t
}.

Lemma rekey_policy_inv olds news t old new :
  olds ## news -> old ∈ olds -> new ∈ news ->
  rekey_inv olds news t -> rekey_inv olds news (rekey_policy old new t).
Proof.
  intros Hdis Hold Hnew [Hnd Hon Hres]. unfold rekey_policy.
  destruct (_policies t !! old) as [p|] eqn:Hp; [|by split].
  assert (Hon' : forall o n, (o, n) ∈ dict_set old new (_renames t) -> o ∈ olds /\ n ∈ news).
  { intros o n. rewrite dict_set_elem by done. intros [[-> ->]|[_ H]]; [done|by apply Hon]. }
  assert (Hfar : forall o n, (o, n) ∈ dict_set old new (_renames t) ->
    o ∉ (dict_set old new (_renames t)).*2).
  { intros o n H Hin. apply list_elem_of_fmap in Hin as ([o' n'] & -> & Hin).
    apply Hon' in H as [Ho _]. apply Hon' in Hin as [_ Hn]. simpl in *. set_solver. }
  split; simpl; [by apply dict_set_NoDup|done|].
  intros k q Hk Hkr o n Hin Hne. simpl in *. rewrite lookup_insert in Hk.
  pose proof (Hon' _ _ Hin) as [Ho Hn].
  case_decide as Hkn; simplify_eq.
  - apply replay_gone.
    + apply list_elem_of_fmap. by exists (o, n).
    + intros ->. apply dict_set_elem in Hin as [[_ ->]|[? _]]; done.
    + by eapply Hfar.
  - rewrite lookup_fmap, !lookup_delete in Hk.
    repeat case_decide; simplify_eq; try done. apply fmap_Some in Hk as (q0 & Hq & ->).
    apply dict_set_elem in Hin as [[-> ->]|[Hoo Hin]]; [| |done].
    { apply apply_rename_gone. set_solver. }
    apply apply_rename_unmentioned; [set_solver|].
    apply (Hres k q0 Hq) with n; [|done|done].
    apply list_elem_of_fmap in Hkr as ([o' n'] & -> & Hin'). simpl in *.
    apply dict_set_elem in Hin' as [[_ ->]|[_ Hin']]; [done| |done].
    apply list_elem_of_fmap. by exists (o', n').
Qed.

Lemma add_policy_inv olds news t p :
  olds ## news -> sp_sandbox_id p ∈ olds ->
  rekey_inv olds news t -> rekey_inv olds news (add_policy p t).
Proof.
  intros Hdis Hp [Hnd Hon Hres]. split; [done|done|].
  intros k q Hk Hkr. simpl in *. rewrite lookup_insert in Hk.
  case_decide as Hkp; [|by apply Hres]. exfalso. subst k.
  apply list_elem_of_fmap in Hkr as ([o n] & Hn & Hin). apply Hon in Hin as [_ H].
  simpl in *. set_solver.
Qed.

Lemma policy_calls_inv olds news cs t :
  olds ## news ->
  (forall c x, c ∈ cs -> x ∈ call_names c -> x ∈ olds) ->
  (forall c x, c ∈ cs -> x ∈ call_uniques c -> x ∈ news) ->
  rekey_inv olds news t -> rekey_inv olds news (fold_left policy_call cs t).
Proof.
  intros Hdis. revert t. induction cs as [|c cs IH]; intros t Ho Hn Ht; [done|].
  simpl. apply IH; [set_solver|set_solver|].
  destruct c as [p|old new]; simpl.
  - apply add_policy_inv; [done| |done]. apply (Ho (Add p)); simpl; set_solver.
  - apply rekey_policy_inv; [done| | |done].
    + apply (Ho (Rekey old new)); simpl; set_solver.
    + apply (Hn (Rekey old new)); simpl; set_solver.
Qed.

(** ** Properties *)

(** C10: the policy gate is the only difference from the plain broker.  A
    frame that does not parse or validate, and a message whose operation,
    target (the sender's egress rule and the target's ingress rule) and
    channel are all permitted, are handled exactly as [NMBBroker] does;
    every other message is answered with one POLICY_DENIED frame, reaches no
    handler and changes no routing state.  With no policies registered the
    two brokers are equal. *)
Theorem policy_gate mvj t sok now s ws raw b :
  (forall w m, sok w m = true) ->
  let r := policy_dispatch_begin mvj t sok now s ws raw b in
  (forall e, receive mvj now s raw = inl e -> r = _dispatch_begin mvj sok now s ws raw b) /\
  (forall m, receive mvj now s raw = inr m ->
     (policy_permits t s m -> r = _dispatch_begin mvj sok now s ws raw b) /\
     (~ policy_permits t s m ->
        routing_eq r.1 b /\ r.2 = None /\ audit_log r.1 = audit_log b /\
        exists text, outbox r.1 = outbox b ++ [(ws, error_frame (id m) POLICY_DENIED text)])) /\
  (_policies t = ∅ -> r = _dispatch_begin mvj sok now s ws raw b).
Proof.
  intros Hok r. unfold r, policy_dispatch_begin, _dispatch_begin. split; [|split].
  - intros e ->. by destruct e.
  - intros m ->. split.
    + intros Hp. apply enforce_policy_spec in Hp. by rewrite Hp.
    + intros Hp. destruct (enforce_policy t s m) as [text|] eqn:He;
        [|by apply enforce_policy_spec in He]. simpl.
      split; [auto with nmb|]. split; [done|].
      unfold _send_error, ws_send. rewrite Hok. split; [done|]. by exists text.
  - intros Ht. destruct (receive mvj now s raw) as [[i e]|m]; [done|].
    assert (enforce_policy t s m = None) as ->; [|done].
    apply enforce_policy_spec. unfold policy_permits. rewrite Ht.
    split; [by intros p os H|]. split.
    + intros _ to _ _. split; intros p xs H; by rewrite lookup_empty in H.
    + intros _ ch _ _ p cs H. by rewrite lookup_empty in H.
Qed.

(** Re-keying leaves no stale name.  After any sequence of policy
    additions and re-keyings in which no unique identity is also used as a
    display name, the allow-lists of every re-keyed policy mention no display
    name that has been re-keyed, except possibly the policy's own former
    name: whatever the order of the calls, the identities they hold are the
    ones the broker sees. *)
Theorem rekeyed_policies_resolved ps cs :
  let names := list_to_set (map sp_sandbox_id ps ++ (cs ≫= call_names)) : gset string in
  let uniques := list_to_set (cs ≫= call_uniques) : gset string in
  names ## uniques ->
  let t := fold_left policy_call cs (new_policies ps) in
  forall k p, _policies t !! k = Some p -> k ∈ (_renames t).*2 ->
    forall old new, (old, new) ∈ _renames t -> new ≠ k ->
      (old ∉ egress p) /\ (old ∉ ingress p).
Proof.
  intros names uniques Hdis t.
  enough (Hinv : rekey_inv names uniques t)
    by (intros k p; apply (ri_resolved _ _ _ Hinv)).
  apply policy_calls_inv; [done| | |].
  - intros c x Hc Hx. apply elem_of_list_to_set, elem_of_app. right.
    apply list_elem_of_bind. by exists c.
  - intros c x Hc Hx. apply elem_of_list_to_set, list_elem_of_bind. by exists c.
  - split; simpl; [constructor|set_solver|]. intros k p _ Hk. set_solver.
Qed.

(** A worker that may only talk to its orchestrator, declared before either
    has its unique identity. *)
Definition worker_policy : SandboxPolicy :=
  {| sp_sandbox_id := "worker"; can_connect := true;
     allowed_egress_targets := Some {["orchestrator"]};
     allowed_ingress_sources := Some {["orchestrator"]};
     allowed_channels := Some {["progress.*"]}; allowed_ops := None |}.

Definition open_policy (s : string) : SandboxPolicy :=
  {| sp_sandbox_id := s; can_connect := true; allowed_egress_targets := None;
     allowed_ingress_sources := None; allowed_channels := None; allowed_ops := None |}.

Definition harness_calls : list PolicyCall :=
  [Rekey "orchestrator" "orchestrator-1f"; Add worker_policy; Rekey "worker" "worker-9c"].

Lemma rekeyed_policies_resolved_witness :
  let t := fold_left policy_call harness_calls (new_policies [open_policy "orchestrator"]) in
  exists p, _policies t !! "worker-9c" = Some p /\
    allowed_egress_targets p = Some {["orchestrator-1f"]} /\
    (("orchestrator" ∉ egress p) /\ ("orchestrator" ∉ ingress p)).
Proof.
  eexists. split; [vm_compute; reflexivity|]. split; [vm_compute; reflexivity|].
  apply (rekeyed_policies_resolved [open_policy "orchestrator"] harness_calls)
    with (k := "worker-9c") (new := "orchestrator-1f").
  - apply (bool_decide_unpack _). vm_compute. exact I.
  - vm_compute. reflexivity.
  - apply (bool_decide_unpack _). vm_compute. exact I.
  - apply (bool_decide_unpack _). vm_compute. exact I.
  - discriminate.
Defined.

Definition denied_request : NMBMessage :=
  {| op := REQUEST; id := "r9"; from_sandbox := None; to_sandbox := Some "reviewer";
     type := Some "task"; reply_to := None; channel := None; stream_id := None;
     seq := None; done_ := None; timeout := None; timestamp := None;
     payload := Some []; code := None; message := None |}.

Lemma policy_gate_witness :
  let t := new_policies [worker_policy] in
  let b := new_broker {| max_pending_per_sandbox := 2; default_request_timeout := 1%Z;
                         max_channels_per_sandbox := 1 |} true in
  let r := policy_dispatch_begin (fun _ => inr denied_request) t (fun _ _ => true) 1%Z
             "worker" 7 "x" b in
  routing_eq r.1 b /\ r.2 = None /\ audit_log r.1 = audit_log b /\
  exists text, outbox r.1 = outbox b ++ [(7, error_frame "r9" POLICY_DENIED text)].
Proof.
  intros t b r.
  destruct (policy_gate (fun _ => inr denied_request) t (fun _ _ => true) 1%Z "worker" 7 "x" b)
    as (_ & H & _); [reflexivity|].
  apply (H (stamp_identity "worker" 1%Z denied_request)).
  - vm_compute. reflexivity.
  - intros Hp. apply enforce_policy_spec in Hp. vm_compute in Hp. discriminate.
Defined.
