(* ===== verification/Harness.v ===== *)
(** * Harness

    The integration harness of the bus ([nmb/testing/harness.py]): it starts
    the broker of [Policy], gives every sandbox its unique identity, re-keys
    the policies to it and resolves display names for the tests.

    A [MessageBus] takes its unique identity when it is made; the identity is
    an argument, as is what opening a connection raises.

    Theorems: what a test that addresses sandboxes by display name is allowed
    to do: exactly what the policies it declared say, until a sandbox is
    replaced. *)

From S2P Require Import Prelude Json Messages Broker Policy.

(** ** State *)

(** [SandboxHandle]: the policy object is the entry of the broker's table for
    [hd_unique], which re-keying changes in place. *)
Record SandboxHandle := {
  hd_display_name : string;
  hd_unique : string;
  hd_received : list NMBMessage;
  hd_collecting : bool;
  hd_connected : bool
}.

(** [hs_broker]: the policy tables of the broker, once there is one. *)
Record Harness := {
  hs_broker : option PolicyTable;
  hs_sandboxes : gmap string SandboxHandle;
  hs_unique : gmap string string
}.

Definition new_harness : Harness := {| hs_broker := None; hs_sandboxes := ∅; hs_unique := ∅ |}.

Definition _resolve (h : Harness) (name : string) : string := default name (hs_unique h !! name).

(** ** Handles *)

(** Calls of a handle, and of the bus underneath. *)
Inductive BusCall :=
| Send (to type : string) (payload : json)
| Request (to type : string) (payload : json) (timeout : seconds)
| Reply (original type : string) (payload : json)
| Publish (channel type : string) (payload : json)
| Subscribe (channel : string)
| Stream (to type : string) (chunks : list json).

Definition handle_call (h : Harness) (c : BusCall) : BusCall :=
  match c with
  | Send to type payload => Send (_resolve h to) type payload
  | Request to type payload t => Request (_resolve h to) type payload t
  | Stream to type chunks => Stream (_resolve h to) type chunks
  | c => c
  end.

Definition collecting (b : bool) (s : SandboxHandle) : SandboxHandle :=
  {| hd_display_name := hd_display_name s; hd_unique := hd_unique s; hd_received := hd_received s;
     hd_collecting := b; hd_connected := hd_connected s |}.

Definition start_collecting (s : SandboxHandle) : SandboxHandle := collecting true s.
Definition stop_collecting (s : SandboxHandle) : SandboxHandle := collecting false s.

(** [_collect_loop] is given a message by [bus.listen()]. *)
Definition collect (m : NMBMessage) (s : SandboxHandle) : option SandboxHandle :=
  if hd_collecting s then
    Some {| hd_display_name := hd_display_name s; hd_unique := hd_unique s;
            hd_received := hd_received s ++ [m]; hd_collecting := true; hd_connected := hd_connected s |}
  else None.

(** [close()] *)
Definition close_handle (s : SandboxHandle) : SandboxHandle :=
  let s := stop_collecting s in
  {| hd_display_name := hd_display_name s; hd_unique := hd_unique s; hd_received := hd_received s;
     hd_collecting := hd_collecting s; hd_connected := false |}.

Definition has_type (t : string) (m : NMBMessage) : bool := bool_decide (Messages.type m = Some t).

Definition messages_of_type (t : string) (s : SandboxHandle) : list NMBMessage :=
  List.filter (has_type t) (hd_received s).

Definition opt_json (o : option string) : json := match o with Some s => JStr s | None => JNull end.

Section wait.
(** [timeout] as it is printed. *)
Context (timeout_text : string).

Definition timeout_error (msg_type : option string) (received : list NMBMessage) : string :=
  "No message (type=" +:+ json_repr (opt_json msg_type) +:+ ") within " +:+ timeout_text +:+ "s; received " +:+
  show_Z (Z.of_nat (length received)) +:+ " messages: " +:+
  json_repr (JArr (map (fun m => opt_json (Messages.type m)) received)).

(** [wait_for_message]: [received] is the list when it starts, [polls] what
    every later turn before the deadline finds. *)
Fixpoint wait_for_message (msg_type : option string) (received : list NMBMessage)
  (polls : list (list NMBMessage)) : string + NMBMessage :=
  match List.find (fun m => match msg_type with Some t => has_type t m | None => true end) received with
  | Some m => inr m
  | None =>
      match polls with
      | [] => inl (timeout_error msg_type received)
      | received :: polls => wait_for_message msg_type received polls
      end
  end.
End wait.

(** ** The harness *)

Definition set_broker (t : PolicyTable) (h : Harness) : Harness :=
  {| hs_broker := Some t; hs_sandboxes := hs_sandboxes h; hs_unique := hs_unique h |}.

(** The bus of [policy] is made with identity [unique], and the policy
    re-keyed to it. *)
Definition register (policy : SandboxPolicy) (unique : string) (h : Harness) : Harness :=
  let display_name := sp_sandbox_id policy in
  {| hs_broker := rekey_policy display_name unique <$> hs_broker h;
     hs_sandboxes := hs_sandboxes h;
     hs_unique := <[display_name := unique]> (hs_unique h) |}.

(** [bus.connect()]: the broker may refuse, or opening the socket raise. *)
Definition connect (opened : option string) (unique : string) (h : Harness) : string + unit :=
  match opened, hs_broker h with
  | Some exc, _ => inl exc
  | None, Some t =>
      match policy_process_request t (Some unique) with
      | inl status => inl ("HTTP " +:+ show_Z (Z.of_nat status))
      | inr _ => inr tt
      end
  | None, None => inr tt
  end.

Definition new_handle (policy : SandboxPolicy) (unique : string) : SandboxHandle :=
  {| hd_display_name := sp_sandbox_id policy; hd_unique := unique; hd_received := [];
     hd_collecting := false; hd_connected := false |}.

Definition connected_handle (policy : SandboxPolicy) (unique : string) : SandboxHandle :=
  {| hd_display_name := sp_sandbox_id policy; hd_unique := unique; hd_received := [];
     hd_collecting := true; hd_connected := true |}.

(** One policy with the identity of its bus and what connecting it raises. *)
Record Joining := { jn_policy : SandboxPolicy; jn_unique : string; jn_opened : option string }.

(** One turn of the loop of [start]. *)
Definition join (j : Joining) (h : Harness) : (string + unit) * Harness :=
  let h := register (jn_policy j) (jn_unique j) h in
  if negb (can_connect (jn_policy j)) then (inr tt, h)
  else
    match connect (jn_opened j) (jn_unique j) h with
    | inl exc => (inl exc, h)
    | inr _ =>
        (inr tt,
         {| hs_broker := hs_broker h;
            hs_sandboxes := <[sp_sandbox_id (jn_policy j) := connected_handle (jn_policy j) (jn_unique j)]>
                              (hs_sandboxes h);
            hs_unique := hs_unique h |})
    end.

Fixpoint join_all (js : list Joining) (h : Harness) : (string + unit) * Harness :=
  match js with
  | [] => (inr tt, h)
  | j :: js => match join j h with (inr _, h) => join_all js h | failed => failed end
  end.

(** [start()]: [started] is what starting the broker raises. *)
Definition start (started : option string) (js : list Joining) (h : Harness) : (string + unit) * Harness :=
  let h := set_broker (new_policies (map jn_policy js)) h in
  match started with
  | Some exc => (inl exc, h)
  | None => join_all js h
  end.

(** [add_sandbox()]: the handle it returns. *)
Definition add_sandbox (j : Joining) (h : Harness) : (string + SandboxHandle) * Harness :=
  let h := {| hs_broker := add_policy (jn_policy j) <$> hs_broker h; hs_sandboxes := hs_sandboxes h;
              hs_unique := hs_unique h |} in
  match join j h with
  | (inl exc, h) => (inl exc, h)
  | (inr _, h) =>
      (inr (if can_connect (jn_policy j) then connected_handle (jn_policy j) (jn_unique j)
            else new_handle (jn_policy j) (jn_unique j)), h)
  end.

(** [remove_sandbox()]: the handle it closed, if there was one. *)
Definition remove_sandbox (name : string) (h : Harness) : option SandboxHandle * Harness :=
  (close_handle <$> hs_sandboxes h !! name,
   {| hs_broker := hs_broker h; hs_sandboxes := delete name (hs_sandboxes h); hs_unique := hs_unique h |}).

(** [stop()]: the handles it closed. *)
Definition stop (h : Harness) : list SandboxHandle * Harness :=
  (map (fun kv => close_handle kv.2) (map_to_list (hs_sandboxes h)),
   {| hs_broker := hs_broker h; hs_sandboxes := ∅; hs_unique := hs_unique h |}).

Definition broker (h : Harness) : string + PolicyTable :=
  match hs_broker h with
  | None => inl "Harness not started — call start() first"
  | Some t => inr t
  end.

(** [sandbox()] and [harness[name]]: [KeyError] for another name. *)
Definition sandbox (name : string) (h : Harness) : string + SandboxHandle :=
  match hs_sandboxes h !! name with Some s => inr s | None => inl name end.

(** ** Re-keying every policy once *)

(** The declared policies with the identities of their sandboxes: no two share
    a name or an identity, and nothing mentions an identity before it is
    given. *)
Record topology (l : list (SandboxPolicy * string)) : Prop := {
  top_names : NoDup (map (fun x => sp_sandbox_id x.1) l);
  top_uniques : NoDup (map snd l);
  top_disjoint : forall p u q v, (p, u) ∈ l -> (q, v) ∈ l -> u ≠ sp_sandbox_id q;
  top_fresh : forall p u q v, (p, u) ∈ l -> (q, v) ∈ l -> unmentioned u q
}.

(** An allow-list [s'] after the sandboxes of [done] were re-keyed and those of
    [todo] were not, for the declared list [s] of the sandbox [name]. *)
Record followed (dn td : list (SandboxPolicy * string)) (name : string) (s s' : option (gset string)) : Prop := {
  fo_open : s = None <-> s' = None;
  fo_done q v : (q, v) ∈ dn -> sp_sandbox_id q ≠ name ->
    (v ∈ default ∅ s' <-> sp_sandbox_id q ∈ default ∅ s) /\ sp_sandbox_id q ∉ default ∅ s';
  fo_todo q v : (q, v) ∈ td -> sp_sandbox_id q ≠ name ->
    (sp_sandbox_id q ∈ default ∅ s' <-> sp_sandbox_id q ∈ default ∅ s);
  fo_fresh q v : (q, v) ∈ td -> v ∉ default ∅ s'
}.

Record policy_followed (dn td : list (SandboxPolicy * string)) (p p' : SandboxPolicy) : Prop := {
  pf_connect : can_connect p' = can_connect p;
  pf_channels : allowed_channels p' = allowed_channels p;
  pf_ops : allowed_ops p' = allowed_ops p;
  pf_egress : followed dn td (sp_sandbox_id p) (allowed_egress_targets p) (allowed_egress_targets p');
  pf_ingress : followed dn td (sp_sandbox_id p) (allowed_ingress_sources p) (allowed_ingress_sources p')
}.

(** The tables when [done] is re-keyed. *)
Record rekeyed (dn td : list (SandboxPolicy * string)) (t : PolicyTable) : Prop := {
  rk_renames : _renames t = map (fun x => (sp_sandbox_id x.1, x.2)) dn;
  rk_done p u : (p, u) ∈ dn -> exists p', _policies t !! u = Some p' /\ policy_followed dn td p p';
  rk_todo p u : (p, u) ∈ td ->
    exists p', _policies t !! sp_sandbox_id p = Some p' /\ policy_followed dn td p p'
}.

Lemma rename_in_open old new s : rename_in old new s = None <-> s = None.
Proof. by destruct s. Qed.

(** The sandbox whose turn it is shares nothing with the others. *)
Lemma apart dn p u td q v :
  topology (dn ++ (p, u) :: td) -> (q, v) ∈ dn \/ (q, v) ∈ td ->
  sp_sandbox_id q ≠ sp_sandbox_id p /\ v ≠ u /\ v ≠ sp_sandbox_id p /\ sp_sandbox_id q ≠ u /\ unmentioned v p.
Proof.
  intros [Hn Hu Hd Hf] Hin.
  assert (Hq : (q, v) ∈ dn ++ (p, u) :: td) by (rewrite elem_of_app, elem_of_cons; tauto).
  assert (Hp : (p, u) ∈ dn ++ (p, u) :: td) by (rewrite elem_of_app, elem_of_cons; tauto).
  assert (Hmid : forall (f : SandboxPolicy * string -> string),
            NoDup (map f (dn ++ (p, u) :: td)) -> f (q, v) ≠ f (p, u)).
  { intros f Hnd Heq. rewrite map_app in Hnd. apply list.NoDup_app in Hnd as (_ & Hdis & Hnd).
    apply list.NoDup_cons in Hnd as [Hnot _]. rewrite <- Heq in *. destruct Hin as [Hin|Hin].
    - apply (Hdis (f (q, v))); [by apply list_elem_of_fmap_2|]. simpl. rewrite <- Heq. apply list_elem_of_here.
    - by apply Hnot, list_elem_of_fmap_2. }
  split_and!.
  - by apply (Hmid (fun x => sp_sandbox_id x.1)).
  - by apply (Hmid snd).
  - by apply (Hd q v p u).
  - intros Heq. by apply (Hd p u q v).
  - by apply (Hf q v p u).
Qed.

Lemma own_apart dn p u td : topology (dn ++ (p, u) :: td) -> sp_sandbox_id p ≠ u /\ unmentioned u p.
Proof.
  intros [_ _ Hd Hf].
  assert (Hp : (p, u) ∈ dn ++ (p, u) :: td) by (rewrite elem_of_app, elem_of_cons; tauto).
  split; [intros Heq; by apply (Hd p u p u)|by apply (Hf p u p u)].
Qed.

(** Renaming [p] to [u], its turn, in an allow-list of another sandbox. *)
Lemma followed_rename dn p u td name s s' :
  topology (dn ++ (p, u) :: td) -> sp_sandbox_id p ≠ name ->
  followed dn ((p, u) :: td) name s s' ->
  followed (dn ++ [(p, u)]) td name s (rename_in (sp_sandbox_id p) u s').
Proof.
  intros Ht Hne [Ho Hdn Htd Hfr]. destruct (own_apart _ _ _ _ Ht) as [Hpu _].
  assert (Hp : sp_sandbox_id p ∈ default ∅ s' <-> sp_sandbox_id p ∈ default ∅ s).
  { apply (Htd p u); [by apply list_elem_of_here|done]. }
  assert (Hu' : u ∉ default ∅ s') by (apply (Hfr p u), list_elem_of_here).
  split.
  - by rewrite rename_in_open.
  - intros q v Hin Hq. rewrite !rename_in_spec. apply elem_of_app in Hin as [Hin|Hin%list_elem_of_singleton].
    + destruct (Hdn q v Hin Hq). destruct (apart _ _ _ _ q v Ht (or_introl Hin)) as (? & ? & ? & ? & _). tauto.
    + simplify_eq. rewrite <- Hp. split; [|tauto]. split; [|tauto]. intros [[H _]|[_ H]]; [by destruct Hu'|done].
  - intros q v Hin Hq. destruct (apart _ _ _ _ q v Ht (or_intror Hin)) as (? & ? & ? & ? & _).
    rewrite rename_in_spec, <- (Htd q v) by (try done; by apply list_elem_of_further). tauto.
  - intros q v Hin. destruct (apart _ _ _ _ q v Ht (or_intror Hin)) as (? & ? & _).
    assert (v ∉ default ∅ s') by (by apply (Hfr q v), list_elem_of_further). rewrite rename_in_spec. tauto.
Qed.

(** The own list of [p] at its turn: what was renamed stays renamed. *)
Lemma followed_turn dn p u td s s' :
  topology (dn ++ (p, u) :: td) -> followed dn ((p, u) :: td) (sp_sandbox_id p) s s' ->
  followed (dn ++ [(p, u)]) td (sp_sandbox_id p) s s'.
Proof.
  intros Ht [Ho Hdn Htd Hfr]. split; [done|..].
  - intros q v Hin Hq. apply elem_of_app in Hin as [Hin|Hin%list_elem_of_singleton]; [by apply (Hdn q v)|].
    simplify_eq.
  - intros q v Hin Hq. apply (Htd q v); [by apply list_elem_of_further|done].
  - intros q v Hin. by apply (Hfr q v), list_elem_of_further.
Qed.

(** Renaming again what is no longer mentioned changes nothing. *)
Lemma rename_absent old new s : old ∉ default ∅ s -> rename_in old new s = s.
Proof. destruct s as [s|]; [|done]. simpl. intros H. by rewrite decide_False by done. Qed.

Lemma apply_rename_absent p old new : unmentioned old p -> _apply_rename p old new = p.
Proof. intros [He Hi]. unfold _apply_rename. rewrite !rename_absent by done. by destruct p. Qed.

Lemma replay_absent skip rs p :
  (forall old new, (old, new) ∈ rs -> old ≠ skip -> unmentioned old p) -> replay_renames skip rs p = p.
Proof.
  unfold replay_renames. induction rs as [|[o n] rs IH]; intros H; simpl; [done|].
  destruct (String.eqb_spec o skip) as [->|Hne].
  - apply IH. intros old new Hin. apply (H old new). by apply list_elem_of_further.
  - rewrite apply_rename_absent by (apply (H o n); [by apply list_elem_of_here|done]).
    apply IH. intros old new Hin. apply (H old new). by apply list_elem_of_further.
Qed.

(** Re-keying the next policy. *)
Lemma rekeyed_step dn p u td t :
  topology (dn ++ (p, u) :: td) -> rekeyed dn ((p, u) :: td) t ->
  rekeyed (dn ++ [(p, u)]) td (rekey_policy (sp_sandbox_id p) u t).
Proof.
  intros Ht [Hr Hdn Htd].
  destruct (Htd p u) as (p0 & Hp0 & Hf0); [by apply list_elem_of_here|].
  assert (Hset : dict_set (sp_sandbox_id p) u (_renames t) = _renames t ++ [(sp_sandbox_id p, u)]).
  { assert (Hnot : forall q v, (q, v) ∈ dn -> sp_sandbox_id p ≠ sp_sandbox_id q).
    { intros q v Hin Heq. by destruct (apart _ _ _ _ q v Ht (or_introl Hin)) as (? & _). }
    rewrite Hr. clear -Hnot. induction dn as [|[q v] dn IH]; simpl; [done|].
    rewrite (proj2 (String.eqb_neq _ _)) by (apply (Hnot q v), list_elem_of_here).
    f_equal. apply IH. intros q' v' Hin. apply (Hnot q' v'). by apply list_elem_of_further. }
  assert (Hother : forall q v q' k, (q, v) ∈ dn \/ (q, v) ∈ td -> k ≠ sp_sandbox_id p -> k ≠ u ->
    _policies t !! k = Some q' -> policy_followed dn ((p, u) :: td) q q' ->
    exists q'', _policies (rekey_policy (sp_sandbox_id p) u t) !! k = Some q'' /\
      policy_followed (dn ++ [(p, u)]) td q q'').
  { intros q v q' k Hin Hk1 Hk2 Hq [? ? ? He Hi]. destruct (apart _ _ _ _ q v Ht Hin) as (Hqp & _).
    exists (_apply_rename q' (sp_sandbox_id p) u). unfold rekey_policy. rewrite Hp0. simpl.
    rewrite lookup_insert_ne, lookup_fmap, !lookup_delete_ne, Hq by done. split; [done|].
    split; simpl; try done; by apply followed_rename. }
  split.
  - unfold rekey_policy. rewrite Hp0. simpl. rewrite Hset, Hr, map_app. done.
  - intros q v Hin. apply elem_of_app in Hin as [Hin|Hin%list_elem_of_singleton].
    + destruct (Hdn q v Hin) as (q' & Hq & Hf).
      destruct (apart _ _ _ _ q v Ht (or_introl Hin)) as (_ & Hv & Hv' & _). by apply (Hother q v q' v); auto.
    + simplify_eq. unfold rekey_policy. rewrite Hp0. simpl. rewrite lookup_insert_eq. eexists. split; [done|].
      rewrite replay_absent.
      * destruct Hf0 as [? ? ? He Hi]. split; simpl; try done; by apply followed_turn.
      * rewrite Hset, Hr. intros old new Hin Hne.
        apply elem_of_app in Hin as [Hin|Hin%list_elem_of_singleton]; [|by simplify_eq].
        apply list_elem_of_fmap in Hin as ([q v] & [= -> ->] & Hin). simpl in Hne.
        destruct Hf0 as [_ _ _ He Hi]. unfold unmentioned, egress, ingress. simpl.
        split; [by apply (fo_done _ _ _ _ _ He q v)|by apply (fo_done _ _ _ _ _ Hi q v)].
  - intros q v Hin. destruct (Htd q v) as (q' & Hq & Hf); [by apply list_elem_of_further|].
    destruct (apart _ _ _ _ q v Ht (or_intror Hin)) as (Hqp & _ & _ & Hqu & _).
    by apply (Hother q v q' (sp_sandbox_id q)); auto.
Qed.

Lemma rekeyed_all dn td t :
  topology (dn ++ td) -> rekeyed dn td t ->
  rekeyed (dn ++ td) [] (fold_left (fun t x => rekey_policy (sp_sandbox_id x.1) x.2 t) td t).
Proof.
  revert dn t. induction td as [|[p u] td IH]; intros dn t Ht Hr; simpl.
  { by rewrite app_nil_r. }
  replace (dn ++ (p, u) :: td) with ((dn ++ [(p, u)]) ++ td) in * by by rewrite <- app_assoc.
  apply IH; [done|]. apply rekeyed_step; [by rewrite <- app_assoc in Ht|done].
Qed.

Lemma new_policies_lookup ps p :
  NoDup (map sp_sandbox_id ps) -> p ∈ ps -> _policies (new_policies ps) !! sp_sandbox_id p = Some p.
Proof.
  unfold new_policies. simpl. generalize (∅ : gmap string SandboxPolicy) as m. intros m Hnd Hin.
  revert m Hnd Hin. induction ps as [|q ps IH]; intros m Hnd Hin; [by apply not_elem_of_nil in Hin|].
  simpl in *. apply list.NoDup_cons in Hnd as [Hq Hnd].
  apply elem_of_cons in Hin as [->|Hin]; [|by apply IH].
  assert (Hkeep : forall ps (m : gmap string SandboxPolicy), sp_sandbox_id q ∉ map sp_sandbox_id ps -> m !! sp_sandbox_id q = Some q ->
    fold_left (fun m p => <[sp_sandbox_id p := p]> m) ps m !! sp_sandbox_id q = Some q).
  { clear. induction ps as [|r ps IH]; intros m Hq Hm; simpl in *; [done|].
    apply not_elem_of_cons in Hq as [Hne Hq]. apply IH; [done|]. by rewrite lookup_insert_ne. }
  apply Hkeep; [done|]. apply lookup_insert_eq.
Qed.

Lemma declared l : topology l -> rekeyed [] l (new_policies (map fst l)).
Proof.
  intros [Hn Hu Hd Hf]. split.
  - done.
  - intros p u Hin. by apply not_elem_of_nil in Hin.
  - intros p u Hin. exists p. split.
    + apply new_policies_lookup; [by rewrite map_map|]. by apply (list_elem_of_fmap_2 fst _ (p, u)).
    + assert (Hown : forall f, f = allowed_egress_targets \/ f = allowed_ingress_sources ->
                followed [] l (sp_sandbox_id p) (f p) (f p)).
      { intros f Hfun. split; [done| | |].
        - intros q v Hq. by apply not_elem_of_nil in Hq.
        - intros q v _ _. done.
        - intros q v Hq. destruct (Hf q v p u Hq Hin). by destruct Hfun as [->| ->]. }
      split; try done; apply Hown; auto.
Qed.

(** ** The harness *)

Definition pairs (js : list Joining) : list (SandboxPolicy * string) :=
  map (fun j => (jn_policy j, jn_unique j)) js.

Lemma join_effect j h r h' :
  join j h = (r, h') ->
  hs_broker h' = rekey_policy (sp_sandbox_id (jn_policy j)) (jn_unique j) <$> hs_broker h /\
  hs_unique h' = <[sp_sandbox_id (jn_policy j) := jn_unique j]> (hs_unique h).
Proof.
  unfold join. destruct (can_connect (jn_policy j)); simpl; [|by intros [= <- <-]].
  destruct (connect _ _ _); by intros [= <- <-].
Qed.

Lemma join_all_effect js h h' t :
  join_all js h = (inr tt, h') -> hs_broker h = Some t ->
  hs_broker h' = Some (fold_left (fun t x => rekey_policy (sp_sandbox_id x.1) x.2 t) (pairs js) t) /\
  forall p u, NoDup (map (fun x => sp_sandbox_id x.1) (pairs js)) ->
    (p, u) ∈ pairs js -> hs_unique h' !! sp_sandbox_id p = Some u.
Proof.
  revert h t. induction js as [|j js IH]; intros h t; simpl.
  { intros [= <-] Ht. split; [done|]. intros p u _ Hin. by apply not_elem_of_nil in Hin. }
  destruct (join j h) as [[exc|[]] h1] eqn:Hj; [done|]. apply join_effect in Hj as [Hb Hu].
  intros Hjs Ht. rewrite Ht in Hb. simpl in Hb. destruct (IH _ _ Hjs Hb) as [Hb' Hu']. split; [done|].
  intros p u Hnd Hin. apply list.NoDup_cons in Hnd as [Hnot Hnd].
  apply elem_of_cons in Hin as [Heq|Hin]; [|by apply Hu'].
  simplify_eq. simpl in Hnot. clear Hu' IH Hb Hb' Ht Hnd.
  assert (Hkeep : forall js h h' k v, join_all js h = (inr tt, h') ->
            k ∉ map (fun x => sp_sandbox_id x.1) (pairs js) -> hs_unique h !! k = Some v ->
            hs_unique h' !! k = Some v).
  { clear. induction js as [|j js IH]; intros h h' k v; simpl; [by intros [= <-]|].
    destruct (join j h) as [[exc|[]] h1] eqn:Hj; [done|]. apply join_effect in Hj as [_ Hu].
    intros Hjs Hk Hv. apply not_elem_of_cons in Hk as [Hne Hk]. apply (IH h1); [done..|].
    rewrite Hu. by rewrite lookup_insert_ne. }
  eapply Hkeep; [exact Hjs|done|]. rewrite Hu. apply lookup_insert_eq.
Qed.

(** What the policies as declared say of a message between two sandboxes. *)
Definition declared_permits (p q : SandboxPolicy) : bool :=
  permits (allowed_egress_targets p) (sp_sandbox_id q) && permits (allowed_ingress_sources q) (sp_sandbox_id p).

Lemma followed_permits dn s s' name q v :
  followed dn [] name s s' -> (q, v) ∈ dn -> sp_sandbox_id q ≠ name ->
  permits s' v = permits s (sp_sandbox_id q).
Proof.
  intros [Ho Hdn _ _] Hin Hne. destruct (Hdn q v Hin Hne) as [H _].
  destruct s as [s|], s' as [s'|]; simpl in *; [by apply bool_decide_ext| |..].
  - discriminate (proj2 Ho eq_refl).
  - discriminate (proj1 Ho eq_refl).
  - done.
Qed.

(** A started harness enforces the declared policies under display names: a
    test that makes one sandbox send to another by its display name is let
    through exactly when the declared policies of the two allow the operation
    and each other's names; the broker lets exactly the sandboxes connect whose
    policy says so. *)
Theorem harness_enforces_declarations started js h h' p u q v m :
  topology (pairs js) -> start started js h = (inr tt, h') ->
  (p, u) ∈ pairs js -> (q, v) ∈ pairs js -> sp_sandbox_id p ≠ sp_sandbox_id q -> str_truthy v = true ->
  op m ∈ [SEND; REQUEST; STREAM] -> to_sandbox m = Some (_resolve h' (sp_sandbox_id q)) ->
  exists t, broker h' = inr t /\
    (enforce_policy t (_resolve h' (sp_sandbox_id p)) m = None <->
     permits (allowed_ops p) (op m) = true /\ declared_permits p q = true) /\
    (str_truthy u = true ->
     policy_process_request t (Some u) = if can_connect p then inr u else inl 403).
Proof.
  intros Ht Hs Hp Hq Hne Hv Hop Hto. unfold start in Hs. destruct started as [exc|]; [done|].
  destruct (join_all_effect _ _ _ _ Hs eq_refl) as [Hb Hu].
  assert (Hnames : NoDup (map (fun x => sp_sandbox_id x.1) (pairs js))) by by apply top_names.
  assert (Hr : rekeyed (pairs js) [] (fold_left (fun t x => rekey_policy (sp_sandbox_id x.1) x.2 t)
            (pairs js) (new_policies (map jn_policy js)))).
  { replace (map jn_policy js) with (map fst (pairs js)) by (unfold pairs; by rewrite map_map).
    apply (rekeyed_all []); [done|]. by apply declared. }
  unfold _resolve in *. rewrite (Hu p u Hnames Hp). rewrite (Hu q v Hnames Hq) in Hto. simpl in *.
  destruct (rk_done _ _ _ Hr p u Hp) as (p' & Hp' & Hfp). destruct (rk_done _ _ _ Hr q v Hq) as (q' & Hq' & Hfq).
  unfold broker. rewrite Hb. eexists. split; [done|]. split.
  - unfold declared_permits.
    rewrite <- (followed_permits _ _ _ _ q v (pf_egress _ _ _ _ Hfp) Hq) by congruence.
    rewrite <- (followed_permits _ _ _ _ p u (pf_ingress _ _ _ _ Hfq) Hp) by congruence.
    rewrite <- (pf_ops _ _ _ _ Hfp), enforce_policy_spec, andb_true_iff, !permits_spec.
    unfold policy_permits. assert (Hv' : v ≠ "") by (intros ->; done).
    split.
    + intros (Hops & Hpeer & _). destruct (Hpeer Hop v Hto Hv') as [He Hi].
      split; [|split]; intros x; [by apply Hops|by apply He|by apply Hi].
    + intros (Hops & He & Hi). split_and!.
      * intros x os Hx. simplify_eq. by apply Hops.
      * intros _ to Hto' _. simplify_eq. split; intros x y Hx; simplify_eq; [by apply He|by apply Hi].
      * intros Hop'. exfalso. revert Hop Hop'. by destruct (op m); set_solver.
  - intros Hu'. unfold policy_process_request. simpl. rewrite Hu', Hp'. by rewrite (pf_connect _ _ _ _ Hfp).
Qed.

(** ** Waiting *)

Definition wanted (msg_type : option string) (m : NMBMessage) : bool :=
  match msg_type with Some t => has_type t m | None => true end.

Fixpoint grows (received : list NMBMessage) (polls : list (list NMBMessage)) : Prop :=
  match polls with [] => True | r :: rs => received `prefix_of` r /\ grows r rs end.

Lemma find_prefix {A} (f : A -> bool) l l' x :
  l `prefix_of` l' -> List.find f l = Some x -> List.find f l' = Some x.
Proof.
  intros [k ->]. induction l as [|y l IH]; simpl; [done|]. by destruct (f y); [|apply IH].
Qed.

Lemma last_cons {A} (x : A) l d : List.last (x :: l) d = List.last l x.
Proof.
  revert x d. induction l as [|y l IH]; intros x d; [done|].
  change (List.last (x :: y :: l) d) with (List.last (y :: l) d). by rewrite !IH.
Qed.

Lemma find_stays f polls received m :
  grows received polls -> List.find f received = Some m -> List.find f (List.last polls received) = Some m.
Proof.
  revert received. induction polls as [|r polls IH]; intros received; [done|].
  intros [Hr Hg] Hf. rewrite last_cons. apply IH; [done|]. by eapply find_prefix.
Qed.

(** Messages are only ever added, so the message a test is given is the first
    of its type that was received at all, and it fails only when none was. *)
Lemma wait_for_message_spec text msg_type received polls :
  grows received polls ->
  match wait_for_message text msg_type received polls with
  | inr m => List.find (wanted msg_type) (List.last polls received) = Some m
  | inl e => List.find (wanted msg_type) (List.last polls received) = None /\
             e = timeout_error text msg_type (List.last polls received)
  end.
Proof.
  revert received. induction polls as [|r polls IH]; intros received Hg; cbn [wait_for_message];
    fold (wanted msg_type); destruct (List.find (wanted msg_type) received) as [m|] eqn:Hm; try done.
  - by apply find_stays.
  - rewrite last_cons. apply IH, Hg.
Qed.

(** ** Replaced sandboxes *)

Definition open_to (name : string) (egress : option (gset string)) : SandboxPolicy :=
  {| sp_sandbox_id := name; can_connect := true; allowed_egress_targets := egress;
     allowed_ingress_sources := None; allowed_channels := None; allowed_ops := None |}.

Definition joining (p : SandboxPolicy) (u : string) : Joining :=
  {| jn_policy := p; jn_unique := u; jn_opened := None |}.

Definition two_sandboxes : list Joining :=
  [joining (open_to "orchestrator" (Some {["worker"]})) "orchestrator-1f"; joining (open_to "worker" None) "worker-2a"].

Definition ping (to : string) : NMBMessage :=
  {| op := SEND; id := "m"; from_sandbox := None; to_sandbox := Some to; Messages.type := Some "ping";
     reply_to := None; channel := None; stream_id := None; seq := None; Messages.done_ := None;
     timeout := None; timestamp := None; payload := Some []; code := None; message := None |}.

Definition refused (h : Harness) (from to : string) : bool :=
  match hs_broker h with
  | Some t => match enforce_policy t (_resolve h from) (ping (_resolve h to)) with Some _ => true | None => false end
  | None => false
  end.

(** A sandbox that is removed and added again under its name cannot be
    reached by those that list it: their lists hold its first identity. *)
Example replaced_sandbox_is_refused :
  let started := (start None two_sandboxes new_harness).2 in
  let removed := (remove_sandbox "worker" started).2 in
  let again := (add_sandbox (joining (open_to "worker" None) "worker-3b") removed).2 in
  (refused started "orchestrator" "worker", refused again "orchestrator" "worker") = (false, true).
Proof. vm_compute. reflexivity. Qed.

(** A sandbox that lists itself may not send to itself. *)
Example own_name_is_refused :
  let h := (start None [joining (open_to "worker" (Some {["worker"]})) "worker-2a"] new_harness).2 in
  refused h "worker" "worker" = true.
Proof. vm_compute. reflexivity. Qed.

Lemma two_sandboxes_topology : topology (pairs two_sandboxes).
Proof.
  split; try (apply (bool_decide_unpack _); vm_compute; exact I).
  - intros p u q v Hp Hq. unfold two_sandboxes, pairs in *. simpl in *.
    repeat (apply elem_of_cons in Hp as [Hp|Hp]); try (by apply not_elem_of_nil in Hp);
    repeat (apply elem_of_cons in Hq as [Hq|Hq]); try (by apply not_elem_of_nil in Hq); by simplify_eq/=.
  - intros p u q v Hp Hq. unfold two_sandboxes, pairs in *. simpl in *.
    repeat (apply elem_of_cons in Hp as [Hp|Hp]); try (by apply not_elem_of_nil in Hp);
    repeat (apply elem_of_cons in Hq as [Hq|Hq]); try (by apply not_elem_of_nil in Hq); simplify_eq/=;
    apply (bool_decide_unpack _); vm_compute; exact I.
Qed.

Lemma harness_enforces_declarations_witness :
  exists h' t, start None two_sandboxes new_harness = (inr tt, h') /\ broker h' = inr t /\
    enforce_policy t (_resolve h' "orchestrator") (ping (_resolve h' "worker")) = None.
Proof.
  destruct (start None two_sandboxes new_harness) as [r h'] eqn:Hs.
  assert (Hr : r = inr tt) by (change r with (r, h').1; rewrite <- Hs; vm_compute; reflexivity). subst r.
  destruct (harness_enforces_declarations None two_sandboxes new_harness h'
    (open_to "orchestrator" (Some {["worker"]})) "orchestrator-1f" (open_to "worker" None) "worker-2a"
    (ping (_resolve h' "worker")) two_sandboxes_topology Hs) as (t & Ht & Hp & _);
    try (by apply (bool_decide_unpack _); vm_compute); try done.
  - by apply list_elem_of_here.
  - by apply list_elem_of_further, list_elem_of_here.
  - exists h', t. split; [done|]. split; [done|]. apply Hp. split; vm_compute; reflexivity.
Defined.
