(* ===== verification/Client.v ===== *)
(** * Client

    The bus client [MessageBus] of [nmb/client.py]: the futures its callers
    wait on, the bounded delivery queues, the frames its methods build and
    the dispatch of what the broker sends.

    An [asyncio.Future] is a cell of [futures] named by an identity, so that
    the tables that refer to it share it; an [asyncio.Queue] likewise. *)

From S2P Require Import Prelude Json Messages Broker BrokerInv BrokerEmits.

(** What became of a future. *)
Inductive FutState :=
| FutPending
| FutReply (m : NMBMessage)
| FutAcked
| FutConnError (text : string)
| FutTimeout (text : string)
| FutCancelled.

Definition is_done (s : FutState) : bool :=
  match s with FutPending => false | _ => true end.

Definition DEFAULT_NMB_LISTEN_QUEUE_SIZE : nat := 1000.
Definition DEFAULT_NMB_CHANNEL_QUEUE_SIZE : nat := 1000.

Record Client := {
  futures : gmap nat FutState;
  next_future : nat;
  pending_futures : gmap string nat;
  pending_acks : gmap string nat;
  listen_queue : list NMBMessage;
  channel_queues : gmap string (list nat);
  queues : gmap nat (list NMBMessage);
  next_queue : nat;
  closed : bool;
  wire : list NMBMessage
}.

(** [MessageBus(sandbox_id)]; [wire] is what has been sent. *)
Definition new_client : Client :=
  {| futures := ∅; next_future := 0; pending_futures := ∅; pending_acks := ∅;
     listen_queue := []; channel_queues := ∅; queues := ∅; next_queue := 0;
     closed := false; wire := [] |}.

Definition set_futures (fs : gmap nat FutState) (n : nat) (pf pa : gmap string nat)
  (c : Client) : Client :=
  {| futures := fs; next_future := n; pending_futures := pf; pending_acks := pa;
     listen_queue := listen_queue c; channel_queues := channel_queues c;
     queues := queues c; next_queue := next_queue c; closed := closed c;
     wire := wire c |}.

Definition set_listen (q : list NMBMessage) (c : Client) : Client :=
  {| futures := futures c; next_future := next_future c;
     pending_futures := pending_futures c; pending_acks := pending_acks c;
     listen_queue := q; channel_queues := channel_queues c; queues := queues c;
     next_queue := next_queue c; closed := closed c; wire := wire c |}.

Definition set_queues (cq : gmap string (list nat)) (qs : gmap nat (list NMBMessage))
  (n : nat) (c : Client) : Client :=
  {| futures := futures c; next_future := next_future c;
     pending_futures := pending_futures c; pending_acks := pending_acks c;
     listen_queue := listen_queue c; channel_queues := cq; queues := qs;
     next_queue := n; closed := closed c; wire := wire c |}.

Definition set_wire (ms : list NMBMessage) (cl : bool) (c : Client) : Client :=
  {| futures := futures c; next_future := next_future c;
     pending_futures := pending_futures c; pending_acks := pending_acks c;
     listen_queue := listen_queue c; channel_queues := channel_queues c;
     queues := queues c; next_queue := next_queue c; closed := cl; wire := ms |}.

(** ** Futures *)

(** [if not fut.done(): fut.set_...(...)] *)
Definition settle (f : nat) (s : FutState) (fs : gmap nat FutState) : gmap nat FutState :=
  match fs !! f with
  | Some FutPending => <[f := s]> fs
  | _ => fs
  end.

(** [_fail_pending_futures] *)
Definition _fail_pending_futures (c : Client) : Client :=
  let fail fs (f : nat) := settle f (FutConnError "Connection closed") fs in
  let fs := fold_left fail (map_to_list (pending_futures c)).*2 (futures c) in
  let fs := fold_left fail (map_to_list (pending_acks c)).*2 fs in
  set_futures fs (next_future c) ∅ ∅ c.

(** [close()]: the receive task and the socket end. *)
Definition close (c : Client) : Client :=
  _fail_pending_futures (set_wire (wire c) true c).

(** [_put_or_drop_oldest] on a queue of capacity [cap]. *)
Definition _put_or_drop_oldest (cap : nat) (q : list NMBMessage) (m : NMBMessage)
  : list NMBMessage :=
  (if (cap <=? length q)%nat then tail q else q) ++ [m].

(** ** Dispatch of what the broker sends *)

Definition pop_future (i : string) (s : FutState) (c : Client) : Client :=
  match pending_futures c !! i with
  | Some f => set_futures (settle f s (futures c)) (next_future c)
                (delete i (pending_futures c)) (pending_acks c) c
  | None => c
  end.

Definition pop_ack (i : string) (s : FutState) (c : Client) : Client :=
  match pending_acks c !! i with
  | Some f => set_futures (settle f s (futures c)) (next_future c)
                (pending_futures c) (delete i (pending_acks c)) c
  | None => c
  end.

(** Puts a message in one subscriber's queue. *)
Definition put_in (m : NMBMessage) (qs : gmap nat (list NMBMessage)) (q : nat)
  : gmap nat (list NMBMessage) :=
  match qs !! q with
  | Some l => <[q := _put_or_drop_oldest DEFAULT_NMB_CHANNEL_QUEUE_SIZE l m]> qs
  | None => qs
  end.

Definition _dispatch_deliver (m : NMBMessage) (c : Client) : Client :=
  let rid := default "" (reply_to m) in
  if opt_truthy (reply_to m) && bool_decide (is_Some (pending_futures c !! rid)) then
    pop_future rid (FutReply m) c
  else
    let ch := default "" (channel m) in
    match (if opt_truthy (channel m) then channel_queues c !! ch else None) with
    | Some qs => set_queues (channel_queues c) (fold_left (put_in m) qs (queues c))
                            (next_queue c) c
    | None => set_listen (_put_or_drop_oldest DEFAULT_NMB_LISTEN_QUEUE_SIZE
                            (listen_queue c) m) c
    end.

Definition _dispatch_ack (m : NMBMessage) (c : Client) : Client :=
  pop_ack (id m) FutAcked c.

(** How an f-string prints an [Optional[str]]. *)
Definition show_opt (o : option string) : string := default "None" o.

Definition _dispatch_error (m : NMBMessage) (c : Client) : Client :=
  let exc := FutConnError ("Broker error " +:+ show_opt (code m) +:+ ": "
                           +:+ show_opt (message m)) in
  match pending_futures c !! id m with
  | Some _ => pop_future (id m) exc c
  | None => pop_ack (id m) exc c
  end.

Definition _dispatch_timeout (m : NMBMessage) (c : Client) : Client :=
  pop_future (id m) (FutTimeout ("Request " +:+ id m +:+ " timed out: "
                                 +:+ show_opt (message m))) c.

Definition _dispatch (m : NMBMessage) (c : Client) : Client :=
  match op m with
  | DELIVER => _dispatch_deliver m c
  | ACK => _dispatch_ack m c
  | ERROR => _dispatch_error m c
  | TIMEOUT => _dispatch_timeout m c
  | _ => c
  end.

(** ** The frames the methods build

    [i] is the fresh id of the message. *)

Definition send_frame (i to ty : string) (p : list (string * json)) : NMBMessage :=
  {| op := SEND; id := i; from_sandbox := None; to_sandbox := Some to;
     type := Some ty; reply_to := None; channel := None; stream_id := None;
     seq := None; done_ := None; timeout := None; timestamp := None;
     payload := Some p; code := None; message := None |}.

Definition request_frame (i to ty : string) (p : list (string * json)) (t : seconds)
  : NMBMessage :=
  {| op := REQUEST; id := i; from_sandbox := None; to_sandbox := Some to;
     type := Some ty; reply_to := None; channel := None; stream_id := None;
     seq := None; done_ := None; timeout := Some t; timestamp := None;
     payload := Some p; code := None; message := None |}.

Definition reply_frame (i : string) (original : NMBMessage) (ty : string)
  (p : list (string * json)) : NMBMessage :=
  {| op := REPLY; id := i; from_sandbox := None; to_sandbox := None;
     type := Some ty; reply_to := Some (id original); channel := None;
     stream_id := None; seq := None; done_ := None; timeout := None;
     timestamp := None; payload := Some p; code := None; message := None |}.

(** SUBSCRIBE and UNSUBSCRIBE carry only the channel. *)
Definition channel_frame (o : Op) (i ch : string) : NMBMessage :=
  {| op := o; id := i; from_sandbox := None; to_sandbox := None; type := None;
     reply_to := None; channel := Some ch; stream_id := None; seq := None;
     done_ := None; timeout := None; timestamp := None; payload := None;
     code := None; message := None |}.

Definition publish_frame (i ch ty : string) (p : list (string * json)) : NMBMessage :=
  {| op := PUBLISH; id := i; from_sandbox := None; to_sandbox := None;
     type := Some ty; reply_to := None; channel := Some ch; stream_id := None;
     seq := None; done_ := None; timeout := None; timestamp := None;
     payload := Some p; code := None; message := None |}.

Definition stream_frame (i to ty sid : string) (n : Z) (last : bool)
  (p : list (string * json)) : NMBMessage :=
  {| op := STREAM; id := i; from_sandbox := None; to_sandbox := Some to;
     type := Some ty; reply_to := None; channel := None; stream_id := Some sid;
     seq := Some n; done_ := Some last; timeout := None; timestamp := None;
     payload := Some p; code := None; message := None |}.

(** [stream]: the chunks, numbered from [n], then the final frame.  [ids]
    draws the message ids. *)
Fixpoint stream_from (ids : Z -> string) (to ty sid : string) (n : Z)
  (chunks : list (list (string * json))) : list NMBMessage :=
  match chunks with
  | [] => [stream_frame (ids n) to ty sid n true []]
  | p :: chunks => stream_frame (ids n) to ty sid n false p
                   :: stream_from ids to ty sid (n + 1)%Z chunks
  end.

Definition stream (ids : Z -> string) (to ty sid : string)
  (chunks : list (list (string * json))) : list NMBMessage :=
  stream_from ids to ty sid 0%Z chunks.

(** ** Awaiting callers *)

(** [request] up to its [await]: the future is registered before the frame
    is sent; [sent] is [false] when [_conn.send] raises. *)
Definition request_begin (m : NMBMessage) (sent : bool) (c : Client) : Client :=
  let f := next_future c in
  let c := set_futures (<[f := FutPending]> (futures c)) (S f)
             (<[id m := f]> (pending_futures c)) (pending_acks c) c in
  if sent then set_wire (wire c ++ [m]) (closed c) c else c.

(** [_send_and_await_ack] up to its [await]. *)
Definition send_begin (m : NMBMessage) (sent : bool) (c : Client) : Client :=
  let f := next_future c in
  let c := set_futures (<[f := FutPending]> (futures c)) (S f)
             (pending_futures c) (<[id m := f]> (pending_acks c)) c in
  if sent then set_wire (wire c ++ [m]) (closed c) c else c.

(** [wait_for] gives up: it cancels the future, and the handler pops the
    table entry. *)
Definition request_local_timeout (i : string) (c : Client) : Client :=
  pop_future i FutCancelled c.

Definition ack_local_timeout (i : string) (c : Client) : Client :=
  pop_ack i FutCancelled c.

(** ** Subscriptions *)

(** [subscribe]: the queue is registered before the frame is sent. *)
Definition subscribe_begin (i ch : string) (sent : bool) (c : Client) : Client * nat :=
  let q := next_queue c in
  let qs := default [] (channel_queues c !! ch) in
  let c := set_queues (<[ch := qs ++ [q]]> (channel_queues c))
             (<[q := []]> (queues c)) (S q) c in
  (send_begin (channel_frame SUBSCRIBE i ch) sent c, q).

(** One turn of the iterator: [None] when it has to wait. *)
Definition subscription_get (q : nat) (c : Client) : option (NMBMessage * Client) :=
  match queues c !! q with
  | Some (m :: l) =>
      Some (m, set_queues (channel_queues c) (<[q := l]> (queues c)) (next_queue c) c)
  | _ => None
  end.

(** The [finally] of the iterator. *)
Definition subscribe_end (i ch : string) (q : nat) (sent : bool) (c : Client) : Client :=
  let qs := List.filter (fun q' => negb (Nat.eqb q' q)) (default [] (channel_queues c !! ch)) in
  match qs with
  | [] =>
      let c := set_queues (delete ch (channel_queues c)) (queues c) (next_queue c) c in
      if sent then set_wire (wire c ++ [channel_frame UNSUBSCRIBE i ch]) (closed c) c else c
  | _ :: _ => set_queues (<[ch := qs]> (channel_queues c)) (queues c) (next_queue c) c
  end.

(** ** Bounded queues *)

Lemma put_length cap q m :
  (0 < cap)%nat -> (length q <= cap)%nat -> (length (_put_or_drop_oldest cap q m) <= cap)%nat.
Proof.
  intros Hc Hq. unfold _put_or_drop_oldest. rewrite length_app. simpl.
  destruct (Nat.leb_spec cap (length q)); [|lia]. destruct q; simpl in *; lia.
Qed.

(** What a bounded queue holds: the newest [cap] of what was put in it. *)
Definition newest (cap : nat) (l : list NMBMessage) : list NMBMessage :=
  drop (length l - cap) l.

Lemma put_newest cap l m :
  (0 < cap)%nat -> _put_or_drop_oldest cap (newest cap l) m = newest cap (l ++ [m]).
Proof.
  intros Hc. unfold _put_or_drop_oldest, newest. rewrite length_drop, length_app. simpl.
  destruct (Nat.leb_spec cap (length l - (length l - cap))) as [Hf|Hf].
  - rewrite drop_app_le by lia. f_equal.
    assert (Ht : forall A (x : list A), tail x = drop 1 x) by by intros ? [].
    rewrite Ht, drop_drop. f_equal. lia.
  - rewrite drop_app_le by lia. f_equal. f_equal. lia.
Qed.

Lemma put_all_newest cap l ms :
  (0 < cap)%nat ->
  fold_left (_put_or_drop_oldest cap) ms (newest cap l) = newest cap (l ++ ms).
Proof.
  intros Hc. revert l. induction ms as [|m ms IH]; intros l; simpl; [by rewrite app_nil_r|].
  rewrite put_newest by done. rewrite IH. by rewrite <- app_assoc.
Qed.

Lemma newest_short cap l : (length l <= cap)%nat -> newest cap l = l.
Proof. intros H. unfold newest. replace (length l - cap)%nat with 0%nat by lia. done. Qed.
