(* ===== verification/ClientTheorems.v ===== *)
(** * ClientTheorems

    What the bus client promises its callers: no future is left hanging or
    settled twice, the frames it builds are ones the broker accepts, and a
    stream arrives in order through broker and bounded queue. *)

From S2P Require Import Prelude Json Messages Broker BrokerInv BrokerEmits BrokerTheorems Client.

(** ** Futures *)

(** What the client goes through between its construction and its end. *)
Inductive ClientStep :=
| CRequest (m : NMBMessage) (sent : bool)
| CSend (m : NMBMessage) (sent : bool)
| CReceive (m : NMBMessage)
| CRequestTimeout (i : string)
| CAckTimeout (i : string)
| CClose.

Definition client_step (c : Client) (l : ClientStep) : Client :=
  match l with
  | CRequest m sent => request_begin m sent c
  | CSend m sent => send_begin m sent c
  | CReceive m => _dispatch m c
  | CRequestTimeout i => request_local_timeout i c
  | CAckTimeout i => ack_local_timeout i c
  | CClose => close c
  end.

(** Message ids are drawn fresh. *)
Definition fresh_ids (c : Client) (l : ClientStep) : Prop :=
  match l with
  | CRequest m _ => pending_futures c !! id m = None
  | CSend m _ => pending_acks c !! id m = None
  | _ => True
  end.

Inductive client_reach : Client -> Prop :=
| cr_new : client_reach new_client
| cr_step c l : client_reach c -> fresh_ids c l -> client_reach (client_step c l).

(** The future [f] is in one of the tables. *)
Definition registered (c : Client) (f : nat) : Prop :=
  (exists i, pending_futures c !! i = Some f) \/ (exists i, pending_acks c !! i = Some f).

Record futures_inv (c : Client) : Prop := {
  fi_pending : forall f, futures c !! f = Some FutPending -> registered c f;
  fi_below : forall f s, futures c !! f = Some s -> f < next_future c
}.

Lemma settle_lookup f s fs f' :
  settle f s fs !! f' =
  if decide (f' = f) then match fs !! f with Some FutPending => Some s | o => o end
  else fs !! f'.
Proof.
  unfold settle. destruct (fs !! f) as [st|] eqn:Hf; [destruct st|];
    rewrite ?lookup_insert; repeat case_decide; congruence.
Qed.

Lemma settle_done f s fs f' :
  is_done s = true ->
  settle f s fs !! f' = Some FutPending -> fs !! f' = Some FutPending /\ f' ≠ f.
Proof.
  intros Hs. rewrite settle_lookup. case_decide as Hd; [|done]. subst.
  destruct (fs !! f) as [[]|]; naive_solver.
Qed.

Lemma settle_keeps f s fs f' st :
  fs !! f' = Some st -> is_done st = true -> settle f s fs !! f' = Some st.
Proof.
  intros Hf Hd. rewrite settle_lookup. case_decide as H; [|done]. subst.
  rewrite Hf. by destruct st.
Qed.

Lemma settle_dom f s fs f' st : settle f s fs !! f' = Some st -> is_Some (fs !! f').
Proof.
  rewrite settle_lookup. case_decide as H; [|by eexists]. subst.
  destruct (fs !! f); [by eexists|done].
Qed.

(** A fold of [settle] over the futures of a table. *)
Lemma settle_all_spec l s fs f :
  is_done s = true ->
  fold_left (fun fs f => settle f s fs) l fs !! f = Some FutPending ->
  fs !! f = Some FutPending /\ f ∉ l.
Proof.
  intros Hs. revert fs. induction l as [|f0 l IH]; intros fs; simpl; [set_solver|].
  intros H. apply IH in H as [H Hl]. apply settle_done in H as [H Hf]; [|done]. set_solver.
Qed.

Lemma settle_all_keeps l s fs f st :
  fs !! f = Some st -> is_done st = true ->
  fold_left (fun fs f => settle f s fs) l fs !! f = Some st.
Proof.
  revert fs. induction l as [|f0 l IH]; intros fs Hf Hd; simpl; [done|].
  apply IH; [|done]. by apply settle_keeps.
Qed.

Lemma settle_all_dom l s fs f st :
  fold_left (fun fs f => settle f s fs) l fs !! f = Some st -> is_Some (fs !! f).
Proof.
  revert fs st. induction l as [|f0 l IH]; intros fs st; simpl; [by eexists|].
  intros H. destruct (IH _ _ H) as [st' H']. by apply settle_dom in H'.
Qed.

Lemma values_elem (m : gmap string nat) i f : m !! i = Some f -> f ∈ (map_to_list m).*2.
Proof. intros H. apply list_elem_of_fmap. exists (i, f). by rewrite elem_of_map_to_list. Qed.

Lemma fail_settles c f :
  futures_inv c -> futures (_fail_pending_futures c) !! f ≠ Some FutPending.
Proof.
  intros [Hp _] H. unfold _fail_pending_futures in H. simpl in H.
  apply settle_all_spec in H as [H Ha]; [|done].
  apply settle_all_spec in H as [H Hf]; [|done].
  destruct (Hp _ H) as [[i Hi]|[i Hi]]; apply values_elem in Hi; done.
Qed.

Lemma fail_inv c : futures_inv c -> futures_inv (_fail_pending_futures c).
Proof.
  intros Hc. split.
  - intros f Hf. by apply fail_settles in Hf.
  - intros f s Hf. unfold _fail_pending_futures in Hf. simpl in Hf.
    apply settle_all_dom in Hf as [s1 Hf]. apply settle_all_dom in Hf as [s2 Hf].
    by apply (fi_below _ Hc f s2).
Qed.

Lemma pop_future_inv i s c : is_done s = true -> futures_inv c -> futures_inv (pop_future i s c).
Proof.
  intros Hs [Hp Hb]. unfold pop_future. destruct (pending_futures c !! i) as [f|] eqn:Hi; [|done].
  split; simpl.
  - intros f' Hf'. apply settle_done in Hf' as [Hf' Hne]; [|done].
    destruct (Hp _ Hf') as [[i' Hi']|Ha]; [|by right]. left. exists i'. simpl.
    rewrite lookup_delete_ne; [done|]. intros ->. congruence.
  - intros f' st Hf'. destruct (settle_dom _ _ _ _ _ Hf') as [s' Hs']. by eapply Hb.
Qed.

Lemma pop_ack_inv i s c : is_done s = true -> futures_inv c -> futures_inv (pop_ack i s c).
Proof.
  intros Hs [Hp Hb]. unfold pop_ack. destruct (pending_acks c !! i) as [f|] eqn:Hi; [|done].
  split; simpl.
  - intros f' Hf'. apply settle_done in Hf' as [Hf' Hne]; [|done].
    destruct (Hp _ Hf') as [Ha|[i' Hi']]; [by left|]. right. exists i'. simpl.
    rewrite lookup_delete_ne; [done|]. intros ->. congruence.
  - intros f' st Hf'. destruct (settle_dom _ _ _ _ _ Hf') as [s' Hs']. by eapply Hb.
Qed.

(** The same cells and tables. *)
Lemma futures_inv_same c c' :
  futures c' = futures c -> next_future c' = next_future c ->
  pending_futures c' = pending_futures c -> pending_acks c' = pending_acks c ->
  futures_inv c -> futures_inv c'.
Proof.
  intros H1 H2 H3 H4 [Hp Hb]. split; unfold registered; rewrite ?H1, ?H2, ?H3, ?H4; done.
Qed.

Lemma dispatch_inv m c : futures_inv c -> futures_inv (_dispatch m c).
Proof.
  intros Hc. unfold _dispatch. destruct (op m); try done.
  - unfold _dispatch_deliver. destruct (_ && _); [by apply pop_future_inv|].
    case_match; by eapply futures_inv_same; [| | | |exact Hc].
  - by apply pop_ack_inv.
  - unfold _dispatch_error.
    destruct (pending_futures c !! id m); [by apply pop_future_inv|by apply pop_ack_inv].
  - by apply pop_future_inv.
Qed.

Lemma begin_lookup_fresh (fs : gmap nat FutState) n f :
  (forall f s, fs !! f = Some s -> f < n) -> fs !! f = Some FutPending -> f ≠ n.
Proof. intros Hb Hf ->. apply Hb in Hf. lia. Qed.

Lemma client_step_inv c l : fresh_ids c l -> futures_inv c -> futures_inv (client_step c l).
Proof.
  intros Hl Hc. destruct l as [m sent|m sent|m|i|i|]; simpl in *.
  - destruct Hc as [Hp Hb].
    assert (H : futures_inv (request_begin m false c)).
    { split; simpl.
      - intros f. rewrite lookup_insert. case_decide as Hf.
        { intros _. left. exists (id m). subst. apply (lookup_insert_eq _ (id m)). }
        intros Hpf. destruct (Hp _ Hpf) as [[i Hi]|Ha]; [|by right].
        left. exists i. etrans; [apply (lookup_insert_ne _ (id m))|done]. intros Heq. congruence.
      - intros f s. rewrite lookup_insert. case_decide; [lia|].
        intros H0. apply Hb in H0. lia. }
    destruct sent; [|done]. by eapply futures_inv_same; [| | | |exact H].
  - destruct Hc as [Hp Hb].
    assert (H : futures_inv (send_begin m false c)).
    { split; simpl.
      - intros f. rewrite lookup_insert. case_decide as Hf.
        { intros _. right. exists (id m). subst. apply (lookup_insert_eq _ (id m)). }
        intros Hpf. destruct (Hp _ Hpf) as [Ha|[i Hi]]; [by left|].
        right. exists i. etrans; [apply (lookup_insert_ne _ (id m))|done]. intros Heq. congruence.
      - intros f s. rewrite lookup_insert. case_decide; [lia|].
        intros H0. apply Hb in H0. lia. }
    destruct sent; [|done]. by eapply futures_inv_same; [| | | |exact H].
  - by apply dispatch_inv.
  - by apply pop_future_inv.
  - by apply pop_ack_inv.
  - by apply fail_inv; eapply futures_inv_same; [| | | |exact Hc].
Qed.

Lemma client_reach_inv c : client_reach c -> futures_inv c.
Proof.
  induction 1 as [|c l Hr IH Hl]; [|by apply client_step_inv].
  split; intros f; simpl; intros H; by rewrite lookup_empty in H || intros.
Qed.

(** A settled future keeps its outcome. *)
Lemma pop_future_keeps i s c f st :
  futures c !! f = Some st -> is_done st = true -> futures (pop_future i s c) !! f = Some st.
Proof. intros Hf Hd. unfold pop_future. destruct (pending_futures c !! i); [|done]. by apply settle_keeps. Qed.

Lemma pop_ack_keeps i s c f st :
  futures c !! f = Some st -> is_done st = true -> futures (pop_ack i s c) !! f = Some st.
Proof. intros Hf Hd. unfold pop_ack. destruct (pending_acks c !! i); [|done]. by apply settle_keeps. Qed.

Lemma step_keeps c l f st :
  futures_inv c -> futures c !! f = Some st -> is_done st = true ->
  futures (client_step c l) !! f = Some st.
Proof.
  intros Hc Hf Hd. pose proof (fi_below _ Hc _ _ Hf) as Hlt.
  destruct l as [m sent|m sent|m|i|i|]; simpl.
  - unfold request_begin. destruct sent; simpl; rewrite lookup_insert_ne by lia; done.
  - unfold send_begin. destruct sent; simpl; rewrite lookup_insert_ne by lia; done.
  - unfold _dispatch, _dispatch_deliver, _dispatch_ack, _dispatch_error, _dispatch_timeout.
    destruct (op m); try done; try (by apply pop_future_keeps); try (by apply pop_ack_keeps).
    + destruct (_ && _); [by apply pop_future_keeps|]. by case_match.
    + destruct (pending_futures c !! id m); [by apply pop_future_keeps|by apply pop_ack_keeps].
  - by apply pop_future_keeps.
  - by apply pop_ack_keeps.
  - unfold close, _fail_pending_futures. simpl. by repeat apply settle_all_keeps.
Qed.

(** No caller hangs and no outcome changes.  In every state the client
    reaches with fresh message ids, a future nobody has settled is still in
    one of the two tables, so that closing the client settles every future
    it ever created; and whatever arrives, a future once settled keeps its
    outcome. *)
Theorem futures_settle c l :
  client_reach c -> fresh_ids c l ->
  let c' := client_step c l in
  (forall f, futures c' !! f = Some FutPending -> registered c' f) /\
  (forall f st, futures c !! f = Some st -> is_done st = true -> futures c' !! f = Some st) /\
  (forall f, futures (close c') !! f ≠ Some FutPending).
Proof.
  intros Hr Hl c'. pose proof (client_reach_inv _ Hr) as Hc.
  pose proof (client_step_inv _ _ Hl Hc) as Hc'.
  split; [by apply fi_pending|]. split; [by intros; apply step_keeps|].
  intros f. apply (fail_settles (set_wire (wire c') true c')).
  by eapply futures_inv_same; [| | | |exact Hc'].
Qed.

(** ** Correlation *)

(** Replies, errors and timeouts reach the request they belong to.  When
    [request] awaits future [f] under the message id [i], a delivered frame
    with that [reply_to] settles [f] with the reply, an ERROR frame with
    that id settles it with the broker's code and text, a TIMEOUT frame with
    a timeout; each takes the entry out of the table, touches no other
    future, and an ACK of the request leaves it waiting. *)
Theorem reply_correlation c i f m :
  i ≠ "" -> pending_futures c !! i = Some f -> futures c !! f = Some FutPending ->
  pending_acks c !! i = None ->
  let c' := _dispatch m c in
  (op m = DELIVER -> reply_to m = Some i -> futures c' !! f = Some (FutReply m)) /\
  (op m = ERROR -> id m = i -> futures c' !! f =
     Some (FutConnError ("Broker error " +:+ show_opt (code m) +:+ ": "
                         +:+ show_opt (message m)))) /\
  (op m = TIMEOUT -> id m = i -> exists text, futures c' !! f = Some (FutTimeout text)) /\
  (op m = ACK -> id m = i -> c' = c) /\
  ((op m = DELIVER /\ reply_to m = Some i) \/ ((op m = ERROR \/ op m = TIMEOUT) /\ id m = i) ->
     pending_futures c' = delete i (pending_futures c) /\
     listen_queue c' = listen_queue c /\ queues c' = queues c /\
     forall f', f' ≠ f -> futures c' !! f' = futures c !! f').
Proof.
  intros Hi Hpf Hf Hpa c'.
  assert (Hpop : forall s, pop_future i s c =
    set_futures (<[f := s]> (futures c)) (next_future c)
      (delete i (pending_futures c)) (pending_acks c) c).
  { intros s. unfold pop_future, settle. by rewrite Hpf, Hf. }
  assert (Hd : op m = DELIVER -> reply_to m = Some i ->
    c' = pop_future i (FutReply m) c).
  { intros Hop Hr. unfold c', _dispatch, _dispatch_deliver. rewrite Hop, Hr.
    rewrite (truthy_some _ Hi). simpl. rewrite bool_decide_eq_true_2; [done|]. by eexists. }
  assert (He : op m = ERROR -> id m = i -> c' = pop_future i (FutConnError
    ("Broker error " +:+ show_opt (code m) +:+ ": " +:+ show_opt (message m))) c).
  { intros Hop Hid. unfold c', _dispatch, _dispatch_error. by rewrite Hop, Hid, Hpf. }
  assert (Ht : op m = TIMEOUT -> id m = i -> c' = pop_future i (FutTimeout
    ("Request " +:+ i +:+ " timed out: " +:+ show_opt (message m))) c).
  { intros Hop Hid. unfold c', _dispatch, _dispatch_timeout. by rewrite Hop, Hid. }
  split; [intros H1 H2; rewrite (Hd H1 H2), Hpop; apply lookup_insert_eq|].
  split; [intros H1 H2; rewrite (He H1 H2), Hpop; apply lookup_insert_eq|].
  split; [intros H1 H2; eexists; rewrite (Ht H1 H2), Hpop; apply lookup_insert_eq|].
  split.
  { intros H1 H2. unfold c', _dispatch, _dispatch_ack, pop_ack. by rewrite H1, H2, Hpa. }
  intros H. assert (Hx : exists s, c' = pop_future i s c).
  { destruct H as [[H1 H2]|[[H1|H1] H2]]; eexists; eauto. }
  destruct Hx as [s ->]. rewrite Hpop. simpl. repeat (split; [done|]).
  intros f' Hne. by rewrite lookup_insert_ne.
Qed.

(** ** Frames the broker accepts *)

Lemma validate_built m :
  Forall (fun f => field_present m f = true) (_REQUIRED_FIELDS (op m)) ->
  (forall p, payload m = Some p -> (payload_bytes p <= DEFAULT_NMB_MAX_PAYLOAD_BYTES)%Z) ->
  validate_frame m = inr tt.
Proof. intros H1 H2. by apply validate_frame_ok. Qed.

Lemma stream_from_elem ids to ty sid n chunks m :
  m ∈ stream_from ids to ty sid n chunks ->
  exists k last p, m = stream_frame (ids k) to ty sid k last p /\ (p = [] \/ p ∈ chunks).
Proof.
  revert n. induction chunks as [|p chunks IH]; intros n; simpl; intros Hin.
  - apply list_elem_of_singleton in Hin as ->. exists n, true, []. split; [done|by left].
  - apply elem_of_cons in Hin as [->|Hin].
    + exists n, false, p. split; [done|]. right. left.
    + destruct (IH _ Hin) as (k & last & q & -> & Hq). exists k, last, q.
      split; [done|]. destruct Hq as [Hq|Hq]; [by left|right; by right].
Qed.

(** The broker accepts what the client sends.  Every frame the client's
    methods build, with a payload (or stream chunks) within the size limit,
    is a client operation, and passes the broker's validation once stamped
    with the client's identity. *)
Theorem client_frames_accepted s now i to ty p t ch orig ids sid chunks m :
  (payload_bytes p <= DEFAULT_NMB_MAX_PAYLOAD_BYTES)%Z ->
  (forall q, q ∈ chunks -> (payload_bytes q <= DEFAULT_NMB_MAX_PAYLOAD_BYTES)%Z) ->
  m ∈ [send_frame i to ty p; request_frame i to ty p t; reply_frame i orig ty p;
       publish_frame i ch ty p; channel_frame SUBSCRIBE i ch;
       channel_frame UNSUBSCRIBE i ch] ++ stream ids to ty sid chunks ->
  client_op (op m) /\ validate_frame (stamp_identity s now m) = inr tt.
Proof.
  intros Hp Hch Hm.
  assert (Hnil : (payload_bytes [] <= DEFAULT_NMB_MAX_PAYLOAD_BYTES)%Z)
    by (vm_compute; discriminate).
  apply elem_of_app in Hm as [Hm|Hm].
  - assert (Hall : Forall (fun m => client_op (op m) /\
      validate_frame (stamp_identity s now m) = inr tt)
      [send_frame i to ty p; request_frame i to ty p t; reply_frame i orig ty p;
       publish_frame i ch ty p; channel_frame SUBSCRIBE i ch; channel_frame UNSUBSCRIBE i ch]).
    { repeat constructor; apply validate_built; simpl;
        try (repeat constructor; done); intros q Hq; by simplify_eq. }
    rewrite List.Forall_forall in Hall. apply Hall. by apply list_elem_of_In.
  - apply stream_from_elem in Hm as (k & last & q & -> & Hq). split; [exact I|].
    apply validate_built; simpl; [repeat constructor; done|].
    intros q' [= <-]. destruct Hq as [->|Hq]; [done|by apply Hch].
Qed.

(** ** Streaming end to end *)

Lemma stream_ops ids to ty sid n chunks :
  Forall (fun m => op m = STREAM /\ to_sandbox m = Some to /\ reply_to m = None /\
                   channel m = None) (stream_from ids to ty sid n chunks).
Proof. revert n. induction chunks as [|p chunks IH]; intros n; repeat constructor. apply IH. Qed.

Lemma stream_contents ids to ty sid n chunks :
  map (fun m => (payload m, seq m, done_ m)) (stream_from ids to ty sid n chunks) =
  imap (fun k p => (Some p, Some (n + Z.of_nat k)%Z, Some false)) chunks ++
  [(Some [], Some (n + Z.of_nat (length chunks))%Z, Some true)].
Proof.
  revert n. induction chunks as [|p chunks IH]; intros n; simpl.
  - by rewrite Z.add_0_r.
  - rewrite Z.add_0_r. f_equal. rewrite IH. f_equal.
    + apply imap_ext. intros k q _. simpl. do 3 f_equal. lia.
    + do 4 f_equal. lia.
Qed.

Lemma handle_streams_outbox sok s ws to wt ms b :
  (forall w m, sok w m = true) -> to ≠ "" -> connections b !! to = Some wt ->
  Forall (fun m => to_sandbox m = Some to) ms ->
  let b' := fold_left (fun b m => _handle_stream sok s ws m b) ms b in
  connections b' = connections b /\
  outbox b' = outbox b ++ map (fun m => (wt, _make_deliver m)) ms.
Proof.
  intros Hok Hto. revert b. induction ms as [|m ms IH]; intros b Hc Hms; simpl.
  { by rewrite app_nil_r. }
  apply Forall_cons_iff in Hms as [Hm Hms].
  assert (Hb : _handle_stream sok s ws m b = emit wt (_make_deliver m) b).
  { unfold _handle_stream. rewrite Hm, (truthy_some _ Hto). simpl. rewrite Hc.
    unfold ws_send. by rewrite Hok. }
  rewrite Hb. destruct (IH (emit wt (_make_deliver m) b)) as [H1 H2]; [done|done|].
  split; [by rewrite H1|]. rewrite H2. simpl. by rewrite <- app_assoc.
Qed.

Lemma receive_unmatched ms c :
  Forall (fun m => op m = DELIVER /\ reply_to m = None /\ channel m = None) ms ->
  fold_left (fun c m => _dispatch m c) ms c =
  set_listen (fold_left (_put_or_drop_oldest DEFAULT_NMB_LISTEN_QUEUE_SIZE) ms
                (listen_queue c)) c.
Proof.
  revert c. induction ms as [|m ms IH]; intros c Hms; simpl; [by destruct c|].
  apply Forall_cons_iff in Hms as [(Hop & Hr & Hch) Hms]. rewrite IH by done.
  unfold _dispatch, _dispatch_deliver. rewrite Hop, Hr, Hch. by destruct c.
Qed.

(** A stream arrives in order.  When the target is connected and sends
    succeed, routing the frames of [stream] makes the broker deliver them to
    the target's socket, in order and stamped with the sender; they carry
    the chunks numbered 0, 1, 2, ... and a final empty frame that alone has
    [done] set; and the receiving client's listen queue ends up with the
    newest 1000 of what it held followed by them. *)
Theorem stream_end_to_end sok s ws now ids to ty sid chunks wt b c :
  (forall w m, sok w m = true) -> to ≠ "" -> connections b !! to = Some wt ->
  length (listen_queue c) <= DEFAULT_NMB_LISTEN_QUEUE_SIZE ->
  let frames := map (stamp_identity s now) (stream ids to ty sid chunks) in
  let delivered := map _make_deliver frames in
  outbox (fold_left (fun b m => _handle_stream sok s ws m b) frames b) =
    outbox b ++ map (fun m => (wt, m)) delivered /\
  map (fun m => (payload m, seq m, done_ m)) delivered =
    imap (fun k p => (Some p, Some (Z.of_nat k), Some false)) chunks ++
    [(Some [], Some (Z.of_nat (length chunks)), Some true)] /\
  (forall m, m ∈ delivered -> from_sandbox m = Some s /\ stream_id m = Some sid) /\
  listen_queue (fold_left (fun c m => _dispatch m c) delivered c) =
    newest DEFAULT_NMB_LISTEN_QUEUE_SIZE (listen_queue c ++ delivered).
Proof.
  intros Hok Hto Hc Hq frames delivered.
  pose proof (stream_ops ids to ty sid 0%Z chunks) as Hops. fold (stream ids to ty sid chunks) in Hops.
  split.
  - destruct (handle_streams_outbox sok s ws to wt frames b) as [_ ->]; [done|done|done| |].
    + apply List.Forall_map. eapply List.Forall_impl; [|exact Hops]. by intros m (_ & ? & _).
    + unfold delivered. by rewrite map_map.
  - split; [|split].
    + unfold delivered, frames. rewrite !map_map. exact (stream_contents ids to ty sid 0%Z chunks).
    + intros m Hm. apply list_elem_of_fmap in Hm as (m1 & -> & Hm).
      apply list_elem_of_fmap in Hm as (m2 & -> & Hm).
      apply stream_from_elem in Hm as (k & last & p & -> & _). done.
    + rewrite receive_unmatched.
      * rewrite <- (newest_short DEFAULT_NMB_LISTEN_QUEUE_SIZE (listen_queue c)) at 1 by done.
        apply put_all_newest. unfold DEFAULT_NMB_LISTEN_QUEUE_SIZE. lia.
      * unfold delivered, frames. rewrite map_map. apply List.Forall_map.
        eapply List.Forall_impl; [|exact Hops]. by intros m (_ & _ & ? & ?).
Qed.

(** ** Witnesses *)

Definition waiting_client : Client :=
  client_step new_client (CRequest (request_frame "r1" "worker" "task" [] 5%Z) true).

Lemma waiting_reach : client_reach waiting_client.
Proof. apply cr_step; [constructor|reflexivity]. Qed.

Lemma futures_settle_witness :
  futures waiting_client !! 0 = Some FutPending /\
  forall f, futures (close (client_step waiting_client (CReceive (new_message ACK "r1")))) !! f
            ≠ Some FutPending.
Proof.
  split; [reflexivity|].
  apply (futures_settle waiting_client (CReceive (new_message ACK "r1"))).
  - exact waiting_reach.
  - exact I.
Defined.

Definition worker_reply : NMBMessage :=
  _make_deliver (stamp_identity "worker" 7%Z
    (reply_frame "p1" (request_frame "r1" "worker" "task" [] 5%Z) "done" [])).

Lemma reply_correlation_witness :
  futures (_dispatch worker_reply waiting_client) !! 0 = Some (FutReply worker_reply).
Proof.
  apply (reply_correlation waiting_client "r1" 0 worker_reply).
  - discriminate.
  - reflexivity.
  - reflexivity.
  - reflexivity.
  - reflexivity.
  - reflexivity.
Defined.

Lemma client_frames_accepted_witness :
  client_op SEND /\ validate_frame
    (stamp_identity "a" 1%Z (send_frame "i" "b" "task" [("n", JInt 3)])) = inr tt.
Proof.
  apply (client_frames_accepted "a" 1%Z "i" "b" "task" [("n", JInt 3)] 1%Z "ch"
    (new_message ACK "o") (fun _ => "k") "sid" [] (send_frame "i" "b" "task" [("n", JInt 3)])).
  - vm_compute. discriminate.
  - intros q Hq. set_solver.
  - left.
Defined.

Lemma stream_end_to_end_witness :
  let frames := map (stamp_identity "a" 9%Z)
    (stream show_Z "c" "log" "sid" [[("line", JStr "one")]; [("line", JStr "two")]]) in
  let delivered := map _make_deliver frames in
  length delivered = 3 /\
  listen_queue (fold_left (fun c m => _dispatch m c) delivered new_client) =
    newest DEFAULT_NMB_LISTEN_QUEUE_SIZE ([] ++ delivered).
Proof.
  split; [reflexivity|].
  apply (stream_end_to_end every_send_ok "a" 1 9%Z show_Z "c" "log" "sid"
    [[("line", JStr "one")]; [("line", JStr "two")]] 3 (br connected_state) new_client).
  - reflexivity.
  - discriminate.
  - vm_compute. reflexivity.
  - simpl. lia.
Defined.
