(* ===== verification/ClientSession.v ===== *)
(** * ClientSession

    The life of a [MessageBus] ([nmb/client.py]): connecting with retries,
    the receive loop, closing, and the coroutines of its callers, which wait
    for an ACK, a reply or a message.

    Every coroutine is a task of [tasks] and stands at one of its [await]s;
    a label starts one or resumes one with what it waited for.  The frames
    that are sent and what arrives change the [Client] of [Client].

    Theorems: who is woken when the connection of a [MessageBus] ends: every
    caller that waits for an ACK or a reply, every listener at its next poll,
    but no subscriber that waits for a message. *)

From S2P Require Import Prelude Json Messages Broker Client ClientTheorems.

(** ** State *)

(** What a call of the bus may raise. *)
Inductive BusExc :=
| NMBConnectionError (text : string)
| ConnectionClosed
| TimeoutError (text : string)
| UnicodeDecodeError
| HandshakeError (text : string)
| CancelledError.

(** How a coroutine ends: with nothing, with the reply, or with an exception. *)
Inductive Outcome :=
| Returned (reply : option NMBMessage)
| Raised (exc : BusExc).

(** A [SEND], [PUBLISH] or [SUBSCRIBE] waits for its ACK, a [REQUEST] for its
    reply. *)
Inductive Waits := ForAck | ForReply.

Inductive Task :=
| Created
| Connecting
| Retrying (max_retries : Z) (attempt : nat)
| Backoff (max_retries : Z) (attempt : nat)
| LoopCreated
| LoopReading (socket : nat)
| LoopCancelled (started : bool)
| Calling (w : Waits) (m : NMBMessage) (f : nat)
| SubAck (m : NMBMessage) (f : nat) (unsub channel : string) (q : nat)
| SubGet (unsub channel : string) (q : nat)
| SubBody (m : NMBMessage) (unsub channel : string) (q : nat)
| Listening
| ListenBody (m : NMBMessage)
| CancellingLoop (t : nat)
| ClosingSocket
| Ended (o : Outcome).

(** [open_sockets]: the connections neither side has closed. *)
Record Session := {
  bus : Client;
  ws : option nat;
  recv_task : option nat;
  open_sockets : gset nat;
  next_socket : nat;
  tasks : gmap nat Task;
  next_task : nat
}.

(** [MessageBus(sandbox_id)] *)
Definition new_session : Session :=
  {| bus := new_client; ws := None; recv_task := None; open_sockets := ∅; next_socket := 0;
     tasks := ∅; next_task := 0 |}.

Definition set_bus (c : Client) (s : Session) : Session :=
  {| bus := c; ws := ws s; recv_task := recv_task s; open_sockets := open_sockets s;
     next_socket := next_socket s; tasks := tasks s; next_task := next_task s |}.

Definition set_task (t : nat) (x : Task) (s : Session) : Session :=
  {| bus := bus s; ws := ws s; recv_task := recv_task s; open_sockets := open_sockets s;
     next_socket := next_socket s; tasks := <[t := x]> (tasks s); next_task := next_task s |}.

Definition set_ws (k : option nat) (live : gset nat) (s : Session) : Session :=
  {| bus := bus s; ws := k; recv_task := recv_task s; open_sockets := live;
     next_socket := next_socket s; tasks := tasks s; next_task := next_task s |}.

(** [asyncio.create_task] *)
Definition create_task (x : Task) (s : Session) : Session :=
  {| bus := bus s; ws := ws s; recv_task := recv_task s; open_sockets := open_sockets s;
     next_socket := next_socket s; tasks := <[next_task s := x]> (tasks s);
     next_task := S (next_task s) |}.

Definition set_closed (b : bool) (s : Session) : Session := set_bus (set_wire (wire (bus s)) b (bus s)) s.

Definition ended (t : nat) (o : Outcome) (s : Session) : Session := set_task t (Ended o) s.

(** ** Sending *)

(** [self._conn.send]: the exception of [_conn], or the one of the socket. *)
Definition conn_send (s : Session) : BusExc + unit :=
  match ws s with
  | None => inl (NMBConnectionError ("Not connected " +:+ "— call connect() first"))
  | Some k => if decide (k ∈ open_sockets s) then inr tt else inl ConnectionClosed
  end.

Definition sends (s : Session) : bool := match conn_send s with inr _ => true | inl _ => false end.

(** [_send_and_await_ack] and [request] up to their first [await]: the future
    is registered first, and stays registered when sending raises. *)
Definition call_begin (t : nat) (w : Waits) (m : NMBMessage) (s : Session) : Session :=
  let f := next_future (bus s) in
  let c := match w with
           | ForAck => send_begin m (sends s) (bus s)
           | ForReply => request_begin m (sends s) (bus s)
           end in
  match conn_send s with
  | inl exc => ended t (Raised exc) (set_bus c s)
  | inr _ => set_task t (Calling w m f) (set_bus c s)
  end.

(** [reply]; one chunk of [stream] sends the same way. *)
Definition send_only (t : nat) (m : NMBMessage) (s : Session) : Session :=
  match conn_send s with
  | inl exc => ended t (Raised exc) s
  | inr _ => ended t (Returned None) (set_bus (set_wire (wire (bus s) ++ [m]) (closed (bus s)) (bus s)) s)
  end.

(** What awaiting a settled future gives. *)
Definition future_outcome (x : FutState) : option Outcome :=
  match x with
  | FutPending => None
  | FutReply m => Some (Returned (Some m))
  | FutAcked => Some (Returned None)
  | FutConnError text => Some (Raised (NMBConnectionError text))
  | FutTimeout text => Some (Raised (TimeoutError text))
  | FutCancelled => Some (Raised CancelledError)
  end.

(** [wait_for] gives up: the future is cancelled and its entry popped; an ACK
    that never came is a connection error. *)
Definition time_out (w : Waits) (m : NMBMessage) (s : Session) : Session :=
  match w with
  | ForAck => set_bus (ack_local_timeout (id m) (bus s)) s
  | ForReply => set_bus (request_local_timeout (id m) (bus s)) s
  end.

(** [timeout_text] is [DEFAULT_NMB_ACK_TIMEOUT] as Python prints it. *)
Definition timeout_text : string := "10.0".

Definition timed_out (w : Waits) (m : NMBMessage) : BusExc :=
  match w with
  | ForAck => NMBConnectionError ("No ACK for " +:+ op_value (op m) +:+ " " +:+ id m
                                  +:+ " within " +:+ timeout_text +:+ "s")
  | ForReply => TimeoutError ""
  end.

(** Cancelling the caller cancels the future; its entry stays. *)
Definition cancel_future (f : nat) (s : Session) : Session :=
  let c := bus s in
  set_bus (set_futures (settle f FutCancelled (futures c)) (next_future c)
             (pending_futures c) (pending_acks c) c) s.

(** ** Connecting *)

(** How [websockets.connect] ends: with [refused] an [OSError] or a
    [WebSocketException]. *)
Inductive Handshake := HsOpened | HsRefused (text : string) | HsOther (text : string).

Section session.
(** The broker's address; how a received frame is decoded and parsed. *)
Context (broker_url : string) (decode : list Byte.byte -> option string)
  (from_json : string -> option NMBMessage).

(** A frame is text or bytes. *)
Inductive RawFrame := Text (s : string) | Bytes (b : list Byte.byte).

(** The rest of [connect] after the handshake. *)
Definition connected (s : Session) : Session :=
  let k := next_socket s in
  create_task LoopCreated
    {| bus := bus (set_closed false s); ws := Some k; recv_task := Some (next_task s);
       open_sockets := {[k]} ∪ open_sockets s; next_socket := S k; tasks := tasks s;
       next_task := next_task s |}.

Definition refused (text : string) : BusExc :=
  NMBConnectionError ("Cannot connect to broker at " +:+ broker_url +:+ ": " +:+ text).

Definition connect_end (t : nat) (h : Handshake) (s : Session) : Session :=
  match h with
  | HsOpened => ended t (Returned None) (connected s)
  | HsRefused text => ended t (Raised (refused text)) s
  | HsOther text => ended t (Raised (HandshakeError text)) s
  end.

(** One attempt of [connect_with_retry]: only [NMBConnectionError] is
    repeated, and [stop_after_attempt] counts the attempts made. *)
Definition attempt_end (t : nat) (max_retries : Z) (n : nat) (h : Handshake) (s : Session) : Session :=
  match h with
  | HsRefused text =>
      if (max_retries <=? Z.of_nat n)%Z then ended t (Raised (refused text)) s
      else set_task t (Backoff max_retries n) s
  | _ => connect_end t h s
  end.

(** ** The receive loop *)

Definition is_live (x : Task) : bool :=
  match x with LoopCreated | LoopReading _ | LoopCancelled _ => true | _ => false end.

Definition is_ended (x : Task) : bool := match x with Ended _ => true | _ => false end.

(** The [finally] of [_receive_loop]. *)
Definition loop_finally (s : Session) : Session := set_bus (_fail_pending_futures (bus s)) s.

(** One frame; [raw.decode()] stands outside the handler. *)
Definition receive (t : nat) (raw : RawFrame) (s : Session) : Session :=
  match (match raw with Text x => Some x | Bytes b => decode b end) with
  | None => ended t (Raised UnicodeDecodeError) (loop_finally s)
  | Some text =>
      match from_json text with
      | None => s
      | Some m => set_bus (_dispatch m (bus s)) s
      end
  end.

(** The first turn of the loop takes the connection. *)
Definition loop_start (t : nat) (s : Session) : Session :=
  match ws s with
  | Some k => set_task t (LoopReading k) s
  | None => ended t (Raised (NMBConnectionError ("Not connected " +:+ "— call connect() first")))
                  (loop_finally s)
  end.

(** ** Closing *)

Definition close_end (t : nat) (s : Session) : Session :=
  ended t (Returned None) (set_bus (_fail_pending_futures (bus s)) s).

(** From the socket on. *)
Definition close_socket (t : nat) (s : Session) : Session :=
  match ws s with
  | Some k => set_task t ClosingSocket (set_ws (ws s) (open_sockets s ∖ {[k]}) s)
  | None => close_end t s
  end.

(** [close] up to its first [await]. *)
Definition close_begin (t : nat) (s : Session) : Session :=
  let s := set_closed true s in
  match (r ← recv_task s; x ← tasks s !! r; Some (r, x)) with
  | Some (r, LoopCreated) => set_task t (CancellingLoop r) (set_task r (LoopCancelled false) s)
  | Some (r, LoopReading _) => set_task t (CancellingLoop r) (set_task r (LoopCancelled true) s)
  | Some (r, LoopCancelled _) => set_task t (CancellingLoop r) s
  | _ => close_socket t s
  end.

(** ** Subscriptions and listening *)

(** The [finally] of [subscribe]: what sending the UNSUBSCRIBE raises is
    swallowed. *)
Definition sub_finally (unsub ch : string) (q : nat) (s : Session) : Session :=
  set_bus (subscribe_end unsub ch q (sends s) (bus s)) s.

Definition sub_leave (t : nat) (o : Outcome) (unsub ch : string) (q : nat) (s : Session) : Session :=
  ended t o (sub_finally unsub ch q s).

Definition sub_begin (t : nat) (i unsub ch : string) (s : Session) : Session :=
  let f := next_future (bus s) in
  let '(c, q) := subscribe_begin i ch (sends s) (bus s) in
  match conn_send s with
  | inl exc => sub_leave t (Raised exc) unsub ch q (set_bus c s)
  | inr _ => set_task t (SubAck (channel_frame SUBSCRIBE i ch) f unsub ch q) (set_bus c s)
  end.

(** [while not self._closed] *)
Definition sub_turn (t : nat) (unsub ch : string) (q : nat) (s : Session) : Session :=
  if closed (bus s) then sub_leave t (Returned None) unsub ch q s
  else set_task t (SubGet unsub ch q) s.

Definition listen_turn (t : nat) (s : Session) : Session :=
  if closed (bus s) then ended t (Returned None) s else set_task t Listening s.

(** ** Steps *)

Inductive Program :=
| PConnect
| PConnectWithRetry (max_retries : Z)
| PClose
| PSend (m : NMBMessage)
| PRequest (m : NMBMessage)
| PReply (m : NMBMessage)
| PSubscribe (i unsub channel : string)
| PListen.

(** What resumes a task: the end of a handshake; its future is settled; its
    timeout; a frame, or the end of the connection; a message of its queue;
    its turn; its caller leaves it. *)
Inductive Event :=
| EvHandshake (h : Handshake)
| EvFuture
| EvTimeout
| EvFrame (raw : RawFrame)
| EvEnd
| EvItem
| EvTurn
| EvBreak.

Inductive Label :=
| Spawn (p : Program)
| Resume (t : nat) (e : Event)
| PeerCloses (k : nat).

Definition spawn (p : Program) (s : Session) : Session :=
  let t := next_task s in
  let s := create_task Created s in
  match p with
  | PConnect => set_task t Connecting s
  | PConnectWithRetry n => set_task t (Retrying n 1) s
  | PClose => close_begin t s
  | PSend m => call_begin t ForAck m s
  | PRequest m => call_begin t ForReply m s
  | PReply m => send_only t m s
  | PSubscribe i unsub ch => sub_begin t i unsub ch s
  | PListen => listen_turn t s
  end.

(** [None]: the task does not wait for this. *)
Definition resume (t : nat) (e : Event) (s : Session) : option Session :=
  match tasks s !! t, e with
  | Some Connecting, EvHandshake h => Some (connect_end t h s)
  | Some (Retrying n k), EvHandshake h => Some (attempt_end t n k h s)
  | Some (Backoff n k), EvTurn => Some (set_task t (Retrying n (S k)) s)
  | Some LoopCreated, EvTurn => Some (loop_start t s)
  | Some (LoopReading _), EvFrame raw => Some (receive t raw s)
  | Some (LoopReading k), EvEnd =>
      if decide (k ∈ open_sockets s) then None
      else Some (ended t (Returned None) (loop_finally s))
  | Some (LoopCancelled started), EvTurn =>
      Some (ended t (Returned None) (if started then loop_finally s else s))
  | Some (Calling w m f), EvFuture =>
      x ← futures (bus s) !! f; o ← future_outcome x; Some (ended t o s)
  | Some (Calling w m f), EvTimeout => Some (ended t (Raised (timed_out w m)) (time_out w m s))
  | Some (Calling w m f), EvBreak => Some (ended t (Raised CancelledError) (cancel_future f s))
  | Some (SubAck m f unsub ch q), EvFuture =>
      x ← futures (bus s) !! f; o ← future_outcome x;
      Some (match o with
            | Returned _ => sub_turn t unsub ch q s
            | Raised _ => sub_leave t o unsub ch q s
            end)
  | Some (SubAck m f unsub ch q), EvTimeout =>
      Some (sub_leave t (Raised (timed_out ForAck m)) unsub ch q (time_out ForAck m s))
  | Some (SubAck m f unsub ch q), EvBreak =>
      Some (sub_leave t (Raised CancelledError) unsub ch q (cancel_future f s))
  | Some (SubGet unsub ch q), EvItem =>
      '(m, c) ← subscription_get q (bus s); Some (set_task t (SubBody m unsub ch q) (set_bus c s))
  | Some (SubBody _ unsub ch q), EvTurn => Some (sub_turn t unsub ch q s)
  | Some (SubGet unsub ch q), EvBreak | Some (SubBody _ unsub ch q), EvBreak =>
      Some (sub_leave t (Returned None) unsub ch q s)
  | Some Listening, EvItem =>
      match listen_queue (bus s) with
      | m :: l => Some (set_task t (ListenBody m) (set_bus (set_listen l (bus s)) s))
      | [] => None
      end
  | Some Listening, EvTimeout => Some (listen_turn t s)
  | Some (ListenBody _), EvTurn => Some (listen_turn t s)
  | Some Listening, EvBreak | Some (ListenBody _), EvBreak => Some (ended t (Returned None) s)
  | Some (CancellingLoop r), EvTurn =>
      match tasks s !! r with
      | Some x => if is_ended x then Some (close_socket t s) else None
      | None => None
      end
  | Some ClosingSocket, EvTurn => Some (close_end t (set_ws None (open_sockets s) s))
  | _, _ => None
  end.

Definition step (s : Session) (l : Label) : option Session :=
  match l with
  | Spawn p => Some (spawn p s)
  | Resume t e => resume t e s
  | PeerCloses k => Some (set_ws (ws s) (open_sockets s ∖ {[k]}) s)
  end.

Fixpoint steps (s : Session) (ls : list Label) : option Session :=
  match ls with
  | [] => Some s
  | l :: ls => s ← step s l; steps s ls
  end.
End session.

(** ** What a step does to the client *)

Create HintDb bus.

(** The moves of the [Client] under the session; only a live receive loop
    dispatches. *)
Inductive bus_move (live : bool) (c : Client) : Client -> Prop :=
| bm_call l : fresh_ids c l -> (forall m, l ≠ CReceive m) -> bus_move live c (client_step c l)
| bm_receive m : live = true -> bus_move live c (_dispatch m c)
| bm_fail : bus_move live c (_fail_pending_futures c)
| bm_wire ms b : bus_move live c (set_wire ms b c)
| bm_cancel f : bus_move live c
    (set_futures (settle f FutCancelled (futures c)) (next_future c)
       (pending_futures c) (pending_acks c) c)
| bm_register cq : bus_move live c
    (set_queues cq (<[next_queue c := []]> (queues c)) (S (next_queue c)) c)
| bm_unregister cq : bus_move live c (set_queues cq (queues c) (next_queue c) c)
| bm_get q m l : queues c !! q = Some (m :: l) ->
    bus_move live c (set_queues (channel_queues c) (<[q := l]> (queues c)) (next_queue c) c)
| bm_listen m l : listen_queue c = m :: l -> bus_move live c (set_listen l c).

Inductive bus_moves (live : bool) (c : Client) : Client -> Prop :=
| bms_refl : bus_moves live c c
| bms_step c1 c2 : bus_moves live c c1 -> bus_move live c1 c2 -> bus_moves live c c2.

#[export] Hint Constructors bus_move bus_moves : bus.

Lemma bms_one live c c' : bus_move live c c' -> bus_moves live c c'.
Proof. eauto with bus. Qed.

Lemma bms_trans live c1 c2 c3 :
  bus_moves live c1 c2 -> bus_moves live c2 c3 -> bus_moves live c1 c3.
Proof. intros H. induction 1; eauto with bus. Qed.

(** The well-formedness of a client: its futures and its queues. *)
Record client_ok (c : Client) : Prop := {
  ck_futures : futures_inv c;
  ck_queues : forall q, is_Some (queues c !! q) -> q < next_queue c
}.

(** What is there stays there. *)
Record grows (c c' : Client) : Prop := {
  gr_futures : forall f, is_Some (futures c !! f) -> is_Some (futures c' !! f);
  gr_queues : forall q, is_Some (queues c !! q) -> is_Some (queues c' !! q)
}.

#[export] Instance grows_preorder : PreOrder grows.
Proof. split; [by split|]. intros c1 c2 c3 [H1 H2] [H3 H4]. split; eauto. Qed.

Lemma settle_some f st fs f' : is_Some (fs !! f') -> is_Some (settle f st fs !! f').
Proof. intros [x Hx]. rewrite settle_lookup, Hx. case_decide; [subst; rewrite Hx; destruct x|]; eauto. Qed.

Lemma settle_all_some l st fs f' :
  is_Some (fs !! f') -> is_Some (fold_left (fun fs f => settle f st fs) l fs !! f').
Proof. revert fs. induction l; intros fs H; simpl; auto using settle_some. Qed.

Lemma insert_some {A} (m : gmap nat A) k x k' : is_Some (m !! k') -> is_Some (<[k := x]> m !! k').
Proof. intros H. rewrite lookup_insert. case_decide; eauto. Qed.

#[export] Hint Resolve settle_some settle_all_some insert_some : bus.

Lemma put_some m l qs q : is_Some (qs !! q) <-> is_Some (fold_left (put_in m) l qs !! q).
Proof.
  revert qs. induction l as [|q0 l IH]; intros qs; simpl; [done|]. rewrite <- IH.
  unfold put_in. destruct (qs !! q0) eqn:Hq; [|done]. rewrite lookup_insert.
  case_decide; [subst; rewrite Hq|done]. split; eauto.
Qed.

(** Popping a future settles at most one. *)
Lemma pop_future_grows i st c : grows c (pop_future i st c).
Proof. unfold pop_future. destruct (pending_futures c !! i); split; simpl; auto with bus. Qed.

Lemma pop_ack_grows i st c : grows c (pop_ack i st c).
Proof. unfold pop_ack. destruct (pending_acks c !! i); split; simpl; auto with bus. Qed.

Lemma pop_future_queues i st c : queues (pop_future i st c) = queues c /\
  next_queue (pop_future i st c) = next_queue c /\ listen_queue (pop_future i st c) = listen_queue c.
Proof. unfold pop_future. by destruct (pending_futures c !! i). Qed.

Lemma pop_ack_queues i st c : queues (pop_ack i st c) = queues c /\
  next_queue (pop_ack i st c) = next_queue c /\ listen_queue (pop_ack i st c) = listen_queue c.
Proof. unfold pop_ack. by destruct (pending_acks c !! i). Qed.

#[export] Hint Resolve pop_future_grows pop_ack_grows : bus.

Lemma dispatch_grows m c : grows c (_dispatch m c).
Proof.
  unfold _dispatch, _dispatch_deliver, _dispatch_ack, _dispatch_error, _dispatch_timeout.
  destruct (op m); try reflexivity; auto with bus.
  - destruct (_ && _); auto with bus. case_match; split; simpl; auto.
    intros q. by rewrite <- put_some.
  - case_match; auto with bus.
Qed.

(** Dispatching creates no queue. *)
Lemma dispatch_queues m c :
  next_queue (_dispatch m c) = next_queue c /\
  forall q, is_Some (queues (_dispatch m c) !! q) -> is_Some (queues c !! q).
Proof.
  unfold _dispatch, _dispatch_deliver, _dispatch_ack, _dispatch_error, _dispatch_timeout.
  pose proof (pop_ack_queues) as Ha. pose proof pop_future_queues as Hf.
  destruct (op m); try done.
  - destruct (_ && _); [by destruct (Hf (default "" (reply_to m)) (FutReply m) c) as (-> & -> & _)|].
    case_match; simpl; split; auto. intros q. by rewrite <- put_some.
  - by destruct (Ha (id m) FutAcked c) as (-> & -> & _).
  - case_match; [edestruct Hf as (-> & -> & _)|edestruct Ha as (-> & -> & _)]; done.
  - by edestruct Hf as (-> & -> & _).
Qed.

Lemma client_step_grows c l : grows c (client_step c l).
Proof.
  destruct l as [m []|m []|m|i|i|]; simpl; auto using dispatch_grows with bus;
    try (by apply pop_future_grows); try (by apply pop_ack_grows); split; simpl; auto with bus.
Qed.

Lemma client_step_queues c l :
  (forall m, l ≠ CReceive m) ->
  queues (client_step c l) = queues c /\ next_queue (client_step c l) = next_queue c /\
  listen_queue (client_step c l) = listen_queue c.
Proof.
  intros Hl. destruct l as [m []|m []|m|i|i|]; simpl; try done; try (by destruct (Hl m)).
  - apply pop_future_queues.
  - apply pop_ack_queues.
Qed.

Lemma bus_move_grows live c c' : client_ok c -> bus_move live c c' -> grows c c'.
Proof.
  intros Hc. destruct 1; try (by split; simpl; auto with bus).
  - apply client_step_grows.
  - apply dispatch_grows.
Qed.

Lemma bus_move_ok live c c' : client_ok c -> bus_move live c c' -> client_ok c'.
Proof.
  intros [Hf Hq]. destruct 1 as [l Hl Hn|m|  |ms b|f|cq|cq|q m l|m l].
  - destruct (client_step_queues c l Hn) as (H1 & H2 & _).
    split; [by apply client_step_inv|]. by rewrite H1, H2.
  - destruct (dispatch_queues m c) as [H1 H2].
    split; [by apply dispatch_inv|]. rewrite H1. auto.
  - split; [by apply fail_inv|done].
  - split; [by eapply futures_inv_same; [| | | |exact Hf]|done].
  - split; [|done]. destruct Hf as [Hp Hb]. split; simpl.
    + intros f' H'. apply settle_done in H' as [H' _]; [|done]. by apply Hp.
    + intros f' st H'. destruct (settle_dom _ _ _ _ _ H') as [st' H'']. by eapply Hb.
  - split; [by eapply futures_inv_same; [| | | |exact Hf]|]. simpl.
    intros q. rewrite lookup_insert. case_decide; [lia|]. intros H'. apply Hq in H'. lia.
  - split; [by eapply futures_inv_same; [| | | |exact Hf]|done].
  - split; [by eapply futures_inv_same; [| | | |exact Hf]|]. simpl.
    intros q'. rewrite lookup_insert. case_decide; [|by apply Hq]. subst. intros _. apply Hq. eauto.
  - split; [by eapply futures_inv_same; [| | | |exact Hf]|done].
Qed.

Lemma bus_moves_ok live c c' : client_ok c -> bus_moves live c c' -> client_ok c' /\ grows c c'.
Proof.
  intros Hc. induction 1 as [|c1 c2 H1 [IH1 IH2] H2]; [by split|]. split.
  - by eapply bus_move_ok.
  - etrans; [done|]. by eapply bus_move_grows.
Qed.

(** Without a receive loop an empty queue stays empty. *)
Definition drained (q : nat) (c : Client) : Prop := queues c !! q = Some [].

Lemma bus_move_drained q c c' : client_ok c -> bus_move false c c' -> drained q c -> drained q c'.
Proof.
  intros [_ Hq] Hm Hd. unfold drained in *.
  destruct Hm as [l Hl Hn|m|  |ms b|f|cq|cq|q' m l|m l]; try done; simpl.
  - by destruct (client_step_queues c l Hn) as (-> & _).
  - rewrite lookup_insert_ne; [done|]. intros <-. assert (is_Some (queues c !! next_queue c)) as H by eauto.
    apply Hq in H. lia.
  - rewrite lookup_insert_ne; [done|]. congruence.
Qed.

Lemma bus_moves_drained q c c' : client_ok c -> bus_moves false c c' -> drained q c -> drained q c'.
Proof.
  intros Hc. induction 1 as [|c1 c2 H1 IH H2]; [done|]. intros Hd.
  destruct (bus_moves_ok _ _ _ Hc H1) as [Hc1 _]. by eapply bus_move_drained; [| |apply IH].
Qed.

Lemma bus_move_unheard c c' : bus_move false c c' -> listen_queue c = [] -> listen_queue c' = [].
Proof.
  intros Hm Hd. destruct Hm as [l Hl Hn|m|  |ms b|f|cq|cq|q' m l|m l]; try done; simpl.
  - by destruct (client_step_queues c l Hn) as (_ & _ & ->).
  - congruence.
Qed.

Lemma bus_moves_unheard c c' : bus_moves false c c' -> listen_queue c = [] -> listen_queue c' = [].
Proof. induction 1 as [|c1 c2 H1 IH H2]; [done|]. intros Hd. eapply bus_move_unheard; eauto. Qed.

(** ** What a step does to the session *)

Definition is_cancelled (x : Task) : bool := match x with LoopCancelled _ => true | _ => false end.

(** A loop or a close is under way. *)
Definition is_busy (x : Task) : bool :=
  is_live x || match x with CancellingLoop _ | ClosingSocket => true | _ => false end.

Definition no_live (s : Session) : Prop :=
  forall t x, tasks s !! t = Some x -> is_live x = false.

(** What a task relies on. *)
Definition task_ok (s : Session) (t : nat) (x : Task) : Prop :=
  match x with
  | LoopCreated | LoopReading _ | LoopCancelled _ => recv_task s = Some t
  | CancellingLoop r =>
      closed (bus s) = true /\ recv_task s = Some r /\
      exists y, tasks s !! r = Some y /\ (is_cancelled y = true \/ is_ended y = true)
  | ClosingSocket =>
      closed (bus s) = true /\
      forall r y, recv_task s = Some r -> tasks s !! r = Some y -> is_live y = false
  | Calling _ _ f => is_Some (futures (bus s) !! f)
  | SubAck _ f _ _ q => is_Some (futures (bus s) !! f) /\ is_Some (queues (bus s) !! q)
  | SubGet _ _ q | SubBody _ _ _ q => is_Some (queues (bus s) !! q)
  | Retrying n k => (1 <= k)%nat /\ (Z.of_nat k <= Z.max 1 n)%Z
  | Backoff n k => (1 <= k)%nat /\ (Z.of_nat k < n)%Z
  | _ => True
  end.

Record session_ok (s : Session) : Prop := {
  so_client : client_ok (bus s);
  so_below : forall t, is_Some (tasks s !! t) -> t < next_task s;
  so_recv : forall r, recv_task s = Some r -> is_Some (tasks s !! r);
  so_tasks : forall t x, tasks s !! t = Some x -> task_ok s t x
}.

(** A task that has ended stays so, none becomes a receive loop, and a
    cancelled loop can only end. *)
Record task_later (x x' : Task) : Prop := {
  tl_ended : is_ended x = true -> x' = x;
  tl_live : is_live x = false -> is_live x' = false;
  tl_cancelled : is_cancelled x = true -> is_cancelled x' = true \/ is_ended x' = true
}.

Lemma task_later_refl x : task_later x x.
Proof. split; auto. Qed.

Lemma task_later_ended x o : is_ended x = false -> task_later x (Ended o).
Proof. intros H. split; auto. congruence. Qed.

#[export] Hint Resolve task_later_refl task_later_ended : bus.

(** The task [who] moves, or a receive loop is cancelled for it. *)
Inductive session_move (live : bool) (who : nat) (s : Session) : Session -> Prop :=
| sm_bus c :
    bus_moves live (bus s) c -> (closed (bus s) = true -> closed c = true) ->
    session_move live who s (set_bus c s)
| sm_task t y x :
    tasks s !! t = Some y -> t = who \/ is_live y = true -> task_later y x ->
    task_ok (set_task t x s) t x -> session_move live who s (set_task t x s)
| sm_ws k sockets : session_move live who s (set_ws k sockets s)
| sm_create : session_move live who s (create_task Created s).

Inductive session_moves (live : bool) (who : nat) (s : Session) : Session -> Prop :=
| sms_refl : session_moves live who s s
| sms_step s1 s2 : session_moves live who s s1 -> session_move live who s1 s2 ->
                   session_moves live who s s2.

#[export] Hint Constructors session_moves session_move : bus.

Lemma sms_trans live who s1 s2 s3 :
  session_moves live who s1 s2 -> session_moves live who s2 s3 -> session_moves live who s1 s3.
Proof. intros H. induction 1; eauto with bus. Qed.

Lemma sms_bus live who s c :
  bus_moves live (bus s) c -> (closed (bus s) = true -> closed c = true) ->
  session_moves live who s (set_bus c s).
Proof. eauto with bus. Qed.

(** One task moves when what the others rely on only grows. *)
Lemma task_ok_later s s' t x :
  recv_task s' = recv_task s -> (closed (bus s) = true -> closed (bus s') = true) ->
  grows (bus s) (bus s') ->
  (forall r y, tasks s !! r = Some y -> exists y', tasks s' !! r = Some y' /\ task_later y y') ->
  (forall r y', recv_task s = Some r -> tasks s' !! r = Some y' -> is_live y' = true ->
     is_Some (tasks s !! r)) ->
  task_ok s t x -> task_ok s' t x.
Proof.
  intros Hr Hc [Hf Hq] Ht Hn. destruct x; simpl; rewrite ?Hr; auto.
  - intros [H1 H2]; auto.
  - intros (H1 & H2 & y & Hy & Hl). repeat (split; [auto|]).
    destruct (Ht _ _ Hy) as (y' & Hy' & [He _ Hk]). exists y'. split; [done|].
    destruct Hl as [Hl|Hl]; [by apply Hk|right]. rewrite He; done.
  - intros [H1 H2]. split; [auto|]. intros r y' Hr' Hy'. destruct (is_live y') eqn:Hl; [|done].
    destruct (Hn _ _ Hr' Hy' Hl) as [y Hy]. destruct (Ht _ _ Hy) as (y2 & Hy2 & [_ Hk _]).
    assert (y2 = y') as -> by congruence. rewrite <- Hl. apply Hk. by eapply H2.
Qed.

Lemma session_move_ok live who s s' : session_ok s -> session_move live who s s' -> session_ok s'.
Proof.
  intros [Hc Hb Hr Ht]. destruct 1 as [c Hm Hcl|t y x Hy Hw Hl Hx|k sockets|].
  - destruct (bus_moves_ok _ _ _ Hc Hm) as [Hc' Hg]. split; [done|done|done|].
    intros t x Hx. apply (task_ok_later s); eauto with bus.
  - split; [done| | |].
    + simpl. intros t'. rewrite lookup_insert. case_decide; [subst|]; eauto.
    + simpl. eauto with bus.
    + simpl. intros t' x'. rewrite lookup_insert. case_decide; [subst; intros [= <-]; done|].
      intros Hx'. apply (task_ok_later s); simpl; auto.
      * reflexivity.
      * intros r z Hz. rewrite lookup_insert. case_decide; [subst|]; eauto with bus.
        exists x. split; [done|]. by replace z with y by congruence.
  - split; [done|done|done|]. intros t x Hx. apply (task_ok_later s); eauto with bus. reflexivity.
  - split; simpl; [done| | |].
    + intros t. rewrite lookup_insert. case_decide; [lia|]. intros Hx. apply Hb in Hx. lia.
    + eauto with bus.
    + intros t x. rewrite lookup_insert. case_decide; [by intros [= <-]|]. intros Hx.
      apply (task_ok_later s); simpl; auto; [reflexivity|].
      intros r y Hy. exists y. split; [|apply task_later_refl]. rewrite lookup_insert_ne; [done|].
      intros <-. assert (is_Some (tasks s !! next_task s)) as Hs by eauto. apply Hb in Hs. lia.
Qed.

Lemma session_moves_ok live who s s' : session_ok s -> session_moves live who s s' -> session_ok s'.
Proof. intros Hs. induction 1; eauto using session_move_ok. Qed.

(** *** The operations as moves *)

(** The task [t] stands somewhere and has not ended. *)
Definition standing (t : nat) (s : Session) : Prop :=
  exists y, tasks s !! t = Some y /\ is_ended y = false /\ is_cancelled y = false.

Lemma moves_task live t x s :
  standing t s -> is_live x = false -> task_ok (set_task t x s) t x ->
  session_moves live t s (set_task t x s).
Proof.
  intros (y & Hy & He & Hk) Hx Ho. eapply sms_step; [apply sms_refl|].
  eapply sm_task; eauto. split; congruence.
Qed.

Lemma moves_ended live t o s : standing t s -> session_moves live t s (ended t o s).
Proof. intros H. by apply moves_task. Qed.

Lemma moves_bus_task live t x c s :
  standing t s -> bus_moves live (bus s) c -> (closed (bus s) = true -> closed c = true) ->
  is_live x = false -> task_ok (set_task t x (set_bus c s)) t x ->
  session_moves live t s (set_task t x (set_bus c s)).
Proof.
  intros Hs Hb Hc Hx Ho. eapply sms_trans; [by apply sms_bus|]. by apply moves_task.
Qed.

Lemma call_moves live t w m s :
  standing t s ->
  match w with
  | ForAck => pending_acks (bus s) !! id m = None
  | ForReply => pending_futures (bus s) !! id m = None
  end -> session_moves live t s (call_begin t w m s).
Proof.
  intros Hs Hf. unfold call_begin.
  set (c := match w with ForAck => _ | ForReply => _ end).
  assert (Hb : bus_moves live (bus s) c).
  { apply bms_one. destruct w; [apply (bm_call _ _ (CSend m (sends s)))|
                               apply (bm_call _ _ (CRequest m (sends s)))]; done. }
  assert (Hc : closed c = closed (bus s)).
  { unfold c. by destruct w; unfold send_begin, request_begin; destruct (sends s). }
  destruct (conn_send s); apply moves_bus_task; try done; try (by rewrite Hc).
  simpl. unfold c. destruct w; unfold send_begin, request_begin; destruct (sends s); simpl;
    rewrite lookup_insert_eq; eauto.
Qed.

Lemma send_only_moves live t m s : standing t s -> session_moves live t s (send_only t m s).
Proof.
  intros Hs. unfold send_only. destruct (conn_send s); [by apply moves_ended|].
  apply moves_bus_task; try done. apply bms_one, bm_wire.
Qed.

Lemma time_out_moves live t w m s : session_moves live t s (time_out w m s).
Proof.
  destruct w; apply sms_bus.
  - by apply bms_one, (bm_call _ _ (CAckTimeout (id m))).
  - simpl. unfold ack_local_timeout, pop_ack. by destruct (_ !! _).
  - by apply bms_one, (bm_call _ _ (CRequestTimeout (id m))).
  - simpl. unfold request_local_timeout, pop_future. by destruct (_ !! _).
Qed.

Lemma cancel_moves live t f s : session_moves live t s (cancel_future f s).
Proof. apply sms_bus; [apply bms_one, bm_cancel|done]. Qed.

Lemma finally_moves live t s : session_moves live t s (loop_finally s).
Proof. apply sms_bus; [apply bms_one, bm_fail|done]. Qed.

Lemma sub_finally_moves live t unsub ch q s : session_moves live t s (sub_finally unsub ch q s).
Proof.
  apply sms_bus; unfold subscribe_end; destruct (List.filter _ _).
  - destruct (sends s); [|apply bms_one, bm_unregister].
    eapply bms_step; [apply bms_one, bm_unregister|apply bm_wire].
  - apply bms_one, bm_unregister.
  - by destruct (sends s).
  - done.
Qed.

Lemma standing_bus t c s : standing t (set_bus c s) <-> standing t s.
Proof. done. Qed.

Lemma sub_leave_moves live t o unsub ch q s :
  standing t s -> session_moves live t s (sub_leave t o unsub ch q s).
Proof. intros Hs. eapply sms_trans; [apply sub_finally_moves|]. by apply moves_ended. Qed.

Lemma sub_turn_moves live t unsub ch q s :
  standing t s -> is_Some (queues (bus s) !! q) -> session_moves live t s (sub_turn t unsub ch q s).
Proof.
  intros Hs Hq. unfold sub_turn. destruct (closed (bus s)); [by apply sub_leave_moves|].
  by apply moves_task.
Qed.

Lemma listen_turn_moves live t s : standing t s -> session_moves live t s (listen_turn t s).
Proof. intros Hs. unfold listen_turn. destruct (closed _); [by apply moves_ended|by apply moves_task]. Qed.

Lemma sub_begin_moves live t i unsub ch s :
  standing t s -> pending_acks (bus s) !! i = None ->
  session_moves live t s (sub_begin t i unsub ch s).
Proof.
  intros Hs Hi. unfold sub_begin. simpl.
  set (c0 := set_queues _ _ _ _). set (c := send_begin _ _ c0).
  assert (Hb : bus_moves live (bus s) c).
  { eapply bms_step; [apply bms_one; unfold c0; apply bm_register|].
    apply (bm_call _ _ (CSend (channel_frame SUBSCRIBE i ch) (sends s))); done. }
  assert (Hc : closed c = closed (bus s)).
  { unfold c, send_begin. by destruct (sends s). }
  destruct (conn_send s).
  - eapply sms_trans; [apply sms_bus; [done|by rewrite Hc]|]. by apply sub_leave_moves.
  - apply moves_bus_task; try done; [by rewrite Hc|].
    simpl. unfold c, c0, send_begin. destruct (sends s); simpl; rewrite !lookup_insert_eq; eauto.
Qed.

Lemma close_end_moves live t s : standing t s -> session_moves live t s (close_end t s).
Proof. intros Hs. apply moves_bus_task; try done. apply bms_one, bm_fail. Qed.

Lemma sms_ws live t k sockets s : session_moves live t s (set_ws k sockets s).
Proof. eapply sms_step; [apply sms_refl|apply sm_ws]. Qed.

(** Closing the socket, once nothing receives. *)
Lemma close_socket_moves live t s :
  standing t s -> closed (bus s) = true ->
  (forall r y, recv_task s = Some r -> tasks s !! r = Some y -> is_live y = false) ->
  session_moves live t s (close_socket t s).
Proof.
  intros Hs Hc Hr. unfold close_socket. destruct (ws s); [|by apply close_end_moves].
  eapply sms_trans; [apply sms_ws|]. apply moves_task; try done. simpl. split; [done|].
  intros r y Hr' Hy. rewrite lookup_insert in Hy. case_decide; [by injection Hy as <-|]. eauto.
Qed.

Lemma close_begin_moves live t s :
  standing t s -> recv_task s ≠ Some t -> session_moves live t s (close_begin t s).
Proof.
  intros Hs Hne. unfold close_begin.
  eapply sms_trans; [apply (sms_bus _ _ _ (set_wire (wire (bus s)) true (bus s))); [|done]|].
  { apply bms_one, bm_wire. }
  set (s1 := set_closed true s). change (set_bus _ s) with s1.
  assert (Hs1 : standing t s1) by done. assert (Hc1 : closed (bus s1) = true) by done.
  change (recv_task s) with (recv_task s1) in Hne.
  destruct (recv_task s1) as [r|] eqn:Hr; simpl;
    [|by apply close_socket_moves; [| |rewrite Hr]].
  change (tasks s !! r) with (tasks s1 !! r). destruct (tasks s1 !! r) as [x|] eqn:Hx; simpl;
    [|apply close_socket_moves; [done|done|rewrite Hr; intros ? ? [= <-]; congruence]].
  assert (Hrt : r ≠ t) by congruence.
  assert (Hcancel : forall b, is_live x = true -> is_ended x = false -> is_cancelled x = false ->
    session_moves live t s1 (set_task t (CancellingLoop r) (set_task r (LoopCancelled b) s1))).
  { intros b Hl He Hk. eapply sms_trans.
    - eapply sms_step; [apply sms_refl|]. apply (sm_task _ _ _ r x (LoopCancelled b)); [done|by right| |exact Hr].
      split; congruence.
    - apply moves_task; [|done|].
      + destruct Hs1 as (y & Hy & He'). exists y. simpl. by rewrite lookup_insert_ne.
      + simpl. split; [done|]. split; [done|]. exists (LoopCancelled b).
        rewrite lookup_insert_ne, lookup_insert_eq by done. auto. }
  destruct x; try (by apply Hcancel);
    try (by apply close_socket_moves; [| |rewrite Hr; intros ? ? [= <-]; rewrite Hx; intros [= <-]]).
  apply moves_task; [done|done|]. simpl. split; [done|]. split; [done|].
  exists (LoopCancelled started). rewrite lookup_insert_ne by done. auto.
Qed.

(** ** Steps *)

Definition fresh_label (s : Session) (l : Label) : Prop :=
  match l with
  | Spawn (PSend m) => pending_acks (bus s) !! id m = None
  | Spawn (PSubscribe i _ _) => pending_acks (bus s) !! i = None
  | Spawn (PRequest m) => pending_futures (bus s) !! id m = None
  | _ => True
  end.

(** A handshake that succeeds. *)
Definition opens (l : Label) : bool :=
  match l with Resume _ (EvHandshake HsOpened) => true | _ => false end.

(** Message ids are fresh, and a connection is opened only when the one
    before it is gone. *)
Definition orderly (s : Session) (l : Label) : Prop :=
  fresh_label s l /\
  (opens l = true -> forall t x, tasks s !! t = Some x -> is_busy x = false).

(** The task a label moves. *)
Definition mover (s : Session) (l : Label) : nat :=
  match l with Resume t _ => t | _ => next_task s end.

Section steps.
Context (broker_url : string) (decode : list Byte.byte -> option string)
  (from_json : string -> option NMBMessage).
Abbreviation step := (step broker_url decode from_json).
Abbreviation steps := (steps broker_url decode from_json).

Inductive session_reach : Session -> Prop :=
| sr_new : session_reach new_session
| sr_step s l s' : session_reach s -> orderly s l -> step s l = Some s' -> session_reach s'.

Lemma spawn_moves live p s :
  session_ok s -> fresh_label s (Spawn p) -> session_moves live (next_task s) s (spawn p s).
Proof.
  intros [_ Hb Hr _] Hf. unfold spawn. set (t := next_task s). set (s1 := create_task Created s).
  eapply sms_trans; [eapply sms_step; [apply sms_refl|apply sm_create]|]. fold s1.
  assert (Hs : standing t s1) by (exists Created; simpl; by rewrite lookup_insert_eq).
  destruct p; simpl in Hf.
  - by apply moves_task.
  - apply moves_task; [done|done|]. simpl. lia.
  - apply close_begin_moves; [done|]. simpl. intros Heq. apply Hr, Hb in Heq. unfold t in Heq. lia.
  - by apply call_moves.
  - by apply call_moves.
  - by apply send_only_moves.
  - by apply sub_begin_moves.
  - by apply listen_turn_moves.
Qed.

Lemma connect_end_moves live t h s :
  h ≠ HsOpened -> standing t s -> session_moves live t s (connect_end broker_url t h s).
Proof. intros Hh Hs. destruct h; simpl; [done| |]; by apply moves_ended. Qed.

Lemma attempt_moves live t n k h s :
  h ≠ HsOpened -> standing t s -> (1 <= k)%nat -> session_moves live t s (attempt_end broker_url t n k h s).
Proof.
  intros Hh Hs Hk. destruct h; simpl; [done| |by apply moves_ended].
  destruct (Z.leb_spec n (Z.of_nat k)); [by apply moves_ended|by apply moves_task].
Qed.

Lemma receive_moves t raw s :
  standing t s -> session_moves true t s (receive decode from_json t raw s).
Proof.
  intros Hs. unfold receive. destruct (match raw with Text _ => _ | Bytes _ => _ end) as [text|].
  - destruct (from_json text) as [m|]; [|apply sms_refl]. apply sms_bus.
    + by apply bms_one, bm_receive.
    + unfold _dispatch, _dispatch_deliver, _dispatch_ack, _dispatch_error, _dispatch_timeout,
        pop_future, pop_ack. by repeat case_match.
  - eapply sms_trans; [apply finally_moves|]. by apply moves_ended.
Qed.

Lemma loop_start_moves live t s :
  tasks s !! t = Some LoopCreated -> recv_task s = Some t ->
  session_moves live t s (loop_start t s).
Proof.
  intros Ht Hr. unfold loop_start. destruct (ws s).
  - eapply sms_step; [apply sms_refl|]. by eapply sm_task; [|by left|split|].
  - eapply sms_trans; [apply finally_moves|]. apply moves_ended. by exists LoopCreated.
Qed.

Lemma loop_cancelled_moves live t b s :
  tasks s !! t = Some (LoopCancelled b) ->
  session_moves live t s (ended t (Returned None) (if b then loop_finally s else s)).
Proof.
  intros Ht. eapply sms_trans; [instantiate (1 := if b then loop_finally s else s)|].
  { destruct b; [apply finally_moves|apply sms_refl]. }
  eapply sms_step; [apply sms_refl|]. eapply (sm_task _ _ _ t (LoopCancelled b)); [by destruct b|by left|by split; auto|done].
Qed.

(** Every step is a sequence of moves of its task, unless it connects. *)
Lemma resume_moves live t e s s' :
  session_ok s -> (live = false -> no_live s) -> opens (Resume t e) = false ->
  resume broker_url decode from_json t e s = Some s' -> session_moves live t s s'.
Proof.
  intros Hs Hl Ho Hr. unfold resume in Hr. destruct (tasks s !! t) as [x|] eqn:Ht; [|done].
  pose proof (so_tasks _ Hs _ _ Ht) as Hx.
  assert (Hst : is_ended x = false -> is_cancelled x = false -> standing t s) by (intros; by exists x).
  destruct x, e; try done; simplify_option_eq;
    try (injection Hr as <-); try specialize (Hst eq_refl eq_refl).
  - apply connect_end_moves; [|done]. by destruct h.
  - apply attempt_moves; [by destruct h|done|apply Hx].
  - apply moves_task; [done|done|]. simpl in Hx |- *. lia.
  - by apply loop_start_moves.
  - destruct live; [by apply receive_moves|].
    by apply (Hl eq_refl) in Ht.
  - eapply sms_trans; [apply finally_moves|]. by apply moves_ended.
  - by apply loop_cancelled_moves.
  - by apply moves_ended.
  - eapply sms_trans; [apply time_out_moves|]. apply moves_ended. by destruct w.
  - eapply sms_trans; [apply cancel_moves|]. by apply moves_ended.
  - match goal with o : Outcome |- _ => destruct o end;
      [apply sub_turn_moves; [done|apply Hx]|by apply sub_leave_moves].
  - eapply sms_trans; [apply (time_out_moves _ _ ForAck)|]. by apply sub_leave_moves.
  - eapply sms_trans; [apply cancel_moves|]. by apply sub_leave_moves.
  - unfold subscription_get in *. destruct (queues (bus s) !! q) as [[|m l]|] eqn:Hq; simplify_eq/=.
    apply moves_bus_task; try done; [by apply bms_one, (bm_get _ _ q m l)|].
    simpl. rewrite lookup_insert_eq. eauto.
  - by apply sub_leave_moves.
  - by apply sub_turn_moves.
  - by apply sub_leave_moves.
  - by apply listen_turn_moves.
  - destruct (listen_queue (bus s)) as [|m l] eqn:Hq; simplify_eq/=.
    apply moves_bus_task; try done. by apply bms_one, (bm_listen _ _ m l).
  - by apply moves_ended.
  - by apply listen_turn_moves.
  - by apply moves_ended.
  - destruct Hx as (Hc & Hr1 & y & Hy & _). destruct (tasks s !! t0) as [z|] eqn:Hz; [|done].
    destruct (is_ended z) eqn:He; [|done]. injection Hr as <-.
    apply close_socket_moves; [done|done|]. intros r z' Hr2 Hz'.
    assert (z' = z) as -> by congruence. by destruct z.
  - eapply sms_trans; [apply sms_ws|]. by apply close_end_moves.
Qed.

Lemma step_moves live s l s' :
  session_ok s -> fresh_label s l -> (live = false -> no_live s) -> opens l = false ->
  step s l = Some s' -> session_moves live (mover s l) s s'.
Proof.
  intros Hs Hf Hl Ho Hst. destruct l as [p|t e|k]; simpl in *.
  - injection Hst as <-. by apply spawn_moves.
  - by apply resume_moves with e.
  - injection Hst as <-. apply sms_ws.
Qed.

(** Connecting, when nothing receives and nothing closes. *)
Lemma connected_ok t s :
  session_ok s -> (forall t x, tasks s !! t = Some x -> is_busy x = false) -> standing t s ->
  session_ok (ended t (Returned None) (connected s)).
Proof.
  intros [[Hf Hq] Hb Hr Ht] Hbusy (y & Hy & He & _).
  assert (Hlt : t < next_task s) by (apply Hb; eauto).
  split; simpl.
  - split; [by eapply futures_inv_same; [| | | |exact Hf]|done].
  - intros t'. rewrite !lookup_insert. repeat case_decide; try lia. intros H'. apply Hb in H'. lia.
  - intros r [= <-]. apply insert_some. rewrite lookup_insert_eq. eauto.
  - intros t' x. rewrite lookup_insert. case_decide; [by intros [= <-]|].
    rewrite lookup_insert. case_decide; [by intros [= <-]; subst|].
    intros Hx. pose proof (Hbusy _ _ Hx) as Hbx. specialize (Ht _ _ Hx).
    by destruct x.
Qed.

Lemma step_ok s l s' : session_ok s -> orderly s l -> step s l = Some s' -> session_ok s'.
Proof.
  intros Hs [Hf Hc] Hst. destruct (opens l) eqn:Ho.
  - destruct l as [|t [[]| | | | | | |]|]; try done. specialize (Hc eq_refl).
    simpl in Hst. unfold resume in Hst. destruct (tasks s !! t) as [x|] eqn:Ht; [|done].
    destruct x; simplify_eq/=; apply connected_ok; try done; by eexists.
  - eapply session_moves_ok; [exact Hs|]. by apply (step_moves true s l).
Qed.

Lemma session_reach_ok s : session_reach s -> session_ok s.
Proof.
  induction 1 as [|s l s' Hr IH Ho Hst]; [|by apply (step_ok s l)].
  split; [split; [split|]| | |]; simpl; try done; intros t; simpl; rewrite lookup_empty;
    try (by intros []); by intros ?.
Qed.

(** ** Closing *)

(** A live loop is the receive task of the session. *)
Lemma recv_no_live s :
  session_ok s ->
  (forall r y, recv_task s = Some r -> tasks s !! r = Some y -> is_live y = false) -> no_live s.
Proof.
  intros Hs Hr t x Hx. destruct (is_live x) eqn:Hl; [|done].
  pose proof (so_tasks _ Hs _ _ Hx) as Ho. rewrite <- Hl. apply (Hr t); [|done]. by destruct x.
Qed.

(** A close is under way in the task [t]. *)
Definition closing (t : nat) (s : Session) : Prop :=
  exists x, tasks s !! t = Some x /\ is_busy x = true /\ is_live x = false.

Lemma closing_cases t s :
  closing t s -> tasks s !! t = Some ClosingSocket \/ exists r, tasks s !! t = Some (CancellingLoop r).
Proof. intros (x & Hx & Hb & Hl). destruct x; eauto; done. Qed.

(** Everyone who waits, except for a message, is about to end. *)
Definition woken (s : Session) : Prop :=
  (forall t w m f, tasks s !! t = Some (Calling w m f) ->
     exists o, step s (Resume t EvFuture) = Some (ended t o s)) /\
  (forall t, tasks s !! t = Some Listening ->
     step s (Resume t EvTimeout) = Some (ended t (Returned None) s)) /\
  (forall t m, tasks s !! t = Some (ListenBody m) ->
     step s (Resume t EvTurn) = Some (ended t (Returned None) s)) /\
  (forall t m f unsub ch q, tasks s !! t = Some (SubAck m f unsub ch q) ->
     exists o, step s (Resume t EvFuture) = Some (sub_leave t o unsub ch q s)) /\
  (forall t m unsub ch q, tasks s !! t = Some (SubBody m unsub ch q) ->
     step s (Resume t EvTurn) = Some (sub_leave t (Returned None) unsub ch q s)).

Lemma settled_woken s :
  session_ok s -> closed (bus s) = true ->
  (forall f, futures (bus s) !! f ≠ Some FutPending) -> woken s.
Proof.
  intros Hs Hc Hf.
  assert (Hdone : forall f, is_Some (futures (bus s) !! f) ->
    exists x o, futures (bus s) !! f = Some x /\ future_outcome x = Some o).
  { intros f [x Hx]. destruct (future_outcome x) as [o|] eqn:Ho; [by exists x, o|].
    destruct x; try done. by destruct (Hf f). }
  repeat split.
  - intros t w m f Ht. destruct (Hdone f) as (x & o & Hx & Ho); [by apply (so_tasks _ Hs) in Ht|].
    exists o. simpl. unfold resume. by rewrite Ht, Hx; simpl; rewrite Ho.
  - intros t Ht. simpl. unfold resume, listen_turn. by rewrite Ht, Hc.
  - intros t m Ht. simpl. unfold resume, listen_turn. by rewrite Ht, Hc.
  - intros t m f unsub ch q Ht.
    destruct (Hdone f) as (x & o & Hx & Ho); [by apply (so_tasks _ Hs) in Ht as [? _]|].
    exists (match o with Returned _ => Returned None | Raised _ => o end).
    simpl. unfold resume, sub_turn. rewrite Ht, Hx. simpl. rewrite Ho, Hc. by destruct o.
  - intros t m unsub ch q Ht. simpl. unfold resume, sub_turn. by rewrite Ht, Hc.
Qed.

(** The state a close leaves. *)
Definition closed_down (s : Session) : Prop :=
  closed (bus s) = true /\ ws s = None /\ no_live s /\ woken s.

Lemma close_end_down t s :
  session_ok s -> session_ok (close_end t s) -> closed (bus s) = true -> ws s = None ->
  (forall r y, recv_task s = Some r -> tasks s !! r = Some y -> is_live y = false) ->
  closed_down (close_end t s).
Proof.
  intros Hs Hs' Hc Hw Hr. split; [done|]. split; [done|]. split.
  - apply recv_no_live; [done|]. simpl. intros r y Hr'. rewrite lookup_insert.
    case_decide; [by intros [= <-]|]. by apply Hr.
  - apply settled_woken; [done|done|]. simpl. intros f. by apply fail_settles; destruct (so_client _ Hs).
Qed.

Lemma closing_turn t s s' :
  session_ok s -> closing t s -> step s (Resume t EvTurn) = Some s' ->
  tasks s' !! t = Some ClosingSocket \/
  (tasks s' !! t = Some (Ended (Returned None)) /\ closed_down s').
Proof.
  intros Hs Hcl Hst. pose proof Hst as Hst'.
  assert (Hs' : session_ok s') by (eapply (step_ok s); [done| |exact Hst]; by split).
  simpl in Hst. unfold resume in Hst. apply closing_cases in Hcl as [Ht|[r Ht]]; rewrite Ht in Hst.
  - injection Hst as <-. right. pose proof (so_tasks _ Hs _ _ Ht) as [Hc Hr].
    split; [by simpl; rewrite lookup_insert_eq|].
    apply (close_end_down t (set_ws None (open_sockets s) s)); try done.
    by eapply session_moves_ok, (sms_ws true t).
  - pose proof (so_tasks _ Hs _ _ Ht) as (Hc & Hr & _).
    destruct (tasks s !! r) as [z|] eqn:Hz; [|done]. destruct (is_ended z) eqn:He; [|done].
    injection Hst as <-. unfold close_socket in *. destruct (ws s) eqn:Hw.
    + left. simpl. by rewrite lookup_insert_eq.
    + right. split; [by simpl; rewrite lookup_insert_eq|]. apply close_end_down; try done.
      intros r' y Hr' Hy. assert (y = z) as -> by congruence. by destruct z.
Qed.

(** The turns that end a close: of the receive loop it waits for, and its own. *)
Definition turns_of (s : Session) (t : nat) (l : Label) : Prop :=
  l = Resume t EvTurn \/ exists r, recv_task s = Some r /\ l = Resume r EvTurn.

Lemma closing_ends t s :
  session_ok s -> closing t s ->
  exists ls s', steps s ls = Some s' /\ Forall (turns_of s t) ls /\ (length ls <= 3)%nat /\
    tasks s' !! t = Some (Ended (Returned None)).
Proof.
  intros Hs Hcl.
  assert (Hsock : forall s0, tasks s0 !! t = Some ClosingSocket ->
    exists s', step s0 (Resume t EvTurn) = Some s' /\ tasks s' !! t = Some (Ended (Returned None))).
  { intros s0 Ht. simpl. unfold resume. rewrite Ht. eexists. split; [done|]. apply lookup_insert_eq. }
  assert (Hdone : forall s0 r z, tasks s0 !! t = Some (CancellingLoop r) -> tasks s0 !! r = Some z ->
    is_ended z = true -> exists ls s', steps s0 ls = Some s' /\ Forall (eq (Resume t EvTurn)) ls /\
      (length ls <= 2)%nat /\ tasks s' !! t = Some (Ended (Returned None))).
  { intros s0 r z Ht Hz He.
    assert (H1 : step s0 (Resume t EvTurn) = Some (close_socket t s0)).
    { simpl. unfold resume. by rewrite Ht, Hz, He. }
    destruct (ws s0) as [k|] eqn:Hw.
    - destruct (Hsock (close_socket t s0)) as (s' & H2 & H3).
      { unfold close_socket. rewrite Hw. apply lookup_insert_eq. }
      exists [Resume t EvTurn; Resume t EvTurn], s'. split; [|by repeat constructor].
      cbn [ClientSession.steps]. rewrite H1. cbn [mbind option_bind]. by rewrite H2.
    - exists [Resume t EvTurn], (close_socket t s0). split; [by cbn [ClientSession.steps]; rewrite H1|].
      split; [by repeat constructor|]. split; [simpl; lia|].
      unfold close_socket. rewrite Hw. apply lookup_insert_eq. }
  apply closing_cases in Hcl as [Ht|[r Ht]].
  - destruct (Hsock s Ht) as (s' & H1 & H2). exists [Resume t EvTurn], s'.
    split; [by cbn [ClientSession.steps]; rewrite H1|]. split; [repeat constructor|]. simpl. split; [lia|done].
  - pose proof (so_tasks _ Hs _ _ Ht) as (_ & Hr & z & Hz & [Hk|He]).
    + destruct z; try done. set (s1 := ended r (Returned None) (if started then loop_finally s else s)).
      assert (H1 : step s (Resume r EvTurn) = Some s1) by (simpl; unfold resume; by rewrite Hz).
      assert (Hrt : r ≠ t) by congruence.
      assert (Htasks : tasks s1 = <[r := Ended (Returned None)]> (tasks s)) by (unfold s1; by destruct started).
      destruct (Hdone s1 r (Ended (Returned None))) as (ls & s' & H2 & H3 & H4 & H5); [..|done|].
      { by rewrite Htasks, lookup_insert_ne. }
      { by rewrite Htasks, lookup_insert_eq. }
      exists (Resume r EvTurn :: ls), s'. cbn [ClientSession.steps]. rewrite H1. split; [done|].
      split; [|split; [simpl; lia|done]]. constructor; [right; eauto|].
      eapply Forall_impl; [|exact H3]. intros l <-. by left.
    + destruct (Hdone s r z Ht Hz He) as (ls & s' & H2 & H3 & H4 & H5). exists ls, s'.
      split; [done|]. split; [|split; [lia|done]]. eapply Forall_impl; [|exact H3]. intros l <-. by left.
Qed.

(** C21: closing ends, and wakes every caller but the subscribers.  In every
    state a session reaches, a close under way ends after at most three turns
    of its own and of the receive loop it waits for; and whenever its turn
    ends it, the client is closed, without socket and receive loop, every
    caller waiting for an ACK or a reply has its outcome, a listener ends at
    its next poll, and a subscriber ends if it waits for its ACK or handles a
    message. *)
Theorem close_wakes_callers s t :
  session_reach s -> closing t s ->
  (exists ls s', steps s ls = Some s' /\ Forall (turns_of s t) ls /\ (length ls <= 3)%nat /\
     tasks s' !! t = Some (Ended (Returned None))) /\
  (forall s', step s (Resume t EvTurn) = Some s' ->
     tasks s' !! t = Some ClosingSocket \/
     (tasks s' !! t = Some (Ended (Returned None)) /\ closed_down s')).
Proof.
  intros Hr Hcl. apply session_reach_ok in Hr. split; [by apply closing_ends|].
  intros s'. by apply closing_turn.
Qed.

(** Connecting with retries makes at most [max(1, max_retries)] attempts, one
    back-off between two of them, and gives up with the error of the last. *)
Theorem attempts_are_bounded s t n k :
  session_reach s -> tasks s !! t = Some (Retrying n k) ->
  (1 <= k)%nat /\ (Z.of_nat k <= Z.max 1 n)%Z /\
  (Z.of_nat k = Z.max 1 n -> forall text,
     step s (Resume t (EvHandshake (HsRefused text))) =
       Some (ended t (Raised (refused broker_url text)) s)) /\
  (forall text, (Z.of_nat k < n)%Z ->
     steps s [Resume t (EvHandshake (HsRefused text)); Resume t EvTurn] =
       Some (set_task t (Retrying n (S k)) (set_task t (Backoff n k) s))).
Proof.
  intros Hr Ht. apply session_reach_ok in Hr. pose proof (so_tasks _ Hr _ _ Ht) as [H1 H2].
  split; [done|]. split; [done|]. split.
  - intros Hk text. cbn [ClientSession.step]. unfold resume. rewrite Ht. unfold attempt_end.
    destruct (Z.leb_spec n (Z.of_nat k)); [done|lia].
  - intros text Hk.
    assert (E : step s (Resume t (EvHandshake (HsRefused text))) = Some (set_task t (Backoff n k) s)).
    { cbn [ClientSession.step]. unfold resume. rewrite Ht. unfold attempt_end.
      destruct (Z.leb_spec n (Z.of_nat k)); [lia|done]. }
    cbn [ClientSession.steps]. rewrite E. simpl. unfold resume. simpl. rewrite lookup_insert_eq. done.
Qed.

(** ** Waiting for messages *)

(** What may happen while nobody reconnects and nobody leaves the task [t]. *)
Inductive quiet (t : nat) (s : Session) : Session -> Prop :=
| q_refl : quiet t s s
| q_step s1 l s2 : quiet t s s1 -> orderly s1 l -> opens l = false -> l ≠ Resume t EvBreak ->
                   step s1 l = Some s2 -> quiet t s s2.

Lemma moves_other live who s s' t x :
  session_moves live who s s' -> t ≠ who -> is_live x = false ->
  tasks s !! t = Some x -> t < next_task s -> tasks s' !! t = Some x /\ next_task s <= next_task s'.
Proof.
  intros Hm Hne Hx Ht Hlt. induction Hm as [|s1 s2 H1 [IH Hn] H2]; [done|].
  destruct H2 as [c|t' y x' Hy Hw|k sockets|]; simpl; try done.
  - rewrite lookup_insert_ne; [done|]. intros ->. destruct Hw as [->|Hw]; congruence.
  - split; [|lia]. rewrite lookup_insert_ne; [done|]. lia.
Qed.

Lemma moves_no_live who s s' :
  session_moves false who s s' -> no_live s -> session_ok s -> no_live s'.
Proof.
  intros Hm Hn Hs. induction Hm as [|s1 s2 H1 IH H2]; [done|].
  destruct H2 as [c|t y x Hy Hw Hl|k sockets|]; try done; intros t' x'; simpl; rewrite lookup_insert;
    case_decide; try (by apply IH).
  - intros [= <-]. apply Hl. by apply IH in Hy.
  - by intros [= <-].
Qed.

Lemma moves_bus live who s s' :
  session_moves live who s s' ->
  bus_moves live (bus s) (bus s') /\ (closed (bus s) = true -> closed (bus s') = true).
Proof.
  induction 1 as [|s1 s2 H1 [IH IHc] H2]; [split; [apply bms_refl|done]|].
  destruct H2; simpl; auto. split; [by eapply bms_trans|auto].
Qed.

(** One quiet step of a session without receive loop. *)
Lemma quiet_step s l s' :
  session_ok s -> no_live s -> orderly s l -> opens l = false -> step s l = Some s' ->
  session_ok s' /\ no_live s' /\ bus_moves false (bus s) (bus s') /\
  (closed (bus s) = true -> closed (bus s') = true) /\
  forall t x, tasks s !! t = Some x -> (forall e, l ≠ Resume t e) -> tasks s' !! t = Some x.
Proof.
  intros Hs Hn [Hf Hc] Ho Hst.
  pose proof (step_moves false _ _ _ Hs Hf (fun _ => Hn) Ho Hst) as Hm.
  destruct (moves_bus _ _ _ _ Hm) as [Hb Hcl].
  split; [by eapply session_moves_ok|]. split; [by eapply moves_no_live|]. split; [done|].
  split; [done|]. intros t x Hx Hl.
  assert (t < next_task s) by (apply (so_below _ Hs); eauto).
  eapply (moves_other _ _ _ _ t x Hm); [|by apply (Hn t)|done|done].
  intros ->. destruct l; simpl in *; [lia| |lia]. by apply (Hl e).
Qed.

Lemma subscriber_waits t unsub ch q s s' :
  session_ok s -> no_live s -> quiet t s s' ->
  tasks s !! t = Some (SubGet unsub ch q) -> drained q (bus s) ->
  session_ok s' /\ no_live s' /\ tasks s' !! t = Some (SubGet unsub ch q) /\ drained q (bus s').
Proof.
  intros Hs Hn Hq Ht Hd. induction Hq as [|s1 l s2 H1 IH Hor Ho Hl Hst]; [done|].
  destruct IH as (Hs1 & Hn1 & Ht1 & Hd1).
  destruct (quiet_step _ _ _ Hs1 Hn1 Hor Ho Hst) as (Hs2 & Hn2 & Hb & _ & Hother).
  split; [done|]. split; [done|].
  split; [|by eapply bus_moves_drained; [apply (so_client _ Hs1)| |]].
  apply Hother; [done|]. intros e ->. simpl in Hst. unfold resume in Hst. rewrite Ht1 in Hst.
  destruct e; try done. unfold subscription_get in Hst. by rewrite Hd1 in Hst.
Qed.

Lemma listener_waits t s s' :
  session_ok s -> no_live s -> quiet t s s' ->
  tasks s !! t = Some Listening -> listen_queue (bus s) = [] ->
  session_ok s' /\ no_live s' /\ listen_queue (bus s') = [] /\
  (tasks s' !! t = Some Listening \/
   (tasks s' !! t = Some (Ended (Returned None)) /\ closed (bus s') = true)).
Proof.
  intros Hs Hn Hq Ht Hd. induction Hq as [|s1 l s2 H1 IH Hor Ho Hl Hst]; [by split_and!; [| | |left]|].
  destruct IH as (Hs1 & Hn1 & Hd1 & Ht1).
  destruct (quiet_step _ _ _ Hs1 Hn1 Hor Ho Hst) as (Hs2 & Hn2 & Hb & Hc & Hother).
  split; [done|]. split; [done|]. split; [by eapply bus_moves_unheard|].
  destruct (decide (mover s1 l = t)) as [Hm|Hm].
  - destruct l as [p|t' e|k]; simpl in Hm; [|subst t'|];
      try (assert (is_Some (tasks s1 !! t)) as Hlt by (destruct Ht1 as [?|[? ?]]; eauto);
           apply (so_below _ Hs1) in Hlt; lia).
    simpl in Hst. unfold resume in Hst.
    destruct Ht1 as [Ht1|[Ht1 _]]; rewrite Ht1 in Hst; destruct e; try done.
    + injection Hst as <-. unfold listen_turn. destruct (closed (bus s1)) eqn:Hcl.
      * right. split; [apply lookup_insert_eq|done].
      * left. apply lookup_insert_eq.
    + by rewrite Hd1 in Hst.
  - assert (Hne : forall e, l ≠ Resume t e) by (intros e ->; done).
    destruct Ht1 as [Ht1|[Ht1 Hc1]]; [left|right; split; [|auto]]; by apply Hother.
Qed.

(** a lost connection is silent.  Once no receive loop runs, because
    the connection was lost or closed, and until somebody connects again: a
    subscriber that waits on an empty queue waits forever, whatever else
    happens, closing the client included; and a listener with an empty queue
    polls on without ever seeing a message, and ends only when the client is
    closed. *)
Theorem nothing_wakes_subscribers s s' t :
  session_reach s -> no_live s -> quiet t s s' ->
  (forall unsub ch q, tasks s !! t = Some (SubGet unsub ch q) -> drained q (bus s) ->
     tasks s' !! t = Some (SubGet unsub ch q)) /\
  (tasks s !! t = Some Listening -> listen_queue (bus s) = [] ->
     tasks s' !! t = Some Listening \/
     (tasks s' !! t = Some (Ended (Returned None)) /\ closed (bus s') = true)).
Proof.
  intros Hr Hn Hq. apply session_reach_ok in Hr. split.
  - intros unsub ch q Ht Hd. by eapply (subscriber_waits t _ _ _ s s').
  - intros Ht Hd. by eapply (listener_waits t s s').
Qed.
End steps.

(** ** A session *)

Section sample.
Context (broker_url : string) (decode : list Byte.byte -> option string)
  (from_json : string -> option NMBMessage).
Abbreviation step := (step broker_url decode from_json).

Definition fresh_b (s : Session) (l : Label) : bool :=
  match l with
  | Spawn (PSend m) => bool_decide (pending_acks (bus s) !! id m = None)
  | Spawn (PSubscribe i _ _) => bool_decide (pending_acks (bus s) !! i = None)
  | Spawn (PRequest m) => bool_decide (pending_futures (bus s) !! id m = None)
  | _ => true
  end.

Definition orderly_b (s : Session) (l : Label) : bool :=
  fresh_b s l &&
  (negb (opens l) || bool_decide (map_Forall (fun _ x => is_busy x = false) (tasks s))).

(** The steps of a session, refused when one is out of order. *)
Fixpoint orderly_steps (s : Session) (ls : list Label) : option Session :=
  match ls with
  | [] => Some s
  | l :: ls => if orderly_b s l then s' ← step s l; orderly_steps s' ls else None
  end.

Lemma orderly_b_spec s l : orderly_b s l = true -> orderly s l.
Proof.
  unfold orderly_b, orderly. intros [Hf Ho]%andb_true_iff. split.
  - destruct l as [[]| |]; simpl in *; try done; by apply bool_decide_eq_true_1 in Hf.
  - intros Hl. rewrite Hl in Ho. simpl in Ho. by apply bool_decide_eq_true_1 in Ho.
Qed.

Lemma orderly_steps_reach s ls s' :
  session_reach broker_url decode from_json s -> orderly_steps s ls = Some s' ->
  session_reach broker_url decode from_json s'.
Proof.
  revert s. induction ls as [|l ls IH]; intros s Hs; simpl; [by intros [= <-]|].
  destruct (orderly_b s l) eqn:Ho; [|done]. destruct (step s l) as [s1|] eqn:Hst; [|done].
  intros H. apply (IH s1); [|done]. eapply sr_step; [done| |done]. by apply orderly_b_spec.
Qed.

(** Neither a new connection nor the end of the task [t]. *)
Definition quiet_b (t : nat) (l : Label) : bool :=
  negb (opens l) && match l with Resume t' EvBreak => negb (Nat.eqb t t') | _ => true end.

Lemma quiet_trans t s1 s2 s3 :
  quiet broker_url decode from_json t s1 s2 -> quiet broker_url decode from_json t s2 s3 ->
  quiet broker_url decode from_json t s1 s3.
Proof. intros H. induction 1; [done|]. by eapply q_step. Qed.

Lemma orderly_steps_quiet t s ls s' :
  forallb (quiet_b t) ls = true -> orderly_steps s ls = Some s' ->
  quiet broker_url decode from_json t s s'.
Proof.
  revert s. induction ls as [|l ls IH]; intros s; simpl; [intros _ [= <-]; apply q_refl|].
  intros [[Ho Hb]%andb_true_iff Hq]%andb_true_iff.
  destruct (orderly_b s l) eqn:Hor; [|done]. destruct (step s l) as [s1|] eqn:Hst; [|done].
  intros H. eapply quiet_trans; [|by apply (IH s1)].
  eapply q_step; [apply q_refl|by apply orderly_b_spec|by apply negb_true_iff| |done].
  intros ->. simpl in Hb. by rewrite Nat.eqb_refl in Hb.
Qed.
End sample.

Definition sample_frame (text : string) : option NMBMessage :=
  if String.eqb text "ack s" then Some (channel_frame ACK "s" "news") else None.

Abbreviation sample_steps := (orderly_steps "ws://broker" (fun _ => None) sample_frame).

(** A client connects, subscribes and is acknowledged; a second task listens,
    a third waits for the ACK of a SEND, and the client is closed. *)
Definition subscribed_labels : list Label :=
  [Spawn PConnect; Resume 0 (EvHandshake HsOpened); Resume 1 EvTurn;
   Spawn (PSubscribe "s" "u" "news"); Resume 1 (EvFrame (Text "ack s")); Resume 2 EvFuture;
   Spawn PListen; Spawn (PSend (send_frame "m" "peer" "task" []))].
Definition closing_labels : list Label :=
  [Spawn PClose; Resume 1 EvTurn; Resume 5 EvTurn].
Definition closed_labels : list Label :=
  [Resume 5 EvTurn; Resume 3 EvTimeout; Resume 4 EvFuture].

Definition sample_session (ls : list Label) : Session := default new_session (sample_steps new_session ls).

Lemma sample_reach ls :
  is_Some (sample_steps new_session ls) ->
  session_reach "ws://broker" (fun _ => None) sample_frame (sample_session ls).
Proof.
  intros [s Hs]. unfold sample_session. rewrite Hs. simpl.
  by eapply orderly_steps_reach; [apply sr_new|].
Qed.

(** What the tasks of the sample come to: the send is refused, the listener
    ends, the subscriber waits. *)
Example subscriber_left_waiting :
  let s := sample_session (subscribed_labels ++ closing_labels ++ closed_labels) in
  tasks s !! 2 = Some (SubGet "u" "news" 0) /\
  tasks s !! 3 = Some (Ended (Returned None)) /\
  tasks s !! 4 = Some (Ended (Raised (NMBConnectionError "Connection closed"))) /\
  tasks s !! 5 = Some (Ended (Returned None)).
Proof. vm_compute. done. Qed.

Lemma close_wakes_callers_witness :
  let s := sample_session (subscribed_labels ++ closing_labels) in
  closing 5 s /\
  exists ls s', steps "ws://broker" (fun _ => None) sample_frame s ls = Some s' /\
    Forall (turns_of s 5) ls /\ (length ls <= 3)%nat /\ tasks s' !! 5 = Some (Ended (Returned None)).
Proof.
  intros s. assert (Hc : closing 5 s) by (exists ClosingSocket; vm_compute; done). split; [done|].
  destruct (close_wakes_callers "ws://broker" (fun _ => None) sample_frame s 5) as [H _]; [|done|done].
  apply sample_reach. vm_compute. by eexists.
Defined.

(** The connection is lost; a listener and the subscriber wait on, while a
    new caller is refused. *)
Definition lost_labels : list Label := [PeerCloses 0; Resume 1 EvEnd].
Definition later_labels : list Label :=
  [Resume 3 EvTimeout; Spawn (PRequest (request_frame "r" "peer" "task" [] 5%Z)); Resume 3 EvTimeout].

Lemma no_live_check s :
  bool_decide (map_Forall (fun _ x => is_live x = false) (tasks s)) = true -> no_live s.
Proof. intros H. by apply bool_decide_eq_true_1 in H. Qed.

Lemma nothing_wakes_subscribers_witness :
  let s := sample_session (subscribed_labels ++ lost_labels) in
  let s' := sample_session (subscribed_labels ++ lost_labels ++ later_labels) in
  tasks s !! 2 = Some (SubGet "u" "news" 0) /\ tasks s' !! 2 = Some (SubGet "u" "news" 0).
Proof.
  intros s s'. assert (Ht : tasks s !! 2 = Some (SubGet "u" "news" 0)) by (vm_compute; done).
  split; [done|].
  apply (nothing_wakes_subscribers "ws://broker" (fun _ => None) sample_frame s s' 2);
    [|apply no_live_check; by vm_compute| |done|by vm_compute].
  - apply sample_reach. vm_compute. by eexists.
  - apply (orderly_steps_quiet _ _ _ 2 s later_labels s'); [by vm_compute|]. by vm_compute.
Defined.
