(* ===== verification/Sync.v ===== *)
(** * Sync

    The blocking wrapper of the bus client ([nmb/sync.py]) and the command
    line over it ([_main] of [nmb/client.py]).

    One thread connects, calls and closes; every iterator may be read by a
    thread of its own.  The coroutines run in the background loop, which is
    the [Session] of [ClientSession]; a pump is a coroutine that puts what
    its generator yields into a queue between the threads.

    Theorems: the iterators of the blocking client: what a reader is given,
    and what becomes of it when another thread closes the client. *)

From S2P Require Import Prelude Json JsonLoads Messages Client ClientSession.

(** ** State *)

(** The thread that reads an iterator: in [q.get()], in the body of its
    [for], or past it. *)
Inductive Reader := Waiting | Yielding | Finished.

(** [it_queue] ends with the sentinel [None]; [it_got] are the messages the
    reader was given. *)
Record Iter := {
  it_loop : nat;
  it_task : nat;
  it_queue : list (option NMBMessage);
  it_state : Reader;
  it_got : list NMBMessage
}.

(** The calling thread: free, in [_run] of a call, or in that of [close]. *)
Inductive Caller := Idle | Running (t : nat) | ClosingBus (t : nat).

(** [async_bus], [loop]: whether [_async_bus] and [_loop] are set; [loops]
    counts the loops that were started. *)
Record SyncBus := {
  session : Session;
  async_bus : bool;
  loop : bool;
  loops : nat;
  caller : Caller;
  result : option Outcome;
  iters : gmap nat Iter;
  next_iter : nat
}.

(** [MessageBus(sandbox_id)] *)
Definition new_sync : SyncBus :=
  {| session := new_session; async_bus := false; loop := false; loops := 0; caller := Idle;
     result := None; iters := ∅; next_iter := 0 |}.

Definition set_session (x : Session) (b : SyncBus) : SyncBus :=
  {| session := x; async_bus := async_bus b; loop := loop b; loops := loops b; caller := caller b;
     result := result b; iters := iters b; next_iter := next_iter b |}.

Definition set_caller (c : Caller) (r : option Outcome) (b : SyncBus) : SyncBus :=
  {| session := session b; async_bus := async_bus b; loop := loop b; loops := loops b; caller := c;
     result := r; iters := iters b; next_iter := next_iter b |}.

Definition set_iters (x : gmap nat Iter) (b : SyncBus) : SyncBus :=
  {| session := session b; async_bus := async_bus b; loop := loop b; loops := loops b;
     caller := caller b; result := result b; iters := x; next_iter := next_iter b |}.

Definition not_connected : BusExc :=
  NMBConnectionError "Not connected — call connect() first".

(** ** Calls *)

(** [_run(coro)] up to [future.result()]. *)
Definition _run (p : Program) (waits : nat -> Caller) (b : SyncBus) : SyncBus :=
  if loop b then
    set_caller (waits (next_task (session b))) (result b) (set_session (spawn p (session b)) b)
  else set_caller Idle (Some (Raised not_connected)) b.

(** [connect]: a new loop in a new thread, and a new client in it. *)
Definition connect (b : SyncBus) : SyncBus :=
  _run PConnect Running
    {| session := new_session; async_bus := true; loop := true; loops := S (loops b);
       caller := caller b; result := result b; iters := iters b; next_iter := next_iter b |}.

(** [send], [request], [reply] and [publish]: [_bus] raises when there is no
    client. *)
Definition call (p : Program) (b : SyncBus) : SyncBus :=
  if async_bus b then _run p Running b else set_caller Idle (Some (Raised not_connected)) b.

(** The end of [close]: the loop is stopped and closed, whatever still runs
    in it. *)
Definition stop_loop (b : SyncBus) : SyncBus :=
  {| session := session b; async_bus := false; loop := false; loops := loops b; caller := Idle;
     result := Some (Returned None); iters := iters b; next_iter := next_iter b |}.

Definition close (b : SyncBus) : SyncBus :=
  if async_bus b then _run PClose ClosingBus b else stop_loop b.

(** [_run] returns or raises what the coroutine did. *)
Definition return_ (b : SyncBus) : option SyncBus :=
  match caller b with
  | Idle => None
  | Running t =>
      match tasks (session b) !! t with Some (Ended o) => Some (set_caller Idle (Some o) b) | _ => None end
  | ClosingBus t =>
      match tasks (session b) !! t with
      | Some (Ended (Returned _)) => Some (stop_loop b)
      | Some (Ended o) => Some (set_caller Idle (Some o) b)
      | _ => None
      end
  end.

(** ** Iterators *)

(** The pump after a step of its generator: a message goes to the queue and
    the generator is asked for the next; its end, or its exception, puts the
    sentinel. *)
Definition pump_out (t : nat) (s : Session) : Session * list NMBMessage :=
  match tasks s !! t with
  | Some (ListenBody m) => (listen_turn t s, [m])
  | Some (SubBody m unsub ch q) => (sub_turn t unsub ch q s, [m])
  | _ => (s, [])
  end.

Definition sentinel (t : nat) (s : Session) : list (option NMBMessage) :=
  match tasks s !! t with Some (Ended _) => [None] | _ => [] end.

Definition put_all (ms : list NMBMessage) (e : list (option NMBMessage)) (i : Iter) : Iter :=
  {| it_loop := it_loop i; it_task := it_task i; it_queue := it_queue i ++ map Some ms ++ e;
     it_state := it_state i; it_got := it_got i |}.

(** [listen] or [subscribe] at the first [next()]: the pump starts. *)
Definition iterate (p : Program) (b : SyncBus) : SyncBus :=
  let t := next_task (session b) in
  let s := spawn p (session b) in
  let i := {| it_loop := loops b; it_task := t; it_queue := sentinel t s; it_state := Waiting;
              it_got := [] |} in
  {| session := s; async_bus := async_bus b; loop := loop b; loops := loops b; caller := caller b;
     result := result b; iters := <[next_iter b := i]> (iters b); next_iter := S (next_iter b) |}.

(** The iterator whose pump is the task [t] of the running loop. *)
Definition pumps (b : SyncBus) (t : nat) (i : Iter) : bool :=
  Nat.eqb (it_loop i) (loops b) && Nat.eqb (it_task i) t.

Definition feed (t : nat) (ms : list NMBMessage) (e : list (option NMBMessage)) (b : SyncBus) : SyncBus :=
  set_iters ((fun i => if pumps b t i then put_all ms e i else i) <$> iters b) b.

Section sync.
Context (broker_url : string) (decode : list Byte.byte -> option string)
  (from_json : string -> option NMBMessage).

(** One step of a coroutine in the background loop, with its pump if it has
    one. *)
Definition loop_step (t : nat) (e : Event) (b : SyncBus) : option SyncBus :=
  if loop b then
    s ← resume broker_url decode from_json t e (session b);
    let '(s, ms) := pump_out t s in
    Some (feed t ms (sentinel t s) (set_session s b))
  else None.

Definition set_reader (x : Reader) (q : list (option NMBMessage)) (got : list NMBMessage) (i : Iter)
  : Iter :=
  {| it_loop := it_loop i; it_task := it_task i; it_queue := q; it_state := x;
     it_got := got |}.

(** [q.get()] *)
Definition get (i : Iter) : option Iter :=
  match it_state i, it_queue i with
  | Waiting, Some m :: q => Some (set_reader Yielding q (it_got i ++ [m]) i)
  | Waiting, None :: q => Some (set_reader Finished q (it_got i) i)
  | _, _ => None
  end.

Definition next (i : Iter) : option Iter :=
  match it_state i with
  | Yielding => Some (set_reader Waiting (it_queue i) (it_got i) i)
  | _ => None
  end.

(** The caller leaves the [for], or is interrupted in it; the pump is
    cancelled by the loop, later. *)
Definition break (i : Iter) : option Iter :=
  match it_state i with
  | Finished => None
  | _ => Some (set_reader Finished (it_queue i) (it_got i) i)
  end.

Inductive SyncLabel :=
| SConnect
| SCall (p : Program)
| SClose
| SReturn
| SLoop (t : nat) (e : Event)
| SPeer (k : nat)
| SIterate (p : Program)
| SGet (i : nat)
| SNext (i : nat)
| SBreak (i : nat).

(** Only the pump of a reader that has left is cancelled. *)
Definition may_break (t : nat) (b : SyncBus) : bool :=
  existsb (fun i => pumps b t i && match it_state i with Finished => true | _ => false end)
    (map snd (map_to_list (iters b))).

Definition on_iter (f : Iter -> option Iter) (i : nat) (b : SyncBus) : option SyncBus :=
  x ← iters b !! i; x ← f x; Some (set_iters (<[i := x]> (iters b)) b).

Definition is_call (p : Program) : bool :=
  match p with PSend _ | PRequest _ | PReply _ => true | _ => false end.

Definition is_iterable (p : Program) : bool :=
  match p with PListen | PSubscribe _ _ _ => true | _ => false end.

Definition sync_step (b : SyncBus) (l : SyncLabel) : option SyncBus :=
  match l with
  | SConnect =>
      match caller b with Idle => if loop b then None else Some (connect b) | _ => None end
  | SCall p => match caller b with Idle => if is_call p then Some (call p b) else None | _ => None end
  | SClose => match caller b with Idle => Some (close b) | _ => None end
  | SReturn => return_ b
  | SLoop t e =>
      match e with
      | EvBreak => if may_break t b then loop_step t e b else None
      | _ => loop_step t e b
      end
  | SPeer k => Some (set_session (set_ws (ws (session b)) (open_sockets (session b) ∖ {[k]}) (session b)) b)
  | SIterate p => if loop b && is_iterable p then Some (iterate p b) else None
  | SGet i => on_iter get i b
  | SNext i => on_iter next i b
  | SBreak i => on_iter break i b
  end.

Fixpoint sync_steps (b : SyncBus) (ls : list SyncLabel) : option SyncBus :=
  match ls with
  | [] => Some b
  | l :: ls => b ← sync_step b l; sync_steps b ls
  end.
End sync.

(** ** The command line *)

(** The parsed arguments of [nmb-client]; a payload is still text. *)
Inductive Command :=
| CmdSend (to type payload : string)
| CmdRequest (to type payload : string) (timeout : seconds)
| CmdListen
| CmdSubscribe (channel : string)
| CmdPublish (channel type payload : string).

(** How a call of the bus ends for the command line: it returns, perhaps with
    a reply, the user interrupts it, or it raises something else. *)
Inductive CallEnd := CallReturned (reply : option NMBMessage) | CallInterrupted | CallRaised.

(** What is printed, the exit status, and whether the bus was closed. *)
Record CliEnd := {
  out : list string;
  err : list string;
  status : Z;
  bus_closed : bool
}.

Section cli.
(** [to_json], a call with its payload, and the messages of an iteration with how it ends. *)
Context (to_json : NMBMessage -> string)
  (run : Command -> json -> CallEnd) (iteration : Command -> list NMBMessage * CallEnd).

Definition printed (c : Command) (reply : option NMBMessage) : list string :=
  match c with
  | CmdSend _ _ _ => ["Sent."]
  | CmdPublish _ _ _ => ["Published."]
  | CmdRequest _ _ _ _ => match reply with Some m => [to_json m] | None => [] end
  | _ => []
  end.

(** An exception the handlers do not name ends the process with a traceback. *)
Definition run_call (c : Command) (payload : string) : CliEnd :=
  match load payload with
  | inl (DecodeError _ _ as e) =>
      {| out := []; err := ["Invalid JSON payload: " +:+ error_text payload e]; status := 1;
         bus_closed := true |}
  | inl _ => {| out := []; err := ["Traceback"]; status := 1; bus_closed := true |}
  | inr v =>
      match run c v with
      | CallReturned reply => {| out := printed c reply; err := []; status := 0; bus_closed := true |}
      | CallInterrupted => {| out := []; err := []; status := 0; bus_closed := true |}
      | CallRaised => {| out := []; err := ["Traceback"]; status := 1; bus_closed := true |}
      end
  end.

Definition run_iteration (c : Command) : CliEnd :=
  let '(ms, e) := iteration c in
  {| out := map to_json ms; err := match e with CallRaised => ["Traceback"] | _ => [] end;
     status := match e with CallRaised => 1 | _ => 0 end; bus_closed := true |}.

(** [_main] after the arguments: [failure] is what [bus.connect()] raised. *)
Definition _main (failure : option string) (c : Command) : CliEnd :=
  match failure with
  | Some text => {| out := []; err := ["Error: " +:+ text]; status := 1; bus_closed := false |}
  | None =>
      match c with
      | CmdSend _ _ p | CmdRequest _ _ p _ | CmdPublish _ _ p => run_call c p
      | CmdListen | CmdSubscribe _ => run_iteration c
      end
  end.
End cli.

(** ** What the generators yield

    Read off the schedule and the client, not off the pumps. *)

(** What the generator of task [t] takes from its queue of the client when
    [e] resumes it. *)
Definition taken (t : nat) (e : Event) (s : Session) : list NMBMessage :=
  match tasks s !! t, e with
  | Some Listening, EvItem => take 1 (listen_queue (bus s))
  | Some (SubGet _ _ q), EvItem => take 1 (default [] (queues (bus s) !! q))
  | _, _ => []
  end.

(** What the generator of iterator [k] yields in one step of the bus. *)
Definition step_yields (k : nat) (l : SyncLabel) (b : SyncBus) : list NMBMessage :=
  match l, iters b !! k with
  | SLoop t e, Some i => if pumps b t i then taken t e (session b) else []
  | _, _ => []
  end.

(** What it yields along a schedule. *)
Fixpoint yielded broker_url decode from_json (k : nat) (b : SyncBus) (ls : list SyncLabel)
  : list NMBMessage :=
  match ls with
  | [] => []
  | l :: ls => step_yields k l b ++
      match sync_step broker_url decode from_json b l with
      | Some b => yielded broker_url decode from_json k b ls
      | None => []
      end
  end.

(** ** The tasks a step leaves alone *)

Lemma spawn_other p s t x :
  tasks s !! t = Some x -> is_live x = false -> t < next_task s ->
  tasks (spawn p s) !! t = Some x.
Proof.
  intros Ht Hx Hlt. assert (Hne : t ≠ next_task s) by lia.
  assert (Hset : forall y c, tasks (set_task (next_task s) y (set_bus c (create_task Created s))) !! t = Some x).
  { intros y c. simpl. by rewrite !lookup_insert_ne by done. }
  assert (Hbase : forall y, tasks (set_task (next_task s) y (create_task Created s)) !! t = Some x).
  { intros y. simpl. by rewrite !lookup_insert_ne by done. }
  destruct p; unfold spawn; try apply Hbase.
  - unfold close_begin. simpl. destruct (recv_task s) as [r|]; simpl.
    2: { unfold close_socket. simpl. case_match; simpl; by rewrite !lookup_insert_ne by done. }
    destruct (decide (r = t)) as [->|Hr].
    + rewrite lookup_insert_ne by done. rewrite Ht. simpl.
      destruct x; try done; unfold close_socket; simpl; case_match; simpl;
        by rewrite !lookup_insert_ne by done.
    + destruct (<[next_task s := Created]> (tasks s) !! r) as [[]|]; simpl; unfold close_socket; simpl;
        try case_match; simpl; by rewrite ?lookup_insert_ne by done.
  - unfold call_begin. case_match; apply Hset.
  - unfold call_begin. case_match; apply Hset.
  - unfold send_only. case_match; [apply Hbase|apply Hset].
  - unfold sub_begin. destruct (subscribe_begin _ _ _ _). case_match; apply Hset.
  - unfold listen_turn. case_match; apply Hbase.
Qed.

(** The task that starts stands somewhere, and is the only new one. *)
Lemma spawn_new p s :
  is_Some (tasks (spawn p s) !! next_task s) /\ next_task (spawn p s) = S (next_task s).
Proof.
  assert (Hset : forall y s0, next_task s0 = S (next_task s) ->
    is_Some (tasks (set_task (next_task s) y s0) !! next_task s) /\
    next_task (set_task (next_task s) y s0) = S (next_task s)).
  { intros y s0 H. simpl. rewrite lookup_insert_eq. eauto. }
  destruct p; unfold spawn; try (by apply Hset).
  - assert (Hsock : forall s0, next_task s0 = S (next_task s) ->
      is_Some (tasks (close_socket (next_task s) s0) !! next_task s) /\
      next_task (close_socket (next_task s) s0) = S (next_task s)).
    { intros s0 H. unfold close_socket. destruct (ws s0); by apply Hset. }
    unfold close_begin. simpl. destruct (recv_task s) as [r|]; simpl; [|by apply Hsock].
    destruct (<[next_task s := Created]> (tasks s) !! r) as [[]|]; cbn [mbind option_bind];
      first [by apply Hsock|by apply Hset].
  - unfold call_begin. case_match; by apply Hset.
  - unfold call_begin. case_match; by apply Hset.
  - unfold send_only. case_match; by apply Hset.
  - unfold sub_begin. destruct (subscribe_begin _ _ _ _). case_match; by apply Hset.
  - unfold listen_turn. case_match; by apply Hset.
Qed.

Lemma resume_other broker_url decode from_json t e s s' t' :
  resume broker_url decode from_json t e s = Some s' -> t' ≠ t -> t' < next_task s ->
  tasks s' !! t' = tasks s !! t' /\ next_task s <= next_task s'.
Proof.
  intros Hr Hne Hlt. unfold resume in Hr.
  destruct (tasks s !! t) as [x|]; [|done].
  destruct x, e; try done; simplify_option_eq; try (injection Hr as <-);
    unfold attempt_end, connect_end, loop_start, receive, listen_turn, sub_turn, close_socket;
    repeat (case_match; simplify_eq/=); unfold close_socket, time_out; repeat case_match; simpl;
    rewrite ?lookup_insert_ne by lia; auto with lia.
Qed.

(** ** Iterators *)

(** Where a pump stands between the steps of the loop. *)
Definition pump_task (x : Task) : bool :=
  match x with SubAck _ _ _ _ _ | SubGet _ _ _ | Listening | Ended _ => true | _ => false end.

(** The queue of an iterator: messages, and then the sentinel. *)
Definition iter_fifo (i : Iter) (e : list (option NMBMessage)) : Prop :=
  exists ms, it_queue i = map Some ms ++ e /\ (e = [] \/ e = [None]).

(** While its loop runs, the sentinel is there exactly when the pump has
    ended, unless the reader took it. *)
Definition iter_live (b : SyncBus) (i : Iter) (e : list (option NMBMessage)) : Prop :=
  it_loop i = loops b -> loop b = true ->
  it_task i < next_task (session b) /\
  exists x, tasks (session b) !! it_task i = Some x /\ pump_task x = true /\
    (e = [None] -> is_ended x = true) /\
    (is_ended x = true -> it_state i ≠ Finished -> e = [None]).

Record sync_ok (b : SyncBus) : Prop := {
  sy_iters : forall k i, iters b !! k = Some i ->
    it_loop i <= loops b /\ k < next_iter b /\ exists e, iter_fifo i e /\ iter_live b i e
}.

Lemma pump_not_live x : pump_task x = true -> is_live x = false.
Proof. by destruct x. Qed.

(** An iterator stays as it is while the task of its pump does. *)
Lemma iter_live_same b b' i e :
  loops b' = loops b -> loop b' = loop b ->
  next_task (session b) <= next_task (session b') ->
  (forall x, tasks (session b) !! it_task i = Some x -> pump_task x = true ->
     it_task i < next_task (session b) -> tasks (session b') !! it_task i = Some x) ->
  iter_live b i e -> iter_live b' i e.
Proof.
  intros Hl Hr Hn Ht Hi H1 H2. rewrite Hl in H1. rewrite Hr in H2.
  destruct (Hi H1 H2) as (Hlt & x & Hx & Hp & Hrest). split; [lia|]. exists x. auto.
Qed.

Lemma spawn_keeps b p c r :
  sync_ok b -> sync_ok (set_caller c r (set_session (spawn p (session b)) b)).
Proof.
  intros [Hi]. split. intros k i Hk. destruct (Hi k i Hk) as (H1 & H2 & e & H3 & H4).
  split; [done|]. split; [done|]. exists e. split; [done|].
  apply (iter_live_same b); [done|done| | |done].
  - simpl. destruct (spawn_new p (session b)) as [_ ->]. lia.
  - simpl. intros x Hx Hp Hlt. apply spawn_other; auto using pump_not_live.
Qed.

Lemma set_caller_ok c r b : sync_ok b -> sync_ok (set_caller c r b).
Proof. intros [Hi]. by split. Qed.

Lemma run_ok p w b : sync_ok b -> sync_ok (_run p w b).
Proof. intros Hb. unfold _run. destruct (loop b); [by apply spawn_keeps|by apply set_caller_ok]. Qed.

(** An iterator whose loop is not running is left as it is. *)
Lemma stopped_ok b b' :
  sync_ok b -> iters b' = iters b -> next_iter b' = next_iter b -> loops b <= loops b' ->
  (loop b' = false \/ loops b < loops b') -> sync_ok b'.
Proof.
  intros [Hi] H1 H2 H3 H4. split. rewrite H1, H2. intros k i Hk.
  destruct (Hi k i Hk) as (Hl & Hn & e & He & _). split; [lia|]. split; [done|].
  exists e. split; [done|]. intros Hc Hr. destruct H4; [congruence|lia].
Qed.

Lemma connect_ok b : sync_ok b -> sync_ok (connect b).
Proof. intros Hb. unfold connect. apply run_ok. eapply stopped_ok; [exact Hb| | | |]; simpl; auto with lia. Qed.

Lemma return_ok b b' : sync_ok b -> return_ b = Some b' -> sync_ok b'.
Proof.
  intros Hb. unfold return_. destruct (caller b); [done| |];
    repeat case_match; intros; simplify_eq; try by apply set_caller_ok.
  eapply stopped_ok; [exact Hb| | | |]; simpl; auto.
Qed.

(** The pump of a generator, over one step of it. *)
Lemma pump_step broker_url decode from_json t e s s1 s2 ms x :
  tasks s !! t = Some x -> pump_task x = true ->
  resume broker_url decode from_json t e s = Some s1 -> pump_out t s1 = (s2, ms) ->
  is_ended x = false /\ next_task s2 = next_task s /\ ms = taken t e s /\
  (exists y, tasks s2 !! t = Some y /\ pump_task y = true /\
     sentinel t s2 = (if is_ended y then [None] else [])) /\
  (forall t', t' ≠ t -> tasks s2 !! t' = tasks s1 !! t').
Proof.
  intros Hx Hp Hr Ho. unfold resume in Hr. rewrite Hx in Hr. unfold pump_out in Ho.
  destruct x, e; try done; simplify_option_eq; try (injection Hr as <-);
    repeat (case_match; simplify_eq/=);
    unfold sub_turn, listen_turn, sub_leave, ended, time_out in *;
    repeat (case_match; simplify_eq/=);
    rewrite ?lookup_insert_eq in *; simplify_eq/=.
  all: split_and!; try done;
    first [ unfold taken; rewrite Hx; unfold subscription_get in *; by repeat (case_match; simplify_eq/=)
          | unfold taken; rewrite Hx; match goal with H : listen_queue _ = _ |- _ => by rewrite H end
          | eexists; split; [done|]; split; [done|]; unfold sentinel; simpl; by rewrite lookup_insert_eq
          | intros t' Hne; by rewrite !lookup_insert_ne by done ].
Qed.

Lemma pump_out_other t s s' ms t' :
  pump_out t s = (s', ms) -> t' ≠ t ->
  tasks s' !! t' = tasks s !! t' /\ next_task s' = next_task s.
Proof.
  unfold pump_out. intros H Hne.
  destruct (tasks s !! t) as [[]|]; simplify_eq/=; try done;
    unfold sub_turn, listen_turn; case_match; simpl; by rewrite lookup_insert_ne.
Qed.

Lemma loop_step_ok broker_url decode from_json t e b b' :
  sync_ok b -> loop_step broker_url decode from_json t e b = Some b' -> sync_ok b'.
Proof.
  intros [Hi] Hst. unfold loop_step in Hst. destruct (loop b) eqn:Hl; [|done].
  destruct (resume broker_url decode from_json t e (session b)) as [s1|] eqn:Hr; [|done].
  cbn [mbind option_bind] in Hst. destruct (pump_out t s1) as [s2 ms] eqn:Ho. injection Hst as <-.
  split. simpl. intros k i' Hk. rewrite lookup_fmap in Hk.
  destruct (iters b !! k) as [i|] eqn:Hik; [|done]. simpl in Hk. injection Hk as <-.
  destruct (Hi k i Hik) as (Hle & Hlt & e0 & Hfifo & Hlive).
  unfold pumps. simpl. destruct (Nat.eqb_spec (it_loop i) (loops b)) as [Heq|Hne]; simpl.
  2: { split; [done|]. split; [done|]. exists e0. split; [done|]. by intros ?. }
  destruct (Hlive Heq Hl) as (Hbelow & x & Hx & Hp & He1 & He2).
  destruct (Nat.eqb_spec (it_task i) t) as [<-|Hnt]; simpl.
  - destruct (pump_step _ _ _ _ _ _ _ _ _ _ Hx Hp Hr Ho) as (Hend & Hn & _ & (y & Hy & Hpy & Hs) & _).
    split; [done|]. split; [done|]. exists (sentinel (it_task i) s2).
    destruct Hfifo as (old & Hq & Hsent).
    assert (e0 = []) as ->. { destruct Hsent as [?|He]; [done|]. rewrite He1 in Hend; done. }
    split.
    + exists (old ++ ms). simpl. rewrite Hq, app_nil_r, map_app, !app_assoc.
      split; [done|]. rewrite Hs. destruct (is_ended y); auto.
    + intros _ _. simpl. rewrite Hn. split; [done|]. exists y. rewrite Hs.
      split; [done|]. split; [done|]. destruct (is_ended y); done.
  - split; [done|]. split; [done|]. exists e0. split; [done|]. intros _ _. simpl.
    destruct (resume_other _ _ _ _ _ _ _ _ Hr Hnt Hbelow) as [H1 H2].
    destruct (pump_out_other _ _ _ _ _ Ho Hnt) as [H3 H4].
    split; [lia|]. exists x. by rewrite H3, H1.
Qed.

Lemma iterate_ok p b :
  is_iterable p = true -> sync_ok b -> sync_ok (iterate p b).
Proof.
  intros Hp [Hi]. split. simpl. intros k i. rewrite lookup_insert. case_decide as Hk.
  - intros [= <-]. simpl. split; [done|]. split; [lia|].
    destruct (spawn_new p (session b)) as [[x Hx] Hn].
    exists (sentinel (next_task (session b)) (spawn p (session b))). split.
    + exists []. simpl. split; [done|]. unfold sentinel. rewrite Hx. destruct x; auto.
    + intros _ _. simpl. rewrite Hn. split; [lia|]. exists x. split; [done|]. unfold sentinel. rewrite Hx.
      split; [|by destruct x].
      destruct p; try done; unfold spawn, sub_begin, listen_turn in Hx;
        [destruct (subscribe_begin _ _ _ _)|]; case_match; simpl in Hx;
        rewrite lookup_insert_eq in Hx; by injection Hx as <-.
  - intros Hik. destruct (Hi k i Hik) as (H1 & H2 & e & H3 & H4).
    split; [done|]. split; [lia|]. exists e. split; [done|].
    apply (iter_live_same b); [done|done| | |done].
    + simpl. destruct (spawn_new p (session b)) as [_ ->]. lia.
    + simpl. intros x Hx Hpx Hlt. apply spawn_other; auto using pump_not_live.
Qed.

(** Reading keeps the order. *)
Lemma on_iter_ok f k b b' :
  (forall i i' e, f i = Some i' -> iter_fifo i e -> (it_state i' ≠ Finished -> it_state i ≠ Finished) /\
     it_loop i' = it_loop i /\ it_task i' = it_task i /\
     exists e', iter_fifo i' e' /\ (e' = e \/ (e' = [] /\ it_state i' = Finished))) ->
  sync_ok b -> on_iter f k b = Some b' -> sync_ok b'.
Proof.
  intros Hf [Hi] Hst. unfold on_iter in Hst. destruct (iters b !! k) as [i|] eqn:Hk; [|done].
  simpl in Hst. destruct (f i) as [i'|] eqn:Hfi; [|done]. injection Hst as <-.
  split. simpl. intros k' j. rewrite lookup_insert. case_decide; [subst k'|by apply Hi].
  intros [= <-]. destruct (Hi k i Hk) as (H1 & H2 & e & H3 & H4).
  destruct (Hf _ _ _ Hfi H3) as (Hs & Hl & Ht & e' & H5 & H6). rewrite Hl.
  split; [done|]. split; [done|]. exists e'. split; [done|].
  intros Hc Hr. rewrite Hl in Hc. destruct (H4 Hc Hr) as (H7 & x & H8 & H9 & H10 & H11).
  rewrite Ht. split; [done|]. exists x. split; [done|]. split; [done|].
  destruct H6 as [->|[-> Hfin]]; [auto|]. split; [done|]. by intros.
Qed.

Lemma sync_step_ok broker_url decode from_json b l b' :
  sync_ok b -> sync_step broker_url decode from_json b l = Some b' -> sync_ok b'.
Proof.
  intros Hb Hst. destruct l as [|p| | |t e|k|p|k|k|k]; simpl in Hst.
  - destruct (caller b); [|done|done]. destruct (loop b); [done|]. injection Hst as <-. by apply connect_ok.
  - destruct (caller b); [|done|done]. destruct (is_call p); [|done]. injection Hst as <-.
    unfold call. destruct (async_bus b); [by apply run_ok|by apply set_caller_ok].
  - destruct (caller b); [|done|done]. injection Hst as <-. unfold close.
    destruct (async_bus b); [by apply run_ok|]. eapply stopped_ok; [exact Hb| | | |]; simpl; auto.
  - by apply (return_ok b).
  - destruct e; try (by eapply loop_step_ok). destruct (may_break t b); [|done]. by eapply loop_step_ok.
  - injection Hst as <-. destruct Hb as [Hi]. by split.
  - destruct (loop b && is_iterable p) eqn:Hp; [|done]. injection Hst as <-.
    apply andb_true_iff in Hp as [_ Hp]. by apply iterate_ok.
  - eapply on_iter_ok; [|exact Hb|exact Hst]. intros i i' e Hg (ms & Hq & He).
    unfold get in Hg. destruct (it_state i) eqn:Hs; try done. rewrite Hq in Hg.
    destruct ms as [|m ms]; simpl in Hg.
    + destruct He as [->| ->]; [done|]. injection Hg as <-. simpl. split_and!; try done.
      exists []. split; [|auto]. exists []. simpl. auto.
    + injection Hg as <-. simpl. split_and!; try done. exists e. split; [|auto].
      by exists ms.
  - eapply on_iter_ok; [|exact Hb|exact Hst]. intros i i' e Hg (ms & Hq & He).
    unfold next in Hg. destruct (it_state i) eqn:Hs; try done. injection Hg as <-. simpl.
    split_and!; try done. exists e. split; [by exists ms|auto].
  - eapply on_iter_ok; [|exact Hb|exact Hst]. intros i i' e Hg (ms & Hq & He).
    unfold break in Hg. destruct (it_state i) eqn:Hs; try done; injection Hg as <-; simpl;
      split_and!; try done; exists e; (split; [by exists ms|auto]).
Qed.

Section reach.
Context (broker_url : string) (decode : list Byte.byte -> option string)
  (from_json : string -> option NMBMessage).
Abbreviation sync_step := (sync_step broker_url decode from_json).
Abbreviation sync_steps := (sync_steps broker_url decode from_json).

Lemma sync_steps_ok b ls b' : sync_ok b -> sync_steps b ls = Some b' -> sync_ok b'.
Proof.
  revert b. induction ls as [|l ls IH]; intros b Hb; simpl; [by intros [= <-]|].
  destruct (sync_step b l) as [b1|] eqn:Hst; [|done]. apply IH. by eapply sync_step_ok.
Qed.

(** The messages that went through an iterator: those its reader was given,
    then those that wait. *)
Definition pumped (k : nat) (b : SyncBus) : list NMBMessage :=
  match iters b !! k with Some i => it_got i ++ omap Datatypes.id (it_queue i) | None => [] end.

Lemma on_iter_pumped f k k' b b' :
  (forall i i', f i = Some i' ->
     it_got i' ++ omap Datatypes.id (it_queue i') = it_got i ++ omap Datatypes.id (it_queue i)) ->
  on_iter f k' b = Some b' -> pumped k b' = pumped k b.
Proof.
  intros Hf Hst. unfold on_iter in Hst. destruct (iters b !! k') as [i|] eqn:Hk; [|done].
  simpl in Hst. destruct (f i) as [i'|] eqn:Hfi; [|done]. injection Hst as <-.
  unfold pumped. simpl. rewrite lookup_insert. case_decide; [subst k'|done].
  rewrite Hk. by apply Hf.
Qed.

Lemma omap_some (ms : list NMBMessage) : omap Datatypes.id (map Some ms) = ms.
Proof. induction ms as [|m ms IH]; csimpl; [done|by rewrite IH]. Qed.

Lemma messages_of (ms : list NMBMessage) e : e = [] \/ e = [None] -> omap Datatypes.id (map Some ms ++ e) = ms.
Proof. intros He. rewrite omap_app, omap_some. destruct He as [-> | ->]; apply app_nil_r. Qed.

Lemma sentinel_silent t s : omap Datatypes.id (sentinel t s) = [].
Proof. unfold sentinel. by destruct (tasks s !! t) as [[]|]. Qed.

Lemma loop_step_pumped k t e b b' :
  sync_ok b -> loop_step broker_url decode from_json t e b = Some b' ->
  pumped k b' = pumped k b ++ step_yields k (SLoop t e) b.
Proof.
  intros [Hi] Hst. unfold loop_step in Hst. destruct (loop b) eqn:Hl; [|done].
  destruct (resume broker_url decode from_json t e (session b)) as [s1|] eqn:Hr; [|done].
  cbn [mbind option_bind] in Hst. destruct (pump_out t s1) as [s2 ms] eqn:Ho. injection Hst as <-.
  unfold pumped, step_yields. simpl. rewrite lookup_fmap.
  destruct (iters b !! k) as [i|] eqn:Hik; [|done]. simpl.
  destruct (Hi k i Hik) as (_ & _ & e0 & _ & Hlive). unfold pumps. simpl.
  destruct (Nat.eqb_spec (it_loop i) (loops b)) as [Heq|Hne]; [|by rewrite app_nil_r].
  destruct (Nat.eqb_spec (it_task i) t) as [<-|Hnt]; simpl; [|by rewrite app_nil_r].
  destruct (Hlive Heq Hl) as (_ & x & Hx & Hp & _).
  destruct (pump_step _ _ _ _ _ _ _ _ _ _ Hx Hp Hr Ho) as (_ & _ & <- & _).
  rewrite !omap_app, sentinel_silent, app_nil_r, omap_some, <- app_assoc. done.
Qed.

Lemma step_pumped k b l b' :
  sync_ok b -> sync_step b l = Some b' -> pumped k b' = pumped k b ++ step_yields k l b.
Proof.
  intros Hb Hst. assert (Hsame : iters b' = iters b -> pumped k b' = pumped k b ++ []).
  { unfold pumped. intros ->. by rewrite app_nil_r. }
  destruct l as [|p| | |t e|k'|p|k'|k'|k']; simpl in Hst; try (apply loop_step_pumped; done).
  - destruct (caller b); [|done|done]. destruct (loop b); [done|]. injection Hst as <-. by apply Hsame.
  - destruct (caller b); [|done|done]. destruct (is_call p); [|done]. injection Hst as <-.
    apply Hsame. unfold call, _run. by destruct (async_bus b), (loop b).
  - destruct (caller b); [|done|done]. injection Hst as <-.
    apply Hsame. unfold close, _run. by destruct (async_bus b), (loop b).
  - apply Hsame. unfold return_ in Hst. destruct (caller b); repeat case_match; by simplify_eq.
  - destruct e; try (by apply loop_step_pumped). destruct (may_break t b); [|done]. by apply loop_step_pumped.
  - injection Hst as <-. by apply Hsame.
  - destruct (loop b && is_iterable p); [|done]. injection Hst as <-. unfold pumped. simpl.
    rewrite lookup_insert, app_nil_r. case_decide as Hk; [|done]. simpl. rewrite sentinel_silent.
    destruct (iters b !! k) as [i|] eqn:Hi; [|done].
    destruct (sy_iters _ Hb _ _ Hi) as (_ & Hlt & _). lia.
  - rewrite app_nil_r. eapply on_iter_pumped; [|exact Hst]. intros i i' Hg. unfold get in Hg.
    destruct (it_state i); try done. destruct (it_queue i) as [|[m|] q]; try done; injection Hg as <-; simpl;
      by rewrite <- ?app_assoc.
  - rewrite app_nil_r. eapply on_iter_pumped; [|exact Hst]. intros i i' Hg. unfold next in Hg.
    by destruct (it_state i); simplify_eq.
  - rewrite app_nil_r. eapply on_iter_pumped; [|exact Hst]. intros i i' Hg. unfold break in Hg.
    by destruct (it_state i); simplify_eq.
Qed.

Lemma steps_pumped k b ls b' :
  sync_ok b -> sync_steps b ls = Some b' ->
  pumped k b' = pumped k b ++ yielded broker_url decode from_json k b ls.
Proof.
  revert b. induction ls as [|l ls IH]; intros b Hb; simpl; [intros [= <-]; by rewrite app_nil_r|].
  destruct (sync_step b l) as [b1|] eqn:Hst; [|done]. simpl. intros H.
  rewrite (IH b1), (step_pumped k b l b1), <- app_assoc; [done..| |done]. by eapply sync_step_ok.
Qed.

(** Its reader waits, there is nothing to read, and its loop is gone. *)
Definition stranded (b : SyncBus) (i : Iter) : Prop :=
  it_state i = Waiting /\ it_queue i = [] /\ (loop b = false \/ it_loop i ≠ loops b).

Lemma run_iters p w b : iters (_run p w b) = iters b /\ loops (_run p w b) = loops b /\
  loop (_run p w b) = loop b.
Proof. unfold _run. destruct (loop b) eqn:H; simpl; auto. Qed.

Lemma on_iter_other f k k' b b' i :
  on_iter f k' b = Some b' -> iters b !! k = Some i -> k' ≠ k \/ f i = None ->
  iters b' !! k = Some i /\ loops b' = loops b /\ loop b' = loop b.
Proof.
  unfold on_iter. intros Hst Hi Hf. destruct (iters b !! k') as [x|] eqn:Hx; [|done]. simpl in Hst.
  destruct (f x) as [y|] eqn:Hy; [|done]. injection Hst as <-. simpl. split; [|done].
  rewrite lookup_insert_ne; [done|]. intros ->. destruct Hf; congruence.
Qed.

Lemma stranded_step b l b' k i :
  sync_ok b -> iters b !! k = Some i -> stranded b i -> l ≠ SBreak k ->
  sync_step b l = Some b' -> iters b' !! k = Some i /\ stranded b' i.
Proof.
  intros [Hall] Hi (Hw & Hq & Hl) Hne Hst. destruct (Hall _ _ Hi) as (Hle & Hlt & _).
  assert (Hsame : iters b' !! k = Some i /\ loops b' = loops b /\ loop b' = loop b ->
                  iters b' !! k = Some i /\ stranded b' i).
  { intros (H1 & H2 & H3). split; [done|]. unfold stranded. by rewrite H2, H3. }
  assert (Hloop : forall t e, loop_step broker_url decode from_json t e b = Some b' ->
                  iters b' !! k = Some i /\ stranded b' i).
  { intros t e H. apply Hsame. unfold loop_step in H. destruct (loop b) eqn:Hlb; [|done].
    destruct Hl as [?|Hl]; [done|].
    destruct (resume _ _ _ _ _ _) as [s1|]; [|done]. cbn [mbind option_bind] in H.
    destruct (pump_out t s1) as [s2 ms]. injection H as <-. simpl. split; [|done].
    rewrite lookup_fmap, Hi. simpl. unfold pumps. simpl.
    by destruct (Nat.eqb_spec (it_loop i) (loops b)). }
  destruct l as [|p| | |t e|k'|p|k'|k'|k']; simpl in Hst.
  - destruct (caller b); [|done|done]. destruct (loop b); [done|]. injection Hst as <-.
    split; [done|]. unfold stranded. simpl. split; [done|]. split; [done|]. right. lia.
  - destruct (caller b); [|done|done]. destruct (is_call p); [|done]. injection Hst as <-.
    unfold call in *. destruct (async_bus b); apply Hsame; [|done].
    destruct (run_iters p Running b) as (-> & -> & ->). done.
  - destruct (caller b); [|done|done]. injection Hst as <-. unfold close in *.
    destruct (async_bus b); [|by split; [|split; [|split; [|left]]]].
    apply Hsame. destruct (run_iters PClose ClosingBus b) as (-> & -> & ->). done.
  - unfold return_ in Hst. destruct (caller b); [done| |];
      repeat case_match; simplify_eq; try (by apply Hsame).
    split; [done|]. split; [done|]. split; [done|]. by left.
  - destruct e; eauto. destruct (may_break t b); [|done]. eauto.
  - injection Hst as <-. by apply Hsame.
  - destruct (loop b && is_iterable p); [|done]. injection Hst as <-. apply Hsame. simpl.
    split; [|done]. rewrite lookup_insert_ne; [done|]. lia.
  - apply Hsame. eapply on_iter_other; [done|done|]. right. unfold get. by rewrite Hw, Hq.
  - apply Hsame. eapply on_iter_other; [done|done|]. right. unfold next. by rewrite Hw.
  - apply Hsame. eapply on_iter_other; [done|done|]. left. congruence.
Qed.

(** C22: iterators of the blocking client.  Along every schedule of the
    threads and of the background loop, what a reader was given followed by
    what waits in its queue is exactly what the generator yielded: the
    messages that the steps of its coroutine took from the client's queue,
    each once and in order; while the loop runs, the end of the iteration
    is in the queue exactly when the generator has ended, however it ended.
    But a reader that waits on an empty queue when its loop has been stopped,
    as [close] in another thread does, waits forever: no later step, a new
    connection included, changes its iterator until it is interrupted. *)
Theorem sync_iterators ls b k i :
  sync_steps new_sync ls = Some b -> iters b !! k = Some i ->
  (exists ms e, it_queue i = map Some ms ++ e /\ (e = [] \/ e = [None]) /\
     it_got i ++ ms = yielded broker_url decode from_json k new_sync ls /\
     (loop b = true -> it_loop i = loops b -> it_state i ≠ Finished ->
      e = [None] <-> exists o, tasks (session b) !! it_task i = Some (Ended o))) /\
  (stranded b i -> forall ls' b', sync_steps b ls' = Some b' -> Forall (fun l => l ≠ SBreak k) ls' ->
     iters b' !! k = Some i).
Proof.
  intros Hrun Hi. assert (Hr : sync_ok b) by (eapply sync_steps_ok; [|exact Hrun]; by split).
  split.
  - destruct (sy_iters _ Hr _ _ Hi) as (_ & _ & e & (ms & Hq & He) & Hl).
    exists ms, e. split; [done|]. split; [done|]. split.
    { assert (Hn : sync_ok new_sync) by by split.
      pose proof (steps_pumped k _ _ _ Hn Hrun) as Hp. unfold pumped in Hp.
      rewrite Hi, Hq, (messages_of _ _ He) in Hp. exact Hp. }
    intros H1 H2 H3. destruct (Hl H2 H1) as (_ & x & Hx & _ & H4 & H5). rewrite Hx. split.
    + intros H. specialize (H4 H). destruct x; try done. eauto.
    + intros [o [= ->]]. by apply H5.
  - clear Hrun. intros Hs ls'. revert b Hr Hi Hs. induction ls' as [|l ls' IH]; intros b Hr Hi Hs b'; simpl.
    + by intros [= <-].
    + destruct (sync_step b l) as [b1|] eqn:Hst; [|done]. intros H Hall.
      apply list.Forall_cons in Hall as [Hne Hall].
      destruct (stranded_step _ _ _ _ _ Hr Hi Hs Hne Hst) as [H1 H2].
      exact (IH b1 (sync_step_ok _ _ _ _ _ _ Hr Hst) H1 H2 b' H Hall).
Qed.
End reach.

(** ** A reader is left behind *)

Definition delivered : NMBMessage := channel_frame DELIVER "d" "".
Abbreviation sample_sync := (sync_steps "ws://broker" (fun _ => None) (fun _ => Some delivered)).

(** One thread connects; another listens, reads one message and waits for the
    next; the first closes. *)
Definition listening_labels : list SyncLabel :=
  [SConnect; SLoop 0 (EvHandshake HsOpened); SReturn; SLoop 1 EvTurn; SIterate PListen;
   SLoop 1 (EvFrame (Text "deliver")); SLoop 2 EvItem; SGet 0; SNext 0].
Definition sync_closing_labels : list SyncLabel :=
  [SClose; SLoop 1 EvTurn; SLoop 3 EvTurn; SLoop 3 EvTurn; SReturn].

Definition left_behind : SyncBus := default new_sync (sample_sync new_sync (listening_labels ++ sync_closing_labels)).
Definition left_iter : Iter :=
  {| it_loop := 1; it_task := 2; it_queue := []; it_state := Waiting; it_got := [delivered] |}.

Lemma sync_iterators_witness :
  iters left_behind !! 0 = Some left_iter /\ result left_behind = Some (Returned None) /\
  yielded "ws://broker" (fun _ => None) (fun _ => Some delivered) 0 new_sync
    (listening_labels ++ sync_closing_labels) = [delivered] /\
  forall ls b', sample_sync left_behind ls = Some b' -> Forall (fun l => l ≠ SBreak 0) ls ->
    iters b' !! 0 = Some left_iter.
Proof.
  assert (Hi : iters left_behind !! 0 = Some left_iter) by (vm_compute; done).
  split; [done|]. split; [by vm_compute|].
  assert (Hrun : sample_sync new_sync (listening_labels ++ sync_closing_labels) = Some left_behind)
    by (vm_compute; done).
  destruct (sync_iterators "ws://broker" (fun _ => None) (fun _ => Some delivered)
           (listening_labels ++ sync_closing_labels) left_behind 0 left_iter Hrun Hi)
    as ((ms & e & Hq & He & Hy & _) & Hs).
  split.
  - rewrite <- Hy. destruct ms; [done|]. destruct He as [-> | ->]; discriminate Hq.
  - apply Hs. split; [done|]. split; [done|]. left. by vm_compute.
Defined.
