(* ===== verification/AgentTypes.v ===== *)
(** * AgentTypes

    The data the agent loop, its tools and the orchestrator exchange
    ([models/types.py]), the interfaces the loop is written against
    (inference backend, approval gate, tool handlers), and the small
    state-and-exception monad the asynchronous code is modelled in. *)

From S2P Require Import Prelude Json.

(** [ToolCall] *)
Record ToolCall := { tc_id : string; tc_name : string; tc_arguments : string }.

(** [MessageRole] *)
Inductive MessageRole := SYSTEM | USER | ASSISTANT | TOOL.

#[export] Instance MessageRole_eq_dec : EqDecision MessageRole.
Proof. solve_decision. Defined.

Definition role_value (r : MessageRole) : string :=
  match r with
  | SYSTEM => "system" | USER => "user" | ASSISTANT => "assistant" | TOOL => "tool"
  end.

(** [Message]: a chat message.  The dictionary has a [tool_calls] key only on
    an assistant message that requests tools and a [tool_call_id] key only
    on a tool result; the contents are strings throughout. *)
Record Message := {
  role : MessageRole;
  content : string;
  tool_calls : option (list ToolCall);
  tool_call_id : option string
}.

Definition text_message (r : MessageRole) (c : string) : Message :=
  {| role := r; content := c; tool_calls := None; tool_call_id := None |}.

Definition tool_message (i c : string) : Message :=
  {| role := TOOL; content := c; tool_calls := None; tool_call_id := Some i |}.

(** [{**msg, "content": c}] *)
Definition with_content (c : string) (m : Message) : Message :=
  {| role := role m; content := c; tool_calls := tool_calls m;
     tool_call_id := tool_call_id m |}.

(** [ToolDefinition] around its [FunctionDefinition] *)
Record ToolDefinition := {
  fn_name : string;
  fn_description : string;
  fn_parameters : json
}.

(** [InferenceRequest]; the temperature, which is only passed on, is the text
    of the float. *)
Record InferenceRequest := {
  rq_messages : list Message;
  rq_model : string;
  rq_temperature : string;
  rq_max_tokens : Z;
  rq_request_id : string;
  rq_tools : option (list ToolDefinition)
}.

(** [InferenceResponse], the fields the callers read. *)
Record InferenceResponse := {
  rs_content : string;
  finish_reason : string;
  rs_tool_calls : option (list ToolCall)
}.

(** [result.tool_calls] as a list; [None] and [[]] are both falsy. *)
Definition response_calls (r : InferenceResponse) : list ToolCall :=
  default [] (rs_tool_calls r).

(** [ApprovalResult] *)
Record ApprovalResult := { approved : bool; reason : option string }.

(** The context dictionary of an approval check. *)
Record ApprovalContext := {
  ac_tool_name : option string;
  ac_arguments : option string;
  ac_is_read_only : option bool;
  ac_content : option string;
  ac_request_id : string
}.

(** [PendingApproval] *)
Record PendingApproval := {
  pa_tool_calls : list ToolCall;
  pa_working_messages : list Message;
  pa_assistant_message : Message;
  pa_request_id : string;
  pa_description : string;
  pa_original_user_text : string;
  pa_surfaced_tools : gset string
}.

(** What the loop's code raises. *)
Inductive Exc :=
| InferenceError (category text : string)
| WriteApprovalError (p : PendingApproval)
| OtherError (text : string).

(** ** Interfaces

    [W] is the state of everything outside the program: the model behind
    the backend, the services the tools talk to, the user. *)

(** [BackendBase.complete] *)
Class Backend (W : Type) :=
  complete : InferenceRequest -> W -> (Exc + InferenceResponse) * W.

(** [ApprovalGate.check] *)
Class ApprovalGate (W : Type) :=
  approval_check : string -> ApprovalContext -> W -> ApprovalResult * W.

(** A tool handler: from its arguments, the surfaced tools of the task it
    runs in and the outside state to the exception text or the result. *)
Definition Handler (W : Type) : Type :=
  list (string * json) -> gset string * W -> (string + string) * (gset string * W).

(** ** The loop's state *)

(** [surface] is the [_TOOL_SURFACE] context variable of the running task;
    [names_by_id] the compactor's map; [requests], [executed], [outcomes]
    and [started] record, in order, the inference requests issued, the tool
    calls dispatched, what each of them raised or returned, and the
    thinking-indicator notifications. *)
Record Env (W : Type) := {
  surface : gset string;
  names_by_id : gmap string string;
  requests : list InferenceRequest;
  executed : list ToolCall;
  outcomes : list (string + string);
  started : list string;
  world : W
}.
Arguments surface {W} _.
Arguments names_by_id {W} _.
Arguments requests {W} _.
Arguments executed {W} _.
Arguments outcomes {W} _.
Arguments started {W} _.
Arguments world {W} _.

Definition new_env {W} (w : W) : Env W :=
  {| surface := ∅; names_by_id := ∅; requests := []; executed := []; outcomes := []; started := [];
     world := w |}.

Definition set_surface {W} (s : gset string) (e : Env W) : Env W :=
  {| surface := s; names_by_id := names_by_id e; requests := requests e;
     executed := executed e; outcomes := outcomes e; started := started e; world := world e |}.

Definition set_names {W} (n : gmap string string) (e : Env W) : Env W :=
  {| surface := surface e; names_by_id := n; requests := requests e;
     executed := executed e; outcomes := outcomes e; started := started e; world := world e |}.

Definition log_request {W} (r : InferenceRequest) (w : W) (e : Env W) : Env W :=
  {| surface := surface e; names_by_id := names_by_id e; requests := requests e ++ [r];
     executed := executed e; outcomes := outcomes e; started := started e; world := w |}.

Definition log_tool {W} (tc : ToolCall) (x : string + string) (s : gset string) (w : W) (e : Env W)
  : Env W :=
  {| surface := s; names_by_id := names_by_id e; requests := requests e;
     executed := executed e ++ [tc]; outcomes := outcomes e ++ [x]; started := started e; world := w |}.

Definition log_start {W} (d : string) (e : Env W) : Env W :=
  {| surface := surface e; names_by_id := names_by_id e; requests := requests e;
     executed := executed e; outcomes := outcomes e; started := started e ++ [d]; world := world e |}.

Definition set_world {W} (w : W) (e : Env W) : Env W :=
  {| surface := surface e; names_by_id := names_by_id e; requests := requests e;
     executed := executed e; outcomes := outcomes e; started := started e; world := w |}.

(** ** The monad *)

Definition M (W A : Type) : Type := Env W -> (Exc + A) * Env W.

Definition ret {W A} (x : A) : M W A := fun e => (inr x, e).
Definition raise {W A} (x : Exc) : M W A := fun e => (inl x, e).
Definition bind {W A B} (m : M W A) (k : A -> M W B) : M W B :=
  fun e => match m e with
           | (inr x, e) => k x e
           | (inl x, e) => (inl x, e)
           end.
Definition gets {W A} (f : Env W -> A) : M W A := fun e => (inr (f e), e).
Definition modify {W} (f : Env W -> Env W) : M W unit := fun e => (inr tt, f e).

Declare Scope agent_scope.
Delimit Scope agent_scope with agent.
Notation "x <- m ; k" := (bind m (fun x => k))
  (at level 100, m at next level, right associativity) : agent_scope.
Notation "m ;; k" := (bind m (fun _ => k))
  (at level 100, right associativity) : agent_scope.

(** [await self._backend.complete(request)] *)
Definition infer {W} `{Backend W} (r : InferenceRequest) : M W InferenceResponse :=
  fun e => let '(x, w) := complete r (world e) in (x, log_request r w e).

(** [await self._approval.check(action, context)] *)
Definition check_approval {W} `{ApprovalGate W} (action : string) (c : ApprovalContext)
  : M W ApprovalResult :=
  fun e => let '(x, w) := approval_check action c (world e) in (inr x, set_world w e).
