(* ===== verification/Registry.v ===== *)
(** * Registry

    The tool registry ([tools/registry.py]) and the [tool_search] meta-tool
    ([tools/tool_search.py]): registration, the core and surfaced views,
    fuzzy search and execution.

    Theorems: what the registry and its search promise: unique names, bounded
    results, a search that returns the best matches, and a surface that shows
    exactly what was found. *)

From Stdlib Require Import Ascii QArith Lqa OrdersEx Permutation Sorting.
From S2P Require Import Prelude Json JsonLoads Difflib AgentTypes.

(** ** Text helpers of the search *)

(** [str.lower] on the ASCII letters, which is what tool names, toolsets and
    queries are written in. *)
Definition lower_char (c : ascii) : ascii :=
  let n := N_of_ascii c in
  if ((65 <=? n) && (n <=? 90))%N then ascii_of_N (n + 32) else c.

Fixpoint lower (s : string) : string :=
  match s with
  | EmptyString => EmptyString
  | String c s' => String (lower_char c) (lower s')
  end.

(** [s.replace("_", " ")] *)
Fixpoint underscores_to_spaces (s : string) : string :=
  match s with
  | EmptyString => EmptyString
  | String c s' => String (if Ascii.eqb c "_" then " "%char else c) (underscores_to_spaces s')
  end.

(** [s.split()]: [word] holds the word being read, reversed. *)
Fixpoint split_from (word : string) (s : string) : list string :=
  match s with
  | EmptyString => if str_truthy word then [word] else []
  | String c s' =>
      if is_space c then
        if str_truthy word then word :: split_from EmptyString s' else split_from EmptyString s'
      else split_from (word +:+ String c EmptyString) s'
  end.

Definition split (s : string) : list string := split_from EmptyString s.

(** ** Tools *)

Definition _DEFAULT_MAX_RESULT_CHARS : Z := 8000.
Definition _DEFAULT_SEARCH_LIMIT : Z := 5.
Definition _MIN_FIELD_SCORE : Q := 7 # 10.

(** [ToolSpec]; [check_fn] is [None] or what it returns. *)
Record ToolSpec (W : Type) := {
  name : string;
  description : string;
  input_schema : json;
  handler : Handler W;
  is_read_only : bool;
  is_concurrency_safe : bool;
  is_core : bool;
  ts_display_name : string;
  toolset : string;
  check_fn : option bool;
  max_result_chars : Z
}.
Arguments name {W} _.
Arguments description {W} _.
Arguments input_schema {W} _.
Arguments handler {W} _ _ _.
Arguments is_read_only {W} _.
Arguments is_concurrency_safe {W} _.
Arguments is_core {W} _.
Arguments ts_display_name {W} _.
Arguments toolset {W} _.
Arguments check_fn {W} _.
Arguments max_result_chars {W} _.

Definition to_definition {W} (t : ToolSpec W) : ToolDefinition :=
  {| fn_name := name t; fn_description := description t; fn_parameters := input_schema t |}.

(** The registry's dictionary, in registration order. *)
Definition Registry (W : Type) : Type := list (ToolSpec W).

(** [_truncate] *)
Definition _truncate (text : string) (limit : Z) : string :=
  if (py_len text <=? limit)%Z then text
  else py_prefix limit text +:+ newline +:+ "... (truncated, "
       +:+ show_Z (py_len text - limit) +:+ " chars omitted)".

Section registry.
Context {W : Type}.

(** [self._tools.get(name)] *)
Definition get (n : string) (r : Registry W) : option (ToolSpec W) :=
  List.find (fun t => String.eqb (name t) n) r.

(** [register]: [inl] is the [ValueError]; a tool whose check fails is
    skipped. *)
Definition register (t : ToolSpec W) (r : Registry W) : string + Registry W :=
  match get (name t) r with
  | Some _ => inl ("Tool " +:+ py_repr (name t) +:+ " already registered")
  | None => match check_fn t with
            | Some false => inr r
            | _ => inr (r ++ [t])
            end
  end.

Definition display_name (n : string) (r : Registry W) : string :=
  match get n r with
  | Some t => if str_truthy (ts_display_name t) then ts_display_name t
              else "Running " +:+ n
  | None => "Running " +:+ n
  end.

Definition names (r : Registry W) : list string := map name r.

Definition names_in_toolset (ts : string) (r : Registry W) : list string :=
  map name (List.filter (fun t => String.eqb (toolset t) ts) r).

Definition core_names (r : Registry W) : list string := map name (List.filter is_core r).

Definition non_core_names (r : Registry W) : list string :=
  map name (List.filter (fun t => negb (is_core t)) r).

(** [mark_surfaced], on the surface of the running task. *)
Definition mark_surfaced (ns : list string) (r : Registry W) (s : gset string) : gset string :=
  let additions := List.filter (fun n => match get n r with
                                         | Some t => negb (is_core t)
                                         | None => false
                                         end) ns in
  s ∪ list_to_set additions.

(** [tool_definitions] under a surface. *)
Definition tool_definitions (r : Registry W) (s : gset string) : list ToolDefinition :=
  map to_definition (List.filter (fun t => is_core t || bool_decide (name t ∈ s)) r).

(** ** Search *)

Definition Qmax' (a b : Q) : Q := if Qle_bool a b then b else a.

(** [_field_score] *)
Definition _field_score (query field_value : string) : Q :=
  if str_truthy field_value then
    let tokens := split (underscores_to_spaces field_value) in
    let best := fold_left (fun m t => Qmax' m (ratio query t)) tokens (ratio query field_value) in
    if Qle_bool _MIN_FIELD_SCORE best then best else 0
  else 0.

(** The weighted total of a tool over the query terms. *)
Definition total_score (terms : list string) (t : ToolSpec W) : Q :=
  fold_left (fun total term =>
    total + (_field_score term (lower (name t)) * 3
             + _field_score term (lower (toolset t)) * 2
             + _field_score term (lower (description t)) * 1))%Q terms 0%Q.

(** [scored.sort(key=lambda item: (-item[0], item[1].name))]: does the first
    entry come before the second? *)
Definition ranks_before (a b : Q * ToolSpec W) : bool :=
  if Qeq_bool (fst a) (fst b) then String.leb (name (snd a)) (name (snd b))
  else Qle_bool (fst b) (fst a).

Fixpoint insert_ranked (x : Q * ToolSpec W) (l : list (Q * ToolSpec W))
  : list (Q * ToolSpec W) :=
  match l with
  | [] => [x]
  | y :: l' => if ranks_before x y then x :: l else y :: insert_ranked x l'
  end.

Definition sort_ranked (l : list (Q * ToolSpec W)) : list (Q * ToolSpec W) :=
  fold_right insert_ranked [] l.

(** [l[:n]] *)
Definition py_take {A} (n : Z) (l : list A) : list A :=
  if (n <? 0)%Z then take (Z.to_nat (Z.max 0 (Z.of_nat (length l) + n))) l
  else take (Z.to_nat n) l.

(** The non-core tools with a positive score, in registration order. *)
Definition scored_tools (terms : list string) (r : Registry W) : list (Q * ToolSpec W) :=
  List.filter (fun x => negb (Qle_bool (fst x) 0))
    (map (fun t => (total_score terms t, t))
         (List.filter (fun t => negb (is_core t)) r)).

Definition search (query : string) (limit : Z) (r : Registry W) : list (ToolSpec W) :=
  match map lower (split query) with
  | [] => []
  | terms => map snd (py_take limit (sort_ranked (scored_tools terms r)))
  end.

(** ** Execution *)

(** The text of the [TypeError] raised when keyword arguments are not a
    mapping. *)
Context (not_a_mapping : json -> string).

(** [execute]: the exception text or the truncated result. *)
Definition execute (n arguments : string) (r : Registry W) (c : gset string * W)
  : (string + string) * (gset string * W) :=
  match get n r with
  | None => (inl (py_repr n), c)
  | Some t =>
      match (if str_truthy arguments then json_loads arguments else inr (JObj [])) with
      | inl exc => (inl exc, c)
      | inr (JObj args) =>
          match handler t args c with
          | (inl exc, c) => (inl exc, c)
          | (inr result, c) => (inr (_truncate result (max_result_chars t)), c)
          end
      | inr v => (inl (not_a_mapping v), c)
      end
  end.
End registry.

(** ** [tool_search] *)

Definition _MAX_LIMIT : Z := 15.

(** [max(1, min(requested, _MAX_LIMIT))] *)
Definition bounded_limit (limit : option Z) : Z :=
  Z.max 1 (Z.min (default _DEFAULT_SEARCH_LIMIT limit) _MAX_LIMIT).

(** [_summarise] *)
Definition _summarise {W} (t : ToolSpec W) : json :=
  JObj [("name", JStr (name t)); ("toolset", JStr (toolset t));
        ("description", JStr (description t)); ("input_schema", input_schema t)].

(** The payload [tool_search] serialises and the surface it leaves in the
    task that runs it. *)
Definition tool_search {W} (r : Registry W)
  (query : string) (limit : option Z) (s : gset string) : json * gset string :=
  let n := bounded_limit limit in
  let hits := search query n r in
  (JObj [("query", JStr query); ("limit", JInt n); ("matches", JArr (map _summarise hits))],
   mark_surfaced (map name hits) r s).

(** ** The order of string keys *)

Lemma compare_is_ot (a b : string) : String.compare a b = String_as_OT.compare a b.
Proof.
  revert b. induction a as [|x a IH]; intros [|y b]; simpl; try done.
Qed.

Lemma leb_spec (a b : string) : String.leb a b = true <-> a = b \/ String_as_OT.lt a b.
Proof.
  unfold String.leb, String_as_OT.lt. rewrite compare_is_ot.
  destruct (String_as_OT.compare_spec a b) as [H|H|H]; split; try done.
  - intros _. by left.
  - intros _. by right.
  - intros [->|H']; [|congruence]. exfalso. by apply (StrictOrder_Irreflexive b).
Qed.

Lemma leb_trans (a b c : string) :
  String.leb a b = true -> String.leb b c = true -> String.leb a c = true.
Proof.
  rewrite !leb_spec. intros [->|H1] [->|H2]; auto. right. by transitivity b.
Qed.

(** ** Ranking *)

Section ranking.
Context {W : Type}.
Implicit Types (a b : Q * ToolSpec W) (l : list (Q * ToolSpec W)).

Lemma ranks_total a b : ranks_before a b = false -> ranks_before b a = true.
Proof.
  unfold ranks_before. destruct (Qeq_bool a.1 b.1) eqn:He.
  - apply Qeq_bool_iff in He. symmetry in He. apply Qeq_bool_iff in He. rewrite He.
    intros H. destruct (String.leb_total (name a.2) (name b.2)); congruence.
  - intros Hn. destruct (Qeq_bool b.1 a.1) eqn:He'.
    { apply Qeq_bool_iff in He'. symmetry in He'. apply Qeq_bool_iff in He'. congruence. }
    apply Qle_bool_iff. destruct (Qlt_le_dec b.1 a.1) as [Hlt|Hle]; [|done].
    exfalso. apply Qlt_le_weak in Hlt. apply Qle_bool_iff in Hlt. congruence.
Qed.

Lemma ranks_spec a b :
  ranks_before a b = true <->
  (b.1 < a.1)%Q \/ (a.1 == b.1)%Q /\ String.leb (name a.2) (name b.2) = true.
Proof.
  unfold ranks_before. destruct (Qeq_bool a.1 b.1) eqn:He.
  - apply Qeq_bool_iff in He. split; [by right|]. intros [H|[_ H]]; [|done].
    rewrite He in H. by apply Qlt_irrefl in H.
  - split.
    + intros H. left. apply Qle_bool_iff in H. apply Qle_lt_or_eq in H as [H|H]; [done|].
      symmetry in H. apply Qeq_bool_iff in H. congruence.
    + intros [H|[H _]]; [by apply Qle_bool_iff, Qlt_le_weak|].
      apply Qeq_bool_iff in H. congruence.
Qed.

Lemma ranks_trans a b c :
  ranks_before a b = true -> ranks_before b c = true -> ranks_before a c = true.
Proof.
  rewrite !ranks_spec. intros [H1|[H1 N1]] [H2|[H2 N2]].
  - left. by apply (Qlt_trans _ b.1).
  - left. by rewrite <- H2.
  - left. by rewrite H1.
  - right. split; [by rewrite H1|by eapply leb_trans].
Qed.

Definition ranked l : Prop := StronglySorted (fun a b => ranks_before a b = true) l.

Lemma insert_perm a l : Permutation (insert_ranked a l) (a :: l).
Proof.
  induction l as [|b l IH]; simpl; [done|]. case_if; [done|].
  rewrite IH. apply perm_swap.
Qed.

Lemma sort_perm l : Permutation (sort_ranked l) l.
Proof. induction l as [|a l IH]; simpl; [done|]. by rewrite insert_perm, IH. Qed.

Lemma insert_ranked_sorted a l : ranked l -> ranked (insert_ranked a l).
Proof.
  induction 1 as [|b l Hl IH Hb]; simpl; [repeat constructor|].
  destruct (ranks_before a b) eqn:Hab.
  - constructor; [by constructor|]. constructor; [done|].
    eapply List.Forall_impl; [|exact Hb]. intros c Hc. by eapply ranks_trans.
  - constructor; [done|]. rewrite insert_perm. constructor; [by apply ranks_total|done].
Qed.

Lemma sort_sorted l : ranked (sort_ranked l).
Proof. induction l; simpl; [constructor|by apply insert_ranked_sorted]. Qed.

(** A prefix of a ranked list is ranked, and beats the rest. *)
Lemma ranked_take n l : ranked l -> ranked (take n l).
Proof.
  intros Hl. revert n. induction Hl as [|a l Hl IH Ha]; intros [|n]; simpl; try constructor.
  - apply IH.
  - rewrite <- (take_drop n l) in Ha. by apply Forall_app in Ha as [].
Qed.

Lemma ranked_beats n l a b :
  ranked l -> a ∈ take n l -> b ∈ drop n l -> ranks_before a b = true.
Proof.
  intros Hl. revert n. induction Hl as [|c l Hl IH Hc]; intros [|n]; simpl; try set_solver.
  intros Ha Hb. apply elem_of_cons in Ha as [->|Ha]; [|by eapply IH].
  rewrite List.Forall_forall in Hc. apply Hc, list_elem_of_In.
  rewrite <- (take_drop n l). set_solver.
Qed.
End ranking.

(** ** Registration *)

Lemma get_spec {W} n (r : Registry W) t : get n r = Some t -> t ∈ r /\ name t = n.
Proof.
  intros H. apply List.find_some in H as [Hin Hn].
  apply String.eqb_eq in Hn. split; [by apply list_elem_of_In|done].
Qed.

Lemma get_none {W} n (r : Registry W) : get n r = None <-> n ∉ names r.
Proof.
  unfold names. induction r as [|t r IH]; simpl; [set_solver|].
  destruct (String.eqb_spec (name t) n) as [->|Hne]; [set_solver|].
  unfold get in IH. rewrite IH. set_solver.
Qed.

Lemma get_unique {W} (r : Registry W) t :
  NoDup (names r) -> t ∈ r -> get (name t) r = Some t.
Proof.
  unfold names, get. induction r as [|t' r IH]; [set_solver|]. cbn [map List.find].
  intros Hnd Hin. apply list.NoDup_cons in Hnd as [Hn Hnd].
  apply elem_of_cons in Hin as [->|Hin]; [by rewrite String.eqb_refl|].
  destruct (String.eqb_spec (name t') (name t)) as [He|]; [|by apply IH].
  exfalso. apply Hn. rewrite He. apply list_elem_of_fmap. by exists t.
Qed.

Lemma register_unique {W} t (r r' : Registry W) :
  register t r = inr r' -> NoDup (names r) -> NoDup (names r').
Proof.
  unfold register. destruct (get (name t) r) eqn:Hg; [done|]. apply get_none in Hg.
  intros H Hnd. assert (H' : r' = r \/ r' = r ++ [t]) by (destruct (check_fn t) as [[]|]; naive_solver).
  destruct H' as [->| ->]; [done|]. unfold names. rewrite map_app. apply list.NoDup_app.
  split; [done|]. split; [|by apply NoDup_singleton].
  intros x Hx Hx'. apply list_elem_of_singleton in Hx'. by subst.
Qed.

(** The registries the program builds. *)
Inductive registered_by {W} : Registry W -> Prop :=
| rb_nil : registered_by []
| rb_reg t r r' : registered_by r -> register t r = inr r' -> registered_by r'.

Lemma registered_unique {W} (r : Registry W) : registered_by r -> NoDup (names r).
Proof. induction 1; [constructor|by eapply register_unique]. Qed.

(** ** Search *)

(** ** Scores *)

Lemma Qmax'_spec p q : (p <= Qmax' p q)%Q /\ (q <= Qmax' p q)%Q.
Proof.
  unfold Qmax'. destruct (Qle_bool p q) eqn:Hle.
  - apply Qle_bool_iff in Hle. by split; [|apply Qle_refl].
  - split; [apply Qle_refl|]. apply Qlt_le_weak, Qnot_le_lt. intros H. apply Qle_bool_iff in H. congruence.
Qed.

Lemma best_of_tokens query tokens init :
  let best := fold_left (fun m t => Qmax' m (ratio query t)) tokens init in
  (init <= best)%Q /\ (forall t, t ∈ tokens -> (ratio query t <= best)%Q).
Proof.
  revert init. induction tokens as [|t l IH]; intros init; cbn.
  { split; [apply Qle_refl|set_solver]. }
  destruct (IH (Qmax' init (ratio query t))) as [H1 H2], (Qmax'_spec init (ratio query t)) as [H3 H4].
  split; [by eapply Qle_trans|]. intros u [->|Hu]%elem_of_cons; [by eapply Qle_trans|by apply H2].
Qed.

Lemma field_score_nonneg query field : (0 <= _field_score query field)%Q.
Proof.
  unfold _field_score. destruct (str_truthy field); [|done]. case_match; [|done].
  eapply Qle_trans; [apply (ratio_nonneg query field)|].
  apply (proj1 (best_of_tokens _ _ _)).
Qed.

(** A query that is a word of the field has its full score. *)
Lemma field_score_word query field :
  query ∈ split (underscores_to_spaces field) -> (1 <= _field_score query field)%Q.
Proof.
  intros Hin. unfold _field_score. destruct field as [|c field]; [set_solver|]. cbn [str_truthy].
  set (best := fold_left _ _ _).
  assert (Hb : (1 <= best)%Q).
  { eapply Qle_trans; [apply Qle_lteq; right; symmetry; apply (ratio_itself query)|].
    by apply (proj2 (best_of_tokens _ _ _)). }
  destruct (Qle_bool _ best) eqn:Hm; [done|]. exfalso.
  assert (H : Qle_bool _MIN_FIELD_SCORE best = true); [|congruence].
  apply Qle_bool_iff. eapply Qle_trans; [|exact Hb]. done.
Qed.

Lemma total_score_term {W} terms term (t : ToolSpec W) :
  term ∈ terms ->
  (_field_score term (lower (name t)) * 3 + _field_score term (lower (toolset t)) * 2 <= total_score terms t)%Q.
Proof.
  set (w u := (_field_score u (lower (name t)) * 3 + _field_score u (lower (toolset t)) * 2
               + _field_score u (lower (description t)) * 1)%Q).
  change (total_score terms t) with (fold_left (fun total u => (total + w u)%Q) terms 0%Q).
  assert (Hw : forall u, (_field_score u (lower (name t)) * 3 + _field_score u (lower (toolset t)) * 2 <= w u /\ 0 <= w u)%Q).
  { intros u. unfold w. pose proof (field_score_nonneg u (lower (name t))).
    pose proof (field_score_nonneg u (lower (toolset t))).
    pose proof (field_score_nonneg u (lower (description t))). lra. }
  assert (H : forall l q, (q <= fold_left (fun total u => (total + w u)%Q) l q)%Q /\
    forall u, u ∈ l -> (q + w u <= fold_left (fun total u => (total + w u)%Q) l q)%Q).
  { induction l as [|v l IH]; intros q; cbn; [split; [apply Qle_refl|set_solver]|].
    destruct (IH (q + w v)%Q) as [H1 H2]. pose proof (Hw v) as [_ H0]. split; [lra|].
    intros u [->|Hu]%elem_of_cons; [done|]. specialize (H2 u Hu). lra. }
  intros Hin. destruct (H terms 0%Q) as [_ H2]. specialize (H2 term Hin). pose proof (Hw term) as [H3 _]. lra.
Qed.

(** A tool with a query term for a word of its name or toolset is a match. *)
Lemma word_matches {W} terms term (t : ToolSpec W) :
  term ∈ terms ->
  (term ∈ split (underscores_to_spaces (lower (name t))) -> (3 <= total_score terms t)%Q) /\
  (term ∈ split (underscores_to_spaces (lower (toolset t))) -> (2 <= total_score terms t)%Q).
Proof.
  intros Hin. pose proof (total_score_term terms term t Hin).
  pose proof (field_score_nonneg term (lower (name t))). pose proof (field_score_nonneg term (lower (toolset t))).
  split; intros Hw%field_score_word; lra.
Qed.

Lemma scored_elem {W} terms (r : Registry W) q t :
  (q, t) ∈ scored_tools terms r <->
  t ∈ r /\ is_core t = false /\ q = total_score terms t /\ (0 < q)%Q.
Proof.
  unfold scored_tools. rewrite list_elem_of_In, List.filter_In, List.in_map_iff. simpl.
  assert (Hpos : forall x, negb (Qle_bool x 0) = true <-> (0 < x)%Q).
  { intros x. destruct (Qle_bool x 0) eqn:Hx; simpl; split; try done.
    - apply Qle_bool_iff in Hx. intros H. by apply Qlt_not_le in H.
    - intros _. apply Qnot_le_lt. intros H. apply Qle_bool_iff in H. congruence. }
  rewrite Hpos. split.
  - intros [(t' & [= <- <-] & Ht) Hq]. apply List.filter_In in Ht as [Ht Hc].
    apply negb_true_iff in Hc. split; [by apply list_elem_of_In|done].
  - intros (Ht & Hc & -> & Hq). split; [|done]. exists t. split; [done|].
    apply List.filter_In. rewrite Hc. split; [by apply list_elem_of_In|done].
Qed.

Lemma scored_names_NoDup {W} terms (r : Registry W) :
  NoDup (names r) -> NoDup (map (fun x => name x.2) (scored_tools terms r)).
Proof.
  intros Hnd. unfold scored_tools.
  assert (Hf : forall A (f : A -> string) p (l : list A),
    NoDup (map f l) -> NoDup (map f (List.filter p l))).
  { intros A f p l. induction l as [|x l IH]; simpl; [done|].
    intros H. apply list.NoDup_cons in H as [Hx H]. destruct (p x); [|by apply IH].
    simpl. apply list.NoDup_cons. split; [|by apply IH].
    intros Hin. apply Hx. apply list_elem_of_fmap in Hin as (y & -> & Hy).
    apply list_elem_of_In, List.filter_In in Hy as [Hy _].
    apply list_elem_of_fmap. exists y. split; [done|]. by apply list_elem_of_In. }
  apply Hf. rewrite map_map. simpl. by apply (Hf _ name).
Qed.

(** A tool ranks before another for the given terms. *)
Definition better {W} (score : ToolSpec W -> Q) (a b : ToolSpec W) : Prop :=
  (score b < score a)%Q \/ (score a == score b)%Q /\ String.leb (name a) (name b) = true.

Lemma sorted_snd {W} (score : ToolSpec W -> Q) (l : list (Q * ToolSpec W)) :
  ranked l -> Forall (fun x => x.1 = score x.2) l -> StronglySorted (better score) (map snd l).
Proof.
  induction 1 as [|a l Hl IH Ha]; simpl; [constructor|]. intros Hs.
  apply Forall_cons_iff in Hs as [Has Hs]. constructor; [by apply IH|].
  apply List.Forall_map, List.Forall_forall. intros b Hb.
  rewrite List.Forall_forall in Ha, Hs. specialize (Ha _ Hb). specialize (Hs _ Hb).
  apply ranks_spec in Ha. unfold better. by rewrite <- Has, <- Hs.
Qed.

(** Search returns the best matches.  For a non-empty query the hits are
    at most [limit] distinct non-core tools of the registry with a positive
    score, sorted by falling score and then by name; and a matching tool that
    is left out is only left out because [limit] better ones were found.  A tool
    with a query term for a word of its name or toolset matches. *)
Theorem search_best {W} query limit (r : Registry W) :
  NoDup (names r) -> map lower (split query) ≠ [] -> (0 <= limit)%Z ->
  let score := total_score (map lower (split query)) in
  let hits := search query limit r in
  (Z.of_nat (length hits) <= limit)%Z /\ NoDup (names hits) /\
  (forall t, t ∈ hits -> t ∈ r /\ is_core t = false /\ (0 < score t)%Q) /\
  StronglySorted (better score) hits /\
  (forall t, t ∈ r -> is_core t = false -> (0 < score t)%Q -> t ∉ hits ->
     Z.of_nat (length hits) = limit /\ forall h, h ∈ hits -> better score h t) /\
  (forall t term, term ∈ map lower (split query) ->
     (term ∈ split (underscores_to_spaces (lower (name t))) -> (3 <= score t)%Q) /\
     (term ∈ split (underscores_to_spaces (lower (toolset t))) -> (2 <= score t)%Q)).
Proof.
  intros Hnd Hterms Hlim score hits.
  set (terms := map lower (split query)) in *.
  set (l := sort_ranked (scored_tools terms r)).
  assert (Hh : hits = map snd (take (Z.to_nat limit) l)).
  { unfold hits, search, l. fold terms. destruct terms; [done|].
    unfold py_take. destruct (Z.ltb_spec limit 0); [lia|done]. }
  assert (Hp : Permutation l (scored_tools terms r)) by apply sort_perm.
  assert (Hel : forall q t, (q, t) ∈ l <->
    t ∈ r /\ is_core t = false /\ q = score t /\ (0 < q)%Q).
  { intros q t. rewrite Hp. apply scored_elem. }
  assert (Hsc : Forall (fun x => x.1 = score x.2) l).
  { apply List.Forall_forall. intros [q t] Hin. apply list_elem_of_In, Hel in Hin.
    by destruct Hin as (_ & _ & -> & _). }
  rewrite Hh. split; [|split; [|split; [|split; [|split]]]].
  - rewrite length_map, length_take. lia.
  - unfold names. rewrite map_map.
    assert (Hn : NoDup (map (fun x => name x.2) l)).
    { rewrite Hp. by apply scored_names_NoDup. }
    rewrite <- (take_drop (Z.to_nat limit) l), map_app in Hn.
    by apply list.NoDup_app in Hn as [].
  - intros t Ht. apply list_elem_of_fmap in Ht as ([q t'] & -> & Ht).
    assert (Hl : (q, t') ∈ l).
    { rewrite <- (take_drop (Z.to_nat limit) l). set_solver. }
    apply Hel in Hl as (? & ? & -> & ?). done.
  - apply sorted_snd; [apply ranked_take, sort_sorted|].
    rewrite <- (take_drop (Z.to_nat limit) l) in Hsc. by apply Forall_app in Hsc as [].
  - intros t Ht Hc Hs Hnot.
    assert (Hd : (score t, t) ∈ drop (Z.to_nat limit) l).
    { assert (Hl : (score t, t) ∈ l) by by apply Hel.
      rewrite <- (take_drop (Z.to_nat limit) l) in Hl. apply elem_of_app in Hl as [Hl|Hl]; [|done].
      exfalso. apply Hnot. apply list_elem_of_fmap. by exists (score t, t). }
    split.
    + rewrite length_map, length_take.
      assert (length (drop (Z.to_nat limit) l) ≠ 0).
      { intros Hz. apply nil_length_inv in Hz. rewrite Hz in Hd. set_solver. }
      rewrite length_drop in *. lia.
    + intros h Hin. apply list_elem_of_fmap in Hin as ([q h'] & -> & Hin).
      assert (Hl : (q, h') ∈ l) by (rewrite <- (take_drop (Z.to_nat limit) l); set_solver).
      apply Hel in Hl as (_ & _ & -> & _).
      pose proof (ranked_beats _ l _ _ (sort_sorted _) Hin Hd) as Hb.
      by apply ranks_spec in Hb.
  - intros t term. apply word_matches.
Qed.

(** ** The surface *)

Lemma definition_visible {W} (r : Registry W) s n :
  NoDup (names r) ->
  n ∈ map fn_name (tool_definitions r s) <->
  exists t, get n r = Some t /\ (is_core t = true \/ n ∈ s).
Proof.
  intros Hnd. unfold tool_definitions. rewrite map_map, list_elem_of_In, List.in_map_iff.
  split.
  - intros (t & <- & Ht). apply List.filter_In in Ht as [Ht Hv].
    apply list_elem_of_In in Ht. exists t. split; [by apply get_unique|].
    apply orb_true_iff in Hv as [Hv|Hv]; [by left|]. right. by apply bool_decide_eq_true in Hv.
  - intros (t & Hg & Hv). destruct (get_spec _ _ _ Hg) as [Hin <-]. exists t.
    split; [done|]. apply List.filter_In. split; [by apply list_elem_of_In|].
    apply orb_true_iff. destruct Hv; [by left|right]. by apply bool_decide_eq_true.
Qed.

Lemma mark_surfaced_spec {W} ns (r : Registry W) s n :
  n ∈ mark_surfaced ns r s <->
  n ∈ s \/ (n ∈ ns /\ exists t, get n r = Some t /\ is_core t = false).
Proof.
  unfold mark_surfaced. rewrite elem_of_union, elem_of_list_to_set.
  rewrite (list_elem_of_In (List.filter _ ns) n), List.filter_In, <- list_elem_of_In.
  split; (intros [H|[H1 H2]]; [by left|right; split; [done|]]).
  - destruct (get n r) as [t|]; [|done]. exists t. split; [done|].
    by apply negb_true_iff in H2.
  - destruct H2 as (t & -> & H2). by rewrite H2.
Qed.

(** [tool_search] surfaces exactly its hits.  In the task that runs it,
    whatever limit the model asks for, between zero and fifteen tools are
    returned; the tools the next request of that task may advertise are
    those it could before and the ones returned, and everything returned
    can be called. *)
Theorem tool_search_surfaces {W} (r : Registry W) query limit s :
  registered_by r ->
  let hits := search query (bounded_limit limit) r in
  let s' := (tool_search r query limit s).2 in
  (1 <= bounded_limit limit <= 15)%Z /\ length hits <= 15 /\
  (forall n, n ∈ map fn_name (tool_definitions r s') <->
     n ∈ map fn_name (tool_definitions r s) \/ n ∈ names hits).
Proof.
  intros Hr hits s'. pose proof (registered_unique _ Hr) as Hnd.
  assert (Hb : (1 <= bounded_limit limit <= 15)%Z) by (unfold bounded_limit, _MAX_LIMIT; lia).
  assert (Hhits : length hits <= 15 /\ forall t, t ∈ hits -> t ∈ r /\ is_core t = false).
  { unfold hits, search. destruct (map lower (split query)) as [|t ts]; [split; [simpl; lia|set_solver]|].
    unfold py_take. destruct (Z.ltb_spec (bounded_limit limit) 0) as [Hlt|_]; [lia|]. split.
    - rewrite length_map, length_take. lia.
    - intros u Hu. apply list_elem_of_fmap in Hu as ([q u'] & -> & Hu).
      assert (Hin : (q, u') ∈ sort_ranked (scored_tools (t :: ts) r))
        by (rewrite <- (take_drop (Z.to_nat (bounded_limit limit)) (sort_ranked _)); set_solver).
      rewrite sort_perm in Hin. by apply scored_elem in Hin as (? & ? & _). }
  destruct Hhits as [Hlen Hhits]. split; [done|]. split; [done|]. intros n.
  rewrite !definition_visible by done. unfold s', tool_search. cbn [snd]. fold hits.
  change (map name hits) with (names hits).
  split.
  - intros (t & Hg & [Hc|Hs]); [left; exists t; auto|].
    apply mark_surfaced_spec in Hs as [Hs|[Hs _]]; [left; exists t; auto|by right].
  - intros [(t & Hg & Hv)|Hn].
    + exists t. split; [done|]. rewrite mark_surfaced_spec. naive_solver.
    + pose proof Hn as Hn'. unfold names in Hn'.
      apply list_elem_of_fmap in Hn' as (t & -> & Ht). destruct (Hhits _ Ht) as [Htr Hc].
      pose proof (get_unique _ _ Hnd Htr) as Hg.
      exists t. split; [done|]. right. apply mark_surfaced_spec. right. split; [done|]. by exists t.
Qed.

(** ** Execution *)

(** The arguments of a call reach the handler as they were written: whatever
    value the model serialises, the handler of the named tool is called with
    it once, and its result comes back cut to the tool's limit, its exception
    as it is.  A text that is no JSON reaches no handler. *)
Theorem execute_passes_arguments {W} not_a_mapping (r : Registry W) n t args arguments c :
  get n r = Some t ->
  (loadable (JObj args) ->
     let '(out, c') := handler t args c in
     execute not_a_mapping n (json_dumps (JObj args)) r c =
     (match out with inl exc => inl exc | inr s => inr (_truncate s (max_result_chars t)) end, c')) /\
  (forall exc, json_loads arguments = inl exc -> str_truthy arguments = true ->
     execute not_a_mapping n arguments r c = (inl exc, c)).
Proof.
  intros Ht. unfold execute. rewrite Ht. split.
  - intros Hl. destruct (handler t args c) as [out c'] eqn:Hh.
    assert (Htext : str_truthy (json_dumps (JObj args)) = true) by done.
    rewrite Htext, (dumps_loaded _ Hl), Hh. by destruct out.
  - intros exc He ->. by rewrite He.
Qed.

(** ** Witnesses *)

Definition plain_handler : Handler unit := fun _ c => (inr "ok", c).

Definition sample_tool (n ts : string) (core : bool) : ToolSpec unit :=
  {| name := n; description := "a tool"; input_schema := JNull; handler := plain_handler;
     is_read_only := true; is_concurrency_safe := true; is_core := core;
     ts_display_name := ""; toolset := ts; check_fn := None; max_result_chars := 8000 |}.

Definition sample_registry : Registry unit :=
  [sample_tool "read_file" "files" true; sample_tool "jira_search" "jira" false;
   sample_tool "gitlab_mr" "gitlab" false].

Lemma sample_registry_built : registered_by sample_registry.
Proof.
  apply (rb_reg (sample_tool "gitlab_mr" "gitlab" false) (take 2 sample_registry));
    [|reflexivity].
  apply (rb_reg (sample_tool "jira_search" "jira" false) (take 1 sample_registry));
    [|reflexivity].
  apply (rb_reg (sample_tool "read_file" "files" true) []); [apply rb_nil|reflexivity].
Qed.

(** A tool that answers with its arguments. *)
Definition echo_registry : Registry unit :=
  [{| name := "echo"; description := "a tool"; input_schema := JNull;
      handler := fun args c => (inr (json_dumps (JObj args)), c);
      is_read_only := true; is_concurrency_safe := true; is_core := true;
      ts_display_name := ""; toolset := ""; check_fn := None; max_result_chars := 8000 |}].

Lemma execute_passes_arguments_witness :
  execute (fun _ => "no mapping") "echo" (json_dumps sample_value) echo_registry (∅, tt) =
    (inr (json_dumps sample_value), (∅, tt)) /\
  execute (fun _ => "no mapping") "echo" "nul" echo_registry (∅, tt) =
    (inl "Expecting value: line 1 column 1 (char 0)", (∅, tt)).
Proof.
  destruct (execute_passes_arguments (fun _ => "no mapping") echo_registry "echo"
    (List.hd (sample_tool "" "" true) echo_registry)
    [("query", JStr (with_quotes "project = 'X' & é"));
     ("limits", JArr [JInt (-15); JFloat "0.5"; JFloat "nan"; JNull])] "nul" (∅, tt) eq_refl) as [H1 H2].
  split; [exact (H1 sample_loadable)|by apply H2].
Defined.

Lemma search_best_witness :
  let hits := search "Jira" 5 sample_registry in
  names hits = ["jira_search"] /\ NoDup (names hits).
Proof.
  split; [vm_compute; reflexivity|].
  apply (search_best "Jira" 5 sample_registry).
  - exact (registered_unique _ sample_registry_built).
  - vm_compute. discriminate.
  - lia.
Defined.

(** The threshold keeps one-letter mistakes and drops coincidences, and with
    them the beginnings of words. *)
Example calibrated :
  map (fun x => Qle_bool _MIN_FIELD_SCORE (ratio x.1 x.2))
    [("jora", "jira"); ("gira", "jira"); ("file", "single"); ("repo", "repository")] =
  [true; true; false; false].
Proof. vm_compute. reflexivity. Qed.

(** One wrong letter does not hide a tool, in either way round: the description
    of the core tool and a longer word with the same letters do not match. *)
Example typos_are_tolerated :
  map (fun q => names (search q 5 sample_registry)) ["jora"; "GitLob"; "file"; "request jira"; ""] =
  [["jira_search"]; ["gitlab_mr"]; []; ["jira_search"]; []].
Proof. vm_compute. reflexivity. Qed.

Lemma tool_search_surfaces_witness :
  let s' := (tool_search sample_registry "jira" None ∅).2 in
  map fn_name (tool_definitions sample_registry s') = ["read_file"; "jira_search"] /\
  length (search "jira" (bounded_limit None) sample_registry) <= 15.
Proof.
  split; [vm_compute; reflexivity|].
  apply (tool_search_surfaces sample_registry "jira" None ∅ sample_registry_built).
Defined.
