(* ===== verification/Compaction.v ===== *)
(** * Compaction

    Context compaction ([agent/compaction.py]) and the repair of model
    responses ([orchestrator/transcript_repair.py]). *)

From S2P Require Import Prelude Json AgentTypes.
From Stdlib Require Import Ascii.

(** [AgentLoopConfig].  The compress ratio is a float that is only used in
    [int(len(conversation) * ratio)]: the field is that function. *)
Record AgentLoopConfig := {
  model : string;
  temperature : string;
  max_tokens : Z;
  max_tool_rounds : Z;
  max_continuation_retries : Z;
  micro_compaction_chars : Z;
  compaction_threshold_chars : Z;
  compress_share : Z -> Z;
  compaction_min_keep : Z;
  compaction_model : string
}.

Definition _MIN_MESSAGES_FOR_COMPACTION : Z := 2.
Definition _MIN_COMPRESS_COUNT : Z := 2.
Definition _MAX_TOOL_RESULT_IN_SUMMARY : Z := 500.

Definition _SUMMARY_SYSTEM_PROMPT : string :=
  "You are a concise summarizer. Summarize the following conversation " +:+
  "excerpt, preserving all key facts, decisions, tool results, and " +:+
  "action items. Do not add commentary — just summarize.".

Definition _SUMMARY_TEMPERATURE : string := "0.0".
Definition _SUMMARY_MAX_TOKENS : Z := 4096.

(** [_TRUNCATION_NOTICE.format(n)] *)
Definition truncation_notice (n : Z) : string :=
  newline +:+ newline +:+ "[Truncated — original: " +:+ show_Z n +:+ " chars]".

Definition len {A} (l : list A) : Z := Z.of_nat (length l).

(** ** Micro-compaction *)

Definition truncate_message (limit : Z) (m : Message) : Message :=
  if bool_decide (role m = TOOL) && (limit <? py_len (content m))%Z then
    with_content (py_prefix limit (content m) +:+ truncation_notice (py_len (content m))) m
  else m.

(** [truncate_tool_results] *)
Definition truncate_tool_results (c : AgentLoopConfig) (ms : list Message) : list Message :=
  map (truncate_message (micro_compaction_chars c)) ms.

(** [should_compact] *)
Definition total_chars (ms : list Message) : Z :=
  fold_left (fun n m => n + py_len (content m))%Z ms 0%Z.

Definition should_compact (c : AgentLoopConfig) (ms : list Message) : bool :=
  (compaction_threshold_chars c <? total_chars ms)%Z.

(** ** Full compaction *)

(** [register_tool_call] *)
Definition register_tool_call {W} (call_id tool_name : string) (e : Env W) : Env W :=
  if str_truthy call_id then set_names (<[call_id := tool_name]> (names_by_id e)) e else e.

(** [role.capitalize()] *)
Definition capitalized (r : MessageRole) : string :=
  match r with
  | SYSTEM => "System" | USER => "User" | ASSISTANT => "Assistant" | TOOL => "Tool"
  end.

(** The lines one message contributes to the summary transcript. *)
Definition summary_lines (names : gmap string string) (m : Message) : list string :=
  match role m with
  | TOOL =>
      let tc_id := default "" (tool_call_id m) in
      let tool_name := str_or (default "" (names !! tc_id)) (str_or tc_id "tool") in
      let body := if (_MAX_TOOL_RESULT_IN_SUMMARY <? py_len (content m))%Z
                  then py_prefix _MAX_TOOL_RESULT_IN_SUMMARY (content m) +:+ "..."
                  else content m in
      ["[Tool result (" +:+ tool_name +:+ ")]: " +:+ body]
  | r =>
      match r, tool_calls m with
      | ASSISTANT, Some tcs =>
          ("Assistant: [called tools: " +:+ String.concat ", " (map tc_name tcs) +:+ "]")
          :: (if str_truthy (content m) then ["Assistant: " +:+ content m] else [])
      | _, _ => [capitalized r +:+ ": " +:+ content m]
      end
  end.

Definition _format_for_summary (names : gmap string string) (ms : list Message) : string :=
  String.concat newline (flat_map (summary_lines names) ms).

Definition summary_request (c : AgentLoopConfig) (rid text : string) : InferenceRequest :=
  {| rq_messages := [text_message SYSTEM _SUMMARY_SYSTEM_PROMPT; text_message USER text];
     rq_model := str_or (compaction_model c) (model c);
     rq_temperature := _SUMMARY_TEMPERATURE; rq_max_tokens := _SUMMARY_MAX_TOKENS;
     rq_request_id := rid +:+ "-compact"; rq_tools := None |}.

Definition _summarize {W} `{Backend W} (c : AgentLoopConfig) (ms : list Message)
  (rid : string) : M W string :=
  (names <- gets names_by_id;
   result <- infer (summary_request c rid (_format_for_summary names ms));
   ret (rs_content result))%agent.

Definition summary_message (summary : string) : Message :=
  text_message USER ("[Previous conversation summary]" +:+ newline +:+ summary).

Definition ack_message : Message :=
  text_message ASSISTANT "Understood, I have the context from our previous conversation.".

(** The system message, if the list starts with one, and the rest. *)
Definition split_system (ms : list Message) : list Message * list Message :=
  match ms with
  | m :: ms' => if decide (role m = SYSTEM) then ([m], ms') else ([], ms)
  | [] => ([], [])
  end.

(** How many of the oldest messages are summarised. *)
Definition compress_count (c : AgentLoopConfig) (n : Z) : Z :=
  let compress := Z.max _MIN_COMPRESS_COUNT (compress_share c n) in
  let keep := Z.max (compaction_min_keep c) (n - compress) in
  (n - keep)%Z.

Definition compact {W} `{Backend W} (c : AgentLoopConfig) (ms : list Message)
  (rid : string) : M W (list Message) :=
  if (len ms <? _MIN_MESSAGES_FOR_COMPACTION)%Z then ret ms
  else
    let '(sys, conversation) := split_system ms in
    if (len conversation <? compaction_min_keep c + _MIN_COMPRESS_COUNT)%Z then ret ms
    else
      let k := Z.to_nat (compress_count c (len conversation)) in
      (summary <- _summarize c (take k conversation) rid;
       ret (sys ++ [summary_message summary; ack_message] ++ drop k conversation))%agent.

(** ** Repair *)

Definition EMPTY_RESPONSE_FALLBACK : string :=
  "I wasn't able to generate a response. Could you rephrase?".

Definition CONTENT_FILTER_REPLY : string :=
  "My response was filtered. Could you rephrase your request?".

Definition CONTINUATION_PROMPT : string :=
  "Resume directly, no apology, no recap. " +:+
  "Pick up mid-thought. Break remaining work into smaller pieces.".

Definition MAX_CONTINUATION_RETRIES : nat := 2.

(** [RepairReason] *)
Inductive RepairReason := EMPTY_RESPONSE | TRUNCATED | CONTENT_FILTER.

(** [RepairResult] *)
Record RepairResult := {
  rr_content : string;
  was_repaired : bool;
  repair_reason : option RepairReason;
  needs_continuation : bool
}.

Definition repair_response (r : InferenceResponse) : RepairResult :=
  let c := rs_content r in
  if negb (str_truthy c) || all_space c then
    {| rr_content := EMPTY_RESPONSE_FALLBACK; was_repaired := true;
       repair_reason := Some EMPTY_RESPONSE; needs_continuation := false |}
  else if String.eqb (finish_reason r) "length" then
    {| rr_content := c; was_repaired := false; repair_reason := Some TRUNCATED;
       needs_continuation := true |}
  else if String.eqb (finish_reason r) "content_filter" then
    {| rr_content := CONTENT_FILTER_REPLY; was_repaired := true;
       repair_reason := Some CONTENT_FILTER; needs_continuation := false |}
  else {| rr_content := c; was_repaired := false; repair_reason := None;
          needs_continuation := false |}.

(** ** Facts *)

Lemma total_chars_app a b : total_chars (a ++ b) = (total_chars a + total_chars b)%Z.
Proof.
  unfold total_chars. rewrite fold_left_app.
  assert (H : forall l n, fold_left (fun n m => n + py_len (content m))%Z l n =
    (n + fold_left (fun n m => n + py_len (content m))%Z l 0)%Z).
  { intros l. induction l as [|m l IH]; intros n; simpl; [lia|].
    rewrite IH, (IH (0 + py_len (content m))%Z). lia. }
  apply H.
Qed.

Lemma truncate_keeps_shape limit m :
  role (truncate_message limit m) = role m /\
  tool_calls (truncate_message limit m) = tool_calls m /\
  tool_call_id (truncate_message limit m) = tool_call_id m.
Proof. unfold truncate_message. by destruct (_ && _). Qed.

Lemma py_prefix_len limit s :
  (0 <= limit)%Z -> py_len (py_prefix limit s) = Z.min limit (py_len s).
Proof.
  intros Hl. unfold py_prefix. destruct (Z.ltb_spec limit 0); [lia|]. by apply py_len_take.
Qed.

Lemma split_system_spec ms sys conv :
  split_system ms = (sys, conv) ->
  ms = sys ++ conv /\ (sys = [] \/ exists m, sys = [m] /\ role m = SYSTEM).
Proof.
  destruct ms as [|m ms]; simpl; [by intros [= <- <-]; split; [|left]|].
  case_decide; intros [= <- <-]; (split; [done|]); [right; by exists m|by left].
Qed.

Lemma compress_count_bounds c n :
  (0 <= compaction_min_keep c)%Z -> (compaction_min_keep c + _MIN_COMPRESS_COUNT <= n)%Z ->
  (_MIN_COMPRESS_COUNT <= compress_count c n <= n - compaction_min_keep c)%Z.
Proof. unfold compress_count, _MIN_COMPRESS_COUNT. lia. Qed.
