(* ===== verification/Loop.v ===== *)
(** * Loop

    The agent loop ([agent/loop.py]) and the approval gates
    ([agent/approval.py]): rounds of inference and tool execution until the
    model answers with text, a write needs approval, or the round limit is
    reached.

    The tasks [asyncio.gather] creates run in copies of the caller's
    context, so what a concurrency-safe tool stores in a context variable
    stays in its own task.  Which task finishes first is the schedule
    [sched], a permutation of the indices; a handler is one step of it. *)

From S2P Require Import Prelude Json JsonLoads AgentTypes Registry Compaction.

(** ** Approval gates *)

(** [AutoApproval] *)
Definition auto_approval {W} : ApprovalGate W :=
  fun _ _ w => ({| approved := true; reason := Some "auto_approved" |}, w).

Definition HIGH_RISK_TOOLS : list string :=
  ["jira_transition_issue"; "jira_update_issue"].

Definition _assess_risk (tool_name : string) : string :=
  if bool_decide (tool_name ∈ HIGH_RISK_TOOLS) then "HIGH" else "LOW".

(** [WriteApproval.check] *)
Definition write_approval {W} : ApprovalGate W := fun action c w =>
  (if String.eqb action "respond" then
     {| approved := true; reason := Some "auto_approved" |}
   else if String.eqb action "tool_call" then
     if default true (ac_is_read_only c) then
       {| approved := true; reason := Some "read_auto_approved" |}
     else
       {| approved := false;
          reason := Some ("write_requires_approval (risk="
                          +:+ _assess_risk (default "" (ac_tool_name c)) +:+ ")") |}
   else {| approved := true; reason := Some "auto_approved" |}, w).

(** [AgentLoopResult] *)
Record AgentLoopResult := {
  lr_content : string;
  tool_calls_made : Z;
  rounds : Z;
  hit_safety_limit : bool;
  working_messages : list Message
}.

Definition SAFETY_LIMIT_REPLY : string :=
  "I've been working on your request but reached the maximum number " +:+
  "of tool calls. Here's what I've gathered so far — please ask a " +:+
  "follow-up question if you need more.".

Section loop.
Context {W : Type} `{Backend W} `{ApprovalGate W}.
Context (not_a_mapping : json -> string).
(** The order in which gathered tasks run. *)
Context (sched : list nat -> list nat).
Context (tools : Registry W) (config : AgentLoopConfig).
(** Whether a thinking-indicator callback is installed. *)
Context (has_callback : bool).

(** ** Executing tools *)

(** [_notify_tool_start] *)
Definition _notify_tool_start (tc : ToolCall) : M W unit :=
  if has_callback then modify (log_start (display_name (tc_name tc) tools)) else ret tt.

Definition error_payload (text tool : string) : string :=
  json_dumps (JObj [("error", JStr text); ("tool", JStr tool)]).

(** [self._tools.execute(...)], logged. *)
Definition dispatch_tool (tc : ToolCall) : M W (string + string) := fun e =>
  let '(x, (s, w)) := execute not_a_mapping (tc_name tc) (tc_arguments tc) tools
                              (surface e, world e) in
  (inr x, log_tool tc x s w e).

(** [_execute_one] *)
Definition _execute_one (tc : ToolCall) : M W Message :=
  (modify (register_tool_call (tc_id tc) (tc_name tc)) ;;
   r <- dispatch_tool tc;
   ret (tool_message (tc_id tc)
          (match r with inl exc => error_payload exc (tc_name tc) | inr out => out end)))%agent.

(** A gathered task: the context variable it sets is its own copy. *)
Definition in_child_task {A} (m : M W A) : M W A := fun e =>
  let '(x, e') := m e in (x, set_surface (surface e) e').

Definition _synthesize_missing_tool_result (tc : ToolCall) : Message :=
  tool_message (tc_id tc)
    (error_payload "Internal error: tool dispatch produced no result" (tc_name tc)).

(** Runs a list of slots in the given order. *)
Fixpoint fill_slots (run : ToolCall -> M W Message) (tcs : list ToolCall)
  (ix : list nat) (slots : gmap nat Message) : M W (gmap nat Message) :=
  match ix with
  | [] => ret slots
  | i :: ix =>
      match tcs !! i with
      | Some tc => (m <- run tc; fill_slots run tcs ix (<[i := m]> slots))%agent
      | None => fill_slots run tcs ix slots
      end
  end.

Fixpoint notify_all (tcs : list ToolCall) : M W unit :=
  match tcs with
  | [] => ret tt
  | tc :: tcs => (_notify_tool_start tc ;; notify_all tcs)%agent
  end.

Definition is_safe (tc : ToolCall) : bool :=
  match get (tc_name tc) tools with Some t => is_concurrency_safe t | None => true end.

(** The indices of the calls that satisfy [p]. *)
Definition indices (p : ToolCall -> bool) (tcs : list ToolCall) : list nat :=
  List.filter (fun i => match tcs !! i with Some tc => p tc | None => false end)
              (seq 0 (length tcs)).

Definition execute_tool_calls (tcs : list ToolCall) : M W (list Message) :=
  (let safe := indices is_safe tcs in
   let unsafe := indices (fun tc => negb (is_safe tc)) tcs in
   notify_all (omap (fun i => tcs !! i) safe) ;;
   slots <- fill_slots (fun tc => in_child_task (_execute_one tc)) tcs (sched safe) ∅;
   slots <- fill_slots (fun tc => _notify_tool_start tc ;; _execute_one tc) tcs unsafe slots;
   ret (imap (fun i tc => default (_synthesize_missing_tool_result tc) (slots !! i)) tcs))%agent.

(** ** Helpers of [run] *)

Definition _build_assistant_tool_message (r : InferenceResponse) : Message :=
  {| role := ASSISTANT; content := rs_content r;
     tool_calls := match response_calls r with [] => None | tcs => Some tcs end;
     tool_call_id := None |}.

Definition loop_request (rid : string) (ms : list Message) (defs : option (list ToolDefinition))
  : InferenceRequest :=
  {| rq_messages := ms; rq_model := model config; rq_temperature := temperature config;
     rq_max_tokens := max_tokens config; rq_request_id := rid; rq_tools := defs |}.

(** The retries of [_continue_truncated]. *)
Fixpoint continue_from (n : nat) (rid : string) (working : list Message) (chunks : string)
  : M W string :=
  match n with
  | O => ret chunks
  | S n =>
      (let working := working ++ [text_message USER CONTINUATION_PROMPT] in
       r <- infer (loop_request rid working None);
       if negb (String.eqb (finish_reason r) "length") then ret (chunks +:+ rs_content r)
       else continue_from n rid (working ++ [text_message ASSISTANT (rs_content r)])
                          (chunks +:+ rs_content r))%agent
  end.

Definition _continue_truncated (ms : list Message) (r : InferenceResponse) (rid : string)
  : M W string :=
  continue_from (Z.to_nat (max_continuation_retries config)) rid
    (ms ++ [text_message ASSISTANT (rs_content r)]) (rs_content r).

Definition _get_write_tool_calls (tcs : list ToolCall) : list ToolCall :=
  List.filter (fun tc => match get (tc_name tc) tools with
                         | Some t => negb (is_read_only t)
                         | None => false
                         end) tcs.

Fixpoint _needs_write_approval (tcs : list ToolCall) (rid : string) : M W bool :=
  match tcs with
  | [] => ret false
  | tc :: tcs =>
      (a <- check_approval "tool_call"
              {| ac_tool_name := Some (tc_name tc); ac_arguments := Some (tc_arguments tc);
                 ac_is_read_only := Some false; ac_content := None; ac_request_id := rid |};
       if approved a then _needs_write_approval tcs rid else ret true)%agent
  end.

(** One tool call of [_format_write_description]; a parsed value that is not
    an object has no [items]. *)
Definition describe_call (tc : ToolCall) : Exc + string :=
  let display := display_name (tc_name tc) tools in
  let parsed := if str_truthy (tc_arguments tc) then load (tc_arguments tc)
                else inr (JObj []) in
  let lines args :=
    ("*" +:+ display +:+ "*") ::
    flat_map (fun kv : string * json =>
      if json_truthy kv.2 then
        let v := json_str kv.2 in
        let v := if (200 <? py_len v)%Z then py_prefix 200 v +:+ "…" else v in
        ["  • " +:+ kv.1 +:+ ": " +:+ v]
      else []) args in
  match parsed with
  | inl (DecodeError _ _) => inr (String.concat newline (lines []))
  | inl e => inl (OtherError (error_text (tc_arguments tc) e))
  | inr (JObj args) => inr (String.concat newline (lines args))
  | inr v => inl (OtherError ("'" +:+ json_type_name v +:+ "' object has no attribute 'items'"))
  end.

Fixpoint describe_calls (tcs : list ToolCall) : Exc + list string :=
  match tcs with
  | [] => inr []
  | tc :: tcs => (d <-- describe_call tc;; ds <-- describe_calls tcs;; inr (d :: ds))%result
  end.

Definition _format_write_description (tcs : list ToolCall) : Exc + string :=
  (ds <-- describe_calls tcs;; inr (String.concat (newline +:+ newline) ds))%result.

(** ** The loop *)

(** [raise WriteApprovalError(PendingApproval(...))] *)
Definition pause_for_approval {A} (ms : list Message) (r : InferenceResponse) (rid : string)
  : M W A :=
  (s <- gets surface;
   match _format_write_description (_get_write_tool_calls (response_calls r)) with
   | inl exc => raise exc
   | inr d =>
       raise (WriteApprovalError
         {| pa_tool_calls := response_calls r; pa_working_messages := ms;
            pa_assistant_message := _build_assistant_tool_message r; pa_request_id := rid;
            pa_description := d; pa_original_user_text := ""; pa_surfaced_tools := s |})
   end)%agent.

(** [n] rounds are left, [round] are done. *)
Fixpoint run_rounds (n : nat) (rid : string) (round : Z) (ms : list Message) (total : Z)
  : M W AgentLoopResult :=
  match n with
  | O => ret {| lr_content := SAFETY_LIMIT_REPLY; tool_calls_made := total;
                rounds := max_tool_rounds config; hit_safety_limit := true;
                working_messages := ms |}
  | S n =>
      (let ms := truncate_tool_results config ms in
       ms <- (if should_compact config ms then compact config ms rid else ret ms);
       s <- gets surface;
       let defs := tool_definitions tools s in
       r <- infer (loop_request rid ms (match defs with [] => None | _ => Some defs end));
       match response_calls r with
       | [] =>
           content <- (if String.eqb (finish_reason r) "length"
                       then _continue_truncated ms r rid
                       else ret (rr_content (repair_response r)));
           ret {| lr_content := content; tool_calls_made := total; rounds := (round + 1)%Z;
                  hit_safety_limit := false; working_messages := ms |}
       | calls =>
           let writes := _get_write_tool_calls calls in
           blocked <- _needs_write_approval writes rid;
           if (blocked : bool) then pause_for_approval ms r rid
           else
             results <- execute_tool_calls calls;
             run_rounds n rid (round + 1)%Z
               ((ms ++ [_build_assistant_tool_message r]) ++ results) (total + len calls)%Z
       end)%agent
  end.

Definition run (ms : list Message) (rid : string) (pre_surfaced : list string)
  : M W AgentLoopResult :=
  (modify (set_surface ∅) ;;
   (match pre_surfaced with
    | [] => ret tt
    | ns => modify (fun e => set_surface (mark_surfaced ns tools (surface e)) e)
    end) ;;
   run_rounds (Z.to_nat (max_tool_rounds config)) rid 0%Z ms 0%Z)%agent.
End loop.
