(* ===== verification/LoopLemmas.v ===== *)
(** * LoopLemmas

    Reasoning about the agent monad, and the batch execution of tool calls:
    what every schedule of the gathered tasks has in common. *)

From S2P Require Import Prelude Json AgentTypes Registry Compaction Loop.

(** ** The monad *)

Lemma bind_inr {W A B} (m : M W A) (k : A -> M W B) e x e' :
  m e = (inr x, e') -> bind m k e = k x e'.
Proof. intros Hm. unfold bind. by rewrite Hm. Qed.

Lemma bind_inl {W A B} (m : M W A) (k : A -> M W B) e x e' :
  m e = (inl x, e') -> bind m k e = (inl x, e').
Proof. intros Hm. unfold bind. by rewrite Hm. Qed.

(** Every run of [m] relates its states by [R]. *)
Definition steps {W A} (R : Env W -> Env W -> Prop) (m : M W A) : Prop :=
  forall e, R e (m e).2.

Section steps.
Context {W : Type} (R : Env W -> Env W -> Prop) `{!PreOrder R}.

Lemma steps_ret {A} (x : A) : steps R (ret x).
Proof. intros e. reflexivity. Qed.

Lemma steps_raise {A} x : steps R (raise x : M W A).
Proof. intros e. reflexivity. Qed.

Lemma steps_gets {A} (f : Env W -> A) : steps R (gets f).
Proof. intros e. reflexivity. Qed.

Lemma steps_modify f : (forall e, R e (f e)) -> steps R (modify f).
Proof. intros Hf e. apply Hf. Qed.

Lemma steps_bind {A B} (m : M W A) (k : A -> M W B) :
  steps R m -> (forall x, steps R (k x)) -> steps R (bind m k).
Proof.
  intros Hm Hk e. unfold bind. specialize (Hm e). destruct (m e) as [[x|x] e']; [done|].
  etrans; [exact Hm|apply Hk].
Qed.

Lemma steps_if {A} (b : bool) (m m' : M W A) :
  steps R m -> steps R m' -> steps R (if b then m else m').
Proof. by destruct b. Qed.
End steps.

(** ** One tool call *)

(** A tool message that answers a call. *)
Definition answers (tc : ToolCall) (m : Message) : Prop :=
  role m = TOOL /\ tool_call_id m = Some (tc_id tc) /\ tool_calls m = None.

Section batch.
Context {W : Type}.
Context (not_a_mapping : json -> string).
Context (sched : list nat -> list nat) (tools : Registry W) (has_callback : bool).

Abbreviation exec_one := (_execute_one not_a_mapping tools).
Abbreviation exec_all := (execute_tool_calls not_a_mapping sched tools has_callback).

(** Runs that dispatch exactly one call and answer it. *)
Definition dispatches (run : ToolCall -> M W Message) : Prop :=
  forall tc e, exists m e', run tc e = (inr m, e') /\ answers tc m /\
    executed e' = executed e ++ [tc] /\ requests e' = requests e.

Lemma execute_one_dispatches : dispatches exec_one.
Proof.
  intros tc e. unfold _execute_one, bind, modify, dispatch_tool, ret.
  set (e1 := register_tool_call (tc_id tc) (tc_name tc) e).
  destruct (execute _ _ _ _ _) as [x [s w]]. eexists _, _. split; [reflexivity|].
  split; [done|]. unfold e1, register_tool_call. by case_if.
Qed.

Lemma child_dispatches : dispatches (fun tc => in_child_task (exec_one tc)).
Proof.
  intros tc e. destruct (execute_one_dispatches tc e) as (m & e' & He & Ha & Hx & Hr).
  exists m, (set_surface (surface e) e'). unfold in_child_task. by rewrite He.
Qed.

Lemma notify_same tc e :
  exists e', _notify_tool_start tools has_callback tc e = (inr tt, e') /\
    executed e' = executed e /\ requests e' = requests e /\ surface e' = surface e.
Proof. unfold _notify_tool_start. destruct has_callback; by eexists. Qed.

Lemma notify_all_same tcs e :
  exists e', notify_all tools has_callback tcs e = (inr tt, e') /\
    executed e' = executed e /\ requests e' = requests e /\ surface e' = surface e.
Proof.
  revert e. induction tcs as [|tc tcs IH]; intros e; simpl; [by eexists|].
  destruct (notify_same tc e) as (e1 & H1 & Hx1 & Hr1 & Hs1).
  destruct (IH e1) as (e2 & H2 & Hx2 & Hr2 & Hs2).
  exists e2. rewrite (bind_inr _ _ _ _ _ H1), H2. split; [done|]. split; [congruence|].
  split; congruence.
Qed.

Lemma notified_dispatches :
  dispatches (fun tc => bind (_notify_tool_start tools has_callback tc) (fun _ => exec_one tc)).
Proof.
  intros tc e. destruct (notify_same tc e) as (e1 & H1 & Hx1 & Hr1 & _).
  destruct (execute_one_dispatches tc e1) as (m & e' & He & Ha & Hx & Hr).
  exists m, e'. rewrite (bind_inr _ _ _ _ _ H1), He. split; [done|]. split; [done|].
  split; congruence.
Qed.

(** ** Slots *)

Lemma fill_slots_spec run tcs ix slots e :
  dispatches run ->
  exists slots' e', fill_slots run tcs ix slots e = (inr slots', e') /\
    executed e' = executed e ++ omap (fun i => tcs !! i) ix /\
    requests e' = requests e /\
    (forall i tc, i ∈ ix -> tcs !! i = Some tc -> exists m, slots' !! i = Some m /\ answers tc m) /\
    (forall i, i ∉ ix -> slots' !! i = slots !! i).
Proof.
  clear sched. intros Hrun. revert slots e. induction ix as [|i ix IH]; intros slots e; simpl.
  { exists slots, e. rewrite app_nil_r. split; [done|]. split; [done|]. split; [done|].
    split; [set_solver|done]. }
  destruct (tcs !! i) as [tc|] eqn:Hi.
  - destruct (Hrun tc e) as (m & e1 & H1 & Ha & Hx1 & Hr1).
    destruct (IH (<[i:=m]> slots) e1) as (slots' & e' & H2 & Hx2 & Hr2 & Hin & Hout).
    exists slots', e'. rewrite (bind_inr _ _ _ _ _ H1), H2. split; [done|].
    split; [by rewrite Hx2, Hx1, <- app_assoc|]. split; [congruence|]. split.
    + intros j tc' Hj Htc. destruct (decide (j ∈ ix)) as [Hx|Hx]; [by apply Hin|].
      apply elem_of_cons in Hj as [->|Hj]; [|done]. simplify_eq.
      exists m. rewrite Hout by done. by rewrite lookup_insert_eq.
    + intros j Hj. rewrite Hout by set_solver. rewrite lookup_insert_ne; [done|set_solver].
  - destruct (IH slots e) as (slots' & e' & H2 & Hx2 & Hr2 & Hin & Hout).
    exists slots', e'. split; [done|]. split; [done|]. split; [done|]. split.
    + intros j tc' Hj Htc. apply elem_of_cons in Hj as [->|Hj]; [congruence|by apply Hin].
    + intros j Hj. apply Hout. set_solver.
Qed.

Lemma indices_elem p tcs i :
  i ∈ indices p tcs <-> exists tc, tcs !! i = Some tc /\ p tc = true.
Proof.
  unfold indices. rewrite list_elem_of_In, List.filter_In, List.in_seq. split.
  - intros [_ H]. destruct (tcs !! i) as [tc|]; [|done]. by exists tc.
  - intros (tc & Hi & Hp). rewrite Hi. split; [|done].
    apply lookup_lt_Some in Hi. lia.
Qed.

(** Looking the indices of [p] up gives the calls that satisfy [p]. *)
Lemma indices_omap p tcs : omap (fun i => tcs !! i) (indices p tcs) = List.filter p tcs.
Proof.
  unfold indices.
  assert (H : forall pre l, omap (fun i => (pre ++ l) !! i)
      (List.filter (fun i => match (pre ++ l) !! i with Some tc => p tc | None => false end)
         (seq (length pre) (length l))) = List.filter p l).
  { intros pre l. revert pre. induction l as [|x l IH]; intros pre; [done|].
    cbn [length seq List.filter]. rewrite list_lookup_middle by done.
    specialize (IH (pre ++ [x])). rewrite <- app_assoc, length_app in IH. simpl in IH.
    rewrite Nat.add_1_r in IH.
    destruct (p x) eqn:Hp; [|by rewrite IH].
    cbn [omap list_omap]. simpl. rewrite list_lookup_middle by done. by rewrite IH. }
  apply (H [] tcs).
Qed.

Lemma filter_split_perm {A} (p : A -> bool) (l : list A) :
  List.filter p l ++ List.filter (fun x => negb (p x)) l ≡ₚ l.
Proof.
  induction l as [|x l IH]; simpl; [done|]. destruct (p x); simpl; [by rewrite IH|].
  rewrite <- Permutation_middle. by rewrite IH.
Qed.

(** Whatever the schedule, the batch returns one answer per call, in the
    order of the calls, and dispatches every call exactly once. *)
Lemma exec_all_spec tcs e :
  (forall l, sched l ≡ₚ l) ->
  exists ms e' done, exec_all tcs e = (inr ms, e') /\
    Forall2 answers tcs ms /\ executed e' = executed e ++ done /\ done ≡ₚ tcs /\
    requests e' = requests e.
Proof.
  intros Hs. unfold execute_tool_calls.
  set (safe := indices (is_safe tools) tcs).
  set (unsafe := indices (fun tc => negb (is_safe tools tc)) tcs).
  destruct (notify_all_same (omap (fun i => tcs !! i) safe) e) as (e0 & H0 & Hx0 & Hr0 & _).
  rewrite (bind_inr _ _ _ _ _ H0).
  destruct (fill_slots_spec _ tcs (sched safe) ∅ e0 child_dispatches)
    as (s1 & e1 & H1 & Hx1 & Hr1 & Hin1 & Hout1).
  rewrite (bind_inr _ _ _ _ _ H1).
  destruct (fill_slots_spec _ tcs unsafe s1 e1 notified_dispatches)
    as (s2 & e2 & H2 & Hx2 & Hr2 & Hin2 & Hout2).
  rewrite (bind_inr _ _ _ _ _ H2). unfold ret.
  eexists _, e2, _. split; [reflexivity|]. split; [|split; [|split]].
  - apply Forall2_same_length_lookup_2; [by rewrite length_imap|].
    intros i tc m Htc Hm. rewrite list_lookup_imap, Htc in Hm. simpl in Hm. simplify_eq.
    assert (Hslot : exists m, s2 !! i = Some m /\ answers tc m).
    { destruct (is_safe tools tc) eqn:Hsafe.
      - rewrite Hout2.
        + apply Hin1; [|done]. rewrite Hs. apply indices_elem. by exists tc.
        + intros Hi. apply indices_elem in Hi as (tc' & Hi & Hp).
          rewrite Htc in Hi. simplify_eq. by rewrite Hsafe in Hp.
      - apply Hin2; [|done]. apply indices_elem. exists tc. by rewrite Hsafe. }
    destruct Hslot as (m & -> & Ha). done.
  - by rewrite Hx2, Hx1, Hx0, <- app_assoc.
  - rewrite (omap_Permutation _ _ _ (Hs safe)). unfold safe, unsafe.
    rewrite !indices_omap. apply filter_split_perm.
  - congruence.
Qed.

(** A batch of concurrency-safe tools leaves the caller's surface alone. *)
Lemma child_fill_surface tcs ix slots e :
  surface (fill_slots (fun tc => in_child_task (exec_one tc)) tcs ix slots e).2 = surface e.
Proof.
  revert slots e. induction ix as [|i ix IH]; intros slots e; simpl; [done|].
  destruct (tcs !! i) as [tc|]; [|apply IH].
  destruct (child_dispatches tc e) as (m & e1 & H1 & _).
  rewrite (bind_inr _ _ _ _ _ H1), IH. unfold in_child_task in H1.
  destruct (exec_one tc e) as [x e']. by simplify_eq.
Qed.
End batch.

(** ** The tool protocol of a conversation

    Every assistant message that requests tools is followed by exactly one
    result per call, in order, before anything else; [p] are the ids still
    unanswered. *)

Definition proto_step (p : list string) (m : Message) : option (list string) :=
  match role m with
  | TOOL => match p, tool_call_id m with
            | i :: p', Some j => if String.eqb i j then Some p' else None
            | _, _ => None
            end
  | _ => match p with
         | [] => Some (match tool_calls m with Some tcs => map tc_id tcs | None => [] end)
         | _ => None
         end
  end.

Fixpoint pending_after (p : list string) (ms : list Message) : option (list string) :=
  match ms with
  | [] => Some p
  | m :: ms => p' ← proto_step p m; pending_after p' ms
  end.

Definition protocol_ok (ms : list Message) : bool :=
  match pending_after [] ms with Some [] => true | _ => false end.

Lemma pending_app p a b : pending_after p (a ++ b) = p' ← pending_after p a; pending_after p' b.
Proof.
  revert p. induction a as [|m a IH]; intros p; simpl; [done|].
  destruct (proto_step p m); simpl; [apply IH|done].
Qed.

Lemma protocol_ok_spec ms : protocol_ok ms = true <-> pending_after [] ms = Some [].
Proof. unfold protocol_ok. destruct (pending_after [] ms) as [[|i p]|]; naive_solver. Qed.

Lemma protocol_app a b :
  protocol_ok a = true -> pending_after [] b = Some [] -> protocol_ok (a ++ b) = true.
Proof. rewrite !protocol_ok_spec, pending_app. by intros ->. Qed.

Lemma pending_truncate cfg p ms : pending_after p (truncate_tool_results cfg ms) = pending_after p ms.
Proof.
  unfold truncate_tool_results. revert p. induction ms as [|m ms IH]; intros p; simpl; [done|].
  destruct (truncate_keeps_shape (micro_compaction_chars cfg) m) as (H1 & H2 & H3).
  assert (proto_step p (truncate_message (micro_compaction_chars cfg) m) = proto_step p m) as ->
    by (unfold proto_step; by rewrite H1, H2, H3).
  destruct (proto_step p m); simpl; [apply IH|done].
Qed.

Lemma pending_answers tcs ms : Forall2 answers tcs ms -> pending_after (map tc_id tcs) ms = Some [].
Proof.
  induction 1 as [|tc m tcs ms (Hr & Hi & _) _ IH]; simpl; [done|].
  unfold proto_step. rewrite Hr, Hi, String.eqb_refl. simpl. apply IH.
Qed.

Lemma answers_ids tcs ms :
  Forall2 answers tcs ms ->
  map tool_call_id ms = map (fun tc => Some (tc_id tc)) tcs /\ Forall (fun m => role m = TOOL) ms.
Proof.
  induction 1 as [|tc m tcs ms (Hr & Hi & _) _ [IH1 IH2]]; simpl; [done|].
  rewrite Hi, IH1. split; [done|]. by constructor.
Qed.

(** A round's additions keep the protocol. *)
Lemma protocol_round ms r results :
  protocol_ok ms = true -> response_calls r ≠ [] -> Forall2 answers (response_calls r) results ->
  protocol_ok ((ms ++ [_build_assistant_tool_message r]) ++ results) = true.
Proof.
  intros Hms Hne Ha. rewrite <- app_assoc. apply protocol_app; [done|]. simpl.
  destruct (response_calls r) as [|tc tcs]; [done|]. simpl.
  exact (pending_answers _ _ Ha).
Qed.

Lemma protocol_text ms r c :
  r ≠ TOOL -> protocol_ok ms = true -> protocol_ok (ms ++ [text_message r c]) = true.
Proof. intros Hr Hms. apply protocol_app; [done|]. by destruct r. Qed.

(** ** The pieces of a round *)

(** Only requests were added. *)
Definition asked {W} (e e' : Env W) (rs : list InferenceRequest) : Prop :=
  requests e' = requests e ++ rs /\ executed e' = executed e /\ surface e' = surface e.

Lemma asked_nil {W} (e : Env W) : asked e e [].
Proof. split; [by rewrite app_nil_r|done]. Qed.

Lemma asked_app {W} (e1 e2 e3 : Env W) a b :
  asked e1 e2 a -> asked e2 e3 b -> asked e1 e3 (a ++ b).
Proof. intros (H1 & H2 & H3) (H4 & H5 & H6). split; [|split]; [|congruence..]. by rewrite H4, H1, <- app_assoc. Qed.

Section pieces.
Context {W : Type} `{Backend W} `{ApprovalGate W}.
Context (cfg : AgentLoopConfig) (rid : string).

Lemma infer_asked q (e : Env W) : exists e', infer q e = ((complete q (world e)).1, e') /\ asked e e' [q].
Proof. unfold infer. destruct (complete q (world e)) as [x w]. by eexists. Qed.

Definition compaction_id : string := rid +:+ "-compact".

(** The request a compaction makes. *)
Definition is_compaction (c : InferenceRequest) : Prop :=
  rq_request_id c = compaction_id /\ rq_tools c = None.

Lemma compact_asked ms (e : Env W) :
  exists x e', compact cfg ms rid e = (x, e') /\
    ((x = inr ms /\ e' = e) \/
     exists c, asked e e' [c] /\ is_compaction c).
Proof.
  unfold compact. case_if; [by exists (inr ms), e; split; [|left]|].
  destruct (split_system ms) as [sys conv]. case_if; [by exists (inr ms), e; split; [|left]|].
  set (k := Z.to_nat _).
  destruct (infer_asked (summary_request cfg rid
    (_format_for_summary (names_by_id e) (take k conv))) e) as (e1 & H1 & Ha).
  unfold _summarize, bind, gets. rewrite H1.
  destruct (complete _ _).1 as [exc|r]; eexists _, e1; (split; [reflexivity|]);
    right; eexists; (split; [exact Ha|done]).
Qed.

Lemma continue_asked n working chunks (e : Env W) :
  exists x e' rs, continue_from cfg n rid working chunks e = (x, e') /\ asked e e' rs /\
    length rs <= n /\
    Forall (fun q => rq_request_id q = rid /\ rq_tools q = None /\
              (protocol_ok working = true -> protocol_ok (rq_messages q) = true)) rs.
Proof.
  revert working chunks e. induction n as [|n IH]; intros working chunks e; simpl.
  { eexists _, e, []. split; [reflexivity|]. split; [apply asked_nil|]. split; [simpl; lia|constructor]. }
  set (w1 := working ++ [text_message USER CONTINUATION_PROMPT]).
  destruct (infer_asked (loop_request cfg rid w1 None) e) as (e1 & H1 & Ha1).
  assert (Hw1 : protocol_ok working = true -> protocol_ok w1 = true)
    by (intros Hw; by apply protocol_text).
  unfold bind at 1. rewrite H1. destruct (complete _ _).1 as [exc|r].
  { eexists _, e1, [_]. split; [reflexivity|]. split; [exact Ha1|]. split; [simpl; lia|].
    by repeat constructor. }
  case_if.
  { eexists _, e1, [_]. split; [reflexivity|]. split; [exact Ha1|]. split; [simpl; lia|].
    by repeat constructor. }
  destruct (IH (w1 ++ [text_message ASSISTANT (rs_content r)]) (chunks +:+ rs_content r) e1)
    as (x & e' & rs & -> & Ha & Hlen & HF).
  eexists x, e', (_ :: rs). split; [reflexivity|].
  split; [by apply (asked_app _ _ _ [_] rs Ha1)|]. split; [simpl; lia|].
  constructor; [done|]. eapply List.Forall_impl; [|exact HF].
  intros q (? & ? & Hq). split; [done|]. split; [done|]. intros Hw.
  apply Hq. apply protocol_text; [done|by apply Hw1].
Qed.

Lemma needs_approval_asked tcs (e : Env W) :
  exists b e', _needs_write_approval tcs rid e = (inr b, e') /\ asked e e' [].
Proof.
  revert e. induction tcs as [|tc tcs IH]; intros e; simpl.
  { exists false, e. split; [done|apply asked_nil]. }
  unfold bind, check_approval. destruct (approval_check _ _ (world e)) as [a w].
  destruct (approved a).
  - destruct (IH (set_world w e)) as (b & e' & -> & Ha). exists b, e'. split; [done|].
    by apply (asked_app _ (set_world w e) _ [] []); [split; [rewrite app_nil_r|]|].
  - exists true, (set_world w e). split; [done|]. by split; [rewrite app_nil_r|].
Qed.
End pieces.

(** ** One round *)

Section round.
Context {W : Type} `{Backend W} `{ApprovalGate W}.
Context (not_a_mapping : json -> string).
Context (sched : list nat -> list nat) (tools : Registry W).
Context (cfg : AgentLoopConfig) (has_callback : bool).
Context (sched_perm : forall l, sched l ≡ₚ l).

Abbreviation rounds_of := (run_rounds not_a_mapping sched tools cfg has_callback).

(** Tools that run in the loop's own task do not touch the surface. *)
Definition surface_kept : Prop :=
  forall t, t ∈ tools -> is_concurrency_safe t = false ->
    forall args s w, (handler t args (s, w)).2.1 = s.

Lemma execute_keeps n args (s : gset string) (w : W) t :
  get n tools = Some t -> (forall a, (handler t a (s, w)).2.1 = s) ->
  (execute not_a_mapping n args tools (s, w)).2.1 = s.
Proof.
  intros Hg Hh. unfold execute. rewrite Hg.
  destruct (if str_truthy args then _ else _) as [|[]]; try done.
  specialize (Hh o). destruct (handler t o (s, w)) as [[] c]; exact Hh.
Qed.

Lemma unsafe_one_surface tc (e : Env W) :
  surface_kept -> is_safe tools tc = false ->
  surface (_execute_one not_a_mapping tools tc e).2 = surface e.
Proof.
  intros Hk Hs. unfold is_safe in Hs. destruct (get (tc_name tc) tools) as [t|] eqn:Hg; [|done].
  destruct (get_spec _ _ _ Hg) as [Hin _].
  unfold _execute_one, bind, modify, dispatch_tool, ret.
  set (e1 := register_tool_call _ _ e).
  assert (He1 : surface e1 = surface e) by (unfold e1, register_tool_call; by case_if).
  pose proof (execute_keeps (tc_name tc) (tc_arguments tc) (surface e1) (world e1) t Hg
    (fun a => Hk t Hin Hs a _ _)) as Hx.
  destruct (execute _ _ _ _ _) as [x [s w]]. simpl in *. congruence.
Qed.

Lemma unsafe_fill_surface tcs ix slots (e : Env W) :
  surface_kept ->
  (forall i tc, i ∈ ix -> tcs !! i = Some tc -> is_safe tools tc = false) ->
  surface (fill_slots (fun tc => bind (_notify_tool_start tools has_callback tc)
    (fun _ => _execute_one not_a_mapping tools tc)) tcs ix slots e).2 = surface e.
Proof.
  intros Hk. revert slots e. induction ix as [|i ix IH]; intros slots e Hix; simpl; [done|].
  destruct (tcs !! i) as [tc|] eqn:Hi; [|apply IH; set_solver].
  destruct (notify_same tools has_callback tc e) as (e1 & H1 & _ & _ & Hs1).
  destruct (execute_one_dispatches not_a_mapping tools tc e1) as (m & e2 & H2 & _).
  assert (Hone : is_safe tools tc = false) by (apply (Hix i); [set_solver|done]).
  pose proof (unsafe_one_surface tc e1 Hk Hone) as Hs2. rewrite H2 in Hs2. simpl in Hs2.
  assert (H12 : bind (_notify_tool_start tools has_callback tc)
    (fun _ => _execute_one not_a_mapping tools tc) e = (inr m, e2))
    by by rewrite (bind_inr _ _ _ _ _ H1).
  rewrite (bind_inr _ _ _ _ _ H12), IH by set_solver. congruence.
Qed.

Lemma exec_all_surface tcs (e : Env W) :
  surface_kept ->
  surface (execute_tool_calls not_a_mapping sched tools has_callback tcs e).2 = surface e.
Proof.
  intros Hk. unfold execute_tool_calls.
  set (safe := indices (is_safe tools) tcs).
  destruct (notify_all_same tools has_callback (omap (fun i => tcs !! i) safe) e)
    as (e0 & Hn0 & _ & _ & Hs0).
  rewrite (bind_inr _ _ _ _ _ Hn0).
  pose proof (child_fill_surface not_a_mapping tools tcs (sched safe) ∅ e0) as Hs1.
  destruct (fill_slots_spec _ tcs (sched safe) ∅ e0
    (child_dispatches not_a_mapping tools)) as (s1 & e1 & H1 & _).
  rewrite H1 in Hs1. simpl in Hs1. rewrite (bind_inr _ _ _ _ _ H1).
  set (unsafe := indices _ tcs).
  assert (Hun : forall i tc, i ∈ unsafe -> tcs !! i = Some tc -> is_safe tools tc = false).
  { intros i tc Hi Htc. apply indices_elem in Hi as (tc' & Hi & Hp).
    rewrite Htc in Hi. simplify_eq. by apply negb_true_iff in Hp. }
  pose proof (unsafe_fill_surface tcs unsafe s1 e1 Hk Hun) as Hs2.
  destruct (fill_slots_spec _ tcs unsafe s1 e1
    (notified_dispatches not_a_mapping tools has_callback)) as (s2 & e2 & H2 & _).
  rewrite H2 in Hs2. simpl in Hs2. rewrite (bind_inr _ _ _ _ _ H2). simpl. congruence.
Qed.

Definition advertised (s : gset string) : option (list ToolDefinition) :=
  match tool_definitions tools s with
  | [] => None
  | _ :: _ => Some (tool_definitions tools s)
  end.

(** The compaction of a round. *)
Lemma compaction_phase rid ms (e : Env W) :
  exists x e' crs, (if should_compact cfg ms then compact cfg ms rid else ret ms) e = (x, e') /\
    asked e e' crs /\ ((x = inr ms /\ crs = []) \/ exists c, crs = [c] /\ is_compaction rid c).
Proof.
  case_if.
  - destruct (compact_asked cfg rid ms e) as (x & e' & -> & [[-> ->]|(c & Ha & Hid)]).
    + exists (inr ms), e, []. split; [done|]. split; [apply asked_nil|by left].
    + exists x, e', [c]. split; [done|]. split; [done|]. right. by exists c.
  - exists (inr ms), e, []. split; [done|]. split; [apply asked_nil|by left].
Qed.

(** What the requests of a continuation are. *)
Definition continuation (rid : string) (ms : list Message) (q : InferenceRequest) : Prop :=
  rq_request_id q = rid /\ rq_tools q = None /\
  (protocol_ok ms = true -> protocol_ok (rq_messages q) = true).

(** The text of an answer without tool calls. *)
Lemma text_phase rid ms r (e : Env W) :
  exists x e' rs,
    (if String.eqb (finish_reason r) "length" then _continue_truncated cfg ms r rid
     else ret (rr_content (repair_response r))) e = (x, e') /\
    asked e e' rs /\ length rs <= Z.to_nat (max_continuation_retries cfg) /\
    Forall (continuation rid ms) rs.
Proof.
  case_if.
  - unfold _continue_truncated.
    destruct (continue_asked cfg rid (Z.to_nat (max_continuation_retries cfg))
      (ms ++ [text_message ASSISTANT (rs_content r)]) (rs_content r) e)
      as (x & e3 & rs & H3 & Ha3 & Hlen & HF).
    exists x, e3, rs. split; [done|]. split; [done|]. split; [done|].
    eapply List.Forall_impl; [|exact HF]. intros q' (? & ? & Hp). split; [done|].
    split; [done|]. intros Hm. by apply Hp, protocol_text.
  - eexists _, e, []. split; [reflexivity|]. split; [apply asked_nil|]. split; [simpl; lia|constructor].
Qed.

(** What a round does: it may compact, asks the model once, then stops (with
    at most the configured continuations, or an exception), or executes the
    calls it was given and goes on. *)
Lemma round_step n rid round ms total (e : Env W) :
  let out := rounds_of (S n) rid round ms total e in
  let ms0 := truncate_tool_results cfg ms in
  exists crs ms1,
    ((crs = [] /\ ms1 = ms0) \/ exists c, crs = [c] /\ is_compaction rid c) /\
    ((exists exc, out.1 = inl exc /\ asked e out.2 crs) \/
     let q := loop_request cfg rid ms1 (advertised (surface e)) in
     (exists rs, asked e out.2 (crs ++ q :: rs) /\
        length rs <= Z.to_nat (max_continuation_retries cfg) /\
        Forall (continuation rid ms1) rs /\
        ((exists exc, out.1 = inl exc) \/
         exists c, out.1 = inr {| lr_content := c; tool_calls_made := total;
           rounds := (round + 1)%Z; hit_safety_limit := false; working_messages := ms1 |})) \/
     (exists r e0 e1 results done,
        response_calls r ≠ [] /\
        (_needs_write_approval (_get_write_tool_calls tools (response_calls r)) rid e0).1 = inr false /\
        Forall2 answers (response_calls r) results /\
        requests e1 = requests e ++ crs ++ [q] /\
        executed e1 = executed e ++ done /\ done ≡ₚ response_calls r /\
        (surface_kept -> surface e1 = surface e) /\
        out = rounds_of n rid (round + 1)%Z
                ((ms1 ++ [_build_assistant_tool_message r]) ++ results)
                (total + len (response_calls r))%Z e1)).
Proof.
  intros out ms0. unfold out. cbn [run_rounds]. fold ms0. clear out.
  destruct (compaction_phase rid ms0 e) as (x & e' & crs & Hc & Ha & Hcrs).
  destruct x as [exc|ms1].
  { rewrite (bind_inl _ _ _ _ _ Hc). exists crs, ms0.
    split; [destruct Hcrs as [[? _]|?]; [done|by right]|]. left. by exists exc. }
  rewrite (bind_inr _ _ _ _ _ Hc). exists crs, ms1. split.
  { destruct Hcrs as [[[= ->] ->]|?]; [by left|by right]. }
  right. set (q := loop_request cfg rid ms1 (advertised (surface e))).
  rewrite (bind_inr (gets surface) _ e' (surface e') e' eq_refl).
  destruct Ha as (Hr & Hx & Hs).
  cbv zeta. fold (advertised (surface e')). rewrite Hs. fold q.
  destruct (infer_asked q e') as (e2 & H2 & Ha2).
  assert (Hq : asked e e2 (crs ++ [q])) by (apply (asked_app _ e'); [by split|done]).
  destruct (complete q (world e')).1 as [exc|r].
  { rewrite (bind_inl _ _ _ _ _ H2). left. exists []. split; [done|].
    split; [simpl; lia|]. split; [constructor|]. left. by exists exc. }
  rewrite (bind_inr _ _ _ _ _ H2).
  destruct (response_calls r) as [|tc tcs] eqn:Hcalls.
  - left. destruct (text_phase rid ms1 r e2) as (x & e3 & rs & H3 & Ha3 & Hlen & HF).
    exists rs. split; [|split; [done|split; [done|]]].
    + change (q :: rs) with ([q] ++ rs). rewrite app_assoc. apply (asked_app _ e2); [done|].
      by destruct x; [rewrite (bind_inl _ _ _ _ _ H3)|rewrite (bind_inr _ _ _ _ _ H3)].
    + destruct x as [exc|c]; [rewrite (bind_inl _ _ _ _ _ H3)|rewrite (bind_inr _ _ _ _ _ H3)].
      * left. by exists exc.
      * right. by exists c.
  - rewrite <- Hcalls.
    destruct (needs_approval_asked rid (_get_write_tool_calls tools (response_calls r)) e2)
      as (b & e3 & H3 & Ha3).
    assert (Hq3 : asked e e3 (crs ++ [q])).
    { rewrite <- (app_nil_r (crs ++ [q])). by apply (asked_app _ e2). }
    rewrite (bind_inr _ _ _ _ _ H3). destruct b.
    + left. exists []. unfold pause_for_approval, bind, gets.
      destruct (_format_write_description _ _); simpl;
        (split; [done|]); (split; [simpl; lia|]); (split; [constructor|]); left; by eexists.
    + right. destruct (exec_all_spec not_a_mapping sched tools has_callback
        (response_calls r) e3 sched_perm) as (results & e4 & dn & H4 & Hans & Hx4 & Hp & Hr4).
      rewrite (bind_inr _ _ _ _ _ H4). destruct Hq3 as (Hr3 & Hx3 & Hs3).
      exists r, e2, e4, results, dn. split; [by rewrite Hcalls|]. split; [by rewrite H3|].
      split; [done|]. split; [congruence|]. split; [congruence|]. split; [done|].
      split; [|done]. intros Hk. pose proof (exec_all_surface (response_calls r) e3 Hk) as Hs4.
      rewrite H4 in Hs4. simpl in Hs4. congruence.
Qed.
End round.
