(* ===== verification/CompactionTheorems.v ===== *)
(** * CompactionTheorems

    What compaction does to a conversation, what it breaks, and the stitching
    of truncated answers. *)

From Stdlib Require Import Ascii.
From S2P Require Import Prelude Json AgentTypes Registry Compaction Loop LoopLemmas.

(** ** Full compaction *)

(** Full compaction keeps the newest messages.  A list that is too short
    is returned as it is, without a request.  Otherwise the messages after
    the system message split into a head of at least two and a tail of at
    least [min_keep]; one request without tools asks for a summary of the
    head; and the result is the system message, the summary and its
    acknowledgment, and the tail verbatim.  A failed request fails the
    compaction. *)
Theorem compaction_rolls {W} `{Backend W} cfg ms rid (e : Env W) :
  (0 <= compaction_min_keep cfg)%Z ->
  let out := compact cfg ms rid e in
  let sys := (split_system ms).1 in let conv := (split_system ms).2 in
  ((len ms < 2)%Z \/ (len conv < compaction_min_keep cfg + 2)%Z -> out = (inr ms, e)) /\
  ((2 <= len ms)%Z -> (compaction_min_keep cfg + 2 <= len conv)%Z ->
   exists head kept q,
     ms = sys ++ head ++ kept /\ (2 <= len head)%Z /\ (compaction_min_keep cfg <= len kept)%Z /\
     asked e out.2 [q] /\ rq_tools q = None /\
     rq_messages q = [text_message SYSTEM _SUMMARY_SYSTEM_PROMPT;
                      text_message USER (_format_for_summary (names_by_id e) head)] /\
     match (complete q (world e)).1 with
     | inr r => out.1 = inr (sys ++ [summary_message (rs_content r); ack_message] ++ kept)
     | inl exc => out.1 = inl exc
     end).
Proof.
  intros Hmin out sys conv. unfold out, sys, conv, compact.
  destruct (split_system ms) as [sys0 conv0] eqn:Hsplit. cbn [fst snd].
  apply split_system_spec in Hsplit as [Hms _].
  unfold _MIN_MESSAGES_FOR_COMPACTION, _MIN_COMPRESS_COUNT. split.
  - intros Hshort. destruct (Z.ltb_spec (len ms) 2); [done|].
    destruct (Z.ltb_spec (len conv0) (compaction_min_keep cfg + 2)); [done|]. lia.
  - intros H2 Hlong. destruct (Z.ltb_spec (len ms) 2); [lia|].
    destruct (Z.ltb_spec (len conv0) (compaction_min_keep cfg + 2)); [lia|].
    pose proof (compress_count_bounds cfg (len conv0) Hmin Hlong) as Hk.
    unfold _MIN_COMPRESS_COUNT in Hk.
    set (k := Z.to_nat (compress_count cfg (len conv0))).
    set (q := summary_request cfg rid (_format_for_summary (names_by_id e) (take k conv0))).
    exists (take k conv0), (drop k conv0), q.
    destruct (infer_asked q e) as (e1 & Hinf & Ha).
    assert (Hout : bind (_summarize cfg (take k conv0) rid)
      (fun summary => ret (sys0 ++ [summary_message summary; ack_message] ++ drop k conv0)) e =
      (match (complete q (world e)).1 with
       | inr r => inr (sys0 ++ [summary_message (rs_content r); ack_message] ++ drop k conv0)
       | inl exc => inl exc end, e1)).
    { unfold _summarize, bind, gets, ret. fold q. rewrite Hinf. by destruct (complete _ _).1. }
    rewrite Hout. split; [by rewrite take_drop|].
    unfold len in *. rewrite length_take, length_drop.
    split; [lia|]. split; [lia|]. split; [done|]. split; [done|]. split; [done|].
    by destruct (complete q (world e)).1.
Qed.

(** A backend that always answers the same text. *)
Definition constant_backend (text : string) : Backend unit := fun _ w =>
  (inr {| rs_content := text; finish_reason := "stop"; rs_tool_calls := None |}, w).

Definition sample_cfg : AgentLoopConfig :=
  {| model := "m"; temperature := "0.7"; max_tokens := 2048; max_tool_rounds := 10;
     max_continuation_retries := 2; micro_compaction_chars := 40;
     compaction_threshold_chars := 1000; compress_share := fun n => (n / 2)%Z;
     compaction_min_keep := 2; compaction_model := "" |}.

Definition tool_turn : list Message :=
  [text_message SYSTEM "s"; text_message USER "look it up";
   {| role := ASSISTANT; content := ""; tool_calls :=
        Some [{| tc_id := "c1"; tc_name := "read_file"; tc_arguments := "{}" |}];
      tool_call_id := None |};
   tool_message "c1" "data"; text_message ASSISTANT "done"].

(** Compaction can orphan a tool result.  The split between summarised
    head and kept tail is by count alone: a conversation that follows the
    tool protocol is compacted into one that does not, its tail starting
    with the result of a call that was summarised away. *)
Theorem compaction_orphans_tool_result :
  protocol_ok tool_turn = true /\
  exists ms', (@compact unit (constant_backend "sum") sample_cfg tool_turn "r" (new_env tt)).1 = inr ms' /\
    protocol_ok ms' = false /\ ms' !! 3 = Some (tool_message "c1" "data").
Proof.
  split; [vm_compute; reflexivity|]. eexists.
  split; [vm_compute; reflexivity|]. split; vm_compute; reflexivity.
Qed.

(** ** Micro-compaction *)

Lemma take_chars_app_exact n a t :
  py_len a = n -> (forall c t', t = String c t' -> is_continuation c = false) ->
  take_chars n (a +:+ t) = a.
Proof.
  intros Hn Ht. revert n Hn. induction a as [|c a IH]; intros n Hn.
  - simpl in Hn. subst n. change ("" +:+ t) with t. destruct t as [|c t]; [done|]. simpl.
    by rewrite (Ht c t eq_refl).
  - rewrite string_app_cons. simpl in *. pose proof (py_len_nonneg a).
    destruct (is_continuation c); [f_equal; apply IH; lia|].
    destruct (Z.leb_spec n 0); [lia|]. f_equal. apply IH. lia.
Qed.

Lemma notice_plain n c t' : truncation_notice n = String c t' -> is_continuation c = false.
Proof. unfold truncation_notice, newline. rewrite string_app_cons. intros [= <- _]. reflexivity. Qed.

Lemma notice_long n : (0 < py_len (truncation_notice n))%Z.
Proof.
  unfold truncation_notice. rewrite !py_len_app.
  pose proof (py_len_nonneg (show_Z n)). assert (py_len newline = 1%Z) by reflexivity.
  assert (0 <= py_len "[Truncated — original: ")%Z by apply py_len_nonneg.
  assert (0 <= py_len " chars]")%Z by apply py_len_nonneg. lia.
Qed.

Lemma truncate_long limit m :
  (0 <= limit)%Z -> role m = TOOL -> (limit < py_len (content m))%Z ->
  content (truncate_message limit m) =
    py_prefix limit (content m) +:+ truncation_notice (py_len (content m)) /\
  py_len (content (truncate_message limit m)) =
    (limit + py_len (truncation_notice (py_len (content m))))%Z.
Proof.
  intros Hl Hr Hlong. unfold truncate_message.
  rewrite bool_decide_eq_true_2 by done. destruct (Z.ltb_spec limit (py_len (content m))); [|lia].
  split; [done|]. cbn [andb with_content content].
  rewrite py_len_app, py_prefix_len by done. rewrite Z.min_l by lia. done.
Qed.

(** Micro-compaction truncates, but not to the limit.  Messages that are
    not tool results, and results within the limit, are unchanged.  A longer
    result becomes its first [limit] characters followed by the notice, which
    is always more than [limit] characters; so the next round truncates it
    again, and from then on the notice gives the size of the truncated text
    where it should give that of the original. *)
Theorem micro_compaction_overshoots limit m :
  (0 <= limit)%Z ->
  let m1 := truncate_message limit m in
  let m2 := truncate_message limit m1 in
  (role m ≠ TOOL \/ (py_len (content m) <= limit)%Z -> m1 = m) /\
  (role m = TOOL -> (limit < py_len (content m))%Z ->
   content m1 = py_prefix limit (content m) +:+ truncation_notice (py_len (content m)) /\
   (limit < py_len (content m1))%Z /\
   content m2 = py_prefix limit (content m) +:+ truncation_notice (py_len (content m1))).
Proof.
  intros Hl m1 m2. split.
  - intros Hm. unfold m1, truncate_message. destruct (bool_decide_reflect (role m = TOOL)); [|done].
    destruct (Z.ltb_spec limit (py_len (content m))); [|done]. exfalso.
    destruct Hm; [done|lia].
  - intros Hr Hlong. destruct (truncate_long limit m Hl Hr Hlong) as [Hc Hlen].
    fold m1 in Hc, Hlen. pose proof (notice_long (py_len (content m))).
    split; [done|]. split; [lia|].
    assert (Hr1 : role m1 = TOOL) by (rewrite <- Hr; apply truncate_keeps_shape).
    destruct (truncate_long limit m1 Hl Hr1 ltac:(lia)) as [Hc2 _].
    unfold m2. rewrite Hc2. f_equal. rewrite Hc. unfold py_prefix at 1.
    destruct (Z.ltb_spec limit 0); [lia|]. apply take_chars_app_exact.
    + rewrite py_prefix_len by done. lia.
    + intros c t'. apply notice_plain.
Qed.

(** ** Continuation of truncated answers *)

(** A backend that plays a script. *)
Definition scripted_backend : Backend (list InferenceResponse) := fun _ w =>
  match w with
  | r :: w => (inr r, w)
  | [] => (inl (InferenceError "unavailable" "script exhausted"), [])
  end.

(** The answers a continuation of at most [n] retries consumes: up to the
    first that is not truncated. *)
Fixpoint answers_used (n : nat) (script : list InferenceResponse) : list InferenceResponse :=
  match n, script with
  | S n, r :: script =>
      r :: (if String.eqb (finish_reason r) "length" then answers_used n script else [])
  | _, _ => []
  end.

Definition texts (rs : list InferenceResponse) : string :=
  fold_right (fun r s => rs_content r +:+ s) EmptyString rs.

Lemma continue_from_used cfg n rid working chunks script e :
  n <= length script -> world e = script ->
  exists e', @continue_from _ scripted_backend cfg n rid working chunks e =
      (inr (chunks +:+ texts (answers_used n script)), e') /\
    exists rs, requests e' = requests e ++ rs /\ length rs = length (answers_used n script).
Proof.
  revert working chunks script e. induction n as [|n IH]; intros working chunks script e Hn Hw.
  { exists e. simpl. rewrite string_app_nil_r. split; [done|]. exists []. by rewrite app_nil_r. }
  destruct script as [|r script]; simpl in Hn; [lia|]. cbn [continue_from answers_used].
  set (w1 := working ++ [text_message USER CONTINUATION_PROMPT]).
  assert (Hinf : @infer _ scripted_backend (loop_request cfg rid w1 None) e =
    (inr r, log_request (loop_request cfg rid w1 None) script e)).
  { unfold infer, complete, scripted_backend. by rewrite Hw. }
  rewrite (bind_inr _ _ _ _ _ Hinf).
  destruct (String.eqb (finish_reason r) "length"); cbn [negb].
  - destruct (IH (w1 ++ [text_message ASSISTANT (rs_content r)]) (chunks +:+ rs_content r) script
      (log_request (loop_request cfg rid w1 None) script e)) as (e' & He & rs & Hr & Hl);
      [lia|reflexivity|].
    rewrite He. exists e'. split; [cbn [texts fold_right]; by rewrite string_app_assoc|]. simpl in Hr.
    eexists (_ :: rs). rewrite Hr. simpl. rewrite <- app_assoc. split; [reflexivity|].
    simpl. by rewrite Hl.
  - eexists. cbn [texts fold_right]. rewrite string_app_nil_r. split; [reflexivity|].
    eexists [_]. split; [reflexivity|done].
Qed.

(** A truncated answer is stitched together.  With a backend that plays
    a script, the text returned for a truncated response is that response
    followed, with nothing between them, by the continuations up to and
    including the first complete one; at most [max_continuation_retries]
    requests are made, one per continuation used. *)
Theorem continuation_stitches cfg ms r rid script e :
  Z.to_nat (max_continuation_retries cfg) <= length script -> world e = script ->
  let used := answers_used (Z.to_nat (max_continuation_retries cfg)) script in
  let out := @_continue_truncated _ scripted_backend cfg ms r rid e in
  out.1 = inr (rs_content r +:+ texts used) /\
  length used <= Z.to_nat (max_continuation_retries cfg) /\
  exists rs, requests out.2 = requests e ++ rs /\ length rs = length used.
Proof.
  intros Hn Hw used out. unfold out, _continue_truncated.
  destruct (continue_from_used cfg (Z.to_nat (max_continuation_retries cfg)) rid
    (ms ++ [text_message ASSISTANT (rs_content r)]) (rs_content r) script e Hn Hw)
    as (e' & He & rs & Hr & Hl).
  rewrite He. split; [done|]. split; [|by exists rs].
  unfold used. generalize (Z.to_nat (max_continuation_retries cfg)) as n. clear.
  intros n. revert script. induction n as [|n IH]; intros script; simpl; [lia|].
  destruct script as [|r script]; simpl; [lia|]. case_if; simpl; [|lia].
  specialize (IH script). lia.
Qed.

(** ** Witnesses *)

Lemma compaction_rolls_witness :
  exists head kept q,
    tool_turn = (split_system tool_turn).1 ++ head ++ kept /\ (2 <= len head)%Z /\
    (2 <= len kept)%Z /\
    asked (new_env tt) (@compact unit (constant_backend "sum") sample_cfg tool_turn "r" (new_env tt)).2 [q] /\
    rq_tools q = None /\
    rq_messages q = [text_message SYSTEM _SUMMARY_SYSTEM_PROMPT;
                     text_message USER (_format_for_summary ∅ head)] /\
    (@compact unit (constant_backend "sum") sample_cfg tool_turn "r" (new_env tt)).1 =
      inr ((split_system tool_turn).1 ++ [summary_message "sum"; ack_message] ++ kept).
Proof.
  apply (@compaction_rolls unit (constant_backend "sum") sample_cfg tool_turn "r" (new_env tt)).
  - vm_compute. discriminate.
  - vm_compute. discriminate.
  - vm_compute. discriminate.
Defined.

Definition long_result : Message :=
  tool_message "c1" "0123456789012345678901234567890123456789012345678901234567890123456789".

Lemma micro_compaction_overshoots_witness :
  let m1 := truncate_message 40 long_result in
  content m1 = py_prefix 40 (content long_result) +:+ truncation_notice 70 /\
  (40 < py_len (content m1))%Z /\
  content (truncate_message 40 m1) =
    py_prefix 40 (content long_result) +:+ truncation_notice (py_len (content m1)).
Proof.
  apply (micro_compaction_overshoots 40 long_result).
  - lia.
  - reflexivity.
  - vm_compute. reflexivity.
Defined.

Definition part (t fr : string) : InferenceResponse :=
  {| rs_content := t; finish_reason := fr; rs_tool_calls := None |}.

Lemma continuation_stitches_witness :
  (@_continue_truncated _ scripted_backend sample_cfg [] (part "One " "length") "r"
     (new_env [part "two " "length"; part "three." "stop"])).1 = inr "One two three.".
Proof.
  apply (continuation_stitches sample_cfg [] (part "One " "length") "r"
    [part "two " "length"; part "three." "stop"]
    (new_env [part "two " "length"; part "three." "stop"])).
  - vm_compute. lia.
  - reflexivity.
Defined.
