(* ===== verification/LoopTheorems.v ===== *)
(** * LoopTheorems

    What the agent loop promises: one answer per tool call whatever the
    schedule, bounded inference, no write without approval, a conversation
    the backend accepts; and where compaction and the tool surface fall
    short of it.

    The last part is induction over a run: a preorder on the loop's states
    that holds across the primitive steps (the context variable and the
    compactor's map, a notification, an inference, an approval check, a tool
    dispatch) holds across a whole run, whatever its outcome. *)

From S2P Require Import Prelude Json AgentTypes Registry Compaction Loop LoopLemmas.
From S2P Require Import CompactionTheorems.

(** ** A batch of tool calls *)

(** C7: one answer per tool call.  Whatever order the concurrent tasks
    finish in, executing a batch never raises; it dispatches every call
    exactly once and returns exactly one tool message per call, in the order
    of the calls and carrying their ids, even for tools that do not exist or
    fail; and it asks the model nothing. *)
Theorem batch_answers_every_call {W} not_a_mapping sched (tools : Registry W) cb tcs e :
  (forall l, sched l ≡ₚ l) ->
  exists ms e' dispatched,
    execute_tool_calls not_a_mapping sched tools cb tcs e = (inr ms, e') /\
    length ms = length tcs /\
    map tool_call_id ms = map (fun tc => Some (tc_id tc)) tcs /\
    Forall (fun m => role m = TOOL) ms /\
    executed e' = executed e ++ dispatched /\ dispatched ≡ₚ tcs /\
    requests e' = requests e.
Proof.
  intros Hs.
  destruct (exec_all_spec not_a_mapping sched tools cb tcs e Hs)
    as (ms & e' & dn & He & Ha & Hx & Hp & Hr).
  exists ms, e', dn. split; [done|]. split; [by symmetry; eapply Forall2_length|].
  destruct (answers_ids _ _ Ha). done.
Qed.

(** ** Induction over the rounds *)

Section runs.
Context {W : Type} `{Backend W} `{ApprovalGate W}.
Context (not_a_mapping : json -> string).
Context (sched : list nat -> list nat) (tools : Registry W).
Context (cfg : AgentLoopConfig) (has_callback : bool).
Context (sched_perm : forall l, sched l ≡ₚ l).

Abbreviation rounds_of := (run_rounds not_a_mapping sched tools cfg has_callback).
Abbreviation step := (round_step not_a_mapping sched tools cfg has_callback sched_perm).

(** [run] is its rounds after the surface is reset. *)
Definition start_surface (pre : list string) : gset string :=
  match pre with [] => ∅ | ns => mark_surfaced ns tools ∅ end.

Lemma run_rounds_of ms rid pre e :
  run not_a_mapping sched tools cfg has_callback ms rid pre e =
  rounds_of (Z.to_nat (max_tool_rounds cfg)) rid 0%Z ms 0%Z (set_surface (start_surface pre) e).
Proof. unfold run, bind, modify, ret, start_surface. by destruct pre. Qed.

Lemma rounds_bounded n rid round ms total (e : Env W) :
  let out := rounds_of n rid round ms total e in
  exists rs dn, requests out.2 = requests e ++ rs /\ executed out.2 = executed e ++ dn /\
    length rs <= 2 * n + Z.to_nat (max_continuation_retries cfg) /\
    (forall r, out.1 = inr r ->
       tool_calls_made r = (total + len dn)%Z /\
       (if hit_safety_limit r then rounds r = max_tool_rounds cfg
        else (round < rounds r <= round + Z.of_nat n)%Z)).
Proof.
  revert round ms total e. induction n as [|n IH]; intros round ms total e out.
  { exists [], []. unfold out. simpl. rewrite !app_nil_r. split; [done|]. split; [done|].
    split; [lia|]. intros r [= <-]. simpl. unfold len. simpl. split; [lia|done]. }
  destruct (step n rid round ms total e) as (crs & ms1 & Hcrs & Hout). fold out in Hout.
  assert (Hcl : length crs <= 1) by (destruct Hcrs as [[-> _]|(c & -> & _)]; simpl; lia).
  destruct Hout as [(exc & Ho & Hr & Hx & _)|[(rs & (Hr & Hx & _) & Hlen & _ & Ho)|
    (r & e0 & e1 & results & dn & _ & _ & _ & Hr1 & Hx1 & Hp & _ & Ho)]].
  - exists crs, []. rewrite Hx, app_nil_r. split; [done|]. split; [done|]. split; [lia|].
    intros r Hr'. congruence.
  - exists (crs ++ loop_request cfg rid ms1 (advertised tools (surface e)) :: rs), [].
    rewrite Hx, app_nil_r. split; [done|]. split; [done|].
    split; [rewrite length_app; simpl; lia|].
    intros r Hr'. destruct Ho as [[exc Ho]|[c Ho]]; [congruence|].
    rewrite Ho in Hr'. injection Hr' as <-. unfold len. simpl. lia.
  - destruct (IH (round + 1)%Z ((ms1 ++ [_build_assistant_tool_message r]) ++ results)
      (total + len (response_calls r))%Z e1) as (rs & dn' & Hr2 & Hx2 & Hlen & Hres).
    rewrite <- Ho in Hr2, Hx2, Hres.
    exists (crs ++ [loop_request cfg rid ms1 (advertised tools (surface e))] ++ rs), (dn ++ dn').
    split; [by rewrite Hr2, Hr1, <- !app_assoc|].
    split; [by rewrite Hx2, Hx1, <- app_assoc|].
    split; [rewrite !length_app; simpl; lia|].
    intros r' Hr'. destruct (Hres r' Hr') as [Ht Hround].
    assert (Hlp : len dn = len (response_calls r)) by (unfold len; by rewrite Hp).
    split; [unfold len in *; rewrite length_app; lia|].
    destruct (hit_safety_limit r'); [done|]. lia.
Qed.

(** Requests that keep the tool protocol until a compaction is asked for. *)
Fixpoint ok_until_compaction (rid : string) (rs : list InferenceRequest) : Prop :=
  match rs with
  | [] => True
  | r :: rs => rq_request_id r = rid ->
      protocol_ok (rq_messages r) = true /\ ok_until_compaction rid rs
  end.

Lemma ok_until_app rid a b :
  ok_until_compaction rid a -> ok_until_compaction rid b -> ok_until_compaction rid (a ++ b).
Proof.
  intros Ha Hb. induction a as [|r a IH]; simpl; [done|].
  intros Hid. destruct (Ha Hid) as [Hp Ha']. split; [done|]. by apply IH.
Qed.

Lemma ok_until_all rid a :
  Forall (fun q => protocol_ok (rq_messages q) = true) a -> ok_until_compaction rid a.
Proof. induction 1; simpl; auto. Qed.

Lemma compaction_id_ne rid : compaction_id rid ≠ rid.
Proof.
  unfold compaction_id. intros Hr. apply (f_equal String.length) in Hr.
  rewrite string_length_app in Hr. simpl in Hr. lia.
Qed.

Lemma rounds_protocol n rid round ms total (e : Env W) :
  protocol_ok ms = true ->
  exists rs, requests (rounds_of n rid round ms total e).2 = requests e ++ rs /\
    ok_until_compaction rid rs.
Proof.
  revert round ms total e. induction n as [|n IH]; intros round ms total e Hms.
  { exists []. by rewrite app_nil_r. }
  destruct (step n rid round ms total e) as (crs & ms1 & Hcrs & Hout).
  assert (Hms0 : protocol_ok (truncate_tool_results cfg ms) = true).
  { apply protocol_ok_spec. rewrite pending_truncate. by apply protocol_ok_spec. }
  destruct Hcrs as [[-> ->]|(c & -> & [Hc _])].
  2:{ destruct (rounds_bounded (S n) rid round ms total e) as (rs & _ & Hrs & _).
      exists rs. split; [done|].
      assert (Hhd : exists rs', rs = c :: rs').
      { destruct Hout as [(exc & _ & Hr & _)|[(rs' & (Hr & _) & _)|
          (r & e0 & e1 & results & dn & _ & _ & _ & Hr1 & _ & _ & _ & Ho)]].
        - rewrite Hrs in Hr. apply app_inv_head in Hr. by eexists.
        - rewrite Hrs in Hr. apply app_inv_head in Hr. by eexists.
        - destruct (rounds_bounded n rid (round + 1)%Z
            ((ms1 ++ [_build_assistant_tool_message r]) ++ results)
            (total + len (response_calls r))%Z e1) as (rs2 & _ & Hr2 & _).
          rewrite <- Ho, Hrs, Hr1, <- !app_assoc in Hr2. apply app_inv_head in Hr2. by eexists. }
      destruct Hhd as [rs' ->]. simpl. intros Hid. rewrite Hc in Hid.
      by apply compaction_id_ne in Hid. }
  destruct Hout as [(exc & _ & Hr & _)|[(rs & (Hr & _) & _ & HF & _)|
    (r & e0 & e1 & results & dn & Hne & _ & Ha & Hr1 & _ & _ & _ & Ho)]].
  - exists []. split; [done|exact I].
  - eexists. split; [exact Hr|]. apply ok_until_all. simpl. constructor; [done|].
    eapply List.Forall_impl; [|exact HF]. intros q (_ & _ & Hq). by apply Hq.
  - destruct (IH (round + 1)%Z ((truncate_tool_results cfg ms ++
        [_build_assistant_tool_message r]) ++ results) (total + len (response_calls r))%Z e1)
      as (rs & Hr2 & Hok); [by apply protocol_round|].
    rewrite <- Ho in Hr2. eexists (_ :: rs).
    split; [rewrite Hr2, Hr1, <- app_assoc; reflexivity|]. simpl. done.
Qed.

Lemma rounds_advertised n rid round ms total (e : Env W) :
  surface_kept tools ->
  exists rs, requests (rounds_of n rid round ms total e).2 = requests e ++ rs /\
    Forall (fun q => rq_tools q = None \/ rq_tools q = advertised tools (surface e)) rs.
Proof.
  intros Hk. revert round ms total e. induction n as [|n IH]; intros round ms total e.
  { exists []. by rewrite app_nil_r. }
  destruct (step n rid round ms total e) as (crs & ms1 & Hcrs & Hout).
  assert (Hc : Forall (fun q => rq_tools q = None \/ rq_tools q = advertised tools (surface e)) crs).
  { destruct Hcrs as [[-> _]|(c & -> & [_ Hc])]; [constructor|].
    constructor; [by left|constructor]. }
  destruct Hout as [(exc & _ & Hr & _)|[(rs & (Hr & _) & _ & HF & _)|
    (r & e0 & e1 & results & dn & _ & _ & _ & Hr1 & _ & _ & Hs & Ho)]].
  - by exists crs.
  - eexists. split; [exact Hr|]. apply Forall_app. split; [done|].
    constructor; [by right|]. eapply List.Forall_impl; [|exact HF].
    intros q (_ & Hq & _). by left.
  - destruct (IH (round + 1)%Z ((ms1 ++ [_build_assistant_tool_message r]) ++ results)
      (total + len (response_calls r))%Z e1) as (rs & Hr2 & HF).
    rewrite <- Ho in Hr2. rewrite (Hs Hk) in HF.
    eexists. split; [rewrite Hr2, Hr1, <- app_assoc; reflexivity|].
    rewrite <- app_assoc. apply Forall_app. split; [done|].
    constructor; [by right|done].
Qed.
(** A request of a round, unlike a compaction or a continuation, offers the
    tools. *)
Definition offers_tools (q : InferenceRequest) : bool := bool_decide (rq_tools q ≠ None).

(** The rounds of a run are the requests that offered tools, when there is a
    tool to offer. *)
Lemma rounds_counted n rid round ms total (e : Env W) :
  existsb is_core tools = true ->
  let out := rounds_of n rid round ms total e in
  exists rs, requests out.2 = requests e ++ rs /\
    forall r, out.1 = inr r ->
      if hit_safety_limit r then len (List.filter offers_tools rs) = Z.of_nat n
      else rounds r = (round + len (List.filter offers_tools rs))%Z.
Proof.
  intros Hcore. revert round ms total e. induction n as [|n IH]; intros round ms total e out.
  { exists []. unfold out. simpl. rewrite app_nil_r. split; [done|]. by intros r [= <-]. }
  destruct (step n rid round ms total e) as (crs & ms1 & Hcrs & Hout). fold out in Hout.
  assert (Hc : List.filter offers_tools crs = []).
  { destruct Hcrs as [[-> _]|(c & -> & [_ Hc])]; [done|]. simpl. unfold offers_tools. by rewrite Hc. }
  assert (Hq : offers_tools (loop_request cfg rid ms1 (advertised tools (surface e))) = true).
  { unfold offers_tools, advertised. simpl. apply bool_decide_eq_true.
    destruct (tool_definitions tools (surface e)) eqn:Hd; [|done]. exfalso.
    apply existsb_exists in Hcore as (t & Ht & Hi). unfold tool_definitions in Hd.
    apply map_eq_nil in Hd. enough (Hin : List.In t []) by destruct Hin.
    rewrite <- Hd. apply List.filter_In. by rewrite Hi. }
  destruct Hout as [(exc & Ho & Hr & _)|[(rs & (Hr & _) & _ & HF & Ho)|
    (r & e0 & e1 & results & dn & _ & _ & _ & Hr1 & _ & _ & _ & Ho)]].
  - exists crs. split; [done|]. intros r Hr'. congruence.
  - eexists. split; [exact Hr|]. intros r Hr'. destruct Ho as [[exc Ho]|[c Ho]]; [congruence|].
    rewrite Ho in Hr'. injection Hr' as <-. simpl.
    assert (Hrs : List.filter offers_tools rs = []).
    { clear Hr. induction HF as [|q rs (_ & Hn & _) _ IHF]; [done|]. simpl.
      unfold offers_tools at 1. rewrite bool_decide_eq_false_2; [done|]. intros Hq2; by apply Hq2. }
    rewrite List.filter_app, Hc. simpl. rewrite Hq, Hrs. done.
  - destruct (IH (round + 1)%Z ((ms1 ++ [_build_assistant_tool_message r]) ++ results)
      (total + len (response_calls r))%Z e1) as (rs & Hr2 & Hres).
    rewrite <- Ho in Hr2, Hres. eexists.
    split; [rewrite Hr2, Hr1, <- app_assoc; reflexivity|].
    intros r' Hr'. specialize (Hres r' Hr').
    rewrite !List.filter_app, Hc. simpl. rewrite Hq. unfold len in *. cbn [length].
    cbn [app length].
    destruct (hit_safety_limit r'); lia.
Qed.
End runs.

(** ** Bounds *)

(** C40: a run is bounded.  For every backend, gate, tool behaviour and
    schedule, [run] ends after at most [max_tool_rounds] rounds; it makes at
    most one compaction and one loop request per round and
    [max_continuation_retries] continuation requests in all; and a returned
    result counts exactly the tool calls dispatched. *)
Theorem run_is_bounded {W} `{Backend W} `{ApprovalGate W} not_a_mapping sched
  (tools : Registry W) cfg cb ms rid pre e :
  (forall l, sched l ≡ₚ l) ->
  let out := run not_a_mapping sched tools cfg cb ms rid pre e in
  exists rs dispatched,
    requests out.2 = requests e ++ rs /\ executed out.2 = executed e ++ dispatched /\
    length rs <= 2 * Z.to_nat (max_tool_rounds cfg) + Z.to_nat (max_continuation_retries cfg) /\
    (forall r, out.1 = inr r ->
       tool_calls_made r = len dispatched /\
       (if hit_safety_limit r then rounds r = max_tool_rounds cfg
        else (0 < rounds r <= max_tool_rounds cfg)%Z)).
Proof.
  intros Hs out. unfold out. rewrite run_rounds_of.
  destruct (rounds_bounded not_a_mapping sched tools cfg cb Hs
    (Z.to_nat (max_tool_rounds cfg)) rid 0%Z ms 0%Z (set_surface (start_surface tools pre) e))
    as (rs & dn & Hr & Hx & Hlen & Hres).
  exists rs, dn. split; [done|]. split; [done|]. split; [done|]. intros r Ho.
  destruct (Hres r Ho) as [Ht Hround]. split; [lia|].
  destruct (hit_safety_limit r); [done|]. lia.
Qed.

(** ** Write approval *)

Definition is_write {W} (tools : Registry W) (tc : ToolCall) : bool :=
  match get (tc_name tc) tools with Some t => negb (is_read_only t) | None => false end.

(** The gate blocks every batch that holds a write. *)
Lemma write_gate_passes {W} (tools : Registry W) tcs rid (e : Env W) :
  (@_needs_write_approval W write_approval (_get_write_tool_calls tools tcs) rid e).1 = inr false ->
  Forall (fun tc => is_write tools tc = false) tcs.
Proof.
  unfold _get_write_tool_calls. intros Hn. apply List.Forall_forall. intros tc Hin.
  fold (is_write tools) in Hn.
  change (List.filter _ tcs) with (List.filter (is_write tools) tcs) in Hn.
  destruct (is_write tools tc) eqn:Hw; [|done]. exfalso.
  assert (Hf : In tc (List.filter (is_write tools) tcs)) by (by apply List.filter_In).
  destruct (List.filter (is_write tools) tcs) as [|tc' l]; [done|].
  unfold _needs_write_approval, bind, check_approval, approval_check, write_approval in Hn.
  simpl in Hn. discriminate.
Qed.

Lemma rounds_no_write {W} `{Backend W} not_a_mapping sched (tools : Registry W)
  cfg cb n rid round ms total (e : Env W) :
  (forall l, sched l ≡ₚ l) ->
  exists dn, executed (@run_rounds W _ write_approval not_a_mapping sched tools cfg cb
                         n rid round ms total e).2 = executed e ++ dn /\
    Forall (fun tc => is_write tools tc = false) dn.
Proof.
  intros Hs. revert round ms total e. induction n as [|n IH]; intros round ms total e.
  { exists []. by rewrite app_nil_r. }
  destruct (@round_step W _ write_approval not_a_mapping sched tools cfg cb Hs
    n rid round ms total e) as (crs & ms1 & _ & Hout).
  destruct Hout as [(exc & _ & _ & Hx & _)|[(rs & (_ & Hx & _) & _)|
    (r & e0 & e1 & results & dn & _ & Hg & _ & _ & Hx1 & Hp & _ & Ho)]].
  - exists []. by rewrite app_nil_r.
  - exists []. by rewrite app_nil_r.
  - rewrite Ho. destruct (IH (round + 1)%Z ((ms1 ++ [_build_assistant_tool_message r]) ++ results)
      (total + len (response_calls r))%Z e1) as (dn' & -> & HF).
    exists (dn ++ dn'). rewrite Hx1, <- app_assoc. split; [done|].
    apply Forall_app. split; [|done]. rewrite Hp. by eapply write_gate_passes.
Qed.

(** C3: no write without approval.  Under [WriteApproval], whatever the
    model asks for and however the run ends, every tool call [run]
    dispatches is to a read-only tool (or to a name that is not registered,
    which executes nothing). *)
Theorem no_write_without_approval {W} `{Backend W} not_a_mapping sched
  (tools : Registry W) cfg cb ms rid pre e :
  (forall l, sched l ≡ₚ l) ->
  exists dispatched,
    executed (@run W _ write_approval not_a_mapping sched tools cfg cb ms rid pre e).2
      = executed e ++ dispatched /\
    forall tc t, tc ∈ dispatched -> get (tc_name tc) tools = Some t -> is_read_only t = true.
Proof.
  intros Hs. rewrite run_rounds_of.
  destruct (rounds_no_write not_a_mapping sched tools cfg cb
    (Z.to_nat (max_tool_rounds cfg)) rid 0%Z ms 0%Z (set_surface (start_surface tools pre) e) Hs)
    as (dn & Hx & HF).
  exists dn. split; [done|]. intros tc t Hin Hg.
  rewrite List.Forall_forall in HF. apply list_elem_of_In in Hin. specialize (HF _ Hin).
  unfold is_write in HF. rewrite Hg in HF. by apply negb_false_iff in HF.
Qed.

(** ** The conversation the backend sees *)

(** C8: The tool protocol is kept until the first compaction.  If the
    messages a run starts from follow every tool-requesting assistant
    message by exactly its results, then so do the messages of every request
    the run makes (loop and continuation requests alike), up to the first
    compaction request; micro-compaction of long results does not disturb
    it. *)
Theorem requests_keep_protocol {W} `{Backend W} `{ApprovalGate W} not_a_mapping sched
  (tools : Registry W) cfg cb ms rid pre e :
  (forall l, sched l ≡ₚ l) -> protocol_ok ms = true ->
  exists rs,
    requests (run not_a_mapping sched tools cfg cb ms rid pre e).2 = requests e ++ rs /\
    forall before q after, rs = before ++ q :: after ->
      Forall (fun q => rq_request_id q = rid) (before ++ [q]) ->
      protocol_ok (rq_messages q) = true.
Proof.
  intros Hs Hms. rewrite run_rounds_of.
  destruct (rounds_protocol not_a_mapping sched tools cfg cb Hs
    (Z.to_nat (max_tool_rounds cfg)) rid 0%Z ms 0%Z (set_surface (start_surface tools pre) e) Hms)
    as (rs & Hr & Hok).
  exists rs. split; [done|]. intros before q after ->.
  clear Hr. induction before as [|b before IH]; simpl in *; intros HF.
  - apply Forall_cons_iff in HF as [Hq _]. by apply Hok.
  - apply Forall_cons_iff in HF as [Hb HF]. apply IH; [|done]. by apply Hok.
Qed.

(** Tools found by [tool_search] are never advertised.  When the tools
    that run in the loop's own task leave the surface alone — and
    [tool_search], being concurrency-safe, runs in a task of its own, whose
    copy of the context variable is dropped with it — every request of a run
    that advertises tools advertises exactly those visible at its start: the
    core tools and the pre-surfaced ones. *)
Theorem surfaced_tools_never_advertised {W} `{Backend W} `{ApprovalGate W} not_a_mapping
  sched (tools : Registry W) cfg cb ms rid pre e :
  (forall l, sched l ≡ₚ l) -> surface_kept tools ->
  exists rs,
    requests (run not_a_mapping sched tools cfg cb ms rid pre e).2 = requests e ++ rs /\
    forall q, q ∈ rs -> rq_tools q = None \/
      rq_tools q = Some (tool_definitions tools (start_surface tools pre)).
Proof.
  intros Hs Hk. rewrite run_rounds_of.
  destruct (rounds_advertised not_a_mapping sched tools cfg cb Hs
    (Z.to_nat (max_tool_rounds cfg)) rid 0%Z ms 0%Z (set_surface (start_surface tools pre) e) Hk)
    as (rs & Hr & HF).
  exists rs. split; [done|]. intros q Hq. rewrite List.Forall_forall in HF.
  apply list_elem_of_In in Hq. destruct (HF _ Hq) as [H1|H1]; [by left|].
  unfold advertised in H1. simpl in H1.
  destruct (tool_definitions tools (start_surface tools pre)) eqn:Hd; [by left|by right].
Qed.

(** ** Witnesses: a scripted model with three tools *)

Abbreviation Script := (list InferenceResponse) (only parsing).

Definition script_tool (n : string) (read_only safe core : bool) (h : Handler Script)
  : ToolSpec Script :=
  {| name := n; description := "a tool"; input_schema := JNull; handler := h;
     is_read_only := read_only; is_concurrency_safe := safe; is_core := core;
     ts_display_name := ""; toolset := "t"; check_fn := None; max_result_chars := 8000 |}.

Definition ok_handler : Handler Script := fun _ c => (inr "ok", c).

Definition service_tools : Registry Script :=
  [script_tool "jira_search" true true false ok_handler;
   script_tool "write_file" false false true ok_handler].

(** The registered [tool_search], over the service tools. *)
Definition search_handler : Handler Script := fun args c =>
  match obj_get "query" args with
  | Some (JStr q) =>
      let '(p, s) := tool_search service_tools q None c.1 in
      (inr (json_dumps p), (s, c.2))
  | _ => (inl "missing query", c)
  end.

Definition script_tools : Registry Script :=
  script_tool "tool_search" true true true search_handler :: service_tools.

Definition calls (tcs : list ToolCall) : InferenceResponse :=
  {| rs_content := ""; finish_reason := "tool_calls"; rs_tool_calls := Some tcs |}.

Definition search_call : ToolCall :=
  {| tc_id := "c1"; tc_name := "tool_search";
     tc_arguments := json_dumps (JObj [("query", JStr "jira search")]) |}.
Definition write_call : ToolCall :=
  {| tc_id := "c2"; tc_name := "write_file"; tc_arguments := "{}" |}.

Definition search_script : Script := [calls [search_call]; part "found it" "stop"].
Definition write_script : Script := [calls [search_call; write_call]].

Definition script_start : list Message := [text_message SYSTEM "s"; text_message USER "u"].

(** The gathered tasks finish in reverse order. *)
Definition script_run (gate : ApprovalGate Script) (script : Script) :=
  @run Script scripted_backend gate (fun _ => "not a mapping") (@rev nat)
       script_tools sample_cfg true script_start "r" [] (new_env script).

Lemma rev_perm (l : list nat) : rev l ≡ₚ l.
Proof. symmetry. apply Permutation_rev. Qed.

Lemma script_surface_kept : surface_kept script_tools.
Proof.
  intros t Hin Hs args s w. apply list_elem_of_In in Hin.
  destruct Hin as [<-|[<-|[<-|[]]]]; done.
Qed.

Lemma batch_answers_every_call_witness :
  exists ms e' dispatched,
    execute_tool_calls (fun _ => "not a mapping") (@rev nat) script_tools true
      [write_call; search_call; search_call] (new_env []) = (inr ms, e') /\
    length ms = 3 /\
    map tool_call_id ms = [Some "c2"; Some "c1"; Some "c1"] /\
    Forall (fun m => role m = TOOL) ms /\
    executed e' = [] ++ dispatched /\ dispatched ≡ₚ [write_call; search_call; search_call] /\
    requests e' = [].
Proof.
  apply (batch_answers_every_call (fun _ => "not a mapping") (@rev nat) script_tools
    true [write_call; search_call; search_call] (new_env [])).
  exact rev_perm.
Defined.

Lemma run_is_bounded_witness :
  exists rs dispatched,
    requests (script_run auto_approval search_script).2 = [] ++ rs /\
    executed (script_run auto_approval search_script).2 = [] ++ dispatched /\
    length rs <= 22 /\
    (forall r, (script_run auto_approval search_script).1 = inr r ->
       tool_calls_made r = len dispatched /\
       (if hit_safety_limit r then rounds r = 10%Z else (0 < rounds r <= 10)%Z)).
Proof.
  apply (@run_is_bounded Script scripted_backend auto_approval
    (fun _ => "not a mapping") (@rev nat) script_tools sample_cfg true script_start "r" []
    (new_env search_script)).
  exact rev_perm.
Defined.

Lemma no_write_without_approval_witness :
  exists dispatched,
    executed (script_run write_approval write_script).2 = [] ++ dispatched /\
    forall tc t, tc ∈ dispatched -> get (tc_name tc) script_tools = Some t -> is_read_only t = true.
Proof.
  apply (@no_write_without_approval Script scripted_backend
    (fun _ => "not a mapping") (@rev nat) script_tools sample_cfg true script_start "r" []
    (new_env write_script)).
  exact rev_perm.
Defined.

Lemma requests_keep_protocol_witness :
  exists rs,
    requests (script_run auto_approval search_script).2 = [] ++ rs /\
    forall before q after, rs = before ++ q :: after ->
      Forall (fun q => rq_request_id q = "r") (before ++ [q]) ->
      protocol_ok (rq_messages q) = true.
Proof.
  apply (@requests_keep_protocol Script scripted_backend auto_approval
    (fun _ => "not a mapping") (@rev nat) script_tools sample_cfg true script_start "r" []
    (new_env search_script)).
  - exact rev_perm.
  - vm_compute. reflexivity.
Defined.

(** The model searches, the search reports [jira_search], and the next
    request still does not offer it. *)
Lemma surfaced_tools_never_advertised_witness :
  map (fun q => map fn_name (default [] (rq_tools q)))
      (requests (script_run auto_approval search_script).2) =
    [["tool_search"; "write_file"]; ["tool_search"; "write_file"]] /\
  exists rs,
    requests (script_run auto_approval search_script).2 = [] ++ rs /\
    forall q, q ∈ rs -> rq_tools q = None \/
      rq_tools q = Some (tool_definitions script_tools (start_surface script_tools [])).
Proof.
  split; [vm_compute; reflexivity|].
  apply (@surfaced_tools_never_advertised Script scripted_backend auto_approval
    (fun _ => "not a mapping") (@rev nat) script_tools sample_cfg true script_start "r" []
    (new_env search_script)).
  - exact rev_perm.
  - exact script_surface_kept.
Defined.

(** * Steps of a run *)

Section steps.
Context {W : Type} `{Backend W} `{ApprovalGate W}.
Context (not_a_mapping : json -> string).
Context (sched : list nat -> list nat) (tools : Registry W).
Context (cfg : AgentLoopConfig) (has_callback : bool).
Context (R : Env W -> Env W -> Prop) `{!PreOrder R}.

(** The primitive steps. *)
Context (surface_step : forall s e, R e (set_surface s e)).
Context (names_step : forall n e, R e (set_names n e)).
Context (start_step : forall d e, R e (log_start d e)).
Context (infer_step : forall q e, R e (log_request q (complete q (world e)).2 e)).
Context (approval_step : forall a c e, R e (set_world (approval_check a c (world e)).2 e)).
Context (tool_step : forall tc, steps R (dispatch_tool not_a_mapping tools tc)).

Lemma steps_infer q : steps R (infer q : M W InferenceResponse).
Proof. intros e. unfold infer. specialize (infer_step q e). by destruct (complete q (world e)). Qed.

Lemma steps_approval a c : steps R (check_approval a c : M W ApprovalResult).
Proof.
  intros e. unfold check_approval. specialize (approval_step a c e).
  by destruct (approval_check a c (world e)).
Qed.

Lemma steps_one tc : steps R (_execute_one not_a_mapping tools tc).
Proof.
  unfold _execute_one. apply steps_bind; [done| |].
  - apply steps_modify. intros e. unfold register_tool_call. by case_if.
  - intros _. apply steps_bind; [done|apply tool_step|]. intros r. by apply steps_ret.
Qed.

Lemma steps_child {A} (m : M W A) : steps R m -> steps R (in_child_task m).
Proof.
  intros Hm e. unfold in_child_task. specialize (Hm e). destruct (m e) as [x e']. simpl in *.
  by etrans; [exact Hm|apply surface_step].
Qed.

Lemma steps_notify tc : steps R (_notify_tool_start tools has_callback tc).
Proof. unfold _notify_tool_start. case_if; [by apply steps_modify|by apply steps_ret]. Qed.

Lemma steps_notify_all tcs : steps R (notify_all tools has_callback tcs).
Proof.
  induction tcs as [|tc tcs IH]; simpl; [by apply steps_ret|].
  apply steps_bind; [done|apply steps_notify|done].
Qed.

Lemma steps_fill run tcs ix slots : (forall tc, steps R (run tc)) -> steps R (fill_slots run tcs ix slots).
Proof.
  intros Hrun. revert slots. induction ix as [|i ix IH]; intros slots; simpl; [by apply steps_ret|].
  destruct (tcs !! i); [|done]. by apply steps_bind.
Qed.

Lemma steps_batch tcs : steps R (execute_tool_calls not_a_mapping sched tools has_callback tcs).
Proof.
  unfold execute_tool_calls. apply steps_bind; [done|apply steps_notify_all|]. intros _.
  apply steps_bind; [done|apply steps_fill; intros tc; apply steps_child, steps_one|]. intros s.
  apply steps_bind; [done| |intros; by apply steps_ret].
  apply steps_fill. intros tc. apply steps_bind; [done|apply steps_notify|]. intros _. apply steps_one.
Qed.

Lemma steps_continue n rid working chunks : steps R (continue_from cfg n rid working chunks).
Proof.
  revert working chunks. induction n as [|n IH]; intros working chunks; simpl; [by apply steps_ret|].
  apply steps_bind; [done|apply steps_infer|]. intros r. case_if; [by apply steps_ret|apply IH].
Qed.

Lemma steps_compact ms rid : steps R (compact cfg ms rid).
Proof.
  unfold compact. case_if; [by apply steps_ret|]. destruct (split_system ms).
  case_if; [by apply steps_ret|]. apply steps_bind; [done| |intros; by apply steps_ret].
  unfold _summarize. apply steps_bind; [done|by apply steps_gets|]. intros names.
  apply steps_bind; [done|apply steps_infer|]. intros; by apply steps_ret.
Qed.

Lemma steps_needs tcs rid : steps R (_needs_write_approval tcs rid : M W bool).
Proof.
  induction tcs as [|tc tcs IH]; simpl; [by apply steps_ret|].
  apply steps_bind; [done|apply steps_approval|]. intros a. case_if; [done|by apply steps_ret].
Qed.

Lemma steps_pause {A} ms r rid :
  steps R (pause_for_approval tools ms r rid : M W A).
Proof.
  unfold pause_for_approval. apply steps_bind; [done|by apply steps_gets|]. intros s.
  case_match; by apply steps_raise.
Qed.

Lemma steps_rounds n rid round ms total :
  steps R (run_rounds not_a_mapping sched tools cfg has_callback n rid round ms total).
Proof.
  revert round ms total. induction n as [|n IH]; intros round ms total; simpl; [by apply steps_ret|].
  apply steps_bind; [done|by apply steps_if; [apply steps_compact|apply steps_ret]|]. intros ms1.
  apply steps_bind; [done|by apply steps_gets|]. intros s.
  apply steps_bind; [done|apply steps_infer|]. intros r. case_match.
  - apply steps_bind; [done| |intros; by apply steps_ret].
    apply steps_if; [apply steps_continue|by apply steps_ret].
  - apply steps_bind; [done|apply steps_needs|]. intros b. apply steps_if; [apply steps_pause|].
    apply steps_bind; [done|apply steps_batch|]. intros results. apply IH.
Qed.

Lemma steps_run ms rid pre :
  steps R (run not_a_mapping sched tools cfg has_callback ms rid pre).
Proof.
  unfold run. apply steps_bind; [done|by apply steps_modify|]. intros _.
  apply steps_bind; [done| |intros _; apply steps_rounds].
  destruct pre; [by apply steps_ret|by apply steps_modify].
Qed.
End steps.
