(* ===== verification/Delegation.v ===== *)
(** * Delegation

    The delegation manager ([orchestrator/delegation.py]): spawning
    sub-agents under a concurrency cap, re-delegation, teardown and the
    readiness retry.

    [delegate] is split at its [await]s; between them other delegations and
    [terminate] run.  The semaphore is [asyncio.Semaphore]: [release] adds
    one without an upper bound. *)

From S2P Require Import Prelude Json Messages Client.

(** Identity of a [SpawnedAgent] object. *)
Abbreviation AgentId := nat (only parsing).

(** The coroutines in flight, by where they are suspended. *)
Inductive Phase :=
| Waiting                  (* semaphore.acquire() *)
| Spawning                 (* self._spawn(...) *)
| Replacing (a : AgentId)  (* previous.terminate() *)
| Sending (a : AgentId)    (* _send_assign_with_readiness_retry *)
| Failing (a : AgentId).   (* agent.terminate() of a failed send *)

(** One call of [delegate]. *)
Record Delegation := {
  d_workflow : string;
  d_new : bool;            (* acquired_for_new_workflow *)
  d_phase : Phase
}.

Record DelegationManager := {
  sem_value : nat;
  spawned : gmap string AgentId;
  delegations : gmap nat Delegation;
  terminated : list AgentId
}.

(** [DelegationManager(bus, config)] *)
Definition new_manager (max_concurrent : nat) : DelegationManager :=
  {| sem_value := max_concurrent; spawned := ∅; delegations := ∅; terminated := [] |}.

Definition set_phase (d : Delegation) (p : Phase) : Delegation :=
  {| d_workflow := d_workflow d; d_new := d_new d; d_phase := p |}.

(** The [except BaseException] of [delegate]: the slot is released when the
    workflow has no handle. *)
Definition release_if_gone (wid : string) (m : DelegationManager) : DelegationManager :=
  {| sem_value := match spawned m !! wid with Some _ => sem_value m | None => S (sem_value m) end;
     spawned := spawned m; delegations := delegations m; terminated := terminated m |}.

Definition set_delegations (ds : gmap nat Delegation) (m : DelegationManager) : DelegationManager :=
  {| sem_value := sem_value m; spawned := spawned m; delegations := ds;
     terminated := terminated m |}.

(** [_check_spawn_depth] *)
Definition _check_spawn_depth (max_spawn_depth : Z) : string + unit :=
  if (max_spawn_depth <? 1)%Z then
    inl ("max_spawn_depth=" +:+ show_Z max_spawn_depth +:+ " forbids any delegation")
  else inr tt.

(** [terminate(workflow_id)] up to the stop of the process. *)
Definition terminate (wid : string) (m : DelegationManager) : DelegationManager :=
  match spawned m !! wid with
  | None => m
  | Some a => {| sem_value := S (sem_value m); spawned := delete wid (spawned m);
                 delegations := delegations m; terminated := terminated m ++ [a] |}
  end.

(** [close()] *)
Definition close (m : DelegationManager) : DelegationManager :=
  fold_left (fun m wid => terminate wid m) (map_to_list (spawned m)).*1 m.

(** The spawned handle is installed; a previous one is stopped. *)
Definition install (t : nat) (d : Delegation) (a : AgentId) (m : DelegationManager)
  : DelegationManager :=
  let wid := d_workflow d in
  let phase := match spawned m !! wid with Some _ => Replacing a | None => Sending a end in
  {| sem_value := sem_value m; spawned := <[wid := a]> (spawned m);
     delegations := <[t := set_phase d phase]> (delegations m);
     terminated := match spawned m !! wid with
                   | Some p => terminated m ++ [p]
                   | None => terminated m
                   end |}.

(** The compare-and-pop of a failed send. *)
Definition evict (t : nat) (d : Delegation) (a : AgentId) (m : DelegationManager)
  : DelegationManager :=
  let wid := d_workflow d in
  {| sem_value := sem_value m;
     spawned := if decide (spawned m !! wid = Some a) then delete wid (spawned m)
                else spawned m;
     delegations := <[t := set_phase d (Failing a)]> (delegations m);
     terminated := terminated m ++ [a] |}.

Inductive DLabel :=
| DStart (t : nat) (wid : string)
| DAcquire (t : nat)
| DSpawned (t : nat) (a : AgentId)
| DSpawnFailed (t : nat)
| DReplaced (t : nat)
| DSent (t : nat)
| DSendFailed (t : nat)
| DFailed (t : nat)
| DCancel (t : nat)
| DTerminate (wid : string).

(** One scheduling step of the manager; [None] when it is not enabled.
    [DStart] is [delegate] of a new call identity [t], past the spawn-depth
    check; [DCancel] is the cancellation of a call where it is suspended. *)
Definition delegation_step (l : DLabel) (m : DelegationManager) : option DelegationManager :=
  match l with
  | DStart t wid =>
      match delegations m !! t with
      | Some _ => None
      | None =>
          let new := match spawned m !! wid with Some _ => false | None => true end in
          Some (set_delegations (<[t := {| d_workflow := wid; d_new := new;
                  d_phase := if new then Waiting else Spawning |}]> (delegations m)) m)
      end
  | DTerminate wid => Some (terminate wid m)
  | DAcquire t =>
      match delegations m !! t, sem_value m with
      | Some d, S n =>
          match d_phase d with
          | Waiting => Some {| sem_value := n; spawned := spawned m;
                         delegations := <[t := set_phase d Spawning]> (delegations m);
                         terminated := terminated m |}
          | _ => None
          end
      | _, _ => None
      end
  | DSpawned t a =>
      match delegations m !! t with
      | Some d => match d_phase d with Spawning => Some (install t d a m) | _ => None end
      | None => None
      end
  | DSpawnFailed t =>
      match delegations m !! t with
      | Some d =>
          match d_phase d with
          | Spawning => Some (release_if_gone (d_workflow d)
                               (set_delegations (delete t (delegations m)) m))
          | _ => None
          end
      | None => None
      end
  | DReplaced t =>
      match delegations m !! t with
      | Some d => match d_phase d with
                  | Replacing a => Some (set_delegations (<[t := set_phase d (Sending a)]>
                                                            (delegations m)) m)
                  | _ => None
                  end
      | None => None
      end
  | DSent t =>
      match delegations m !! t with
      | Some d => match d_phase d with
                  | Sending _ => Some (set_delegations (delete t (delegations m)) m)
                  | _ => None
                  end
      | None => None
      end
  | DSendFailed t =>
      match delegations m !! t with
      | Some d => match d_phase d with Sending a => Some (evict t d a m) | _ => None end
      | None => None
      end
  | DFailed t =>
      match delegations m !! t with
      | Some d => match d_phase d with
                  | Failing _ => Some (release_if_gone (d_workflow d)
                                   (set_delegations (delete t (delegations m)) m))
                  | _ => None
                  end
      | None => None
      end
  | DCancel t =>
      match delegations m !! t with
      | Some d =>
          let m' := set_delegations (delete t (delegations m)) m in
          match d_phase d with
          | Waiting => Some m'
          | _ => Some (release_if_gone (d_workflow d) m')
          end
      | None => None
      end
  end.

Fixpoint delegation_run (ls : list DLabel) (m : DelegationManager) : option DelegationManager :=
  match ls with
  | [] => Some m
  | l :: ls => m' ← delegation_step l m; delegation_run ls m'
  end.

(** ** The readiness retry *)

(** How one [bus.send] ended. *)
Inductive SendOutcome :=
| SendAccepted
| SendRefused (text : string)   (* NMBConnectionError *)
| SendRaised (text : string).   (* any other exception *)

(** [_is_target_offline] on an [NMBConnectionError] with that text. *)
Definition _is_target_offline (text : string) : bool := str_contains "TARGET_OFFLINE" text.

(** [_send_assign_with_readiness_retry]: the outcomes of the attempts in
    order, each with whether the readiness window had elapsed after it; the
    number of attempts, or the text of the [DelegationError].  [None]: the
    outcomes given end while the code still retries. *)
Fixpoint _send_assign_with_readiness_retry (window : string)
  (outcomes : list (SendOutcome * bool)) (attempts : nat) : option (string + nat) :=
  match outcomes with
  | [] => None
  | (SendAccepted, _) :: _ => Some (inr (S attempts))
  | (SendRaised exc, _) :: _ => Some (inl ("task.assign delivery failed: " +:+ exc))
  | (SendRefused exc, elapsed) :: rest =>
      if _is_target_offline exc then
        if (elapsed : bool) then
          Some (inl ("sub-agent never came online within spawn_ready_timeout_s="
                     +:+ window +:+ "s (last broker error: " +:+ exc +:+ ")"))
        else _send_assign_with_readiness_retry window rest (S attempts)
      else Some (inl ("task.assign delivery failed: " +:+ exc))
  end.
