(* ===== verification/DelegationTheorems.v ===== *)
(** * DelegationTheorems

    Slot accounting of the delegation manager: exact while the operations on
    a workflow do not overlap, lost when a re-delegation and a teardown do;
    and the recognition of an offline sub-agent through broker and client. *)

From S2P Require Import Prelude Json Messages Broker BrokerInv BrokerTheorems Client.
From S2P Require Import ClientTheorems Delegation.

(** No call of [delegate] for [wid] is in flight. *)
Definition alone (wid : string) (m : DelegationManager) : Prop :=
  forall t d, delegations m !! t = Some d -> d_workflow d ≠ wid.

(** Operations on one workflow do not overlap. *)
Definition non_overlapping (l : DLabel) (m : DelegationManager) : Prop :=
  match l with DStart _ wid | DTerminate wid => alone wid m | _ => True end.

Inductive manager_reach (n : nat) : DelegationManager -> Prop :=
| mr_new : manager_reach n (new_manager n)
| mr_step m l m' : manager_reach n m -> non_overlapping l m ->
    delegation_step l m = Some m' -> manager_reach n m'.

(** A call that holds a semaphore slot for a workflow without handle. *)
Definition holds_slot (d : Delegation) : bool :=
  match d_phase d with Spawning => d_new d | Failing _ => true | _ => false end.

Definition consistent (sp : gmap string AgentId) (d : Delegation) : Prop :=
  match d_phase d with
  | Waiting => d_new d = true /\ sp !! d_workflow d = None
  | Spawning => d_new d = match sp !! d_workflow d with Some _ => false | None => true end
  | Replacing a | Sending a => sp !! d_workflow d = Some a
  | Failing _ => sp !! d_workflow d = None
  end.

Record slots_inv (n : nat) (m : DelegationManager) : Prop := {
  sl_count : sem_value m + size (spawned m) + count_if holds_slot (delegations m) = n;
  sl_consistent : forall t d, delegations m !! t = Some d -> consistent (spawned m) d;
  sl_unique : forall t t' d d', delegations m !! t = Some d -> delegations m !! t' = Some d' ->
    d_workflow d = d_workflow d' -> t = t'
}.

(** Other calls keep their view when only [wid] changes. *)
Lemma consistent_other sp sp' d :
  sp' !! d_workflow d = sp !! d_workflow d -> consistent sp d -> consistent sp' d.
Proof. unfold consistent. intros ->. done. Qed.

(** The call [t] moves to [d'], of the same workflow. *)
Lemma slots_update n m t d d' v sp tm :
  slots_inv n m -> delegations m !! t = Some d -> d_workflow d' = d_workflow d ->
  consistent sp d' ->
  (forall w, w ≠ d_workflow d -> sp !! w = spawned m !! w) ->
  v + size sp + (if holds_slot d' then 1 else 0) =
    sem_value m + size (spawned m) + (if holds_slot d then 1 else 0) ->
  slots_inv n {| sem_value := v; spawned := sp; delegations := <[t := d']> (delegations m);
                 terminated := tm |}.
Proof.
  intros [Hc Hcons Hu] Ht Hw Hd' Hsp Hv. split; simpl.
  - pose proof (count_if_update holds_slot _ t d d' Ht). lia.
  - intros t1 d1. rewrite lookup_insert. case_decide as Hd; [by intros [= <-]|].
    intros Hd1. eapply consistent_other; [|by eapply Hcons].
    apply Hsp. intros Heq. apply Hd. by eapply (Hu t t1 d d1).
  - intros t1 t2 d1 d2. rewrite !lookup_insert. repeat case_decide; intros; simplify_eq; try done.
    + eapply Hu; [exact Ht|done|congruence].
    + symmetry. eapply Hu; [exact Ht|done|congruence].
    + by eapply Hu.
Qed.

(** The call [t] ends. *)
Lemma slots_finish n m t d v tm :
  slots_inv n m -> delegations m !! t = Some d ->
  v = sem_value m + (if holds_slot d then 1 else 0) ->
  slots_inv n {| sem_value := v; spawned := spawned m; delegations := delete t (delegations m);
                 terminated := tm |}.
Proof.
  intros [Hc Hcons Hu] Ht Hv. split; simpl.
  - rewrite (count_if_delete _ _ _ _ Ht) in Hc. lia.
  - intros t1 d1. rewrite lookup_delete. case_decide; [done|]. apply Hcons.
  - intros t1 t2 d1 d2. rewrite !lookup_delete. repeat case_decide; try done. apply Hu.
Qed.

Lemma slots_release n m t d :
  slots_inv n m -> delegations m !! t = Some d -> d_phase d ≠ Waiting ->
  slots_inv n (release_if_gone (d_workflow d) (set_delegations (delete t (delegations m)) m)).
Proof.
  intros Hi Ht Hp. apply (slots_finish n m t d); [done|done|]. simpl.
  pose proof (sl_consistent _ _ Hi _ _ Ht) as Hc. unfold consistent, holds_slot in *.
  destruct (d_phase d) as [| |a|a|a]; try done; try rewrite Hc; try lia.
  destruct (spawned m !! d_workflow d); lia.
Qed.

Lemma slots_start n m t wid :
  slots_inv n m -> delegations m !! t = None -> alone wid m ->
  let new := match spawned m !! wid with Some _ => false | None => true end in
  slots_inv n (set_delegations (<[t := {| d_workflow := wid; d_new := new;
                  d_phase := if new then Waiting else Spawning |}]> (delegations m)) m).
Proof.
  intros [Hc Hcons Hu] Ht Hl. cbv zeta. split; simpl.
  - rewrite count_if_insert by done.
    match goal with |- context [if holds_slot ?x then _ else _] =>
      assert (holds_slot x = false) as ->
        by (unfold holds_slot; simpl; by destruct (spawned m !! wid))
    end. lia.
  - intros t1 d1. rewrite lookup_insert. case_decide; [|by apply Hcons].
    intros [= <-]. unfold consistent. simpl. by destruct (spawned m !! wid) eqn:Hw; simpl; rewrite ?Hw.
  - intros t1 t2 d1 d2. rewrite !lookup_insert. repeat case_decide; intros; simplify_eq; try done.
    + exfalso. eapply Hl; [done|]. by symmetry.
    + exfalso. by eapply Hl.
    + by eapply Hu.
Qed.

(** What the phase of a running call says about its workflow. *)
Lemma phase_consistent n m t d p :
  slots_inv n m -> delegations m !! t = Some d -> d_phase d = p ->
  consistent (spawned m) (set_phase d p).
Proof.
  intros Hi Ht <-. pose proof (sl_consistent _ _ Hi _ _ Ht) as Hc. unfold consistent in *. done.
Qed.

Lemma slots_acquire n m t d v :
  slots_inv n m -> delegations m !! t = Some d -> d_phase d = Waiting -> sem_value m = S v ->
  slots_inv n {| sem_value := v; spawned := spawned m;
                 delegations := <[t := set_phase d Spawning]> (delegations m);
                 terminated := terminated m |}.
Proof.
  intros Hi Ht Hp Hv. destruct (phase_consistent _ _ _ _ _ Hi Ht Hp) as [Hnew Hnone].
  simpl in Hnew, Hnone. apply (slots_update n m t d); [done..| |done|].
  - unfold consistent. simpl. by rewrite Hnew, Hnone.
  - unfold holds_slot. simpl. rewrite Hp, Hnew. lia.
Qed.

Lemma slots_install n m t d a :
  slots_inv n m -> delegations m !! t = Some d -> d_phase d = Spawning ->
  slots_inv n (install t d a m).
Proof.
  intros Hi Ht Hp. pose proof (phase_consistent _ _ _ _ _ Hi Ht Hp) as Hc.
  unfold consistent in Hc. simpl in Hc. unfold install.
  apply (slots_update n m t d); [done..| | |].
  - unfold consistent. simpl. destruct (spawned m !! d_workflow d); by rewrite lookup_insert_eq.
  - intros w Hw. by rewrite lookup_insert_ne.
  - unfold holds_slot. simpl. rewrite Hp, Hc. destruct (spawned m !! d_workflow d) as [p|] eqn:Hsp.
    + rewrite map_size_insert_Some by (by eexists). simpl. lia.
    + rewrite map_size_insert_None by done. simpl. lia.
Qed.

(** The number of live workflows without one of them. *)
Lemma live_without (sp : gmap string AgentId) wid a :
  sp !! wid = Some a -> S (size (delete wid sp)) = size sp.
Proof.
  intros Hw. rewrite map_size_delete_Some by (by eexists).
  assert (size sp ≠ 0); [|lia]. intros Hz. apply map_size_empty_inv in Hz.
  by rewrite Hz, lookup_empty in Hw.
Qed.

Lemma slots_evict n m t d a :
  slots_inv n m -> delegations m !! t = Some d -> d_phase d = Sending a ->
  slots_inv n (evict t d a m).
Proof.
  intros Hi Ht Hp. pose proof (phase_consistent _ _ _ _ _ Hi Ht Hp) as Hc.
  unfold consistent in Hc. simpl in Hc. unfold evict. rewrite decide_True by done.
  apply (slots_update n m t d); [done..| | |].
  - unfold consistent. simpl. by rewrite lookup_delete_eq.
  - intros w Hw. by rewrite lookup_delete_ne.
  - unfold holds_slot. simpl. rewrite Hp. pose proof (live_without _ _ _ Hc). lia.
Qed.

Lemma slots_terminate n m wid :
  slots_inv n m -> alone wid m -> slots_inv n (terminate wid m).
Proof.
  intros Hi Hl. unfold terminate. destruct (spawned m !! wid) as [a|] eqn:Hw; [|done].
  destruct Hi as [Hc Hcons Hu]. split; simpl; [| |done].
  - pose proof (live_without _ _ _ Hw). lia.
  - intros t d Ht. eapply consistent_other; [|by eapply Hcons].
    rewrite lookup_delete_ne; [done|]. intros Heq. by eapply Hl.
Qed.

(** The call and the phase an enabled step found. *)
Ltac at_call Ht Hp :=
  match goal with
  | Hs : match ?m !! ?t with _ => _ end = Some _ |- _ =>
      destruct (m !! t) as [d|] eqn:Ht; [|done];
      try (destruct (sem_value _) as [|v] eqn:Hv; [done|]);
      destruct (d_phase d) eqn:Hp; try done; simplify_eq
  end.

Lemma slots_step n m l m' :
  slots_inv n m -> non_overlapping l m -> delegation_step l m = Some m' -> slots_inv n m'.
Proof.
  intros Hi Hl Hs. destruct l as [t wid|t|t a|t|t|t|t|t|t|wid]; simpl in Hs.
  - destruct (delegations m !! t) eqn:Ht; [done|]. simplify_eq. by apply slots_start.
  - at_call Ht Hp. by apply slots_acquire.
  - at_call Ht Hp. by apply slots_install.
  - at_call Ht Hp. apply slots_release; [done|done|congruence].
  - at_call Ht Hp. apply (slots_update n m t d); [done..| |done|].
    + by eapply phase_consistent in Ht; [|done|exact Hp].
    + unfold holds_slot. simpl. by rewrite Hp.
  - at_call Ht Hp. apply (slots_finish n m t d); [done|done|]. unfold holds_slot. rewrite Hp. simpl. lia.
  - at_call Ht Hp. by apply slots_evict.
  - at_call Ht Hp. apply slots_release; [done|done|congruence].
  - at_call Ht Hp; try (apply slots_release; [done|done|congruence]).
    apply (slots_finish n m t d); [done|done|]. unfold holds_slot. rewrite Hp. simpl. lia.
  - simplify_eq. by apply slots_terminate.
Qed.

Lemma manager_slots n m : manager_reach n m -> slots_inv n m.
Proof.
  induction 1 as [|m l m' Hr IH Hl Hs]; [|by eapply slots_step].
  split; simpl.
  - rewrite map_size_empty, count_if_empty. lia.
  - intros t d Ht. by rewrite lookup_empty in Ht.
  - intros t t' d d' Ht. by rewrite lookup_empty in Ht.
Qed.

(** C26: the concurrency cap holds while operations on one workflow do not
    overlap.  In every state reached by delegations, re-delegations, failed
    and cancelled ones, and teardowns, in any interleaving in which no two
    operations on the same workflow overlap, every slot is accounted for:
    the free ones, one per live workflow, and one per call that is spawning
    a new workflow or cleaning up a failed send.  So at most
    [max_concurrent] workflows are live, and all slots are free again when
    nothing is live or in flight. *)
Theorem delegation_slots_exact n m :
  manager_reach n m ->
  sem_value m + size (spawned m) + count_if holds_slot (delegations m) = n /\
  size (spawned m) <= n /\
  (spawned m = ∅ -> delegations m = ∅ -> sem_value m = n).
Proof.
  intros Hr. pose proof (sl_count _ _ (manager_slots n m Hr)) as Hc.
  split; [done|]. split; [lia|]. intros Hs Hd.
  rewrite Hs, Hd, map_size_empty, count_if_empty in Hc. lia.
Qed.

(** A workflow is re-delegated while its teardown runs. *)
Definition overlapping_schedule : list DLabel :=
  [DStart 0 "w1"; DAcquire 0; DSpawned 0 10; DSent 0;
   DStart 1 "w1"; DTerminate "w1"; DSpawned 1 11; DSent 1;
   DStart 2 "w2"; DAcquire 2; DSpawned 2 12; DSent 2].

(** The cap is lost when a teardown overlaps a re-delegation.  A
    re-delegation takes no slot because the workflow is live when it starts;
    if [terminate] removes the workflow, and releases its slot, while the
    new agent is being spawned, the new agent runs without a slot: under a
    cap of one, two workflows are live, and tearing both down leaves two
    slots. *)
Theorem redelegation_race_breaks_cap :
  exists m, delegation_run overlapping_schedule (new_manager 1) = Some m /\
    size (spawned m) = 2 /\ sem_value (close m) = 2.
Proof. eexists. split; [vm_compute; reflexivity|]. split; vm_compute; reflexivity. Qed.

(** No re-delegation is needed to break the count: a teardown while the
    assignment is being sent releases the slot, and a send that is then
    cancelled (or fails) finds the workflow gone and releases it again. *)
Example teardown_during_send_releases_twice :
  exists m, delegation_run [DStart 0 "w1"; DAcquire 0; DSpawned 0 10; DTerminate "w1"; DCancel 0]
              (new_manager 1) = Some m /\
    sem_value m = 2 /\ spawned m = ∅ /\ delegations m = ∅.
Proof. eexists. split; [vm_compute; reflexivity|]. split; [|split]; vm_compute; reflexivity. Qed.

(** ** An assignment to a sub-agent that is not connected yet *)

(** An offline sub-agent is waited for.  When the target of
    [task.assign] is not connected, the broker answers the sender with an
    ERROR frame; the client turns it into the failure of the [send] that
    awaits it; the manager recognises that failure and retries, unless the
    readiness window has elapsed, which it reports.  A failure of any other
    text is never retried. *)
Theorem offline_agent_is_retried sok s ws now i to ty p b c f window rest n :
  (forall w m, sok w m = true) -> to ≠ "" -> connections b !! to = None ->
  pending_futures c !! i = None -> pending_acks c !! i = Some f ->
  futures c !! f = Some FutPending ->
  let b' := _handle_send sok s ws (stamp_identity s now (send_frame i to ty p)) b in
  exists e text,
    outbox b' = outbox b ++ [(ws, e)] /\
    futures (Client._dispatch e c) !! f = Some (FutConnError text) /\
    _send_assign_with_readiness_retry window ((SendRefused text, false) :: rest) n =
      _send_assign_with_readiness_retry window rest (S n) /\
    (exists err, _send_assign_with_readiness_retry window ((SendRefused text, true) :: rest) n =
       Some (inl err)) /\
    (forall other elapsed, _is_target_offline other = false ->
       _send_assign_with_readiness_retry window ((SendRefused other, elapsed) :: rest) n =
       Some (inl ("task.assign delivery failed: " +:+ other))).
Proof.
  intros Hok Hto Hc Hpf Hpa Hf b'.
  exists (error_frame i TARGET_OFFLINE (to +:+ " not connected")).
  exists ("Broker error " +:+ ("TARGET_OFFLINE" +:+ (": " +:+ (to +:+ " not connected")))).
  assert (Hoff : _is_target_offline
    ("Broker error " +:+ ("TARGET_OFFLINE" +:+ (": " +:+ (to +:+ " not connected")))) = true)
    by apply str_contains_app.
  split; [|split; [|split; [|split]]].
  - unfold b', _handle_send. cbn [to_sandbox stamp_identity send_frame].
    rewrite (truthy_some _ Hto). cbn [negb default option_map from_option]. simpl. rewrite Hc.
    unfold _send_error, ws_send. by rewrite Hok.
  - unfold Client._dispatch, _dispatch_error. simpl. rewrite Hpf. unfold pop_ack, settle.
    rewrite Hpa, Hf. simpl. by rewrite lookup_insert_eq.
  - cbn [_send_assign_with_readiness_retry]. by rewrite Hoff.
  - cbn [_send_assign_with_readiness_retry]. rewrite Hoff. by eexists.
  - intros other elapsed Ho. cbn [_send_assign_with_readiness_retry]. by rewrite Ho.
Qed.

(** ** Witnesses *)

Lemma delegation_slots_exact_witness :
  exists m, delegation_run [DStart 0 "w1"; DAcquire 0; DSpawned 0 10; DSendFailed 0]
              (new_manager 1) = Some m /\
    sem_value m + size (spawned m) + count_if holds_slot (delegations m) = 1 /\
    size (spawned m) <= 1 /\
    (spawned m = ∅ -> delegations m = ∅ -> sem_value m = 1).
Proof.
  eexists. split; [vm_compute; reflexivity|].
  apply (delegation_slots_exact 1).
  assert (H0 : manager_reach 1 (new_manager 1)) by apply mr_new.
  assert (HN : non_overlapping (DStart 0 "w1") (new_manager 1))
    by (intros t d Ht; vm_compute in Ht; discriminate).
  pose proof (mr_step 1 _ (DStart 0 "w1") _ H0 HN eq_refl) as H1.
  pose proof (mr_step 1 _ (DAcquire 0) _ H1 I eq_refl) as H2.
  pose proof (mr_step 1 _ (DSpawned 0 10) _ H2 I eq_refl) as H3.
  exact (mr_step 1 _ (DSendFailed 0) _ H3 I eq_refl).
Defined.

Definition ack_waiting : Client :=
  send_begin (send_frame "a1" "coding-1" "task.assign" []) true new_client.

Lemma offline_agent_is_retried_witness :
  exists e text,
    futures (Client._dispatch e ack_waiting) !! 0 = Some (FutConnError text) /\
    _send_assign_with_readiness_retry "10" [(SendRefused text, false); (SendAccepted, false)] 0
      = Some (inr 2).
Proof.
  destruct (offline_agent_is_retried every_send_ok "a" 1 9%Z "a1" "coding-1" "task.assign" []
    (br connected_state) ack_waiting 0 "10" [(SendAccepted, false)] 0)
    as (e & text & _ & Hf & Hr & _).
  - reflexivity.
  - discriminate.
  - vm_compute. reflexivity.
  - reflexivity.
  - reflexivity.
  - reflexivity.
  - exists e, text. split; [exact Hf|]. rewrite Hr. reflexivity.
Defined.
