(* ===== verification/Prompt.v ===== *)
(** * Prompt

    The layered prompt builder ([agent/prompt_builder.py]): the four-layer
    system prompt with its cache boundary, and the per-thread conversation
    history with its cap.  The clock, read through [strftime], is the
    argument [now]. *)

From S2P Require Import Prelude AgentTypes.

Definition CACHE_BOUNDARY_MARKER : string := "__SYSTEM_PROMPT_DYNAMIC_BOUNDARY__".

(** [LayeredPromptBuilder]; [thread_history] is the [defaultdict(list)]. *)
Record LayeredPromptBuilder := {
  identity : string;
  task_context : string;
  max_history : Z;
  thread_history : gmap string (list Message)
}.

Definition blank_line : string := newline +:+ newline.

(** [l[-n:]] *)
Definition py_suffix {A} (n : Z) (l : list A) : list A :=
  let start := if (0 <? n)%Z then Z.max 0 (Z.of_nat (length l) - n) else (- n)%Z in
  drop (Z.to_nat start) l.

(** [_runtime_metadata] *)
Definition _runtime_metadata (now agent_id tools_summary : string) : string :=
  String.concat newline
    (["Current time: " +:+ now]
     ++ (if str_truthy agent_id then ["Agent ID: " +:+ agent_id] else [])
     ++ (if str_truthy tools_summary then ["Available tools: " +:+ tools_summary] else [])).

(** [_channel_hint] *)
Definition _channel_hint (source_type : string) : string :=
  if String.eqb source_type "cron" then
    "You are running as a background cron job. " +:+
    "Your output will be logged, not shown to a user."
  else if String.eqb source_type "agent" then
    "You are running as a dispatched sub-agent. " +:+
    "Your response will be sent to the parent agent, not directly to a user."
  else "You are responding to a user via " +:+ source_type +:+ ".".

(** [build] *)
Definition build (now agent_id source_type tools_summary : string) (b : LayeredPromptBuilder)
  : string :=
  String.concat blank_line
    ([identity b]
     ++ (if str_truthy (task_context b) then [task_context b] else [])
     ++ [CACHE_BOUNDARY_MARKER]
     ++ [_runtime_metadata now agent_id tools_summary]
     ++ [_channel_hint source_type]).

(** [static_prefix] *)
Definition static_prefix (b : LayeredPromptBuilder) : string :=
  String.concat blank_line
    ([identity b]
     ++ (if str_truthy (task_context b) then [task_context b] else [])
     ++ [CACHE_BOUNDARY_MARKER]).

Definition set_history (h : gmap string (list Message)) (b : LayeredPromptBuilder)
  : LayeredPromptBuilder :=
  {| identity := identity b; task_context := task_context b; max_history := max_history b;
     thread_history := h |}.

(** [self._thread_history[thread_key]]: reading an absent key stores an empty
    list under it. *)
Definition stored (thread_key : string) (b : LayeredPromptBuilder)
  : list Message * LayeredPromptBuilder :=
  let h := default [] (thread_history b !! thread_key) in
  (h, set_history (<[thread_key := h]> (thread_history b)) b).

(** [history_with_user_message] *)
Definition history_with_user_message (thread_key user_text : string) (b : LayeredPromptBuilder)
  : list Message * LayeredPromptBuilder :=
  let '(hist, b) := stored thread_key b in
  let hist := hist ++ [text_message USER user_text] in
  (if (Z.of_nat (length hist) >? max_history b)%Z then py_suffix (max_history b) hist else hist, b).

(** [messages_for_inference] *)
Definition messages_for_inference (now thread_key user_text agent_id source_type tools_summary : string)
  (b : LayeredPromptBuilder) : list Message * LayeredPromptBuilder :=
  let system_prompt := build now agent_id source_type tools_summary b in
  let '(hist, b) := history_with_user_message thread_key user_text b in
  (text_message SYSTEM system_prompt :: hist, b).

(** [commit_turn] *)
Definition commit_turn (thread_key user_text assistant_content : string)
  (b : LayeredPromptBuilder) : LayeredPromptBuilder :=
  let '(hist, b) := history_with_user_message thread_key user_text b in
  let hist := hist ++ [text_message ASSISTANT assistant_content] in
  let hist := if (Z.of_nat (length hist) >? max_history b)%Z then py_suffix (max_history b) hist
              else hist in
  set_history (<[thread_key := hist]> (thread_history b)) b.

(** ** Windows *)

(** The last [n] elements. *)
Definition window {A} (n : nat) (l : list A) : list A := drop (length l - n) l.

Lemma window_app {A} n (l x : list A) : window n (window n l ++ x) = window n (l ++ x).
Proof.
  unfold window. rewrite !length_app, length_drop.
  rewrite <- drop_app_le by lia. rewrite drop_drop. f_equal. lia.
Qed.

Lemma window_length {A} n (l : list A) : length (window n l) <= n.
Proof. unfold window. rewrite length_drop. lia. Qed.

Lemma capped_window {A} (n : Z) (l : list A) :
  (0 < n)%Z ->
  (if (Z.of_nat (length l) >? n)%Z then py_suffix n l else l) = window (Z.to_nat n) l.
Proof.
  intros Hn. unfold py_suffix, window.
  rewrite (proj2 (Z.ltb_lt 0 n)) by lia.
  destruct (Z.gtb_spec (Z.of_nat (length l)) n).
  - f_equal. lia.
  - replace (length l - Z.to_nat n) with 0 by lia. by rewrite drop_0.
Qed.

Lemma capped_zero {A} (l : list A) :
  (if (Z.of_nat (length l) >? 0)%Z then py_suffix 0 l else l) = l.
Proof. unfold py_suffix. destruct l; reflexivity. Qed.

Lemma stored_history k t b :
  (history_with_user_message k t b).1 =
    (let h := default [] (thread_history b !! k) ++ [text_message USER t] in
     if (Z.of_nat (length h) >? max_history b)%Z then py_suffix (max_history b) h else h).
Proof. reflexivity. Qed.

(** ** Conversations *)

(** Completed turns: the thread, what the user said, what was answered. *)
Definition commit_all (turns : list (string * string * string)) (b : LayeredPromptBuilder)
  : LayeredPromptBuilder :=
  fold_left (fun b '(k, u, a) => commit_turn k u a b) turns b.

(** Everything said in thread [k]. *)
Definition said (k : string) (turns : list (string * string * string)) : list Message :=
  flat_map (fun '(k', u, a) => if decide (k' = k)
                               then [text_message USER u; text_message ASSISTANT a] else []) turns.

Definition history_of (k : string) (b : LayeredPromptBuilder) : list Message :=
  default [] (thread_history b !! k).

Lemma said_app k ts us : said k (ts ++ us) = said k ts ++ said k us.
Proof. apply flat_map_app. Qed.

Lemma commit_all_snoc ts k u a b :
  commit_all (ts ++ [(k, u, a)]) b = commit_turn k u a (commit_all ts b).
Proof. unfold commit_all. by rewrite fold_left_app. Qed.

Lemma commit_turn_static k u a b :
  max_history (commit_turn k u a b) = max_history b /\
  static_prefix (commit_turn k u a b) = static_prefix b.
Proof. done. Qed.

Lemma commit_all_static ts b :
  max_history (commit_all ts b) = max_history b /\
  static_prefix (commit_all ts b) = static_prefix b.
Proof.
  induction ts as [|[[k u] a] ts IH] using rev_ind; [done|].
  rewrite commit_all_snoc. by destruct (commit_turn_static k u a (commit_all ts b)) as [-> ->].
Qed.

Lemma preview_history k t b k' :
  history_of k' (history_with_user_message k t b).2 = history_of k' b.
Proof.
  unfold history_of. simpl. destruct (decide (k = k')) as [->|Hk].
  - by rewrite lookup_insert_eq.
  - by rewrite lookup_insert_ne.
Qed.

Lemma commit_history k u a b k' :
  (0 < max_history b)%Z ->
  history_of k' (commit_turn k u a b) =
    if decide (k = k') then
      window (Z.to_nat (max_history b))
        (history_of k b ++ [text_message USER u; text_message ASSISTANT a])
    else history_of k' b.
Proof.
  intros Hn. unfold history_of, commit_turn. simpl.
  rewrite !capped_window by done. destruct (decide (k = k')) as [->|Hk].
  - rewrite lookup_insert_eq. simpl. rewrite window_app, <- app_assoc. done.
  - by rewrite !lookup_insert_ne.
Qed.

Lemma commit_all_history ts k b :
  (0 < max_history b)%Z -> thread_history b = ∅ ->
  history_of k (commit_all ts b) = window (Z.to_nat (max_history b)) (said k ts).
Proof.
  intros Hn He. induction ts as [|[[k' u] a] ts IH] using rev_ind.
  { unfold history_of. simpl. rewrite He, lookup_empty. done. }
  destruct (commit_all_static ts b) as [Hm _].
  rewrite commit_all_snoc, commit_history, Hm, said_app by (by rewrite Hm).
  simpl. rewrite app_nil_r. destruct (decide (k' = k)) as [->|Hk]; [|by rewrite app_nil_r].
  by rewrite IH, window_app.
Qed.

Lemma concat_app sep (a b : list string) :
  a ≠ [] -> b ≠ [] ->
  String.concat sep (a ++ b) = String.concat sep a +:+ (sep +:+ String.concat sep b).
Proof.
  intros Ha Hb. induction a as [|x a IH]; [done|].
  destruct a as [|y a]; [by destruct b|].
  change (String.concat sep ((x :: y :: a) ++ b))
    with (x +:+ (sep +:+ String.concat sep ((y :: a) ++ b))).
  rewrite IH by done.
  change (String.concat sep (x :: y :: a)) with (x +:+ (sep +:+ String.concat sep (y :: a))).
  by rewrite !string_app_assoc.
Qed.

Lemma build_prefix now ai src ts b :
  String.prefix (static_prefix b) (build now ai src ts b) = true.
Proof.
  unfold build. rewrite !(app_assoc _ [CACHE_BOUNDARY_MARKER]), (app_assoc [identity b]).
  rewrite concat_app; [apply prefix_app| |done]. by destruct (str_truthy (task_context b)).
Qed.

(** The prompt is a window of the conversation.  After any number of
    completed turns in any threads, the messages sent for a new user text
    are one system message and the last [max_thread_history] messages of
    that thread alone, ending in the new text; the system message starts
    with the cacheable prefix, the same for every turn, time and channel;
    and a turn that is not committed leaves every thread's history as it
    was.  The cap is what makes the history bounded: with
    [max_thread_history = 0] the slice [-0:] keeps everything. *)
Theorem prompt_is_a_window b turns now k text ai src ts :
  thread_history b = ∅ ->
  let b1 := commit_all turns b in
  let out := messages_for_inference now k text ai src ts b1 in
  ((0 < max_history b)%Z ->
     exists sys, out.1 = text_message SYSTEM sys
                   :: window (Z.to_nat (max_history b)) (said k turns ++ [text_message USER text]) /\
       String.prefix (static_prefix b) sys = true /\
       length out.1 <= S (Z.to_nat (max_history b))) /\
  (max_history b = 0%Z -> history_of k b1 = said k turns) /\
  (forall k', history_of k' out.2 = history_of k' b1).
Proof.
  intros He b1 out. destruct (commit_all_static turns b) as [Hm Hp]. fold b1 in Hm, Hp.
  split; [|split].
  - intros Hn. exists (build now ai src ts b1).
    assert (Ho : out.1 = text_message SYSTEM (build now ai src ts b1)
                   :: window (Z.to_nat (max_history b)) (said k turns ++ [text_message USER text])).
    { unfold out, messages_for_inference. simpl. f_equal.
      rewrite Hm, capped_window by done. fold (history_of k b1).
      unfold b1. by rewrite commit_all_history, window_app. }
    rewrite Ho. split; [done|]. split; [rewrite <- Hp; apply build_prefix|].
    simpl. apply le_n_S, window_length.
  - intros Hz. unfold b1. clear out b1 Hm Hp.
    induction turns as [|[[k' u] a] turns IH] using rev_ind.
    { unfold history_of. simpl. by rewrite He. }
    destruct (commit_all_static turns b) as [Hm _].
    rewrite commit_all_snoc, said_app. unfold history_of, commit_turn. simpl.
    rewrite Hm, Hz, !capped_zero, app_nil_r.
    destruct (decide (k' = k)) as [->|Hk].
    + rewrite lookup_insert_eq. simpl. rewrite <- app_assoc. simpl. by rewrite <- IH.
    + rewrite !lookup_insert_ne, app_nil_r by done. exact IH.
  - intros k'. exact (preview_history k text b1 k').
Qed.

Lemma prompt_is_a_window_witness :
  let b := {| identity := "You are the orchestrator."; task_context := ""; max_history := 3;
              thread_history := ∅ |} in
  let turns := [("t1", "hi", "hello"); ("t2", "other", "thread"); ("t1", "two", "2")] in
  exists sys, (messages_for_inference "2026-01-01 00:00 UTC" "t1" "three" "" "slack" ""
                 (commit_all turns b)).1
    = [text_message SYSTEM sys; text_message USER "two"; text_message ASSISTANT "2";
       text_message USER "three"] /\
    String.prefix (static_prefix b) sys = true.
Proof.
  intros b turns.
  destruct (prompt_is_a_window b turns "2026-01-01 00:00 UTC" "t1" "three" "" "slack" "" eq_refl)
    as [Hw _].
  destruct (Hw ltac:(reflexivity)) as (sys & Ho & Hp & _). exists sys. split; [|exact Hp].
  rewrite Ho. reflexivity.
Defined.
