(* ===== verification/Connector.v ===== *)
(** * Connector

    The platform-neutral requests and responses ([models/types.py]) and the
    interface of the finalisation buttons the orchestrator is written
    against ([orchestrator/finalization_actions.py] implements it). *)

From S2P Require Import Prelude AgentTypes.

(** [ActionId] *)
Definition APPROVE_WRITE : string := "approve_write".
Definition DENY_WRITE : string := "deny_write".
Definition FINALIZATION_PUSH_PR : string := "finalization_push_pr".
Definition FINALIZATION_ITERATE : string := "finalization_iterate".
Definition FINALIZATION_DISCARD : string := "finalization_discard".

(** [ErrorCategory] *)
Inductive ErrorCategory :=
| AUTH_ERROR | RATE_LIMIT | TIMEOUT | MODEL_ERROR | CONNECTOR_ERROR | UNKNOWN.

#[export] Instance ErrorCategory_eq_dec : EqDecision ErrorCategory.
Proof. solve_decision. Defined.

Definition category_value (c : ErrorCategory) : string :=
  match c with
  | AUTH_ERROR => "auth_error" | RATE_LIMIT => "rate_limit" | TIMEOUT => "timeout"
  | MODEL_ERROR => "model_error" | CONNECTOR_ERROR => "connector_error" | UNKNOWN => "unknown"
  end.

(** [ActionPayload] *)
Record ActionPayload := { action_id : string; value : string }.

(** [NormalizedRequest], the fields the orchestrator reads. *)
Record NormalizedRequest := {
  text : string;
  channel_id : string;
  source : string;
  request_id : string;
  thread_ts : option string;
  action : option ActionPayload
}.

(** [ActionButton] *)
Record ActionButton := {
  label : string;
  btn_action_id : string;
  btn_value : string;
  btn_style : option string
}.

(** [FormField] *)
Record FormField := {
  ff_label : string;
  ff_field_id : string;
  ff_field_type : string;
  ff_options : option (list string);
  ff_required : bool
}.

(** The subclasses of [ResponseBlock]; a [TextBlock] in the default style and
    one in another style are two constructors.  [UnknownBlock] is a block of
    any other class, by its [str]. *)
Inductive ResponseBlock :=
| TextBlock (text : string)
| PlainTextBlock (text : string)
| ActionBlock (actions : list ActionButton)
| ConfirmBlock (title text confirm_label deny_label action_id : string)
| FormBlock (title : string) (fields : list FormField) (submit_action_id : string)
| UnknownBlock (shown : string).

(** [RichResponse] *)
Record RichResponse := {
  resp_channel_id : string;
  resp_thread_ts : option string;
  blocks : list ResponseBlock;
  error_category : option ErrorCategory;
  suppress_post : bool
}.

(** A response with text only, addressed to the request's thread:
    [_shape_response] of the orchestrator and [_text_reply] of the
    finalisation buttons. *)
Definition _shape_response (r : NormalizedRequest) (content : string) : RichResponse :=
  {| resp_channel_id := channel_id r; resp_thread_ts := thread_ts r;
     blocks := [TextBlock content]; error_category := None; suppress_post := false |}.

(** [RichResponse(..., suppress_post=True)] *)
Definition suppressed (r : NormalizedRequest) : RichResponse :=
  {| resp_channel_id := channel_id r; resp_thread_ts := thread_ts r; blocks := [];
     error_category := None; suppress_post := true |}.

(** [request.thread_ts or request.request_id] *)
Definition thread_key (r : NormalizedRequest) : string := opt_or (thread_ts r) (request_id r).

(** [is_finalization_action] *)
Definition is_finalization_action (r : NormalizedRequest) : bool :=
  match action r with
  | None => false
  | Some a => bool_decide (action_id a ∈ [FINALIZATION_PUSH_PR; FINALIZATION_ITERATE;
                                          FINALIZATION_DISCARD])
  end.

(** [FinalizationActionHandler], as the orchestrator uses it; its state is
    part of the outside state [W]. *)
Class FinalizationActions (W : Type) := {
  fa_handle : NormalizedRequest -> M W RichResponse;
  fa_is_pending_iteration : string -> W -> bool;
  fa_consume_iteration_feedback : NormalizedRequest -> string -> M W RichResponse
}.
