(* ===== verification/Orchestrator.v ===== *)
(** * Orchestrator

    The connector-facing request handler ([orchestrator/orchestrator.py]):
    button clicks, prompt assembly, the agent loop or the direct inference
    path with transcript repair, write approvals and denials, and the
    responses.

    A request runs in a task of its own, so the tool surface, a context
    variable, starts empty.  Requests are handled one at a time here; the
    tasks inside a request interleave as in [Loop]. *)

From S2P Require Import Prelude Json AgentTypes Connector Registry Compaction Loop Prompt.

(** [Orchestrator]: the thread histories, the paused writes by thread, and
    the environment of the agent loop. *)
Record Orchestrator (W : Type) := {
  prompt : LayeredPromptBuilder;
  pending_approvals : gmap string PendingApproval;
  env : Env W
}.
Arguments prompt {W} _.
Arguments pending_approvals {W} _.
Arguments env {W} _.

Definition set_prompt {W} (b : LayeredPromptBuilder) (o : Orchestrator W) : Orchestrator W :=
  {| prompt := b; pending_approvals := pending_approvals o; env := env o |}.

Definition set_pending {W} (p : gmap string PendingApproval) (o : Orchestrator W)
  : Orchestrator W :=
  {| prompt := prompt o; pending_approvals := p; env := env o |}.

Definition set_env {W} (e : Env W) (o : Orchestrator W) : Orchestrator W :=
  {| prompt := prompt o; pending_approvals := pending_approvals o; env := e |}.

(** ** The monad of a request *)

Definition OM (W A : Type) : Type := Orchestrator W -> (Exc + A) * Orchestrator W.

Definition oret {W A} (x : A) : OM W A := fun o => (inr x, o).
Definition obind {W A B} (m : OM W A) (k : A -> OM W B) : OM W B :=
  fun o => match m o with
           | (inr x, o) => k x o
           | (inl x, o) => (inl x, o)
           end.
Definition omodify {W} (f : Orchestrator W -> Orchestrator W) : OM W unit := fun o => (inr tt, f o).
(** A computation of the agent loop. *)
Definition in_loop {W A} (m : M W A) : OM W A :=
  fun o => let '(x, e) := m (env o) in (x, set_env e o).

Declare Scope orch_scope.
Delimit Scope orch_scope with orch.
Notation "x <- m ; k" := (obind m (fun x => k))
  (at level 100, m at next level, right associativity) : orch_scope.
Notation "m ;; k" := (obind m (fun _ => k))
  (at level 100, right associativity) : orch_scope.

(** ** Responses *)

Definition error_text (category : string) : string :=
  if String.eqb category (category_value AUTH_ERROR) then
    "I'm having a configuration issue and can't reach the model right now. " +:+
    "Please let the admin know."
  else if String.eqb category (category_value RATE_LIMIT) then
    "I'm being rate-limited right now. Please try again in a moment."
  else if String.eqb category (category_value TIMEOUT) then
    "The model didn't respond in time. Please try again."
  else if String.eqb category (category_value MODEL_ERROR) then
    "Something went wrong with the model. Please try again shortly."
  else if String.eqb category (category_value CONNECTOR_ERROR) then
    "I had trouble communicating. Please try again."
  else
    "Something unexpected happened. Please try again, and if the issue " +:+
    "persists, let the admin know.".

Definition category_of (category : string) : option ErrorCategory :=
  List.find (fun c => String.eqb (category_value c) category)
    [AUTH_ERROR; RATE_LIMIT; TIMEOUT; MODEL_ERROR; CONNECTOR_ERROR; UNKNOWN].

(** [_error_response] *)
Definition _error_response (r : NormalizedRequest) (category : string) : RichResponse :=
  {| resp_channel_id := channel_id r; resp_thread_ts := thread_ts r;
     blocks := [TextBlock (error_text category)]; error_category := category_of category;
     suppress_post := false |}.

(** [_build_approval_response] *)
Definition _build_approval_response (r : NormalizedRequest) (p : PendingApproval)
  : RichResponse :=
  let text := ":warning: *Write operation requires your approval*" +:+ blank_line +:+
              pa_description p +:+ blank_line +:+
              "Click *Approve* to proceed or *Deny* to cancel." in
  {| resp_channel_id := channel_id r; resp_thread_ts := thread_ts r;
     blocks := [TextBlock text;
                ActionBlock [{| label := "Approve"; btn_action_id := APPROVE_WRITE;
                                btn_value := thread_key r; btn_style := Some "primary" |};
                             {| label := "Deny"; btn_action_id := DENY_WRITE;
                                btn_value := thread_key r; btn_style := Some "danger" |}]];
     error_category := None; suppress_post := false |}.

Definition NOT_APPROVED_REPLY : string :=
  "I generated a response but it was not approved. " +:+
  "Please try rephrasing your request.".

Definition with_user_text (t : string) (p : PendingApproval) : PendingApproval :=
  {| pa_tool_calls := pa_tool_calls p; pa_working_messages := pa_working_messages p;
     pa_assistant_message := pa_assistant_message p; pa_request_id := pa_request_id p;
     pa_description := pa_description p; pa_original_user_text := t;
     pa_surfaced_tools := pa_surfaced_tools p |}.

(** [self._pending_approvals.pop(thread_key, None)] *)
Definition pop_pending {W} (key : string) : OM W (option PendingApproval) := fun o =>
  (inr (pending_approvals o !! key), set_pending (delete key (pending_approvals o)) o).

Definition save_pending {W} (key : string) (p : PendingApproval) : OM W unit :=
  omodify (fun o => set_pending (<[key := p]> (pending_approvals o)) o).

(** [sorted(names)] *)
Fixpoint insert_name (x : string) (l : list string) : list string :=
  match l with
  | [] => [x]
  | y :: l' => if String.leb x y then x :: l else y :: insert_name x l'
  end.

Definition sorted_names (l : list string) : list string := fold_right insert_name [] l.

Definition MAX_CONTINUATION_RETRIES : nat := 2.

(** [dataclasses.replace(base_loop_cfg, model=..., ...)] *)
Definition merged_config (m t : string) (n : Z) (c : AgentLoopConfig) : AgentLoopConfig :=
  {| model := m; temperature := t; max_tokens := n; max_tool_rounds := max_tool_rounds c;
     max_continuation_retries := max_continuation_retries c;
     micro_compaction_chars := micro_compaction_chars c;
     compaction_threshold_chars := compaction_threshold_chars c;
     compress_share := compress_share c; compaction_min_keep := compaction_min_keep c;
     compaction_model := compaction_model c |}.

Section orchestrator.
Context {W : Type} `{Backend W} `{ApprovalGate W}.
Context (not_a_mapping : json -> string).
Context (sched : list nat -> list nat).
(** No tools and an empty registry are the same to the code. *)
Context (tools : Registry W) (config : AgentLoopConfig) (agent_id : string).
(** [None] when no finalisation handler is wired. *)
Context (actions : option (FinalizationActions W)).
(** The clock of the request and whether it has a status callback. *)
Context (now : string) (on_status : bool).

Definition _tools_summary : string := String.concat ", " (sorted_names (names tools)).

Definition has_agent_loop : bool := match tools with [] => false | _ => true end.

(** ** Direct inference *)

(** The messages of a call after the given partial answers. *)
Definition scaffold (base : list Message) (chunks : list string) : list Message :=
  base ++ flat_map (fun c => [text_message ASSISTANT c; text_message USER CONTINUATION_PROMPT])
                   chunks.

Fixpoint repair_attempts (n : nat) (rid : string) (base : list Message) (chunks : list string)
  : M W string :=
  match n with
  | O => ret (String.concat "" chunks)
  | S n =>
      (r <- infer (loop_request config rid (scaffold base chunks) None);
       let p := repair_response r in
       if was_repaired p && negb (needs_continuation p) then ret (rr_content p)
       else if negb (needs_continuation p) then ret (String.concat "" chunks +:+ rr_content p)
       else repair_attempts n rid base (chunks ++ [rr_content p]))%agent
  end.

(** [_inference_with_repair] *)
Definition _inference_with_repair (ms : list Message) (rid : string) : M W string :=
  repair_attempts (1 + MAX_CONTINUATION_RETRIES) rid ms [].

(** ** A text request *)

Definition agent_run (ms : list Message) (rid : string) (pre : list string) : M W string :=
  (r <- run not_a_mapping sched tools config on_status ms rid pre;
   ret (lr_content r))%agent.

(** The [try] block of [handle]. *)
Definition answer_turn (r : NormalizedRequest) (key : string) : OM W RichResponse :=
  (ms <- (fun o => let '(ms, b) := messages_for_inference now key (text r) agent_id (source r)
                                      _tools_summary (prompt o) in
                   (inr ms, set_prompt b o));
   content <- in_loop (if has_agent_loop then agent_run ms (request_id r) []
                       else _inference_with_repair ms (request_id r));
   a <- in_loop (check_approval "respond"
          {| ac_tool_name := None; ac_arguments := None; ac_is_read_only := None;
             ac_content := Some content; ac_request_id := request_id r |});
   let content := if approved a then content else NOT_APPROVED_REPLY in
   omodify (fun o => set_prompt (commit_turn key (text r) content (prompt o)) o) ;;
   oret (_shape_response r content))%orch.

(** ... and its handlers. *)
Definition handle_text (r : NormalizedRequest) (key : string) : OM W RichResponse := fun o =>
  match answer_turn r key o with
  | (inr resp, o) => (inr resp, o)
  | (inl (WriteApprovalError p), o) =>
      let p := with_user_text (text r) p in
      (save_pending key p ;; oret (_build_approval_response r p))%orch o
  | (inl (InferenceError category _), o) => (inr (_error_response r category), o)
  | (inl (OtherError _), o) => (inr (_error_response r (category_value UNKNOWN)), o)
  end.

(** ** Write approvals *)

(** The resumed run of [_handle_write_approval]. *)
Definition resume_run (r : NormalizedRequest) (key : string) (p : PendingApproval)
  (working : list Message) : OM W RichResponse := fun o =>
  match in_loop (agent_run working (pa_request_id p) (elements (pa_surfaced_tools p))) o with
  | (inr content, o) =>
      (omodify (fun o => set_prompt (commit_turn key (pa_original_user_text p) content
                                                 (prompt o)) o) ;;
       oret (_shape_response r content))%orch o
  | (inl (WriteApprovalError p'), o) =>
      let p' := with_user_text (pa_original_user_text p) p' in
      (save_pending key p' ;; oret (_build_approval_response r p'))%orch o
  | (inl e, o) => (inl e, o)
  end.

Definition _handle_write_approval (r : NormalizedRequest) (key : string) : OM W RichResponse :=
  (pending <- pop_pending key;
   match pending with
   | None => oret (suppressed r)
   | Some p =>
       if has_agent_loop then
         results <- in_loop (execute_tool_calls not_a_mapping sched tools on_status
                               (pa_tool_calls p));
         resume_run r key p
           ((pa_working_messages p ++ [pa_assistant_message p]) ++ results)
       else oret (_shape_response r "Tool execution is not available.")
   end)%orch.

Definition _handle_write_denial (r : NormalizedRequest) (key : string) : OM W RichResponse :=
  (pending <- pop_pending key;
   match pending with
   | None => oret (suppressed r)
   | Some _ => oret (_shape_response r "Got it — the write operation was cancelled.")
   end)%orch.

(** ** [handle] *)

Definition is_action (i : string) (r : NormalizedRequest) : bool :=
  match action r with Some a => String.eqb (action_id a) i | None => false end.

(** Past the approval buttons: finalisation buttons, iteration feedback,
    stale approvals, the turn. *)
Definition handle_rest (r : NormalizedRequest) (key : string) : OM W RichResponse := fun o =>
  match actions with
  | Some fa =>
      if is_finalization_action r then in_loop (fa_handle r) o
      else if fa_is_pending_iteration key (world (env o)) then
        in_loop (fa_consume_iteration_feedback r key) o
      else (pop_pending key ;; handle_text r key)%orch o
  | None => (pop_pending key ;; handle_text r key)%orch o
  end.

Definition handle (r : NormalizedRequest) : OM W RichResponse :=
  (let key := thread_key r in
   omodify (fun o => set_env (set_surface ∅ (env o)) o) ;;
   if is_action APPROVE_WRITE r then _handle_write_approval r key
   else if is_action DENY_WRITE r then _handle_write_denial r key
   else handle_rest r key)%orch.
End orchestrator.
