(* ===== verification/OrchestratorTheorems.v ===== *)
(** * OrchestratorTheorems

    What the orchestrator promises its users: writes run only for the click
    that approves them, the history records what was shown, every text
    request is answered; and where the approval buttons fall short. *)

From S2P Require Import Prelude Json AgentTypes Connector Registry Compaction CompactionTheorems Loop.
From S2P Require Import LoopLemmas LoopTheorems Prompt Orchestrator.

(** ** What a request does to the state *)

Section handling.
Context {W : Type} `{Backend W} `{ApprovalGate W}.
Context (not_a_mapping : json -> string).
Context (sched : list nat -> list nat).
Context (tools : Registry W) (cfg : AgentLoopConfig) (aid : string).
Context (actions : option (FinalizationActions W)) (now : string) (on_status : bool).

Abbreviation do_handle :=
  (handle not_a_mapping sched tools cfg aid actions now on_status).
Abbreviation do_run := (agent_run not_a_mapping sched tools cfg on_status).

(** The model's part of a text turn. *)
Definition turn_content (r : NormalizedRequest) (key : string) (o : Orchestrator W)
  : (Exc + string) * Env W :=
  let ms := (messages_for_inference now key (text r) aid (source r) (_tools_summary tools)
               (prompt o)).1 in
  (if has_agent_loop tools then do_run ms (request_id r) []
   else _inference_with_repair cfg ms (request_id r)) (env o).

Definition previewed (r : NormalizedRequest) (key : string) (o : Orchestrator W)
  : LayeredPromptBuilder := (history_with_user_message key (text r) (prompt o)).2.

(** What the response gate makes of the content. *)
Definition gated (r : NormalizedRequest) (content : string) (e : Env W) : string * Env W :=
  let '(a, w) := approval_check "respond"
    {| ac_tool_name := None; ac_arguments := None; ac_is_read_only := None;
       ac_content := Some content; ac_request_id := request_id r |} (world e) in
  (if approved a then content else NOT_APPROVED_REPLY, set_world w e).

Lemma answer_turn_eq r key o :
  answer_turn not_a_mapping sched tools cfg aid now on_status r key o =
  match turn_content r key o with
  | (inl x, e) => (inl x, set_env e (set_prompt (previewed r key o) o))
  | (inr c, e) =>
      let '(c, e) := gated r c e in
      (inr (_shape_response r c),
       set_prompt (commit_turn key (text r) c (previewed r key o)) (set_env e o))
  end.
Proof.
  unfold answer_turn, obind, oret, omodify, in_loop, turn_content, previewed, gated.
  simpl. destruct (has_agent_loop tools).
  - destruct (do_run _ _ _ _) as [[x|c] e]; [done|]. unfold check_approval. simpl.
    by destruct (approval_check _ _ _) as [a w].
  - destruct (_inference_with_repair _ _ _ _) as [[x|c] e]; [done|]. unfold check_approval. simpl.
    by destruct (approval_check _ _ _) as [a w].
Qed.

(** The environment a request starts in. *)
Definition fresh_task (o : Orchestrator W) : Orchestrator W := set_env (set_surface ∅ (env o)) o.

(** How a text request ends. *)
Inductive text_outcome (r : NormalizedRequest) (key : string) (o : Orchestrator W)
  : (Exc + RichResponse) * Orchestrator W -> Prop :=
| text_answered c0 e0 c e :
    turn_content r key o = (inr c0, e0) -> gated r c0 e0 = (c, e) ->
    text_outcome r key o (inr (_shape_response r c),
      set_prompt (commit_turn key (text r) c (previewed r key o)) (set_env e o))
| text_paused p e :
    turn_content r key o = (inl (WriteApprovalError p), e) ->
    text_outcome r key o
      (inr (_build_approval_response r (with_user_text (text r) p)),
       set_pending (<[key := with_user_text (text r) p]> (pending_approvals o))
         (set_env e (set_prompt (previewed r key o) o)))
| text_failed x cat e :
    turn_content r key o = (inl x, e) -> (forall p, x ≠ WriteApprovalError p) ->
    text_outcome r key o
      (inr (_error_response r cat), set_env e (set_prompt (previewed r key o) o)).

Lemma handle_text_outcome r key o :
  text_outcome r key o
    (handle_text not_a_mapping sched tools cfg aid now on_status r key o).
Proof.
  unfold handle_text. rewrite answer_turn_eq.
  destruct (turn_content r key o) as [[x|c0] e0] eqn:Ht.
  - destruct x as [cat t|p|t].
    + by eapply text_failed.
    + exact (text_paused r key o p e0 Ht).
    + by eapply text_failed.
  - destruct (gated r c0 e0) as [c e] eqn:Hg. by eapply text_answered.
Qed.

(** How the resumed run of an approved write ends. *)
Inductive resume_outcome (r : NormalizedRequest) (key : string) (p : PendingApproval)
  (o : Orchestrator W) : (Exc + RichResponse) * Orchestrator W -> Prop :=
| resume_answered c e :
    resume_outcome r key p o (inr (_shape_response r c),
      set_prompt (commit_turn key (pa_original_user_text p) c (prompt o)) (set_env e o))
| resume_paused p' e :
    pa_original_user_text p' = pa_original_user_text p ->
    resume_outcome r key p o (inr (_build_approval_response r p'),
      set_pending (<[key := p']> (pending_approvals o)) (set_env e o))
| resume_failed x e :
    (forall p', x ≠ WriteApprovalError p') ->
    resume_outcome r key p o (inl x, set_env e o).

Lemma resume_run_outcome r key p ms o :
  let out := resume_run not_a_mapping sched tools cfg on_status r key p ms o in
  resume_outcome r key p o out /\
  env out.2 = (do_run ms (pa_request_id p) (elements (pa_surfaced_tools p)) (env o)).2.
Proof.
  unfold resume_run, in_loop.
  destruct (do_run ms _ _ (env o)) as [[x|c] e] eqn:Hrun.
  - destruct x as [cat t|p'|t]; (split; [|done]); [by apply resume_failed| |by apply resume_failed].
    by eapply (resume_paused r key p o (with_user_text (pa_original_user_text p) p') e).
  - split; [|done]. exact (resume_answered r key p o c e).
Qed.

(** The branches of [handle]. *)
Lemma handle_cases r o :
  let o0 := fresh_task o in
  let popped := set_pending (delete (thread_key r) (pending_approvals o)) o0 in
  do_handle r o =
  if is_action APPROVE_WRITE r then
    match pending_approvals o !! thread_key r with
    | None => (inr (suppressed r), popped)
    | Some p =>
        if has_agent_loop tools then
          match execute_tool_calls not_a_mapping sched tools on_status
                  (pa_tool_calls p) (env o0) with
          | (inr results, e) =>
              resume_run not_a_mapping sched tools cfg on_status r (thread_key r) p
                ((pa_working_messages p ++ [pa_assistant_message p]) ++ results)
                (set_env e popped)
          | (inl x, e) => (inl x, set_env e popped)
          end
        else (inr (_shape_response r "Tool execution is not available."), popped)
    end
  else if is_action DENY_WRITE r then
    (inr (match pending_approvals o !! thread_key r with
          | None => suppressed r
          | Some _ => _shape_response r "Got it — the write operation was cancelled."
          end), popped)
  else match actions with
       | Some fa =>
           if is_finalization_action r then in_loop (fa_handle r) o0
           else if fa_is_pending_iteration (thread_key r) (world (env o)) then
             in_loop (fa_consume_iteration_feedback r (thread_key r)) o0
           else handle_text not_a_mapping sched tools cfg aid now on_status r
                  (thread_key r) popped
       | None => handle_text not_a_mapping sched tools cfg aid now on_status r
                   (thread_key r) popped
       end.
Proof.
  unfold handle, obind, omodify. fold (fresh_task o).
  destruct (is_action APPROVE_WRITE r).
  { unfold _handle_write_approval, pop_pending, obind. simpl.
    destruct (pending_approvals o !! thread_key r) as [p|]; [|done].
    destruct (has_agent_loop tools); [|done]. unfold in_loop. simpl.
    by destruct (execute_tool_calls _ _ _ _ _ _) as [[x|results] e]. }
  destruct (is_action DENY_WRITE r).
  { unfold _handle_write_denial, pop_pending, obind. simpl.
    by destruct (pending_approvals o !! thread_key r). }
  unfold handle_rest, pop_pending, obind. simpl.
  destruct actions as [fa|]; [|done]. by case_match; [|case_match].
Qed.
End handling.

(** ** What is dispatched *)

Section dispatched.
Context {W : Type} `{Backend W}.
Context (not_a_mapping : json -> string).
Context (sched : list nat -> list nat) (sched_perm : forall l, sched l ≡ₚ l).
Context (tools : Registry W) (cfg : AgentLoopConfig) (aid : string).

(** Only calls that write nothing were added. *)
Definition harmless (e e' : Env W) : Prop :=
  exists dn, executed e' = executed e ++ dn /\ Forall (fun tc => is_write tools tc = false) dn.

Lemma harmless_same (e e' : Env W) : executed e' = executed e -> harmless e e'.
Proof. intros Hx. exists []. by rewrite app_nil_r. Qed.

Lemma run_harmless cb ms rid pre (e : Env W) :
  harmless e (@agent_run W _ write_approval not_a_mapping sched tools cfg cb ms rid pre e).2.
Proof.
  unfold agent_run, bind, ret. rewrite run_rounds_of.
  destruct (rounds_no_write not_a_mapping sched tools cfg cb
    (Z.to_nat (max_tool_rounds cfg)) rid 0%Z ms 0%Z (set_surface (start_surface tools pre) e)
    sched_perm) as (dn & Hx & HF).
  exists dn. split; [|done]. by destruct (run_rounds _ _ _ _ _ _ _ _ _ _ _) as [[x|l] e'].
Qed.

(** An answer cut off by the token limit. *)
Definition truncated (r : InferenceResponse) : bool := needs_continuation (repair_response r).

Lemma truncated_content r :
  truncated r = true -> was_repaired (repair_response r) = false /\
                        rr_content (repair_response r) = rs_content r.
Proof. unfold truncated, repair_response. repeat case_match; done. Qed.

(** The messages of request [i] after the partial answers [cs]. *)
Definition request_messages (base : list Message) (cs : list string) (i : nat) : list Message :=
  scaffold base (take i cs).

(** How the direct path ends after truncated answers [partials]: out of
    attempts, with an error, or with a last answer [r]. *)
Definition direct_result (n : nat) (partials : list InferenceResponse) (asked_n : nat)
  (out : Exc + string) : Prop :=
  let chunks := map rs_content partials in
  (asked_n = n /\ length partials = n /\ out = inr (String.concat "" chunks)) \/
  (asked_n = S (length partials) /\
   ((exists exc, out = inl exc) \/
    exists r, truncated r = false /\
      out = inr (if was_repaired (repair_response r) then rr_content (repair_response r)
                 else String.concat "" chunks +:+ rs_content r))).

Lemma attempts_direct n rid base done (e : Env W) :
  exists rs partials,
    asked e (repair_attempts cfg n rid base (map rs_content done) e).2 rs /\ length rs <= n /\
    Forall (fun r => truncated r = true) partials /\
    map rq_messages rs =
      map (request_messages base (map rs_content (done ++ partials))) (seq (length done) (length rs)) /\
    Forall (fun q => rq_tools q = None) rs /\
    direct_result (length done + n) (done ++ partials) (length done + length rs)
      (repair_attempts cfg n rid base (map rs_content done) e).1.
Proof.
  revert done e. induction n as [|n IH]; intros done e; cbn [repair_attempts].
  { exists [], []. rewrite app_nil_r. split; [apply asked_nil|]. split; [done|].
    split; [constructor|]. split; [done|]. split; [constructor|]. left. simpl. split; [done|]. split; [lia|done]. }
  set (q := loop_request cfg rid (scaffold base (map rs_content done)) None).
  destruct (infer_asked q e) as (e1 & H1 & Ha1). unfold bind at 1 2. rewrite H1.
  assert (Hq : forall l, map rq_messages [q] =
    map (request_messages base (map rs_content (done ++ l))) (seq (length done) 1)).
  { intros l. simpl. unfold request_messages. do 2 f_equal.
    rewrite List.map_app, take_app_length'; [done|]. by rewrite length_map. }
  destruct (complete q (world e)).1 as [exc|r].
  { exists [q], []. split; [done|]. split; [simpl; lia|]. split; [constructor|].
    split; [apply Hq|]. split; [by repeat constructor|].
    right. rewrite app_nil_r. simpl. split; [lia|]. left. by eexists. }
  destruct (truncated r) eqn:Htr.
  - destruct (truncated_content r Htr) as [Hw Hc]. unfold truncated in Htr. rewrite Hw, Htr, Hc.
    simpl. change [rs_content r] with (map rs_content [r]). rewrite <- List.map_app.
    destruct (IH (done ++ [r]) e1) as (rs & ps & Ha & Hl & HF & Hm & Ht & Hd).
    exists (q :: rs), (r :: ps). rewrite <- app_assoc in Hm, Hd. simpl in Hm, Hd.
    rewrite length_app in Hm, Hd. simpl in Hm, Hd.
    split; [exact (asked_app _ _ _ [q] rs Ha1 Ha)|]. split; [simpl; lia|].
    split; [by constructor|]. split; [|split].
    + simpl. rewrite Hm. injection (Hq (r :: ps)) as ->. by rewrite Nat.add_1_r.
    + by constructor.
    + simpl. replace (length done + S n) with (length done + 1 + n) by lia.
      by replace (length done + S (length rs)) with (length done + 1 + length rs) by lia.
  - unfold truncated in Htr. rewrite Htr. simpl.
    exists [q], []. rewrite app_nil_r.
    assert (Hr : direct_result (length done + S n) done (length done + 1)
       (inr (if was_repaired (repair_response r) then rr_content (repair_response r)
             else String.concat "" (map rs_content done) +:+ rs_content r))).
    { right. split; [lia|]. right. by exists r. }
    assert (Hrr : was_repaired (repair_response r) = false -> rr_content (repair_response r) = rs_content r)
      by (unfold repair_response; repeat case_match; done).
    destruct (was_repaired (repair_response r)) eqn:Hw; simpl.
    all: split; [done|]; split; [lia|]; split; [constructor|];
      split; [specialize (Hq []); by rewrite app_nil_r in Hq|]; split; [by repeat constructor|].
    + exact Hr.
    + by rewrite Hrr.
Qed.

Lemma content_harmless now cb r key (o : Orchestrator W) :
  harmless (env o) (@turn_content W _ write_approval not_a_mapping sched tools cfg aid
                      now cb r key o).2.
Proof.
  unfold turn_content. destruct (has_agent_loop tools); [apply run_harmless|].
  destruct (attempts_direct (1 + MAX_CONTINUATION_RETRIES) (request_id r)
    (messages_for_inference now key (text r) aid (source r) (_tools_summary tools) (prompt o)).1
    [] (env o)) as (rs & ps & (_ & Hx & _) & _).
  by apply harmless_same.
Qed.

Lemma text_harmless now cb r key (o : Orchestrator W) :
  harmless (env o) (env (@handle_text W _ write_approval not_a_mapping sched tools cfg
                           aid now cb r key o).2).
Proof.
  pose proof (content_harmless now cb r key o) as Hc.
  destruct (@handle_text_outcome W _ write_approval not_a_mapping sched tools cfg aid
    now cb r key o) as [c0 e0 c e Ht Hg|p e Ht|x cat e Ht _]; rewrite Ht in Hc; [|exact Hc..].
  unfold gated in Hg. destruct (approval_check _ _ _) as [a w]. injection Hg as _ <-. exact Hc.
Qed.
End dispatched.

Lemma harmless_reads {W} (tools : Registry W) dn :
  Forall (fun tc => is_write tools tc = false) dn ->
  forall tc t, tc ∈ dn -> get (tc_name tc) tools = Some t -> is_read_only t = true.
Proof.
  intros HF tc t Hin Hg. rewrite List.Forall_forall in HF. apply list_elem_of_In in Hin.
  specialize (HF _ Hin). unfold is_write in HF. rewrite Hg in HF. by apply negb_false_iff in HF.
Qed.

(** Finalisation buttons run no agent-loop tools. *)
Definition buttons_quiet {W} (actions : option (FinalizationActions W)) : Prop :=
  forall fa, actions = Some fa -> forall r key (e : Env W),
    executed (fa_handle r e).2 = executed e /\
    executed (fa_consume_iteration_feedback r key e).2 = executed e.

(** C1: a write runs only for the click that approves it.  Under
    [WriteApproval], handling one request dispatches, besides calls to
    read-only or unknown tools, at most the calls paused in that very
    thread, and those only for an Approve click; each of them exactly
    once. *)
Theorem writes_need_their_click {W} `{Backend W} not_a_mapping sched
  (tools : Registry W) cfg aid actions now cb r (o : Orchestrator W) :
  (forall l, sched l ≡ₚ l) -> buttons_quiet actions ->
  let out := @handle W _ write_approval not_a_mapping sched tools cfg aid actions now cb
               r o in
  exists clicked others,
    executed (env out.2) = executed (env o) ++ clicked ++ others /\
    (forall tc t, tc ∈ others -> get (tc_name tc) tools = Some t -> is_read_only t = true) /\
    match (if is_action APPROVE_WRITE r && has_agent_loop tools
           then pending_approvals o !! thread_key r else None) with
    | Some p => clicked ≡ₚ pa_tool_calls p
    | None => clicked = []
    end.
Proof.
  intros Hs Hq. cbv zeta. rewrite handle_cases.
  assert (Hlift : forall e', harmless tools (env o) e' -> exists clicked others,
    executed e' = executed (env o) ++ clicked ++ others /\
    (forall tc t, tc ∈ others -> get (tc_name tc) tools = Some t -> is_read_only t = true) /\
    clicked = []).
  { intros e' (dn & Hx & HF). exists [], dn. split; [done|]. split; [|done].
    by apply harmless_reads. }
  destruct (is_action APPROVE_WRITE r); simpl.
  2:{ destruct (is_action DENY_WRITE r); [by apply Hlift, harmless_same|].
      assert (Htext : forall o', env o' = set_surface ∅ (env o) ->
        harmless tools (env o) (env (@handle_text W _ write_approval not_a_mapping sched
          tools cfg aid now cb r (thread_key r) o').2)).
      { intros o' He. destruct (text_harmless not_a_mapping sched Hs tools cfg aid now cb
          r (thread_key r) o') as (dn & Hx & HF). rewrite He in Hx. by exists dn. }
      destruct actions as [fa|]; [|by apply Hlift, Htext].
      destruct (Hq fa eq_refl r (thread_key r) (set_surface ∅ (env o))) as [Hh Hc].
      case_match; [|case_match].
      - apply Hlift, harmless_same. unfold in_loop. simpl. by destruct (fa_handle r _).
      - apply Hlift, harmless_same. unfold in_loop. simpl.
        by destruct (fa_consume_iteration_feedback r _ _).
      - by apply Hlift, Htext. }
  destruct (pending_approvals o !! thread_key r) as [p|];
    [|destruct (has_agent_loop tools); by apply Hlift, harmless_same].
  destruct (has_agent_loop tools); [|by apply Hlift, harmless_same].
  destruct (exec_all_spec not_a_mapping sched tools cb (pa_tool_calls p)
    (set_surface ∅ (env o)) Hs) as (ms & e' & dn & He & _ & Hx & Hp & _).
  simpl. rewrite He.
  destruct (@resume_run_outcome W _ write_approval not_a_mapping sched tools cfg cb r
    (thread_key r) p ((pa_working_messages p ++ [pa_assistant_message p]) ++ ms)
    (set_env e' (set_pending (delete (thread_key r) (pending_approvals o)) (fresh_task o))))
    as [_ Hr].
  rewrite Hr. simpl.
  destruct (run_harmless not_a_mapping sched Hs tools cfg cb
    ((pa_working_messages p ++ [pa_assistant_message p]) ++ ms) (pa_request_id p)
    (elements (pa_surfaced_tools p)) e') as (dn' & Hx' & HF).
  exists dn, dn'. rewrite Hx', Hx, <- app_assoc. split; [done|]. split; [|done].
  by apply harmless_reads.
Qed.

(** ** Pending approvals, history and errors *)

Section outcomes.
Context {W : Type} `{Backend W} `{ApprovalGate W}.
Context (not_a_mapping : json -> string).
Context (sched : list nat -> list nat) (sched_perm : forall l, sched l ≡ₚ l).
Context (tools : Registry W) (cfg : AgentLoopConfig) (aid : string).
Context (actions : option (FinalizationActions W)) (now : string) (cb : bool).

Abbreviation do_handle :=
  (handle not_a_mapping sched tools cfg aid actions now cb).

(** Requests that are routed to the finalisation handler. *)
Definition to_buttons (r : NormalizedRequest) (o : Orchestrator W) : bool :=
  negb (is_action APPROVE_WRITE r) && negb (is_action DENY_WRITE r) &&
  match actions with
  | Some fa => is_finalization_action r || fa_is_pending_iteration (thread_key r) (world (env o))
  | None => false
  end.

(** The ways a request is answered, by what they leave in the state; [o0]
    has no pending approval for the thread. *)
Inductive handled (r : NormalizedRequest) (o : Orchestrator W)
  : (Exc + RichResponse) * Orchestrator W -> Prop :=
| handled_button x e :
    to_buttons r o = true -> handled r o (x, set_env e o)
| handled_short resp e :
    to_buttons r o = false -> error_category resp = None ->
    resp_channel_id resp = channel_id r -> resp_thread_ts resp = thread_ts r ->
    is_action APPROVE_WRITE r || is_action DENY_WRITE r = true ->
    handled r o (inr resp,
      set_env e (set_pending (delete (thread_key r) (pending_approvals o)) o))
| handled_answer user c b e :
    to_buttons r o = false ->
    (forall k, history_of k b = history_of k (prompt o)) -> max_history b = max_history (prompt o) ->
    user = match (if is_action APPROVE_WRITE r then pending_approvals o !! thread_key r else None) with
           | Some p => pa_original_user_text p
           | None => text r
           end ->
    handled r o (inr (_shape_response r c),
      {| prompt := commit_turn (thread_key r) user c b;
         pending_approvals := delete (thread_key r) (pending_approvals o); env := e |})
| handled_pause p b e :
    to_buttons r o = false ->
    (forall k, history_of k b = history_of k (prompt o)) ->
    pa_original_user_text p =
      match (if is_action APPROVE_WRITE r then pending_approvals o !! thread_key r else None) with
      | Some p0 => pa_original_user_text p0
      | None => text r
      end ->
    handled r o (inr (_build_approval_response r p),
      {| prompt := b; pending_approvals := <[thread_key r := p]> (pending_approvals o); env := e |})
| handled_error cat b e :
    to_buttons r o = false -> is_action APPROVE_WRITE r = false ->
    (forall k, history_of k b = history_of k (prompt o)) ->
    handled r o (inr (_error_response r cat),
      {| prompt := b; pending_approvals := delete (thread_key r) (pending_approvals o); env := e |})
| handled_raise x e :
    to_buttons r o = false -> is_action APPROVE_WRITE r = true ->
    is_Some (pending_approvals o !! thread_key r) ->
    handled r o (inl x,
      {| prompt := prompt o; pending_approvals := delete (thread_key r) (pending_approvals o);
         env := e |}).

Lemma text_handled r (o : Orchestrator W) :
  to_buttons r o = false -> is_action APPROVE_WRITE r = false ->
  handled r o (handle_text not_a_mapping sched tools cfg aid now cb r (thread_key r)
                 (set_pending (delete (thread_key r) (pending_approvals o)) (fresh_task o))).
Proof.
  intros Hb Ha.
  set (o' := set_pending _ _).
  assert (Hh : forall k, history_of k (previewed r (thread_key r) o') = history_of k (prompt o))
    by (intros k; apply preview_history).
  destruct (handle_text_outcome not_a_mapping sched tools cfg aid now cb r
    (thread_key r) o') as [c0 e0 c e Ht Hg|p e Ht|x cat e Ht _].
  - refine (handled_answer r o (text r) c (previewed r (thread_key r) o') e Hb Hh _ _); [done|].
    by rewrite Ha.
  - set (p' := with_user_text (text r) p).
    assert (Hp : pending_approvals (set_pending (<[thread_key r:=p']> (pending_approvals o'))
      (set_env e (set_prompt (previewed r (thread_key r) o') o'))) =
      <[thread_key r := p']> (pending_approvals o)) by (simpl; apply insert_delete_eq).
    unfold set_pending at 1. change (pending_approvals o') with
      (delete (thread_key r) (pending_approvals o)). rewrite insert_delete_eq.
    apply handled_pause; [done|done|]. by rewrite Ha.
  - by apply (handled_error r o cat (previewed r (thread_key r) o') e).
Qed.

Lemma approval_handled r (o : Orchestrator W) :
  is_action APPROVE_WRITE r = true -> handled r o (do_handle r o).
Proof.
  intros Ha. rewrite handle_cases, Ha.
  assert (Hb : to_buttons r o = false) by (unfold to_buttons; by rewrite Ha).
  destruct (pending_approvals o !! thread_key r) as [p|] eqn:Hp;
    [|by apply (handled_short r o (suppressed r)); rewrite ?Ha].
  destruct (has_agent_loop tools);
    [|by apply (handled_short r o (_shape_response r _)); rewrite ?Ha].
  destruct (exec_all_spec not_a_mapping sched tools cb (pa_tool_calls p)
    (env (fresh_task o)) sched_perm) as (ms & e' & dn & He & _). rewrite He.
  destruct (resume_run_outcome not_a_mapping sched tools cfg cb r (thread_key r) p
    ((pa_working_messages p ++ [pa_assistant_message p]) ++ ms)
    (set_env e' (set_pending (delete (thread_key r) (pending_approvals o)) (fresh_task o))))
    as [Hr _].
  destruct Hr as [c e|p' e Hu|x e _].
  - apply (handled_answer r o (pa_original_user_text p) c (prompt o) e); [done..|]. by rewrite Ha, Hp.
  - unfold set_pending at 1. cbn [set_env set_pending pending_approvals prompt env fresh_task].
    rewrite insert_delete_eq. apply handled_pause; [done..|]. by rewrite Ha, Hp.
  - apply (handled_raise r o x e); [done..|]. by rewrite Hp.
Qed.

Lemma every_handled r (o : Orchestrator W) : handled r o (do_handle r o).
Proof.
  destruct (is_action APPROVE_WRITE r) eqn:Ha; [by apply approval_handled|].
  rewrite handle_cases, Ha. destruct (is_action DENY_WRITE r) eqn:Hd.
  { destruct (pending_approvals o !! thread_key r);
      apply handled_short; unfold to_buttons; rewrite ?Ha, ?Hd; done. }
  pose proof (text_handled r o) as Ht. pose proof (handled_button r o) as Hbt.
  unfold to_buttons in Ht, Hbt. rewrite Ha, Hd in Ht, Hbt. simpl in Ht, Hbt.
  destruct actions as [fa|]; [|by apply Ht].
  destruct (is_finalization_action r); simpl in *.
  { unfold in_loop. destruct (fa_handle r _) as [x e]. by apply Hbt. }
  destruct (fa_is_pending_iteration _ _); [|by apply Ht].
  unfold in_loop. destruct (fa_consume_iteration_feedback r _ _) as [x e]. by apply Hbt.
Qed.
End outcomes.

(** C38: every paused write was shown, and a stale click does nothing.
    After a request (one that is not for the finalisation buttons), the
    thread has a pending write only if the response asks for its approval;
    the other threads keep theirs.  A click in a thread without a pending
    write is answered by a response the connector does not post, and
    executes, asks and records nothing. *)
Theorem pending_is_shown {W} `{Backend W} `{ApprovalGate W} not_a_mapping sched
  (tools : Registry W) cfg aid actions now cb r (o : Orchestrator W) :
  (forall l, sched l ≡ₚ l) -> to_buttons actions r o = false ->
  let out := handle not_a_mapping sched tools cfg aid actions now cb r o in
  (forall k, k ≠ thread_key r -> pending_approvals out.2 !! k = pending_approvals o !! k) /\
  match pending_approvals out.2 !! thread_key r with
  | Some p => out.1 = inr (_build_approval_response r p)
  | None => True
  end /\
  (is_action APPROVE_WRITE r || is_action DENY_WRITE r = true ->
   pending_approvals o !! thread_key r = None ->
   out.1 = inr (suppressed r) /\ prompt out.2 = prompt o /\
   executed (env out.2) = executed (env o) /\ requests (env out.2) = requests (env o) /\
   pending_approvals out.2 = pending_approvals o).
Proof.
  intros Hs Hb out.
  assert (Hh : handled actions r o out) by (by apply every_handled).
  split; [|split].
  - intros k Hk. destruct Hh; simpl; [congruence| | | | |];
      by rewrite ?lookup_delete_ne, ?lookup_insert_ne by done.
  - destruct Hh; simpl; [congruence|..]; by rewrite ?lookup_delete_eq, ?lookup_insert_eq.
  - intros Hc Hp. unfold out. rewrite handle_cases, Hp. rewrite delete_id by done.
    destruct (is_action APPROVE_WRITE r); [done|]. simpl in Hc. by rewrite Hc.
Qed.

(** The history records what the user was shown.  A request changes no
    thread's history but its own, and that only when it is answered with a
    text: then the window slides over exactly the user's message — for an
    approved write the message that led to it — and that text.  Paused,
    denied and failed turns leave no trace. *)
Theorem history_records_what_was_shown {W} `{Backend W} `{ApprovalGate W} not_a_mapping
  sched (tools : Registry W) cfg aid actions now cb r (o : Orchestrator W) k :
  (forall l, sched l ≡ₚ l) -> (0 < max_history (prompt o))%Z ->
  let out := handle not_a_mapping sched tools cfg aid actions now cb r o in
  history_of k (prompt out.2) = history_of k (prompt o) \/
  (k = thread_key r /\ exists reply,
     out.1 = inr (_shape_response r reply) /\
     history_of k (prompt out.2) = window (Z.to_nat (max_history (prompt o)))
       (history_of k (prompt o) ++
        [text_message USER match (if is_action APPROVE_WRITE r
                                  then pending_approvals o !! k else None) with
                           | Some p => pa_original_user_text p
                           | None => text r
                           end;
         text_message ASSISTANT reply])).
Proof.
  intros Hs Hn out.
  assert (Hh : handled actions r o out) by (by apply every_handled).
  destruct Hh as [x e _|resp e _ _ _ _ _|user c b e _ Hb Hm Hu|p b e _ Hb _|cat b e _ _ Hb|x e _ _ _];
    simpl; [by left|by left| |by left|by left|by left].
  destruct (decide (k = thread_key r)) as [->|Hk]; rewrite commit_history by (by rewrite Hm).
  - right. split; [done|]. exists c. split; [done|]. rewrite decide_True by done.
    by rewrite Hm, Hb, Hu.
  - left. rewrite decide_False by congruence. apply Hb.
Qed.

(** ** Scenarios: the scripted model behind an orchestrator *)

Definition fresh_builder : LayeredPromptBuilder :=
  {| identity := "orchestrator"; task_context := ""; max_history := 50; thread_history := ∅ |}.

Definition fresh_orchestrator (script : list InferenceResponse)
  : Orchestrator (list InferenceResponse) :=
  {| prompt := fresh_builder; pending_approvals := ∅; env := new_env script |}.

Definition scripted_handle (r : NormalizedRequest) (o : Orchestrator (list InferenceResponse)) :=
  @handle _ scripted_backend write_approval (fun _ => "not a mapping") (@rev nat)
    script_tools sample_cfg "" None "2026-01-01 00:00 UTC" true r o.

Definition says (t : string) : NormalizedRequest :=
  {| text := t; channel_id := "C1"; source := "slack"; request_id := "r1"; thread_ts := Some "17.1";
     action := None |}.

(** The click on the Approve button of a prompt. *)
Definition clicks_approve (prompt : RichResponse) : NormalizedRequest :=
  {| text := ""; channel_id := "C1"; source := "slack"; request_id := "r2"; thread_ts := Some "17.1";
     action := match blocks prompt with
               | [_; ActionBlock (b :: _)] =>
                   Some {| action_id := btn_action_id b; value := btn_value b |}
               | _ => None
               end |}.

Definition write_to (i args : string) : ToolCall :=
  {| tc_id := i; tc_name := "write_file"; tc_arguments := args |}.

(** C9: Only an approved write lets an error out.  A request that is
    neither an Approve click nor for the finalisation buttons always gets a
    response, addressed to its own channel and thread, whatever the model
    and the tools do.  An Approve click has no such guard: when the model is
    unreachable after the write ran, the error leaves [handle], with the
    write executed, its approval consumed and the turn unrecorded. *)
Theorem only_approvals_escape :
  (forall (W : Type) (Hb : Backend W) (Hg : ApprovalGate W) not_a_mapping sched
     (tools : Registry W) cfg aid actions now cb r (o : Orchestrator W),
     (forall l, sched l ≡ₚ l) -> to_buttons actions r o = false -> is_action APPROVE_WRITE r = false ->
     exists resp,
       (handle not_a_mapping sched tools cfg aid actions now cb r o).1 = inr resp /\
       resp_channel_id resp = channel_id r /\ resp_thread_ts resp = thread_ts r) /\
  let script := [calls [write_call]] in
  let o1 := scripted_handle (says "write it") (fresh_orchestrator script) in
  exists prompt_a, o1.1 = inr prompt_a /\
    let o2 := scripted_handle (clicks_approve prompt_a) o1.2 in
    o2.1 = inl (InferenceError "unavailable" "script exhausted") /\
    executed (env o2.2) = [write_call] /\ pending_approvals o2.2 = ∅ /\
    history_of "17.1" (prompt o2.2) = [].
Proof.
  split.
  - intros W Hb Hg not_a_mapping sched tools cfg aid actions now cb r o Hs Hbt Ha.
    assert (Hh : handled actions r o
      (handle not_a_mapping sched tools cfg aid actions now cb r o))
      by (by apply every_handled).
    destruct Hh as [x e Hbt'|resp e _ _ Hc Ht _|user c b e _ _ _ _|p b e _ _ _|cat b e _ _ _|x e _ Ha' _];
      try congruence; eexists; done.
  - eexists. split; [vm_compute; reflexivity|].
    split; [|split; [|split]]; vm_compute; reflexivity.
Qed.

(** A click approves whatever is pending.  Two Approve clicks in one
    thread have the same effect whatever prompt they belong to: the value of
    the button is not looked at (and names only the thread).  So when a
    second message in the thread leads to a second prompt, clicking Approve
    on the first one — whose write was cancelled — executes the second
    write. *)
Theorem superseded_prompt_approves_newer_write :
  (forall (W : Type) (Hb : Backend W) (Hg : ApprovalGate W) not_a_mapping sched
     (tools : Registry W) cfg aid actions now cb r1 r2 (o : Orchestrator W),
     is_action APPROVE_WRITE r1 = true -> is_action APPROVE_WRITE r2 = true ->
     thread_key r1 = thread_key r2 -> channel_id r1 = channel_id r2 -> thread_ts r1 = thread_ts r2 ->
     handle not_a_mapping sched tools cfg aid actions now cb r1 o =
     handle not_a_mapping sched tools cfg aid actions now cb r2 o) /\
  let write_a := write_to "a" "{}" in
  let write_b := write_to "b" "{}" in
  let script := [calls [write_a]; calls [write_b]; part "written" "stop"] in
  let o1 := scripted_handle (says "write a") (fresh_orchestrator script) in
  let o2 := scripted_handle (says "write b") o1.2 in
  exists prompt_a prompt_b, o1.1 = inr prompt_a /\ o2.1 = inr prompt_b /\
    let o3 := scripted_handle (clicks_approve prompt_a) o2.2 in
    executed (env o3.2) = [write_b] /\
    o3.1 = inr (_shape_response (clicks_approve prompt_a) "written").
Proof.
  split.
  - intros W Hb Hg not_a_mapping sched tools cfg aid actions now cb r1 r2 o H1 H2 Hk Hc Ht.
    rewrite !handle_cases, H1, H2, <- Hk. unfold suppressed, _shape_response. rewrite <- Hc, <- Ht.
    destruct (pending_approvals o !! thread_key r1); [|done].
    destruct (has_agent_loop tools); [|done].
    destruct (execute_tool_calls _ _ _ _ _ _) as [[x|results] e]; [done|].
    unfold resume_run, _build_approval_response, _shape_response. by rewrite <- Hc, <- Ht, <- Hk.
  - eexists _, _. split; [vm_compute; reflexivity|]. split; [vm_compute; reflexivity|].
    split; vm_compute; reflexivity.
Qed.

(** Direct inference is bounded and joins the pieces.  Without tools, a
    request makes at most three inference calls, none of which offers
    tools, each with the original messages followed by every partial answer
    so far and the continuation prompt after it.  Only answers cut off by
    the token limit are continued; the result is the pieces joined, except
    that a last answer that is blank or filtered replaces all of them by the
    fallback text. *)
Theorem direct_inference_is_bounded {W} `{Backend W} cfg ms rid (e : Env W) :
  let out := _inference_with_repair cfg ms rid e in
  exists rs partials,
    requests out.2 = requests e ++ rs /\ executed out.2 = executed e /\ length rs <= 3 /\
    Forall (fun q => rq_tools q = None) rs /\
    Forall (fun r => truncated r = true) partials /\
    map rq_messages rs = map (request_messages ms (map rs_content partials)) (seq 0 (length rs)) /\
    direct_result 3 partials (length rs) out.1.
Proof.
  cbv zeta. destruct (attempts_direct cfg 3 rid ms [] e)
    as (rs & ps & (Hr & Hx & _) & Hl & HF & Hm & Ht & Hd).
  exists rs, ps. done.
Qed.

(** ** Witnesses *)

Definition two_prompts : Orchestrator (list InferenceResponse) :=
  (scripted_handle (says "write it")
     (fresh_orchestrator [calls [search_call; write_call]; part "done" "stop"])).2.

Definition approve_click : NormalizedRequest :=
  {| text := ""; channel_id := "C1"; source := "slack"; request_id := "r2"; thread_ts := Some "17.1";
     action := Some {| action_id := APPROVE_WRITE; value := "17.1" |} |}.

Lemma writes_need_their_click_witness :
  exists clicked others,
    executed (env (scripted_handle approve_click two_prompts).2) = [] ++ clicked ++ others /\
    (forall tc t, tc ∈ others -> get (tc_name tc) script_tools = Some t -> is_read_only t = true) /\
    clicked ≡ₚ [search_call; write_call].
Proof.
  apply (@writes_need_their_click _ scripted_backend (fun _ => "not a mapping")
    (@rev nat) script_tools sample_cfg "" None "2026-01-01 00:00 UTC" true approve_click two_prompts).
  - exact rev_perm.
  - intros fa Hfa. discriminate.
Defined.

Lemma pending_is_shown_witness :
  exists p, pending_approvals two_prompts !! "17.1" = Some p /\
    (scripted_handle (says "write it")
       (fresh_orchestrator [calls [search_call; write_call]; part "done" "stop"])).1
      = inr (_build_approval_response (says "write it") p).
Proof.
  destruct (@pending_is_shown _ scripted_backend write_approval
    (fun _ => "not a mapping") (@rev nat) script_tools sample_cfg "" None "2026-01-01 00:00 UTC" true
    (says "write it") (fresh_orchestrator [calls [search_call; write_call]; part "done" "stop"])
    rev_perm eq_refl) as (_ & Hp & _).
  destruct (pending_approvals two_prompts !! "17.1") as [p|] eqn:Hl; [|vm_compute in Hl; discriminate].
  exists p. split; [reflexivity|].
  change (pending_approvals two_prompts !! "17.1") with
    (pending_approvals (scripted_handle (says "write it")
       (fresh_orchestrator [calls [search_call; write_call]; part "done" "stop"])).2
       !! thread_key (says "write it")) in Hl.
  unfold scripted_handle in Hl |- *. rewrite Hl in Hp. exact Hp.
Defined.

(** A request that the model cannot answer. *)
Lemma only_approvals_escape_witness :
  exists resp, (scripted_handle (says "hello") (fresh_orchestrator [])).1 = inr resp /\
    resp_channel_id resp = "C1" /\ resp_thread_ts resp = Some "17.1".
Proof.
  destruct only_approvals_escape as [H _].
  exact (H _ scripted_backend write_approval (fun _ => "not a mapping") (@rev nat) script_tools
           sample_cfg "" None "2026-01-01 00:00 UTC" true (says "hello") (fresh_orchestrator [])
           rev_perm eq_refl eq_refl).
Defined.

Lemma history_records_what_was_shown_witness :
  let out := scripted_handle approve_click two_prompts in
  history_of "17.1" (prompt out.2) = [text_message USER "write it"; text_message ASSISTANT "done"] /\
  (history_of "17.1" (prompt out.2) = history_of "17.1" (prompt two_prompts) \/
   exists reply, out.1 = inr (_shape_response approve_click reply)).
Proof.
  split; [vm_compute; reflexivity|].
  destruct (@history_records_what_was_shown _ scripted_backend write_approval
    (fun _ => "not a mapping") (@rev nat) script_tools sample_cfg "" None "2026-01-01 00:00 UTC" true
    approve_click two_prompts "17.1" rev_perm ltac:(reflexivity)) as [Hh|(_ & reply & Hr & _)].
  - left. exact Hh.
  - right. exists reply. exact Hr.
Defined.
