(* ===== verification/Regex.v ===== *)
(** * Regex

    The fragment of Python's [re] the program uses: a pattern is a sequence of
    character classes, greedy or lazy repetitions of a class, capture groups
    and line anchors, matched by backtracking in Python's order. *)

From S2P Require Import Prelude.
From Stdlib Require Import Ascii.

Definition newline_char : ascii := ascii_of_nat 10.

Inductive item :=
| One (p : ascii -> bool)
| Rep (greedy : bool) (least : nat) (most : option nat) (p : ascii -> bool)
| Open (n : nat)
| Close
| LineStart
| LineEnd.

(** The literal text [s]. *)
Fixpoint literal (s : string) : list item :=
  match s with
  | EmptyString => []
  | String c s => One (Ascii.eqb c) :: literal s
  end.

(** The classes [.], [\s] (its ASCII part) and [[^c]]. *)
Definition dot (c : ascii) : bool := negb (Ascii.eqb c newline_char).
Definition any (c : ascii) : bool := true.
Definition space_class (c : ascii) : bool := is_space c.
Definition not_char (d c : ascii) : bool := negb (Ascii.eqb c d).

(** Where a match stands: the character before, the group being read and the
    groups read. *)
Record Progress := {
  before : option ascii;
  reading : option (nat * string);
  groups : list (nat * string)
}.

Definition start_at (before : option ascii) : Progress :=
  {| before := before; reading := None; groups := [] |}.

Definition consume (c : ascii) (g : Progress) : Progress :=
  {| before := Some c;
     reading := option_map (fun r : nat * string => (r.1, r.2 +:+ String c EmptyString)) (reading g);
     groups := groups g |}.

Definition open_group (n : nat) (g : Progress) : Progress :=
  {| before := before g; reading := Some (n, EmptyString); groups := groups g |}.

Definition close_group (g : Progress) : Progress :=
  {| before := before g; reading := None;
     groups := match reading g with Some r => r :: groups g | None => groups g end |}.

Definition at_line_start (g : Progress) : bool :=
  match before g with Some c => Ascii.eqb c newline_char | None => true end.

Definition at_line_end (s : string) : bool :=
  match s with EmptyString => true | String c _ => Ascii.eqb c newline_char end.

Definition below (n : nat) (most : option nat) : bool :=
  match most with Some m => (n <? m)%nat | None => true end.

Section repetition.
Context (greedy : bool) (least : nat) (most : option nat) (p : ascii -> bool).
(** How the rest of the pattern matches. *)
Context (rest : string -> Progress -> option (string * Progress)).

Definition stop (n : nat) (s : string) (g : Progress) : option (string * Progress) :=
  if (least <=? n)%nat then rest s g else None.

Fixpoint repeat_match (n : nat) (s : string) (g : Progress) : option (string * Progress) :=
  match s with
  | EmptyString => stop n s g
  | String c s' =>
      if p c && below n most then
        if greedy then
          match repeat_match (S n) s' (consume c g) with
          | Some r => Some r
          | None => stop n s g
          end
        else
          match stop n s g with
          | Some r => Some r
          | None => repeat_match (S n) s' (consume c g)
          end
      else stop n s g
  end.
End repetition.

(** What is left after the match and its groups. *)
Fixpoint match_here (pattern : list item) : string -> Progress -> option (string * Progress) :=
  match pattern with
  | [] => fun s g => Some (s, g)
  | One p :: pattern => fun s g =>
      match s with
      | String c s' => if p c then match_here pattern s' (consume c g) else None
      | EmptyString => None
      end
  | Rep greedy least most p :: pattern =>
      repeat_match greedy least most p (match_here pattern) 0
  | Open n :: pattern => fun s g => match_here pattern s (open_group n g)
  | Close :: pattern => fun s g => match_here pattern s (close_group g)
  | LineStart :: pattern => fun s g => if at_line_start g then match_here pattern s g else None
  | LineEnd :: pattern => fun s g => if at_line_end s then match_here pattern s g else None
  end.

Fixpoint group_text (n : nat) (gs : list (nat * string)) : string :=
  match gs with
  | [] => EmptyString
  | (m, t) :: gs => if (m =? n)%nat then t else group_text n gs
  end.

(** [pattern.sub(replace, s)] for a pattern that matches no empty text; [skip]
    characters belong to the last match. *)
Fixpoint sub_from (pattern : list item) (replace : (nat -> string) -> string)
  (before : option ascii) (skip : nat) (s : string) : string :=
  match s with
  | EmptyString => EmptyString
  | String c s' =>
      match skip with
      | S k => sub_from pattern replace (Some c) k s'
      | O =>
          match match_here pattern s (start_at before) with
          | Some (after, g) =>
              replace (fun n => group_text n (groups g)) +:+
              sub_from pattern replace (Some c)
                (String.length s - String.length after - 1)%nat s'
          | None => String c (sub_from pattern replace (Some c) 0 s')
          end
      end
  end.

Definition sub (pattern : list item) (replace : (nat -> string) -> string) (s : string) : string :=
  sub_from pattern replace None 0 s.

(** [pattern.search(s)] as a test. *)
Fixpoint search_from (pattern : list item) (before : option ascii) (s : string) : bool :=
  match match_here pattern s (start_at before) with
  | Some _ => true
  | None => match s with
            | EmptyString => false
            | String c s' => search_from pattern (Some c) s'
            end
  end.
