(* ===== verification/Slack.v ===== *)
(** * Slack

    What the Slack connector shows ([connectors/slack/connector.py]): Markdown
    to mrkdwn, the cutting of long texts, Block Kit blocks and the rendering
    of responses; and what it reads: events, button clicks and the requests
    made of them.  A block is the JSON object handed to Slack. *)

From Stdlib Require Import Ascii.
From S2P Require Import Prelude Json AgentTypes Connector Registry Regex.

Definition _SLACK_SECTION_TEXT_LIMIT : Z := 2900.
Definition _SLACK_MAX_TEXTBLOCK_CHUNKS : nat := 40.
Definition _SLACK_FALLBACK_TEXT_LIMIT : Z := 3000.

(** ** Text *)

Definition _HEADING_RE : list item :=
  LineStart :: Rep true 1 (Some 6%nat) (Ascii.eqb "#") :: Rep true 1 None space_class ::
  Open 1 :: Rep true 1 None dot :: Close :: LineEnd :: [].

Definition _BOLD_RE : list item :=
  literal "**" ++ Open 1 :: Rep false 1 None dot :: Close :: literal "**".

Definition _LINK_RE : list item :=
  literal "[" ++ Open 1 :: Rep true 1 None (not_char "]") :: Close ::
  literal "](" ++ Open 2 :: Rep true 1 None (not_char ")") :: Close :: literal ")".

Definition _to_slack_markdown (text : string) : string :=
  let text := sub _HEADING_RE (fun g => "*" +:+ g 1%nat +:+ "*") text in
  let text := sub _BOLD_RE (fun g => "*" +:+ g 1%nat +:+ "*") text in
  sub _LINK_RE (fun g => "<" +:+ g 2%nat +:+ "|" +:+ g 1%nat +:+ ">") text.

(** [s[n:]] for [0 <= n] *)
Fixpoint drop_chars (n : Z) (s : string) : string :=
  match s with
  | EmptyString => EmptyString
  | String c s' =>
      if is_continuation c then drop_chars n s'
      else if (n <=? 0)%Z then s
           else drop_chars (n - 1) s'
  end.

(** [s.rfind(p)], [at_] characters into a longer text *)
Fixpoint rfind_from (p : string) (at_ : Z) (s : string) : Z :=
  match s with
  | EmptyString => if String.prefix p s then at_ else -1
  | String c s' =>
      let later := rfind_from p (at_ + (if is_continuation c then 0 else 1)) s' in
      if (0 <=? later)%Z then later else if String.prefix p s then at_ else -1
  end.

Definition rfind (p s : string) : Z := rfind_from p 0 s.

Definition paragraph_break : string := newline +:+ newline.

(** Where the window of [limit] characters is cut. *)
Definition split_at (limit : Z) (remaining : string) : Z :=
  let window := take_chars limit remaining in
  let at_ := rfind paragraph_break window in
  let at_ := if (at_ <=? 0)%Z then rfind newline window else at_ in
  let at_ := if (at_ <=? 0)%Z then rfind " " window else at_ in
  if (at_ <=? 0)%Z then limit else at_.

(** The [while] loop; [None] when it has not ended after [fuel] rounds. *)
Fixpoint split_loop (fuel : nat) (limit : Z) (chunks : list string) (remaining : string)
  : option (list string) :=
  if (py_len remaining <=? limit)%Z then
    Some (if str_truthy remaining then chunks ++ [remaining] else chunks)
  else
    match fuel with
    | O => None
    | S fuel =>
        let at_ := split_at limit remaining in
        let chunk := rstrip (take_chars at_ remaining) in
        let chunks := if str_truthy chunk then chunks ++ [chunk] else chunks in
        split_loop fuel limit chunks (lstrip (drop_chars at_ remaining))
    end.

Definition _split_text_for_slack (text : string) (limit : Z) : option (list string) :=
  if (py_len text <=? limit)%Z then Some [text]
  else split_loop (Z.to_nat (py_len text)) limit [] text.

(** ** Block Kit *)

Definition mrkdwn (text : string) : json := JObj [("type", JStr "mrkdwn"); ("text", JStr text)].
Definition plain_text (text : string) : json :=
  JObj [("type", JStr "plain_text"); ("text", JStr text)].

Definition _section (text : string) : json :=
  JObj [("type", JStr "section"); ("text", mrkdwn text)].
Definition _plain_section (text : string) : json :=
  JObj [("type", JStr "section"); ("text", plain_text text)].
Definition _context (texts : list string) : json :=
  JObj [("type", JStr "context"); ("elements", JArr (map mrkdwn texts))].
Definition _header (text : string) : json :=
  JObj [("type", JStr "header"); ("text", plain_text text)].
Definition DIVIDER : json := JObj [("type", JStr "divider")].

Definition button (label action_id : string) (style : option string) (value : string) : json :=
  JObj ([("type", JStr "button"); ("text", plain_text label);
         ("action_id", JStr action_id); ("value", JStr value)] ++
        if opt_truthy style then [("style", JStr (default "" style))] else []).

Definition _button_actions (buttons : list (string * string * option string * string)) : json :=
  JObj [("type", JStr "actions");
        ("elements", JArr (map (fun '(label, action_id, style, value) =>
                                  button label action_id style value) buttons))].

Definition thinking_blocks : list json :=
  [_section ":hourglass_flowing_sand: *Thinking…*"].

(** ** Rendering *)

Definition TRUNCATED_CHUNK : string :=
  ":warning: _Response truncated — too long to display in full._".

Definition capped_chunks (chunks : list string) : list string :=
  if (_SLACK_MAX_TEXTBLOCK_CHUNKS <? length chunks)%nat
  then take (_SLACK_MAX_TEXTBLOCK_CHUNKS - 1) chunks ++ [TRUNCATED_CHUNK]
  else chunks.

Definition _render_confirm (title text confirm_label deny_label action_id : string) : json :=
  JObj [("type", JStr "section"); ("text", mrkdwn text);
        ("accessory", JObj
          [("type", JStr "button"); ("text", plain_text confirm_label);
           ("action_id", JStr action_id); ("style", JStr "danger");
           ("confirm", JObj [("title", plain_text title); ("text", mrkdwn text);
                             ("confirm", plain_text confirm_label);
                             ("deny", plain_text deny_label)])])].

Definition _render_field (field : FormField) : json :=
  let required_marker := if ff_required field then " \*" else "" in
  let options := default [] (ff_options field) in
  if String.eqb (ff_field_type field) "select" && negb (bool_decide (options = [])) then
    JObj [("type", JStr "section");
          ("text", mrkdwn ("*" +:+ ff_label field +:+ "*" +:+ required_marker));
          ("accessory", JObj
            [("type", JStr "static_select");
             ("placeholder", plain_text ("Choose " +:+ lower (ff_label field) +:+ "…"));
             ("action_id", JStr (ff_field_id field));
             ("options", JArr (map (fun opt => JObj [("text", plain_text opt);
                                                     ("value", JStr opt)]) options))])]
  else
    let hint := if bool_decide (ff_field_type field ∈ ["text"; "multiline"])
                then "Reply in this thread with your response."
                else "_" +:+ ff_field_type field +:+ "_" in
    _section ("*" +:+ ff_label field +:+ "*" +:+ required_marker +:+ newline +:+ hint).

Definition _render_form (title : string) (fields : list FormField) (submit_action_id : string)
  : list json :=
  (if str_truthy title then [_header title] else []) ++
  map _render_field fields ++
  (if str_truthy submit_action_id
   then [_button_actions [("Submit", submit_action_id, Some "primary", "")]] else []).

Definition _render_text (section_builder : string -> json) (text : string)
  : option (list json) :=
  chunks ← _split_text_for_slack text _SLACK_SECTION_TEXT_LIMIT;
  Some (map section_builder (capped_chunks chunks)).

(** [None] stands for a cutting loop that does not end. *)
Definition _render_block (block : ResponseBlock) : option (list json) :=
  match block with
  | TextBlock text => _render_text _section (_to_slack_markdown text)
  | PlainTextBlock text => _render_text _plain_section text
  | ActionBlock actions =>
      Some [_button_actions (map (fun btn => (label btn, btn_action_id btn, btn_style btn,
                                              btn_value btn)) actions)]
  | ConfirmBlock title text confirm_label deny_label action_id =>
      Some [_render_confirm title text confirm_label deny_label action_id]
  | FormBlock title fields submit_action_id => Some (_render_form title fields submit_action_id)
  | UnknownBlock shown => Some [_section shown]
  end.

Fixpoint render_blocks (bs : list ResponseBlock) : option (list json) :=
  match bs with
  | [] => Some []
  | b :: bs => rendered ← _render_block b; rest ← render_blocks bs; Some (rendered ++ rest)
  end.

Definition render (response : RichResponse) : option (list json) :=
  render_blocks (blocks response).

Definition cut_fallback (text : string) : string :=
  if (_SLACK_FALLBACK_TEXT_LIMIT <? py_len text)%Z
  then py_prefix (_SLACK_FALLBACK_TEXT_LIMIT - 1) text +:+ "…" else text.

Fixpoint first_text (bs : list ResponseBlock) : string :=
  match bs with
  | [] => "…"
  | TextBlock text :: _ | PlainTextBlock text :: _ => cut_fallback text
  | _ :: bs => first_text bs
  end.

Definition _extract_fallback_text (response : RichResponse) : string :=
  first_text (blocks response).

(** The App Home tab. *)
Definition quoted (s : string) : string := dquote +:+ s +:+ dquote.

Definition lines_text (l : list string) : string := String.concat newline l.

Definition _build_home_blocks : list json :=
  [_header ":robot_face: dbot";
   _section ("Your AI-powered assistant for developer services — " +:+
             "Jira, Confluence, Slack, GitLab, Gerrit, and more.");
   DIVIDER;
   _header ":sparkles: What can I do?";
   _section (lines_text
     [":mag: *Search & lookup*";
      "_" +:+ quoted "What are my open Jira tickets?" +:+ "_";
      "_" +:+ quoted "Show me AVPC-61317" +:+ "_";
      "_" +:+ quoted "Find Confluence pages about deployment" +:+ "_"]);
   _section (lines_text
     [":hammer_and_wrench: *Take action*";
      "_" +:+ quoted "Create a Jira ticket for ..." +:+ "_";
      "_" +:+ quoted "Transition AVPC-12345 to In Review" +:+ "_";
      "_" +:+ quoted "Post a summary to #my-channel" +:+ "_"]);
   _section (lines_text
     [":brain: *Analyze & summarize*";
      "_" +:+ quoted "Summarize the last sprint's tickets" +:+ "_";
      "_" +:+ quoted "What changed in CL 12345?" +:+ "_"]);
   DIVIDER;
   _header ":rocket: Getting started";
   _section ("Just send me a DM or mention *@dbot* in any channel. " +:+
             "I'll figure out which tools to use and ask for approval " +:+
             "before taking any write actions.");
   DIVIDER;
   _context ["Built with NemoClaw Escapades  :zap:  Powered by nv-tools"]].

(** ** Events

    The fields of a [message] or [app_mention] event the connector reads,
    [None] where the event does not have the field. *)
Record Event := {
  ev_subtype : option string;
  ev_bot_id : option string;
  ev_user : option string;
  ev_text : option string;
  ev_channel : option string;
  ev_ts : option string;
  ev_thread_ts : option string
}.

Definition _IGNORED_MESSAGE_SUBTYPES : list string :=
  ["bot_message"; "message_changed"; "message_deleted";
   "channel_join"; "channel_leave"; "group_join"; "group_leave"; "channel_topic";
   "channel_purpose"; "channel_name"; "channel_archive"; "channel_unarchive"].

Definition _should_ignore (bot_user_id : option string) (e : Event) : bool :=
  match ev_subtype e with
  | Some subtype => bool_decide (subtype ∈ _IGNORED_MESSAGE_SUBTYPES)
  | None => false
  end
  || opt_truthy (ev_bot_id e)
  || (opt_truthy bot_user_id && bool_decide (ev_user e = bot_user_id)).

(** [a or b] of two optional values *)
Definition or_else (a b : option string) : option string := if opt_truthy a then a else b.

(** A request as the connector holds it: with the [ts] of the message whose
    button was clicked ([raw_event["message"]["ts"]]). *)
Record Inbound := {
  request : NormalizedRequest;
  clicked_ts : option string
}.

Definition _normalize (rid : string) (e : Event) : Inbound :=
  {| request := {| text := default "" (ev_text e); channel_id := default "" (ev_channel e);
                   source := "slack"; request_id := rid;
                   thread_ts := or_else (ev_thread_ts e) (ev_ts e); action := None |};
     clicked_ts := None |}.

(** A [block_actions] payload: its actions with their [action_id] and
    [value], the [channel] as parsed, and the [thread_ts] and [ts] of its
    message. *)
Record ActionBody := {
  ab_actions : option (list (option string * option string));
  ab_channel : option json;
  ab_message_thread_ts : option string;
  ab_message_ts : option string
}.

Definition channel_of (channel : option json) : string :=
  match channel with
  | None => ""
  | Some (JObj o) => match obj_get "id" o with Some v => json_str v | None => "" end
  | Some v => json_str v
  end.

Definition _normalize_action (rid : string) (b : ActionBody) : Inbound :=
  let action_data := match ab_actions b with Some (a :: _) => a | _ => (None, None) end in
  {| request := {| text := default "" action_data.2; channel_id := channel_of (ab_channel b);
                   source := "slack"; request_id := rid;
                   thread_ts := or_else (ab_message_thread_ts b) (ab_message_ts b);
                   action := Some {| action_id := default "" action_data.1;
                                     value := default "" action_data.2 |} |};
     clicked_ts := ab_message_ts b |}.

(** ** Approval prompts and clicks *)

Definition _is_approval_prompt (response : RichResponse) : bool :=
  existsb (fun block => match block with
                        | ActionBlock actions =>
                            existsb (fun btn => String.eqb (btn_action_id btn) APPROVE_WRITE) actions
                        | _ => false
                        end) (blocks response).

(** [_APPROVAL_CLICK_UI.get(action_id)] *)
Definition _APPROVAL_CLICK_UI (id : string) : option (string * string) :=
  if String.eqb id APPROVE_WRITE then Some (":white_check_mark:", "Approved — executing")
  else if String.eqb id DENY_WRITE then Some (":x:", "Denied")
  else None.

Definition _approval_click_ui (r : NormalizedRequest) : option (string * string) :=
  a ← action r; _APPROVAL_CLICK_UI (action_id a).

Definition _is_approval_click (r : NormalizedRequest) : bool :=
  match action r with
  | Some a => bool_decide (action_id a ∈ [APPROVE_WRITE; DENY_WRITE])
  | None => false
  end.
