(* ===== verification/SlackTheorems.v ===== *)
(** * SlackTheorems

    Texts are cut within Slack's limits and lose only whitespace; every
    response is rendered within them. *)

From Stdlib Require Import Ascii.
From S2P Require Import Prelude Json AgentTypes Connector Slack.

(** ** Strings *)

(** The characters of [s] that are not whitespace. *)
Fixpoint visible_from (fuel : nat) (s : string) : string :=
  match s, fuel with
  | String c s', S fuel =>
      match after_space s with
      | Some r => visible_from fuel r
      | None => String c (visible_from fuel s')
      end
  | _, _ => EmptyString
  end.

Definition visible (s : string) : string := visible_from (String.length s) s.

Fixpoint joined (l : list string) : string :=
  match l with [] => EmptyString | s :: l => s +:+ joined l end.

Lemma visible_fuel n m s :
  String.length s <= n -> String.length s <= m -> visible_from n s = visible_from m s.
Proof.
  revert m s. induction n as [|n IH]; intros m s Hn Hm.
  { destruct s; [by destruct m|simpl in Hn; lia]. }
  destruct m as [|m]; [destruct s; [done|simpl in Hm; lia]|]. destruct s as [|c s]; [done|].
  cbn [visible_from]. destruct (after_space (String c s)) as [r|] eqn:Hr.
  - apply after_space_shorter in Hr. apply IH; lia.
  - f_equal. simpl in *. apply IH; lia.
Qed.

Lemma visible_eq s :
  visible s = match after_space s with
              | Some r => visible r
              | None => match s with EmptyString => EmptyString | String c s' => String c (visible s') end
              end.
Proof.
  unfold visible. destruct s as [|c s]; [done|]. cbn [String.length visible_from].
  destruct (after_space (String c s)) as [r|] eqn:Hr; [|done].
  apply after_space_shorter in Hr. simpl in Hr. apply visible_fuel; lia.
Qed.

Lemma visible_app a b : starts_char b -> visible (a +:+ b) = visible a +:+ visible b.
Proof.
  intros Hb. induction a as [a IH] using space_ind. destruct a as [|c a]; [done|].
  rewrite (visible_eq (String c a)), (visible_eq (String c a +:+ b)), after_space_app by done.
  destruct (after_space (String c a)) as [r|] eqn:Hr; simpl.
  - by apply IH, after_space_shorter.
  - rewrite string_app_cons. f_equal. apply IH. simpl. lia.
Qed.

Lemma joined_app k l : joined (k ++ l) = joined k +:+ joined l.
Proof. induction k as [|s k IH]; [done|]. simpl. by rewrite IH, string_app_assoc. Qed.

Lemma visible_lstrip s : visible (lstrip s) = visible s.
Proof.
  induction s as [s IH] using space_ind. rewrite lstrip_eq.
  destruct (after_space s) as [r|] eqn:Hr; [|done]. rewrite (visible_eq s), Hr.
  by apply IH, after_space_shorter.
Qed.

Lemma visible_all_space s : all_space s = true <-> visible s = "".
Proof.
  induction s as [s IH] using space_ind. rewrite all_space_eq, visible_eq.
  destruct (after_space s) as [r|] eqn:Hr; [by apply IH, after_space_shorter|].
  by destruct s.
Qed.

Lemma visible_rstrip s : visible (rstrip s) = visible s.
Proof.
  destruct (rstrip_split s) as (t & Hs & Ht). rewrite Hs at 2.
  rewrite visible_app by (by apply all_space_starts). apply visible_all_space in Ht as ->.
  by rewrite string_app_nil_r.
Qed.

Lemma take_drop_chars n s : take_chars n s +:+ drop_chars n s = s.
Proof.
  revert n; induction s as [|c s IH]; intros n; [done|]. simpl.
  destruct (is_continuation c); [by rewrite string_app_cons, IH|].
  destruct (n <=? 0)%Z; [done|]. by rewrite string_app_cons, IH.
Qed.

Lemma drop_chars_starts n s : starts_char (drop_chars n s).
Proof.
  revert n; induction s as [|c s IH]; intros n; [done|]. simpl.
  destruct (is_continuation c) eqn:Hc; [done|]. by destruct (n <=? 0)%Z.
Qed.

Lemma py_len_lstrip s : (py_len (lstrip s) <= py_len s)%Z.
Proof.
  induction s as [s IH] using space_ind. rewrite lstrip_eq.
  destruct (after_space s) as [r|] eqn:Hr; [|done]. specialize (IH r (after_space_shorter _ _ Hr)).
  apply after_space_split in Hr as (w & -> & _). rewrite py_len_app. pose proof (py_len_nonneg w). lia.
Qed.

Lemma py_len_rstrip s : (py_len (rstrip s) <= py_len s)%Z.
Proof.
  destruct (rstrip_split s) as (t & Hs & _). rewrite Hs at 2. rewrite py_len_app.
  pose proof (py_len_nonneg t). lia.
Qed.

Lemma rfind_from_bound p a s :
  (0 <= a)%Z -> (rfind_from p a s <= a + py_len s)%Z.
Proof.
  revert a; induction s as [|c s IH]; intros a Ha; cbn [rfind_from py_len].
  - destruct (String.prefix p ""); lia.
  - set (w := if is_continuation c then 0%Z else 1%Z).
    assert (Hw : (0 <= w)%Z) by (unfold w; destruct (is_continuation c); lia).
    specialize (IH (a + w)%Z ltac:(lia)). pose proof (py_len_nonneg s).
    destruct (0 <=? rfind_from p (a + w) s)%Z; [lia|].
    destruct (String.prefix p (String c s)); lia.
Qed.

Lemma rstrip_visible s : str_truthy (rstrip s) = true -> visible (rstrip s) <> "".
Proof.
  intros Ht Hv. rewrite visible_rstrip in Hv. apply visible_all_space in Hv.
  destruct s as [|c s]; [discriminate|]. cbn [rstrip] in Ht. by rewrite Hv in Ht.
Qed.

Lemma lstrip_head s : after_space (lstrip s) = None.
Proof.
  induction s as [s IH] using space_ind. rewrite lstrip_eq.
  destruct (after_space s) as [r|] eqn:Hr; [|done]. by apply IH, after_space_shorter.
Qed.

Lemma lstrip_visible s : str_truthy (lstrip s) = true -> visible (lstrip s) <> "".
Proof. intros Ht. rewrite visible_eq, lstrip_head. by destruct (lstrip s). Qed.

Lemma lstrip_idem s : lstrip (lstrip s) = lstrip s.
Proof. by rewrite lstrip_eq, lstrip_head. Qed.

(** ** Cutting *)

Section cutting.
Context (limit : Z) (Hlimit : (0 < limit)%Z).

Lemma split_at_bounds s :
  (limit < py_len s)%Z -> (0 < split_at limit s <= limit)%Z.
Proof.
  intros Hs. unfold split_at.
  assert (Hw : py_len (take_chars limit s) = limit) by (rewrite py_len_take; lia).
  pose proof (rfind_from_bound paragraph_break 0 (take_chars limit s)) as H1.
  pose proof (rfind_from_bound newline 0 (take_chars limit s)) as H2.
  pose proof (rfind_from_bound " " 0 (take_chars limit s)) as H3.
  unfold rfind. rewrite Hw in *. repeat case_if; lia.
Qed.

(** A chunk that may be posted. *)
Definition fits (c : string) : Prop := visible c <> "" /\ (py_len c <= limit)%Z.

Lemma split_loop_spec fuel chunks s :
  (py_len s <= Z.of_nat fuel)%Z -> (limit < py_len s)%Z \/ lstrip s = s ->
  exists out, split_loop fuel limit chunks s = Some (chunks ++ out) /\
              Forall fits out /\ joined (map visible out) = visible s.
Proof.
  revert chunks s; induction fuel as [|fuel IH]; intros chunks s Hs Hin; cbn [split_loop].
  all: destruct (Z.leb_spec (py_len s) limit) as [Hle|Hgt].
  1, 3: destruct Hin as [|Hin]; [lia|]; destruct (str_truthy s) eqn:Ht;
    [exists [s]; split_and!; [done| |simpl; apply string_app_nil_r]
    |exists []; rewrite app_nil_r; split_and!; [done|constructor|];
     destruct s; [done|discriminate Ht]].
  1, 2: rewrite <- Hin in Ht; apply lstrip_visible in Ht; rewrite Hin in Ht; by repeat constructor.
  { lia. }
  pose proof (split_at_bounds s Hgt) as Hat. set (a := split_at limit s) in *.
  set (chunk := rstrip (take_chars a s)).
  pose proof (take_drop_chars a s) as Htd.
  assert (Hlen : py_len s = (py_len (take_chars a s) + py_len (drop_chars a s))%Z)
    by (rewrite <- py_len_app; by f_equal).
  rewrite py_len_take in Hlen by lia.
  pose proof (py_len_lstrip (drop_chars a s)).
  destruct (IH (if str_truthy chunk then chunks ++ [chunk] else chunks)
               (lstrip (drop_chars a s))) as (out & Hout & Hf & Hj);
    [lia|right; apply lstrip_idem|].
  assert (Hc : (py_len chunk <= limit)%Z)
    by (unfold chunk; pose proof (py_len_rstrip (take_chars a s));
        rewrite py_len_take in * by lia; lia).
  assert (Hv : visible chunk +:+ visible (lstrip (drop_chars a s)) = visible s)
    by (unfold chunk; rewrite visible_rstrip, visible_lstrip, <- visible_app by apply drop_chars_starts; by f_equal).
  destruct (str_truthy chunk) eqn:Ht.
  - exists (chunk :: out). rewrite Hout, <- app_assoc. split_and!; [done| |].
    + constructor; [|done]. split; [by apply rstrip_visible|done].
    + simpl. by rewrite Hj.
  - exists out. split_and!; [done..|].
    destruct chunk; [by rewrite Hj|discriminate Ht].
Qed.
End cutting.

Lemma split_total limit text :
  (0 < limit)%Z ->
  exists chunks,
    _split_text_for_slack text limit = Some chunks /\
    Forall (fun c => py_len c <= limit)%Z chunks /\
    joined (map visible chunks) = visible text /\
    (limit < py_len text -> Forall (fun c => visible c <> "") chunks)%Z /\
    (py_len text <= limit -> chunks = [text])%Z.
Proof.
  intros Hl. unfold _split_text_for_slack. destruct (Z.leb_spec (py_len text) limit) as [H|H].
  - exists [text]. split_and!; [done|by repeat constructor|simpl; apply string_app_nil_r|lia|done].
  - pose proof (py_len_nonneg text).
    destruct (split_loop_spec limit Hl (Z.to_nat (py_len text)) [] text) as (out & -> & Hf & Hj);
      [lia|by left|].
    exists out. split_and!; [done| |done| |lia]; [|intros _];
      (eapply List.Forall_impl; [|exact Hf]); by intros c [].
Qed.

(** C20: a text is cut into pieces that fit: the cutting always ends, no
    piece is longer than the limit and none of several is blank, the pieces
    hold the visible characters of the text in order and nothing else, a text
    within the limit is one piece, and only a text of nothing but whitespace
    over the limit leaves no piece. *)
Theorem text_is_cut_to_fit limit text :
  (0 < limit)%Z ->
  exists chunks,
    _split_text_for_slack text limit = Some chunks /\
    Forall (fun c => py_len c <= limit)%Z chunks /\
    joined (map visible chunks) = visible text /\
    (limit < py_len text -> Forall (fun c => visible c <> "") chunks)%Z /\
    (py_len text <= limit -> chunks = [text])%Z /\
    (chunks = [] <-> limit < py_len text /\ all_space text = true)%Z.
Proof.
  intros Hl. destruct (split_total limit text Hl) as (chunks & He & Hf & Hj & Ht & H1).
  exists chunks. split_and!; try done. split.
  - intros ->. split; [|by apply visible_all_space].
    destruct (Z.le_gt_cases (py_len text) limit) as [Hle|]; [|done].
    discriminate (H1 Hle).
  - intros [Hlen Hsp]. apply visible_all_space in Hsp. rewrite Hsp in Hj.
    destruct (Ht Hlen) as [|c l Hc _]; [done|]. simpl in Hj.
    by destruct (visible c).
Qed.

Lemma text_is_cut_to_fit_witness :
  (0 < 9)%Z /\
  exists chunks, _split_text_for_slack "one two three" 9 = Some chunks /\
                 Forall (fun c => py_len c <= 9)%Z chunks.
Proof.
  split; [lia|].
  destruct (text_is_cut_to_fit 9 "one two three" ltac:(lia)) as (c & H & H1 & _).
  exists c. exact (conj H H1).
Defined.

(** ** Block Kit

    Slack's types of blocks, as far as the connector uses them. *)

Definition has_type (t : string) (j : json) : bool :=
  match j with
  | JObj o => match obj_get "type" o with Some (JStr t') => String.eqb t t' | _ => false end
  | _ => false
  end.

Definition field_ok (k : string) (ok : option json -> bool) (j : json) : bool :=
  match j with JObj o => ok (obj_get k o) | _ => false end.

Definition is_str (v : option json) : bool := match v with Some (JStr _) => true | _ => false end.
Definition plain_ok (v : option json) : bool :=
  match v with Some j => has_type "plain_text" j && field_ok "text" is_str j | None => false end.
Definition text_ok (v : option json) : bool :=
  match v with
  | Some j => (has_type "plain_text" j || has_type "mrkdwn" j) && field_ok "text" is_str j
  | None => false
  end.
Definition all_ok (ok : option json -> bool) (v : option json) : bool :=
  match v with Some (JArr l) => forallb (fun j => ok (Some j)) l | _ => false end.
Definition absent_or (ok : option json -> bool) (v : option json) : bool :=
  match v with None => true | _ => ok v end.
Definition style_ok (v : option json) : bool :=
  match v with Some (JStr s) => String.eqb s "primary" || String.eqb s "danger" | _ => false end.

Definition option_ok (v : option json) : bool :=
  match v with Some j => field_ok "text" plain_ok j && field_ok "value" is_str j | None => false end.

Definition confirm_ok (v : option json) : bool :=
  match v with
  | Some j => field_ok "title" plain_ok j && field_ok "text" text_ok j &&
              field_ok "confirm" plain_ok j && field_ok "deny" plain_ok j
  | None => false
  end.

Definition element_ok (v : option json) : bool :=
  match v with
  | Some j =>
      field_ok "action_id" is_str j &&
      (has_type "button" j && field_ok "text" plain_ok j &&
       field_ok "value" (absent_or is_str) j && field_ok "style" (absent_or style_ok) j &&
       field_ok "confirm" (absent_or confirm_ok) j
       || has_type "static_select" j && field_ok "placeholder" plain_ok j &&
          field_ok "options" (all_ok option_ok) j)
  | None => false
  end.

Definition block_ok (j : json) : bool :=
  has_type "section" j && field_ok "text" text_ok j &&
  field_ok "accessory" (absent_or element_ok) j
  || has_type "header" j && field_ok "text" plain_ok j
  || has_type "actions" j && field_ok "elements" (all_ok element_ok) j
  || has_type "context" j && field_ok "elements" (all_ok text_ok) j
  || has_type "divider" j.

(** The styles Slack knows. *)
Definition button_ok (b : ActionButton) : Prop :=
  match btn_style b with
  | Some s => s = "" \/ s = "primary" \/ s = "danger"
  | None => True
  end.

Definition buttons_ok (b : ResponseBlock) : Prop :=
  match b with ActionBlock l => Forall button_ok l | _ => True end.

(** How many Slack blocks a block may take. *)
Definition budget (b : ResponseBlock) : nat :=
  match b with
  | TextBlock _ | PlainTextBlock _ => _SLACK_MAX_TEXTBLOCK_CHUNKS
  | ActionBlock _ | ConfirmBlock _ _ _ _ _ | UnknownBlock _ => 1
  | FormBlock _ fields _ => length fields + 2
  end.

Definition total_budget (bs : list ResponseBlock) : nat :=
  fold_right (fun b n => budget b + n)%nat 0%nat bs.

(** The text a section shows. *)
Definition section_text (j : json) : option string :=
  match j with
  | JObj o =>
      match obj_get "text" o with
      | Some (JObj t) => match obj_get "text" t with Some (JStr s) => Some s | _ => None end
      | _ => None
      end
  | _ => None
  end.

Definition section_fits (j : json) : Prop :=
  exists s, section_text j = Some s /\ (py_len s <= _SLACK_SECTION_TEXT_LIMIT)%Z.

Definition is_text_block (b : ResponseBlock) : bool :=
  match b with TextBlock _ | PlainTextBlock _ => true | _ => false end.

(** What one block becomes. *)
Definition rendered_ok (b : ResponseBlock) (js : list json) : Prop :=
  (length js <= budget b)%nat /\
  (buttons_ok b -> Forall (fun j => block_ok j = true) js) /\
  (is_text_block b = true -> Forall section_fits js).

Lemma capped_chunks_fit chunks :
  Forall (fun c => py_len c <= _SLACK_SECTION_TEXT_LIMIT)%Z chunks ->
  (length (capped_chunks chunks) <= _SLACK_MAX_TEXTBLOCK_CHUNKS)%nat /\
  Forall (fun c => py_len c <= _SLACK_SECTION_TEXT_LIMIT)%Z (capped_chunks chunks).
Proof.
  intros H. unfold capped_chunks.
  destruct (Nat.ltb_spec _SLACK_MAX_TEXTBLOCK_CHUNKS (length chunks)) as [Hl|Hl]; [|done].
  split.
  - rewrite length_app, length_take. cbn [length]. unfold _SLACK_MAX_TEXTBLOCK_CHUNKS in *. lia.
  - apply Forall_app. split; [by apply Forall_take|]. by repeat constructor.
Qed.

Lemma render_text_ok (f : string -> json) text :
  f = _section \/ f = _plain_section ->
  exists js, _render_text f text = Some js /\ (length js <= _SLACK_MAX_TEXTBLOCK_CHUNKS)%nat /\
             Forall (fun j => block_ok j = true) js /\ Forall section_fits js.
Proof.
  intros Hf. unfold _render_text.
  destruct (split_total _SLACK_SECTION_TEXT_LIMIT text ltac:(done)) as (chunks & -> & Hc & _).
  destruct (capped_chunks_fit chunks Hc) as [Hn Hlen]. simpl.
  eexists; split_and!; [done|by rewrite length_map| |]; apply Forall_map;
    (eapply List.Forall_impl; [|exact Hlen]); intros c Hc'; destruct Hf as [-> | ->]; try done;
    by exists c.
Qed.

Lemma all_elements_ok l :
  Forall button_ok l ->
  forallb (fun j => element_ok (Some j))
    (map (fun '(lb, id, st, v) => button lb id st v)
       (map (fun b => (label b, btn_action_id b, btn_style b, btn_value b)) l)) = true.
Proof.
  induction 1 as [|b l Hb _ IH]; [done|]. cbn [map forallb]. rewrite IH, andb_true_r.
  unfold button, button_ok in *. destruct (btn_style b) as [s|]; [|done].
  destruct Hb as [-> |[-> | ->]]; done.
Qed.

Lemma options_ok l :
  forallb (fun j => option_ok (Some j))
    (map (fun opt => JObj [("text", plain_text opt); ("value", JStr opt)]) l) = true.
Proof. by induction l. Qed.

Lemma render_field_ok f : block_ok (_render_field f) = true.
Proof.
  unfold _render_field. destruct (_ && _); [|by destruct (bool_decide _)].
  pose proof (options_ok (default [] (ff_options f))) as H.
  unfold block_ok, field_ok, absent_or, element_ok, all_ok. cbn -[forallb option_ok plain_text]. by rewrite H.
Qed.

Lemma render_form_ok title fields id :
  rendered_ok (FormBlock title fields id) (_render_form title fields id).
Proof.
  unfold _render_form. split_and!; [|intros _|done].
  - rewrite !length_app, length_map. cbn [budget].
    destruct (str_truthy title), (str_truthy id); simpl; lia.
  - rewrite !Forall_app. split_and!.
    + destruct (str_truthy title); by repeat constructor.
    + apply Forall_map, Forall_true. apply render_field_ok.
    + destruct (str_truthy id); by repeat constructor.
Qed.

Lemma render_block_ok b : exists js, _render_block b = Some js /\ rendered_ok b js.
Proof.
  destruct b as [t|t|l|? ? ? ? ?|title fields id|shown]; simpl.
  1, 2: edestruct render_text_ok as (js & Hj & Hn & Hb & Hs);
    [|exists js; split; [exact Hj|by split_and!]]; auto.
  - eexists; split; [done|]. split_and!; [done| |done].
    intros Hl. repeat constructor.
    pose proof (all_elements_ok l Hl) as H.
    unfold block_ok, field_ok, all_ok. cbn -[forallb element_ok button]. by rewrite H.
  - eexists; split; [done|]. split_and!; [done| |done]. by repeat constructor.
  - eexists; split; [done|]. apply render_form_ok.
  - eexists; split; [done|]. split_and!; [done| |done]. by repeat constructor.
Qed.

(** C35: rendering always ends and is well typed: every block is one of
    Slack's, with the fields and the button styles Slack's schema asks for;
    a response takes no more blocks than its parts may, forty for a text; and
    a text is shown in sections within the limit.  The App Home tab is well
    typed too. *)
Theorem responses_render_as_block_kit resp :
  Forall buttons_ok (blocks resp) ->
  (exists parts,
    render resp = Some (concat parts) /\
    Forall2 rendered_ok (blocks resp) parts /\
    (length (concat parts) <= total_budget (blocks resp))%nat /\
    Forall (fun j => block_ok j = true) (concat parts)) /\
  Forall (fun j => block_ok j = true) (_build_home_blocks ++ thinking_blocks).
Proof.
  intros Hb. split; [|by repeat constructor]. unfold render, total_budget.
  induction Hb as [|b bs Hb Hbs IH]; [by exists []; split_and!|].
  destruct IH as (parts & Hr & Hp & Hn & Hk).
  destruct (render_block_ok b) as (js & Hj & Hok). pose proof Hok as (Hl & Ht & _).
  exists (js :: parts). cbn [render_blocks concat map]. rewrite Hj, Hr. split_and!; [done| | |].
  - by constructor.
  - rewrite length_app. cbn [fold_right]. lia.
  - apply Forall_app. auto.
Qed.

Lemma responses_render_as_block_kit_witness :
  let resp := {| resp_channel_id := "C"; resp_thread_ts := None;
                 blocks := [TextBlock "**hi**";
                            ActionBlock [{| label := "Approve"; btn_action_id := APPROVE_WRITE;
                                            btn_value := "k"; btn_style := Some "primary" |}]];
                 error_category := None; suppress_post := false |} in
  Forall buttons_ok (blocks resp) /\ exists parts, render resp = Some (concat parts).
Proof.
  intros resp. assert (H : Forall buttons_ok (blocks resp)).
  { constructor; [exact I|]. constructor; [|constructor]. constructor; [|constructor].
    right; left; reflexivity. }
  split; [exact H|].
  destruct (responses_render_as_block_kit resp H) as ((parts & Hr & _) & _). by exists parts.
Defined.

Example renders_markdown :
  option_map (map section_text)
    (render {| resp_channel_id := "C"; resp_thread_ts := None;
               blocks := [TextBlock ("# Title" +:+ newline +:+ "see [docs](http://x) **now**")];
               error_category := None; suppress_post := false |}) =
  Some [Some ("*Title*" +:+ newline +:+ "see <http://x|docs> *now*")].
Proof. vm_compute. reflexivity. Qed.

(** A text of whitespace over the limit renders to no block at all. *)
Example blank_text_is_lost :
  let blanks := String.concat "" (repeat " " 3000) in
  render {| resp_channel_id := "C"; resp_thread_ts := None; blocks := [TextBlock blanks];
            error_category := None; suppress_post := false |} = Some [].
Proof. vm_compute. reflexivity. Qed.
