(* ===== verification/SlackConnector.v ===== *)
(** * SlackConnector

    The request pipeline of [SlackConnector]
    ([connectors/slack/connector.py], [_handle_with_thinking] and what it
    calls).  Bolt runs one task per event; a task is modelled by the call it
    awaits, its stretches between two awaits are the steps below, and the
    tasks interleave freely. *)

From S2P Require Import Prelude Json AgentTypes Connector Slack.

Definition _ERROR_WINDOW_S : Z := 60.
Definition _ERROR_MAX_PER_WINDOW : nat := 3.

(** The calls of the Slack client. *)
Inductive Call :=
| chat_postMessage (channel : string) (thread : option string) (text : string)
    (blocks : option (list json))
| chat_update (channel ts text : string) (blocks : option (list json))
| chat_delete (channel ts : string).

(** The await a task is suspended at. *)
Inductive Phase :=
(** [chat_update] of the clicked prompt *)
| Consuming
(** [chat_postMessage] of the placeholder *)
| PostingThinking
(** the handler, the placeholder's [ts] at hand *)
| Handling (thinking_ts : option string)
(** [chat_delete] of the placeholder, then the end *)
| Deleting
(** [chat_update] of the thread's previous prompt *)
| Superseding (thinking_ts : option string) (response : RichResponse)
(** [chat_update] of the placeholder *)
| Updating (thinking_ts : string) (response : RichResponse)
(** [chat_postMessage] of the response *)
| Posting (response : RichResponse).

Record Task := {
  inbound : Inbound;
  phase : Phase
}.

(** The mutable attributes of [SlackConnector] and its running tasks. *)
Record Connector := {
  error_timestamps : gmap string (list Z);
  thread_approval_msg : gmap string (string * string);
  approval_in_flight : gset string;
  tasks : gmap nat Task
}.

Definition start : Connector :=
  {| error_timestamps := ∅; thread_approval_msg := ∅; approval_in_flight := ∅; tasks := ∅ |}.

Definition set_error_timestamps t (c : Connector) : Connector :=
  {| error_timestamps := t; thread_approval_msg := thread_approval_msg c;
     approval_in_flight := approval_in_flight c; tasks := tasks c |}.
Definition set_thread_approval_msg m (c : Connector) : Connector :=
  {| error_timestamps := error_timestamps c; thread_approval_msg := m;
     approval_in_flight := approval_in_flight c; tasks := tasks c |}.
Definition set_in_flight s (c : Connector) : Connector :=
  {| error_timestamps := error_timestamps c; thread_approval_msg := thread_approval_msg c;
     approval_in_flight := s; tasks := tasks c |}.
Definition set_tasks t (c : Connector) : Connector :=
  {| error_timestamps := error_timestamps c; thread_approval_msg := thread_approval_msg c;
     approval_in_flight := approval_in_flight c; tasks := t |}.

Definition channel (i : Inbound) : string := channel_id (request i).

(** [thread_ts or f"{channel}:{request.request_id}"] *)
Definition slack_thread_key (i : Inbound) : string :=
  opt_or (thread_ts (request i)) (channel i +:+ ":" +:+ request_id (request i)).

Definition is_click (i : Inbound) : bool := _is_approval_click (request i).

(** [_is_error_rate_limited] *)
Definition recent (now : Z) (times : list Z) : list Z :=
  filter (fun t => now - t < _ERROR_WINDOW_S)%Z times ++ [now].

Definition _is_error_rate_limited (ch : string) (now : Z) (c : Connector) : bool * Connector :=
  let times := recent now (default [] (error_timestamps c !! ch)) in
  ((_ERROR_MAX_PER_WINDOW <? length times)%nat,
   set_error_timestamps (<[ch := times]> (error_timestamps c)) c).

(** What a task does next: the calls it makes and the await it reaches, or
    its end. *)
Definition Outcome : Type := Connector * list Call * option Phase.

(** [text or "…"] and [blocks if blocks else None] *)
Definition shown_text (t : string) : string := str_or t "…".
Definition shown_blocks (b : list json) : option (list json) :=
  match b with [] => None | _ => Some b end.

Definition post_thinking (i : Inbound) (c : Connector) : Outcome :=
  (c, [chat_postMessage (channel i) (thread_ts (request i)) "Thinking…" (Some thinking_blocks)],
   Some PostingThinking).

(** [_update_clicked_approval]: the call, when the click names its message. *)
Definition consumed_update (i : Inbound) : option Call :=
  '(icon, outcome) ← _approval_click_ui (request i);
  ts ← clicked_ts i;
  if str_truthy ts then
    Some (chat_update (channel i) ts (icon +:+ " " +:+ outcome)
            (Some [_section (icon +:+ " _" +:+ outcome +:+ "_")]))
  else None.

(** What follows the rewriting of the clicked prompt. *)
Definition after_consume (i : Inbound) (c : Connector) : Outcome :=
  post_thinking i (set_thread_approval_msg (delete (slack_thread_key i) (thread_approval_msg c)) c).

(** From the start of [_handle_with_thinking] to its first await. *)
Definition begin (i : Inbound) (c : Connector) : Outcome :=
  if is_click i then
    if decide (slack_thread_key i ∈ approval_in_flight c) then (c, [], None)
    else
      let c := set_in_flight ({[slack_thread_key i]} ∪ approval_in_flight c) c in
      match consumed_update i with
      | Some call => (c, [call], Some Consuming)
      | None => after_consume i c
      end
  else post_thinking i c.

Definition on_status (i : Inbound) (thinking_ts : option string) (status : string) : list Call :=
  match thinking_ts with
  | Some ts =>
      if str_truthy ts then
        [chat_update (channel i) ts status
           (Some [_section (":hourglass_flowing_sand: *" +:+ status +:+ "*")])]
      else []
  | None => []
  end.

Definition delete_thinking (i : Inbound) (thinking_ts : option string) (c : Connector) : Outcome :=
  match thinking_ts with
  | Some ts => if str_truthy ts then (c, [chat_delete (channel i) ts], Some Deleting)
               else (c, [], None)
  | None => (c, [], None)
  end.

(** [_post_message] *)
Definition post_response (i : Inbound) (thread : option string) (resp : RichResponse)
  (rendered : list json) (c : Connector) : Outcome :=
  (c, [chat_postMessage (channel i) thread (shown_text (_extract_fallback_text resp))
         (shown_blocks rendered)], Some (Posting resp)).

(** Steps 5 and 6 up to their await; [None] when rendering does not end. *)
Definition show (i : Inbound) (thinking_ts : option string) (resp : RichResponse) (c : Connector)
  : option Outcome :=
  rendered ← render resp;
  match thinking_ts with
  | Some ts =>
      if str_truthy ts then
        Some (c, [chat_update (channel i) ts (shown_text (_extract_fallback_text resp))
                    (shown_blocks rendered)], Some (Updating ts resp))
      else Some (post_response i (thread_ts (request i)) resp rendered c)
  | None => Some (post_response i (thread_ts (request i)) resp rendered c)
  end.

(** [_apply_approval_lifecycle], its second part, and what follows. *)
Definition supersede (i : Inbound) (thinking_ts : option string) (resp : RichResponse)
  (c : Connector) : option Outcome :=
  if _is_approval_prompt resp then
    match thread_approval_msg c !! slack_thread_key i with
    | Some (ch, ts) =>
        Some (set_thread_approval_msg (delete (slack_thread_key i) (thread_approval_msg c)) c,
              [chat_update ch ts "Superseded — see newer approval prompt below"
                 (Some [_section ":arrow_down: _Superseded — see newer approval prompt below._"])],
              Some (Superseding thinking_ts resp))
    | None => show i thinking_ts resp c
    end
  else show i thinking_ts resp c.

(** From the handler's return to the next await. *)
Definition respond (i : Inbound) (thinking_ts : option string) (resp : RichResponse) (now : Z)
  (c : Connector) : option Outcome :=
  let '(limited, c) :=
    match error_category resp with
    | Some _ => _is_error_rate_limited (channel i) now c
    | None => (false, c)
    end in
  if limited || suppress_post resp then Some (delete_thinking i thinking_ts c)
  else supersede i thinking_ts resp c.

(** Step 7. *)
Definition record_prompt (i : Inbound) (resp : RichResponse) (posted_ts : option string)
  (c : Connector) : Outcome :=
  (match posted_ts with
   | Some ts =>
       if _is_approval_prompt resp && str_truthy ts
       then set_thread_approval_msg
              (<[slack_thread_key i := (channel i, ts)]> (thread_approval_msg c)) c
       else c
   | None => c
   end, [], None).

(** The [finally] block, when the task has entered the [try] block. *)
Definition release (i : Inbound) (c : Connector) : Connector :=
  if is_click i then set_in_flight (approval_in_flight c ∖ {[slack_thread_key i]}) c else c.

(** Whether the task is past [_consume_approval_click_ui]. *)
Definition in_try (p : Phase) : bool := match p with Consuming => false | _ => true end.

(** What a task's await may bring: the Slack call succeeded, with the [ts]
    of a posted message, or was refused; the handler returned, at a time,
    raised, or reported its status; or the task was cancelled. *)
Inductive Event_at :=
| Sent (ts : option string)
| Refused
| Returned (resp : RichResponse) (now : Z)
| Raised
| Status (status : string)
| Cancelled.

(** [None] for an event the await cannot bring. *)
Definition resume (i : Inbound) (p : Phase) (e : Event_at) (c : Connector) : option Outcome :=
  match p, e with
  | _, Cancelled => Some (c, [], None)
  | Consuming, (Sent _ | Refused) => Some (after_consume i c)
  | PostingThinking, Sent ts => Some (c, [], Some (Handling ts))
  | PostingThinking, Refused => Some (c, [], Some (Handling None))
  | Handling thinking_ts, Status s => Some (c, on_status i thinking_ts s, Some p)
  | Handling thinking_ts, Returned resp now => respond i thinking_ts resp now c
  | Handling _, Raised => Some (c, [], None)
  | Deleting, (Sent _ | Refused) => Some (c, [], None)
  | Superseding thinking_ts resp, (Sent _ | Refused) => show i thinking_ts resp c
  | Updating ts resp, Sent _ => Some (record_prompt i resp (Some ts) c)
  | Updating _ resp, Refused =>
      rendered ← render resp; Some (post_response i None resp rendered c)
  | Posting resp, Sent ts => Some (record_prompt i resp ts c)
  | Posting resp, Refused => Some (record_prompt i resp None c)
  | _, _ => None
  end.

(** Store a task that goes on; run the [finally] block of one that ends. *)
Definition settle (n : nat) (i : Inbound) (entered : bool) (o : Outcome) : Connector * list Call :=
  let '(c, calls, next) := o in
  match next with
  | Some p => (set_tasks (<[n := {| inbound := i; phase := p |}]> (tasks c)) c, calls)
  | None =>
      let c := set_tasks (delete n (tasks c)) c in
      (if entered then release i c else c, calls)
  end.

Inductive Label :=
| Deliver (n : nat) (i : Inbound)
| Wake (n : nat) (e : Event_at).

(** One step: a new task is run to its first await, or a suspended one to
    its next. *)
Definition step (l : Label) (c : Connector) : option (Connector * list Call) :=
  match l with
  | Deliver n i =>
      match tasks c !! n with
      | Some _ => None
      | None => Some (settle n i false (begin i c))
      end
  | Wake n e =>
      t ← tasks c !! n;
      o ← resume (inbound t) (phase t) e c;
      Some (settle n (inbound t) (in_try (phase t)) o)
  end.

Fixpoint steps (ls : list Label) (c : Connector) : option (Connector * list Call) :=
  match ls with
  | [] => Some (c, [])
  | l :: ls =>
      '(c, calls) ← step l c;
      '(c, more) ← steps ls c;
      Some (c, calls ++ more)
  end.

(** [_on_event] and [on_action]: the label of an event that arrives, if it
    is not dropped. *)
Definition _on_event (bot_user_id : option string) (n : nat) (rid : string) (e : Event)
  : option Label :=
  if _should_ignore bot_user_id e then None else Some (Deliver n (_normalize rid e)).

Definition on_action (n : nat) (rid : string) (b : ActionBody) : Label :=
  Deliver n (_normalize_action rid b).
