(* ===== verification/SlackConnectorTheorems.v ===== *)
(** * SlackConnectorTheorems

    What the connector's pipeline promises under any interleaving of its
    tasks: one approval click of a thread at a time, a bounded number of
    error replies, an end for every request.

    The last part is the outer side of the connector: [start] and [stop], and
    the listeners registered with Bolt, over the request pipeline. *)

From Stdlib Require Import Sorted.
From stdpp Require Import sorting.
From S2P Require Import Prelude Json AgentTypes Connector Slack SlackTheorems SlackConnector.

Lemma steps_inv (P : Connector -> Prop) :
  (forall l c c' calls, P c -> step l c = Some (c', calls) -> P c') ->
  forall ls c c' calls, P c -> steps ls c = Some (c', calls) -> P c'.
Proof.
  intros Hstep ls. induction ls as [|l ls IH]; intros c c' calls Hc Hs; cbn [steps] in Hs.
  - by injection Hs as <- <-.
  - apply bind_Some in Hs as ([c1 k1] & H1 & Hs).
    apply bind_Some in Hs as ([c2 k2] & H2 & [= <- <-]). eauto.
Qed.

(** ** The error limiter *)

(** The error responses a run's handlers return: channel, time, and whether
    the limiter lets the reply through. *)
Fixpoint error_replies (ls : list Label) (c : Connector) : list (string * Z * bool) :=
  match ls with
  | [] => []
  | l :: ls =>
      match step l c with
      | None => []
      | Some (c', _) =>
          match l with
          | Wake n (Returned resp now) =>
              match tasks c !! n, error_category resp with
              | Some t, Some _ =>
                  [(channel (inbound t), now,
                    negb (_is_error_rate_limited (channel (inbound t)) now c).1)]
              | _, _ => []
              end
          | _ => []
          end ++ error_replies ls c'
      end
  end.

Definition reply_time (r : string * Z * bool) : Z := r.1.2.

(** The replies of channel [ch] let through in the window that ends at [t]. *)
Definition shown_within (ch : string) (t : Z) (r : string * Z * bool) : Prop :=
  r.1.1 = ch /\ r.2 = true /\ (t - _ERROR_WINDOW_S < reply_time r <= t)%Z.

#[export] Instance shown_within_dec ch t r : Decision (shown_within ch t r).
Proof. apply _. Defined.

Definition of_channel (ch : string) (l : list (string * Z * bool)) : list Z :=
  map reply_time (filter (fun r => r.1.1 = ch) l).

(** What the limiter remembers of past replies decides like all of them. *)
Definition remembers (past : list (string * Z * bool)) (c : Connector) : Prop :=
  forall ch now, Forall (fun r => reply_time r <= now)%Z past ->
    filter (fun t => now - t < _ERROR_WINDOW_S)%Z (default [] (error_timestamps c !! ch)) =
    filter (fun t => now - t < _ERROR_WINDOW_S)%Z (of_channel ch past).

Lemma of_channel_app ch l k : of_channel ch (l ++ k) = of_channel ch l ++ of_channel ch k.
Proof. unfold of_channel. by rewrite list.filter_app, map_app. Qed.

Lemma of_channel_one ch ch' now b :
  of_channel ch' [(ch, now, b)] = if decide (ch = ch') then [now] else [].
Proof. unfold of_channel. rewrite filter_cons. simpl. by destruct (decide (ch = ch')). Qed.

Lemma filter_twice (l : list Z) (now now' : Z) :
  (now <= now')%Z ->
  filter (fun t => now' - t < _ERROR_WINDOW_S)%Z (filter (fun t => now - t < _ERROR_WINDOW_S)%Z l) =
  filter (fun t => now' - t < _ERROR_WINDOW_S)%Z l.
Proof.
  intros Hn. induction l as [|t l IH]; [done|]. rewrite filter_cons. case_decide as H1.
  - rewrite !filter_cons. by rewrite IH.
  - rewrite IH, filter_cons. by rewrite decide_False by lia.
Qed.

Lemma remembers_snoc past c c' ch now b :
  remembers past c ->
  Forall (fun r => reply_time r <= now)%Z past ->
  error_timestamps c' =
    <[ch := recent now (default [] (error_timestamps c !! ch))]> (error_timestamps c) ->
  remembers (past ++ [(ch, now, b)]) c'.
Proof.
  intros Hr Hle Hc ch' now' Hall. apply Forall_app in Hall as [Hall Hnow].
  apply Forall_cons_iff in Hnow as [Hnow _].
  change (now <= now')%Z in Hnow. rewrite Hc, of_channel_app, of_channel_one, list.filter_app.
  destruct (decide (ch' = ch)) as [->|Hne].
  - rewrite lookup_insert_eq. cbn [default from_option id].
    unfold recent. rewrite list.filter_app, filter_twice by done.
    rewrite (Hr ch now' Hall). by rewrite decide_True.
  - rewrite lookup_insert_ne by done. rewrite (Hr ch' now' Hall).
    rewrite decide_False by congruence. by rewrite app_nil_r.
Qed.

Lemma remembers_same past c c' :
  error_timestamps c' = error_timestamps c -> remembers past c -> remembers past c'.
Proof. intros He Hr ch now H. rewrite He. by apply Hr. Qed.

(** Only a handler's error response touches the limiter. *)
Lemma settle_timestamps n i b c1 k p c' calls :
  settle n i b (c1, k, p) = (c', calls) -> error_timestamps c' = error_timestamps c1.
Proof.
  unfold settle. destruct p; [by intros [= <- _]|].
  destruct b; [unfold release; destruct (is_click i)|]; by intros [= <- _].
Qed.

Lemma begin_timestamps i c : error_timestamps (begin i c).1.1 = error_timestamps c.
Proof.
  unfold begin, after_consume, post_thinking. destruct (is_click i); [|done].
  case_decide; [done|]. by destruct (consumed_update i).
Qed.

Lemma show_state i th resp c o : show i th resp c = Some o -> o.1.1 = c.
Proof.
  unfold show, post_response. intros H. apply bind_Some in H as (js & _ & H).
  destruct th as [ts|]; [destruct (str_truthy ts)|]; by injection H as <-.
Qed.

Lemma supersede_timestamps i th resp c o :
  supersede i th resp c = Some o -> error_timestamps o.1.1 = error_timestamps c.
Proof.
  unfold supersede. destruct (_is_approval_prompt resp).
  2: { intros H. by rewrite (show_state _ _ _ _ _ H). }
  destruct (thread_approval_msg c !! slack_thread_key i) as [[ch ts]|].
  - by intros [= <-].
  - intros H. by rewrite (show_state _ _ _ _ _ H).
Qed.

Lemma respond_timestamps i th resp now c o :
  respond i th resp now c = Some o ->
  error_timestamps o.1.1 =
    match error_category resp with
    | Some _ => <[channel i := recent now (default [] (error_timestamps c !! channel i))]>
                  (error_timestamps c)
    | None => error_timestamps c
    end.
Proof.
  unfold respond, _is_error_rate_limited. destruct (error_category resp); cbn -[recent];
    intros H; case_in H;
    try (by rewrite (supersede_timestamps _ _ _ _ _ H)); injection H as <-;
    unfold delete_thinking; destruct th as [ts|]; [destruct (str_truthy ts)| |destruct (str_truthy ts)|];
    done.
Qed.

Lemma record_timestamps i resp ts c :
  error_timestamps (record_prompt i resp ts c).1.1 = error_timestamps c.
Proof. unfold record_prompt. destruct ts; [|done]. cbn. by destruct (_ && _). Qed.

Lemma resume_timestamps i p e c o :
  resume i p e c = Some o ->
  error_timestamps o.1.1 =
    match p, e with
    | Handling _, Returned resp now =>
        match error_category resp with
        | Some _ => <[channel i := recent now (default [] (error_timestamps c !! channel i))]>
                      (error_timestamps c)
        | None => error_timestamps c
        end
    | _, _ => error_timestamps c
    end.
Proof.
  destruct p, e; cbn [resume]; intros H; try discriminate;
    try (injection H as <-; try apply record_timestamps; done);
    try (by rewrite (show_state _ _ _ _ _ H)).
  - by apply respond_timestamps in H.
  - apply bind_Some in H as (js & _ & H). by injection H as <-.
Qed.

(** Only a task that awaits its handler can see the handler return. *)
Lemma returned_phase i p resp now c o :
  resume i p (Returned resp now) c = Some o -> exists th, p = Handling th.
Proof. destruct p; cbn [resume]; try discriminate. eauto. Qed.

Definition bounded_replies (l : list (string * Z * bool)) : Prop :=
  forall ch t, (length (filter (shown_within ch t) l) <= _ERROR_MAX_PER_WINDOW)%nat.

(** Replies let through before [now] in a window that [now] is in are errors
    the limiter counts at [now]. *)
Lemma shown_are_counted ch t now past :
  (t - _ERROR_WINDOW_S < now <= t)%Z -> Forall (fun r => reply_time r <= now)%Z past ->
  (length (filter (shown_within ch t) past) <=
   length (filter (fun s => now - s < _ERROR_WINDOW_S)%Z (of_channel ch past)))%nat.
Proof.
  intros Ht H. unfold of_channel. induction H as [|r past Hr _ IH]; [done|].
  rewrite !filter_cons. case_decide as Hs; [destruct Hs as (Hc & _ & Hw)|].
  - rewrite (decide_True _ _ Hc). cbn [map length]. rewrite filter_cons, decide_True by lia.
    cbn [length]. lia.
  - case_decide; cbn [map]; [rewrite filter_cons; case_decide; cbn [length]|]; lia.
Qed.

Lemma bounded_snoc past c ch now :
  bounded_replies past -> remembers past c -> Forall (fun r => reply_time r <= now)%Z past ->
  bounded_replies (past ++ [(ch, now, negb (_is_error_rate_limited ch now c).1)]).
Proof.
  intros Hb Hr Hle ch' t. rewrite list.filter_app, length_app, filter_cons.
  specialize (Hb ch' t). case_decide as Hs; cbn [length]; [|rewrite filter_nil; simpl; lia].
  destruct Hs as (Hc & Hl & Hw). simpl in Hc, Hl. subst ch'. unfold reply_time in Hw; simpl in Hw.
  apply negb_true_iff, Nat.ltb_ge in Hl. unfold recent in Hl.
  rewrite (Hr ch now Hle), length_app in Hl. cbn [length] in Hl.
  pose proof (shown_are_counted ch t now past Hw Hle). rewrite filter_nil. cbn [length]. lia.
Qed.

Lemma replies_bounded ls : forall c past,
  remembers past c -> bounded_replies past ->
  StronglySorted Z.le (map reply_time (past ++ error_replies ls c)) ->
  bounded_replies (past ++ error_replies ls c).
Proof.
  induction ls as [|l ls IH]; intros c past Hr Hb Hs; cbn [error_replies] in *;
    [by rewrite app_nil_r|].
  destruct (step l c) as [[c' calls]|] eqn:Hst; [|by rewrite app_nil_r].
  assert (Hquiet : error_timestamps c' = error_timestamps c ->
                   StronglySorted Z.le (map reply_time (past ++ error_replies ls c')) ->
                   bounded_replies (past ++ error_replies ls c')).
  { intros He Hs'. apply IH; [by eapply remembers_same|done|done]. }
  destruct l as [n i|n e].
  { apply Hquiet; [|done]. cbn [step] in Hst. destruct (tasks c !! n); [done|].
    injection Hst as Hst. destruct (begin i c) as [[c1 k] p] eqn:Hbg.
    apply settle_timestamps in Hst. rewrite Hst, <- (begin_timestamps i c). by rewrite Hbg. }
  cbn [step] in Hst. apply bind_Some in Hst as (t & Ht & Hst).
  apply bind_Some in Hst as ([[c1 k] p] & Ho & [= Hst]).
  apply settle_timestamps in Hst. pose proof (resume_timestamps _ _ _ _ _ Ho) as Hts.
  simpl in Hts. rewrite <- Hst in Hts.
  destruct e as [| |resp now| | |]; try (apply Hquiet; [destruct (phase t); done|done]).
  destruct (returned_phase _ _ _ _ _ _ Ho) as [th Hph]. rewrite Hph, Ht in *.
  destruct (error_category resp); [|by apply Hquiet].
  rewrite app_assoc in *.
  assert (Hle : Forall (fun r => reply_time r <= now)%Z past).
  { apply Forall_forall. intros r Hin. rewrite <- app_assoc, map_app in Hs.
    eapply (StronglySorted_app_1_elem_of Z.le); [exact Hs| |].
    - apply list_elem_of_In, in_map, Hin.
    - simpl. left. }
  apply IH; [|by apply bounded_snoc|done].
  by eapply remembers_snoc.
Qed.

(** C39: however tasks interleave, a channel sees at most three error replies
    in any sixty seconds: of the error responses its handlers return, no more
    than that pass the limiter, and one that does not pass leads to nothing
    but the removal of its placeholder. *)
Theorem error_replies_are_limited ls ch t :
  StronglySorted Z.le (map reply_time (error_replies ls start)) ->
  (length (filter (shown_within ch t) (error_replies ls start)) <= _ERROR_MAX_PER_WINDOW)%nat /\
  forall c i th resp now, error_category resp <> None ->
    (_is_error_rate_limited (channel i) now c).1 = true ->
    exists o, resume i (Handling th) (Returned resp now) c = Some o /\
      o.1.2 = match th with
              | Some ts => if str_truthy ts then [chat_delete (channel i) ts] else []
              | None => []
              end.
Proof.
  intros Hs. split.
  - apply (replies_bounded ls start []); [by intros ? ? _|intros ? ?; cbn; lia|done].
  - intros c i th resp now He Hl. cbn [resume]. unfold respond.
    destruct (error_category resp); [|done].
    destruct (_is_error_rate_limited (channel i) now c) as [b c']. simpl in Hl. subst b.
    cbn [orb]. eexists; split; [done|]. unfold delete_thinking.
    destruct th as [ts|]; [by destruct (str_truthy ts)|done].
Qed.

(** ** Approval clicks *)

Definition click_key (t : Task) : option string :=
  if is_click (inbound t) then Some (slack_thread_key (inbound t)) else None.

Definition runs_click (c : Connector) (n : nat) (key : string) : Prop :=
  exists t, tasks c !! n = Some t /\ click_key t = Some key.

(** Every running click holds its thread's slot, and no slot is held twice. *)
Definition slots_held (c : Connector) : Prop :=
  (forall n key, runs_click c n key -> key ∈ approval_in_flight c) /\
  (forall n m key, runs_click c n key -> runs_click c m key -> n = m).

(** Every slot belongs to a running click. *)
Definition no_slot_lost (c : Connector) : Prop :=
  forall key, key ∈ approval_in_flight c -> exists n, runs_click c n key.

(** A stretch of a task between two awaits leaves the slots and the other
    tasks alone. *)
Definition same_slots (c : Connector) (o : Outcome) : Prop :=
  approval_in_flight o.1.1 = approval_in_flight c /\ tasks o.1.1 = tasks c.

Lemma show_slots i th resp c o : show i th resp c = Some o -> same_slots c o.
Proof. intros H. unfold same_slots. by rewrite (show_state _ _ _ _ _ H). Qed.

Lemma supersede_slots i th resp c o : supersede i th resp c = Some o -> same_slots c o.
Proof.
  unfold supersede. destruct (_is_approval_prompt resp); [|apply show_slots].
  destruct (thread_approval_msg c !! slack_thread_key i) as [[ch ts]|]; [|apply show_slots].
  by intros [= <-].
Qed.

Lemma delete_slots i th c : same_slots c (delete_thinking i th c).
Proof. unfold delete_thinking. destruct th as [ts|]; [destruct (str_truthy ts)|]; done. Qed.

Lemma respond_slots i th resp now c o : respond i th resp now c = Some o -> same_slots c o.
Proof.
  unfold respond, _is_error_rate_limited. destruct (error_category resp); cbn -[recent];
    intros H; case_in H; try (by apply supersede_slots in H); injection H as <-.
  - apply (delete_slots i th (set_error_timestamps _ c)).
  - apply delete_slots.
Qed.

Lemma record_slots i resp ts c : same_slots c (record_prompt i resp ts c).
Proof. unfold same_slots, record_prompt. destruct ts; [|done]. cbn. by destruct (_ && _). Qed.

Lemma resume_slots i p e c o : resume i p e c = Some o -> same_slots c o.
Proof.
  destruct p, e; cbn [resume]; intros H; try discriminate;
    try (injection H as <-; try apply record_slots; done);
    try (by apply show_slots in H).
  - by apply respond_slots in H.
  - apply bind_Some in H as (js & _ & H). by injection H as <-.
Qed.

(** What a step does to the slots and the tasks. *)
Inductive slot_change (l : Label) (c c' : Connector) : Prop :=
| slots_unchanged :
    approval_in_flight c' = approval_in_flight c ->
    (forall n key, runs_click c' n key <-> runs_click c n key) -> slot_change l c c'
| slot_leaked n :
    l = Wake n Cancelled ->
    approval_in_flight c' = approval_in_flight c ->
    (forall m k, runs_click c' m k <-> runs_click c m k /\ m <> n) ->
    slot_change l c c'
| slot_taken n key :
    tasks c !! n = None -> key ∉ approval_in_flight c ->
    approval_in_flight c' = {[key]} ∪ approval_in_flight c ->
    (forall m k, runs_click c' m k <-> runs_click c m k \/ (m = n /\ k = key)) ->
    slot_change l c c'
| slot_released n key :
    runs_click c n key ->
    approval_in_flight c' = approval_in_flight c ∖ {[key]} ->
    (forall m k, runs_click c' m k <-> runs_click c m k /\ m <> n) ->
    slot_change l c c'.

Lemma runs_insert c n t m k :
  runs_click (set_tasks (<[n := t]> (tasks c)) c) m k <->
  (m = n /\ click_key t = Some k) \/ (m <> n /\ runs_click c m k).
Proof.
  unfold runs_click; cbn. destruct (decide (m = n)) as [->|Hn].
  - rewrite lookup_insert_eq. naive_solver.
  - rewrite lookup_insert_ne by done. naive_solver.
Qed.

Lemma runs_delete c n m k :
  runs_click (set_tasks (delete n (tasks c)) c) m k <-> m <> n /\ runs_click c m k.
Proof.
  unfold runs_click; cbn. destruct (decide (m = n)) as [->|Hn].
  - rewrite lookup_delete_eq. naive_solver.
  - rewrite lookup_delete_ne by done. naive_solver.
Qed.

Lemma runs_same c c' : tasks c' = tasks c -> forall m k, runs_click c' m k <-> runs_click c m k.
Proof. intros H m k. unfold runs_click. by rewrite H. Qed.

Lemma go_on_slots l n t p c c1 k c' calls :
  tasks c !! n = Some t -> same_slots c (c1, k, Some p) ->
  settle n (inbound t) (in_try (phase t)) (c1, k, Some p) = (c', calls) -> slot_change l c c'.
Proof.
  intros Ht [Hf Htk] [= <- <-]. apply slots_unchanged; [done|]. intros m key.
  rewrite runs_insert, (runs_same _ _ Htk). destruct (decide (m = n)) as [->|Hn].
  - split; [intros [[_ Hk]|[? _]]; [exists t; by split|done]|].
    intros (t' & Ht' & Hk). rewrite Ht in Ht'. injection Ht' as <-. by left.
  - split; [intros [[? _]|[_ H]]; done|by right].
Qed.

Lemma end_slots l n t c c1 k c' calls :
  tasks c !! n = Some t -> same_slots c (c1, k, None) -> in_try (phase t) = true ->
  settle n (inbound t) true (c1, k, None) = (c', calls) -> slot_change l c c'.
Proof.
  intros Ht [Hf Htk] _ [= <- <-].
  assert (Hr : forall m key, runs_click (release (inbound t) (set_tasks (delete n (tasks c1)) c1)) m key
                             <-> runs_click c m key /\ m <> n).
  { intros m key. rewrite (runs_same (set_tasks (delete n (tasks c1)) c1));
      [|unfold release; by destruct (is_click (inbound t))].
    rewrite runs_delete, (runs_same _ _ Htk). naive_solver. }
  destruct (is_click (inbound t)) eqn:Hc.
  - apply (slot_released l c _ n (slack_thread_key (inbound t))); [|unfold release; by rewrite Hc, <- Hf|done].
    exists t. unfold click_key. by rewrite Hc.
  - apply slots_unchanged; [unfold release; by rewrite Hc|]. intros m key. rewrite Hr.
    split; [naive_solver|]. intros Hm. split; [done|]. intros ->.
    destruct Hm as (t' & Ht' & Hk). rewrite Ht in Ht'. injection Ht' as <-.
    unfold click_key in Hk. by rewrite Hc in Hk.
Qed.

Lemma begin_slots n i c c' calls :
  tasks c !! n = None -> settle n i false (begin i c) = (c', calls) ->
  slot_change (Deliver n i) c c'.
Proof.
  intros Hn Hs.
  assert (Hnew : forall c1 p m k, tasks c1 = <[n := {| inbound := i; phase := p |}]> (tasks c) ->
    runs_click c1 m k <->
    runs_click c m k \/ (m = n /\ click_key {| inbound := i; phase := p |} = Some k)).
  { intros c1 p m k Htk.
    rewrite (runs_same (set_tasks (<[n := {| inbound := i; phase := p |}]> (tasks c)) c)), runs_insert
      by done.
    unfold runs_click. destruct (decide (m = n)) as [->|]; [rewrite Hn|]; naive_solver. }
  unfold begin in Hs. destruct (is_click i) eqn:Hc.
  - case_decide as Hin; [injection Hs as <- <-|].
    + apply slots_unchanged; [done|]. intros m k. rewrite runs_delete.
      split; [naive_solver|]. intros Hm. split; [|done]. intros ->.
      destruct Hm as (t & Ht & _). by rewrite Hn in Ht.
    + destruct (consumed_update i); injection Hs as <- <-;
        (apply (slot_taken _ _ _ n (slack_thread_key i)); [done|done|done|]);
        intros m k; (rewrite Hnew by reflexivity); unfold click_key; cbn; rewrite Hc; naive_solver.
  - injection Hs as <- <-. apply slots_unchanged; [done|]. intros m k.
    rewrite Hnew by reflexivity. unfold click_key; cbn. rewrite Hc. naive_solver.
Qed.

(** Only a cancellation ends a task that is not in its [try] block. *)
Lemma ended_in_try i p e c c1 k :
  resume i p e c = Some (c1, k, None) -> in_try p = true \/ e = Cancelled.
Proof. destruct p, e; cbn [resume]; intros H; try discriminate; first [by left|by right]. Qed.

Lemma step_slots l c c' calls : step l c = Some (c', calls) -> slot_change l c c'.
Proof.
  destruct l as [n i|n e]; cbn [step]; intros Hs.
  - destruct (tasks c !! n) eqn:Hn; [done|]. injection Hs as Hs. by eapply begin_slots.
  - apply bind_Some in Hs as (t & Ht & Hs). apply bind_Some in Hs as ([[c1 k] p] & Ho & [= Hs]).
    pose proof (resume_slots _ _ _ _ _ Ho) as Hsame.
    destruct p as [p|]; [by eapply go_on_slots|].
    destruct (in_try (phase t)) eqn:Hp; [by eapply end_slots|].
    destruct (ended_in_try _ _ _ _ _ _ Ho) as [Hp'| ->]; [congruence|].
    injection Hs as <- <-. destruct Hsame as [Hf Htk].
    apply (slot_leaked _ _ _ n); [done|done|]. intros m key.
    rewrite runs_delete, (runs_same _ _ Htk). naive_solver.
Qed.

Lemma slots_preserved l c c' calls : slots_held c -> step l c = Some (c', calls) -> slots_held c'.
Proof.
  intros [Hin Huniq] Hs. apply step_slots in Hs.
  destruct Hs as [Hf Hr|n _ Hf Hr|n key Hn Hk Hf Hr|n key Hk Hf Hr]; split.
  - intros m k Hm. rewrite Hf. by apply (Hin m), Hr.
  - intros m m' k Hm Hm'. by apply (Huniq m m' k); apply Hr.
  - intros m k Hm. rewrite Hf. by apply (Hin m), Hr.
  - intros m m' k Hm Hm'. by apply (Huniq m m' k); apply Hr.
  - intros m k Hm. rewrite Hf. apply Hr in Hm as [Hm|[-> ->]]; [|set_solver].
    apply Hin in Hm. set_solver.
  - intros m m' k Hm Hm'. apply Hr in Hm as [Hm|[-> ->]], Hm' as [Hm'|[-> Hkk]]; [by eapply Huniq| | |done].
    + subst k. by apply Hin in Hm.
    + by apply Hin in Hm'.
  - intros m k Hm. rewrite Hf. apply Hr in Hm as [Hm Hne]. apply elem_of_difference.
    split; [by eapply Hin|]. intros ->%elem_of_singleton. by apply Hne, (Huniq m n key).
  - intros m m' k Hm Hm'. by apply (Huniq m m' k); apply Hr.
Qed.

Lemma no_loss_preserved l c c' calls :
  slots_held c -> no_slot_lost c -> (forall n, l <> Wake n Cancelled) ->
  step l c = Some (c', calls) -> no_slot_lost c'.
Proof.
  intros [Hin Huniq] Hl Hc Hs. apply step_slots in Hs.
  destruct Hs as [Hf Hr|n Hl' Hf Hr|n key Hn Hk Hf Hr|n key Hk Hf Hr]; intros k Hkin;
    rewrite Hf in Hkin.
  - destruct (Hl k Hkin) as [m Hm]. exists m. by apply Hr.
  - by apply Hc in Hl'.
  - apply elem_of_union in Hkin as [->%elem_of_singleton|Hkin]; [exists n; apply Hr; by right|].
    destruct (Hl k Hkin) as [m Hm]. exists m. apply Hr. by left.
  - apply elem_of_difference in Hkin as [Hkin Hne]. destruct (Hl k Hkin) as [m Hm].
    exists m. apply Hr. split; [done|]. intros ->. apply Hne, elem_of_singleton.
    destruct Hm as (t & Ht & Htk), Hk as (t' & Ht' & Htk'). congruence.
Qed.

Lemma start_slots : slots_held start /\ no_slot_lost start.
Proof.
  split; [split|].
  - intros n key (t & Ht & _). by change (tasks start) with (∅ : gmap nat Task) in Ht.
  - intros n m key (t & Ht & _). by change (tasks start) with (∅ : gmap nat Task) in Ht.
  - intros key H. by apply not_elem_of_empty in H.
Qed.

Lemma no_loss_steps ls : forall c c' calls,
  Forall (fun l => forall n, l <> Wake n Cancelled) ls ->
  slots_held c -> no_slot_lost c -> steps ls c = Some (c', calls) -> no_slot_lost c'.
Proof.
  induction ls as [|l ls IH]; intros c c' calls Hc Hh Hl Hs; cbn [steps] in Hs.
  - by injection Hs as <- <-.
  - apply bind_Some in Hs as ([c1 k1] & H1 & Hs).
    apply bind_Some in Hs as ([c2 k2] & H2 & [= <- <-]).
    apply Forall_cons_iff in Hc as [Hc0 Hc].
    apply (IH c1 c2 k2 Hc); [|by eapply no_loss_preserved|done].
    by eapply slots_preserved.
Qed.

(** C15: two clicks on the approval buttons of one thread are never handled
    at the same time: a second click that arrives while one is running is
    dropped without a trace, and when no task is cancelled the slot of a
    thread is taken exactly while a click on it is running, so that a failed
    click never blocks the thread. *)
Theorem one_approval_click_per_thread ls c calls :
  steps ls start = Some (c, calls) ->
  slots_held c /\
  (forall n i m, tasks c !! n = None -> is_click i = true -> runs_click c m (slack_thread_key i) ->
     exists c', step (Deliver n i) c = Some (c', []) /\ tasks c' = tasks c /\
                approval_in_flight c' = approval_in_flight c /\
                thread_approval_msg c' = thread_approval_msg c) /\
  (Forall (fun l => forall n, l <> Wake n Cancelled) ls ->
   forall key, key ∈ approval_in_flight c <-> exists n, runs_click c n key).
Proof.
  intros Hs. destruct start_slots as [H0 Hl0].
  assert (Hh : slots_held c) by (eapply (steps_inv slots_held); [apply slots_preserved|exact H0|exact Hs]).
  split_and!; [done| |].
  - intros n i m Hn Hc Hm. cbn [step]. rewrite Hn. unfold begin. rewrite Hc.
    rewrite decide_True by (by eapply Hh). cbn. rewrite delete_id by done. by eexists.
  - intros Hc key. split.
    + by apply (no_loss_steps ls start c calls).
    + intros [n Hn]. by eapply Hh.
Qed.

(** A click that is cancelled while its prompt is rewritten, before the [try]
    block, keeps its slot: the thread's buttons are dead from then on. *)
Definition approve_click (key ts : string) : Inbound :=
  {| request := {| text := key; channel_id := "C"; source := "slack"; request_id := "r";
                   thread_ts := Some key;
                   action := Some {| action_id := APPROVE_WRITE; value := key |} |};
     clicked_ts := Some ts |}.

Example cancelled_click_blocks_thread :
  exists c calls,
    steps [Deliver 0 (approve_click "1.0" "1.1"); Wake 0 Cancelled] start = Some (c, calls) /\
    tasks c !! 0%nat = None /\ "1.0" ∈ approval_in_flight c.
Proof. eexists _, _. split; [reflexivity|]. split; [reflexivity|]. set_solver. Qed.

Lemma one_approval_click_per_thread_witness :
  exists c calls,
    steps [Deliver 0 (approve_click "1.0" "1.1")] start = Some (c, calls) /\ slots_held c.
Proof.
  eexists _, _. split; [reflexivity|].
  exact (proj1 (one_approval_click_per_thread [Deliver 0 (approve_click "1.0" "1.1")] _ _ eq_refl)).
Defined.

(** Four messages whose handlers fail, a second apart. *)
Definition failure : RichResponse :=
  {| resp_channel_id := "C"; resp_thread_ts := None; blocks := [TextBlock "sorry"];
     error_category := Some TIMEOUT; suppress_post := false |}.

Definition user_message (n : nat) : Inbound :=
  {| request := {| text := "hi"; channel_id := "C"; source := "slack"; request_id := "r";
                   thread_ts := Some (pretty n); action := None |};
     clicked_ts := None |}.

Definition failing_messages : list Label :=
  flat_map (fun n => [Deliver n (user_message n); Wake n (Sent (Some "9"));
                      Wake n (Returned failure (Z.of_nat n))]) [0; 1; 2; 3]%nat.

Lemma error_replies_are_limited_witness :
  map snd (error_replies failing_messages start) = [true; true; true; false] /\
  StronglySorted Z.le (map reply_time (error_replies failing_messages start)) /\
  (length (filter (shown_within "C" 5) (error_replies failing_messages start)) <= 3)%nat.
Proof.
  assert (H : StronglySorted Z.le (map reply_time (error_replies failing_messages start))).
  { change (StronglySorted Z.le [0; 1; 2; 3]%Z). repeat constructor; lia. }
  split; [reflexivity|]. split; [exact H|].
  exact (proj1 (error_replies_are_limited failing_messages "C" 5 H)).
Defined.

(** * Start, stop and listeners *)

(** [_bot_user_id], and [_socket_handler] with whether it was closed. *)
Record SlackLife := {
  sl_bot_user_id : option string;
  sl_socket : option bool;
  sl_connector : Connector
}.

Definition new_connector : SlackLife :=
  {| sl_bot_user_id := None; sl_socket := None; sl_connector := SlackConnector.start |}.

(** [start()] until it awaits [start_async]; [auth] is the [user_id] of the
    answer of [auth.test], or what that call raises. *)
Definition start_begin (auth : string + option string) (s : SlackLife) : (string + unit) * SlackLife :=
  match auth with
  | inl exc => (inl exc, s)
  | inr user => (inr tt, {| sl_bot_user_id := user; sl_socket := Some false; sl_connector := sl_connector s |})
  end.

(** [start()], when [start_async] ends: [opened] is what it raises. *)
Definition start (auth : string + option string) (opened : option string) (s : SlackLife)
  : (string + unit) * SlackLife :=
  match start_begin auth s with
  | (inr tt, s) => (match opened with Some exc => inl exc | None => inr tt end, s)
  | failed => failed
  end.

(** [stop()]: [closed] is what closing the socket raises. *)
Definition stop (closed : option string) (s : SlackLife) : (string + unit) * SlackLife :=
  match sl_socket s with
  | None => (inr tt, s)
  | Some _ =>
      match closed with
      | Some exc => (inl exc, s)
      | None => (inr tt, {| sl_bot_user_id := sl_bot_user_id s; sl_socket := Some true;
                            sl_connector := sl_connector s |})
      end
  end.

(** ** Listeners *)

(** What Slack delivers; [acked] is whether the acknowledgement was sent, and
    [published] whether Slack took the view. *)
Inductive Delivery :=
| Message_ (e : Event)
| AppMention (e : Event)
| Action_ (acked : bool) (b : ActionBody)
| AppHomeOpened (user : option string) (published : bool).

(** What a listener does: it runs a task of the pipeline, drops the event, or
    publishes the App Home view; a raise ends in Bolt. *)
Inductive Reaction :=
| Runs (l : Label)
| Drops
| Publishes (user : string) (view : json)
| ListenerRaises.

Definition home_view : json := JObj [("type", JStr "home"); ("blocks", JArr _build_home_blocks)].

(** [_register_listeners], for the delivery with number [n] and request id
    [rid]; a refused view is only logged. *)
Definition listener (s : SlackLife) (n : nat) (rid : string) (d : Delivery) : Reaction :=
  match d with
  | Message_ e | AppMention e =>
      match _on_event (sl_bot_user_id s) n rid e with Some l => Runs l | None => Drops end
  | Action_ true b => Runs (on_action n rid b)
  | Action_ false _ => ListenerRaises
  | AppHomeOpened (Some user) _ => Publishes user home_view
  | AppHomeOpened None _ => ListenerRaises
  end.

Definition deliver (s : SlackLife) (n : nat) (rid : string) (d : Delivery)
  : option (SlackLife * list Call) :=
  match listener s n rid d with
  | Runs l =>
      '(c, calls) ← SlackConnector.step l (sl_connector s);
      Some ({| sl_bot_user_id := sl_bot_user_id s; sl_socket := sl_socket s; sl_connector := c |}, calls)
  | _ => Some (s, [])
  end.

(** ** Theorems *)

(** The connector closes the socket it made, whether opening it goes on, ended
    or raised; when it never came to one there is nothing to close. *)
Lemma socket_is_closed auth opened s :
  sl_socket s = None ->
  exists s', stop None (start auth opened s).2 = (inr tt, s') /\
    sl_socket s' = match auth with inl _ => None | inr _ => Some true end /\
    (start auth opened s).2 = (start_begin auth s).2.
Proof.
  intros Hs. unfold start, start_begin, stop. destruct auth; simpl.
  - rewrite Hs. eauto.
  - by eexists.
Qed.

(** The bot does not answer itself: once it is authenticated, an event of its
    own user starts nothing. *)
Lemma own_events_dropped s s' user n rid e :
  start_begin (inr (Some user)) s = (inr tt, s') -> str_truthy user = true -> ev_user e = Some user ->
  deliver s' n rid (Message_ e) = Some (s', []) /\ deliver s' n rid (AppMention e) = Some (s', []).
Proof.
  unfold start_begin. intros [= <-] Hu He. unfold deliver, listener, _on_event, _should_ignore.
  simpl. rewrite Hu, He, bool_decide_true by done. simpl. by rewrite orb_true_r.
Qed.

(** A message that mentions the bot, in a channel it also listens to, arrives
    as a [message] and as an [app_mention] event; the two are handled as two
    requests, each with its own placeholder and answer. *)
Lemma mention_is_handled_twice s n m rid rid' e :
  _should_ignore (sl_bot_user_id s) e = false -> n ≠ m ->
  tasks (sl_connector s) !! n = None -> tasks (sl_connector s) !! m = None ->
  exists s1 s2 c1 c2,
    deliver s n rid (Message_ e) = Some (s1, c1) /\ deliver s1 m rid' (AppMention e) = Some (s2, c2) /\
    tasks (sl_connector s2) !! n =
      Some {| inbound := _normalize rid e; phase := PostingThinking |} /\
    tasks (sl_connector s2) !! m =
      Some {| inbound := _normalize rid' e; phase := PostingThinking |}.
Proof.
  intros Hi Hne Hn Hm. unfold deliver, listener, _on_event. rewrite Hi. simpl. rewrite Hn. simpl.
  unfold begin, is_click. simpl. eexists _, _, _, _. split; [reflexivity|]. simpl. rewrite Hi. simpl.
  rewrite lookup_insert_ne, Hm by done. simpl. split; [reflexivity|]. simpl.
  rewrite lookup_insert_ne, !lookup_insert_eq by done. done.
Qed.
