(* ===== verification/SlackFlow.v ===== *)
(** * SlackFlow

    The connector and the orchestrator together: every request ends, and
    where an approval prompt posted by the connector is not the prompt the
    orchestrator waits for. *)

From S2P Require Import Prelude Json AgentTypes Connector Registry Compaction Loop Prompt Orchestrator.
From S2P Require Import CompactionTheorems LoopTheorems OrchestratorTheorems Slack SlackTheorems SlackConnector SlackConnectorTheorems.

(** ** Every request ends *)

(** The awaits a task can still come to, its present one included. *)
Definition rank (p : Phase) : nat :=
  match p with
  | Consuming => 6
  | PostingThinking => 5
  | Handling _ => 4
  | Superseding _ _ => 3
  | Updating _ _ => 2
  | Posting _ | Deleting => 1
  end.

(** What the outside may answer to the await, whatever it chooses. *)
Definition answers (p : Phase) (e : Event_at) : Prop :=
  match p, e with
  | _, Cancelled => True
  | Handling _, (Returned _ _ | Raised | Status _) => True
  | Handling _, _ => False
  | _, (Sent _ | Refused) => True
  | _, _ => False
  end.

Definition is_status (e : Event_at) : bool := match e with Status _ => true | _ => false end.

Definition rank_of (next : option Phase) : nat := match next with Some p => rank p | None => 0 end.

Lemma render_total resp : exists js, render resp = Some js.
Proof.
  unfold render. induction (blocks resp) as [|b bs [js IH]]; [by exists []|].
  destruct (render_block_ok b) as (j & Hj & _). cbn [render_blocks]. rewrite Hj, IH. by eexists.
Qed.

Lemma show_total i th resp c : exists o, show i th resp c = Some o /\ (rank_of o.2 <= 2)%nat.
Proof.
  unfold show, post_response. destruct (render_total resp) as [js ->]. cbn.
  destruct th as [ts|]; [destruct (str_truthy ts)|]; (eexists; split; [done|cbn; lia]).
Qed.

Lemma supersede_total i th resp c :
  exists o, supersede i th resp c = Some o /\ (rank_of o.2 <= 3)%nat.
Proof.
  assert (Hs : exists o, show i th resp c = Some o /\ (rank_of o.2 <= 3)%nat).
  { destruct (show_total i th resp c) as (o & Ho & Hr). exists o. split; [done|lia]. }
  unfold supersede. destruct (_is_approval_prompt resp); [|done].
  destruct (thread_approval_msg c !! slack_thread_key i) as [[ch ts]|]; [|done].
  eexists; split; [done|cbn; lia].
Qed.

Lemma respond_total i th resp now c :
  exists o, respond i th resp now c = Some o /\ (rank_of o.2 <= 3)%nat.
Proof.
  assert (Hd : forall c', (rank_of (delete_thinking i th c').2 <= 3)%nat).
  { intros c'. unfold delete_thinking. destruct th as [ts|]; [destruct (str_truthy ts)|]; cbn; lia. }
  unfold respond, _is_error_rate_limited. destruct (error_category resp); cbn -[recent];
    case_if; try (eexists; split; [done|apply Hd]); apply supersede_total.
Qed.

Lemma resume_total i p e c :
  answers p e ->
  exists o, resume i p e c = Some o /\ (is_status e = false -> rank_of o.2 < rank p)%nat.
Proof.
  intros Ha. destruct p as [| |th| |th resp|ts resp|resp], e as [ts'| |resp' now| |s|];
    try done; cbn [resume].
  all: try (eexists; split; [done|intros; cbn; lia]).
  - destruct (respond_total i th resp' now c) as (o & -> & Hr). exists o. split; [done|cbn; lia].
  - eexists; split; [done|discriminate].
  - destruct (show_total i th resp c) as (o & -> & Hr). exists o. split; [done|cbn; lia].
  - destruct (show_total i th resp c) as (o & -> & Hr). exists o. split; [done|cbn; lia].
  - destruct (render_total resp) as [js ->]. eexists; split; [done|intros; cbn; lia].
Qed.

(** Every request the connector takes comes to an end.  Whatever the
    await of a running task brings, Slack's refusal and the handler's
    exception included, the task goes on; and apart from status updates each
    answer brings it nearer to its end, so six answers finish it.  No task
    waits for another one. *)
Theorem requests_end c n t e :
  tasks c !! n = Some t -> answers (phase t) e ->
  exists c' calls,
    step (Wake n e) c = Some (c', calls) /\
    (rank (phase t) <= 6)%nat /\
    (is_status e = false ->
     rank_of (phase <$> tasks c' !! n) < rank (phase t))%nat /\
    (forall m, m <> n -> tasks c' !! m = tasks c !! m).
Proof.
  intros Ht Ha. cbn [step]. rewrite Ht. cbn.
  destruct (resume_total (inbound t) (phase t) e c Ha) as ([[c1 k] p] & Hr & Hrank). rewrite Hr. cbn.
  destruct (resume_slots _ _ _ _ _ Hr) as [_ Htk]. cbn in Htk, Hrank.
  assert (H6 : (rank (phase t) <= 6)%nat) by (destruct (phase t); cbn; lia).
  destruct p as [p|].
  - eexists _, _. split; [done|]. split_and!; [done| |].
    + intros He. cbn. rewrite lookup_insert_eq. by apply Hrank.
    + intros m Hm. cbn. by rewrite lookup_insert_ne, Htk.
  - eexists _, _. split; [done|].
    assert (Hd : tasks (if in_try (phase t) then release (inbound t) (set_tasks (delete n (tasks c1)) c1)
                        else set_tasks (delete n (tasks c1)) c1) = delete n (tasks c)).
    { rewrite <- Htk. destruct (in_try (phase t)); [|done]. unfold release.
      by destruct (is_click (inbound t)). }
    rewrite Hd. split_and!; [done| |].
    + intros He. rewrite lookup_delete_eq. by apply Hrank.
    + intros m Hm. by rewrite lookup_delete_ne.
Qed.

Lemma requests_end_witness :
  let t := {| inbound := approve_click "1.0" "1.1"; phase := Consuming |} in
  let c := set_tasks {[0%nat := t]} SlackConnector.start in
  tasks c !! 0%nat = Some t /\
  exists c' calls, step (Wake 0 Refused) c = Some (c', calls).
Proof.
  intros t c. split; [reflexivity|].
  destruct (requests_end c 0 t Refused eq_refl I) as (c' & calls & H & _). by exists c', calls.
Defined.

(** ** Prompts and clicks across the boundary *)

(** A click on a button of the message posted at [ts] outside any thread;
    once the message has replies, Slack names it as their thread. *)
Definition clicks_message (ts id : string) (b : ActionBody) : Prop :=
  ab_message_ts b = Some ts /\
  (ab_message_thread_ts b = None \/ ab_message_thread_ts b = Some ts) /\
  exists v rest, ab_actions b = Some ((Some id, v) :: rest).

Section boundary.
Context {W : Type} `{Backend W} `{ApprovalGate W}.
Context (not_a_mapping : json -> string).
Context (sched : list nat -> list nat).
Context (tools : Registry W) (cfg : AgentLoopConfig) (aid : string).
Context (actions : option (FinalizationActions W)) (now : string) (on_status : bool).

Lemma click_key_is_ts ts id rid b :
  str_truthy ts = true -> clicks_message ts id b ->
  thread_key (request (_normalize_action rid b)) = ts /\
  forall i, is_action i (request (_normalize_action rid b)) = String.eqb id i.
Proof.
  intros Ht (Hts & Hth & v & rest & Ha). unfold thread_key, _normalize_action, is_action. cbn.
  rewrite Hts, Ha. cbn. split; [|done]. unfold or_else.
  destruct Hth as [-> | ->]; cbn; [|rewrite Ht]; cbn; unfold str_or; by rewrite Ht.
Qed.

(** An approval prompt that cannot replace its placeholder cannot be
    answered.  When Slack refuses the update, the connector posts the prompt
    outside the thread and records it as the thread's live prompt; a click on
    it then names the new message, for which the orchestrator has no pending
    write: it executes nothing, answers nothing, and the write stays pending
    in the thread it belongs to. *)
Theorem fallback_prompt_is_dead (o : Orchestrator W) i ts resp c new_ts id rid b :
  str_truthy new_ts = true -> _is_approval_prompt resp = true ->
  id = APPROVE_WRITE \/ id = DENY_WRITE ->
  pending_approvals o !! new_ts = None -> clicks_message new_ts id b ->
  (exists txt bs,
     resume i (Updating ts resp) Refused c =
       Some (c, [chat_postMessage (channel i) None txt bs], Some (Posting resp))) /\
  (exists c', resume i (Posting resp) (Sent (Some new_ts)) c = Some (c', [], None) /\
     thread_approval_msg c' !! slack_thread_key i = Some (channel i, new_ts)) /\
  let r := request (_normalize_action rid b) in
  let out := handle not_a_mapping sched tools cfg aid actions now on_status r o in
  out.1 = inr (suppressed r) /\ pending_approvals out.2 = pending_approvals o /\
  prompt out.2 = prompt o /\ executed (env out.2) = executed (env o) /\
  requests (env out.2) = requests (env o) /\
  forall th now' c1, exists c2 calls next,
    resume (_normalize_action rid b) (Handling th) (Returned (suppressed r) now') c1 =
      Some (c2, calls, next) /\
    Forall (fun k => match k with chat_delete _ _ => True | _ => False end) calls.
Proof.
  intros Ht Hp Hid Hnone Hb. split; [|split].
  - cbn [resume]. destruct (render_total resp) as [js ->]. by eexists _, _.
  - cbn [resume]. unfold record_prompt. rewrite Hp, Ht. eexists; split; [done|].
    cbn. apply lookup_insert_eq.
  - destruct (click_key_is_ts new_ts id rid b Ht Hb) as [Hk Ha]. cbv zeta.
    rewrite handle_cases, !Ha, Hk, Hnone.
    destruct Hid as [-> | ->]; cbn; rewrite delete_id by done; split_and!; try done;
      intros th now' c1; unfold delete_thinking;
      (destruct th as [t|]; [destruct (str_truthy t)|]); eexists _, _, _; (split; [done|]);
      by repeat constructor.
Qed.
End boundary.

Definition approve_body (ts : string) : ActionBody :=
  {| ab_actions := Some [(Some APPROVE_WRITE, Some "17.1")]; ab_channel := Some (JObj [("id", JStr "C1")]);
     ab_message_thread_ts := None; ab_message_ts := Some ts |}.

Definition message_in (thread : string) (rid : string) : Inbound :=
  {| request := {| text := "write it"; channel_id := "C1"; source := "slack"; request_id := rid;
                   thread_ts := Some thread; action := None |};
     clicked_ts := None |}.

Definition prompt_response : RichResponse :=
  {| resp_channel_id := "C1"; resp_thread_ts := Some "17.1";
     blocks := [TextBlock "approve?";
                ActionBlock [{| label := "Approve"; btn_action_id := APPROVE_WRITE;
                                btn_value := "17.1"; btn_style := Some "primary" |}]];
     error_category := None; suppress_post := false |}.

Lemma fallback_prompt_is_dead_witness :
  is_Some (pending_approvals two_prompts !! "17.1") /\
  (scripted_handle (request (_normalize_action "r9" (approve_body "20.0"))) two_prompts).1 =
    inr (suppressed (request (_normalize_action "r9" (approve_body "20.0")))).
Proof.
  split; [vm_compute; by eexists|].
  destruct (@fallback_prompt_is_dead _ scripted_backend write_approval
    (fun _ => "not a mapping") (@rev nat) script_tools sample_cfg "" None "2026-01-01 00:00 UTC" true
    two_prompts (message_in "17.1" "r1") "18.0" prompt_response SlackConnector.start "20.0" APPROVE_WRITE "r9"
    (approve_body "20.0")) as (_ & _ & H & _).
  - reflexivity.
  - reflexivity.
  - left. reflexivity.
  - vm_compute. reflexivity.
  - split; [reflexivity|]. split; [left; reflexivity|]. exists (Some "17.1"), []. reflexivity.
  - exact H.
Defined.

(** Two messages of one thread that both lead to a prompt: the second prompt
    is looked for before the first one is recorded, so nothing strips the
    first prompt's buttons. *)
Definition two_messages : list Label :=
  [Deliver 0 (message_in "17.1" "r1"); Deliver 1 (message_in "17.1" "r2");
   Wake 0 (Sent (Some "18.0")); Wake 1 (Sent (Some "18.1"));
   Wake 0 (Returned prompt_response 1); Wake 1 (Returned prompt_response 2);
   Wake 0 (Sent None); Wake 1 (Sent None)].

Definition rewrites (ts : string) (k : Call) : bool :=
  match k with chat_update _ ts' _ _ => String.eqb ts ts' | _ => false end.

Example older_prompt_stays_live :
  exists c calls,
    steps two_messages SlackConnector.start = Some (c, calls) /\ tasks c = ∅ /\
    thread_approval_msg c = {["17.1" := ("C1", "18.1")]} /\
    length (filter (fun k => rewrites "18.0" k = true) calls) = 1%nat.
Proof. eexists _, _. split; [vm_compute; reflexivity|]. split_and!; vm_compute; reflexivity. Qed.

(** A handler that raises leaves the placeholder as it is. *)
Example placeholder_is_left :
  exists c,
    steps [Deliver 0 (message_in "17.1" "r1"); Wake 0 (Sent (Some "18.0")); Wake 0 Raised] SlackConnector.start =
      Some (c, [chat_postMessage "C1" (Some "17.1") "Thinking…" (Some thinking_blocks)]) /\
    tasks c = ∅.
Proof. eexists. split; [vm_compute; reflexivity|]. vm_compute. reflexivity. Qed.
