(* ===== verification/InferenceHub.v ===== *)
(** * InferenceHub

    The inference backend ([backends/inference_hub.py]): the payload, the
    single HTTP attempt, tenacity's retry loop as it is configured, and the
    reading of a response.

    Outside are the HTTP client ([post]: how the next request ends), Python's
    [float], the text of its exceptions and the jittered default wait. *)

From S2P Require Import Prelude Json AgentTypes Connector.

(** ** HTTP *)

(** How a POST ends: a timeout of httpx, another exception, or a response
    with its status, its text, its [Retry-After] header and what
    [response.json()] gives. *)
Inductive HttpOutcome :=
| HttpTimeout (text : string)
| HttpFailed (text : string)
| HttpResponse (status : Z) (text : string) (retry_after : option string)
    (body : string + json).

Class Http (W : Type) := post : json -> W -> HttpOutcome * W.

(** [_RetryableError] and [InferenceError], without the raw body. *)
Inductive HubExc :=
| _RetryableError (message : string) (category : ErrorCategory) (retry_after : option Z)
| HubInferenceError (message : string) (category : ErrorCategory).

(** ** Payload *)

Definition tool_dict (t : ToolDefinition) : json :=
  JObj [("type", JStr "function");
        ("function", JObj [("name", JStr (fn_name t)); ("description", JStr (fn_description t));
                           ("parameters", fn_parameters t)])].

Definition call_dict (c : ToolCall) : json :=
  JObj [("id", JStr (tc_id c)); ("type", JStr "function");
        ("function", JObj [("name", JStr (tc_name c)); ("arguments", JStr (tc_arguments c))])].

Definition message_dict (m : Message) : json :=
  JObj ([("role", JStr (role_value (role m))); ("content", JStr (content m))] ++
        match tool_calls m with Some cs => [("tool_calls", JArr (map call_dict cs))] | None => [] end ++
        match tool_call_id m with Some i => [("tool_call_id", JStr i)] | None => [] end).

Definition payload (r : InferenceRequest) : json :=
  JObj ([("model", JStr (rq_model r)); ("messages", JArr (map message_dict (rq_messages r)));
         ("temperature", JFloat (rq_temperature r)); ("max_tokens", JInt (rq_max_tokens r))] ++
        match rq_tools r with
        | Some (t :: ts) => [("tools", JArr (map tool_dict (t :: ts)))]
        | _ => []
        end).

(** ** Reading a response *)

(** What subscripting and attribute access raise. *)
Inductive PyExc := KeyError | IndexError | TypeError | AttributeError.

(** [v[key]] and [v[0]] *)
Definition get_key (key : string) (v : json) : PyExc + json :=
  match v with
  | JObj o => match obj_get key o with Some x => inr x | None => inl KeyError end
  | _ => inl TypeError
  end.

Definition get_first (v : json) : PyExc + json :=
  match v with
  | JArr (x :: _) => inr x
  | JArr [] | JStr EmptyString => inl IndexError
  | JStr s => inr (JStr (take_chars 1 s))
  | JObj _ => inl KeyError
  | _ => inl TypeError
  end.

(** [v.get(key)] *)
Definition get_attr (key : string) (v : json) : PyExc + option json :=
  match v with JObj o => inr (obj_get key o) | _ => inl AttributeError end.

(** [v.get(key, d)] *)
Definition get_or (key : string) (d : json) (v : json) : PyExc + json :=
  (x <-- get_attr key v;; inr (default d x))%result.

Definition or_value (v d : json) : json := if json_truthy v then v else d.

(** A [ToolCall] as it is built: nothing checks that its parts are
    strings. *)
Record RawCall := { raw_id : json; raw_name : json; raw_arguments : json }.

Definition read_call (tc : json) : PyExc + RawCall :=
  (i <-- get_key "id" tc;;
   f <-- get_key "function" tc;;
   n <-- get_key "name" f;;
   a <-- get_or "arguments" (JStr "{}") f;;
   inr {| raw_id := i; raw_name := n; raw_arguments := a |})%result.

Fixpoint read_calls (tcs : list json) : PyExc + list RawCall :=
  match tcs with
  | [] => inr []
  | tc :: tcs => (c <-- read_call tc;; cs <-- read_calls tcs;; inr (c :: cs))%result
  end.

(** [[ToolCall(...) for tc in raw_tool_calls]]: a string or a dictionary is
    iterated by strings. *)
Definition read_tool_calls (v : json) : PyExc + list RawCall :=
  match v with
  | JArr tcs => read_calls tcs
  | _ => inl TypeError
  end.

(** [InferenceResponse], the token counts and the model name included. *)
Record Parsed := {
  p_content : json;
  p_finish_reason : json;
  p_tool_calls : option (list RawCall);
  p_usage : json * json * json;
  p_model : json
}.

(** The [try] block: content, finish reason and tool calls. *)
Definition read_choice (data : json) : PyExc + (json * json * option (list RawCall)) :=
  (choices <-- get_key "choices" data;;
   choice <-- get_first choices;;
   message <-- get_key "message" choice;;
   content <-- get_or "content" JNull message;;
   finish <-- get_or "finish_reason" (JStr "stop") choice;;
   raw <-- get_or "tool_calls" JNull message;;
   calls <-- (if json_truthy raw then (cs <-- read_tool_calls raw;; inr (Some cs)) else inr None);;
   inr (or_value content (JStr ""), finish, calls))%result.

Definition read_rest (data : json) (c : json * json * option (list RawCall)) : PyExc + Parsed :=
  (usage <-- get_or "usage" (JObj []) data;;
   p <-- get_or "prompt_tokens" (JInt 0) usage;;
   q <-- get_or "completion_tokens" (JInt 0) usage;;
   t <-- get_or "total_tokens" (JInt 0) usage;;
   model <-- get_or "model" (JStr "unknown") data;;
   inr {| p_content := c.1.1; p_finish_reason := or_value c.1.2 (JStr "stop");
          p_tool_calls := c.2; p_usage := (p, q, t); p_model := model |})%result.

(** ** One attempt *)

Definition _categorize_status (status : Z) : ErrorCategory :=
  if (status =? 401)%Z || (status =? 403)%Z then AUTH_ERROR
  else if (status =? 429)%Z then RATE_LIMIT
  else if (500 <=? status)%Z then MODEL_ERROR
  else UNKNOWN.

Section hub.
Context {W : Type} `{Http W}.
Context (exc_text : PyExc -> string).
(** [float(header)] in seconds, and the default wait after the [n]th
    attempt. *)
Context (float_of : string -> option Z) (default_wait : nat -> Z).

Definition _parse_retry_after (header : option string) : option Z :=
  h ← header; if str_truthy h then float_of h else None.

(** The exceptions that reach [except Exception]. *)
Definition unexpected (text : string) : HubExc := HubInferenceError text UNKNOWN.

(** [_parse_response] inside the [try] of [_send_request]. *)
Definition _parse_response (body : string + json) : HubExc + Parsed :=
  match body with
  | inl text => inl (unexpected text)
  | inr data =>
      match read_choice data with
      | inl (KeyError | IndexError) =>
          inl (HubInferenceError "Malformed response from model" MODEL_ERROR)
      | inl x => inl (unexpected (exc_text x))
      | inr c =>
          match read_rest data c with
          | inl x => inl (unexpected (exc_text x))
          | inr p => inr p
          end
      end
  end.

Definition outcome_result (o : HttpOutcome) : HubExc + Parsed :=
  match o with
  | HttpTimeout _ => inl (_RetryableError "Request timed out" TIMEOUT None)
  | HttpFailed text => inl (unexpected text)
  | HttpResponse status text retry_after body =>
      if (status =? 200)%Z then _parse_response body
      else
        match _categorize_status status with
        | AUTH_ERROR =>
            inl (HubInferenceError ("Authentication failed (" +:+ show_Z status +:+ ")") AUTH_ERROR)
        | (RATE_LIMIT | MODEL_ERROR) as category =>
            inl (_RetryableError ("Server returned " +:+ show_Z status) category
                   (_parse_retry_after retry_after))
        | _ => inl (HubInferenceError ("Unexpected status " +:+ show_Z status) UNKNOWN)
        end
  end.

Definition _send_request (p : json) (w : W) : (HubExc + Parsed) * W :=
  let '(o, w) := post p w in (outcome_result o, w).

(** ** Retries *)

Definition _wait_for_retry (n : nat) (x : HubExc) : Z :=
  match x with
  | _RetryableError _ _ (Some s) => s
  | _ => default_wait n
  end.

(** The attempts from the [n]th on, [more] of them after this one, with the
    waits between them. *)
Fixpoint attempts (more n : nat) (p : json) (w : W) : (HubExc + Parsed) * list Z * W :=
  match _send_request p w with
  | (inl (_RetryableError m c r), w) =>
      match more with
      | O => (inl (_RetryableError m c r), [], w)
      | S more =>
          let '(x, waits, w) := attempts more (S n) p w in
          (x, _wait_for_retry n (_RetryableError m c r) :: waits, w)
      end
  | (x, w) => (x, [], w)
  end.

(** [complete]; [stop_after_attempt(n)] makes at least one attempt. *)
Definition hub_complete (max_retries : Z) (r : InferenceRequest) (w : W)
  : (HubExc + Parsed) * list Z * W :=
  match attempts (Z.to_nat (max_retries - 1)) 1 (payload r) w with
  | (inl (_RetryableError m c _), waits, w) => (inl (HubInferenceError m c), waits, w)
  | out => out
  end.

(** The backend the loop is given, when [read] is what it makes of the
    fields of a response. *)
Definition hub_backend (max_retries : Z) (read : Parsed -> InferenceResponse) : Backend W :=
  fun r w =>
    match hub_complete max_retries r w with
    | (inr p, _, w) => (inr (read p), w)
    | (inl (HubInferenceError m c), _, w) => (inl (InferenceError (category_value c) m), w)
    | (inl (_RetryableError m _ _), _, w) => (inl (OtherError m), w)
    end.
End hub.
