(* ===== verification/InferenceHubTheorems.v ===== *)
(** * InferenceHubTheorems

    The backend's contract: a bounded number of requests, each retry for a
    documented reason, one categorised error otherwise; and what it reads
    from a well-formed response. *)

From S2P Require Import Prelude Json AgentTypes Connector Orchestrator InferenceHub.

(** ** The requests of one call *)

Section posts.
Context {W : Type} `{Http W}.

(** [posts p os w w']: in the outside state [w], as many requests of [p] end
    with the outcomes [os], one after the other, and leave [w']. *)
Inductive posts (p : json) : list HttpOutcome -> W -> W -> Prop :=
| posts_nil w : posts p [] w w
| posts_cons o os w w1 w2 : post p w = (o, w1) -> posts p os w1 w2 -> posts p (o :: os) w w2.
End posts.

Section contract.
Context {W : Type} `{Http W}.
Context (exc_text : PyExc -> string) (float_of : string -> option Z) (default_wait : nat -> Z).

Abbreviation result_of := (outcome_result exc_text float_of).

(** A failure after which the request is sent again. *)
Definition retryable (o : HttpOutcome) : bool :=
  match o with
  | HttpTimeout _ => true
  | HttpResponse status _ _ _ => (status =? 429)%Z || (500 <=? status)%Z
  | HttpFailed _ => false
  end.

(** The wait after the [n]th outcome. *)
Definition wait_after (n : nat) (o : HttpOutcome) : Z :=
  match o with
  | HttpResponse _ _ retry_after _ => default (default_wait n) (_parse_retry_after float_of retry_after)
  | _ => default_wait n
  end.

Fixpoint waits_of (n : nat) (os : list HttpOutcome) : list Z :=
  match os with [] => [] | o :: os => wait_after n o :: waits_of (S n) os end.

Lemma parse_not_retryable body m c r :
  _parse_response exc_text body <> inl (_RetryableError m c r).
Proof.
  unfold _parse_response. destruct body as [t|data]; [discriminate|].
  destruct (read_choice data) as [[]|ch]; try discriminate.
  by destruct (read_rest data ch).
Qed.

Lemma retryable_result o :
  retryable o = true <-> exists m c r, result_of o = inl (_RetryableError m c r).
Proof.
  destruct o as [t|t|status t ra body]; cbn.
  - split; [by eexists _, _, _|done].
  - split; [done|by intros (m & c & r & Hr)].
  - unfold _categorize_status. destruct (Z.eqb_spec status 200) as [->|H2].
    { split; [discriminate|]. intros (m & c & r & Hr). by apply parse_not_retryable in Hr. }
    destruct (Z.eqb_spec status 401) as [->|]; [by split; [|intros (? & ? & ? & ?)]|].
    destruct (Z.eqb_spec status 403) as [->|]; [by split; [|intros (? & ? & ? & ?)]|].
    destruct (Z.eqb_spec status 429) as [->|]; cbn; [by split; [eexists _, _, _|]|].
    destruct (500 <=? status)%Z; cbn; [by split; [eexists _, _, _|]|by split; [|intros (? & ? & ? & ?)]].
Qed.

Lemma wait_of_result n o m c r :
  result_of o = inl (_RetryableError m c r) ->
  _wait_for_retry default_wait n (_RetryableError m c r) = wait_after n o.
Proof.
  destruct o as [t|t|status t ra body]; cbn.
  - by intros [= <- <- <-].
  - discriminate.
  - destruct (status =? 200)%Z; [intros Hp; by apply parse_not_retryable in Hp|].
    destruct (_categorize_status status); try discriminate; intros [= _ _ <-];
      by destruct (_parse_retry_after float_of ra).
Qed.

Lemma attempts_spec more n p w :
  exists os last w',
    posts p (os ++ [last]) w w' /\ (length os <= more)%nat /\
    Forall (fun o => retryable o = true) os /\
    (retryable last = true -> length os = more) /\
    attempts exc_text float_of default_wait more n p w = (result_of last, waits_of n os, w').
Proof.
  revert n w; induction more as [|more IH]; intros n w; cbn [attempts]; unfold _send_request;
    destruct (post p w) as [o w1] eqn:Hp; cbv beta iota zeta.
  - exists [], o, w1. split; [by repeat econstructor|]. split_and!; [done|done|done|].
    by destruct (result_of o) as [[]|].
  - destruct (retryable o) eqn:Hr.
    + destruct (proj1 (retryable_result o) Hr) as (m & c & r & Ho).
      destruct (IH (S n) w1) as (os & last & w' & Hps & Hl & Hf & Hlast & Ha).
      exists (o :: os), last, w'. split; [by econstructor|].
      split_and!; [cbn; lia|by constructor|intros; cbn; by rewrite Hlast|].
      rewrite Ho, Ha. cbn [waits_of]. by rewrite <- (wait_of_result n o m c r Ho).
    + exists [], o, w1. split; [by repeat econstructor|]. split_and!; [cbn; lia|done|congruence|].
      destruct (result_of o) as [[m c r|m c]|] eqn:Ho; [|done|done].
      rewrite (proj2 (retryable_result o)) in Hr; [done|]. by eexists _, _, _.
Qed.
End contract.

(** What a call makes of its last outcome. *)
Definition final_result (x : HubExc + Parsed) : HubExc + Parsed :=
  match x with inl (_RetryableError m c _) => inl (HubInferenceError m c) | x => x end.

(** C23: every call of the backend ends after at least one and at most
    [max_retries] requests (one, when that is less), all with the same
    payload.  Every request but the last timed out or was answered 429 or
    5xx; the last one was too only if the attempts are used up.  Between two
    requests it waits as long as a numeric [Retry-After] says and else the
    default.  The result is that of the last request; and what the loop sees
    of a failure is always an [InferenceError] of a category the
    orchestrator has an answer for. *)
Theorem complete_is_bounded {W} `{Http W} exc_text float_of default_wait max_retries r (w : W) :
  exists os last w',
    posts (payload r) (os ++ [last]) w w' /\
    (1 <= Z.of_nat (length (os ++ [last])) <= Z.max 1 max_retries)%Z /\
    Forall (fun o => retryable o = true) os /\
    (retryable last = true -> Z.of_nat (length (os ++ [last])) = Z.max 1 max_retries) /\
    hub_complete exc_text float_of default_wait max_retries r w =
      (final_result (outcome_result exc_text float_of last), waits_of float_of default_wait 1 os, w') /\
    (forall read x, (hub_backend exc_text float_of default_wait max_retries read r w).1 = inl x ->
     exists c m, x = InferenceError (category_value c) m /\ category_of (category_value c) = Some c).
Proof.
  destruct (attempts_spec exc_text float_of default_wait (Z.to_nat (max_retries - 1)) 1 (payload r) w)
    as (os & last & w' & Hp & Hl & Hf & Hlast & Ha).
  assert (Hc : hub_complete exc_text float_of default_wait max_retries r w =
    (final_result (outcome_result exc_text float_of last), waits_of float_of default_wait 1 os, w')).
  { unfold hub_complete. rewrite Ha. by destruct (outcome_result exc_text float_of last) as [[]|]. }
  exists os, last, w'. rewrite length_app. cbn [length].
  split_and!; [done|lia|lia|done| |done|].
  - intros Hr. apply Hlast in Hr. lia.
  - intros read x. unfold hub_backend. rewrite Hc.
    destruct (outcome_result exc_text float_of last) as [[m c a|m c]|]; cbn; [| |done];
      intros [= <-]; exists c, m; (split; [done|by destruct c]).
Qed.

(** ** Reading a response *)

(** The body of a chat completion, as the API documents it. *)
Definition api_call (c : ToolCall) : json :=
  JObj [("id", JStr (tc_id c)); ("type", JStr "function");
        ("function", JObj [("name", JStr (tc_name c)); ("arguments", JStr (tc_arguments c))])].

Definition api_response (content : option string) (finish : string) (calls : list ToolCall)
  (usage : json) (model : string) : json :=
  JObj [("model", JStr model);
        ("choices", JArr [JObj
           [("index", JInt 0);
            ("message", JObj
               ([("role", JStr "assistant");
                 ("content", match content with Some c => JStr c | None => JNull end)] ++
                match calls with [] => [] | _ => [("tool_calls", JArr (map api_call calls))] end));
            ("finish_reason", JStr finish)]]);
        ("usage", usage)].

(** The strings of a parsed response. *)
Definition str_of (v : json) : option string := match v with JStr s => Some s | _ => None end.

Definition typed_call (c : RawCall) : option ToolCall :=
  i ← str_of (raw_id c); n ← str_of (raw_name c); a ← str_of (raw_arguments c);
  Some {| tc_id := i; tc_name := n; tc_arguments := a |}.

Definition typed_response (p : Parsed) : option InferenceResponse :=
  c ← str_of (p_content p); f ← str_of (p_finish_reason p);
  cs ← match p_tool_calls p with
       | None => Some None
       | Some cs => Some <$> mapM typed_call cs
       end;
  Some {| rs_content := c; finish_reason := f; rs_tool_calls := cs |}.

Lemma read_api_calls calls :
  read_calls (map api_call calls) =
  inr (map (fun c => {| raw_id := JStr (tc_id c); raw_name := JStr (tc_name c);
                        raw_arguments := JStr (tc_arguments c) |}) calls).
Proof. induction calls as [|c calls IH]; [done|]. cbn. by rewrite IH. Qed.

Lemma typed_calls calls :
  mapM typed_call (map (fun c => {| raw_id := JStr (tc_id c); raw_name := JStr (tc_name c);
                                    raw_arguments := JStr (tc_arguments c) |}) calls) = Some calls.
Proof. induction calls as [|[] calls IH]; [done|]. cbn. by rewrite IH. Qed.

(** The body of an answer whose message has no content. *)
Definition bare_response (finish : string) (usage : list (string * json)) (model : string) : json :=
  JObj [("model", JStr model);
        ("choices", JArr [JObj [("message", JObj [("role", JStr "assistant")]);
                                ("finish_reason", JStr finish)]]);
        ("usage", JObj usage)].

(** The category of the error that reading a body can end in. *)
Definition refusal (body : string + json) : ErrorCategory :=
  match body with
  | inr data => match read_choice data with inl (KeyError | IndexError) => MODEL_ERROR | _ => UNKNOWN end
  | inl _ => UNKNOWN
  end.

(** C36: a documented response is read as what it says: its content, the
    empty text when that is null, its finish reason, its tool calls in order,
    none when it has none.  A message without content is read as the empty
    answer.  A body that is not read is refused with one error that is not
    retried: MODEL_ERROR when a key or the first choice is missing on the
    way to the answer, and UNKNOWN otherwise; and a response whose usage
    object is null is refused with UNKNOWN, its answer thrown away. *)
Theorem responses_are_read exc_text content finish calls usage model :
  (forall o, usage = JObj o ->
     exists p, _parse_response exc_text (inr (api_response content finish calls usage model)) = inr p /\
       typed_response p =
         Some {| rs_content := default "" content;
                 AgentTypes.finish_reason := str_or finish "stop";
                 rs_tool_calls := match calls with [] => None | _ => Some calls end |} /\
       p_model p = JStr model) /\
  (forall o, exists p, _parse_response exc_text (inr (bare_response finish o model)) = inr p /\
     typed_response p =
       Some {| rs_content := ""; AgentTypes.finish_reason := str_or finish "stop"; rs_tool_calls := None |}) /\
  (forall body x, _parse_response exc_text body = inl x ->
     exists m, x = HubInferenceError m (refusal body)) /\
  _parse_response exc_text (inr (api_response content finish calls JNull model)) =
    inl (HubInferenceError (exc_text AttributeError) UNKNOWN).
Proof.
  assert (Hread : forall usage, read_choice (api_response content finish calls usage model) =
    inr (JStr (default "" content), JStr finish,
         match calls with
         | [] => None
         | _ => Some (map (fun c => {| raw_id := JStr (tc_id c); raw_name := JStr (tc_name c);
                                       raw_arguments := JStr (tc_arguments c) |}) calls)
         end)).
  { intros u. unfold read_choice, api_response. cbn.
    assert (Hc : or_value match content with Some c => JStr c | None => JNull end (JStr "") =
                 JStr (default "" content)).
    { destruct content as [c|]; [|done]. unfold or_value. cbn.
      unfold str_truthy. destruct (String.eqb_spec c "") as [->|]; done. }
    destruct calls as [|c calls]; cbn -[read_calls]; [by rewrite Hc|].
    change (api_call c :: map api_call calls) with (map api_call (c :: calls)).
    rewrite read_api_calls. cbn. by rewrite Hc. }
  split_and!.
  - intros o ->. unfold _parse_response. rewrite Hread. unfold read_rest. cbn.
    eexists; split; [done|]. split; [|done]. unfold typed_response. cbn.
    unfold or_value. cbn. unfold str_or.
    replace (if str_truthy finish then JStr finish else JStr "stop")
      with (JStr (if str_truthy finish then finish else "stop")) by (by destruct (str_truthy finish)).
    cbn. destruct calls as [|c calls]; [done|]. rewrite typed_calls. done.
  - intros o. eexists. split; [reflexivity|]. unfold typed_response. cbn. unfold or_value, str_or. cbn.
    by destruct (str_truthy finish).
  - intros body x. unfold _parse_response, refusal. destruct body as [t|data].
    { intros [= <-]. by eexists. }
    destruct (read_choice data) as [[]|ch]; try (intros [= <-]; by eexists).
    destruct (read_rest data ch); [|done]. intros [= <-]. by eexists.
  - unfold _parse_response. rewrite Hread. done.
Qed.
