(* ===== verification/Protocol.v ===== *)
(** * Protocol

    The typed payloads of the task protocol ([nmb/protocol.py]) and the
    workflow context ([orchestrator/workflow.py]). *)

From S2P Require Import Prelude.

(** [WorkspaceBaseline] *)
Record WorkspaceBaseline := {
  repo_url : string;
  branch : string;
  base_sha : string;
  is_shallow : bool
}.

#[export] Instance WorkspaceBaseline_eq_dec : EqDecision WorkspaceBaseline.
Proof. solve_decision. Defined.

(** [ContextFile] *)
Record ContextFile := { cf_path : string; cf_content : string; cf_encoding : string }.

(** [TaskAssignPayload] *)
Record TaskAssignPayload := {
  ta_prompt : string;
  ta_workflow_id : string;
  ta_parent_sandbox_id : string;
  ta_agent_id : string;
  ta_workspace_root : string;
  ta_max_turns : option Z;
  ta_model : option string;
  ta_tool_surface : option (list string);
  ta_context_files : list ContextFile;
  ta_workspace_baseline : option WorkspaceBaseline;
  ta_is_iteration : bool;
  ta_iteration_number : Z
}.

(** The field constraints of [TaskAssignPayload]. *)
Definition assign_valid (t : TaskAssignPayload) : bool :=
  str_truthy (ta_prompt t) && str_truthy (ta_workflow_id t)
  && str_truthy (ta_parent_sandbox_id t) && str_truthy (ta_agent_id t)
  && str_truthy (ta_workspace_root t)
  && match ta_max_turns t with Some n => (0 <? n)%Z | None => true end
  && (0 <=? ta_iteration_number t)%Z.

(** [TaskCompletePayload] *)
Record TaskCompletePayload := {
  tk_workflow_id : string;
  tk_summary : string;
  tk_diff : string;
  tk_workspace_baseline : option WorkspaceBaseline;
  tk_files_changed : list string;
  tk_notes_path : option string;
  tk_git_commit_sha : option string;
  tk_tool_calls_made : Z;
  tk_rounds_used : Z;
  tk_model_used : option string;
  tk_suggested_next_step : option string
}.

(** [TaskErrorKind] *)
Inductive TaskErrorKind :=
| MAX_TURNS_EXCEEDED | TOOL_FAILURE | POLICY_DENIED | INFERENCE_ERROR | OTHER.

(** The text of the enumeration's value. *)
Definition kind_text (k : TaskErrorKind) : string :=
  match k with
  | MAX_TURNS_EXCEEDED => "max_turns_exceeded" | TOOL_FAILURE => "tool_failure"
  | POLICY_DENIED => "policy_denied" | INFERENCE_ERROR => "inference_error" | OTHER => "other"
  end.

(** [TaskErrorPayload] *)
Record TaskErrorPayload := {
  te_workflow_id : string;
  te_error : string;
  te_error_kind : TaskErrorKind;
  te_recoverable : bool;
  te_notes_path : option string;
  te_traceback : option string
}.

(** [WorkflowContext]; the registration time is not read. *)
Record WorkflowContext := {
  wf_workflow_id : string;
  wf_task : TaskAssignPayload;
  wf_channel_id : option string;
  wf_thread_ts : option string;
  wf_request_id : string
}.

Definition with_task (t : TaskAssignPayload) (c : WorkflowContext) : WorkflowContext :=
  {| wf_workflow_id := wf_workflow_id c; wf_task := t; wf_channel_id := wf_channel_id c;
     wf_thread_ts := wf_thread_ts c; wf_request_id := wf_request_id c |}.
