(* ===== verification/Finalization.v ===== *)
(** * Finalization

    The finalisation tools ([tools/finalization.py] over [run_git] of
    [tools/git.py] and [create_pull_request] of [agent/github_helpers.py])
    and the coordinator ([orchestrator/finalization.py]).

    Outside the program are the [git] and [gh] processes, the file system,
    the connector's renderer and the delegation manager: they are the
    arguments of the sections below.  A process answers from the processes
    run before it, so its answers may change over time. *)

From S2P Require Import Prelude Protocol.
From Stdlib Require Import Ascii.

(** ** Strings *)

(** [Path(p).name] of an absolute, resolved path. *)
Fixpoint path_name_from (acc s : string) : string :=
  match s with
  | EmptyString => acc
  | String c s' => if Ascii.eqb c "/" then path_name_from EmptyString s'
                   else path_name_from (acc +:+ String c EmptyString) s'
  end.

Definition path_name (p : string) : string := path_name_from EmptyString p.

Definition _ERROR_PREFIX : string := "Error:".
Definition _DEFAULT_COMMIT_MESSAGE : string := "Finalize delegated work".
Definition _DEFAULT_REMOTE : string := "origin".
Definition _DIFF_PREVIEW_LIMIT : Z := 8000.
Definition _PUSH_TIMEOUT_S : Z := 120.
Definition _GIT_TIMEOUT_S : Z := 30.
Definition _OUTPUT_MAX_BYTES : Z := 65536.

(** ** State *)

(** [FinalizationAction] *)
Inductive FinalizationAction :=
| PRESENT_WORK_TO_USER | PUSH_BRANCH | PUSH_AND_CREATE_PR | DISCARD_WORK | RE_DELEGATE
| DESTROY_SANDBOX | MODEL_RESPONSE.

#[export] Instance FinalizationAction_eq_dec : EqDecision FinalizationAction.
Proof. solve_decision. Defined.

(** How a [git] process ends: it is killed, cannot be started, or exits with
    its standard output and error. *)
Inductive GitProcess :=
| GitTimeout
| GitMissing
| GitExited (code : Z) (out err : string).

(** How a [gh] process ends; [GhMissing]: it cannot be started, with the text
    of the [FileNotFoundError]. *)
Inductive GhProcess :=
| GhTimeout
| GhMissing (text : string)
| GhExited (code : Z) (out err : string).

(** What the renderer is asked to post. *)
Inductive Rendered :=
| RenderWork (summary diff : string)
| RenderAction (a : FinalizationAction) (result : string).

(** [FinalizationSession] with its [FinalizationState]; [ctx_task] is the
    task of the registered context, which the session shares with the
    dispatcher.  The logs record the processes asked for, the directories
    removed, the posts and the assignments. *)
Record FinalizationSession := {
  task : TaskAssignPayload;
  complete : TaskCompletePayload;
  ctx_task : option TaskAssignPayload;
  st_action : option FinalizationAction;
  st_message : string;
  st_is_terminal : bool;
  git_log : list (list string);
  gh_log : list (list string);
  removed : list string;
  rendered : list Rendered;
  assigned : list TaskAssignPayload
}.

(** [FinalizationSession(task=..., complete=..., context=...)] *)
Definition new_session (t : TaskAssignPayload) (c : TaskCompletePayload)
  (ctx : option TaskAssignPayload) : FinalizationSession :=
  {| task := t; complete := c; ctx_task := ctx; st_action := None; st_message := "";
     st_is_terminal := false; git_log := []; gh_log := []; removed := []; rendered := [];
     assigned := [] |}.

(** [self.state.action = a; self.state.message = m; self.state.is_terminal = t] *)
Definition set_state (a : FinalizationAction) (m : string) (t : bool) (s : FinalizationSession)
  : FinalizationSession :=
  {| task := task s; complete := complete s; ctx_task := ctx_task s; st_action := Some a;
     st_message := m; st_is_terminal := t; git_log := git_log s; gh_log := gh_log s;
     removed := removed s; rendered := rendered s; assigned := assigned s |}.

Definition log_git (args : list string) (s : FinalizationSession) : FinalizationSession :=
  {| task := task s; complete := complete s; ctx_task := ctx_task s; st_action := st_action s;
     st_message := st_message s; st_is_terminal := st_is_terminal s;
     git_log := git_log s ++ [args]; gh_log := gh_log s; removed := removed s;
     rendered := rendered s; assigned := assigned s |}.

Definition log_gh (args : list string) (s : FinalizationSession) : FinalizationSession :=
  {| task := task s; complete := complete s; ctx_task := ctx_task s; st_action := st_action s;
     st_message := st_message s; st_is_terminal := st_is_terminal s;
     git_log := git_log s; gh_log := gh_log s ++ [args]; removed := removed s;
     rendered := rendered s; assigned := assigned s |}.

Definition log_removed (p : string) (s : FinalizationSession) : FinalizationSession :=
  {| task := task s; complete := complete s; ctx_task := ctx_task s; st_action := st_action s;
     st_message := st_message s; st_is_terminal := st_is_terminal s;
     git_log := git_log s; gh_log := gh_log s; removed := removed s ++ [p];
     rendered := rendered s; assigned := assigned s |}.

Definition log_rendered (r : Rendered) (s : FinalizationSession) : FinalizationSession :=
  {| task := task s; complete := complete s; ctx_task := ctx_task s; st_action := st_action s;
     st_message := st_message s; st_is_terminal := st_is_terminal s;
     git_log := git_log s; gh_log := gh_log s; removed := removed s;
     rendered := rendered s ++ [r]; assigned := assigned s |}.

(** [self.context.task = t; self.task = t] *)
Definition set_task (t : TaskAssignPayload) (s : FinalizationSession) : FinalizationSession :=
  {| task := t; complete := complete s; ctx_task := option_map (fun _ => t) (ctx_task s); st_action := st_action s;
     st_message := st_message s; st_is_terminal := st_is_terminal s;
     git_log := git_log s; gh_log := gh_log s; removed := removed s;
     rendered := rendered s; assigned := assigned s |}.

Definition log_assigned (t : TaskAssignPayload) (s : FinalizationSession) : FinalizationSession :=
  {| task := task s; complete := complete s; ctx_task := ctx_task s; st_action := st_action s;
     st_message := st_message s; st_is_terminal := st_is_terminal s;
     git_log := git_log s; gh_log := gh_log s; removed := removed s;
     rendered := rendered s; assigned := assigned s ++ [t] |}.

(** ** The monad of a tool *)

(** The exceptions, by class. *)
Inductive FExc :=
| GitCommandError (command output : string)
| GitHubCommandError (command output : string)
| FOther (text : string).

(** [str(exc)] *)
Definition exc_text (x : FExc) : string :=
  match x with
  | GitCommandError c o => "git " +:+ c +:+ " failed: " +:+ o
  | GitHubCommandError c o => "gh " +:+ c +:+ " failed: " +:+ o
  | FOther t => t
  end.

Definition FM (A : Type) : Type := FinalizationSession -> (FExc + A) * FinalizationSession.

Definition fret {A} (x : A) : FM A := fun s => (inr x, s).
Definition fraise {A} (x : FExc) : FM A := fun s => (inl x, s).
Definition fbind {A B} (m : FM A) (k : A -> FM B) : FM B :=
  fun s => match m s with
           | (inr x, s) => k x s
           | (inl x, s) => (inl x, s)
           end.
Definition fmodify (f : FinalizationSession -> FinalizationSession) : FM unit :=
  fun s => (inr tt, f s).

Declare Scope fin_scope.
Delimit Scope fin_scope with fin.
Notation "x <- m ; k" := (fbind m (fun x => k))
  (at level 100, m at next level, right associativity) : fin_scope.
Notation "m ;; k" := (fbind m (fun _ => k))
  (at level 100, right associativity) : fin_scope.

(** ** [tools/git.py] *)

(** [is_git_error] *)
Definition is_git_error (output : string) : bool :=
  startswith "Exit code:" output || startswith "Error:" output.

(** The text [run_git] returns for a process. *)
Definition git_output (timeout : Z) (p : GitProcess) : string :=
  match p with
  | GitTimeout => "Error: git command timed out after " +:+ show_Z timeout +:+ "s"
  | GitMissing => "Error: git is not installed"
  | GitExited code out err =>
      if negb (code =? 0)%Z then "Exit code: " +:+ show_Z code +:+ newline +:+ strip err
      else
        let output := str_or out err in
        if (_OUTPUT_MAX_BYTES <? py_len output)%Z then
          py_prefix _OUTPUT_MAX_BYTES output +:+ newline +:+ "... (truncated at "
          +:+ show_Z _OUTPUT_MAX_BYTES +:+ " bytes)"
        else output
  end.

Section processes.
(** The [git] process with these arguments in this directory, after the
    given earlier ones; the same for [gh]. *)
Context (git : list (list string) -> string -> list string -> GitProcess).
Context (gh : list (list string) -> string -> list string -> GhProcess).
(** [Path(p).resolve()] *)
Context (resolve : string -> string).

Definition run_git (ws : string) (args : list string) (timeout : Z) : FM string := fun s =>
  (inr (git_output timeout (git (git_log s) ws args)), log_git args s).

(** ** Git and GitHub steps *)

(** [_ensure_git_workspace_root] *)
Definition _ensure_git_workspace_root (ws : string) : FM unit :=
  (out <- run_git ws ["rev-parse"; "--show-toplevel"] _GIT_TIMEOUT_S;
   let top_level := strip out in
   if is_git_error top_level then fraise (GitCommandError "rev-parse" top_level)
   else if negb (String.eqb (resolve top_level) (resolve ws)) then
     fraise (GitCommandError "rev-parse"
       ("workspace " +:+ ws +:+ " is inside git repo " +:+ top_level +:+ ", not its root"))
   else fret tt)%fin.

(** [commit_workspace] *)
Definition commit_workspace (ws message : string) : FM string :=
  (_ensure_git_workspace_root ws ;;
   add_result <- run_git ws ["add"; "-A"] _GIT_TIMEOUT_S;
   if is_git_error add_result then fraise (GitCommandError "add" add_result)
   else
     commit_result <- run_git ws ["commit"; "-m"; message] _GIT_TIMEOUT_S;
     if is_git_error commit_result && negb (str_contains "nothing to commit" commit_result)
     then fraise (GitCommandError "commit" commit_result)
     else fret commit_result)%fin.

(** [checkout_branch(workspace_root, branch)] *)
Definition checkout_branch (ws branch : string) : FM string :=
  (_ensure_git_workspace_root ws ;;
   result <- run_git ws ["checkout"; "-B"; branch] _GIT_TIMEOUT_S;
   if is_git_error result then fraise (GitCommandError "checkout" result) else fret result)%fin.

(** [git_push_branch] *)
Definition git_push_branch (ws branch remote : string) : FM string :=
  (_ensure_git_workspace_root ws ;;
   result <- run_git ws ["push"; "-u"; remote; branch] _PUSH_TIMEOUT_S;
   if is_git_error result then fraise (GitCommandError "push" result) else fret result)%fin.

(** [diff_against_baseline] of [agent/git_helpers.py]; its exceptions carry no
    text that is read. *)
Definition diff_against_baseline (ws base : string) : FM string :=
  (out <- run_git ws ["rev-parse"; "--show-toplevel"] _GIT_TIMEOUT_S;
   let top_level := strip out in
   if is_git_error top_level || negb (String.eqb (resolve top_level) (resolve ws)) then
     fraise (FOther "not a git repository root")
   else
     run_git ws ["add"; "--intent-to-add"; "--all"] _GIT_TIMEOUT_S ;;
     diff <- run_git ws ["diff"; base] _GIT_TIMEOUT_S;
     if is_git_error diff then fraise (FOther "git diff failed") else fret diff)%fin.

(** [_verify_diff]: a disagreement is only logged. *)
Definition _verify_diff (t : TaskAssignPayload) : FM unit := fun s =>
  match ta_workspace_baseline t with
  | None => (inr tt, s)
  | Some b => (inr tt, (diff_against_baseline (ta_workspace_root t) (base_sha b) s).2)
  end.

(** [create_pull_request] *)
Definition create_pull_request (ws title body : string) : FM string :=
  (let args := ["pr"; "create"; "--title"; title; "--body"; body] in
   p <- (fun s => (inr (gh (gh_log s) ws args), log_gh args s));
   match p with
   | GhTimeout => fraise (FOther "")
   | GhMissing text => fraise (FOther text)
   | GhExited code out err =>
       let output := strip (str_or out err) in
       if negb (code =? 0)%Z then fraise (GitHubCommandError "pr create" output)
       else fret output
   end)%fin.

(** [_do_push_branch] *)
Definition _do_push_branch (branch commit_message remote : string) : FM string := fun s =>
  let ws := ta_workspace_root (task s) in
  match (checkout_branch ws branch ;; commit_workspace ws commit_message ;;
         git_push_branch ws branch remote)%fin s with
  | (inl (GitCommandError c o), s) => (inr (_ERROR_PREFIX +:+ " " +:+ exc_text (GitCommandError c o)), s)
  | r => r
  end.

Section tools.
(** The renderer, when there is one: the text of the exception it raises, if
    any. *)
Context (renderer : option (list Rendered -> Rendered -> option string)).
(** [path.exists()] and [shutil.rmtree(path)] *)
Context (path_exists : string -> bool) (rmtree : string -> option string).
(** [delegation_manager.delegate(task)], when there is a manager: the text of
    the error it raises, if any; and the text of a payload validation error. *)
Context (delegate : option (list TaskAssignPayload -> TaskAssignPayload -> option string)).
Context (validation_error : TaskAssignPayload -> string).

(** [await self.renderer.<...>(...)] *)
Definition render (r : Rendered) : FM unit := fun s =>
  match renderer, ctx_task s with
  | Some f, Some _ =>
      match f (rendered s) r with
      | Some text => (inl (FOther text), log_rendered r s)
      | None => (inr tt, log_rendered r s)
      end
  | _, _ => (inr tt, s)
  end.

(** [_render_action_result] *)
Definition _render_action_result (a : FinalizationAction) (result : string) : FM unit := fun s =>
  (inr tt, (render (RenderAction a result) s).2).

Definition present_work_to_user (summary : option string) (include_diff : bool) : FM string :=
  (out <- (fun s => (inr (opt_or summary (tk_summary (complete s)),
                          if include_diff && str_truthy (tk_diff (complete s))
                          then py_prefix _DIFF_PREVIEW_LIMIT (tk_diff (complete s)) else ""), s));
   render (RenderWork out.1 out.2) ;;
   fmodify (fun s => set_state PRESENT_WORK_TO_USER out.1 (st_is_terminal s) s) ;;
   fret out.1)%fin.

Definition push_branch (branch commit_message remote : string) : FM string :=
  (message <- _do_push_branch branch commit_message remote;
   _render_action_result PUSH_BRANCH message ;;
   fmodify (set_state PUSH_BRANCH message (negb (startswith _ERROR_PREFIX message))) ;;
   fret message)%fin.

(** The [try] around [create_pull_request]. *)
Definition try_pull_request (title body : string) : FM string := fun s =>
  match create_pull_request (ta_workspace_root (task s)) title (str_or body (tk_summary (complete s))) s with
  | (inl (GitHubCommandError c o), s) =>
      (inr (_ERROR_PREFIX +:+ " " +:+ exc_text (GitHubCommandError c o)), s)
  | r => r
  end.

Definition push_and_create_pr (branch title body remote : string) : FM string :=
  (push_output <- _do_push_branch branch title remote;
   message <- (if startswith _ERROR_PREFIX push_output then fret push_output
               else try_pull_request title body);
   _render_action_result PUSH_AND_CREATE_PR message ;;
   fmodify (set_state PUSH_AND_CREATE_PR message (negb (startswith _ERROR_PREFIX message))) ;;
   fret message)%fin.

(** [_looks_like_per_agent_workspace] *)
Definition _looks_like_per_agent_workspace (path agent_id : string) : bool :=
  let name := path_name path in
  startswith "agent-" name || (str_truthy agent_id && endswith agent_id name).

Definition discard_work (reason : string) : FM string := fun s0 =>
  (let path := resolve (ta_workspace_root (task s0)) in
   if negb (_looks_like_per_agent_workspace path (ta_agent_id (task s0))) then
     let error_text := _ERROR_PREFIX +:+ " refusing to discard non-agent path " +:+ path in
     _render_action_result DISCARD_WORK error_text ;;
     fmodify (fun s => set_state DISCARD_WORK error_text (st_is_terminal s) s) ;;
     fret error_text
   else
     (if path_exists path then
        fun s => match rmtree path with
                 | Some text => (inl (FOther text), log_removed path s)
                 | None => (inr tt, log_removed path s)
                 end
      else fret tt) ;;
     let message := str_or reason ("Discarded delegated workspace at " +:+ path +:+ ".") in
     _render_action_result DISCARD_WORK message ;;
     fmodify (set_state DISCARD_WORK message true) ;;
     fret message)%fin s0.

(** The payload of [re_delegate]. *)
Definition followup (prompt : string) (max_turns : option Z) (model : option string)
  (t : TaskAssignPayload) : TaskAssignPayload :=
  {| ta_prompt := prompt; ta_workflow_id := ta_workflow_id t;
     ta_parent_sandbox_id := ta_parent_sandbox_id t; ta_agent_id := ta_agent_id t;
     ta_workspace_root := ta_workspace_root t;
     ta_max_turns := match max_turns with
                     | Some n => if (n =? 0)%Z then ta_max_turns t else Some n
                     | None => ta_max_turns t
                     end;
     ta_model := if opt_truthy model then model else ta_model t;
     ta_tool_surface := ta_tool_surface t; ta_context_files := ta_context_files t;
     ta_workspace_baseline := ta_workspace_baseline t; ta_is_iteration := true;
     ta_iteration_number := (ta_iteration_number t + 1)%Z |}.

Definition re_delegate (prompt : string) (max_turns : option Z) (model : option string)
  : FM string := fun s0 =>
  match delegate with
  | None => (inr (_ERROR_PREFIX +:+ " delegation manager unavailable"), s0)
  | Some send =>
      (let t := followup prompt max_turns model (task s0) in
       if negb (assign_valid t) then fraise (FOther (validation_error t))
       else
         fmodify (set_task t) ;;
         (fun s => match send (assigned s) t with
                   | Some text => (inl (FOther text), log_assigned t s)
                   | None => (inr tt, log_assigned t s)
                   end) ;;
         let message := "Re-delegated workflow " +:+ ta_workflow_id t +:+ " (iteration "
                        +:+ show_Z (ta_iteration_number t) +:+ ")." in
         _render_action_result RE_DELEGATE message ;;
         fmodify (fun s => set_state RE_DELEGATE message (st_is_terminal s) s) ;;
         fret message)%fin s0
  end.

Definition destroy_sandbox : FM string :=
  (let message := "Sub-agent process is already single-shot; no sandbox to destroy." in
   _render_action_result DESTROY_SANDBOX message ;;
   fmodify (set_state DESTROY_SANDBOX message true) ;;
   fret message)%fin.

(** ** The coordinator *)

(** The tools of [create_finalization_tool_registry], called with arguments of
    their schemas. *)
Inductive FinCall :=
| CallPresent (summary : option string) (include_diff : bool)
| CallPush (branch commit_message remote : string)
| CallPushPR (branch title body remote : string)
| CallDiscard (reason : string)
| CallReDelegate (prompt : string) (max_turns : option Z) (model : option string)
| CallDestroy.

Definition run_call (c : FinCall) : FM string :=
  match c with
  | CallPresent s d => present_work_to_user s d
  | CallPush b m r => push_branch b m r
  | CallPushPR b t y r => push_and_create_pr b t y r
  | CallDiscard r => discard_work r
  | CallReDelegate p n m => re_delegate p n m
  | CallDestroy => destroy_sandbox
  end.

(** The tool calls of the finalisation loop, in order; the loop answers an
    exception of a tool with an error payload. *)
Definition run_calls (cs : list FinCall) (s : FinalizationSession) : FinalizationSession :=
  fold_left (fun s c => (run_call c s).2) cs s.

(** [verify_baseline]: whether it returns. *)
Definition verify_baseline (t : TaskAssignPayload) (c : TaskCompletePayload) : bool :=
  bool_decide (ta_workspace_baseline t = tk_workspace_baseline c).

(** [FinalizationResult] *)
Record FinalizationResult := {
  fr_action : FinalizationAction;
  fr_message : string;
  fr_is_terminal : bool
}.

Definition finalization_result (content : string) (s : FinalizationSession) : FinalizationResult :=
  {| fr_action := default MODEL_RESPONSE (st_action s);
     fr_message := str_or (st_message s) content;
     fr_is_terminal := match st_action s with Some _ => st_is_terminal s | None => true end |}.

(** [finalize]: [calls] are the tools the finalisation model calls and
    [outcome] how its loop ends (an exception's text, or the content). *)
Definition finalize (calls : list FinCall) (outcome : string + string)
  : FM FinalizationResult := fun s =>
  if verify_baseline (task s) (complete s) then
    (_verify_diff (task s) ;;
     fmodify (run_calls calls) ;;
     match outcome with
     | inl text => fraise (FOther text)
     | inr content => fun s => (inr (finalization_result content s), s)
     end)%fin s
  else (inl (FOther "workspace baseline drift"), s).
End tools.
End processes.
