(* ===== verification/FinalizationTheorems.v ===== *)
(** * FinalizationTheorems

    What the finalisation tools promise: git runs only at the root of the
    workspace's own repository and in order, a session stays on its
    workflow, drift stops everything; and the retry that cannot push. *)

From S2P Require Import Prelude Protocol Finalization.

Section git.
Context (git : list (list string) -> string -> list string -> GitProcess).
Context (gh : list (list string) -> string -> list string -> GhProcess).
Context (resolve : string -> string).

Definition toplevel_args : list string := ["rev-parse"; "--show-toplevel"].

(** What [run_git] returns after the given earlier processes. *)
Definition answer (timeout : Z) (log : list (list string)) (ws : string) (args : list string) : string :=
  git_output timeout (git log ws args).

(** The root check passes after the given earlier processes. *)
Definition at_root (log : list (list string)) (ws : string) : bool :=
  let top := strip (answer _GIT_TIMEOUT_S log ws toplevel_args) in
  negb (is_git_error top) && String.eqb (resolve top) (resolve ws).

Definition timeout_of (args : list string) : Z :=
  match args with "push" :: _ => _PUSH_TIMEOUT_S | _ => _GIT_TIMEOUT_S end.

(** A step of a git script succeeds: a root check passes; another command
    answers without an error, or the commit reports that there was nothing
    to commit. *)
Definition step_ok (log : list (list string)) (ws : string) (args : list string) : bool :=
  if decide (args = toplevel_args) then at_root log ws
  else
    let a := answer (timeout_of args) log ws args in
    negb (is_git_error a) ||
    match args with "commit" :: _ => str_contains "nothing to commit" a | _ => false end.

(** Runs the commands up to the first that fails: the commands run, and
    whether all succeeded. *)
Fixpoint run_script (log : list (list string)) (ws : string) (script : list (list string))
  : list (list string) * bool :=
  match script with
  | [] => (log, true)
  | args :: script =>
      if step_ok log ws args then run_script (log ++ [args]) ws script
      else (log ++ [args], false)
  end.

Lemma run_script_app log ws a b :
  run_script log ws (a ++ b) =
  if (run_script log ws a).2 then run_script (run_script log ws a).1 ws b
  else ((run_script log ws a).1, false).
Proof.
  revert log. induction a as [|x a IH]; intros log; simpl; [done|].
  destruct (step_ok log ws x); [apply IH|done].
Qed.

Definition set_git_log (l : list (list string)) (s : FinalizationSession) : FinalizationSession :=
  {| task := task s; complete := complete s; ctx_task := ctx_task s; st_action := st_action s;
     st_message := st_message s; st_is_terminal := st_is_terminal s; git_log := l;
     gh_log := gh_log s; removed := removed s; rendered := rendered s; assigned := assigned s |}.

(** A tool step that follows a script: it runs the script's commands, and
    raises a git error exactly when the script fails. *)
Definition follows {A} (m : FM A) (ws : string) (script : list (list string)) : Prop :=
  forall s, exists x, m s = (x, set_git_log (run_script (git_log s) ws script).1 s) /\
    if (run_script (git_log s) ws script).2 then exists r, x = inr r
    else exists c o, x = inl (GitCommandError c o).

Lemma follows_bind {A B} (m : FM A) (k : A -> FM B) ws a b :
  follows m ws a -> (forall r, follows (k r) ws b) -> follows (fbind m k) ws (a ++ b).
Proof.
  intros Hm Hk s. destruct (Hm s) as (x & Hx & Hr). unfold fbind. rewrite Hx, run_script_app.
  destruct (run_script (git_log s) ws a) as [l ok]. simpl in *. destruct ok.
  - destruct Hr as [r ->]. destruct (Hk r (set_git_log l s)) as (y & Hy & Hr').
    simpl in Hy, Hr'. exists y. by rewrite Hy.
  - destruct Hr as (c & o & ->). eexists. split; [done|]. by exists c, o.
Qed.

Lemma follows_root ws : follows (_ensure_git_workspace_root git resolve ws) ws [toplevel_args].
Proof.
  intros s. unfold run_script, step_ok. rewrite decide_True by done.
  unfold _ensure_git_workspace_root, fbind, run_git, at_root, answer.
  fold toplevel_args. destruct (is_git_error _); simpl; [by eexists; split; [|eexists _, _]|].
  destruct (String.eqb _ _); simpl; eexists; (split; [reflexivity|]);
    first [by eexists | by eexists _, _].
Qed.

(** One command whose failure raises; [tolerated] answers do not count. *)
Lemma follows_command ws args timeout command (tolerated : string -> bool) :
  args ≠ toplevel_args -> timeout_of args = timeout ->
  (forall a, tolerated a = match args with "commit" :: _ => str_contains "nothing to commit" a
                           | _ => false end) ->
  follows (r <- run_git git ws args timeout;
           if is_git_error r && negb (tolerated r) then fraise (GitCommandError command r)
           else fret r)%fin ws [args].
Proof.
  intros Hne Ht Htol s. unfold run_script, step_ok. rewrite decide_False by done. rewrite Ht.
  unfold fbind, run_git, answer. rewrite <- Htol.
  destruct (is_git_error _); simpl; [|by eexists; split; [|eexists]].
  destruct (tolerated _); simpl; eexists; (split; [reflexivity|]);
    first [by eexists | by eexists _, _].
Qed.

Lemma follows_ext {A} (m m' : FM A) ws a : (forall s, m s = m' s) -> follows m ws a -> follows m' ws a.
Proof. intros He Hm s. rewrite <- He. apply Hm. Qed.

(** The commands of a push, with the root checks between them. *)
Definition checkout_script (branch : string) : list (list string) :=
  [toplevel_args; ["checkout"; "-B"; branch]].
Definition commit_script (message : string) : list (list string) :=
  [toplevel_args; ["add"; "-A"]; ["commit"; "-m"; message]].
Definition push_script (branch message remote : string) : list (list string) :=
  checkout_script branch ++ commit_script message
  ++ [toplevel_args; ["push"; "-u"; remote; branch]].

Lemma follows_checkout ws b : follows (checkout_branch git resolve ws b) ws (checkout_script b).
Proof.
  apply (follows_bind _ _ ws [toplevel_args] [_]); [apply follows_root|]. intros _.
  refine (follows_ext _ _ _ _ _ (follows_command ws _ _ "checkout" (fun _ => false) _ _ _)); try done.
  intros s. unfold fbind, run_git. by rewrite andb_true_r.
Qed.

Lemma follows_commit ws m : follows (commit_workspace git resolve ws m) ws (commit_script m).
Proof.
  apply (follows_bind _ _ ws [toplevel_args] [_; _]); [apply follows_root|]. intros _.
  refine (follows_ext _ _ _ _ _ (follows_bind _ _ ws [_] [_]
    (follows_command ws ["add"; "-A"] _GIT_TIMEOUT_S "add" (fun _ => false) _ _ _)
    (fun _ => follows_command ws ["commit"; "-m"; m] _GIT_TIMEOUT_S "commit"
                (str_contains "nothing to commit") _ _ _))); try done.
  intros s. unfold fbind, run_git. rewrite andb_true_r. by destruct (is_git_error _).
Qed.

Lemma follows_push ws b r :
  follows (git_push_branch git resolve ws b r) ws [toplevel_args; ["push"; "-u"; r; b]].
Proof.
  apply (follows_bind _ _ ws [toplevel_args] [_]); [apply follows_root|]. intros _.
  refine (follows_ext _ _ _ _ _ (follows_command ws _ _ "push" (fun _ => false) _ _ _)); try done.
  intros s. unfold fbind, run_git. by rewrite andb_true_r.
Qed.

Lemma push_not_error ws b r s x s' :
  git_push_branch git resolve ws b r s = (inr x, s') -> startswith _ERROR_PREFIX x = false.
Proof.
  unfold git_push_branch, fbind. destruct (_ensure_git_workspace_root _ _ _ _) as [[e|[]] s1]; [done|].
  unfold run_git. destruct (is_git_error _) eqn:He; [done|]. intros [= <- _].
  unfold is_git_error in He. by apply orb_false_iff in He as [_ He].
Qed.

Lemma error_prefix x : startswith _ERROR_PREFIX (_ERROR_PREFIX +:+ x) = true.
Proof. apply prefix_app. Qed.

(** [_do_push_branch] never raises, runs the push script and reports whether
    it succeeded. *)
Lemma do_push_follows b m r s :
  exists msg,
    _do_push_branch git resolve b m r s =
      (inr msg, set_git_log (run_script (git_log s) (ta_workspace_root (task s)) (push_script b m r)).1 s) /\
    startswith _ERROR_PREFIX msg =
      negb (run_script (git_log s) (ta_workspace_root (task s)) (push_script b m r)).2.
Proof.
  unfold _do_push_branch, push_script. set (ws := ta_workspace_root (task s)).
  pose proof (follows_bind _ _ ws _ _ (follows_checkout ws b)
    (fun _ => follows_bind _ _ ws _ _ (follows_commit ws m) (fun _ => follows_push ws b r))) as Hf.
  destruct (Hf s) as (x & Hx & Hr). rewrite Hx.
  destruct (run_script (git_log s) ws _) as [l ok] eqn:Hs. simpl in *. destruct ok.
  - destruct Hr as [msg ->]. exists msg. split; [done|]. simpl.
    unfold fbind in Hx at 1. destruct (checkout_branch _ _ _ _ s) as [[e|o] s1]; [done|].
    unfold fbind in Hx. destruct (commit_workspace _ _ _ _ s1) as [[e|o'] s2]; [done|].
    by eapply push_not_error.
  - destruct Hr as (c & o & ->). eexists. split; [done|]. apply error_prefix.
Qed.
End git.

(** ** Pushing *)

(** C25: pushing is guarded and honest.  [push_branch] never raises; it runs
    exactly the commands of the push script up to the first that fails, each
    of checkout, commit and push preceded by its own check that the
    workspace is the root of its repository, and marks the workflow
    finished exactly when the whole script succeeded.  Outside such a root
    nothing but the check runs.  [push_and_create_pr] runs the same script
    and asks [gh] for a pull request only after it succeeded; it is final
    only when that succeeded too, and raises only when [gh] takes too long or
    cannot be started. *)
Theorem push_is_guarded git gh resolve renderer branch message title body remote s :
  let ws := ta_workspace_root (task s) in
  let '(log, ok) := run_script git resolve (git_log s) ws (push_script branch message remote) in
  let '(log', ok') := run_script git resolve (git_log s) ws (push_script branch title remote) in
  (exists msg s', push_branch git resolve renderer branch message remote s = (inr msg, s') /\
     git_log s' = log /\ gh_log s' = gh_log s /\ st_message s' = msg /\ st_is_terminal s' = ok) /\
  (let out := push_and_create_pr git gh resolve renderer branch title body remote s in
   let args := ["pr"; "create"; "--title"; title; "--body"; str_or body (tk_summary (complete s))] in
   git_log out.2 = log' /\ gh_log out.2 = gh_log s ++ (if ok' then [args] else []) /\
   match out.1 with
   | inl x => ok' = true /\
       (gh (gh_log s) ws args = GhTimeout /\ x = FOther "" \/
        exists text, gh (gh_log s) ws args = GhMissing text /\ x = FOther text)
   | inr msg => st_is_terminal out.2 = true ->
       ok' = true /\ exists o e, gh (gh_log s) ws args = GhExited 0 o e /\ msg = strip (str_or o e)
   end) /\
  (at_root git resolve (git_log s) ws = false -> log = git_log s ++ [toplevel_args]).
Proof.
  intros ws.
  destruct (do_push_follows git resolve branch message remote s) as (m1 & H1 & He1).
  destruct (do_push_follows git resolve branch title remote s) as (m2 & H2 & He2).
  fold ws in H1, He1, H2, He2.
  destruct (run_script git resolve (git_log s) ws (push_script branch message remote)) as [log ok] eqn:Hs.
  destruct (run_script git resolve (git_log s) ws (push_script branch title remote)) as [log' ok'] eqn:Hs'.
  simpl in H1, He1, H2, He2. split; [|split].
  - unfold push_branch, fbind. rewrite H1. eexists m1, _. split; [reflexivity|].
    unfold _render_action_result, render. simpl. rewrite He1, negb_involutive.
    by destruct renderer as [f|]; [destruct (ctx_task s); [destruct (f _ _)|]|].
  - unfold push_and_create_pr, fbind. rewrite H2, He2. destruct ok'; simpl.
    2:{ unfold _render_action_result, render, fret. simpl. rewrite He2, app_nil_r.
        by destruct renderer as [f|]; [destruct (ctx_task s); [destruct (f _ _)|]|]. }
    unfold try_pull_request, create_pull_request, fbind. simpl. fold ws.
    destruct (gh (gh_log s) ws _) as [|text|code o e] eqn:Hgh; simpl;
      [split; [done|]; split; [done|]; split; [done|]; by left| |].
    { split; [done|]. split; [done|]. split; [done|]. right. by exists text. }
    destruct (Z.eqb_spec code 0) as [->|Hc]; simpl;
      unfold _render_action_result, render, fmodify, fret; simpl;
      (destruct renderer as [f|]; [destruct (ctx_task s); [destruct (f _ _)|]|]); simpl;
      (split; [done|]; split; [done|]); intros Ht; first [discriminate | by split; [|eexists _, _]].
  - intros Hr. unfold push_script, checkout_script in Hs. simpl in Hs. unfold step_ok in Hs.
    rewrite decide_True, Hr in Hs by done. by injection Hs as <- _.
Qed.

(** Work that is already committed cannot be pushed.  The commit step
    tolerates git's "nothing to commit", but git prints that notice to its
    standard output and exits with 1, and of a failed process [run_git]
    returns the standard error only.  So when the first attempt committed
    and the push or the pull request failed, every later attempt fails at
    the commit and pushes nothing. *)
Theorem committed_work_cannot_be_pushed git resolve renderer branch message remote s notice :
  let ws := ta_workspace_root (task s) in
  (forall log, at_root git resolve log ws = true) ->
  (forall log, is_git_error (answer git _GIT_TIMEOUT_S log ws ["checkout"; "-B"; branch]) = false) ->
  (forall log, is_git_error (answer git _GIT_TIMEOUT_S log ws ["add"; "-A"]) = false) ->
  (forall log, git log ws ["commit"; "-m"; message] =
     GitExited 1 ("nothing to commit" +:+ notice) "") ->
  exists s', push_branch git resolve renderer branch message remote s =
      (inr ("Error: git commit failed: Exit code: 1" +:+ newline), s') /\
    git_log s' = git_log s ++ checkout_script branch ++ commit_script message /\
    st_is_terminal s' = false.
Proof.
  intros ws Hroot Hco Hadd Hcommit.
  assert (Hm : _do_push_branch git resolve branch message remote s =
    (inr ("Error: git commit failed: Exit code: 1" +:+ newline),
     set_git_log (git_log s ++ checkout_script branch ++ commit_script message) s)).
  { unfold _do_push_branch. fold ws.
    assert (He : forall s', _ensure_git_workspace_root git resolve ws s' =
      (inr tt, set_git_log (git_log s' ++ [toplevel_args]) s')).
    { intros s'. destruct (follows_root git resolve ws s') as (x & Hx & Hr).
      unfold run_script, step_ok in Hx, Hr. rewrite decide_True in Hx, Hr by done.
      rewrite Hroot in Hx, Hr. simpl in Hx, Hr. destruct Hr as [[] ->]. exact Hx. }
    unfold checkout_branch, commit_workspace, fbind. rewrite He. simpl.
    unfold answer in Hco, Hadd. rewrite Hco. simpl. rewrite He. simpl.
    rewrite Hadd. simpl. rewrite Hcommit. simpl.
    unfold set_git_log, log_git. simpl. by rewrite <- !app_assoc. }
  unfold push_branch, fbind. rewrite Hm. eexists. split; [reflexivity|].
  unfold _render_action_result, render. simpl.
  by destruct renderer as [f|]; [destruct (ctx_task s); [destruct (f _ _)|]|].
Qed.

(** ** A session *)

(** The assignments of one workflow differ in prompt, limits and iteration. *)
Definition same_work (t t' : TaskAssignPayload) : Prop :=
  ta_workflow_id t' = ta_workflow_id t /\ ta_parent_sandbox_id t' = ta_parent_sandbox_id t /\
  ta_agent_id t' = ta_agent_id t /\ ta_workspace_root t' = ta_workspace_root t /\
  ta_tool_surface t' = ta_tool_surface t /\ ta_context_files t' = ta_context_files t /\
  ta_workspace_baseline t' = ta_workspace_baseline t.

(** What a session may have done to its workflow, which started as [t]. *)
Record on_workflow (resolve : string -> string) (t : TaskAssignPayload)
  (s : FinalizationSession) : Prop := {
  ow_task : same_work t (task s);
  ow_context : forall c, ctx_task s = Some c -> c = task s;
  ow_assigned : Forall (fun t' => same_work t t' /\ ta_is_iteration t' = true) (assigned s);
  ow_numbers : map ta_iteration_number (assigned s) =
               seqZ (ta_iteration_number t + 1) (Z.of_nat (length (assigned s)));
  ow_number : ta_iteration_number (task s) = (ta_iteration_number t + Z.of_nat (length (assigned s)))%Z;
  ow_removed : Forall (fun p => p = resolve (ta_workspace_root t) /\
                 _looks_like_per_agent_workspace p (ta_agent_id t) = true) (removed s)
}.

Section session.
Context (git : list (list string) -> string -> list string -> GitProcess).
Context (gh : list (list string) -> string -> list string -> GhProcess).
Context (resolve : string -> string).
Context (renderer : option (list Rendered -> Rendered -> option string)).
Context (path_exists : string -> bool) (rmtree : string -> option string).
Context (delegate : option (list TaskAssignPayload -> TaskAssignPayload -> option string)).
Context (validation_error : TaskAssignPayload -> string).
Context (t : TaskAssignPayload).

Abbreviation call := (run_call git gh resolve renderer path_exists rmtree delegate validation_error).

(** Two sessions that differ in processes run, posts and recorded outcome. *)
Definition same_core (s s' : FinalizationSession) : Prop :=
  task s' = task s /\ ctx_task s' = ctx_task s /\ assigned s' = assigned s /\ removed s' = removed s.

Lemma on_workflow_core s s' : same_core s s' -> on_workflow resolve t s -> on_workflow resolve t s'.
Proof.
  intros (Ht & Hc & Ha & Hr) []. constructor; by rewrite ?Ht, ?Hc, ?Ha, ?Hr.
Qed.

Lemma render_core r s : same_core s (render renderer r s).2.
Proof. unfold render. by destruct renderer as [f|]; [destruct (ctx_task s); [destruct (f _ _)|]|]. Qed.

Lemma action_core a m s : same_core s (_render_action_result renderer a m s).2.
Proof. apply render_core. Qed.

Lemma core_trans a b c : same_core a b -> same_core b c -> same_core a c.
Proof. unfold same_core. intros (? & ? & ? & ?) (? & ? & ? & ?). repeat split; congruence. Qed.

(** Rendering the outcome and recording it. *)
Lemma finish_core a m (b : FinalizationSession -> bool) s :
  same_core s ((_render_action_result renderer a m ;; fmodify (fun s => set_state a m (b s) s) ;;
                fret m)%fin s).2.
Proof. exact (action_core a m s). Qed.

Lemma do_push_core b m r s : same_core s (_do_push_branch git resolve b m r s).2.
Proof. destruct (do_push_follows git resolve b m r s) as (msg & -> & _). done. Qed.

Lemma pull_request_core title body s : same_core s (try_pull_request gh title body s).2.
Proof.
  unfold try_pull_request, create_pull_request, fbind. simpl.
  destruct (gh _ _ _) as [|text|code o e]; [done..|]. by destruct (negb _).
Qed.

Lemma re_delegate_on_workflow p n m s :
  on_workflow resolve t s ->
  on_workflow resolve t (re_delegate renderer delegate validation_error p n m s).2.
Proof.
  intros Hs. unfold re_delegate. destruct delegate as [send|]; [|done].
  destruct (negb _); [done|]. set (t' := followup p n m (task s)).
  assert (Hs' : on_workflow resolve t (log_assigned t' (set_task t' s))).
  { destruct Hs as [(H1 & H2 & H3 & H4 & H5 & H6 & H7) Hc Ha Hn Hi Hr].
    assert (Hw : same_work t t') by done.
    constructor; simpl; [done| | | | |done].
    - intros c. by destruct (ctx_task s); intros [= <-].
    - apply Forall_app. split; [done|]. by constructor.
    - rewrite length_app, List.map_app, Hn. simpl. rewrite Nat2Z.inj_add, seqZ_app by lia.
      f_equal. rewrite (seqZ_cons _ (Z.of_nat 1)), (seqZ_nil _ (Z.pred _)), Hi by lia. f_equal. lia.
    - rewrite length_app, Hi. simpl. lia. }
  unfold fbind at 1 2, fmodify at 1. destruct (send _ _); [exact Hs'|].
  eapply on_workflow_core; [|exact Hs']. exact (finish_core RE_DELEGATE _ st_is_terminal _).
Qed.

Lemma discard_on_workflow reason s :
  on_workflow resolve t s ->
  on_workflow resolve t (discard_work resolve renderer path_exists rmtree reason s).2.
Proof.
  intros Hs. unfold discard_work. destruct (negb _) eqn:Hl.
  { eapply on_workflow_core; [|exact Hs]. exact (finish_core DISCARD_WORK _ st_is_terminal s). }
  apply negb_false_iff in Hl.
  assert (Hs' : on_workflow resolve t (log_removed (resolve (ta_workspace_root (task s))) s)).
  { destruct Hs as [Hw Hc Ha Hn Hi Hr]. constructor; try done.
    destruct Hw as (_ & _ & Hag & Hws & _). rewrite Hag in Hl. simpl. rewrite Hws in Hl |- *.
    apply Forall_app. split; [done|]. by repeat constructor. }
  unfold fbind. destruct (path_exists _); [destruct (rmtree _); [exact Hs'|]|].
  - eapply on_workflow_core; [|exact Hs']. exact (finish_core DISCARD_WORK _ (fun _ => true) _).
  - eapply on_workflow_core; [|exact Hs]. exact (finish_core DISCARD_WORK _ (fun _ => true) _).
Qed.

Lemma call_on_workflow c s : on_workflow resolve t s -> on_workflow resolve t (call c s).2.
Proof.
  intros Hs. destruct c as [summary d|b m r|b title body r|reason|p n m|]; simpl.
  - eapply on_workflow_core; [|exact Hs]. unfold present_work_to_user, fbind.
    pose proof (render_core (RenderWork (opt_or summary (tk_summary (complete s)))
      (if d && str_truthy (tk_diff (complete s))
       then py_prefix _DIFF_PREVIEW_LIMIT (tk_diff (complete s)) else "")) s) as Hr.
    simpl. by destruct (render _ _ s) as [[x|[]] s1].
  - eapply on_workflow_core; [|exact Hs]. pose proof (do_push_core b m r s) as Hp.
    unfold push_branch, fbind. destruct (_do_push_branch _ _ _ _ _ s) as [[x|msg] s1]; [done|].
    exact (core_trans _ _ _ Hp (finish_core PUSH_BRANCH msg (fun _ => _) s1)).
  - eapply on_workflow_core; [|exact Hs]. pose proof (do_push_core b title r s) as Hp.
    unfold push_and_create_pr, fbind. destruct (_do_push_branch _ _ _ _ _ s) as [[x|msg] s1]; [done|].
    destruct (startswith _ _).
    { exact (core_trans _ _ _ Hp (finish_core PUSH_AND_CREATE_PR msg (fun _ => _) s1)). }
    pose proof (pull_request_core title body s1) as Hq.
    destruct (try_pull_request _ _ _ s1) as [[x|msg'] s2]; [by eapply core_trans|].
    eapply core_trans; [exact Hp|]. exact (core_trans _ _ _ Hq (finish_core PUSH_AND_CREATE_PR msg' (fun _ => _) s2)).
  - by apply discard_on_workflow.
  - by apply re_delegate_on_workflow.
  - eapply on_workflow_core; [|exact Hs]. exact (finish_core DESTROY_SANDBOX _ (fun _ => true) s).
Qed.

Lemma calls_on_workflow cs s :
  on_workflow resolve t s ->
  on_workflow resolve t (run_calls git gh resolve renderer path_exists rmtree delegate validation_error cs s).
Proof. revert s. induction cs as [|c cs IH]; intros s Hs; [done|]. by apply IH, call_on_workflow. Qed.

Lemma verify_diff_core s : same_core s (_verify_diff git resolve (task s) s).2.
Proof.
  unfold _verify_diff. destruct (ta_workspace_baseline (task s)) as [b|]; [|done].
  unfold diff_against_baseline, fbind, run_git. case_match; [done|]. simpl. by case_match.
Qed.
End session.

(** Tools after which the workflow goes on. *)
Definition keeps_open (c : FinCall) : bool :=
  match c with CallPresent _ _ | CallReDelegate _ _ _ => true | _ => false end.

Lemma render_terminal renderer r s : st_is_terminal (render renderer r s).2 = st_is_terminal s.
Proof. unfold render. by destruct renderer as [f|]; [destruct (ctx_task s); [destruct (f _ _)|]|]. Qed.

Lemma open_calls git gh resolve renderer path_exists rmtree delegate verr cs s :
  Forall (fun c => keeps_open c = true) cs ->
  st_is_terminal (run_calls git gh resolve renderer path_exists rmtree delegate verr cs s)
    = st_is_terminal s.
Proof.
  intros HF. revert s. induction HF as [|c cs Hc HF IH]; intros s; [done|].
  unfold run_calls in *. simpl. rewrite IH.
  destruct c as [summary d| | | |p n m|]; try done; simpl.
  - unfold present_work_to_user, fbind. simpl.
    match goal with |- context [render ?f ?r s] => pose proof (render_terminal f r s) as Hr end.
    by destruct (render _ _ s) as [[x|[]] s1].
  - unfold re_delegate. destruct delegate as [send|]; [|done]. destruct (negb _); [done|].
    unfold fbind, fmodify. destruct (send _ _); [done|].
    match goal with |- context [_render_action_result ?f ?a ?m ?s] =>
      exact (render_terminal f (RenderAction a m) s) end.
Qed.

(** A finalisation stays on its workflow.  A completion whose baseline
    is not the assigned one stops before anything is run, posted, removed or
    assigned.  Otherwise, whatever tools the model calls and however they
    fail: every follow-up goes to the same workflow, agent, workspace and
    baseline, and the follow-ups are numbered one after the other; the
    registered context holds the assignment made last; only the agent's own
    workspace directory is ever removed; and a workflow whose work was only
    presented or re-delegated stays registered, unless no tool recorded an
    outcome. *)
Theorem finalization_stays_on_workflow git gh resolve renderer path_exists rmtree delegate verr
  t c (with_context : bool) calls outcome :
  let s := new_session t c (if with_context then Some t else None) in
  let out := finalize git gh resolve renderer path_exists rmtree delegate verr calls outcome s in
  on_workflow resolve t out.2 /\
  (ta_workspace_baseline t <> tk_workspace_baseline c ->
     out.2 = s /\ exists x, out.1 = inl x) /\
  (ta_workspace_baseline t = tk_workspace_baseline c ->
     Forall (fun c => keeps_open c = true) calls ->
     match out.1 with
     | inl x => exists text, outcome = inl text /\ x = FOther text
     | inr r => fr_is_terminal r = match st_action out.2 with Some _ => false | None => true end
     end).
Proof.
  intros s.
  assert (H0 : on_workflow resolve t s).
  { constructor; simpl; try done; [|lia]. by destruct with_context; [intros ? [= <-]|]. }
  assert (H1 := on_workflow_core resolve t _ _ (verify_diff_core git resolve s) H0).
  assert (H2 := calls_on_workflow git gh resolve renderer path_exists rmtree delegate verr t calls _ H1).
  unfold finalize, verify_baseline, fbind, fmodify.
  case_bool_decide as Hb; simpl in Hb; cbv zeta; simpl.
  2:{ split; [done|]. split; [|done]. intros _. split; [done|by eexists]. }
  assert (Ht : st_is_terminal (_verify_diff git resolve t s).2 = false).
  { unfold _verify_diff. destruct (ta_workspace_baseline t) as [b|]; [|done].
    unfold diff_against_baseline, fbind, run_git. case_match; [done|]. simpl. by case_match. }
  change (task s) with t in *.
  destruct (_verify_diff git resolve t s) as [[x|[]] s1] eqn:Hv.
  { exfalso. unfold _verify_diff in Hv. by destruct (ta_workspace_baseline t). }
  simpl in *. split; [by destruct outcome|]. split; [done|]. intros _ HF.
  destruct outcome as [text|content]; simpl; [by exists text|].
  by rewrite open_calls, Ht by done.
Qed.

(** ** Witnesses *)

Definition sample_assign : TaskAssignPayload :=
  {| ta_prompt := "fix the bug"; ta_workflow_id := "wf-1"; ta_parent_sandbox_id := "orch";
     ta_agent_id := "coding-12"; ta_workspace_root := "/ws/agent-12"; ta_max_turns := None;
     ta_model := None; ta_tool_surface := None; ta_context_files := [];
     ta_workspace_baseline := None; ta_is_iteration := false; ta_iteration_number := 0 |}.

Definition sample_complete : TaskCompletePayload :=
  {| tk_workflow_id := "wf-1"; tk_summary := "fixed"; tk_diff := ""; tk_workspace_baseline := None;
     tk_files_changed := []; tk_notes_path := None; tk_git_commit_sha := None;
     tk_tool_calls_made := 3; tk_rounds_used := 2; tk_model_used := None;
     tk_suggested_next_step := None |}.

(** git in a repository whose work is committed. *)
Definition clean_git : list (list string) -> string -> list string -> GitProcess :=
  fun _ _ args => match args with
                  | "rev-parse" :: _ => GitExited 0 ("/ws/agent-12" +:+ newline) ""
                  | "commit" :: _ => GitExited 1 ("nothing to commit" +:+ ", working tree clean") ""
                  | _ => GitExited 0 "" ""
                  end.

Lemma committed_work_cannot_be_pushed_witness :
  exists s', push_branch clean_git (fun p => p) None "finalize/wf-1" "fix the bug" "origin"
      (new_session sample_assign sample_complete None) =
      (inr ("Error: git commit failed: Exit code: 1" +:+ newline), s') /\
    git_log s' = [] ++ checkout_script "finalize/wf-1" ++ commit_script "fix the bug" /\
    st_is_terminal s' = false.
Proof.
  apply (committed_work_cannot_be_pushed clean_git (fun p => p) None "finalize/wf-1" "fix the bug"
    "origin" (new_session sample_assign sample_complete None) ", working tree clean").
  - intros log. vm_compute. reflexivity.
  - intros log. vm_compute. reflexivity.
  - intros log. vm_compute. reflexivity.
  - intros log. reflexivity.
Defined.
