(* ===== verification/GitHelpers.v ===== *)
(** * GitHelpers

    The git helpers of the life cycle code ([agent/git_helpers.py]): the
    baseline a workspace is pinned to, and the diff against it, with the
    exceptions each raises; what a resolved baseline says, and that the diff
    is the one of the finalisation. *)

From S2P Require Import Prelude Protocol Finalization.

Inductive GitHelperExc :=
| WorkspaceNotAGitRepoError (workspace_root : string)
| GitDiffError (workspace_root base_sha output : string)
| RuntimeError (text : string)
| BaselineValidationError.

(** From the processes run so far. *)
Definition GM (A : Type) : Type := list (list string) -> (GitHelperExc + A) * list (list string).

Definition gret {A} (x : A) : GM A := fun l => (inr x, l).
Definition graise {A} (x : GitHelperExc) : GM A := fun l => (inl x, l).
Definition gbind {A B} (m : GM A) (k : A -> GM B) : GM B :=
  fun l => match m l with (inr x, l) => k x l | (inl x, l) => (inl x, l) end.

Declare Scope git_scope.
Delimit Scope git_scope with git.
Notation "x <- m ; k" := (gbind m (fun x => k))
  (at level 100, m at next level, right associativity) : git_scope.
Notation "m ;; k" := (gbind m (fun _ => k)) (at level 100, right associativity) : git_scope.

Section helpers.
Context (git : list (list string) -> string -> list string -> GitProcess).
Context (resolve : string -> string).

(** [await run_git(workspace_root, ...)] *)
Definition git_call (ws : string) (args : list string) : GM string :=
  fun l => (inr (git_output _GIT_TIMEOUT_S (git l ws args)), l ++ [args]).

Definition _require_git_workspace_root (ws : string) : GM unit :=
  (out <- git_call ws ["rev-parse"; "--show-toplevel"];
   let top_level := strip out in
   if is_git_error top_level then graise (WorkspaceNotAGitRepoError ws)
   else if negb (String.eqb (resolve top_level) (resolve ws)) then
     graise (WorkspaceNotAGitRepoError ws)
   else gret tt)%git.

(** The [except] catches the only exception of the root check. *)
Definition _is_shallow (ws : string) : GM bool := fun l =>
  match _require_git_workspace_root ws l with
  | (inl _, l) => (inr true, l)
  | (inr tt, l) =>
      (out <- git_call ws ["rev-parse"; "--is-shallow-repository"];
       gret (negb (String.eqb (strip out) "false")))%git l
  end.

Definition resolve_baseline (ws branch : string) : GM WorkspaceBaseline :=
  (_require_git_workspace_root ws ;;
   out <- git_call ws ["rev-parse"; "HEAD"];
   let head_sha := strip out in
   if is_git_error head_sha then
     if str_contains "not a git repository" head_sha || str_contains "Not a git repository" head_sha
     then graise (WorkspaceNotAGitRepoError ws)
     else graise (RuntimeError ("git rev-parse HEAD failed: " +:+ head_sha))
   else
     out <- git_call ws ["config"; "--get"; "remote.origin.url"];
     let repo_url := if is_git_error (strip out) then "" else strip out in
     shallow <- _is_shallow ws;
     if str_truthy branch && str_truthy head_sha then
       gret {| repo_url := str_or repo_url "unknown"; branch := branch; base_sha := head_sha;
               is_shallow := shallow |}
     else graise BaselineValidationError)%git.

Definition diff_against_baseline (ws base : string) : GM string :=
  (_require_git_workspace_root ws ;;
   git_call ws ["add"; "--intent-to-add"; "--all"] ;;
   diff <- git_call ws ["diff"; base];
   if is_git_error diff then graise (GitDiffError ws base diff) else gret diff)%git.

(** ** Theorems *)

(** The root check passes after the given processes. *)
Definition own_root (l : list (list string)) (ws : string) : bool :=
  let top := strip (git_output _GIT_TIMEOUT_S (git l ws ["rev-parse"; "--show-toplevel"])) in
  negb (is_git_error top) && String.eqb (resolve top) (resolve ws).

Lemma require_spec ws l :
  _require_git_workspace_root ws l =
  (if own_root l ws then inr tt else inl (WorkspaceNotAGitRepoError ws),
   l ++ [["rev-parse"; "--show-toplevel"]]).
Proof.
  unfold _require_git_workspace_root, gbind, git_call, own_root.
  destruct (is_git_error _); [done|]. by destruct (String.eqb _ _).
Qed.

(** The diff of the sub-agent is the diff the finalisation derives: the same
    processes, the same text, and an exception in the same cases. *)
Lemma same_diff ws base s :
  let '(x, l) := diff_against_baseline ws base (git_log s) in
  let '(y, s') := Finalization.diff_against_baseline git resolve ws base s in
  git_log s' = l /\ match x, y with
                   | inr d, inr d' => d = d'
                   | inl _, inl _ => True
                   | _, _ => False
                   end.
Proof.
  unfold diff_against_baseline, Finalization.diff_against_baseline, gbind at 1, fbind at 1.
  rewrite require_spec. unfold own_root, run_git.
  destruct (is_git_error (strip _)); [done|]. destruct (String.eqb _ _); [|done]. cbn.
  destruct (is_git_error _); done.
Qed.

(** Outside the root of its own repository nothing but the check runs. *)
Lemma outside_a_root ws base l :
  own_root l ws = false ->
  diff_against_baseline ws base l =
    (inl (WorkspaceNotAGitRepoError ws), l ++ [["rev-parse"; "--show-toplevel"]]) /\
  (forall b, resolve_baseline ws b l =
    (inl (WorkspaceNotAGitRepoError ws), l ++ [["rev-parse"; "--show-toplevel"]])) /\
  (_is_shallow ws l).1 = inr true.
Proof.
  intros H. unfold diff_against_baseline, resolve_baseline, _is_shallow, gbind.
  rewrite require_spec, H. done.
Qed.

(** Without git a workspace is reported as no repository, never by a
    [RuntimeError]. *)
Lemma git_missing ws b l :
  (forall l args, git l ws args = GitMissing) ->
  (resolve_baseline ws b l).1 = inl (WorkspaceNotAGitRepoError ws).
Proof.
  intros H. unfold resolve_baseline, gbind. rewrite require_spec. unfold own_root. by rewrite H.
Qed.

Definition READ_ONLY_GIT : list (list string) :=
  [["rev-parse"; "--show-toplevel"]; ["rev-parse"; "HEAD"];
   ["config"; "--get"; "remote.origin.url"]; ["rev-parse"; "--is-shallow-repository"]].

Lemma is_shallow_spec ws l :
  exists r l', _is_shallow ws l = (inr r, l ++ l') /\
    Forall (fun a => a ∈ READ_ONLY_GIT) l' /\
    (r = false -> exists l'', strip (git_output _GIT_TIMEOUT_S
       (git l'' ws ["rev-parse"; "--is-shallow-repository"])) = "false").
Proof.
  unfold _is_shallow. rewrite require_spec. destruct (own_root l ws).
  - cbn. eexists _, [_; _]. rewrite <- app_assoc. split; [done|]. split.
    + repeat (apply list.Forall_cons; split; [unfold READ_ONLY_GIT; set_solver|]). by apply list.Forall_nil.
    + intros H. apply negb_false_iff, String.eqb_eq in H. eauto.
  - eexists _, [_]. split; [done|]. split; [|done].
    apply list.Forall_cons. split; [unfold READ_ONLY_GIT; set_solver|]. by apply list.Forall_nil.
Qed.

(** A resolved baseline: of the given branch, with no empty field; the
    workspace is the root of its repository; git was only asked; and a
    history is complete only when git says so. *)
Lemma resolved_baseline ws br l b l' :
  resolve_baseline ws br l = (inr b, l') ->
  own_root l ws = true /\ branch b = br /\
  str_truthy (branch b) = true /\ str_truthy (base_sha b) = true /\ str_truthy (repo_url b) = true /\
  (exists asked, l' = l ++ asked /\ Forall (fun a => a ∈ READ_ONLY_GIT) asked) /\
  (is_shallow b = false -> exists l'', strip (git_output _GIT_TIMEOUT_S
     (git l'' ws ["rev-parse"; "--is-shallow-repository"])) = "false").
Proof.
  unfold resolve_baseline, gbind. rewrite require_spec. destruct (own_root l ws); [|done].
  cbn [git_call]. intros H. split; [done|].
  destruct (is_git_error _); [by case_match|].
  match type of H with context [_is_shallow ws ?l2] =>
    destruct (is_shallow_spec ws l2) as (r & l3 & Hr & Ha & Hs) end.
  rewrite Hr in H. case_match eqn:Hv; [|done]. injection H as <- <-.
  apply andb_true_iff in Hv as [Hb Hh]. cbn. split_and!; try done.
  - unfold str_or. by case_match.
  - rewrite <- !app_assoc. eexists. split; [done|]. simpl.
    repeat (apply list.Forall_cons; split; [unfold READ_ONLY_GIT; set_solver|]). done.
Qed.
End helpers.

(** ** At work *)

Definition a_clone (l : list (list string)) (ws : string) (args : list string) : GitProcess :=
  match args with
  | ["rev-parse"; "--show-toplevel"] => GitExited 0 "/w" ""
  | ["rev-parse"; "HEAD"] => GitExited 0 "abc123" ""
  | ["rev-parse"; _] => GitExited 0 "false" ""
  | _ => GitExited 1 "" "no such key"
  end.

Example a_clone_resolves :
  (resolve_baseline a_clone (fun p => p) "/w" "main" []).1 =
  inr {| repo_url := "unknown"; branch := "main"; base_sha := "abc123"; is_shallow := false |}.
Proof. reflexivity. Qed.
