(* ===== verification/SlackFinalization.v ===== *)
(** * SlackFinalization

    The Slack side of finalisation ([connectors/slack/finalization.py]): the
    posts of [SlackFinalizationRenderer] as calls of the Slack client.  A
    call Slack refuses is logged and forgotten ([_post]), so no method here
    can fail; [None] stands for a cutting loop that does not end. *)

From S2P Require Import Prelude Json AgentTypes Connector Protocol Finalization Slack SlackTheorems.
From S2P Require Import SlackConnector.

Definition _FENCE_OVERHEAD : Z := 16.
Definition _BUILD_PREVIEW_LIMIT : Z := _SLACK_SECTION_TEXT_LIMIT * 4.
Definition _ACTION_FALLBACK_TEXT_LIMIT : Z := 200.

Definition blank_line : string := newline +:+ newline.

(** [str(action)] and [str(kind)] *)
Definition action_text (a : FinalizationAction) : string :=
  match a with
  | PRESENT_WORK_TO_USER => "present_work_to_user" | PUSH_BRANCH => "push_branch"
  | PUSH_AND_CREATE_PR => "push_and_create_pr" | DISCARD_WORK => "discard_work"
  | RE_DELEGATE => "re_delegate" | DESTROY_SANDBOX => "destroy_sandbox"
  | MODEL_RESPONSE => "model_response"
  end.

Definition _ACTION_ICONS (action : string) : string :=
  if String.eqb action "push_branch" then ":arrow_up:"
  else if String.eqb action "push_and_create_pr" then ":arrows_counterclockwise:"
  else if String.eqb action "discard_work" then ":wastebasket:"
  else if String.eqb action "re_delegate" then ":repeat:"
  else if String.eqb action "destroy_sandbox" then ":boom:"
  else ":information_source:".

(** ** Blocks *)

Definition _text_section_blocks (text : string) : option (list json) :=
  if str_truthy text then
    chunks ← _split_text_for_slack text _SLACK_SECTION_TEXT_LIMIT;
    Some (map _section (take _SLACK_MAX_TEXTBLOCK_CHUNKS chunks))
  else Some [].

Definition fenced (language chunk : string) : string :=
  "```" +:+ language +:+ newline +:+ chunk +:+ newline +:+ "```".

Definition _code_fence_section_blocks (body language : string) : option (list json) :=
  if str_truthy body then
    chunks ← _split_text_for_slack body (_SLACK_SECTION_TEXT_LIMIT - _FENCE_OVERHEAD);
    Some (map (fun chunk => _section (fenced language chunk))
              (take _SLACK_MAX_TEXTBLOCK_CHUNKS chunks))
  else Some [].

Definition _button (label action_id value : string) (style : option string) : json :=
  button label action_id style value.

(** The three buttons of a workflow. *)
Definition finalization_buttons (workflow_id : string) : json :=
  JObj [("type", JStr "actions");
        ("elements", JArr
          [_button "Push & PR" FINALIZATION_PUSH_PR workflow_id (Some "primary");
           _button "Iterate" FINALIZATION_ITERATE workflow_id None;
           _button "Discard" FINALIZATION_DISCARD workflow_id (Some "danger")])].

(** The platform-neutral form of the same message. *)
Definition build_present_work_response (channel : string) (thread : option string)
  (workflow_id summary diff : string) : RichResponse :=
  let text := "*Sub-agent work ready for review*" +:+ blank_line +:+ summary in
  let text := if str_truthy diff
              then text +:+ blank_line +:+ "```diff" +:+ newline +:+
                   py_prefix _BUILD_PREVIEW_LIMIT diff +:+ newline +:+ "```"
              else text in
  {| resp_channel_id := channel; resp_thread_ts := thread;
     blocks := [TextBlock text;
                ActionBlock
                  [{| label := "Push & PR"; btn_action_id := FINALIZATION_PUSH_PR;
                      btn_value := workflow_id; btn_style := Some "primary" |};
                   {| label := "Iterate"; btn_action_id := FINALIZATION_ITERATE;
                      btn_value := workflow_id; btn_style := None |};
                   {| label := "Discard"; btn_action_id := FINALIZATION_DISCARD;
                      btn_value := workflow_id; btn_style := Some "danger" |}]];
     error_category := None; suppress_post := false |}.

(** ** The renderer *)

Definition _post (ch : string) (thread : option string) (text : string)
  (bs : option (list json)) : list Call :=
  [chat_postMessage ch thread (str_or text "…") bs].

(** A post to the workflow's thread, for a workflow that has a channel. *)
Definition post_to (c : WorkflowContext) (text : string) (bs : option (list json))
  : option (list Call) :=
  match wf_channel_id c with
  | None => Some []
  | Some ch => bs ← bs; Some (_post ch (wf_thread_ts c) text (Some bs))
  end.

Definition render_present_work (c : WorkflowContext) (summary diff : string)
  : option (list Call) :=
  post_to c summary
    (body ← _text_section_blocks
       (":robot_face: *Sub-agent work ready for review*" +:+ blank_line +:+ summary);
     diff_blocks ← (if str_truthy diff then _code_fence_section_blocks diff "diff" else Some []);
     Some (body ++ diff_blocks ++ [finalization_buttons (wf_workflow_id c)])).

Definition render_finalization_action (c : WorkflowContext) (action result : string)
  : option (list Call) :=
  post_to c (action +:+ ": " +:+ py_prefix _ACTION_FALLBACK_TEXT_LIMIT result)
    (head ← _text_section_blocks (_ACTION_ICONS action +:+ " *" +:+ action +:+ "*");
     body ← _code_fence_section_blocks result "";
     Some (head ++ body)).

Definition render_workflow_progress (c : WorkflowContext) (note : option string) : list Call :=
  match wf_channel_id c, note with
  | Some ch, Some note =>
      _post ch (wf_thread_ts c) (":hourglass_flowing_sand: " +:+ note) None
  | _, _ => []
  end.

Definition render_workflow_error (c : WorkflowContext) (e : TaskErrorPayload)
  : option (list Call) :=
  post_to c (te_error e)
    (head ← _text_section_blocks
       (":warning: *Sub-agent reported an error* (`" +:+ kind_text (te_error_kind e) +:+
        "`, recoverable=" +:+ (if te_recoverable e then "True" else "False") +:+ ")");
     body ← _code_fence_section_blocks (te_error e) "";
     Some (head ++ body)).

Definition render_workflow_completion_failure (c : WorkflowContext) (error : string)
  : option (list Call) :=
  post_to c error
    (head ← _text_section_blocks
       (":x: *Finalisation failed for workflow " +:+ wf_workflow_id c +:+ "*");
     body ← _code_fence_section_blocks error "";
     foot ← _text_section_blocks
       "_The sub-agent's diff is on disk; you can inspect the workspace manually._";
     Some (head ++ body ++ foot)).

(** The renderer the finalisation tools are given: none of its posts
    raises. *)
Definition slack_renderer : list Rendered -> Rendered -> option string := fun _ _ => None.

(** The calls a post of the finalisation tools makes. *)
Definition slack_calls (c : WorkflowContext) (r : Rendered) : option (list Call) :=
  match r with
  | RenderWork summary diff => render_present_work c summary diff
  | RenderAction a result => render_finalization_action c (action_text a) result
  end.

(** ** What is posted *)

Lemma fits_section t :
  (py_len t <= _SLACK_SECTION_TEXT_LIMIT)%Z -> section_fits (_section t) /\ block_ok (_section t) = true.
Proof. intros H. split; [by exists t|done]. Qed.

Definition sections_ok (bs : list json) : Prop :=
  (length bs <= _SLACK_MAX_TEXTBLOCK_CHUNKS)%nat /\
  Forall (fun j => section_fits j /\ block_ok j = true) bs.

Lemma text_sections_ok text :
  exists bs, _text_section_blocks text = Some bs /\ sections_ok bs /\
    (length bs = _SLACK_MAX_TEXTBLOCK_CHUNKS \/
     joined (map (fun j => visible (default "" (section_text j))) bs) = visible text).
Proof.
  unfold _text_section_blocks. destruct (str_truthy text) eqn:Ht.
  2: { exists []. destruct text; [|done]. split; [done|]. split; [by repeat constructor|by right]. }
  destruct (split_total _SLACK_SECTION_TEXT_LIMIT text ltac:(done)) as (chunks & -> & Hc & Hv & _).
  eexists; split; [done|]. split; [split|].
  - rewrite length_map, length_take. lia.
  - apply Forall_map, Forall_take. eapply List.Forall_impl; [|exact Hc]. apply fits_section.
  - destruct (Nat.le_gt_cases _SLACK_MAX_TEXTBLOCK_CHUNKS (length chunks)) as [Hl|Hl].
    + left. rewrite length_map, length_take. lia.
    + right. rewrite take_ge by lia. rewrite map_map. exact Hv.
Qed.

Lemma fence_fits language chunk :
  (py_len language <= 4)%Z -> (py_len chunk <= _SLACK_SECTION_TEXT_LIMIT - _FENCE_OVERHEAD)%Z ->
  (py_len (fenced language chunk) <= _SLACK_SECTION_TEXT_LIMIT)%Z.
Proof.
  intros Hl Hc. unfold fenced. rewrite !py_len_app.
  change (py_len "```") with 3%Z. change (py_len newline) with 1%Z.
  unfold _FENCE_OVERHEAD in Hc. lia.
Qed.

Lemma fence_sections_ok body language :
  (py_len language <= 4)%Z ->
  exists bs, _code_fence_section_blocks body language = Some bs /\ sections_ok bs.
Proof.
  intros Hl. unfold _code_fence_section_blocks. destruct (str_truthy body).
  2: { exists []. by repeat constructor. }
  destruct (split_total (_SLACK_SECTION_TEXT_LIMIT - _FENCE_OVERHEAD) body ltac:(done))
    as (chunks & -> & Hc & _).
  eexists; split; [done|]. split.
  - rewrite length_map, length_take. lia.
  - apply Forall_map, Forall_take. eapply List.Forall_impl; [|exact Hc].
    intros c Hc'. by apply fits_section, fence_fits.
Qed.

Lemma diff_sections_ok diff :
  exists bs, (if str_truthy diff then _code_fence_section_blocks diff "diff" else Some []) = Some bs /\
             sections_ok bs.
Proof.
  destruct (str_truthy diff); [by apply fence_sections_ok|]. exists []. by repeat constructor.
Qed.

Lemma sections_fit bs : sections_ok bs -> Forall section_fits bs.
Proof. intros [_ H]. eapply List.Forall_impl; [|exact H]. by intros j []. Qed.

Lemma sections_typed bs : sections_ok bs -> Forall (fun j => block_ok j = true) bs.
Proof. intros [_ H]. eapply List.Forall_impl; [|exact H]. by intros j []. Qed.

(** Finished work is posted once, in the workflow's thread, within
    Slack's limits on a section: the summary first, in at most forty sections
    that show every visible character of it unless there are forty, then the
    diff in fences of at most forty sections, then the three buttons, each
    carrying the workflow's id.  The two halves are bounded apart, not the
    post, and its fallback text is the summary itself, of any length; and the
    tool that presents the work reports success whatever Slack answers. *)
Theorem finished_work_is_posted c ch summary diff :
  wf_channel_id c = Some ch ->
  exists body diffs,
    render_present_work c summary diff =
      Some [chat_postMessage ch (wf_thread_ts c) (str_or summary "…")
              (Some (body ++ diffs ++ [finalization_buttons (wf_workflow_id c)]))] /\
    (length body <= 40 /\ length diffs <= 40)%nat /\
    Forall section_fits (body ++ diffs) /\
    (length body = 40%nat \/
     joined (map (fun j => visible (default "" (section_text j))) body) =
       visible (":robot_face: *Sub-agent work ready for review*" +:+ blank_line +:+ summary)) /\
    Forall (fun j => block_ok j = true)
           (body ++ diffs ++ [finalization_buttons (wf_workflow_id c)]) /\
    forall given include s,
      (present_work_to_user (Some slack_renderer) given include s).1 =
      inr (opt_or given (tk_summary (complete s))).
Proof.
  intros Hch. unfold render_present_work, post_to. rewrite Hch.
  destruct (text_sections_ok (":robot_face: *Sub-agent work ready for review*" +:+ blank_line +:+ summary))
    as (body & -> & Hb & Hv).
  destruct (diff_sections_ok diff) as (diffs & Hd & Hds). cbn [mbind option_bind]. rewrite Hd.
  exists body, diffs. split; [done|]. split; [split; [apply Hb|apply Hds]|].
  split; [apply Forall_app; split; by apply sections_fit|]. split; [exact Hv|]. split.
  - rewrite !Forall_app. split_and!; [by apply sections_typed..|by repeat constructor].
  - intros given include s. unfold present_work_to_user, fbind, fret, fmodify, Finalization.render.
    cbn. by destruct (ctx_task s).
Qed.

Definition sample_context : WorkflowContext :=
  {| wf_workflow_id := "w1";
     wf_task := {| ta_prompt := "p"; ta_workflow_id := "w1"; ta_parent_sandbox_id := "o";
                   ta_agent_id := "a"; ta_workspace_root := "/w"; ta_max_turns := None;
                   ta_model := None; ta_tool_surface := None; ta_context_files := [];
                   ta_workspace_baseline := None; ta_is_iteration := false;
                   ta_iteration_number := 0 |};
     wf_channel_id := Some "C1"; wf_thread_ts := Some "1.0"; wf_request_id := "" |}.

Lemma finished_work_is_posted_witness :
  wf_channel_id sample_context = Some "C1" /\
  exists bs, render_present_work sample_context "done" "+a" =
               Some [chat_postMessage "C1" (Some "1.0") "done" (Some bs)].
Proof.
  split; [reflexivity|].
  destruct (finished_work_is_posted sample_context "C1" "done" "+a" eq_refl)
    as (body & diffs & H & _).
  exists (body ++ diffs ++ [finalization_buttons "w1"]). exact H.
Defined.

(** A context line of a diff that starts a piece loses the space that marks
    it as one. *)
Example cut_diff_loses_its_marker :
  _split_text_for_slack (lines_text ["+one"; " two"]) 6 = Some ["+one"; "two"].
Proof. vm_compute. reflexivity. Qed.
