(* ===== verification/Dispatcher.v ===== *)
(** * Dispatcher

    The workflow dispatcher ([orchestrator/dispatcher.py]).

    A finalisation runs in a background task.  Its awaits are split into
    labelled steps, between which messages of any workflow are dispatched:
    its start, each tool its model calls, and its end.  The contexts are
    objects the dispatcher, the finalisation task and the session share, so
    they live in a store and are referred to by number. *)

From S2P Require Import Prelude Json Protocol Finalization.

(** Identity of a [WorkflowContext] object. *)
Abbreviation CtxId := nat (only parsing).

(** What the dispatcher asks the renderer to post. *)
Inductive Post :=
| PostWork (c : WorkflowContext) (summary diff : string)
| PostFailure (c : WorkflowContext) (error : string)
| PostError (c : WorkflowContext) (e : TaskErrorPayload)
| PostProgress (c : WorkflowContext) (status : string).

(** A finalisation task, by where it is suspended. *)
Inductive FinPhase :=
| FPending
| FRunning (s : FinalizationSession)
| FDone.

Record FinTask := {
  ft_ctx : CtxId;
  ft_complete : TaskCompletePayload;
  ft_phase : FinPhase
}.

(** [WorkflowDispatcher], with the store of contexts and the logs of the
    posts, the audit rows and the sub-agents terminated. *)
Record WorkflowDispatcher := {
  contexts : gmap nat WorkflowContext;
  workflows : gmap string CtxId;
  finalization_tasks : gmap string FinTask;
  posts : list Post;
  audit_errors : list TaskErrorPayload;
  audit_flushes : list json;
  terminated_workflows : list string
}.

Definition new_dispatcher : WorkflowDispatcher :=
  {| contexts := ∅; workflows := ∅; finalization_tasks := ∅; posts := []; audit_errors := [];
     audit_flushes := []; terminated_workflows := [] |}.

Definition set_workflows (w : gmap string CtxId) (d : WorkflowDispatcher) : WorkflowDispatcher :=
  {| contexts := contexts d; workflows := w; finalization_tasks := finalization_tasks d;
     posts := posts d; audit_errors := audit_errors d; audit_flushes := audit_flushes d;
     terminated_workflows := terminated_workflows d |}.

Definition set_tasks (f : gmap string FinTask) (d : WorkflowDispatcher) : WorkflowDispatcher :=
  {| contexts := contexts d; workflows := workflows d; finalization_tasks := f;
     posts := posts d; audit_errors := audit_errors d; audit_flushes := audit_flushes d;
     terminated_workflows := terminated_workflows d |}.

Definition set_contexts (c : gmap nat WorkflowContext) (d : WorkflowDispatcher) : WorkflowDispatcher :=
  {| contexts := c; workflows := workflows d; finalization_tasks := finalization_tasks d;
     posts := posts d; audit_errors := audit_errors d; audit_flushes := audit_flushes d;
     terminated_workflows := terminated_workflows d |}.

Definition log_post (p : Post) (d : WorkflowDispatcher) : WorkflowDispatcher :=
  {| contexts := contexts d; workflows := workflows d; finalization_tasks := finalization_tasks d;
     posts := posts d ++ [p]; audit_errors := audit_errors d; audit_flushes := audit_flushes d;
     terminated_workflows := terminated_workflows d |}.

Definition log_error (e : TaskErrorPayload) (d : WorkflowDispatcher) : WorkflowDispatcher :=
  {| contexts := contexts d; workflows := workflows d; finalization_tasks := finalization_tasks d;
     posts := posts d; audit_errors := audit_errors d ++ [e]; audit_flushes := audit_flushes d;
     terminated_workflows := terminated_workflows d |}.

Definition log_flush (p : json) (d : WorkflowDispatcher) : WorkflowDispatcher :=
  {| contexts := contexts d; workflows := workflows d; finalization_tasks := finalization_tasks d;
     posts := posts d; audit_errors := audit_errors d; audit_flushes := audit_flushes d ++ [p];
     terminated_workflows := terminated_workflows d |}.

Definition log_terminated (wid : string) (d : WorkflowDispatcher) : WorkflowDispatcher :=
  {| contexts := contexts d; workflows := workflows d; finalization_tasks := finalization_tasks d;
     posts := posts d; audit_errors := audit_errors d; audit_flushes := audit_flushes d;
     terminated_workflows := terminated_workflows d ++ [wid] |}.

(** ** The workflow registry *)

(** [register_workflow(context)], of a context object with identity [i]. *)
Definition register_workflow (i : CtxId) (c : WorkflowContext) (d : WorkflowDispatcher)
  : WorkflowDispatcher :=
  set_workflows (<[wf_workflow_id c := i]> (workflows d)) (set_contexts (<[i := c]> (contexts d)) d).

(** [get_workflow]: the context object and its fields. *)
Definition get_workflow (wid : string) (d : WorkflowDispatcher) : option (CtxId * WorkflowContext) :=
  i ← workflows d !! wid; c ← contexts d !! i; Some (i, c).

Section dispatcher.
(** Which collaborators are wired. *)
Context (has_manager has_renderer has_audit has_finalizer : bool).
(** Validation of the payloads (pydantic): [None] when malformed. *)
Context (load_complete : json -> option TaskCompletePayload).
Context (load_error : json -> option TaskErrorPayload).
Context (load_progress : json -> option (string * string)).
Context (load_flush : json -> option json).
(** The exception the renderer raises for a post, if any. *)
Context (post_raises : Post -> option string).
(** One tool call of a finalisation session, and what verifying its diff does
    to it. *)
Context (run_tool : FinCall -> FinalizationSession -> FinalizationSession).
Context (verify_diff : FinalizationSession -> FinalizationSession).

(** [deregister_workflow] *)
Definition deregister_workflow (wid : string) (d : WorkflowDispatcher) : WorkflowDispatcher :=
  let d := set_workflows (delete wid (workflows d)) d in
  if has_manager then log_terminated wid d else d.

Definition render_post (p : Post) (d : WorkflowDispatcher) : WorkflowDispatcher :=
  if has_renderer then log_post p d else d.

(** ** Messages *)

Definition in_flight (o : option FinTask) : bool :=
  match o with
  | Some t => match ft_phase t with FDone => false | _ => true end
  | None => false
  end.

Definition _handle_task_complete (payload : json) (d : WorkflowDispatcher) : WorkflowDispatcher :=
  match load_complete payload with
  | None => d
  | Some c =>
      match workflows d !! tk_workflow_id c with
      | None => d
      | Some i =>
          if in_flight (finalization_tasks d !! tk_workflow_id c) then d
          else set_tasks (<[tk_workflow_id c := {| ft_ctx := i; ft_complete := c;
                                                   ft_phase := FPending |}]>
                            (finalization_tasks d)) d
      end
  end.

Definition _handle_task_error (payload : json) (d : WorkflowDispatcher) : WorkflowDispatcher :=
  match load_error payload with
  | None => d
  | Some e =>
      match i ← workflows d !! te_workflow_id e; contexts d !! i with
      | None => d
      | Some c =>
          let d := render_post (PostError c e) d in
          let d := if has_audit then log_error e d else d in
          deregister_workflow (te_workflow_id e) d
      end
  end.

Definition _handle_task_progress (payload : json) (d : WorkflowDispatcher) : WorkflowDispatcher :=
  match load_progress payload with
  | None => d
  | Some (wid, status) =>
      match i ← workflows d !! wid; contexts d !! i with
      | None => d
      | Some c => render_post (PostProgress c status) d
      end
  end.

Definition _handle_audit_flush (payload : json) (d : WorkflowDispatcher) : WorkflowDispatcher :=
  if has_audit then
    match load_flush payload with None => d | Some p => log_flush p d end
  else d.

(** [_dispatch]; every handler catches the exceptions of its collaborators. *)
Definition _dispatch (type : string) (payload : json) (d : WorkflowDispatcher)
  : WorkflowDispatcher :=
  if String.eqb type "task.complete" then _handle_task_complete payload d
  else if String.eqb type "task.error" then _handle_task_error payload d
  else if String.eqb type "task.progress" then _handle_task_progress payload d
  else if String.eqb type "audit.flush" then _handle_audit_flush payload d
  else d.

(** ** The finalisation task *)

Definition set_phase (wid : string) (t : FinTask) (p : FinPhase) (d : WorkflowDispatcher)
  : WorkflowDispatcher :=
  set_tasks (<[wid := {| ft_ctx := ft_ctx t; ft_complete := ft_complete t; ft_phase := p |}]>
               (finalization_tasks d)) d.

(** The [except Exception] of [_finalize]. *)
Definition finalize_failed (wid : string) (t : FinTask) (c : WorkflowContext) (error : string)
  (d : WorkflowDispatcher) : WorkflowDispatcher :=
  set_phase wid t FDone
    (deregister_workflow (wf_workflow_id c) (render_post (PostFailure c error) d)).

(** [_finalize] up to the finalisation loop. *)
Definition finalize_start (wid : string) (t : FinTask) (c : WorkflowContext)
  (d : WorkflowDispatcher) : WorkflowDispatcher :=
  if has_finalizer then
    if verify_baseline (wf_task c) (ft_complete t) then
      set_phase wid t (FRunning (verify_diff (new_session (wf_task c) (ft_complete t)
                                                (Some (wf_task c))))) d
    else finalize_failed wid t c "workspace baseline drift" d
  else
    let p := PostWork c (tk_summary (ft_complete t)) (tk_diff (ft_complete t)) in
    if has_renderer then
      match post_raises p with
      | Some error => finalize_failed wid t c error (log_post p d)
      | None => set_phase wid t FDone (log_post p d)
      end
    else set_phase wid t FDone d.

(** What a session stored in [context.task] is stored in the shared object. *)
Definition store_context (i : CtxId) (c : WorkflowContext) (s : FinalizationSession)
  (d : WorkflowDispatcher) : WorkflowDispatcher :=
  set_contexts (<[i := with_task (default (wf_task c) (ctx_task s)) c]> (contexts d)) d.

(** A tool of the session. *)
Definition finalize_tool (wid : string) (t : FinTask) (c : WorkflowContext)
  (s : FinalizationSession) (call : FinCall) (d : WorkflowDispatcher) : WorkflowDispatcher :=
  let s := run_tool call s in
  set_phase wid t (FRunning s) (store_context (ft_ctx t) c s d).

(** The rest of [_finalize]: the loop ended with an exception or a text. *)
Definition finalize_end (wid : string) (t : FinTask) (c : WorkflowContext)
  (s : FinalizationSession) (outcome : string + string) (d : WorkflowDispatcher)
  : WorkflowDispatcher :=
  match outcome with
  | inl error => finalize_failed wid t c error d
  | inr content =>
      let d := if fr_is_terminal (finalization_result content s)
               then deregister_workflow (wf_workflow_id c) d else d in
      set_phase wid t FDone d
  end.

(** [close()]: the finalisation tasks are cancelled, and forgotten. *)
Definition close (d : WorkflowDispatcher) : WorkflowDispatcher := set_tasks ∅ d.

(** ** Steps *)

Inductive DLabel :=
| LRegister (i : CtxId) (c : WorkflowContext)
| LMessage (type : string) (payload : json)
| LFinStart (wid : string)
| LFinTool (wid : string) (call : FinCall)
| LFinEnd (wid : string) (outcome : string + string)
| LDeregister (wid : string)
| LClose.

(** [None]: the step is not enabled. *)
Definition dispatcher_step (l : DLabel) (d : WorkflowDispatcher) : option WorkflowDispatcher :=
  match l with
  | LRegister i c => match contexts d !! i with
                     | Some _ => None
                     | None => Some (register_workflow i c d)
                     end
  | LMessage type payload => Some (_dispatch type payload d)
  | LDeregister wid => Some (deregister_workflow wid d)
  | LClose => Some (close d)
  | LFinStart wid =>
      t ← finalization_tasks d !! wid; c ← contexts d !! ft_ctx t;
      match ft_phase t with FPending => Some (finalize_start wid t c d) | _ => None end
  | LFinTool wid call =>
      t ← finalization_tasks d !! wid; c ← contexts d !! ft_ctx t;
      match ft_phase t with
      | FRunning s => Some (finalize_tool wid t c s call d)
      | _ => None
      end
  | LFinEnd wid outcome =>
      t ← finalization_tasks d !! wid; c ← contexts d !! ft_ctx t;
      match ft_phase t with
      | FRunning s => Some (finalize_end wid t c s outcome d)
      | _ => None
      end
  end.

Fixpoint dispatcher_run (ls : list DLabel) (d : WorkflowDispatcher) : option WorkflowDispatcher :=
  match ls with
  | [] => Some d
  | l :: ls => d' ← dispatcher_step l d; dispatcher_run ls d'
  end.
End dispatcher.
