(* ===== verification/DispatcherTheorems.v ===== *)
(** * DispatcherTheorems

    The life of a workflow in the dispatcher: a consistent registry, late
    messages that change nothing, teardown on every terminal path; and the
    two ways an iteration is lost.

    The last part is the life of the dispatcher ([start], [_dispatch_loop],
    [close] and [wait_for_finalization]) around the handlers.  [close] is
    split at its awaits: while it waits for the finalisations it cancelled,
    the dispatch loop still runs; a cancelled task goes on until the event
    loop resumes it, with the cancellation. *)

From S2P Require Import Prelude Json Protocol Finalization FinalizationTheorems Dispatcher.

Section registry.
Context (has_manager has_renderer has_audit has_finalizer : bool).
Context (load_complete : json -> option TaskCompletePayload).
Context (load_error : json -> option TaskErrorPayload).
Context (load_progress : json -> option (string * string)).
Context (load_flush : json -> option json).
Context (post_raises : Post -> option string).
Context (run_tool : FinCall -> FinalizationSession -> FinalizationSession).
Context (verify_diff : FinalizationSession -> FinalizationSession).

Abbreviation step := (dispatcher_step has_manager has_renderer has_audit has_finalizer
  load_complete load_error load_progress load_flush post_raises run_tool verify_diff).
Abbreviation dispatch := (_dispatch has_manager has_renderer has_audit
  load_complete load_error load_progress load_flush).

(** The states of a dispatcher. *)
Inductive dispatcher_reach : WorkflowDispatcher -> Prop :=
| dr_new : dispatcher_reach new_dispatcher
| dr_step d l d' : dispatcher_reach d -> step l d = Some d' -> dispatcher_reach d'.

(** A context object of workflow [wid]. *)
Definition context_of (d : WorkflowDispatcher) (wid : string) (i : CtxId) : Prop :=
  exists c, contexts d !! i = Some c /\ wf_workflow_id c = wid.

Record consistent (d : WorkflowDispatcher) : Prop := {
  co_workflows : forall wid i, workflows d !! wid = Some i -> context_of d wid i;
  co_tasks : forall wid t, finalization_tasks d !! wid = Some t -> context_of d wid (ft_ctx t)
}.

Lemma context_of_insert d d' wid i j c c0 :
  contexts d' = <[j := c]> (contexts d) ->
  (contexts d !! j = None \/ contexts d !! j = Some c0 /\ wf_workflow_id c = wf_workflow_id c0) ->
  context_of d wid i -> context_of d' wid i.
Proof.
  intros Hc Hj (x & Hx & Hw). unfold context_of. rewrite Hc.
  destruct (decide (j = i)) as [->|Hne].
  - rewrite lookup_insert_eq. exists c. split; [done|]. destruct Hj as [Hj|[Hj Hw']]; congruence.
  - rewrite lookup_insert_ne by done. by exists x.
Qed.

Lemma context_of_same d d' wid i :
  contexts d' = contexts d -> context_of d wid i -> context_of d' wid i.
Proof. unfold context_of. by intros ->. Qed.

Lemma consistent_new : consistent new_dispatcher.
Proof. constructor; intros wid x; simpl; by rewrite lookup_empty. Qed.

Lemma consistent_deregister wid d : consistent d -> consistent (deregister_workflow has_manager wid d).
Proof.
  intros [Hw Ht]. unfold deregister_workflow. destruct has_manager; constructor; simpl;
    intros wid' x Hx; first [apply lookup_delete_Some in Hx as [_ Hx]; by apply Hw | by apply Ht].
Qed.

Lemma consistent_phase wid t p d :
  consistent d -> context_of d wid (ft_ctx t) -> consistent (set_phase wid t p d).
Proof.
  intros [Hw Ht] Hc. constructor; simpl; [exact Hw|].
  intros wid' t'. destruct (decide (wid = wid')) as [->|Hne].
  - rewrite lookup_insert_eq. by intros [= <-].
  - rewrite lookup_insert_ne by done. apply Ht.
Qed.

Lemma consistent_post p d : consistent d -> consistent (render_post has_renderer p d).
Proof. unfold render_post. destruct has_renderer; [|done]. by intros [Hw Ht]; constructor. Qed.

Lemma consistent_failed wid t c e d :
  consistent d -> context_of d wid (ft_ctx t) ->
  consistent (finalize_failed has_manager has_renderer wid t c e d).
Proof.
  intros Hd Hc. apply consistent_phase.
  - by apply consistent_deregister, consistent_post.
  - unfold deregister_workflow, render_post. by destruct has_manager, has_renderer.
Qed.

Lemma consistent_dispatch type payload d : consistent d -> consistent (dispatch type payload d).
Proof.
  intros Hd. unfold _dispatch. repeat case_match; try done.
  - unfold _handle_task_complete. destruct (load_complete payload) as [c|]; [|done].
    destruct (workflows d !! tk_workflow_id c) as [i|] eqn:Hi; [|done].
    destruct (in_flight _); [done|].
    exact (consistent_phase _ {| ft_ctx := i; ft_complete := c; ft_phase := FPending |} FPending d Hd
      (co_workflows d Hd _ _ Hi)).
  - unfold _handle_task_error. destruct (load_error payload) as [e|]; [|done].
    destruct (_ ≫= _) as [c|]; [|done]. apply consistent_deregister.
    destruct has_audit; [|by apply consistent_post].
    destruct (consistent_post (PostError c e) d Hd). by constructor.
  - unfold _handle_task_progress. destruct (load_progress payload) as [[wid st]|]; [|done].
    destruct (_ ≫= _) as [c|]; [|done]. by apply consistent_post.
  - unfold _handle_audit_flush. destruct has_audit; [|done]. destruct (load_flush payload); [|done].
    destruct Hd. by constructor.
Qed.

Lemma consistent_register i c d :
  contexts d !! i = None -> consistent d -> consistent (register_workflow i c d).
Proof.
  intros Hi [Hw Ht].
  assert (Hins : forall wid j, context_of d wid j -> context_of (register_workflow i c d) wid j)
    by (intros wid j; apply (context_of_insert d _ wid j i c c); [done|by left]).
  constructor; simpl; [|intros wid t Hx; by apply Hins, Ht].
  intros wid j. destruct (decide (wf_workflow_id c = wid)) as [<-|Hne].
  - rewrite lookup_insert_eq. intros [= <-]. exists c. simpl. by rewrite lookup_insert_eq.
  - rewrite lookup_insert_ne by done. intros Hx. by apply Hins, Hw.
Qed.

Lemma consistent_start wid t c d :
  consistent d -> context_of d wid (ft_ctx t) ->
  consistent (finalize_start has_manager has_renderer has_finalizer post_raises verify_diff wid t c d).
Proof.
  intros Hd Hc. unfold finalize_start. destruct has_finalizer.
  - destruct (verify_baseline _ _); [by apply consistent_phase|by apply consistent_failed].
  - assert (Hp : forall p, consistent (log_post p d)) by (intros p; destruct Hd; by constructor).
    pose proof (fun p e => consistent_failed wid t c e (log_post p d) (Hp p) Hc) as Hfail.
    destruct has_renderer; [|by apply consistent_phase].
    destruct (post_raises _); [apply Hfail|]. by apply consistent_phase.
Qed.

Lemma consistent_tool wid t c s call d :
  consistent d -> context_of d wid (ft_ctx t) -> contexts d !! ft_ctx t = Some c ->
  consistent (finalize_tool run_tool wid t c s call d).
Proof.
  intros Hd Hc Hctx. unfold finalize_tool, store_context.
  set (c' := with_task _ c). set (d1 := set_contexts _ d).
  assert (Hins : forall w j, context_of d w j -> context_of d1 w j)
    by (intros w j; apply (context_of_insert d d1 w j (ft_ctx t) c' c); [done|by right]).
  apply consistent_phase; [|by apply Hins].
  destruct Hd as [Hw Hf]. constructor; simpl; intros w x Hx; apply Hins; [by apply Hw|by apply Hf].
Qed.

Lemma consistent_end wid t c s outcome d :
  consistent d -> context_of d wid (ft_ctx t) ->
  consistent (finalize_end has_manager has_renderer wid t c s outcome d).
Proof.
  intros Hd Hc. unfold finalize_end. destruct outcome as [e|content]; [by apply consistent_failed|].
  destruct (fr_is_terminal _); apply consistent_phase; try done.
  - by apply consistent_deregister.
  - unfold deregister_workflow. by destruct has_manager.
Qed.

Lemma consistent_step l d d' : consistent d -> step l d = Some d' -> consistent d'.
Proof.
  intros Hd.
  assert (Htask : forall wid t, finalization_tasks d !! wid = Some t -> context_of d wid (ft_ctx t))
    by apply (co_tasks d Hd).
  destruct l as [i c|type payload|wid|wid call|wid outcome|wid|]; simpl.
  - destruct (contexts d !! i) eqn:Hi; [done|]. intros [= <-]. by apply consistent_register.
  - intros [= <-]. by apply consistent_dispatch.
  - destruct (finalization_tasks d !! wid) as [t|] eqn:Ht; [|done]. simpl.
    destruct (contexts d !! ft_ctx t) as [c|]; [|done]. simpl.
    destruct (ft_phase t); [|done..]. intros [= <-]. apply consistent_start; auto.
  - destruct (finalization_tasks d !! wid) as [t|] eqn:Ht; [|done]. simpl.
    destruct (contexts d !! ft_ctx t) as [c|] eqn:Hctx; [|done]. simpl.
    destruct (ft_phase t) as [|s|]; [done| |done]. intros [= <-]. apply consistent_tool; auto.
  - destruct (finalization_tasks d !! wid) as [t|] eqn:Ht; [|done]. simpl.
    destruct (contexts d !! ft_ctx t) as [c|] eqn:Hctx; [|done]. simpl.
    destruct (ft_phase t) as [|s|]; [done| |done]. intros [= <-]. apply consistent_end; auto.
  - intros [= <-]. by apply consistent_deregister.
  - intros [= <-]. destruct Hd as [Hw _]. constructor; simpl; [exact Hw|].
    intros w x. by rewrite lookup_empty.
Qed.

Lemma reach_consistent d : dispatcher_reach d -> consistent d.
Proof. induction 1; [apply consistent_new|by eapply consistent_step]. Qed.
End registry.

(** What closing a workflow leaves. *)
Definition closed (has_manager : bool) (wid : string) (d d' : WorkflowDispatcher) : Prop :=
  workflows d' = delete wid (workflows d) /\
  terminated_workflows d' = terminated_workflows d ++ (if has_manager then [wid] else []).

Lemma deregister_closed hm wid d : closed hm wid d (deregister_workflow hm wid d).
Proof. unfold closed, deregister_workflow. destruct hm; simpl; by rewrite ?app_nil_r. Qed.

Lemma failed_closed hm hr wid t c e d :
  closed hm (wf_workflow_id c) d (finalize_failed hm hr wid t c e d).
Proof.
  unfold closed, finalize_failed, deregister_workflow, render_post.
  destruct hm, hr; simpl; by rewrite ?app_nil_r.
Qed.

(** How a finalisation starts, as the exception handler sees it. *)
Lemma start_outcome hm hr hf raises diff t c d :
  let wid := wf_workflow_id c in
  let d' := finalize_start hm hr hf raises diff wid t c d in
  if (if hf then negb (verify_baseline (wf_task c) (ft_complete t))
      else match raises (PostWork c (tk_summary (ft_complete t)) (tk_diff (ft_complete t))) with
           | Some _ => hr | None => false end)
  then in_flight (finalization_tasks d' !! wid) = false /\ closed hm wid d d'
  else in_flight (finalization_tasks d' !! wid) = hf /\ workflows d' = workflows d /\
       terminated_workflows d' = terminated_workflows d.
Proof.
  intros wid d'. unfold d', finalize_start.
  assert (Hfail : forall e d0, in_flight (finalization_tasks (finalize_failed hm hr wid t c e d0) !! wid) = false)
    by (intros e d0; simpl; by rewrite lookup_insert_eq).
  destruct hf.
  - destruct (verify_baseline _ _); simpl.
    + by rewrite lookup_insert_eq.
    + split; [apply Hfail|apply failed_closed].
  - destruct hr; simpl; [|destruct (raises _); by rewrite lookup_insert_eq].
    destruct (raises _) as [e|]; simpl; [|by rewrite lookup_insert_eq].
    split; [apply Hfail|]. exact (failed_closed hm true wid t c e (log_post _ d)).
Qed.

(** The part of the state a message of another workflow must not touch. *)
Definition same_registry (d d' : WorkflowDispatcher) : Prop :=
  workflows d' = workflows d /\ contexts d' = contexts d /\
  finalization_tasks d' = finalization_tasks d /\ terminated_workflows d' = terminated_workflows d.


(** ** Iterations *)

Definition sample_tool : FinCall -> FinalizationSession -> FinalizationSession := fun c s =>
  (run_call clean_git (fun _ _ _ => GhTimeout) (fun p => p) None (fun _ => false) (fun _ => None)
     (Some (fun _ _ => None)) (fun _ => "") c s).2.

(** Completions of [wf-1]; the payload is the summary. *)
Definition sample_load (j : json) : option TaskCompletePayload :=
  match j with
  | JStr summary => Some {| tk_workflow_id := "wf-1"; tk_summary := summary; tk_diff := "";
      tk_workspace_baseline := None; tk_files_changed := []; tk_notes_path := None;
      tk_git_commit_sha := None; tk_tool_calls_made := 0; tk_rounds_used := 1;
      tk_model_used := None; tk_suggested_next_step := None |}
  | _ => None
  end.

Definition sample_run (ls : list DLabel) : option WorkflowDispatcher :=
  dispatcher_run true true true true sample_load (fun _ => None) (fun _ => None) (fun _ => None)
    (fun _ => None) sample_tool (fun s => s) ls new_dispatcher.

Definition sample_context : WorkflowContext :=
  {| wf_workflow_id := "wf-1"; wf_task := sample_assign; wf_channel_id := Some "C1";
     wf_thread_ts := Some "17.1"; wf_request_id := "r1" |}.

Definition first_iteration : list DLabel :=
  [LRegister 0 sample_context; LMessage "task.complete" (JStr "first try"); LFinStart "wf-1"].

(** An iteration can be lost in two ways.  A completion that arrives
    while a finalisation of its workflow is in flight is dropped, also when
    that finalisation has just re-delegated and the completion is the new
    iteration's: the run then ends exactly as if the agent had never
    answered, with the workflow registered, its second iteration assigned,
    and no finalisation in flight.  And the terminal mark of an earlier tool
    of the same finalisation survives a later [re_delegate]: the follow-up
    is assigned, and its agent then terminated with the workflow. *)
Theorem iteration_is_lost :
  (forall hm hr ha hf lc le lp lf raises tool diff d payload c,
     lc payload = Some c -> in_flight (finalization_tasks d !! tk_workflow_id c) = true ->
     dispatcher_step hm hr ha hf lc le lp lf raises tool diff (LMessage "task.complete" payload) d
       = Some d) /\
  (let redo := LFinTool "wf-1" (CallReDelegate "try again" None None) in
   let reply := LMessage "task.complete" (JStr "second try") in
   let finish := LFinEnd "wf-1" (inr "re-delegated") in
   exists d, sample_run (first_iteration ++ [redo; reply; finish]) = Some d /\
     sample_run (first_iteration ++ [redo; finish]) = Some d /\
     option_map (fun c => ta_iteration_number (wf_task c)) (contexts d !! 0) = Some 1%Z /\
     workflows d !! "wf-1" = Some 0 /\ in_flight (finalization_tasks d !! "wf-1") = false) /\
  (exists d s, sample_run (first_iteration ++ [LFinTool "wf-1" CallDestroy;
       LFinTool "wf-1" (CallReDelegate "try again" None None)]) = Some d /\
     option_map ft_phase (finalization_tasks d !! "wf-1") = Some (FRunning s) /\
     map ta_iteration_number (assigned s) = [1%Z] /\ st_action s = Some RE_DELEGATE /\
     option_map (fun d => (workflows d !! "wf-1", terminated_workflows d))
       (dispatcher_step true true true true sample_load (fun _ => None) (fun _ => None)
          (fun _ => None) (fun _ => None) sample_tool (fun s => s)
          (LFinEnd "wf-1" (inr "re-delegated")) d) = Some (None, ["wf-1"])).
Proof.
  split; [|split].
  - intros hm hr ha hf lc le lp lf raises tool diff d payload c Hc Hf.
    unfold dispatcher_step, _dispatch, _handle_task_complete. simpl. rewrite Hc, Hf.
    by destruct (workflows d !! tk_workflow_id c).
  - cbv zeta. eexists. split; [vm_compute; reflexivity|]. split; [vm_compute; reflexivity|].
    split; [|split]; vm_compute; reflexivity.
  - eexists _, _. split; [vm_compute; reflexivity|]. split; [vm_compute; reflexivity|].
    split; [|split]; vm_compute; reflexivity.
Qed.

(** ** Witnesses *)


(** * The life of the dispatcher *)

Inductive LoopTask := NotStarted | LoopRuns | LoopDone.

#[export] Instance LoopTask_eq_dec : EqDecision LoopTask.
Proof. solve_decision. Defined.

(** [dl_closing] are the workflows whose finalisation a running [close] has
    cancelled and still waits for, if one runs; [dl_forgotten] the tasks in
    flight that no table holds any more. *)
Record DispatchLife := {
  dl_dispatcher : WorkflowDispatcher;
  dl_loop : LoopTask;
  dl_loops : nat;
  dl_closing : option (gset string);
  dl_forgotten : gmap string FinTask
}.

Definition new_life : DispatchLife :=
  {| dl_dispatcher := new_dispatcher; dl_loop := NotStarted; dl_loops := 0; dl_closing := None;
     dl_forgotten := ∅ |}.

Definition with_dispatcher (d : WorkflowDispatcher) (s : DispatchLife) : DispatchLife :=
  {| dl_dispatcher := d; dl_loop := dl_loop s; dl_loops := dl_loops s; dl_closing := dl_closing s;
     dl_forgotten := dl_forgotten s |}.

Definition with_loop (l : LoopTask) (s : DispatchLife) : DispatchLife :=
  {| dl_dispatcher := dl_dispatcher s; dl_loop := l; dl_loops := dl_loops s; dl_closing := dl_closing s;
     dl_forgotten := dl_forgotten s |}.

(** [start()]: nothing is awaited under the lock but the lock. *)
Definition start (s : DispatchLife) : DispatchLife :=
  match dl_loop s with
  | LoopRuns => s
  | _ => {| dl_dispatcher := dl_dispatcher s; dl_loop := LoopRuns; dl_loops := S (dl_loops s);
            dl_closing := dl_closing s; dl_forgotten := dl_forgotten s |}
  end.

(** The tasks of the table that are not done. *)
Definition running (d : WorkflowDispatcher) : gmap string FinTask :=
  filter (fun kv : string * FinTask => in_flight (Some kv.2) = true) (finalization_tasks d).

Definition in_flight_finalizations (d : WorkflowDispatcher) : nat := size (running d).

(** [close()] up to its first await. *)
Definition close_begin (s : DispatchLife) : DispatchLife :=
  {| dl_dispatcher := dl_dispatcher s; dl_loop := dl_loop s; dl_loops := dl_loops s;
     dl_closing := Some (dom (running (dl_dispatcher s))); dl_forgotten := dl_forgotten s |}.

(** The rest: the table is cleared and the loop cancelled. *)
Definition close_end (s : DispatchLife) : DispatchLife :=
  {| dl_dispatcher := Dispatcher.close (dl_dispatcher s);
     dl_loop := match dl_loop s with LoopRuns => LoopDone | l => l end;
     dl_loops := dl_loops s; dl_closing := None;
     dl_forgotten := running (dl_dispatcher s) ∪ dl_forgotten s |}.

(** Cancelled by a [close], and not resumed since. *)
Definition is_cancelled (wid : string) (s : DispatchLife) : bool :=
  match dl_closing s with Some c => bool_decide (wid ∈ c) | None => false end.

(** The cancellation reaches the task: [_finalize] has no clause for it. *)
Definition cancelled (wid : string) (s : DispatchLife) : DispatchLife :=
  {| dl_dispatcher := match finalization_tasks (dl_dispatcher s) !! wid with
                      | Some t => set_phase wid t FDone (dl_dispatcher s)
                      | None => dl_dispatcher s
                      end;
     dl_loop := dl_loop s; dl_loops := dl_loops s;
     dl_closing := option_map (fun c => c ∖ {[wid]}) (dl_closing s);
     dl_forgotten := dl_forgotten s |}.

(** The workflow a step of a finalisation is of. *)
Definition finalisation_of (l : DLabel) : option string :=
  match l with
  | LFinStart wid | LFinTool wid _ | LFinEnd wid _ => Some wid
  | _ => None
  end.

Section life.
Context (step : DLabel -> WorkflowDispatcher -> option WorkflowDispatcher).

Inductive LifeLabel :=
| DStart
| DMessage (type : string) (payload : json)
| DLoopEnds
| DFinalisation (l : DLabel)
| DForgottenEnds (wid : string)
| DCancelled (wid : string)
| DCloseBegin
| DCloseEnd.

(** [None]: the step is not enabled.  [listen()] may end or raise, which ends
    the loop; a handler's exception does not. *)
Definition life_step (l : LifeLabel) (s : DispatchLife) : option DispatchLife :=
  match l with
  | DStart => Some (start s)
  | DMessage type payload =>
      match dl_loop s with
      | LoopRuns => d ← step (LMessage type payload) (dl_dispatcher s); Some (with_dispatcher d s)
      | _ => None
      end
  | DLoopEnds => match dl_loop s with LoopRuns => Some (with_loop LoopDone s) | _ => None end
  | DFinalisation l =>
      wid ← finalisation_of l;
      if is_cancelled wid s then None
      else d ← step l (dl_dispatcher s); Some (with_dispatcher d s)
  | DForgottenEnds wid =>
      _ ← dl_forgotten s !! wid;
      Some {| dl_dispatcher := dl_dispatcher s; dl_loop := dl_loop s; dl_loops := dl_loops s;
              dl_closing := dl_closing s; dl_forgotten := delete wid (dl_forgotten s) |}
  | DCancelled wid => if is_cancelled wid s then Some (cancelled wid s) else None
  | DCloseBegin => match dl_closing s with None => Some (close_begin s) | Some _ => None end
  | DCloseEnd =>
      match dl_closing s with
      | Some c => if bool_decide (c = ∅) then Some (close_end s) else None
      | None => None
      end
  end.

Fixpoint life_run (ls : list LifeLabel) (s : DispatchLife) : option DispatchLife :=
  match ls with
  | [] => Some s
  | l :: ls => s ← life_step l s; life_run ls s
  end.
End life.

(** [wait_for_finalization]: what its polls within the timeout find. *)
Fixpoint wait_for_finalization (wid : string) (polls : list WorkflowDispatcher) : bool :=
  match polls with
  | [] => false
  | d :: polls =>
      match finalization_tasks d !! wid with
      | Some t => if in_flight (Some t) then wait_for_finalization wid polls else true
      | None => wait_for_finalization wid polls
      end
  end.

(** ** Theorems *)

(** One loop: a second [start] starts nothing. *)
Lemma start_idempotent s : start (start s) = start s /\ dl_loop (start s) = LoopRuns.
Proof. unfold start. destruct s as [d [] n c f]; done. Qed.

Lemma running_none d : in_flight_finalizations d = 0 <-> running d = ∅.
Proof. unfold in_flight_finalizations. by rewrite map_size_empty_iff. Qed.

(** Closing an idle dispatcher leaves nothing behind. *)
Lemma quiet_close step s :
  dl_closing s = None -> dl_loop s = LoopRuns -> in_flight_finalizations (dl_dispatcher s) = 0 ->
  exists s', life_run step [DCloseBegin; DCloseEnd] s = Some s' /\
    dl_loop s' = LoopDone /\ finalization_tasks (dl_dispatcher s') = ∅ /\
    dl_forgotten s' = dl_forgotten s.
Proof.
  intros Hc Hl Hr%running_none. simpl. rewrite Hc. simpl. rewrite Hr, dom_empty_L, bool_decide_true by done.
  simpl. eexists. split; [done|]. unfold close_end, close_begin. simpl. rewrite Hr, Hl.
  split; [done|]. split; [done|]. by rewrite (left_id_L ∅ _).
Qed.

(** A task a close forgets is one in flight when the close ends, and a close
    ends only when every task it cancelled is done: what it forgets began
    while it waited. *)
Lemma close_forgets step s s' wid t :
  life_step step DCloseEnd s = Some s' -> dl_forgotten s !! wid = None -> dl_forgotten s' !! wid = Some t ->
  dl_closing s = Some ∅ /\ finalization_tasks (dl_dispatcher s) !! wid = Some t /\
  in_flight (Some t) = true.
Proof.
  simpl. destruct (dl_closing s) as [c|] eqn:Hc; [|done]. case_bool_decide as He; [|done].
  intros [= <-] Hn Hf. subst c. split; [done|]. unfold close_end in Hf. simpl in Hf.
  apply lookup_union_Some_raw in Hf as [Hf|[_ Hf]]; [|congruence].
  by apply map_lookup_filter_Some in Hf.
Qed.

(** The helper answers [true] exactly when a poll finds the task done. *)
Lemma wait_spec wid polls :
  wait_for_finalization wid polls = true <->
  exists d t, d ∈ polls /\ finalization_tasks d !! wid = Some t /\ ft_phase t = FDone.
Proof.
  induction polls as [|d polls IH]; simpl.
  { split; [done|]. intros (d & t & Hin & _). by apply not_elem_of_nil in Hin. }
  assert (Hstep : (exists d' t, d' ∈ d :: polls /\ finalization_tasks d' !! wid = Some t /\ ft_phase t = FDone) <->
    (exists t, finalization_tasks d !! wid = Some t /\ ft_phase t = FDone) \/
    (exists d' t, d' ∈ polls /\ finalization_tasks d' !! wid = Some t /\ ft_phase t = FDone)).
  { split.
    - intros (d' & t & [->|Hin]%elem_of_cons & H); [left; eauto|right; eauto].
    - intros [(t & H)|(d' & t & Hin & H)]; [exists d, t|exists d', t];
        (split; [|done]); [by apply list_elem_of_here|by apply list_elem_of_further]. }
  rewrite Hstep, <- IH. clear. destruct (finalization_tasks d !! wid) as [t|].
  - unfold in_flight. destruct (ft_phase t) eqn:Hp; (split; [first [by right|left; eauto]|]);
      first [done | intros [(t' & [= <-] & H)|H]; congruence].
  - split; [by right|]. by intros [(t & H & _)|H].
Qed.

(** ** A task that outlives the close *)

(** While [close] waits for the finalisation of one workflow, the completion of
    another arrives: the loop still runs, its task starts after the
    cancellations and is dropped from the table when the close ends. *)
Definition done_ (wid : string) : TaskCompletePayload :=
  {| tk_workflow_id := wid; tk_summary := "done"; tk_diff := ""; tk_workspace_baseline := None;
     tk_files_changed := []; tk_notes_path := None; tk_git_commit_sha := None;
     tk_tool_calls_made := 0; tk_rounds_used := 0; tk_model_used := None;
     tk_suggested_next_step := None |}.

Definition context_ (wid : string) : WorkflowContext :=
  {| wf_workflow_id := wid;
     wf_task := {| ta_prompt := "p"; ta_workflow_id := wid; ta_parent_sandbox_id := "o";
                   ta_agent_id := "a"; ta_workspace_root := "/w"; ta_max_turns := None;
                   ta_model := None; ta_tool_surface := None; ta_context_files := [];
                   ta_workspace_baseline := None; ta_is_iteration := false;
                   ta_iteration_number := 0 |};
     wf_channel_id := None; wf_thread_ts := None; wf_request_id := "" |}.

Definition life_dispatch (l : DLabel) (d : WorkflowDispatcher) : option WorkflowDispatcher :=
  dispatcher_step true true true true
    (fun j => match j with JStr wid => Some (done_ wid) | _ => None end) (fun _ => None) (fun _ => None)
    (fun _ => None) (fun _ => None) (fun _ s => s) (fun s => s) l d.

Definition two_workflows : DispatchLife :=
  with_dispatcher
    (register_workflow 1 (context_ "wf-2") (register_workflow 0 (context_ "wf-1") new_dispatcher)) new_life.

Definition racing_close : list LifeLabel :=
  [DStart; DMessage "task.complete" (JStr "wf-1"); DCloseBegin;
   DMessage "task.complete" (JStr "wf-2"); DCancelled "wf-1"; DCloseEnd].

Example task_outlives_close :
  match life_run life_dispatch racing_close two_workflows with
  | Some s => dl_loop s = LoopDone /\ finalization_tasks (dl_dispatcher s) = ∅ /\
              map fst (map_to_list (dl_forgotten s)) = ["wf-2"]
  | None => False
  end.
Proof. vm_compute. done. Qed.
