(* ===== verification/Buttons.v ===== *)
(** * Buttons

    The finalisation buttons ([orchestrator/finalization_actions.py]): the
    implementation of the interface [FinalizationActions] the orchestrator
    uses.  Its state, and the dispatcher whose workflows it acts on, are the
    outside state of the orchestrator.

    Theorems: the finalisation buttons behind the orchestrator: they discharge
    what the orchestrator's theorems assume of them, close a workflow only
    after a tool that succeeded, and turn the message after an Iterate click
    into the next assignment. *)

From S2P Require Import Prelude Json Protocol Finalization FinalizationTheorems Dispatcher.
From S2P Require Import DispatcherTheorems AgentTypes Connector Registry Compaction.
From S2P Require Import CompactionTheorems Loop LoopTheorems Prompt Orchestrator.
From S2P Require Import OrchestratorTheorems.

Definition _COMPLETION_SUMMARY_PROMPT_LIMIT : Z := 120.
Definition _PR_TITLE_PROMPT_LIMIT : Z := 80.

(** [FinalizationActionHandler] with its dispatcher; [sessions] records the
    sessions the clicks ran, as they ended. *)
Record Buttons := {
  dispatcher : WorkflowDispatcher;
  pending_iteration : gmap string string;
  sessions : list FinalizationSession
}.

Definition set_iteration (p : gmap string string) (b : Buttons) : Buttons :=
  {| dispatcher := dispatcher b; pending_iteration := p; sessions := sessions b |}.

Definition set_dispatcher (d : WorkflowDispatcher) (b : Buttons) : Buttons :=
  {| dispatcher := d; pending_iteration := pending_iteration b; sessions := sessions b |}.

Definition log_session (s : FinalizationSession) (b : Buttons) : Buttons :=
  {| dispatcher := dispatcher b; pending_iteration := pending_iteration b;
     sessions := sessions b ++ [s] |}.

(** [_completion_stub] *)
Definition _completion_stub (c : WorkflowContext) (summary : string) : TaskCompletePayload :=
  {| tk_workflow_id := wf_workflow_id c; tk_summary := summary; tk_diff := "";
     tk_workspace_baseline := ta_workspace_baseline (wf_task c); tk_files_changed := [];
     tk_notes_path := None; tk_git_commit_sha := None; tk_tool_calls_made := 0;
     tk_rounds_used := 0; tk_model_used := None; tk_suggested_next_step := None |}.

Definition NO_ACTION_REPLY : string := "No finalisation action found.".

Definition stale_reply (wid : string) : string :=
  "Workflow `" +:+ wid +:+ "` is no longer active (probably already finalised or aged out).".

Definition ITERATE_REPLY : string :=
  "OK — please reply in this thread with the changes you'd like the " +:+
  "sub-agent to make. Your next message becomes the iteration prompt.".

Section buttons.
Context (has_manager : bool).
Context (git : list (list string) -> string -> list string -> GitProcess).
Context (gh : list (list string) -> string -> list string -> GhProcess).
Context (resolve : string -> string).
Context (renderer : option (list Rendered -> Rendered -> option string)).
Context (path_exists : string -> bool) (rmtree : string -> option string).
Context (delegate : option (list TaskAssignPayload -> TaskAssignPayload -> option string)).
Context (validation_error : TaskAssignPayload -> string).

(** A session of the default factory runs one tool; what it stored in the
    shared context is kept.  The tool's outcome and whether its state is
    terminal. *)
Definition run_session (i : CtxId) (c : WorkflowContext) (summary : string) (m : FM string)
  (b : Buttons) : (FExc + string) * bool * Buttons :=
  let '(x, s) := m (new_session (wf_task c) (_completion_stub c summary) (Some (wf_task c))) in
  (x, st_is_terminal s, log_session s (set_dispatcher (store_context i c s (dispatcher b)) b)).

(** The reply to a tool's outcome, and the deregistration after a terminal
    one. *)
Definition conclude (failed : string) (terminal_closes : bool) (wid : string)
  (out : (FExc + string) * bool * Buttons) : string * Buttons :=
  let '(x, terminal, b) := out in
  match x with
  | inl exc => (failed +:+ exc_text exc, b)
  | inr result =>
      (result, if terminal_closes && terminal
               then set_dispatcher (deregister_workflow has_manager wid (dispatcher b)) b else b)
  end.

Definition _handle_push_pr (i : CtxId) (c : WorkflowContext) (b : Buttons) : string * Buttons :=
  let summary := "Finalize " +:+ py_prefix _COMPLETION_SUMMARY_PROMPT_LIMIT (ta_prompt (wf_task c)) in
  let branch := "finalize/" +:+ wf_workflow_id c in
  let title := py_prefix _PR_TITLE_PROMPT_LIMIT (ta_prompt (wf_task c)) in
  conclude "Push & PR failed: " true (wf_workflow_id c)
    (run_session i c summary
       (push_and_create_pr git gh resolve renderer branch title "" _DEFAULT_REMOTE) b).

Definition _handle_discard (i : CtxId) (c : WorkflowContext) (b : Buttons) : string * Buttons :=
  conclude "Discard failed: " true (wf_workflow_id c)
    (run_session i c "Discarding workflow per user request."
       (discard_work resolve renderer path_exists rmtree "Discarded by user") b).

Definition _handle_iterate (r : NormalizedRequest) (c : WorkflowContext) (b : Buttons)
  : string * Buttons :=
  (ITERATE_REPLY, set_iteration (<[thread_key r := wf_workflow_id c]> (pending_iteration b)) b).

(** [handle]: the text of the reply. *)
Definition click (r : NormalizedRequest) (b : Buttons) : string * Buttons :=
  match action r with
  | None => (NO_ACTION_REPLY, b)
  | Some a =>
      match get_workflow (value a) (dispatcher b) with
      | None => (stale_reply (value a), b)
      | Some (i, c) =>
          if String.eqb (action_id a) FINALIZATION_PUSH_PR then _handle_push_pr i c b
          else if String.eqb (action_id a) FINALIZATION_DISCARD then _handle_discard i c b
          else if String.eqb (action_id a) FINALIZATION_ITERATE then _handle_iterate r c b
          else ("Unknown finalisation action `" +:+ action_id a +:+ "`.", b)
      end
  end.

(** [consume_iteration_feedback] *)
Definition consume (r : NormalizedRequest) (key : string) (b : Buttons) : string * Buttons :=
  match pending_iteration b !! key with
  | None => ("No pending iteration; treating this as a fresh request.", b)
  | Some wid =>
      let b := set_iteration (delete key (pending_iteration b)) b in
      match get_workflow wid (dispatcher b) with
      | None => ("Workflow `" +:+ wid +:+ "` is no longer active.", b)
      | Some (i, c) =>
          conclude "Re-delegation failed: " false (wf_workflow_id c)
            (run_session i c ("Iterating on workflow " +:+ wf_workflow_id c +:+ " per user feedback.")
               (re_delegate renderer delegate validation_error (text r) None None) b)
      end
  end.

(** An operation of the handler, as the orchestrator calls it. *)
Definition answering (f : Buttons -> string * Buttons) (r : NormalizedRequest)
  : M Buttons RichResponse := fun e =>
  let '(reply, w) := f (world e) in (inr (_shape_response r reply), set_world w e).

#[export] Instance button_actions : FinalizationActions Buttons := {
  fa_handle r := answering (click r) r;
  fa_is_pending_iteration key b := match pending_iteration b !! key with
                                   | Some _ => true | None => false end;
  fa_consume_iteration_feedback r key := answering (consume r key) r
}.
End buttons.

(** The buttons run no tools of the agent loop. *)
Lemma button_actions_quiet hm git gh resolve renderer path_exists rmtree delegate verr :
  buttons_quiet (Some (button_actions hm git gh resolve renderer path_exists rmtree delegate verr)).
Proof.
  intros fa [= <-] r key e. simpl. unfold answering.
  by destruct (click _ _ _ _ _ _ _ _ _), (consume _ _ _ _ _ _ _).
Qed.

Section buttons.
Context (hm : bool).
Context (git : list (list string) -> string -> list string -> GitProcess).
Context (gh : list (list string) -> string -> list string -> GhProcess).
Context (resolve : string -> string).
Context (renderer : option (list Rendered -> Rendered -> option string)).
Context (path_exists : string -> bool) (rmtree : string -> option string).
Context (delegate : option (list TaskAssignPayload -> TaskAssignPayload -> option string)).
Context (verr : TaskAssignPayload -> string).

(** What a click leaves of the registry, as its last session ended. *)
Inductive click_effect (wid : string) (b : Buttons) : string * Buttons -> Prop :=
| effect_none reply b' :
    workflows (dispatcher b') = workflows (dispatcher b) -> sessions b' = sessions b ->
    terminated_workflows (dispatcher b') = terminated_workflows (dispatcher b) ->
    click_effect wid b (reply, b')
| effect_open reply s b' :
    workflows (dispatcher b') = workflows (dispatcher b) -> sessions b' = sessions b ++ [s] ->
    terminated_workflows (dispatcher b') = terminated_workflows (dispatcher b) ->
    click_effect wid b (reply, b')
| effect_closed reply s b' :
    st_is_terminal s = true -> st_message s = reply ->
    workflows (dispatcher b') = delete wid (workflows (dispatcher b)) ->
    sessions b' = sessions b ++ [s] ->
    terminated_workflows (dispatcher b') =
      terminated_workflows (dispatcher b) ++ (if hm then [wid] else []) ->
    click_effect wid b (reply, b').

Lemma conclude_effect failed closes i c summary (m : FM string) b :
  (forall s0 result s, m s0 = (inr result, s) -> st_is_terminal s = true -> st_message s = result) ->
  click_effect (wf_workflow_id c) b
    (conclude hm failed closes (wf_workflow_id c) (run_session i c summary m b)).
Proof.
  intros Hm. unfold run_session.
  destruct (m (new_session (wf_task c) (_completion_stub c summary) (Some (wf_task c))))
    as [x s] eqn:Hs. unfold conclude. destruct x as [exc|result]; [by eapply (effect_open _ _ _ s)|].
  destruct (closes && st_is_terminal s) eqn:Hc; [|by eapply (effect_open _ _ _ s)].
  apply andb_true_iff in Hc as [_ Ht].
  apply (effect_closed _ _ _ s); [done|by eapply Hm|..]; simpl;
    unfold deregister_workflow; by destruct hm; rewrite ?app_nil_r.
Qed.

Lemma finish_message a m t s0 result s :
  (_render_action_result renderer a m ;; fmodify (set_state a m t) ;; fret m)%fin s0 = (inr result, s) ->
  st_message s = result.
Proof. unfold fbind, fmodify, fret. simpl. by intros [= <- <-]. Qed.

Lemma push_pr_message branch title body remote s0 result s :
  push_and_create_pr git gh resolve renderer branch title body remote s0 = (inr result, s) ->
  st_message s = result.
Proof.
  unfold push_and_create_pr, fbind at 1. destruct (_do_push_branch _ _ _ _ _ s0) as [[x|out] s1]; [done|].
  unfold fbind at 1. destruct (_ s1) as [[x|msg] s2]; [done|]. apply finish_message.
Qed.

Lemma discard_message reason s0 result s :
  discard_work resolve renderer path_exists rmtree reason s0 = (inr result, s) ->
  st_message s = result.
Proof.
  unfold discard_work. destruct (negb _).
  { unfold fbind, fmodify, fret. simpl. by intros [= <- <-]. }
  unfold fbind at 1. destruct (_ s0) as [[x|[]] s1]; [done|]. apply finish_message.
Qed.

Lemma click_effects r b wid :
  match action r with Some a => value a = wid | None => True end ->
  (forall i c, get_workflow wid (dispatcher b) = Some (i, c) -> wf_workflow_id c = wid) ->
  click_effect wid b
    (click hm git gh resolve renderer path_exists rmtree r b).
Proof.
  intros Ha Hw. unfold click. destruct (action r) as [a|]; [|by apply effect_none]. subst wid.
  destruct (get_workflow (value a) (dispatcher b)) as [[i c]|]; [|by apply effect_none].
  specialize (Hw i c eq_refl). rewrite <- Hw.
  case_match; [|case_match; [|case_match; by apply effect_none]].
  - apply conclude_effect. intros s0 result s Hs _. by eapply push_pr_message.
  - apply conclude_effect. intros s0 result s Hs _. by eapply discard_message.
Qed.
End buttons.

(** A click closes a workflow only when its tool succeeded.  Through the
    orchestrator, a finalisation button asks the model nothing, runs no
    agent-loop tool and touches no conversation or pending write; it runs at
    most one session, and unregisters the workflow and terminates its agent
    exactly when that session ended terminally, with the tool's message as
    the reply; a tool that failed leaves the workflow registered. *)
Theorem buttons_close_on_success {HB : Backend Buttons} {HG : ApprovalGate Buttons}
  not_a_mapping sched (tools : Registry Buttons) cfg aid now cb
  hm git gh resolve renderer path_exists rmtree delegate verr r a (o : Orchestrator Buttons) :
  action r = Some a -> is_finalization_action r = true ->
  (forall i c, get_workflow (value a) (dispatcher (world (env o))) = Some (i, c) ->
     wf_workflow_id c = value a) ->
  let fa := button_actions hm git gh resolve renderer path_exists rmtree delegate verr in
  let out := handle not_a_mapping sched tools cfg aid (Some fa) now cb r o in
  exists reply,
    out.1 = inr (_shape_response r reply) /\ prompt out.2 = prompt o /\
    pending_approvals out.2 = pending_approvals o /\
    requests (env out.2) = requests (env o) /\ executed (env out.2) = executed (env o) /\
    click_effect hm (value a) (world (env o)) (reply, world (env out.2)).
Proof.
  intros Ha Hf Hw fa. unfold fa. rewrite handle_cases. clear fa.
  assert (Hn : forall i, i = APPROVE_WRITE \/ i = DENY_WRITE -> is_action i r = false).
  { intros i Hi. unfold is_action. unfold is_finalization_action in Hf. rewrite Ha in *.
    apply bool_decide_eq_true in Hf. apply String.eqb_neq. intros Heq. rewrite Heq in Hf.
    destruct Hi as [-> | ->]; vm_compute in Hf; set_unfold in Hf; naive_solver. }
  rewrite !Hn, Hf by auto. unfold in_loop. cbn [fa_handle button_actions].
  unfold answering.
  pose proof (click_effects hm git gh resolve renderer path_exists rmtree r (world (env o)) (value a))
    as Hc. rewrite Ha in Hc. specialize (Hc eq_refl Hw).
  change (world (env (fresh_task o))) with (world (env o)).
  destruct (click _ _ _ _ _ _ _ _ _) as [reply w]. exists reply. done.
Qed.

(** A re-delegation that goes through. *)
Lemma re_delegate_sends renderer send verr p n m s :
  let t := followup p n m (task s) in
  assign_valid t = true -> send (assigned s) t = None ->
  exists s', re_delegate renderer (Some send) verr p n m s =
      (inr ("Re-delegated workflow " +:+ ta_workflow_id (task s) +:+ " (iteration "
            +:+ show_Z (ta_iteration_number (task s) + 1) +:+ ")."), s') /\
    assigned s' = assigned s ++ [t] /\ ctx_task s' = option_map (fun _ => t) (ctx_task s).
Proof.
  intros t Hv Hs. unfold re_delegate, fbind, fmodify, fret. fold t. rewrite Hv.
  cbn [negb set_task assigned]. rewrite Hs. eexists. split; [reflexivity|].
  edestruct (action_core renderer RE_DELEGATE) as (_ & Hc & Ha & _).
  split; [exact Ha|exact Hc].
Qed.

(** Iterate turns the next message into the next assignment.  After an
    Iterate click on a registered workflow, the next message of that thread,
    whatever it says, is not shown to the model: it is sent to the workflow's
    agent as the prompt of the next iteration, with the workspace and
    baseline of the last assignment; the context holds the new assignment,
    the thread is no longer waiting, and conversation and workflow registry
    are as before. *)
Theorem iterate_round_trip {HB : Backend Buttons} {HG : ApprovalGate Buttons}
  not_a_mapping sched (tools : Registry Buttons) cfg aid now cb
  hm git gh resolve renderer path_exists rmtree send verr r1 r2 wid i c (o : Orchestrator Buttons) :
  action r1 = Some {| action_id := FINALIZATION_ITERATE; value := wid |} -> action r2 = None ->
  thread_key r2 = thread_key r1 ->
  get_workflow wid (dispatcher (world (env o))) = Some (i, c) -> wf_workflow_id c = wid ->
  let t := followup (text r2) None None (wf_task c) in
  assign_valid t = true -> send [] t = None ->
  let fa := button_actions hm git gh resolve renderer path_exists rmtree (Some send) verr in
  let on_click := handle not_a_mapping sched tools cfg aid (Some fa) now cb r1 o in
  let on_text := handle not_a_mapping sched tools cfg aid (Some fa) now cb r2 on_click.2 in
  let b := world (env on_text.2) in
  on_click.1 = inr (_shape_response r1 ITERATE_REPLY) /\
  on_text.1 = inr (_shape_response r2 ("Re-delegated workflow " +:+ ta_workflow_id (wf_task c) +:+
                " (iteration " +:+ show_Z (ta_iteration_number (wf_task c) + 1) +:+ ").")) /\
  (exists s, sessions b = sessions (world (env o)) ++ [s] /\ assigned s = [t]) /\
  get_workflow wid (dispatcher b) = Some (i, with_task t c) /\
  pending_iteration b !! thread_key r2 = None /\
  workflows (dispatcher b) = workflows (dispatcher (world (env o))) /\
  prompt on_text.2 = prompt o /\ requests (env on_text.2) = requests (env o).
Proof.
  intros H1 H2 Hk Hw Hc t Hv Hs fa. unfold fa. cbv zeta.
  set (b0 := world (env o)) in *.
  assert (Hclick : handle not_a_mapping sched tools cfg aid
    (Some (button_actions hm git gh resolve renderer path_exists rmtree (Some send) verr)) now cb r1 o =
    (inr (_shape_response r1 ITERATE_REPLY),
     set_env (set_world (set_iteration (<[thread_key r1 := wid]> (pending_iteration b0)) b0)
                (set_surface ∅ (env o))) o)).
  { rewrite handle_cases. unfold is_action, is_finalization_action. rewrite H1. simpl.
    unfold in_loop. cbn [fa_handle button_actions]. unfold answering, click. rewrite H1. simpl.
    fold b0. rewrite Hw. simpl. unfold _handle_iterate. by rewrite Hc. }
  rewrite Hclick. cbn [fst snd]. clear Hclick. rewrite handle_cases. unfold is_action, is_finalization_action.
  rewrite H2, Hk. cbn [fa_is_pending_iteration button_actions set_env env set_world world set_iteration
                    pending_iteration].
  rewrite lookup_insert_eq. unfold in_loop. cbn [fa_consume_iteration_feedback button_actions].
  unfold answering, consume. simpl. rewrite lookup_insert_eq. fold b0. rewrite Hw.
  destruct (re_delegate_sends renderer send verr (text r2) None None
    (new_session (wf_task c) (_completion_stub c ("Iterating on workflow " +:+ wf_workflow_id c
       +:+ " per user feedback.")) (Some (wf_task c))) Hv Hs) as (s & Hr & Has & Hctx).
  unfold run_session. rewrite Hr. clear Hr. cbn [fst snd conclude world set_world set_env env prompt
    requests set_surface fresh_task]. simpl in Has, Hctx.
  split; [done|]. split; [done|]. split; [by exists s|].
  unfold get_workflow in Hw |- *. cbn [log_session set_dispatcher dispatcher store_context set_contexts
    workflows contexts pending_iteration set_iteration andb]. rewrite Hctx.
  destruct (workflows (dispatcher b0) !! wid) as [j|]; simpl in Hw |- *; [|done].
  destruct (contexts (dispatcher b0) !! j) as [c'|] eqn:Hj; simpl in Hw |- *; [|done].
  injection Hw as -> ->. rewrite lookup_insert_eq. split; [done|].
  by rewrite lookup_delete_eq.
Qed.

(** ** Witnesses *)

Definition buttons_start : Orchestrator Buttons :=
  {| prompt := fresh_builder; pending_approvals := ∅;
     env := new_env {| dispatcher := register_workflow 0 sample_context new_dispatcher;
                       pending_iteration := ∅; sessions := [] |} |}.

Definition silent_backend : Backend Buttons := fun _ w =>
  (inl (InferenceError "unavailable" "no model"), w).

Definition button_click (i : string) : NormalizedRequest :=
  {| text := ""; channel_id := "C1"; source := "slack"; request_id := "r9"; thread_ts := Some "17.1";
     action := Some {| action_id := i; value := "wf-1" |} |}.

Lemma buttons_close_on_success_witness :
  exists reply w, click_effect true "wf-1" (world (env buttons_start)) (reply, w) /\
    workflows (dispatcher w) = ∅.
Proof.
  destruct (@buttons_close_on_success silent_backend write_approval
    (fun _ => "not a mapping") (fun l => l) [] sample_cfg "" "now" false true clean_git
    (fun _ _ _ => GhTimeout) (fun p => p) None (fun _ => false) (fun _ => None) None (fun _ => "")
    (button_click FINALIZATION_DISCARD) {| action_id := FINALIZATION_DISCARD; value := "wf-1" |}
    buttons_start eq_refl eq_refl) as (reply & _ & _ & _ & _ & _ & He).
  - intros i c. vm_compute. intros [= _ <-]. reflexivity.
  - exists reply. eexists. split; [exact He|]. vm_compute. reflexivity.
Defined.

Lemma iterate_round_trip_witness :
  exists b s, sessions b = [s] /\
    map ta_prompt (assigned s) = ["make it faster"] /\ map ta_iteration_number (assigned s) = [1%Z].
Proof.
  destruct (@iterate_round_trip silent_backend write_approval
    (fun _ => "not a mapping") (fun l => l) [] sample_cfg "" "now" false true clean_git
    (fun _ _ _ => GhTimeout) (fun p => p) None (fun _ => false) (fun _ => None) (fun _ _ => None)
    (fun _ => "") (button_click FINALIZATION_ITERATE) (says "make it faster") "wf-1" 0 sample_context
    buttons_start eq_refl eq_refl eq_refl eq_refl eq_refl eq_refl eq_refl)
    as (_ & _ & (s & Hs & Ha) & _).
  eexists _, s. split; [exact Hs|]. rewrite Ha. split; reflexivity.
Defined.
