(* ===== verification/SubAgent.v ===== *)
(** * SubAgent

    The sub-agent process ([agent/__main__.py]) and its audit buffer
    ([agent/audit_buffer.py]): one process waits for one [task.assign], runs
    the agent loop on it with the assignment's overrides, flushes the audit
    rows and answers with [task.complete] or [task.error]. *)

From S2P Require Import Prelude Json Messages Client AgentTypes Registry Compaction Loop Prompt Protocol.
From S2P Require Import Finalization.

Definition TASK_ASSIGN : string := "task.assign".
Definition TASK_COMPLETE : string := "task.complete".
Definition TASK_ERROR : string := "task.error".
Definition AUDIT_FLUSH : string := "audit.flush".

Definition _DEFAULT_MAX_THREAD_HISTORY : Z := 50.

(** What a task raises: the cap of [_run_assigned_task], or an exception of
    the set-up or of the loop. *)
Inductive SubExc :=
| MaxTurnsExceededError (max_tool_rounds rounds_used tool_calls : Z) (partial_summary : string)
| TaskExc (x : Exc).

(** How the process ends: with an exit code or with an exception. *)
Inductive Exit := Exited (code : Z) | Propagated (text : string).

(** ** [AuditBuffer] *)

(** [AuditToolCallPayload]: what the registry and the call say; the row's id,
    its timing and the outcome of the call are only carried. *)
Record AuditRow := {
  ar_service : string;
  ar_command : string;
  ar_args : string;
  ar_read : bool
}.

(** [log_tool_call]: a row without a command fails its validation, which the
    loop swallows. *)
Definition log_tool_call {W} (tools : Registry W) (rows : list AuditRow) (tc : ToolCall)
  : list AuditRow :=
  if str_truthy (tc_name tc) then
    rows ++ [{| ar_service := match get (tc_name tc) tools with Some t => toolset t | None => "" end;
                ar_command := tc_name tc; ar_args := tc_arguments tc;
                ar_read := match get (tc_name tc) tools with
                           | Some t => is_read_only t | None => false end |}]
  else rows.

(** The rows after the calls the loop executed. *)
Definition audit_rows {W} (tools : Registry W) (calls : list ToolCall) : list AuditRow :=
  fold_left (log_tool_call tools) calls [].

(** [AuditFlushPayload] as [to_payload] builds it. *)
Record AuditFlushPayload := {
  af_workflow_id : string;
  af_parent_sandbox_id : string;
  af_agent_id : string;
  af_agent_role : string;
  af_tool_calls : list AuditRow
}.

Definition to_payload (t : TaskAssignPayload) (rows : list AuditRow) : AuditFlushPayload :=
  {| af_workflow_id := ta_workflow_id t; af_parent_sandbox_id := ta_parent_sandbox_id t;
     af_agent_id := ta_agent_id t; af_agent_role := "coding"; af_tool_calls := rows |}.

(** ** Errors *)

(** The field constraints of [TaskCompletePayload] and [TaskErrorPayload]. *)
Definition complete_valid (c : TaskCompletePayload) : bool :=
  str_truthy (tk_workflow_id c) && str_truthy (tk_summary c)
  && (0 <=? tk_tool_calls_made c)%Z && (0 <=? tk_rounds_used c)%Z.

Definition error_valid (e : TaskErrorPayload) : bool :=
  str_truthy (te_workflow_id e) && str_truthy (te_error e).

(** The overrides of [_run_assigned_task]: [dataclasses.replace] on the
    configured loop. *)
Definition effective_config (c : AgentLoopConfig) (t : TaskAssignPayload) : AgentLoopConfig :=
  {| model := default (model c) (ta_model t);
     temperature := temperature c; max_tokens := max_tokens c;
     max_tool_rounds := default (max_tool_rounds c) (ta_max_turns t);
     max_continuation_retries := max_continuation_retries c;
     micro_compaction_chars := micro_compaction_chars c;
     compaction_threshold_chars := compaction_threshold_chars c;
     compress_share := compress_share c; compaction_min_keep := compaction_min_keep c;
     compaction_model := compaction_model c |}.

(** The session whose [git_log] records the processes of the diff helper. *)
Definition diff_session (t : TaskAssignPayload) : FinalizationSession :=
  new_session t
    {| tk_workflow_id := ta_workflow_id t; tk_summary := ""; tk_diff := "";
       tk_workspace_baseline := ta_workspace_baseline t; tk_files_changed := [];
       tk_notes_path := None; tk_git_commit_sha := None; tk_tool_calls_made := 0;
       tk_rounds_used := 0; tk_model_used := None; tk_suggested_next_step := None |} None.

Section sub_agent.
Context {W : Type} `{Backend W}.
Context (not_a_mapping : json -> string).
Context (sched : list nat -> list nat).
(** The clock, the identity prompt and [config.agent_loop]. *)
Context (now identity_prompt : string) (agent_loop : AgentLoopConfig).
(** [mkdir] of the workspace and the coding registry rooted there. *)
Context (mkdir : string -> option Exc) (_build_tool_registry : string -> Exc + Registry W).
(** The [git] processes of the workspace the run left behind. *)
Context (git : W -> list (list string) -> string -> list string -> GitProcess).
Context (resolve : string -> string).
(** [type(exc).__name__], [isinstance(exc, TimeoutError)] and [str(exc)] of
    an exception of the set-up or of the loop, and its [traceback.format_exc()]. *)
Context (class_name : Exc -> string) (is_timeout : Exc -> bool) (exc_str : Exc -> string).
Context (format_exc : SubExc -> string).
(** [load] and [dump] of [nmb/protocol.py] on the payload models. *)
Context (load_assign : option (list (string * json)) -> string + TaskAssignPayload).
Context (dump_complete : TaskCompletePayload -> list (string * json)).
Context (dump_error : TaskErrorPayload -> list (string * json)).
Context (dump_flush : AuditFlushPayload -> list (string * json)).
(** The id of the n-th frame, whether the bus raises on a frame, and
    whether the JSONL fallback can be written. *)
Context (fresh : nat -> string) (bus_raises : NMBMessage -> option string).
Context (write_jsonl_fallback : list AuditRow -> bool).

Definition exc_class (x : SubExc) : string :=
  match x with
  | MaxTurnsExceededError _ _ _ _ => "MaxTurnsExceededError"
  | TaskExc x => class_name x
  end.

Definition sub_exc_str (x : SubExc) : string :=
  match x with
  | MaxTurnsExceededError m r c _ =>
      "max_tool_rounds=" +:+ show_Z m +:+ " exceeded after " +:+ show_Z r +:+ " rounds, "
      +:+ show_Z c +:+ " tool calls"
  | TaskExc x => exc_str x
  end.

Definition _classify_error (x : SubExc) : TaskErrorKind :=
  match x with
  | MaxTurnsExceededError _ _ _ _ => MAX_TURNS_EXCEEDED
  | TaskExc x =>
      if is_timeout x then TOOL_FAILURE
      else let name := class_name x in
        if str_contains "Inference" name || str_contains "Backend" name then INFERENCE_ERROR
        else if str_contains "Approval" name || str_contains "Policy" name then POLICY_DENIED
        else OTHER
  end.

Definition _is_recoverable (x : SubExc) : bool :=
  match x with MaxTurnsExceededError _ _ _ _ => true | TaskExc _ => false end.

(** ** The task *)

Definition prompt_builder (t : TaskAssignPayload) : LayeredPromptBuilder :=
  {| identity := identity_prompt;
     task_context := "Workspace root: " +:+ ta_workspace_root t +:+ newline +:+ "Task: "
                     +:+ ta_prompt t;
     max_history := _DEFAULT_MAX_THREAD_HISTORY; thread_history := ∅ |}.

(** [_run_task]: the loop under [AutoApproval]. *)
Definition _run_task (tools : Registry W) (cfg : AgentLoopConfig) (t : TaskAssignPayload)
  : M W AgentLoopResult :=
  let ms := (messages_for_inference now (ta_workflow_id t) (ta_prompt t) (ta_agent_id t)
               "agent" "" (prompt_builder t)).1 in
  @run W _ auto_approval not_a_mapping sched tools cfg false ms (ta_workflow_id t) [].

(** [_compute_baseline_diff]: the helper's exceptions become an empty diff. *)
Definition _compute_baseline_diff (w : W) (t : TaskAssignPayload) : string :=
  match ta_workspace_baseline t with
  | None => ""
  | Some b =>
      match (diff_against_baseline (git w) resolve (ta_workspace_root t) (base_sha b)
               (diff_session t)).1 with
      | inr diff => diff
      | inl _ => ""
      end
  end.

(** What one task leaves: its outcome and the audit buffer. *)
Definition _run_assigned_task (t : TaskAssignPayload) (outside : W)
  : (SubExc + TaskCompletePayload) * list AuditRow :=
  match mkdir (ta_workspace_root t), _build_tool_registry (ta_workspace_root t) with
  | Some x, _ | None, inl x => (inl (TaskExc x), [])
  | None, inr tools =>
      let cfg := effective_config agent_loop t in
      let '(out, e) := _run_task tools cfg t (new_env outside) in
      (match out with
       | inl x => inl (TaskExc x)
       | inr r =>
           if hit_safety_limit r then
             inl (MaxTurnsExceededError (max_tool_rounds cfg) (rounds r) (tool_calls_made r)
                    (lr_content r))
           else
             let c :=
               {| tk_workflow_id := ta_workflow_id t;
                  tk_summary := str_or (lr_content r) "(empty response)";
                  tk_diff := _compute_baseline_diff (world e) t;
                  tk_workspace_baseline := ta_workspace_baseline t;
                  tk_files_changed := []; tk_notes_path := None; tk_git_commit_sha := None;
                  tk_tool_calls_made := tool_calls_made r; tk_rounds_used := rounds r;
                  tk_model_used := Some (model cfg); tk_suggested_next_step := None |} in
             if complete_valid c then inr c
             else inl (TaskExc (OtherError "TaskCompletePayload"))
       end, audit_rows tools (executed e))
  end.

(** ** The bus *)

(** The frames given to the bus, each with whether the call returned. *)
Definition Wire : Type := list (NMBMessage * bool).

Definition bus_call (m : NMBMessage) (w : Wire) : option string * Wire :=
  (bus_raises m, w ++ [(m, negb (is_some (bus_raises m)))]).

(** [_reply_validation_error] *)
Definition _reply_validation_error (assign : NMBMessage) (exc : string) (w : Wire)
  : option string * Wire :=
  let e := {| te_workflow_id := id assign;
              te_error := "task.assign payload validation failed: " +:+ exc;
              te_error_kind := OTHER; te_recoverable := false;
              te_notes_path := None; te_traceback := None |} in
  if error_valid e then bus_call (reply_frame (fresh (length w)) assign TASK_ERROR (dump_error e)) w
  else (Some "TaskErrorPayload", w).

(** [_flush_audit_buffer] never raises; the fallback file is written first
    and its failure only logged. *)
Definition _flush_audit_buffer (t : TaskAssignPayload) (rows : list AuditRow) (w : Wire)
  : bool * Wire :=
  match rows with
  | [] => (false, w)
  | _ => (write_jsonl_fallback rows,
          (bus_call (send_frame (fresh (length w)) (ta_parent_sandbox_id t) AUDIT_FLUSH
                       (dump_flush (to_payload t rows))) w).2)
  end.

(** The [task.error] of an exception. *)
Definition error_of (t : TaskAssignPayload) (x : SubExc) : TaskErrorPayload :=
  {| te_workflow_id := ta_workflow_id t;
     te_error := exc_class x +:+ ": " +:+ sub_exc_str x;
     te_error_kind := _classify_error x; te_recoverable := _is_recoverable x;
     te_notes_path := None; te_traceback := Some (format_exc x) |}.

(** [_first_assign] over the messages delivered until the bus closes; [None]
    is its [RuntimeError]. *)
Fixpoint _first_assign (inbox : list NMBMessage) : option NMBMessage :=
  match inbox with
  | [] => None
  | m :: inbox => if bool_decide (type m = Some TASK_ASSIGN) then Some m else _first_assign inbox
  end.

(** [_wait_for_assign]: [shutdown] when the shutdown event is set by the time
    the wait ends. *)
Definition _wait_for_assign (shutdown : bool) (inbox : list NMBMessage)
  : string + option NMBMessage :=
  if shutdown then inr None
  else match _first_assign inbox with
       | Some m => inr (Some m)
       | None => inl "NMB listen() ended without delivering a task.assign"
       end.

(** The handling of a validated assignment. *)
Definition handle_task (assign : NMBMessage) (t : TaskAssignPayload) (outside : W) (w : Wire)
  : Exit * Wire :=
  match _run_assigned_task t outside with
  | (inl x, rows) =>
      if error_valid (error_of t x) then
        let '(_, w) := _flush_audit_buffer t rows w in
        match bus_call (reply_frame (fresh (length w)) assign TASK_ERROR
                          (dump_error (error_of t x))) w with
        | (None, w) => (Exited 0, w)
        | (Some exc, w) => (Propagated exc, w)
        end
      else (Propagated "TaskErrorPayload", w)
  | (inr c, rows) =>
      let '(_, w) := _flush_audit_buffer t rows w in
      match bus_call (reply_frame (fresh (length w)) assign TASK_COMPLETE (dump_complete c)) w with
      | (None, w) => (Exited 0, w)
      | (Some _, w) => (Exited 1, w)
      end
  end.

Definition _await_and_handle_one_task (shutdown : bool) (inbox : list NMBMessage) (outside : W)
  (w : Wire) : Exit * Wire :=
  match _wait_for_assign shutdown inbox with
  | inl exc => (Propagated exc, w)
  | inr None => (Exited 0, w)
  | inr (Some assign) =>
      match load_assign (payload assign) with
      | inl exc =>
          match _reply_validation_error assign exc w with
          | (None, w) => (Exited 0, w)
          | (Some exc, w) => (Propagated exc, w)
          end
      | inr t => handle_task assign t outside w
      end
  end.

(** [_run_nmb_mode]: [connected] is how [connect_with_retry] ended. *)
Definition _run_nmb_mode (connected shutdown : bool) (inbox : list NMBMessage) (outside : W)
  : Exit * Wire :=
  if connected then _await_and_handle_one_task shutdown inbox outside [] else (Exited 1, []).

(** The assignment [_run_cli_mode] makes for itself, and its run on it: the
    exit code and what is printed. *)
Definition cli_task (task_id agent_id task_description base_workspace : string)
  : TaskAssignPayload :=
  {| ta_prompt := task_description; ta_workflow_id := "cli-" +:+ task_id;
     ta_parent_sandbox_id := "cli"; ta_agent_id := agent_id;
     ta_workspace_root := base_workspace +:+ "/agent-" +:+ agent_id;
     ta_max_turns := None; ta_model := None; ta_tool_surface := None; ta_context_files := [];
     ta_workspace_baseline := None; ta_is_iteration := false; ta_iteration_number := 0 |}.

Definition _run_cli_mode (t : TaskAssignPayload) (outside : W) : Exit * option string :=
  match _build_tool_registry (ta_workspace_root t) with
  | inl x => (Propagated (exc_str x), None)
  | inr tools =>
      match (_run_task tools agent_loop t (new_env outside)).1 with
      | inl _ => (Exited 1, None)
      | inr r => (Exited 0, Some (lr_content r))
      end
  end.
End sub_agent.
