(* ===== verification/SubAgentTheorems.v ===== *)
(** * SubAgentTheorems

    What the sub-agent process promises: one answer per assignment, a
    completion that reports the run it had, no pause for an approval; that
    the assignment's tool allow-list does nothing; and that the answer,
    a REPLY to a frame that was not a REQUEST, is refused by the broker. *)

From S2P Require Import Prelude Json Messages Client Broker BrokerInv BrokerEmits AgentTypes Registry.
From S2P Require Import Compaction Loop LoopLemmas CompactionTheorems LoopTheorems Prompt.
From S2P Require Import Protocol Finalization Delegation SubAgent.

(** ** What a computation can raise *)

Definition raises_only {W A} (P : Exc -> Prop) (m : M W A) : Prop :=
  forall e x e', m e = (inl x, e') -> P x.

Lemma only_ret {W A} P (x : A) : raises_only P (ret x : M W A).
Proof. intros e y e' [=]. Qed.

Lemma only_gets {W A} P (f : Env W -> A) : raises_only P (gets f).
Proof. intros e y e' [=]. Qed.

Lemma only_bind {W A B} P (m : M W A) (k : A -> M W B) :
  raises_only P m -> (forall x, raises_only P (k x)) -> raises_only P (bind m k).
Proof.
  intros Hm Hk e x e' H. unfold bind in H. destruct (m e) as [[y|y] e1] eqn:He.
  - injection H as -> ->. by eapply Hm.
  - by eapply Hk.
Qed.

Create HintDb raising.
#[export] Hint Resolve only_ret only_gets only_bind : raising.

Section unattended.
Context {W : Type} `{Backend W} (P : Exc -> Prop).
Context (backend_only : forall q w x w', AgentTypes.complete q w = (inl x, w') -> P x).
Context (not_a_mapping : json -> string).
Context (sched : list nat -> list nat) (tools : Registry W).
Context (cfg : AgentLoopConfig) (has_callback : bool).
Context (sched_perm : forall l, sched l ≡ₚ l).

#[local] Existing Instance auto_approval.

Lemma only_infer q : raises_only P (infer q).
Proof.
  intros e x e' He. unfold infer in He. destruct (AgentTypes.complete q (world e)) as [y w] eqn:Hc.
  injection He as -> <-. by eapply backend_only.
Qed.
#[local] Hint Resolve only_infer : raising.

Lemma only_compact ms rid : raises_only P (compact cfg ms rid).
Proof.
  unfold compact, _summarize. destruct (_ <? _)%Z; [auto with raising|].
  destruct (split_system ms). cbv zeta. destruct (_ <? _)%Z; [auto with raising|].
  apply only_bind; [|auto with raising].
  apply only_bind; [auto with raising|]. intros names. apply only_bind; auto with raising.
Qed.

Lemma only_continue n rid working chunks : raises_only P (continue_from cfg n rid working chunks).
Proof.
  revert working chunks. induction n as [|n IH]; intros working chunks; simpl; [auto with raising|].
  apply only_bind; [auto with raising|]. intros r. destruct (negb _); auto with raising.
Qed.
#[local] Hint Resolve only_compact only_continue : raising.

Lemma only_execute tcs : raises_only P (execute_tool_calls not_a_mapping sched tools has_callback tcs).
Proof.
  intros e x e' He.
  destruct (exec_all_spec not_a_mapping sched tools has_callback tcs e sched_perm)
    as (rs & e1 & dn & H1 & _). congruence.
Qed.
#[local] Hint Resolve only_execute : raising.

Lemma auto_never_blocks tcs rid (e : Env W) : (_needs_write_approval tcs rid e).1 = inr false.
Proof.
  revert e. induction tcs as [|tc tcs IH]; intros e; [done|]. simpl.
  unfold bind at 1, check_approval, approval_check, auto_approval. simpl. apply IH.
Qed.

(** Under [AutoApproval] the loop raises only what the backend raises. *)
Lemma only_rounds n rid round ms total :
  raises_only P (run_rounds not_a_mapping sched tools cfg has_callback n rid round ms total).
Proof.
  revert round ms total. induction n as [|n IH]; intros round ms total; cbn [run_rounds].
  { auto with raising. }
  apply only_bind; [destruct (should_compact _ _); auto with raising|]. intros ms1.
  apply only_bind; [auto with raising|]. intros s. cbv zeta.
  apply only_bind; [auto with raising|]. intros r.
  destruct (response_calls r) as [|tc tcs].
  - apply only_bind; [|auto with raising]. unfold _continue_truncated.
    destruct (String.eqb _ _); auto with raising.
  - intros e x e' He. unfold bind at 1 in He.
    destruct (_needs_write_approval _ rid e) as [y e1] eqn:Hy.
    pose proof (auto_never_blocks (_get_write_tool_calls tools (tc :: tcs)) rid e) as Hn.
    rewrite Hy in Hn. simpl in Hn. subst y.
    revert He. apply only_bind; [auto with raising|]. intros results. apply IH.
Qed.

Lemma only_run ms rid pre : raises_only P (run not_a_mapping sched tools cfg has_callback ms rid pre).
Proof. intros e x e' He. rewrite run_rounds_of in He. by eapply only_rounds. Qed.
End unattended.

Section process.
Context {W : Type} `{Backend W}.
Context (not_a_mapping : json -> string).
Context (sched : list nat -> list nat) (sched_perm : forall l, sched l ≡ₚ l).
Context (now identity_prompt : string) (agent_loop : AgentLoopConfig).
Context (mkdir : string -> option Exc) (build_tools : string -> Exc + Registry W).
Context (git : W -> list (list string) -> string -> list string -> GitProcess).
Context (resolve : string -> string).
Context (class_name : Exc -> string) (is_timeout : Exc -> bool) (exc_str : Exc -> string).
Context (format_exc : SubExc -> string).
Context (load_assign : option (list (string * json)) -> string + TaskAssignPayload).
Context (load_validates : forall p t, load_assign p = inr t -> assign_valid t = true).
Context (dump_complete : TaskCompletePayload -> list (string * json)).
Context (dump_error : TaskErrorPayload -> list (string * json)).
Context (dump_flush : AuditFlushPayload -> list (string * json)).
Context (fresh : nat -> string) (bus_raises : NMBMessage -> option string).
Context (write_jsonl_fallback : list AuditRow -> bool).

Abbreviation run_assigned := (_run_assigned_task not_a_mapping sched now
  identity_prompt agent_loop mkdir build_tools git resolve).
Abbreviation await_one := (_await_and_handle_one_task not_a_mapping sched now
  identity_prompt agent_loop mkdir build_tools git resolve class_name is_timeout exc_str format_exc
  load_assign dump_complete dump_error dump_flush fresh bus_raises write_jsonl_fallback).
Abbreviation err_of := (error_of class_name is_timeout exc_str format_exc).

Lemma assign_valid_fields t :
  assign_valid t = true -> str_truthy (ta_workflow_id t) = true /\
    match ta_max_turns t with Some n => (0 < n)%Z | None => True end.
Proof.
  unfold assign_valid. intros Hv. repeat (apply andb_true_iff in Hv as [Hv ?]).
  split; [done|]. destruct (ta_max_turns t); [lia|done].
Qed.

Lemma app_truthy_r (a b : string) : str_truthy b = true -> str_truthy (a +:+ b) = true.
Proof. destruct a; [done|]. by rewrite string_app_cons. Qed.

Lemma error_of_valid t x : assign_valid t = true -> error_valid (err_of t x) = true.
Proof.
  intros Hv. apply assign_valid_fields in Hv as [Hv _]. unfold error_valid. simpl. rewrite Hv. simpl.
  apply app_truthy_r. by rewrite string_app_cons.
Qed.

(** A run's result under the effective configuration. *)
Lemma task_run_bounds tools cfg t (e : Env W) r e' :
  _run_task not_a_mapping sched now identity_prompt tools cfg t e = (inr r, e') ->
  (0 <= tool_calls_made r)%Z /\
  (exists dn, executed e' = executed e ++ dn /\ tool_calls_made r = len dn) /\
  (if hit_safety_limit r then rounds r = max_tool_rounds cfg
   else (0 < rounds r <= max_tool_rounds cfg)%Z).
Proof.
  unfold _run_task. rewrite run_rounds_of. intros He.
  match type of He with run_rounds _ _ _ _ _ ?n ?rid ?rd ?ms ?tt ?e0 = _ =>
    destruct (@rounds_bounded W _ auto_approval not_a_mapping sched tools cfg false
                sched_perm n rid rd ms tt e0) as (rs & dn & _ & Hx & _ & Hres) end.
  rewrite He in Hx, Hres. destruct (Hres r eq_refl) as [Ht Hround].
  assert (tool_calls_made r = len dn) as Hlen by (unfold len in *; lia).
  split; [unfold len in *; lia|]. split; [by exists dn|].
  destruct (hit_safety_limit r); [done|lia].
Qed.

(** The rounds of a run, counted in its requests. *)
Lemma task_run_counts tools cfg t (e : Env W) r e' :
  _run_task not_a_mapping sched now identity_prompt tools cfg t e = (inr r, e') ->
  existsb is_core tools = true ->
  exists rs, requests e' = requests e ++ rs /\
    if hit_safety_limit r then len (List.filter offers_tools rs) = Z.of_nat (Z.to_nat (max_tool_rounds cfg))
    else rounds r = len (List.filter offers_tools rs).
Proof.
  unfold _run_task. rewrite run_rounds_of. intros He Hcore.
  match type of He with run_rounds _ _ _ _ _ ?n ?rid ?rd ?ms ?tt ?e0 = _ =>
    destruct (@rounds_counted W _ auto_approval not_a_mapping sched tools cfg false
                sched_perm n rid rd ms tt e0 Hcore) as (rs & Hr & Hres) end.
  rewrite He in Hr, Hres. exists rs. split; [exact Hr|]. exact (Hres r eq_refl).
Qed.

(** ** The outcome of a task *)

(** The counters a task reports are those of its run: the rounds are the
    requests that offered the model its tools (none under a cap that is not
    positive), the calls are the dispatched ones, and the audit buffer logs
    exactly these. *)
Definition reports_run (t : TaskAssignPayload) (w : W) (res : AgentLoopResult) (final : Env W)
  (rounds_used calls_made : Z) (rows : list AuditRow) : Prop :=
  exists tools, build_tools (ta_workspace_root t) = inr tools /\
    _run_task not_a_mapping sched now identity_prompt tools (effective_config agent_loop t) t
      (new_env w) = (inr res, final) /\
    calls_made = len (executed final) /\ rows = audit_rows tools (executed final) /\
    rounds_used = rounds res /\
    (existsb is_core tools = true ->
     Z.max 0 rounds_used = len (List.filter offers_tools (requests final))).

(** C13: a completion reports the run it had.  For a valid assignment: a
    [task.complete] carries the workflow id, a baseline that passes the
    orchestrator's echo check, the run's text as a non-empty summary, the
    diff of the workspace the run left, the overridden model, the number of
    calls the run dispatched, and as rounds the number of requests in which
    the run offered the model its tools, between one and the effective cap;
    the audit buffer holds one row per dispatched call that names a tool.
    The cap is reported exactly as [max_turns_exceeded], with the counters
    of its run, and is the only recoverable error; every other error is one
    the set-up or the backend raised, so if these raise no
    [WriteApprovalError], neither does the task. *)
Theorem completion_reports_the_run t (w : W) (P : Exc -> Prop) :
  assign_valid t = true ->
  (forall q w x w', AgentTypes.complete q w = (inl x, w') -> P x) ->
  (forall r x, mkdir r = Some x \/ build_tools r = inl x -> P x) ->
  let cap := default (max_tool_rounds agent_loop) (ta_max_turns t) in
  match run_assigned t w with
  | (inr c, rows) =>
      tk_workflow_id c = ta_workflow_id t /\ verify_baseline t c = true /\
      str_truthy (tk_summary c) = true /\ complete_valid c = true /\
      tk_model_used c = Some (default (model agent_loop) (ta_model t)) /\
      (0 < tk_rounds_used c <= cap)%Z /\
      exists res final,
        reports_run t w res final (tk_rounds_used c) (tk_tool_calls_made c) rows /\
        hit_safety_limit res = false /\
        tk_summary c = str_or (lr_content res) "(empty response)" /\
        tk_diff c = _compute_baseline_diff git resolve (world final) t
  | (inl (MaxTurnsExceededError n r k s), rows) =>
      n = cap /\ r = cap /\
      (exists res final, reports_run t w res final r k rows /\ hit_safety_limit res = true) /\
      te_recoverable (err_of t (MaxTurnsExceededError n r k s)) = true /\
      te_error_kind (err_of t (MaxTurnsExceededError n r k s)) = MAX_TURNS_EXCEEDED
  | (inl (TaskExc x), _) =>
      P x /\ te_recoverable (err_of t (TaskExc x)) = false /\
      te_error_kind (err_of t (TaskExc x)) ≠ MAX_TURNS_EXCEEDED
  end.
Proof.
  intros Hv Hb Hsetup cap.
  assert (Hexc : forall x, P x -> P x /\ te_recoverable (err_of t (TaskExc x)) = false /\
            te_error_kind (err_of t (TaskExc x)) ≠ MAX_TURNS_EXCEEDED).
  { intros x Hp. split; [done|]. split; [done|]. simpl. by repeat case_match. }
  apply assign_valid_fields in Hv as [Hw Hturns].
  unfold _run_assigned_task. destruct (mkdir (ta_workspace_root t)) as [x|] eqn:Hm; [eauto|].
  destruct (build_tools (ta_workspace_root t)) as [x|tools] eqn:Ht; [eauto|].
  destruct (_run_task _ _ _ _ tools _ t (new_env w)) as [[x|r] e'] eqn:Hrun.
  { apply Hexc. unfold _run_task in Hrun.
    eapply (@only_run W _ P Hb not_a_mapping sched tools _ false sched_perm); exact Hrun. }
  pose proof (task_run_counts _ _ _ _ _ _ Hrun) as Hcount. pose proof Hrun as Hrun'.
  apply task_run_bounds in Hrun as (Hk & (dn & Hx & Hlen) & Hround).
  simpl in Hx. change (max_tool_rounds (effective_config agent_loop t)) with cap in Hround.
  change (max_tool_rounds (effective_config agent_loop t)) with cap in Hcount.
  assert (Hrep : reports_run t w r e' (rounds r) (tool_calls_made r) (audit_rows tools (executed e'))).
  { exists tools. rewrite Hx. repeat split; [done|exact Hrun'|done|].
    intros Hcore. destruct (Hcount Hcore) as (rs & Hrs & Hn). simpl in Hrs. rewrite Hrs.
    destruct (hit_safety_limit r); lia. }
  destruct (hit_safety_limit r) eqn:Hhit; [eauto 10|].
  assert (Hs : str_truthy (str_or (lr_content r) "(empty response)") = true).
  { unfold str_or. by destruct (str_truthy (lr_content r)) eqn:?. }
  unfold complete_valid at 1. simpl. rewrite Hw, Hs. simpl.
  rewrite (proj2 (Z.leb_le _ _) Hk), (proj2 (Z.leb_le 0 (rounds r)) ltac:(lia)). simpl.
  unfold complete_valid. simpl. rewrite Hw, Hs, (proj2 (Z.leb_le _ _) Hk),
    (proj2 (Z.leb_le 0 (rounds r)) ltac:(lia)).
  unfold verify_baseline. simpl. rewrite bool_decide_eq_true_2 by done. eauto 15.
Qed.

(** ** The answer *)

(** The frame the process answers [assign] with. *)
Definition answer_to (assign m : NMBMessage) : Prop :=
  op m = REPLY /\ reply_to m = Some (id assign) /\
  (type m = Some TASK_COMPLETE \/ type m = Some TASK_ERROR).

Definition flush_to (t : TaskAssignPayload) (m : NMBMessage) : Prop :=
  op m = SEND /\ to_sandbox m = Some (ta_parent_sandbox_id t) /\ type m = Some AUDIT_FLUSH.

Lemma flush_wire t rows w :
  exists fl, (_flush_audit_buffer dump_flush fresh bus_raises write_jsonl_fallback t rows w).2 = w ++ fl /\
    length fl = (match rows with [] => 0 | _ => 1 end)%nat /\ Forall (fun f => flush_to t f.1) fl.
Proof.
  unfold _flush_audit_buffer. destruct rows as [|r rows].
  - exists []. by rewrite app_nil_r.
  - simpl. eexists. split; [done|]. split; [done|]. by repeat constructor.
Qed.

(** Splits on the outcome of the bus call that sends the answer; [fl] is the
    flush before it. *)
#[local] Ltac answer_with fl :=
  unfold bus_call;
  match goal with |- context [bus_raises ?m0] =>
    let m := fresh "m" in
    let Hr := fresh "Hr" in
    set (m := m0); destruct (bus_raises m) eqn:Hr; simpl; exists fl, m; rewrite Hr;
    (split; [done|]); (split; [repeat split; auto|]); auto
  end.

(** C12: one assignment, one answer.  Unless shut down first, the process
    answers the first [task.assign] it is delivered (whatever else arrived
    before it) with exactly one REPLY keyed to that frame, after at most one
    [audit.flush] to the task's parent, which is sent exactly when there are
    audit rows and whose failure changes nothing.  The answer is the
    [task.complete] of the run exactly when the assignment was valid and
    its run succeeded, and is never turned into a [task.error] by a failed
    delivery, which the exit code 1 reports; a run that failed or an
    invalid assignment is answered by a [task.error]. *)
Theorem sub_agent_answers inbox assign (w : W) :
  _first_assign inbox = Some assign -> str_truthy (id assign) = true ->
  let '(exit, wire) := await_one false inbox w [] in
  exists flush m,
    wire = flush ++ [(m, negb (is_some (bus_raises m)))] /\ answer_to assign m /\
    match load_assign (payload assign) with
    | inl _ => flush = [] /\ type m = Some TASK_ERROR /\
        exit = match bus_raises m with None => Exited 0 | Some exc => Propagated exc end
    | inr t =>
        length flush = (match (run_assigned t w).2 with [] => 0 | _ => 1 end)%nat /\
        Forall (fun f => flush_to t f.1) flush /\
        match (run_assigned t w).1 with
        | inr c => type m = Some TASK_COMPLETE /\ payload m = Some (dump_complete c) /\
            exit = match bus_raises m with None => Exited 0 | Some _ => Exited 1 end
        | inl x => type m = Some TASK_ERROR /\ payload m = Some (dump_error (err_of t x)) /\
            exit = match bus_raises m with None => Exited 0 | Some exc => Propagated exc end
        end
    end.
Proof.
  intros Hf Hid. unfold _await_and_handle_one_task, _wait_for_assign. rewrite Hf.
  destruct (load_assign (payload assign)) as [exc|t] eqn:Hload.
  - unfold _reply_validation_error, error_valid. simpl. rewrite Hid. simpl.
    answer_with (@nil (NMBMessage * bool)).
  - pose proof (load_validates _ _ Hload) as Hv. unfold handle_task.
    destruct (run_assigned t w) as [[x|c] rows]; simpl; [rewrite (error_of_valid t x Hv)|];
      destruct (flush_wire t rows []) as (fl & Hw & Hlen & HF);
      destruct (_flush_audit_buffer _ _ _ _ t rows []) as [fb w']; simpl in Hw; subst w';
      answer_with fl.
Qed.

(** ** The answer at the broker *)

(** What the process puts on the wire. *)
Lemma await_frames inbox assign (w : W) :
  _first_assign inbox = Some assign ->
  Forall (fun f => answer_to assign f.1 \/ op f.1 = SEND) (await_one false inbox w []).2.
Proof.
  intros Hf. unfold _await_and_handle_one_task, _wait_for_assign. rewrite Hf.
  assert (Hfl : forall t rows, exists fl,
    (_flush_audit_buffer dump_flush fresh bus_raises write_jsonl_fallback t rows []).2 = fl /\
    Forall (fun f => answer_to assign f.1 \/ op f.1 = SEND) fl).
  { intros t rows. destruct (flush_wire t rows []) as (fl & Hw & _ & HF). exists fl.
    split; [done|]. eapply List.Forall_impl; [|exact HF]. by intros f [? _]; right. }
  destruct (load_assign (payload assign)) as [exc|t].
  - unfold _reply_validation_error, bus_call.
    repeat case_match; simplify_eq; repeat constructor; by auto.
  - unfold handle_task, bus_call. destruct (run_assigned t w) as [o rows].
    specialize (Hfl t rows) as (fl & Hw & HF).
    destruct (_flush_audit_buffer _ _ _ _ t rows []) as [fb w']. simpl in Hw. subst w'.
    repeat case_match; simplify_eq; try constructor;
      (apply Forall_app; split; [done|]; repeat constructor; by auto).
Qed.

(** C6: the answer never reaches the orchestrator.  Take any run of the
    broker in which some frame is the [task.assign] the orchestrator sends
    (a SEND, not a REQUEST) and no other frame of the run is a REQUEST that
    reuses its fresh id.  Then at the end of the run no request with that id
    is pending; and whatever the sub-agent that was delivered the assignment
    answers it with, the broker's step on that frame changes no routing
    state and sends nothing but an error to the sub-agent itself.  So no
    [task.complete] and no [task.error] is delivered to anyone. *)
Theorem task_results_never_arrive model_validate_json show_seconds c au before sok ts ows raw after s
  i agent p aws inbox assign (w : W) :
  model_validate_json raw = inr (send_frame i agent TASK_ASSIGN p) ->
  Forall (fun l => ~ requests_id model_validate_json i l) (before ++ after) ->
  run_schedule model_validate_json show_seconds (before ++ LFrame sok ts ows raw :: after)
    (new_sys c au) = Some s ->
  _first_assign inbox = Some assign -> id assign = i ->
  pending (br s) !! i = None /\
  Forall (fun f => op f.1 = REPLY -> forall sok' ts' raw' s',
    model_validate_json raw' = inr f.1 ->
    sys_step model_validate_json show_seconds (LFrame sok' ts' aws raw') s = Some s' ->
    routing_eq (br s') (br s) /\ inflight s' = inflight s /\
    exists told, outbox (br s') = outbox (br s) ++ told /\
      Forall (fun x => x.1 = aws /\ op x.2 = ERROR) told)
    (await_one false inbox w []).2.
Proof.
  clear sched_perm load_validates. intros Hraw Hfresh Hrun Hf Hid.
  assert (Hp : pending (br s) !! i = None).
  { apply (schedule_frees model_validate_json show_seconds i _ _ _) with (2 := Hrun); [|done].
    apply Forall_app in Hfresh as [Hb Ha]. apply Forall_app. split; [done|].
    constructor; [|done]. intros (m & Hm & Ho & _). rewrite Hraw in Hm. by simplify_eq. }
  split; [done|]. eapply List.Forall_impl; [|exact (await_frames inbox _ w Hf)].
  intros f [(_ & Hr & _)|Hs] Hop sok' ts' raw' s' Hraw' Hstep; [|congruence].
  simpl in Hstep. destruct (handlers s !! aws) as [sid|]; [|done].
  destruct (inflight s !! aws) eqn:Hin; [done|].
  destruct (_dispatch_begin _ _ _ _ _ _ _) as [b k] eqn:Hd. simplify_eq. simpl.
  assert (Hb : exists j cd text, (b, k) = (_send_error sok' aws j cd text None (br s), None)).
  { rewrite <- Hd. unfold _dispatch_begin, receive, from_json. rewrite Hraw'.
    destruct (validate_frame _); [by eexists _, _, _|]. unfold route. cbn [op stamp_identity].
    rewrite Hop. unfold _handle_reply. cbn [reply_to stamp_identity]. rewrite Hr.
    destruct (negb _); [by eexists _, _, _|]. cbv zeta. cbn [default]. unfold Datatypes.id. rewrite Hp. by eexists _, _, _. }
  destruct Hb as (j & cd & text & [= -> ->]).
  split; [apply send_error_quiet|]. split; [done|].
  unfold _send_error, ws_send. destruct (sok' aws _); simpl; [by eexists; eauto|].
  exists []. by rewrite app_nil_r.
Qed.
End process.

(** ** A scripted sub-agent *)

Definition sample_baseline : WorkspaceBaseline :=
  {| repo_url := "https://example.org/r.git"; branch := "main"; base_sha := "abc123";
     is_shallow := true |}.

Definition sample_assign (turns : option Z) (allow : option (list string)) : TaskAssignPayload :=
  {| ta_prompt := "fix the bug"; ta_workflow_id := "wf-1"; ta_parent_sandbox_id := "orchestrator";
     ta_agent_id := "a1"; ta_workspace_root := "/w"; ta_max_turns := turns; ta_model := Some "big";
     ta_tool_surface := allow; ta_context_files := []; ta_workspace_baseline := Some sample_baseline;
     ta_is_iteration := false; ta_iteration_number := 0 |}.

(** The payload's [turns] key selects the cap; anything else is malformed. *)
Definition sample_load (p : option (list (string * json))) : string + TaskAssignPayload :=
  match p with
  | Some [("turns", JNull)] => inr (sample_assign None None)
  | Some [("turns", _)] => inr (sample_assign (Some 1%Z) None)
  | _ => inl "task.assign: malformed"
  end.

Lemma sample_load_validates p t : sample_load p = inr t -> assign_valid t = true.
Proof. unfold sample_load. intros Hl. repeat case_match; by simplify_eq. Qed.

Definition sample_git (_ : Script) (_ : list (list string)) (_ : string) (args : list string)
  : GitProcess :=
  match args with
  | "rev-parse" :: _ => GitExited 0 "/w" ""
  | "diff" :: _ => GitExited 0 "+fixed" ""
  | _ => GitExited 0 "" ""
  end.

Definition sample_class (x : Exc) : string :=
  match x with InferenceError _ _ => "InferenceError" | _ => "RuntimeError" end.

Definition sample_complete (c : TaskCompletePayload) : list (string * json) :=
  [("summary", JStr (tk_summary c)); ("diff", JStr (tk_diff c))].
Definition sample_error (e : TaskErrorPayload) : list (string * json) :=
  [("error", JStr (te_error e))].
Definition sample_flush (f : AuditFlushPayload) : list (string * json) :=
  [("rows", JArr (map (fun r => JStr (ar_command r)) (af_tool_calls f)))].

Definition sample_run (t : TaskAssignPayload) (script : Script) :=
  @_run_assigned_task Script scripted_backend (fun _ => "not a mapping") (@rev nat)
    "now" "You are a coding agent." sample_cfg (fun _ => None) (fun _ => inr script_tools)
    sample_git (fun p => p) t script.

Definition sample_process (raises : NMBMessage -> option string) (inbox : list NMBMessage)
  (script : Script) : Exit * Wire :=
  @_await_and_handle_one_task Script scripted_backend (fun _ => "not a mapping") (@rev nat)
    "now" "You are a coding agent." sample_cfg (fun _ => None) (fun _ => inr script_tools)
    sample_git (fun p => p) sample_class (fun _ => false) (fun _ => "") (fun _ => "Traceback")
    sample_load sample_complete sample_error sample_flush (fun n => "f" +:+ show_Z (Z.of_nat n))
    raises (fun _ => true) false inbox script [].

Definition task_script : Script := [calls [search_call; write_call]; part "fixed it" "stop"].

(** A progress message strays in first; then the assignment of the
    orchestrator. *)
Definition sent_assign (turns : json) : NMBMessage :=
  stamp_identity "orchestrator" 7%Z (send_frame "m1" "coding-1" TASK_ASSIGN [("turns", turns)]).
Definition sample_inbox (turns : json) : list NMBMessage :=
  [_make_deliver (send_frame "m0" "coding-1" "task.progress" []); _make_deliver (sent_assign turns)].

Example process_completes :
  let '(exit, wire) := sample_process (fun _ => None) (sample_inbox JNull) task_script in
  exit = Exited 0 /\
  map (fun f => (op f.1, type f.1, payload f.1)) wire =
    [(SEND, Some AUDIT_FLUSH,
      Some [("rows", JArr [JStr "tool_search"; JStr "write_file"])]);
     (REPLY, Some TASK_COMPLETE, Some [("summary", JStr "fixed it"); ("diff", JStr "+fixed")])].
Proof. vm_compute. split; reflexivity. Qed.

Example process_hits_the_cap :
  let '(exit, wire) := sample_process (fun _ => None) (sample_inbox (JBool true)) task_script in
  exit = Exited 0 /\
  map (fun f => (type f.1, payload f.1)) (drop 1 wire) =
    [(Some TASK_ERROR, Some [("error", JStr
       "MaxTurnsExceededError: max_tool_rounds=1 exceeded after 1 rounds, 2 tool calls")])].
Proof. vm_compute. split; reflexivity. Qed.

(** The diff helper reads only the log of its session. *)
Lemma diff_reads_log git resolve ws base s s' :
  git_log s = git_log s' ->
  (diff_against_baseline git resolve ws base s).1 = (diff_against_baseline git resolve ws base s').1.
Proof.
  intros Hl. unfold diff_against_baseline, fbind, run_git. cbn [fst snd log_git git_log]. rewrite Hl.
  destruct (_ || _); [done|]. simpl. rewrite Hl. by destruct (is_git_error _).
Qed.

Lemma baseline_diff_same {W} (git : W -> _) resolve w t t' :
  ta_workspace_root t = ta_workspace_root t' -> ta_workspace_baseline t = ta_workspace_baseline t' ->
  _compute_baseline_diff git resolve w t = _compute_baseline_diff git resolve w t'.
Proof.
  intros Hr Hb. unfold _compute_baseline_diff. rewrite Hr, Hb.
  destruct (ta_workspace_baseline t') as [b|]; [|done].
  by rewrite (diff_reads_log (git w) resolve _ _ (diff_session t) (diff_session t') eq_refl).
Qed.

(** An assignment's tool allow-list and context files do nothing.  The
    outcome and the audit rows of a task do not depend on them: a task
    restricted to [tool_search] whose model asks for [write_file] runs it
    and completes, as an unrestricted one does, although the payload's
    documentation says a non-empty list narrows the sub-agent's tools. *)
Theorem task_restrictions_ignored {W} `{Backend W} not_a_mapping sched now prompt cfg
  mkdir (build_tools : string -> Exc + Registry W) git resolve t allow files (w : W) :
  let restricted :=
    {| ta_prompt := ta_prompt t; ta_workflow_id := ta_workflow_id t;
       ta_parent_sandbox_id := ta_parent_sandbox_id t; ta_agent_id := ta_agent_id t;
       ta_workspace_root := ta_workspace_root t; ta_max_turns := ta_max_turns t;
       ta_model := ta_model t; ta_tool_surface := allow; ta_context_files := files;
       ta_workspace_baseline := ta_workspace_baseline t; ta_is_iteration := ta_is_iteration t;
       ta_iteration_number := ta_iteration_number t |} in
  let run_one := _run_assigned_task not_a_mapping sched now prompt cfg mkdir build_tools
                   git resolve in
  run_one restricted w = run_one t w /\
  map ar_command (sample_run (sample_assign None (Some ["tool_search"])) task_script).2
    = ["tool_search"; "write_file"].
Proof.
  intros restricted run_one. unfold run_one. split; [|vm_compute; reflexivity].
  unfold _run_assigned_task.
  change (ta_workspace_root restricted) with (ta_workspace_root t).
  destruct (mkdir _); [done|]. destruct (build_tools _) as [|tools]; [done|].
  change (effective_config cfg restricted) with (effective_config cfg t).
  change (_run_task not_a_mapping sched now prompt tools (effective_config cfg t) restricted)
    with (_run_task not_a_mapping sched now prompt tools (effective_config cfg t) t).
  destruct (_run_task _ _ _ _ tools _ t _) as [[x|r] e]; [done|].
  by rewrite (baseline_diff_same git resolve (world e) restricted t eq_refl eq_refl).
Qed.

(** The scripted model makes two calls in its first request and stops in its
    second. *)
Lemma completion_reports_the_run_witness :
  match sample_run (sample_assign None None) task_script with
  | (inr c, rows) =>
      tk_rounds_used c = 2%Z /\ tk_tool_calls_made c = 2%Z /\ length rows = 2 /\
      exists final : Env Script, tk_rounds_used c = len (List.filter offers_tools (requests final)) /\
        tk_tool_calls_made c = len (executed final) /\ rows = audit_rows script_tools (executed final)
  | _ => False
  end.
Proof.
  pose proof (@completion_reports_the_run Script scripted_backend
    (fun _ => "not a mapping") (@rev nat) rev_perm "now" "You are a coding agent." sample_cfg
    (fun _ => None) (fun _ => inr script_tools) sample_git (fun p => p) sample_class
    (fun _ => false) (fun _ => "") (fun _ => "Traceback") (sample_assign None None) task_script
    (fun _ => True) eq_refl (fun _ _ _ _ _ => I) (fun _ _ _ => I)) as H.
  destruct (sample_run (sample_assign None None) task_script) as [[[n r k s|x]|c] rows] eqn:E;
    [vm_compute in E; discriminate|vm_compute in E; discriminate|].
  unfold sample_run in E. cbv zeta in H. rewrite E in H.
  destruct H as (_ & _ & _ & _ & _ & Hb & res & final & (tools & Ht & _ & Hk & Hr & _ & Hn) & _).
  injection Ht as <-. vm_compute in E. injection E as <- <-.
  split; [reflexivity|]. split; [reflexivity|]. split; [reflexivity|].
  exists final. split; [exact (Hn eq_refl)|]. split; [exact Hk|exact Hr].
Defined.

Lemma sub_agent_answers_witness :
  let '(exit, wire) := sample_process (fun _ => None) (sample_inbox JNull) task_script in
  exists flush m, wire = flush ++ [(m, true)] /\ length flush = 1 /\
    op m = REPLY /\ reply_to m = Some "m1" /\ type m = Some TASK_COMPLETE /\ exit = Exited 0.
Proof.
  pose proof (@sub_agent_answers Script scripted_backend
    (fun _ => "not a mapping") (@rev nat) "now" "You are a coding agent." sample_cfg
    (fun _ => None) (fun _ => inr script_tools) sample_git (fun p => p) sample_class
    (fun _ => false) (fun _ => "") (fun _ => "Traceback") sample_load sample_load_validates sample_complete sample_error
    sample_flush (fun n => "f" +:+ show_Z (Z.of_nat n)) (fun _ => None) (fun _ => true)
    (sample_inbox JNull) (_make_deliver (sent_assign JNull)) task_script eq_refl eq_refl) as H.
  unfold sample_process. destruct (_await_and_handle_one_task _ _ _ _ _ _ _ _ _ _ _ _ _ _ _ _ _ _ _ _ _ _ _ _)
    as [exit wire].
  destruct H as (fl & m & Hw & (Ho & Hr & _) & Hm). exists fl, m.
  split; [exact Hw|]. vm_compute in Hm. destruct Hm as (Hl & _ & Ht & _ & He).
  split; [exact Hl|]. split; [exact Ho|]. split; [exact Hr|]. split; [exact Ht|exact He].
Defined.

(** The orchestrator on socket 1, the sub-agent on socket 2: the assignment
    and the answer on the wire. *)
Definition the_answer : NMBMessage :=
  match List.filter (fun f => bool_decide (op f.1 = REPLY))
          (sample_process (fun _ => None) (sample_inbox JNull) task_script).2 with
  | f :: _ => f.1
  | [] => new_message ACK ""
  end.

Definition wire_parse (raw : string) : string + NMBMessage :=
  if String.eqb raw "assign" then inr (send_frame "m1" "coding-1" TASK_ASSIGN [("turns", JNull)])
  else if String.eqb raw "answer" then inr the_answer
  else inl "junk".

Definition two_party_config : BrokerConfig :=
  {| max_pending_per_sandbox := 100; default_request_timeout := 300%Z;
     max_channels_per_sandbox := 50 |}.

Definition two_party_schedule : list Label :=
  [LConnect "orchestrator" 1; LConnect "coding-1" 2; LFrame (fun _ _ => true) 7%Z 1 "assign"].

Definition two_party_sys : Sys :=
  default (new_sys two_party_config false)
    (run_schedule wire_parse show_Z two_party_schedule (new_sys two_party_config false)).

Definition refused_sys : Sys :=
  default two_party_sys
    (sys_step wire_parse show_Z (LFrame (fun _ _ => true) 8%Z 2 "answer") two_party_sys).

(** The completed task's answer is refused; under a cap of one the next
    workflow never gets the slot. *)
Lemma task_results_never_arrive_witness :
  type the_answer = Some TASK_COMPLETE /\
  (sys_step wire_parse show_Z (LFrame (fun _ _ => true) 8%Z 2 "answer") two_party_sys = Some refused_sys /\
   routing_eq (br refused_sys) (br two_party_sys) /\
   exists told, outbox (br refused_sys) = outbox (br two_party_sys) ++ told /\
     Forall (fun x => x.1 = 2 /\ op x.2 = ERROR) told) /\
  (exists m, delegation_run [DStart 0 "wf-1"; DAcquire 0; DSpawned 0 0; DSent 0; DStart 1 "wf-2"]
               (new_manager 1) = Some m /\ delegation_step (DAcquire 1) m = None).
Proof.
  split; [vm_compute; reflexivity|]. split; [|eexists; split; vm_compute; reflexivity].
  pose proof (@task_results_never_arrive Script scripted_backend
    (fun _ => "not a mapping") (@rev nat) "now" "You are a coding agent." sample_cfg
    (fun _ => None) (fun _ => inr script_tools) sample_git (fun p => p) sample_class
    (fun _ => false) (fun _ => "") (fun _ => "Traceback") sample_load sample_complete sample_error
    sample_flush (fun n => "f" +:+ show_Z (Z.of_nat n)) (fun _ => None) (fun _ => true)
    wire_parse show_Z two_party_config false
    [LConnect "orchestrator" 1; LConnect "coding-1" 2] (fun _ _ => true) 7%Z 1 "assign" []
    two_party_sys "m1" "coding-1" [("turns", JNull)] 2 (sample_inbox JNull)
    (_make_deliver (sent_assign JNull)) task_script eq_refl
    ltac:(repeat constructor; simpl; tauto) ltac:(vm_compute; reflexivity) eq_refl eq_refl) as [_ H].
  assert (Hs : sys_step wire_parse show_Z (LFrame (fun _ _ => true) 8%Z 2 "answer") two_party_sys
    = Some refused_sys) by (vm_compute; reflexivity).
  split; [exact Hs|]. apply Forall_lookup_1 with (i := 1) (x := (the_answer, true)) in H;
    [|vm_compute; reflexivity].
  destruct (H ltac:(vm_compute; reflexivity) (fun _ _ => true) 8%Z "answer" refused_sys
    ltac:(vm_compute; reflexivity) Hs) as (Hq & _ & Hout).
  split; [exact Hq|exact Hout].
Defined.
