(* ===== verification/DelegateTask.v ===== *)
(** * DelegateTask

    The orchestrator's [delegate_task] tool ([tools/delegation.py]) on the
    dispatcher's state.  The tool is suspended twice with the workflow
    registered, in the audit write and in the manager's [delegate]; messages
    are dispatched meanwhile, so it is split at the second: [delegate_begin]
    up to [manager.delegate], [delegate_end] from its outcome on. *)

From S2P Require Import Prelude Json Protocol Finalization Dispatcher.
From Stdlib Require Import Ascii.

Definition _CODING_AGENT_PREFIX : string := "coding-".

(** [RequestContext] of the running request. *)
Record RequestContext := {
  rc_request_id : string;
  rc_channel_id : option string;
  rc_thread_ts : option string;
  rc_source : string
}.

(** The tool's arguments. *)
Record DelegateArgs := {
  da_prompt : string;
  da_max_turns : option Z;
  da_model : option string;
  da_workspace_baseline : option json
}.

(** How [manager.delegate] ended: with the sandbox id of the agent, with a
    [DelegationError] or with another exception. *)
Inductive ManagerOutcome :=
| Delegated (sandbox_id : string)
| Refused (text : string)
| Raised (text : string).

Section delegate_task.
Context (parent_sandbox_id workspace_root : string).
Context (default_max_turns : option Z) (default_model : option string).
Context (has_dispatcher has_manager : bool).
(** [WorkspaceBaseline.model_validate] and the text of the validation error of
    an assignment (pydantic). *)
Context (validate_baseline : json -> string + WorkspaceBaseline).
Context (validation_error : TaskAssignPayload -> string).

(** The assignment, from the hexadecimal digits of two fresh uuids. *)
Definition delegate_payload (agent_hex workflow_hex : string) (a : DelegateArgs)
  (baseline : option WorkspaceBaseline) : TaskAssignPayload :=
  {| ta_prompt := da_prompt a;
     ta_workflow_id := "wf-" +:+ workflow_hex;
     ta_parent_sandbox_id := parent_sandbox_id;
     ta_agent_id := _CODING_AGENT_PREFIX +:+ agent_hex;
     ta_workspace_root := workspace_root +:+ "/agent-" +:+ agent_hex;
     ta_max_turns := match da_max_turns a with
                     | Some n => if (n =? 0)%Z then default_max_turns else Some n
                     | None => default_max_turns
                     end;
     ta_model := if opt_truthy (da_model a) then da_model a else default_model;
     ta_tool_surface := None; ta_context_files := []; ta_workspace_baseline := baseline;
     ta_is_iteration := false; ta_iteration_number := 0 |}.

(** The workflow context, of the current request if there is one. *)
Definition delegate_context (t : TaskAssignPayload) (r : option RequestContext)
  : WorkflowContext :=
  {| wf_workflow_id := ta_workflow_id t; wf_task := t;
     wf_channel_id := r ← r; rc_channel_id r;
     wf_thread_ts := r ← r; rc_thread_ts r;
     wf_request_id := match r with Some r => rc_request_id r | None => "" end |}.

(** Up to [manager.delegate]; [audit_started] is what
    [log_delegation_started] raises, if anything.  A left value is the
    exception that leaves the tool. *)
Definition delegate_begin (agent_hex workflow_hex : string) (i : CtxId) (a : DelegateArgs)
  (r : option RequestContext) (audit_started : option string) (d : WorkflowDispatcher)
  : (string + TaskAssignPayload) * WorkflowDispatcher :=
  match option_map validate_baseline (da_workspace_baseline a) with
  | Some (inl exc) => (inl exc, d)
  | b =>
      let baseline := match b with Some (inr b) => Some b | _ => None end in
      let t := delegate_payload agent_hex workflow_hex a baseline in
      if negb (assign_valid t) then (inl (validation_error t), d)
      else
        let d := if has_dispatcher then register_workflow i (delegate_context t r) d else d in
        match audit_started with
        | Some exc => (inl exc, d)
        | None => (inr t, d)
        end
  end.

(** From the outcome of [manager.delegate]; [audit_error] is what
    [log_delegation_error] raises, if anything. *)
Definition delegate_end (t : TaskAssignPayload) (o : ManagerOutcome) (audit_error : option string)
  (d : WorkflowDispatcher) : (string + string) * WorkflowDispatcher :=
  match o with
  | Delegated sandbox_id =>
      (inr ("Delegated. Workflow " +:+ ta_workflow_id t +:+ " is running in sub-agent "
            +:+ sandbox_id +:+ "; I'll post the results in this thread when it finishes."), d)
  | Refused exc =>
      let d := if has_dispatcher then deregister_workflow has_manager (ta_workflow_id t) d else d in
      match audit_error with
      | Some exc => (inl exc, d)
      | None => (inr ("Delegation failed: " +:+ exc), d)
      end
  | Raised exc => (inl exc, d)
  end.
End delegate_task.

(** ** The per-agent directory *)

Lemma path_name_from_app acc a b :
  path_name_from acc (a +:+ String "/"%char b) = path_name_from EmptyString b.
Proof.
  revert acc. induction a as [|c a IH]; intros acc; [done|].
  rewrite string_app_cons. simpl. destruct (Ascii.eqb c "/"%char); apply IH.
Qed.

Lemma contains_slash_cons c s :
  str_contains "/" (String c s) = Ascii.eqb c "/"%char || str_contains "/" s.
Proof.
  cbn [str_contains String.prefix]. destruct (Ascii.eqb_spec c "/"%char) as [->|Hne].
  - destruct (ascii_dec "/"%char "/"%char) as [_|[]]; [by destruct s|done].
  - destruct (ascii_dec "/"%char c) as [<-|_]; done.
Qed.

Lemma path_name_from_plain acc b : str_contains "/" b = false -> path_name_from acc b = acc +:+ b.
Proof.
  revert acc. induction b as [|c b IH]; intros acc Hb; [by rewrite string_app_nil_r|].
  rewrite contains_slash_cons in Hb. apply orb_false_iff in Hb as [Hc Hb]. simpl.
  rewrite Hc, IH by done. by rewrite string_app_assoc.
Qed.

Lemma contains_slash_app a b :
  str_contains "/" a = false -> str_contains "/" b = false -> str_contains "/" (a +:+ b) = false.
Proof.
  intros Ha Hb. induction a as [|c a IH]; [done|]. rewrite string_app_cons.
  rewrite contains_slash_cons in *. apply orb_false_iff in Ha as [-> Ha]. by apply IH.
Qed.

Section lifecycle.
Context (parent_sandbox_id workspace_root : string).
Context (default_max_turns : option Z) (default_model : option string) (has_manager : bool).
Context (validate_baseline : json -> string + WorkspaceBaseline).
Context (validation_error : TaskAssignPayload -> string).

Abbreviation begin := (delegate_begin parent_sandbox_id workspace_root default_max_turns
  default_model true validate_baseline validation_error).
Abbreviation finish := (delegate_end true has_manager).

(** The assignment's workspace is named after the agent. *)
Lemma delegate_workspace agent_hex workflow_hex a b :
  str_contains "/" agent_hex = false ->
  let t := delegate_payload parent_sandbox_id workspace_root default_max_turns default_model
             agent_hex workflow_hex a b in
  _looks_like_per_agent_workspace (ta_workspace_root t) (ta_agent_id t) = true.
Proof.
  intros Hhex t. unfold _looks_like_per_agent_workspace, path_name. simpl.
  rewrite (path_name_from_app _ workspace_root ("agent-" +:+ agent_hex)).
  rewrite path_name_from_plain by (by apply (contains_slash_app "agent-")).
  unfold startswith. change (EmptyString +:+ ?s) with s. by rewrite prefix_app.
Qed.

(** What the manager's outcome does to the dispatcher. *)
Lemma finish_spec t o audit_error d :
  let '(out, d') := finish t o audit_error d in
  match o with
  | Refused exc =>
      workflows d' = delete (ta_workflow_id t) (workflows d) /\
      terminated_workflows d' =
        terminated_workflows d ++ (if has_manager then [ta_workflow_id t] else []) /\
      out = match audit_error with None => inr ("Delegation failed: " +:+ exc) | Some e => inl e end
  | Raised exc => d' = d /\ out = inl exc
  | Delegated _ => d' = d /\ exists text, out = inr text
  end.
Proof.
  destruct o as [s|exc|exc]; simpl; [by eauto| |done]. unfold deregister_workflow.
  by destruct audit_error, has_manager; simpl; rewrite ?app_nil_r.
Qed.

End lifecycle.

(** A request in a Slack thread delegates with the default budget; the audit
    of a second one fails. *)
Definition sample_request : RequestContext :=
  {| rc_request_id := "r1"; rc_channel_id := Some "C1"; rc_thread_ts := Some "17.0";
     rc_source := "slack" |}.

Definition sample_args : DelegateArgs :=
  {| da_prompt := "fix the bug"; da_max_turns := Some 0%Z; da_model := None;
     da_workspace_baseline := None |}.

Definition sample_begin (audit_started : option string) :=
  delegate_begin "orchestrator" "/work" (Some 15%Z) None true (fun _ => inl "bad baseline")
    (fun _ => "invalid") "0a1b" "77" 3 sample_args (Some sample_request) audit_started new_dispatcher.

