(* ===== verification/Files.v ===== *)
(** * Files

    The workspace file tools of the coding agent ([tools/files.py]): path
    containment, [read_file], [write_file], [edit_file] and
    [list_directory].  A file holds bytes, of which [read_text] decodes the
    UTF-8 and translates the line ends; what the file system refuses is
    chosen by the argument [os_error].

    Theorems: the file tools neither read nor write outside the workspace, but
    for the link targets a listing looks at and the directories a write makes
    above a missing workspace; an edit replaces the only occurrence of its
    text, and a read is bounded. *)

From S2P Require Import Prelude.
From stdpp Require Import sorting.
From Stdlib Require Import Ascii.

Definition _DEFAULT_READ_LINE_LIMIT : Z := 200.
Definition _DEFAULT_READ_CHAR_LIMIT : Z := 32768.
Definition _DEFAULT_LIST_LIMIT : Z := 200.

Definition chr (n : nat) : ascii := ascii_of_nat n.
Definition CR : ascii := chr 13.
Definition LF : ascii := chr 10.

(** ** Text *)

(** The universal newlines of [read_text]: [\r\n] and [\r] become [\n]. *)
Fixpoint universal_newlines (s : string) : string :=
  match s with
  | EmptyString => EmptyString
  | String c s' =>
      if Ascii.eqb c CR then
        match s' with
        | String d s'' => if Ascii.eqb d LF then universal_newlines s'
                          else String LF (universal_newlines s')
        | EmptyString => String LF EmptyString
        end
      else String c (universal_newlines s')
  end.

(** The length in bytes of the line separator [s] starts with, 0 when there is
    none: the ASCII ones, U+0085, U+2028 and U+2029. *)
Definition separator (s : string) : nat :=
  match s with
  | EmptyString => 0
  | String c s' =>
      let n := nat_of_ascii c in
      if (n =? 13) && match s' with String d _ => nat_of_ascii d =? 10 | _ => false end then 2
      else if ((10 <=? n) && (n <=? 13)) || ((28 <=? n) && (n <=? 30)) then 1
      else if (n =? 194) && match s' with String d _ => nat_of_ascii d =? 133 | _ => false end then 2
      else if (n =? 226) && match s' with
                            | String d (String e _) => (nat_of_ascii d =? 128)
                                && ((nat_of_ascii e =? 168) || (nat_of_ascii e =? 169))
                            | _ => false
                            end then 3
      else 0
  end.

(** [s.splitlines(keepends=True)]: [line] is the line being read, [left] the
    bytes of its separator still to come. *)
Fixpoint splitlines_from (line : string) (left : nat) (s : string) : list string :=
  match s with
  | EmptyString => if str_truthy line then [line] else []
  | String c s' =>
      let line := line +:+ String c EmptyString in
      match left with
      | S (S k) => splitlines_from line (S k) s'
      | S O => line :: splitlines_from EmptyString 0 s'
      | O => match separator s with
             | O => splitlines_from line 0 s'
             | S O => line :: splitlines_from EmptyString 0 s'
             | S k => splitlines_from line k s'
             end
      end
  end.

Definition splitlines (s : string) : list string := splitlines_from EmptyString 0 s.

(** [text.count(old)] for a non-empty [old]: non-overlapping, from the left;
    [skip] bytes belong to the last occurrence. *)
Fixpoint count_from (old : string) (skip : nat) (s : string) : Z :=
  match s with
  | EmptyString => 0
  | String c s' =>
      match skip with
      | S k => count_from old k s'
      | O => if String.prefix old s then 1 + count_from old (String.length old - 1) s'
             else count_from old 0 s'
      end
  end%Z.

(** [text.count(old)]: the empty string occurs around every character. *)
Definition str_count (old s : string) : Z :=
  if str_truthy old then count_from old 0 s else (py_len s + 1)%Z.

(** The text before and after the first occurrence. *)
Fixpoint split_once (old s : string) : option (string * string) :=
  if String.prefix old s then
    Some (EmptyString, String.substring (String.length old) (String.length s) s)
  else match s with
       | EmptyString => None
       | String c s' => '(a, b) ← split_once old s'; Some (String c a, b)
       end.

(** [text.replace(old, new, 1)] *)
Definition replace_once (old new s : string) : string :=
  match split_once old s with Some (a, b) => a +:+ new +:+ b | None => s end.

(** [f"{i:>6}"] *)
Fixpoint spaces (n : nat) : string :=
  match n with O => EmptyString | S n => String " " (spaces n) end.
Definition pad6 (s : string) : string := spaces (6 - String.length s) +:+ s.

(** The pieces of [p] between slashes; the parts of [Path(p)] are those that
    are neither empty nor a dot. *)
Fixpoint pieces_from (piece p : string) : list string :=
  match p with
  | EmptyString => [piece]
  | String c p' => if Ascii.eqb c "/" then piece :: pieces_from EmptyString p'
                   else pieces_from (piece +:+ String c EmptyString) p'
  end.

Definition path_parts (p : string) : list string :=
  List.filter (fun s => str_truthy s && negb (String.eqb s ".")) (pieces_from EmptyString p).

(** ** [read_file]'s layout *)

(** The loop of [_number_and_truncate]: the number of the next line and the
    characters so far. *)
Fixpoint number_lines (lines : list string) (i char_count char_limit : Z) : list string :=
  match lines with
  | [] => []
  | line :: lines =>
      let numbered := pad6 (show_Z i) +:+ "|" +:+ rstrip line in
      let char_count := (char_count + py_len numbered + 1)%Z in
      if (char_limit <? char_count)%Z then
        ["... (truncated at " +:+ show_Z char_limit +:+ " chars)"]
      else numbered :: number_lines lines (i + 1) char_count char_limit
  end.

Definition _number_and_truncate (lines : list string) (start total char_limit : Z) : string :=
  let end_ := (start + Z.of_nat (length lines))%Z in
  let header :=
    if (0 <? start)%Z || (end_ <? total)%Z then
      "(showing lines " +:+ show_Z (start + 1) +:+ "–" +:+ show_Z (Z.min end_ total)
      +:+ " of " +:+ show_Z total +:+ ")"
    else "(" +:+ show_Z total +:+ " lines total)" in
  header +:+ newline +:+ String.concat newline (number_lines lines (start + 1) 0 char_limit).

(** [l[a:b]] for [0 <= a] and any [b]. *)
Definition py_slice {A} (a b : Z) (l : list A) : list A :=
  let n := Z.of_nat (length l) in
  let b := if (b <? 0)%Z then Z.max 0 (n + b) else b in
  take (Z.to_nat (b - a)) (drop (Z.to_nat a) l).

(** ** The file system *)

(** Files with their bytes, directories with the names in them, both by
    absolute path without links. *)
Record FS := { files : gmap string string; directories : gmap string (list string) }.

Inductive OsOp := OpRead | OpWrite | OpList | OpMkdir.

(** A path at its last slash. *)
Fixpoint rsplit_slash (p : string) : option (string * string) :=
  match p with
  | EmptyString => None
  | String c p' =>
      match rsplit_slash p' with
      | Some (a, b) => Some (String c a, b)
      | None => if Ascii.eqb c "/" then Some (EmptyString, p') else None
      end
  end.

(** [p.parent] and [p.name] of an absolute path. *)
Definition parent (p : string) : string :=
  match rsplit_slash p with
  | Some (EmptyString, _) => "/"
  | Some (a, _) => a
  | None => p
  end.

Definition last_part (p : string) : string :=
  match rsplit_slash p with Some (_, b) => b | None => p end.

(** A new file or directory is listed in its directory. *)
Definition list_entry (p : string) (ds : gmap string (list string)) : gmap string (list string) :=
  alter (fun names => if existsb (String.eqb (last_part p)) names then names else names ++ [last_part p])
    (parent p) ds.

(** [str] of the [OSError] of an errno on a path. *)
Definition errno_text (errno : Z) (text p : string) : string :=
  "[Errno " +:+ show_Z errno +:+ "] " +:+ text +:+ ": '" +:+ p +:+ "'".

Section tools.
Context (workspace_root : string).
(** [Path(p).resolve()], and whether bytes are UTF-8 with their decoding
    under [errors="replace"]. *)
Context (resolve : string -> string).
Context (valid_utf8 : string -> bool) (replace_invalid : string -> string).
(** The [OSError] of an operation on a path, if it raises one. *)
Context (os_error : OsOp -> string -> option string).

(** [_safe_resolve] *)
Definition _safe_resolve (relative_path : string) : string + string :=
  if startswith "/" relative_path then
    inl ("Absolute paths are not allowed: " +:+ relative_path)
  else if existsb (String.eqb "..") (path_parts relative_path) then
    inl ("Path traversal ('..') is not allowed: " +:+ relative_path)
  else
    let resolved := resolve (workspace_root +:+ "/" +:+ relative_path) in
    let root_resolved := resolve workspace_root in
    if negb (startswith (root_resolved +:+ "/") resolved)
       && negb (String.eqb resolved root_resolved) then
      inl ("Path escapes workspace: " +:+ relative_path)
    else inr resolved.

(** A tool's outcome: its text, or the exception that leaves it. *)
Definition Outcome : Type := (string + string) * FS.

Definition read_file (path : string) (offset limit : option Z) (fs : FS) : Outcome :=
  match _safe_resolve path with
  | inl exc => (inr ("Error: " +:+ exc), fs)
  | inr p =>
      match files fs !! p with
      | None => (inr ("Error: file not found: " +:+ path), fs)
      | Some bytes =>
          match os_error OpRead p with
          | Some exc => (inr ("Error reading " +:+ path +:+ ": " +:+ exc), fs)
          | None =>
              let text := universal_newlines (replace_invalid bytes) in
              let lines := splitlines text in
              let total := Z.of_nat (length lines) in
              let start := match offset with
                           | Some n => if (0 <? n)%Z then (n - 1)%Z else 0%Z
                           | None => 0%Z
                           end in
              let span := match limit with
                          | Some n => if (n =? 0)%Z then _DEFAULT_READ_LINE_LIMIT else n
                          | None => _DEFAULT_READ_LINE_LIMIT
                          end in
              let end_ := (start + span)%Z in
              let selected := py_slice start end_ lines in
              match selected with
              | [] =>
                  (inr (if (total =? 0)%Z then "File is empty."
                        else "No lines in range " +:+ show_Z (start + 1) +:+ "–" +:+ show_Z end_
                             +:+ "."), fs)
              | _ => (inr (_number_and_truncate selected start total _DEFAULT_READ_CHAR_LIMIT), fs)
              end
          end
      end
  end.

Definition write_text (p content : string) (fs : FS) : FS :=
  {| files := <[p := content]> (files fs); directories := list_entry p (directories fs) |}.

Definition new_directory (p : string) (fs : FS) : FS :=
  {| files := files fs; directories := <[p := []]> (list_entry p (directories fs)) |}.

(** [Path(q).mkdir(parents=True, exist_ok=True)]: what it raises, if anything,
    and the directories it has made by then.  A missing parent is made first;
    a file in the way ends it, before anything is made and with the name of the
    directory asked for, [target].  The fuel is the length of [q]. *)
Fixpoint make_dirs (target : string) (fuel : nat) (q : string) (fs : FS) : option string * FS :=
  match directories fs !! q with
  | Some _ => (None, fs)
  | None =>
      match files fs !! q, files fs !! parent q with
      | Some _, _ => (Some (errno_text 17 "File exists" q), fs)
      | None, Some _ => (Some (errno_text 20 "Not a directory" target), fs)
      | None, None =>
          match fuel with
          | O => (Some (errno_text 2 "No such file or directory" q), fs)
          | S fuel =>
              if String.eqb (parent q) q then (Some (errno_text 2 "No such file or directory" q), fs)
              else
                match make_dirs target fuel (parent q) fs with
                | (Some exc, fs) => (Some exc, fs)
                | (None, fs) =>
                    match os_error OpMkdir q with
                    | Some exc => (Some exc, fs)
                    | None => (None, new_directory q fs)
                    end
                end
          end
      end
  end.

Definition mkdir_parents (q : string) (fs : FS) : option string * FS :=
  make_dirs q (String.length q) q fs.

(** What opening [p] to write raises. *)
Definition write_error (p : string) (fs : FS) : option string :=
  match directories fs !! p with
  | Some _ => Some (errno_text 21 "Is a directory" p)
  | None => os_error OpWrite p
  end.

(** The directories that were made stay when the write fails. *)
Definition write_file (path content : string) (fs : FS) : Outcome :=
  match _safe_resolve path with
  | inl exc => (inr ("Error: " +:+ exc), fs)
  | inr p =>
      match mkdir_parents (parent p) fs with
      | (Some exc, fs) => (inr ("Error writing " +:+ path +:+ ": " +:+ exc), fs)
      | (None, fs) =>
          match write_error p fs with
          | Some exc => (inr ("Error writing " +:+ path +:+ ": " +:+ exc), fs)
          | None =>
              (inr ("Wrote " +:+ show_Z (py_len content) +:+ " bytes to " +:+ path),
               write_text p content fs)
          end
      end
  end.

Definition edit_file (path old_string new_string : string) (fs : FS) : Outcome :=
  match _safe_resolve path with
  | inl exc => (inr ("Error: " +:+ exc), fs)
  | inr p =>
      match files fs !! p with
      | None => (inr ("Error: file not found: " +:+ path), fs)
      | Some bytes =>
          match os_error OpRead p with
          | Some exc => (inr ("Error reading " +:+ path +:+ ": " +:+ exc), fs)
          | None =>
              if negb (valid_utf8 bytes) then (inl "UnicodeDecodeError", fs)
              else
                let text := universal_newlines bytes in
                let count := str_count old_string text in
                if (count =? 0)%Z then (inr ("Error: old_string not found in " +:+ path), fs)
                else if (1 <? count)%Z then
                  (inr ("Error: old_string appears " +:+ show_Z count +:+ " times in " +:+ path
                        +:+ ". Provide more context to make it unique."), fs)
                else
                  match os_error OpWrite p with
                  | Some exc => (inr ("Error writing " +:+ path +:+ ": " +:+ exc), fs)
                  | None => (inr ("Applied edit to " +:+ path),
                             write_text p (replace_once old_string new_string text) fs)
                  end
          end
      end
  end.

(** [sorted] of the names, by code point, which is the byte order of UTF-8. *)
Definition sorted_names (names : list string) : list string :=
  merge_sort (fun a b => Is_true (String.leb a b)) names.

(** [Path(p) / n] *)
Definition child (p n : string) : string := (if String.eqb p "/" then "" else p) +:+ "/" +:+ n.

(** [entry.relative_to(root)] of an entry below it. *)
Definition relative_to (root p : string) : string :=
  let n := if String.eqb root "/" then 1 else (String.length root + 1)%nat in
  String.substring n (String.length p) p.

Definition list_directory (path : string) (limit : Z) (fs : FS) : Outcome :=
  match _safe_resolve path with
  | inl exc => (inr ("Error: " +:+ exc), fs)
  | inr p =>
      match directories fs !! p with
      | None => (inr ("Error: not a directory: " +:+ path), fs)
      | Some names =>
          match os_error OpList p with
          | Some exc => (inr ("Error listing " +:+ path +:+ ": " +:+ exc), fs)
          | None =>
              let entries := map (child p) (sorted_names names) in
              let total := Z.of_nat (length entries) in
              let lines :=
                map (fun e => relative_to (resolve workspace_root) e +:+
                       match directories fs !! resolve e with Some _ => "/" | None => "" end)
                    (py_slice 0 limit entries)
                ++ (if (limit <? total)%Z
                    then ["... (" +:+ show_Z (total - limit) +:+ " more entries)"] else []) in
              (inr (match lines with [] => "(empty directory)"
                    | _ => String.concat newline lines end), fs)
          end
      end
  end.

(** A call of one of the four tools. *)
Inductive FileCall :=
| CallRead (path : string) (offset limit : option Z)
| CallWrite (path content : string)
| CallEdit (path old_string new_string : string)
| CallList (path : string) (limit : Z).

Definition run_file_call (c : FileCall) (fs : FS) : Outcome :=
  match c with
  | CallRead path offset limit => read_file path offset limit fs
  | CallWrite path content => write_file path content fs
  | CallEdit path old new => edit_file path old new fs
  | CallList path limit => list_directory path limit fs
  end.
End tools.

(** ** Occurrences *)

Lemma prefix_split p n s :
  String.prefix p s = true -> String.length s <= n ->
  s = p +:+ String.substring (String.length p) n s.
Proof.
  revert s. induction p as [|c p IH]; intros s Hp Hn.
  - simpl. by rewrite substring_all.
  - destruct s as [|d s]; [done|]. simpl in Hp. destruct (ascii_dec c d) as [->|]; [|done].
    simpl in Hn. rewrite string_app_cons. simpl. f_equal. apply IH; [done|lia].
Qed.

Lemma split_once_none old s :
  split_once old s = None -> str_contains old s = false /\ count_from old 0 s = 0%Z.
Proof.
  induction s as [|c s IH]; cbn [split_once str_contains count_from];
    destruct (String.prefix old _); try done.
  destruct (split_once old s) as [[a b]|]; [done|]. intros _. by destruct IH.
Qed.

Lemma count_skip old k s1 s2 :
  String.length s1 = k -> count_from old k (s1 +:+ s2) = count_from old 0 s2.
Proof.
  revert k. induction s1 as [|c s1 IH]; intros k Hk; simpl in Hk; subst; [done|].
  rewrite string_app_cons. cbn [count_from]. by apply IH.
Qed.

(** [split_once] finds the first occurrence, and the count goes on after it. *)
Lemma split_once_some old s a b :
  str_truthy old = true -> split_once old s = Some (a, b) ->
  s = a +:+ old +:+ b /\ str_contains old s = true /\
  count_from old 0 s = (1 + count_from old 0 b)%Z /\
  forall a' b', s = a' +:+ old +:+ b' -> String.length a <= String.length a'.
Proof.
  intros Hold. revert a b. induction s as [|c s IH]; intros a b Hs.
  { cbn [split_once] in Hs. by destruct old. }
  cbn [split_once str_contains] in Hs |- *.
  destruct (String.prefix old (String c s)) eqn:Hp.
  - pose proof (prefix_split _ _ _ Hp (le_n _)) as He.
    remember (String.substring (String.length old) (String.length (String c s)) (String c s)) as b0 eqn:Hsub.
    injection Hs as <- <-.
    split; [exact He|]. split; [done|]. split; [|intros; simpl; lia].
    clear Hsub. destruct old as [|o old]; [done|]. rewrite string_app_cons in He.
    injection He as <- ->. cbn [count_from]. rewrite Hp. f_equal. apply count_skip. simpl. lia.
  - destruct (split_once old s) as [[a0 b0]|] eqn:Hsp; [|done]. simpl in Hs. injection Hs as <- <-.
    destruct (IH a0 b0 eq_refl) as (He & Hc & Hn & Hf).
    split; [by rewrite string_app_cons, <- He|]. split; [by rewrite Hc|].
    split; [cbn [count_from]; by rewrite Hp|].
    intros [|d a'] b' Hb.
    + change (EmptyString +:+ ?x) with x in Hb. rewrite Hb, Prelude.prefix_app in Hp. done.
    + rewrite string_app_cons in Hb. injection Hb as -> Hb. simpl. by apply le_n_S, (Hf _ b').
Qed.

Lemma count_from_nonneg old k s : (0 <= count_from old k s)%Z.
Proof.
  revert k. induction s as [|c s IH]; intros k; [done|]. cbn [count_from].
  destruct k; [|apply IH]. destruct (String.prefix _ _); [|apply IH].
  pose proof (IH (String.length old - 1)). lia.
Qed.

(** [text.count(old)] by the first two occurrences. *)
Lemma count_cases old s :
  str_truthy old = true ->
  match split_once old s with
  | None => str_count old s = 0%Z /\ str_contains old s = false
  | Some (a, b) =>
      s = a +:+ old +:+ b /\ str_contains old s = true /\ (forall new, replace_once old new s = a +:+ new +:+ b) /\
      (forall a' b', s = a' +:+ old +:+ b' -> String.length a <= String.length a') /\
      (str_count old s = 1%Z <-> str_contains old b = false) /\ (1 <= str_count old s)%Z
  end.
Proof.
  intros Hold. unfold str_count, replace_once. rewrite Hold.
  destruct (split_once old s) as [[a b]|] eqn:Hs.
  - destruct (split_once_some old s a b Hold Hs) as (He & Hc & Hn & Hf).
    split; [done|]. split; [done|]. split; [done|]. split; [done|]. rewrite Hn.
    pose proof (count_from_nonneg old 0 b) as H0. split; [|lia].
    destruct (split_once old b) as [[a' b']|] eqn:Hb.
    + destruct (split_once_some old b a' b' Hold Hb) as (_ & Hc' & Hn' & _).
      pose proof (count_from_nonneg old 0 b') as H1. rewrite Hc'. split; [lia|done].
    + apply split_once_none in Hb as [-> ->]. done.
  - by apply split_once_none in Hs as [-> ->].
Qed.

(** ** Containment *)

(** [p] is [root] or below it. *)
Definition contained (root p : string) : Prop := p = root \/ startswith (root +:+ "/") p = true.

Lemma prefix_split_app p s : String.prefix p s = true -> exists q, s = p +:+ q.
Proof. intros Hp. eexists. by eapply prefix_split. Qed.

Lemma contained_child root p n : root ≠ "/" -> contained root p -> contained root (child p n).
Proof.
  intros Hr [->|Hp]; right; unfold child, startswith in *.
  - destruct (String.eqb_spec root "/"); [done|]. by rewrite <- string_app_assoc, Prelude.prefix_app.
  - apply prefix_split_app in Hp as [q ->]. destruct (String.eqb_spec ((root +:+ "/") +:+ q) "/") as [He|_].
    + destruct root as [|c root]; [exact (Prelude.prefix_app "/" n)|].
      exfalso. rewrite !string_app_cons in He. injection He as _ He. by destruct root.
    + by rewrite string_app_assoc, Prelude.prefix_app.
Qed.

Lemma in_py_slice {A} a b (l : list A) x : In x (py_slice a b l) -> In x l.
Proof.
  unfold py_slice. cbv zeta. set (m := Z.to_nat a). set (k := Z.to_nat _). intros Hx.
  rewrite <- (take_drop m l). apply in_or_app. right.
  rewrite <- (take_drop k (drop m l)). apply in_or_app. by left.
Qed.

Section containment.
Context (workspace_root : string) (resolve : string -> string).
Context (valid_utf8 : string -> bool) (replace_invalid : string -> string).
Context (os_error : OsOp -> string -> option string).

Abbreviation safe_resolve := (_safe_resolve workspace_root resolve).
Abbreviation run_call := (run_file_call workspace_root resolve valid_utf8 replace_invalid os_error).
Abbreviation root := (resolve workspace_root).

Lemma safe_resolve_contained path p :
  safe_resolve path = inr p ->
  contained root p /\ p = resolve (workspace_root +:+ "/" +:+ path) /\
  startswith "/" path = false /\ existsb (String.eqb "..") (path_parts path) = false.
Proof.
  unfold _safe_resolve. destruct (startswith "/" path); [done|].
  destruct (existsb _ _); [done|]. cbv zeta. remember (resolve (workspace_root +:+ "/" +:+ path)) as q eqn:Hq.
  destruct (startswith (root +:+ "/") q) eqn:Hs; simpl.
  - intros [= <-]. split; [by right|done].
  - destruct (String.eqb_spec q root) as [He|]; simpl; [|done].
    intros [= <-]. split; [by left|done].
Qed.

(** The two file systems look the same inside the workspace. *)
Definition same_inside (fs fs' : FS) : Prop :=
  forall p, contained root p -> files fs !! p = files fs' !! p /\ directories fs !! p = directories fs' !! p.

(** Every name inside the workspace leads to a directory in both or in
    neither. *)
Definition same_links (fs fs' : FS) : Prop :=
  forall p, contained root p ->
    is_Some (directories fs !! resolve p) <-> is_Some (directories fs' !! resolve p).

(** The workspace is there, in a directory. *)
Definition workspace_exists (fs : FS) : Prop :=
  is_Some (directories fs !! root) /\ is_Some (directories fs !! parent root).

(** A proper ancestor of the root. *)
Definition above_root (q : string) : Prop := exists n, q = Nat.iter (S n) parent root.

Lemma rsplit_app a b :
  rsplit_slash (a +:+ "/" +:+ b) =
  match rsplit_slash b with Some (x, y) => Some (a +:+ "/" +:+ x, y) | None => Some (a, b) end.
Proof.
  induction a as [|c a IH].
  - change (EmptyString +:+ ?x) with x. change ("/" +:+ b) with (String "/"%char b). simpl.
    by destruct (rsplit_slash b) as [[x y]|].
  - rewrite string_app_cons. cbn [rsplit_slash]. rewrite IH. by destruct (rsplit_slash b) as [[x y]|].
Qed.

Lemma contained_parent p : contained root p -> p ≠ root -> contained root (parent p).
Proof.
  intros [Hp|Hp] Hne; [done|]. apply prefix_split_app in Hp as [q ->].
  rewrite string_app_assoc. unfold parent. rewrite rsplit_app. destruct (rsplit_slash q) as [[x y]|].
  - right. assert (He : startswith (root +:+ "/") (root +:+ "/" +:+ x) = true)
      by (unfold startswith; by rewrite <- string_app_assoc, Prelude.prefix_app).
    destruct root as [|c r]; [exact He|]. by rewrite string_app_cons in *.
  - destruct root as [|c r]; [by right|by left].
Qed.

(** What making a directory changes: the chain of missing ancestors, and the
    listing of the first one that is there. *)
Lemma make_dirs_changes target fuel q fs d :
  let fs' := (make_dirs os_error target fuel q fs).2 in
  files fs' = files fs /\
  (directories fs' !! d ≠ directories fs !! d ->
   exists n, d = Nat.iter n parent q /\ forall m, m < n -> directories fs !! Nat.iter m parent q = None).
Proof.
  revert q. induction fuel as [|fuel IH]; intros q; cbn [make_dirs];
    destruct (directories fs !! q) eqn:Hq; try (by split; [|intros []]);
    destruct (files fs !! q), (files fs !! parent q); try (by split; [|intros []]).
  destruct (String.eqb (parent q) q); [by split; [|intros []]|].
  destruct (IH (parent q)) as [Hf Hd]. destruct (make_dirs os_error target fuel (parent q) fs) as [e fs1].
  simpl in Hf, Hd.
  assert (Hup : directories fs1 !! d ≠ directories fs !! d -> exists n, d = Nat.iter n parent q /\
    forall m, m < n -> directories fs !! Nat.iter m parent q = None).
  { intros H. destruct (Hd H) as (n & -> & Hm). exists (S n). rewrite Nat.iter_succ_r. split; [done|].
    intros [|m] Hlt; [exact Hq|]. rewrite Nat.iter_succ_r. apply Hm. lia. }
  destruct e as [e|]; [by split|]. destruct (os_error OpMkdir q); [by split|].
  simpl. split; [done|]. intros H. destruct (decide (d = q)) as [->|Hne].
  { exists 0. split; [done|]. lia. }
  rewrite lookup_insert_ne in H by done. unfold list_entry in H.
  destruct (decide (d = parent q)) as [->|Hne'].
  { exists 1. split; [done|]. intros m Hm. by replace m with 0 by lia. }
  rewrite lookup_alter_ne in H by done. by apply Hup.
Qed.

(** A chain from inside the root leaves it through the root. *)
Lemma chain_leaves q n :
  contained root q -> ~ contained root (Nat.iter n parent q) ->
  exists m, m < n /\ Nat.iter m parent q = root.
Proof.
  intros Hq. induction n as [|n IH]; simpl; intros Hn; [done|].
  destruct (decide (Nat.iter n parent q = root)) as [He|Hne]; [exists n; auto with lia|].
  destruct IH as (m & Hm & He); [|exists m; auto with lia].
  intros Hc. apply Hn. by apply contained_parent.
Qed.

(** Making the directory of a file in the workspace changes nothing outside
    it, unless the root itself is not there. *)
Lemma mkdir_outside p fs d :
  contained root p -> directories (mkdir_parents os_error (parent p) fs).2 !! d ≠ directories fs !! d ->
  contained root d \/ (~ workspace_exists fs /\ above_root d).
Proof.
  intros Hp Hd. destruct (make_dirs_changes (parent p) (String.length (parent p)) (parent p) fs d) as [_ Hc].
  destruct (Hc Hd) as (n & -> & Hm). destruct (decide (p = root)) as [->|Hne].
  - right. split; [|by exists n; rewrite Nat.iter_succ_r]. intros [_ [names Hr]].
    unfold mkdir_parents in Hd. destruct (String.length (parent root)); simpl in Hd; by rewrite Hr in Hd.
  - pose proof (contained_parent p Hp Hne) as Hq.
    destruct (decide (contained root (Nat.iter n parent (parent p)))) as [|Hout]; [by left|].
    destruct (chain_leaves _ _ Hq Hout) as (m & Hlt & He). right. split.
    + intros [[names Hr] _]. specialize (Hm m Hlt). by rewrite He, Hr in Hm.
    + exists (n - m - 1). rewrite <- He. rewrite <- Nat.iter_add. f_equal. lia.
Qed.

(** Inside the workspace, whether a directory can be made is decided there. *)
Lemma make_dirs_same target fuel q fs fs' :
  same_inside fs fs' -> is_Some (directories fs !! root) -> contained root q ->
  (make_dirs os_error target fuel q fs).1 = (make_dirs os_error target fuel q fs').1.
Proof.
  intros Hs [names Hr]. revert q. induction fuel as [|fuel IH]; intros q Hq; cbn [make_dirs];
    destruct (Hs q Hq) as [<- <-]; destruct (directories fs !! q) eqn:Hdq; try done;
    (destruct (decide (q = root)) as [->|Hne]; [congruence|]);
    pose proof (contained_parent q Hq Hne) as Hp; destruct (Hs _ Hp) as [<- _];
    destruct (files fs !! q), (files fs !! parent q); try done.
  destruct (String.eqb (parent q) q); [done|]. specialize (IH (parent q) Hp).
  destruct (make_dirs os_error target fuel (parent q) fs) as [e f1], (make_dirs os_error target fuel (parent q) fs') as [e' f2].
  simpl in IH. subst e'. destruct e; [done|]. by destruct (os_error OpMkdir q).
Qed.

(** Enough fuel: a longer one changes nothing. *)
Lemma rsplit_shorter p a b : rsplit_slash p = Some (a, b) -> String.length a < String.length p.
Proof.
  revert a b. induction p as [|c p IH]; intros a b; [done|]. cbn [rsplit_slash].
  destruct (rsplit_slash p) as [[x y]|] eqn:Hp.
  - intros [= <- <-]. simpl. specialize (IH _ _ eq_refl). lia.
  - destruct (Ascii.eqb c "/"); [|done]. intros [= <- <-]. simpl. lia.
Qed.

Lemma parent_shorter q : parent q ≠ q -> String.length (parent q) < String.length q.
Proof.
  unfold parent. destruct (rsplit_slash q) as [[[|c a] b]|] eqn:Hq; [|intros _; by eapply rsplit_shorter|done].
  destruct q as [|d q]; [done|]. intros Hne. destruct q as [|e q]; simpl; [|lia].
  cbn [rsplit_slash] in Hq. destruct (Ascii.eqb_spec d "/"%char) as [->|]; [by destruct Hne|done].
Qed.

Lemma ancestor_shorter q n : String.length (Nat.iter n parent q) <= String.length q.
Proof.
  induction n as [|n IH]; [done|]. simpl. destruct (decide (parent (Nat.iter n parent q) = Nat.iter n parent q)) as [->|Hne]; [done|].
  pose proof (parent_shorter _ Hne). lia.
Qed.

Lemma make_dirs_fuel target fuel q fs :
  String.length q <= fuel ->
  make_dirs os_error target fuel q fs = make_dirs os_error target (String.length q) q fs.
Proof.
  intros Hf. assert (H : forall n m q, String.length q <= n -> String.length q <= m ->
    make_dirs os_error target n q fs = make_dirs os_error target m q fs); [|apply H; lia].
  clear. induction n as [|n IH]; intros m q Hn Hm.
  - assert (q = EmptyString) as -> by (destruct q; [done|simpl in Hn; lia]). by destruct m.
  - destruct m as [|m]; [assert (q = EmptyString) as -> by (destruct q; [done|simpl in Hm; lia]); done|].
    cbn [make_dirs]. destruct (directories fs !! q), (files fs !! q), (files fs !! parent q); try done.
    destruct (String.eqb_spec (parent q) q) as [|Hne]; [done|].
    pose proof (parent_shorter q Hne). by rewrite (IH m (parent q)) by lia.
Qed.

(** Making the directory of [p] does not make [p]. *)
Lemma make_dirs_keeps target fuel p fs :
  directories (make_dirs os_error target fuel (parent p) fs).2 !! p = directories fs !! p.
Proof.
  destruct (decide (parent p = p)) as [He|Hne].
  - rewrite He. destruct fuel; cbn [make_dirs]; rewrite ?He, ?String.eqb_refl; by repeat case_match.
  - destruct (decide (directories (make_dirs os_error target fuel (parent p) fs).2 !! p = directories fs !! p))
      as [|Hc]; [done|].
    destruct (make_dirs_changes target fuel (parent p) fs p) as [_ H]. destruct (H Hc) as (n & Hp & _).
    pose proof (parent_shorter p Hne). pose proof (ancestor_shorter (parent p) n). rewrite <- Hp in *. lia.
Qed.

(** What a call may leave changed: at most one file, inside the root; and of
    the directories, inside the root, where [write_file] adds the missing
    ones on the way to its file and enters what is new in its directory;
    outside, only ancestors of a root that does not exist. *)
Definition written (c : FileCall) (fs fs' : FS) : Prop :=
  fs' = fs \/
  exists p, contained root p /\
    match c with
    | CallWrite path content => safe_resolve path = inr p /\
        (files fs' = files fs \/ files fs' = <[p := content]> (files fs)) /\
        (forall d, directories fs' !! d ≠ directories fs !! d ->
           contained root d \/ (~ workspace_exists fs /\ above_root d))
    | CallEdit path _ _ => safe_resolve path = inr p /\ is_Some (files fs !! p) /\
        exists content, files fs' = <[p := content]> (files fs) /\
          directories fs' = list_entry p (directories fs)
    | _ => False
    end.

Lemma write_written path content fs :
  written (CallWrite path content) fs (run_call (CallWrite path content) fs).2.
Proof.
  simpl. unfold write_file. destruct (safe_resolve path) as [exc|p] eqn:Hp; [by left|].
  pose proof (safe_resolve_contained _ _ Hp) as [Hc _]. right. exists p. split; [done|]. split; [done|].
  pose proof (make_dirs_changes (parent p) (String.length (parent p)) (parent p) fs) as Hf.
  pose proof (mkdir_outside p fs) as Hout. unfold mkdir_parents in *.
  destruct (make_dirs os_error _ _ (parent p) fs) as [[exc|] fs1] eqn:Hm; simpl in *.
  { split; [left; apply (Hf EmptyString)|]. intros d. by apply Hout. }
  destruct (write_error os_error p fs1) eqn:Hw; simpl.
  { split; [left; apply (Hf EmptyString)|]. intros d. by apply Hout. }
  split; [right; by rewrite (proj1 (Hf EmptyString))|]. intros d. unfold list_entry.
  destruct (decide (d = parent p)) as [->|Hne]; [|rewrite lookup_alter_ne by done; by apply Hout].
  destruct (decide (p = root)) as [->|Hpr]; [|intros _; left; by apply contained_parent].
  intros _. right. split; [|by exists 0]. intros [[names Hr] [up Hu]].
  assert (fs1 = fs) as ->. { destruct (String.length (parent root)); simpl in Hm; rewrite Hu in Hm; by simplify_eq. }
  unfold write_error in Hw. by rewrite Hr in Hw.
Qed.

Lemma call_written c fs : written c fs (run_call c fs).2.
Proof.
  destruct c as [path offset limit|path content|path old new|path limit]; [|apply write_written|..]; simpl;
    unfold read_file, edit_file, list_directory;
    destruct (safe_resolve path) as [exc|p] eqn:Hp; try by left.
  - repeat case_match; by left.
  - pose proof (safe_resolve_contained _ _ Hp) as [Hc _].
    destruct (files fs !! p) eqn:Hf; [|by left]. repeat case_match; try (by left).
    right. exists p. split; [done|]. split; [done|]. split; [by rewrite Hf|]. by eexists.
  - repeat case_match; by left.
Qed.

Lemma write_answers path content fs fs' :
  same_inside fs fs' -> workspace_exists fs -> workspace_exists fs' ->
  (run_call (CallWrite path content) fs).1 = (run_call (CallWrite path content) fs').1.
Proof.
  intros Hs Hw Hw'. simpl. unfold write_file. destruct (safe_resolve path) as [exc|p] eqn:Hp; [done|].
  pose proof (safe_resolve_contained _ _ Hp) as [Hc _].
  destruct (decide (p = root)) as [->|Hne].
  - assert (Hroot : forall f, workspace_exists f -> mkdir_parents os_error (parent root) f = (None, f) /\
      write_error os_error root f = Some (errno_text 21 "Is a directory" root)).
    { intros f [[names Hr] [up Hu]]. unfold mkdir_parents, write_error.
      destruct (String.length (parent root)); simpl; by rewrite Hu, Hr. }
    destruct (Hroot fs Hw) as [-> ->], (Hroot fs' Hw') as [-> ->]. done.
  - pose proof (make_dirs_same (parent p) (String.length (parent p)) (parent p) fs fs' Hs (proj1 Hw)
      (contained_parent p Hc Hne)) as He.
    pose proof (make_dirs_keeps (parent p) (String.length (parent p)) p fs) as Hk.
    pose proof (make_dirs_keeps (parent p) (String.length (parent p)) p fs') as Hk'.
    unfold mkdir_parents.
    destruct (make_dirs os_error _ _ (parent p) fs) as [e f1], (make_dirs os_error _ _ (parent p) fs') as [e' f2].
    simpl in He, Hk, Hk'. subst e'. destruct e; [done|]. unfold write_error.
    rewrite Hk, Hk', (proj2 (Hs p Hc)). by destruct (directories fs' !! p), (os_error OpWrite p).
Qed.

Lemma call_answers c fs fs' :
  root ≠ "/" -> same_inside fs fs' ->
  match c with
  | CallList _ _ => same_links fs fs'
  | CallWrite _ _ => workspace_exists fs /\ workspace_exists fs'
  | _ => True
  end ->
  (run_call c fs).1 = (run_call c fs').1.
Proof.
  intros Hroot Hs Hlinks.
  destruct c as [path offset limit|path content|path old new|path limit];
    [| by apply write_answers; tauto | |]; simpl; unfold read_file, edit_file, list_directory;
    destruct (safe_resolve path) as [exc|p] eqn:Hp; try done;
    pose proof (safe_resolve_contained _ _ Hp) as [Hc _]; destruct (Hs p Hc) as [Hf Hd];
    rewrite ?Hf, ?Hd; try by repeat case_match.
  destruct (directories fs' !! p) as [names|]; [|done].
  destruct (os_error OpList p); [done|]. cbv zeta.
  match goal with |- context [py_slice 0 limit ?l] =>
    assert (Hl : map (fun e => relative_to root e +:+
                   match directories fs !! resolve e with Some _ => "/" | None => "" end)
                     (py_slice 0 limit l) =
                 map (fun e => relative_to root e +:+
                   match directories fs' !! resolve e with Some _ => "/" | None => "" end)
                     (py_slice 0 limit l)) end; [|by rewrite Hl].
  apply map_ext_in. intros e He. apply in_py_slice, in_map_iff in He as (n & <- & _).
  pose proof (Hlinks (child p n) (contained_child _ _ n Hroot Hc)) as Hl.
  rewrite !is_Some_alt in Hl.
  destruct (directories fs !! resolve (child p n)), (directories fs' !! resolve (child p n)); tauto.
Qed.


(** An edit replaces the only occurrence.  On a readable file, a
    non-empty [old_string]: when it does not occur in the text nothing is
    written; otherwise let [a] and [b] be the text before and after its first
    occurrence: if it occurs again in [b] nothing is written and the model is
    told so, and if not, the file becomes exactly [a], the new string, [b].
    (The text is the file's with its line ends translated, so an edit also
    rewrites every [\r\n] as [\n]; and two overlapping occurrences count as
    one.) *)
Theorem edit_replaces_the_occurrence path old new fs p bytes :
  safe_resolve path = inr p -> files fs !! p = Some bytes -> valid_utf8 bytes = true ->
  os_error OpRead p = None -> os_error OpWrite p = None -> str_truthy old = true ->
  let text := universal_newlines bytes in
  let '(out, fs') := edit_file workspace_root resolve valid_utf8 os_error path old new fs in
  (str_contains old text = false /\ fs' = fs /\
   out = inr ("Error: old_string not found in " +:+ path)) \/
  exists a b, text = a +:+ old +:+ b /\
    (forall a' b', text = a' +:+ old +:+ b' -> String.length a <= String.length a') /\
    if str_contains old b then
      fs' = fs /\ out = inr ("Error: old_string appears " +:+ show_Z (str_count old text)
        +:+ " times in " +:+ path +:+ ". Provide more context to make it unique.")
    else fs' = write_text p (a +:+ new +:+ b) fs /\ out = inr ("Applied edit to " +:+ path).
Proof.
  intros Hp Hf Hv Hr Hw Hold text. unfold edit_file. rewrite Hp, Hf, Hr, Hv, Hw. simpl. fold text.
  pose proof (count_cases old text Hold) as Hc.
  destruct (split_once old text) as [[a b]|].
  - destruct Hc as (Ht & _ & Hrep & Hfirst & Hone & Hge).
    destruct (Z.eqb_spec (str_count old text) 0) as [|_]; [lia|].
    destruct (Z.ltb_spec 1 (str_count old text)) as [Hgt|Hle]; right; exists a, b;
      (split; [done|]); (split; [done|]).
    + destruct (str_contains old b) eqn:Hb; [done|]. destruct Hone as [_ Hone].
      specialize (Hone eq_refl). lia.
    + destruct Hone as [Hone _]. rewrite Hone by lia. by rewrite Hrep.
  - destruct Hc as [Hc Hn]. rewrite Hc. simpl. left. done.
Qed.

(** The body [read_file] shows stays within the character budget, up to the
    truncation notice. *)
Lemma number_lines_bounded lines i c limit :
  (c <= limit)%Z ->
  (py_len (String.concat newline (number_lines lines i c limit)) <=
   limit - c + py_len ("... (truncated at " +:+ show_Z limit +:+ " chars)"))%Z.
Proof.
  pose proof (py_len_nonneg ("... (truncated at " +:+ show_Z limit +:+ " chars)")) as Hn.
  remember ("... (truncated at " +:+ show_Z limit +:+ " chars)") as notice eqn:Hnotice.
  revert i c. induction lines as [|l lines IH]; intros i c Hc; cbn [number_lines].
  { cbn [String.concat py_len]. lia. }
  cbv zeta. set (numbered := pad6 _ +:+ _). rewrite <- Hnotice.
  destruct (Z.ltb_spec limit (c + py_len numbered + 1)) as [|Hle]; [cbn [String.concat]; lia|].
  specialize (IH (i + 1)%Z (c + py_len numbered + 1)%Z Hle).
  destruct (number_lines lines _ _ limit) as [|x xs]; cbn [String.concat] in *; [lia|].
  rewrite !py_len_app. change (py_len newline) with 1%Z. lia.
Qed.
End containment.

(** ** A small workspace *)

Definition sample_files : FS :=
  {| files := <["/w/a.py" := "aaa" +:+ newline]> (<["/etc/passwd" := "root"]> ∅);
     directories := <["/w" := ["a.py"; "link"]]> ∅ |}.

(** [link] points out of the workspace. *)
Definition sample_resolve (p : string) : string :=
  if String.eqb p "/w/link" then "/etc/passwd" else p.

Definition sample_call (c : FileCall) : Outcome :=
  run_file_call "/w" sample_resolve (fun _ => true) (fun s => s) (fun _ _ => None) c sample_files.

Example link_is_refused :
  (sample_call (CallRead "link" None None)).1 = inr "Error: Path escapes workspace: link".
Proof. vm_compute. reflexivity. Qed.

(** Two overlapping occurrences are not seen as ambiguous. *)
Example overlapping_edit :
  (sample_call (CallEdit "a.py" "aa" "b")).1 = inr "Applied edit to a.py" /\
  files (sample_call (CallEdit "a.py" "aa" "b")).2 !! "/w/a.py" = Some ("ba" +:+ newline).
Proof. vm_compute. split; reflexivity. Qed.

(** A write makes the directories on its way and lists what is new; without
    the workspace, it makes the workspace too. *)
Example write_makes_directories :
  let fs := (sample_call (CallWrite "pkg/sub/b.py" "x")).2 in
  directories fs !! "/w" = Some ["a.py"; "link"; "pkg"] /\
  directories fs !! "/w/pkg" = Some ["sub"] /\ directories fs !! "/w/pkg/sub" = Some ["b.py"] /\
  files fs !! "/w/pkg/sub/b.py" = Some "x".
Proof. vm_compute. repeat split. Qed.

Example write_makes_the_root :
  let out := run_file_call "/v/w" (fun p => p) (fun _ => true) (fun s => s) (fun _ _ => None)
    (CallWrite "b.py" "x") {| files := ∅; directories := <["/" := []]> ∅ |} in
  out.1 = inr "Wrote 1 bytes to b.py" /\ directories out.2 !! "/" = Some ["v"] /\
  directories out.2 !! "/v" = Some ["w"] /\ directories out.2 !! "/v/w" = Some ["b.py"].
Proof. vm_compute. repeat split. Qed.


Lemma edit_replaces_the_occurrence_witness :
  let fs := (sample_call (CallEdit "a.py" ("a" +:+ newline) "b")).2 in
  files fs !! "/w/a.py" = Some "aab".
Proof.
  pose proof (edit_replaces_the_occurrence "/w" sample_resolve (fun _ => true) (fun _ _ => None)
    "a.py" ("a" +:+ newline) "b" sample_files "/w/a.py" ("aaa" +:+ newline)
    eq_refl eq_refl eq_refl eq_refl eq_refl eq_refl) as H.
  cbv zeta in H. destruct (edit_file _ _ _ _ _ _ _ _) as [out fs'] eqn:E in H.
  destruct H as [(_ & _ & H)|(a & b & Ht & Hfirst & H)].
  - vm_compute in E. injection E as <- _. vm_compute in H. discriminate.
  - vm_compute. reflexivity.
Defined.
