(* ===== verification/Config.v ===== *)
(** * Config

    Loading the configuration ([config.py]): the defaults of the dataclasses,
    the YAML overlay, the environment, and the check of what is required.

    The loader sets whatever value the YAML file holds with [setattr], so a
    dataclass instance is a table from its field names to values, and
    [AppConfig] a table of those.  The YAML parser and the file system are
    arguments. *)

From S2P Require Import Prelude Json.

(** ** Defaults *)

Abbreviation Attrs := (gmap string json) (only parsing).

Definition attrs (l : list (string * json)) : Attrs := list_to_map l.

Definition DEFAULT_INFERENCE_BASE_URL : string := "https://inference.local/v1".
Definition DEFAULT_INFERENCE_MODEL : string := "azure/anthropic/claude-opus-4-6".
Definition DEFAULT_TEMPERATURE : json := JFloat "0.7".
Definition DEFAULT_MAX_TOKENS : json := JInt 2048.

Definition AgentLoopConfig : Attrs := attrs
  [("model", JStr DEFAULT_INFERENCE_MODEL); ("temperature", DEFAULT_TEMPERATURE);
   ("max_tokens", DEFAULT_MAX_TOKENS); ("max_tool_rounds", JInt 10);
   ("max_continuation_retries", JInt 2); ("micro_compaction_chars", JInt 10000);
   ("compaction_threshold_chars", JInt 400000); ("compaction_compress_ratio", JFloat "0.5");
   ("compaction_min_keep", JInt 4); ("compaction_model", JStr "")].

Definition SlackConfig : Attrs := attrs [("bot_token", JStr ""); ("app_token", JStr "")].

Definition InferenceConfig : Attrs := attrs
  [("base_url", JStr DEFAULT_INFERENCE_BASE_URL); ("api_key", JStr "");
   ("model", JStr DEFAULT_INFERENCE_MODEL); ("timeout_s", JInt 60); ("max_retries", JInt 3)].

Definition OrchestratorConfig : Attrs := attrs
  [("model", JStr DEFAULT_INFERENCE_MODEL); ("system_prompt_path", JStr "prompts/system_prompt.md");
   ("max_thread_history", JInt 50); ("temperature", DEFAULT_TEMPERATURE);
   ("max_tokens", DEFAULT_MAX_TOKENS)].

Definition DelegationConfig : Attrs := attrs
  [("enabled", JBool true); ("max_concurrent", JInt 4); ("max_spawn_depth", JInt 1);
   ("task_timeout_s", JFloat "300.0"); ("spawn_ready_timeout_s", JFloat "10.0");
   ("spawn_ready_poll_interval_s", JFloat "0.1");
   ("sub_agent_module", JStr "nemoclaw_escapades.agent")].

Definition LogConfig : Attrs := attrs [("level", JStr "INFO"); ("log_file", JNull)].

Definition JiraConfig : Attrs := attrs
  [("enabled", JBool true); ("url", JStr "https://jirasw.nvidia.com"); ("auth_header", JStr "")].

Definition GitLabConfig : Attrs := attrs
  [("enabled", JBool true); ("url", JStr ""); ("token", JStr "")].

Definition GerritConfig : Attrs := attrs
  [("enabled", JBool true); ("url", JStr ""); ("username", JStr ""); ("http_password", JStr "")].

Definition ConfluenceConfig : Attrs := attrs
  [("enabled", JBool true); ("url", JStr "https://nvidia.atlassian.net/wiki");
   ("username", JStr ""); ("api_token", JStr "")].

Definition SlackSearchConfig : Attrs := attrs [("enabled", JBool true); ("user_token", JStr "")].

Definition WebSearchConfig : Attrs := attrs
  [("enabled", JBool true); ("api_key", JStr ""); ("jina_api_key", JStr "");
   ("default_limit", JInt 5)].

Definition CodingAgentConfig : Attrs := attrs
  [("enabled", JBool true); ("workspace_root", JStr "~/.nemoclaw/workspace");
   ("git_clone_allowed_hosts", JStr "")].

Definition SkillsConfig : Attrs := attrs [("enabled", JBool true); ("skills_dir", JStr "skills")].

Definition NmbClientConfig : Attrs := attrs
  [("broker_url", JStr "ws://messages.local:9876"); ("sandbox_id", JStr "")].

Definition AuditConfig : Attrs := attrs
  [("enabled", JBool true); ("db_path", JStr "~/.nemoclaw/audit.db");
   ("persist_payloads", JBool true)].

(** [AppConfig] and [AppConfig()] *)
Abbreviation AppConfig := (gmap string (gmap string json)) (only parsing).

Definition app_defaults : AppConfig := list_to_map
  [("slack", SlackConfig); ("inference", InferenceConfig); ("orchestrator", OrchestratorConfig);
   ("agent_loop", AgentLoopConfig); ("delegation", DelegationConfig); ("nmb", NmbClientConfig);
   ("log", LogConfig); ("audit", AuditConfig); ("jira", JiraConfig); ("gitlab", GitLabConfig);
   ("gerrit", GerritConfig); ("confluence", ConfluenceConfig);
   ("slack_search", SlackSearchConfig); ("web_search", WebSearchConfig);
   ("coding", CodingAgentConfig); ("skills", SkillsConfig)].

(** [getattr(getattr(config, section), name)] and its [setattr]. *)
Definition field (section name : string) (c : AppConfig) : option json :=
  s ← c !! section; s !! name.

Definition set_field (section name : string) (v : json) (c : AppConfig) : AppConfig :=
  alter (<[name := v]>) section c.

(** ** The YAML overlay *)

Definition _DIRECT_SECTIONS : list string :=
  ["inference"; "orchestrator"; "agent_loop"; "delegation"; "nmb"; "log"; "audit"; "coding";
   "skills"].

Definition _TOOLSET_SECTIONS : list string :=
  ["jira"; "gitlab"; "gerrit"; "confluence"; "slack_search"; "web_search"].

Inductive Warning :=
| NotAMapping (section got : string)
| UnknownField (section name : string)
| UnknownSection (section : string).

Definition Loading : Type := AppConfig * list Warning.

Definition apply_field (path : string) (st : Attrs * list Warning) (kv : string * json)
  : Attrs * list Warning :=
  match st.1 !! kv.1 with
  | Some _ => (<[kv.1 := kv.2]> st.1, st.2)
  | None => (st.1, st.2 ++ [UnknownField path kv.1])
  end.

Definition _apply_section (path : string) (values : json) (sub_config : Attrs)
  : Attrs * list Warning :=
  match values with
  | JObj kvs => fold_left (apply_field path) kvs (sub_config, [])
  | v => (sub_config, [NotAMapping path (json_type_name v)])
  end.

(** One round of the loops over sections: [getattr(config, name)] updated
    from [overlay.get(name)]. *)
Definition apply_named (prefix : string) (overlay : list (string * json)) (st : Loading)
  (name : string) : Loading :=
  match obj_get name overlay, st.1 !! name with
  | None, _ | Some JNull, _ | _, None => st
  | Some v, Some sub =>
      let '(sub, ws) := _apply_section (prefix +:+ name) v sub in
      (<[name := sub]> st.1, st.2 ++ ws)
  end.

Definition unknown_sections (overlay : list (string * json)) : list Warning :=
  map UnknownSection
    (filter (fun k => k ∉ "toolsets" :: _DIRECT_SECTIONS) overlay.*1).

Definition apply_toolsets (overlay : list (string * json)) (st : Loading) : Loading :=
  match obj_get "toolsets" overlay with
  | None => st
  | Some v =>
      if json_truthy v then
        match v with
        | JObj toolsets => fold_left (apply_named "toolsets." toolsets) _TOOLSET_SECTIONS st
        | v => (st.1, st.2 ++ [NotAMapping "toolsets" (json_type_name v)])
        end
      else st
  end.

Definition apply_overlay (overlay : list (string * json)) (c : AppConfig) : Loading :=
  let st := apply_toolsets overlay (fold_left (apply_named "" overlay) _DIRECT_SECTIONS (c, [])) in
  (st.1, st.2 ++ unknown_sections overlay).

(** ** The environment *)

Abbreviation Environ := (gmap string string) (only parsing).

(** [if val := os.environ.get(var): ...] *)
Definition env_value (env : Environ) (var : string) : option string :=
  v ← env !! var; if str_truthy v then Some v else None.

(** The assignments of [_load_secrets_from_env], in order. *)
Definition SECRETS : list (string * (string * string)) :=
  [("SLACK_BOT_TOKEN", ("slack", "bot_token")); ("SLACK_APP_TOKEN", ("slack", "app_token"));
   ("INFERENCE_HUB_API_KEY", ("inference", "api_key")); ("JIRA_AUTH", ("jira", "auth_header"));
   ("GITLAB_TOKEN", ("gitlab", "token")); ("GERRIT_USERNAME", ("gerrit", "username"));
   ("GERRIT_HTTP_PASSWORD", ("gerrit", "http_password"));
   ("CONFLUENCE_USERNAME", ("confluence", "username"));
   ("CONFLUENCE_API_TOKEN", ("confluence", "api_token"));
   ("SLACK_USER_TOKEN", ("slack_search", "user_token"));
   ("BRAVE_SEARCH_API_KEY", ("web_search", "api_key"));
   ("JINA_API_KEY", ("web_search", "jina_api_key"))].

Definition RUNTIME : list (string * (string * string)) :=
  [("NEMOCLAW_SANDBOX_ID", ("nmb", "sandbox_id"));
   ("NEMOCLAW_WORKSPACE_ROOT", ("coding", "workspace_root"))].

Definition load_var (env : Environ) (c : AppConfig) (e : string * (string * string)) : AppConfig :=
  match env_value env e.1 with
  | Some v => set_field e.2.1 e.2.2 (JStr v) c
  | None => c
  end.

Definition _load_secrets_from_env (env : Environ) (c : AppConfig) : AppConfig :=
  fold_left (load_var env) SECRETS c.

Definition _apply_runtime_overrides (env : Environ) (c : AppConfig) : AppConfig :=
  fold_left (load_var env) RUNTIME c.

(** ** Fields shared between sections *)

(** The text of a number as a float. *)
Definition number_text (v : json) : option string :=
  match v with
  | JInt z => Some (show_Z z +:+ ".0")
  | JBool true => Some "1.0"
  | JBool false => Some "0.0"
  | JFloat r => Some r
  | _ => None
  end.

(** [v == d] for a default [d] that is a string or a number. *)
Definition py_eq (v d : json) : bool :=
  match v, d with
  | JStr s, JStr t => String.eqb s t
  | _, _ => match number_text v, number_text d with
            | Some x, Some y => String.eqb x y
            | _, _ => false
            end
  end.

(** The field of [agent_loop] and where it is taken from. *)
Definition SHARED : list (string * string) :=
  [("model", "inference"); ("temperature", "orchestrator"); ("max_tokens", "orchestrator")].

Definition sync_field (c : AppConfig) (e : string * string) : AppConfig :=
  match field "agent_loop" e.1 c, AgentLoopConfig !! e.1, field e.2 e.1 c with
  | Some v, Some d, Some w => if py_eq v d then set_field "agent_loop" e.1 w c else c
  | _, _, _ => c
  end.

Definition _sync_agent_loop_prompting_fields (c : AppConfig) : AppConfig :=
  fold_left sync_field SHARED c.

(** ** Loading *)

Definition field_truthy (section name : string) (c : AppConfig) : bool :=
  match field section name c with Some v => json_truthy v | None => false end.

Definition missing_values (require_slack : bool) (c : AppConfig) : list string :=
  (if require_slack then
     (if field_truthy "slack" "bot_token" c then [] else ["SLACK_BOT_TOKEN"]) ++
     (if field_truthy "slack" "app_token" c then [] else ["SLACK_APP_TOKEN"])
   else []) ++
  (if field_truthy "inference" "base_url" c then [] else ["inference.base_url (YAML)"]).

Definition required_error (missing : list string) : string :=
  "Missing required config values: " +:+ String.concat ", " missing +:+ ". " +:+
  "Set secrets in .env (copy from .env.example) and non-secret " +:+
  "knobs in config/defaults.yaml (or a per-deployment YAML).".

(** [ValueError]; otherwise nothing changes. *)
Definition _check_required_config (require_slack : bool) (c : AppConfig) : string + unit :=
  match missing_values require_slack c with
  | [] => inr tt
  | missing => inl (required_error missing)
  end.

Definition _DEFAULT_YAML_PATH : string := "/app/config.yaml".

Definition _resolve_yaml_path (env : Environ) (path : option string) : string :=
  match path with
  | Some p => p
  | None => default _DEFAULT_YAML_PATH (env_value env "NEMOCLAW_CONFIG_PATH")
  end.

Section loading.
(** [yaml.safe_load], the text of its error on the left, and the files. *)
Context (safe_load : string -> string + json).
Context (files : gmap string string).

Definition _apply_yaml_overlay (env : Environ) (path : option string) (c : AppConfig)
  : string + Loading :=
  let yaml_path := _resolve_yaml_path env path in
  match files !! yaml_path with
  | None => inr (c, [])
  | Some text =>
      match safe_load text with
      | inl exc => inl ("Invalid YAML in " +:+ yaml_path +:+ ": " +:+ exc)
      | inr v =>
          match (if json_truthy v then v else JObj []) with
          | JObj overlay => inr (apply_overlay overlay c)
          | v => inl ("Top-level YAML in " +:+ yaml_path +:+ " must be a mapping, got " +:+
                      json_type_name v)
          end
      end
  end.

(** [AppConfig.load] *)
Definition load (require_slack : bool) (env : Environ) (path : option string)
  : string + Loading :=
  (st <-- _apply_yaml_overlay env path app_defaults;;
   let c := _load_secrets_from_env env st.1 in
   let c := _apply_runtime_overrides env c in
   let c := _sync_agent_loop_prompting_fields c in
   _check_required_config require_slack c ;;;
   inr (c, st.2))%result.

Definition create_orchestrator_config (env : Environ) (path : option string) : string + Loading :=
  load true env path.

Definition create_coding_agent_config (env : Environ) (path : option string) : string + Loading :=
  load false env path.

Definition _FALLBACK_SYSTEM_PROMPT : string :=
  "You are NemoClaw, a helpful AI assistant. " +:+
  "Be concise and direct in your responses. " +:+
  "You do not yet have tools or persistent memory.".

Definition load_system_prompt (path : string) : string :=
  match files !! path with
  | Some text => strip text
  | None => _FALLBACK_SYSTEM_PROMPT
  end.

(** [load_dotenv_if_present]; [dotenv] parses the file, and variables that
    are set already win. *)
Definition load_dotenv_if_present (dotenv : string -> Environ) (path : string) (env : Environ)
  : bool * Environ :=
  match files !! path with
  | None => (false, env)
  | Some text => (true, env ∪ dotenv text)
  end.
End loading.
