(* ===== verification/ConfigTheorems.v ===== *)
(** * ConfigTheorems

    Where every value of a loaded configuration comes from, which types it
    has, and when loading fails. *)

From S2P Require Import Prelude Json Config.

(** ** Where values come from *)

(** What the overlay says about a section and a field; of two bindings of a
    key the later counts. *)
Definition section_value (o : list (string * json)) (section : string) : option json :=
  if decide (section ∈ _DIRECT_SECTIONS) then obj_get section o
  else if decide (section ∈ _TOOLSET_SECTIONS) then
    match obj_get "toolsets" o with
    | Some (JObj toolsets) => obj_get section toolsets
    | _ => None
    end
  else None.

Definition field_of (v : option json) (name : string) : option json :=
  match v with Some (JObj kvs) => obj_get name (rev kvs) | _ => None end.

Definition yaml_value (o : list (string * json)) (section name : string) : option json :=
  field_of (section_value o section) name.

(** The variable that sets a field, when it is set. *)
Fixpoint env_for (t : list (string * (string * string))) (env : Environ) (section name : string)
  : option string :=
  match t with
  | [] => None
  | e :: t =>
      match env_for t env section name with
      | Some v => Some v
      | None => if decide (e.2 = (section, name)) then env_value env e.1 else None
      end
  end.

Definition env_override (env : Environ) (section name : string) : option string :=
  env_for (SECRETS ++ RUNTIME) env section name.
#[global] Arguments env_override : simpl never.

(** Environment over overlay over default. *)
Definition layered (env : Environ) (o : list (string * json)) (section name : string) (d : json)
  : json :=
  default (default d (yaml_value o section name)) (JStr <$> env_override env section name).

(** The section a field of [agent_loop] follows while it has its default. *)
Definition follows (section name : string) : option string :=
  if decide (section = "agent_loop") then
    snd <$> List.find (fun e => String.eqb e.1 name) SHARED
  else None.

Definition final_value (env : Environ) (o : list (string * json)) (section name : string) (d : json)
  : json :=
  match follows section name with
  | Some source =>
      if py_eq (layered env o section name d) d
      then layered env o source name (default JNull (field source name app_defaults))
      else layered env o section name d
  | None => layered env o section name d
  end.

(** ** The stages *)

Lemma obj_get_app k a b :
  obj_get k (a ++ b) = match obj_get k a with Some v => Some v | None => obj_get k b end.
Proof. induction a as [|[k' v] a IH]; [done|]. cbn. by destruct (String.eqb k k'). Qed.

Lemma apply_fields_get path kvs st k :
  (fold_left (apply_field path) kvs st).1 !! k =
  (d ← st.1 !! k; Some (default d (obj_get k (rev kvs)))).
Proof.
  revert st; induction kvs as [|[k' v] kvs IH]; intros st; cbn [fold_left rev].
  { by destruct (st.1 !! k). }
  rewrite IH, obj_get_app. unfold apply_field; cbn [fst snd].
  destruct (st.1 !! k') as [d'|] eqn:Hk'; cbn [fst]; cbn [obj_get].
  - rewrite lookup_insert. destruct (decide (k' = k)) as [->|Hne].
    + rewrite Hk', String.eqb_refl. cbn. by destruct (obj_get k (rev kvs)).
    + replace (String.eqb k k') with false by (symmetry; apply String.eqb_neq; congruence).
      destruct (st.1 !! k); [|done]. cbn. by destruct (obj_get k (rev kvs)).
  - destruct (String.eqb_spec k k') as [->|Hne]; [by rewrite Hk'|].
    destruct (st.1 !! k); [|done]. cbn. by destruct (obj_get k (rev kvs)).
Qed.

Lemma apply_section_get path v sub k :
  (_apply_section path v sub).1 !! k = (d ← sub !! k; Some (default d (field_of (Some v) k))).
Proof.
  unfold _apply_section. destruct v; try (cbn; by destruct (sub !! k)). apply apply_fields_get.
Qed.

Lemma field_insert s a c sec f :
  field sec f (<[s := a]> c) = if decide (s = sec) then a !! f else field sec f c.
Proof. unfold field. rewrite lookup_insert. by case_decide. Qed.

Lemma named_get p o st name sec f :
  field sec f (apply_named p o st name).1 =
  (d ← field sec f st.1;
   Some (if decide (sec = name) then default d (field_of (obj_get name o) f) else d)).
Proof.
  assert (Hid : field sec f st.1 = (d ← field sec f st.1; Some d)) by by destruct (field sec f st.1).
  unfold apply_named. destruct (obj_get name o) as [v|] eqn:Ho.
  2: { case_decide; exact Hid. }
  destruct (st.1 !! name) as [sub|] eqn:Hs.
  2: { destruct v; case_decide as Hd; try exact Hid; subst; unfold field; by rewrite Hs. }
  assert (Hgen : field sec f (let '(sub0, ws) := _apply_section (p +:+ name) v sub in
                              (<[name:=sub0]> st.1, st.2 ++ ws)).1 =
    (d ← field sec f st.1;
     Some (if decide (sec = name) then default d (field_of (Some v) f) else d))).
  { pose proof (apply_section_get (p +:+ name) v sub f) as Ha.
    destruct (_apply_section (p +:+ name) v sub) as [sub0 ws]. cbn [fst] in *.
    rewrite field_insert. destruct (decide (name = sec)) as [->|Hne].
    - rewrite Ha. unfold field. rewrite Hs. cbn. destruct (sub !! f); [|done]. cbn.
      by rewrite decide_True.
    - destruct (field sec f st.1); [|done]. cbn. by rewrite decide_False by congruence. }
  destruct v; try exact Hgen. case_decide; exact Hid.
Qed.

Lemma names_get p o names st sec f :
  NoDup names ->
  field sec f (fold_left (apply_named p o) names st).1 =
  (d ← field sec f st.1;
   Some (if decide (sec ∈ names) then default d (field_of (obj_get sec o) f) else d)).
Proof.
  intros Hn. revert st; induction Hn as [|name names Hni Hn IH]; intros st; cbn [fold_left].
  { by destruct (field sec f st.1). }
  rewrite IH, named_get. destruct (field sec f st.1) as [d|]; [|done]. cbn. f_equal.
  destruct (decide (sec = name)) as [->|Hne].
  - rewrite (decide_False (P := name ∈ names)) by done. by rewrite decide_True by set_solver.
  - destruct (decide (sec ∈ names)).
    + by rewrite decide_True by set_solver.
    + by rewrite decide_False by set_solver.
Qed.

Lemma sections_distinct : NoDup _DIRECT_SECTIONS /\ NoDup _TOOLSET_SECTIONS.
Proof. split; apply (bool_decide_unpack _); vm_compute; exact I. Qed.

Lemma sections_disjoint s : s ∈ _TOOLSET_SECTIONS -> s ∉ _DIRECT_SECTIONS.
Proof.
  assert (H : Forall (fun s => s ∉ _DIRECT_SECTIONS) _TOOLSET_SECTIONS)
    by (apply (bool_decide_unpack _); vm_compute; exact I).
  rewrite Forall_forall in H. intros Hs. apply H. by apply list_elem_of_In.
Qed.

Lemma toolsets_get o st sec f :
  field sec f (apply_toolsets o st).1 =
  (d ← field sec f st.1;
   Some (if decide (sec ∈ _TOOLSET_SECTIONS) then
           default d (field_of match obj_get "toolsets" o with
                               | Some (JObj toolsets) => obj_get sec toolsets
                               | _ => None
                               end f)
         else d)).
Proof.
  assert (Hid : forall e : json -> json, (forall d, e d = d) ->
    field sec f st.1 = (d ← field sec f st.1; Some (e d))).
  { intros e He. destruct (field sec f st.1); cbn; by rewrite ?He. }
  unfold apply_toolsets. destruct (obj_get "toolsets" o) as [v|].
  2: { apply Hid. intros d. by case_decide. }
  destruct v as [| | | | | |ts];
    try (case_if; apply Hid; intros d; by case_decide).
  destruct ts as [|t ts]; [apply Hid; intros d; by case_decide|].
  change (json_truthy (JObj (t :: ts))) with true. cbv iota.
  apply names_get, sections_distinct.
Qed.

Lemma overlay_get o c sec f :
  field sec f (apply_overlay o c).1 = (d ← field sec f c; Some (default d (yaml_value o sec f))).
Proof.
  unfold apply_overlay. cbn [fst]. rewrite toolsets_get, names_get by apply sections_distinct.
  cbn [fst]. destruct (field sec f c) as [d|]; [|done]. cbn. f_equal.
  unfold yaml_value, section_value. destruct (decide (sec ∈ _TOOLSET_SECTIONS)) as [Ht|Ht].
  - by rewrite !decide_False by by apply sections_disjoint.
  - by destruct (decide (sec ∈ _DIRECT_SECTIONS)).
Qed.

Lemma field_set sec f v c s n :
  is_Some (field sec f c) ->
  field s n (set_field sec f v c) = if decide ((sec, f) = (s, n)) then Some v else field s n c.
Proof.
  intros [d Hd]. unfold field, set_field in *.
  destruct (c !! sec) as [a|] eqn:Ha; [|done]. cbn in Hd.
  destruct (decide (sec = s)) as [->|Hs].
  - rewrite lookup_alter_eq, Ha. cbn. rewrite lookup_insert.
    destruct (decide (f = n)) as [->|Hn]; [by rewrite decide_True|].
    by rewrite decide_False by congruence.
  - rewrite lookup_alter_ne by done. by rewrite decide_False by congruence.
Qed.

(** The fields a table of variables sets. *)
Definition targets_exist (t : list (string * (string * string))) (c : AppConfig) : Prop :=
  Forall (fun e => is_Some (field e.2.1 e.2.2 c)) t.

Lemma load_var_get env c e sec f :
  is_Some (field e.2.1 e.2.2 c) ->
  field sec f (load_var env c e) =
  (d ← field sec f c;
   Some (default d (JStr <$> if decide (e.2 = (sec, f)) then env_value env e.1 else None))).
Proof.
  intros He. unfold load_var. destruct (env_value env e.1) as [v|].
  - rewrite field_set by done. destruct e as [var [s n]]; cbn [fst snd] in *.
    destruct (decide ((s, n) = (sec, f))) as [[= -> ->]|Hne].
    + by destruct He as [d ->].
    + by destruct (field sec f c).
  - destruct (field sec f c); [|done]. cbn. by case_decide.
Qed.

Lemma load_vars_get env t c sec f :
  targets_exist t c ->
  field sec f (fold_left (load_var env) t c) =
  (d ← field sec f c; Some (default d (JStr <$> env_for t env sec f))).
Proof.
  revert c; induction t as [|e t IH]; intros c Ht; cbn [fold_left env_for].
  { by destruct (field sec f c). }
  apply Forall_cons_iff in Ht as [He Ht]. rewrite IH.
  - rewrite load_var_get by done. destruct (field sec f c) as [d|]; [|done]. cbn.
    by destruct (env_for t env sec f).
  - eapply List.Forall_impl; [|exact Ht]. intros e' [d Hd]. cbn. rewrite load_var_get by done.
    rewrite Hd. by eexists.
Qed.

Lemma env_for_app t u env sec f :
  env_for (t ++ u) env sec f =
  match env_for u env sec f with Some v => Some v | None => env_for t env sec f end.
Proof.
  induction t as [|e t IH]; cbn [app env_for]; [by destruct (env_for u env sec f)|].
  rewrite IH. by destruct (env_for u env sec f).
Qed.

Lemma targets_defaults : targets_exist (SECRETS ++ RUNTIME) app_defaults.
Proof. unfold targets_exist. apply (bool_decide_unpack _); vm_compute; exact I. Qed.

(** The configuration before the fields of [agent_loop] are settled. *)
Definition unsettled (env : Environ) (o : list (string * json)) : AppConfig :=
  _apply_runtime_overrides env (_load_secrets_from_env env (apply_overlay o app_defaults).1).

Lemma unsettled_get env o sec f :
  field sec f (unsettled env o) = (d ← field sec f app_defaults; Some (layered env o sec f d)).
Proof.
  unfold unsettled, _apply_runtime_overrides, _load_secrets_from_env.
  rewrite <- fold_left_app, load_vars_get.
  - rewrite overlay_get. by destruct (field sec f app_defaults).
  - eapply List.Forall_impl; [|exact targets_defaults]. intros e [d Hd]. cbv beta.
    rewrite overlay_get, Hd. by eexists.
Qed.

(** ** Settling [agent_loop] *)

Lemma sync_field_get e c sec f d w :
  field "agent_loop" e.1 c = Some d -> field e.2 e.1 c = Some w ->
  field sec f (sync_field c e) =
  if decide (("agent_loop", e.1) = (sec, f)) then
    Some (match AgentLoopConfig !! e.1 with
          | Some d0 => if py_eq d d0 then w else d
          | None => d
          end)
  else field sec f c.
Proof.
  intros Hd Hw. unfold sync_field. rewrite Hd, Hw.
  destruct (AgentLoopConfig !! e.1) as [d0|].
  - destruct (py_eq d d0).
    + by rewrite field_set by (by rewrite Hd).
    + case_decide as H; [injection H as <- <-; exact Hd|done].
  - case_decide as H; [injection H as <- <-; exact Hd|done].
Qed.

(** The three shared fields exist in both sections. *)
Lemma shared_fields c :
  (forall sec f d, field sec f app_defaults = Some d -> is_Some (field sec f c)) ->
  Forall (fun e => is_Some (field "agent_loop" e.1 c) /\ is_Some (field e.2 e.1 c)) SHARED.
Proof.
  intros H. repeat constructor; cbn [fst snd]; (eapply H; vm_compute; reflexivity).
Qed.

Lemma sync_get c sec f :
  (forall sec f d, field sec f app_defaults = Some d -> is_Some (field sec f c)) ->
  field sec f (_sync_agent_loop_prompting_fields c) =
  match follows sec f with
  | Some source =>
      match field sec f c, AgentLoopConfig !! f, field source f c with
      | Some v, Some d, Some w => Some (if py_eq v d then w else v)
      | v, _, _ => v
      end
  | None => field sec f c
  end.
Proof.
  intros Hc. apply shared_fields in Hc. unfold _sync_agent_loop_prompting_fields, SHARED in *.
  apply Forall_cons_iff in Hc as [[[m Hm] [m' Hm']] Hc].
  apply Forall_cons_iff in Hc as [[[t Ht] [t' Ht']] Hc].
  apply Forall_cons_iff in Hc as [[[x Hx] [x' Hx']] _]. cbn [fst snd] in *. cbn [fold_left].
  set (c1 := sync_field c ("model", "inference")).
  set (c2 := sync_field c1 ("temperature", "orchestrator")).
  pose proof (fun s n => sync_field_get ("model", "inference") c s n m m' Hm Hm') as H1.
  fold c1 in H1.
  assert (Ht1 : field "agent_loop" "temperature" c1 = Some t) by (by rewrite H1, decide_False by discriminate).
  assert (Ht1' : field "orchestrator" "temperature" c1 = Some t') by (by rewrite H1, decide_False by discriminate).
  pose proof (fun s n => sync_field_get ("temperature", "orchestrator") c1 s n t t' Ht1 Ht1') as H2.
  fold c2 in H2.
  rewrite (sync_field_get ("max_tokens", "orchestrator") c2 sec f x x'); cbn [fst snd].
  2, 3: by rewrite H2, decide_False, H1, decide_False by discriminate.
  unfold follows. cbn [fst snd] in *.
  destruct (decide (sec = "agent_loop")) as [->|Hs].
  2: { by rewrite !decide_False, H2, !decide_False, H1, !decide_False by congruence. }
  unfold List.find, SHARED. cbn [fst snd].
  destruct (String.eqb_spec "model" f) as [<-|Hf1].
  { rewrite decide_False, H2, decide_False, H1, decide_True by congruence. cbn [fmap option_fmap option_map snd].
    by rewrite Hm, Hm'. }
  destruct (String.eqb_spec "temperature" f) as [<-|Hf2].
  { rewrite decide_False, H2, decide_True by congruence. cbn [fmap option_fmap option_map snd].
    by rewrite Ht, Ht'. }
  destruct (String.eqb_spec "max_tokens" f) as [<-|Hf3].
  { rewrite decide_True by congruence. cbn [fmap option_fmap option_map snd]. by rewrite Hx, Hx'. }
  by rewrite !decide_False, H2, !decide_False, H1, !decide_False by congruence.
Qed.

(** ** Loading *)

Section loading.
Context (safe_load : string -> string + json) (files : gmap string string).

(** What the file, if there is one, contributes. *)
Definition overlay_of (env : Environ) (path : option string) : string + list (string * json) :=
  let yaml_path := _resolve_yaml_path env path in
  match files !! yaml_path with
  | None => inr []
  | Some text =>
      match safe_load text with
      | inl exc => inl ("Invalid YAML in " +:+ yaml_path +:+ ": " +:+ exc)
      | inr (JObj o) => inr o
      | inr v =>
          if json_truthy v
          then inl ("Top-level YAML in " +:+ yaml_path +:+ " must be a mapping, got " +:+
                    json_type_name v)
          else inr []
      end
  end.

Lemma overlay_applied env path c :
  _apply_yaml_overlay safe_load files env path c =
  match overlay_of env path with
  | inl e => inl e
  | inr o => inr (apply_overlay o c)
  end.
Proof.
  assert (Hnil : apply_overlay [] c = (c, [])) by done.
  unfold _apply_yaml_overlay, overlay_of. destruct (files !! _) as [text|]; [|by rewrite Hnil].
  destruct (safe_load text) as [exc|v]; [done|].
  destruct (json_truthy v) eqn:Ht; destruct v; try done; try (by rewrite Hnil).
  destruct o as [|kv o]; [by rewrite Hnil|discriminate Ht].
Qed.

(** The loaded configuration, before the check. *)
Definition assembled (env : Environ) (o : list (string * json)) : AppConfig :=
  _sync_agent_loop_prompting_fields (unsettled env o).

Lemma assembled_get env o sec f :
  field sec f (assembled env o) = (d ← field sec f app_defaults; Some (final_value env o sec f d)).
Proof.
  unfold assembled. rewrite sync_get.
  2: { intros s n d Hd. rewrite unsettled_get, Hd. by eexists. }
  unfold final_value. destruct (follows sec f) as [source|] eqn:Hfo.
  2: { rewrite unsettled_get. by destruct (field sec f app_defaults). }
  rewrite !unsettled_get. unfold follows in Hfo. destruct (decide (sec = "agent_loop")) as [->|]; [|done].
  change (AgentLoopConfig !! f) with (field "agent_loop" f app_defaults).
  assert (Hw : is_Some (field source f app_defaults)).
  { unfold SHARED, List.find in Hfo. cbn [fst snd] in Hfo.
    destruct (String.eqb_spec "model" f) as [<-|];
      [|destruct (String.eqb_spec "temperature" f) as [<-|];
        [|destruct (String.eqb_spec "max_tokens" f) as [<-|]; [|done]]];
      injection Hfo as <-; vm_compute; by eexists. }
  destruct Hw as [w ->]. destruct (field "agent_loop" f app_defaults) as [d|]; [|done].
  cbn [mbind option_bind default from_option id]. by destruct (py_eq _ d).
Qed.

Lemma load_eq require_slack env path :
  load safe_load files require_slack env path =
  match overlay_of env path with
  | inl e => inl e
  | inr o =>
      match missing_values require_slack (assembled env o) with
      | [] => inr (assembled env o, (apply_overlay o app_defaults).2)
      | missing => inl (required_error missing)
      end
  end.
Proof.
  unfold load. rewrite overlay_applied. destruct (overlay_of env path) as [e|o]; [done|].
  cbn [bind_result]. fold (unsettled env o). fold (assembled env o).
  unfold _check_required_config. by destruct (missing_values require_slack (assembled env o)).
Qed.
End loading.

(** C30: every value of a loaded configuration comes from the documented
    layers: the environment variable of the field when it is set, else the
    YAML overlay's binding (in its section, or under [toolsets]) when the
    section is a mapping, else the default; nothing else is added.  Only the
    model, temperature and token budget of [agent_loop] follow another
    section, and they do whenever their value equals the default, pinned or
    not.  The fields of secrets are no exception: an overlay may set one,
    which the design says the loader refuses ([yaml_secret_is_loaded]). *)
Theorem load_precedence safe_load files require_slack env path c ws :
  load safe_load files require_slack env path = inr (c, ws) ->
  exists o, overlay_of safe_load files env path = inr o /\
    forall sec f,
      field sec f c = (d ← field sec f app_defaults; Some (final_value env o sec f d)) /\
      (follows sec f = None -> forall d v, field sec f app_defaults = Some d ->
         (env_override env sec f = Some v -> field sec f c = Some (JStr v)) /\
         (env_override env sec f = None -> forall y, yaml_value o sec f = Some y ->
            field sec f c = Some y) /\
         (env_override env sec f = None -> yaml_value o sec f = None ->
            field sec f c = Some d)).
Proof.
  intros Hl. rewrite load_eq in Hl. destruct (overlay_of safe_load files env path) as [e|o]; [done|].
  exists o. split; [done|]. remember (assembled env o) as a eqn:Ha.
  generalize dependent (apply_overlay o app_defaults).2. intros ws0 Hl.
  destruct (missing_values require_slack a); [|done]. injection Hl as <- _. rewrite Ha.
  intros sec f. rewrite assembled_get. split; [done|]. intros Hfo d v Hd. rewrite Hd. cbn [mbind option_bind].
  unfold final_value, layered. rewrite Hfo. split_and!.
  - by intros ->.
  - intros -> y ->. done.
  - by intros -> ->.
Qed.

Lemma slack_token env o f var :
  (f, var) = ("bot_token", "SLACK_BOT_TOKEN") \/ (f, var) = ("app_token", "SLACK_APP_TOKEN") ->
  field_truthy "slack" f (assembled env o) = true <-> is_Some (env_value env var).
Proof.
  intros Hin.
  assert (Hv : env_override env "slack" f = env_value env var /\
               field "slack" f app_defaults = Some (JStr "")).
  { destruct Hin as [[= -> ->]|[= -> ->]]; (split; [|done]);
      unfold env_override, SECRETS, RUNTIME; cbn [app env_for fst snd];
      repeat first [rewrite decide_False by discriminate|rewrite decide_True by reflexivity];
      by destruct (env_value env _). }
  destruct Hv as [Hv Hd]. unfold field_truthy. rewrite assembled_get, Hd. cbn [mbind option_bind].
  unfold final_value, layered, follows. rewrite decide_False by done. rewrite Hv.
  unfold env_value. destruct (env !! var) as [v|]; cbn; [|by split; [|intros []]].
  destruct (str_truthy v) eqn:Ht; cbn; [by rewrite Ht; split; [by eexists|]|].
  by split; [|intros []].
Qed.

Lemma missing_list (req b1 b2 u : bool) (x y z : string) :
  let l := (if req then (if b1 then [] else [x]) ++ (if b2 then [] else [y]) else []) ++
           (if u then [] else [z]) in
  (l = [] <-> u = true /\ (req = true -> b1 = true /\ b2 = true)) /\
  (forall m, m ∈ l -> m ∈ [x; y; z]).
Proof.
  destruct req, b1, b2, u; cbn; (split; [|intros m; set_solver]); split; try done;
    intros [H1 H2]; try discriminate H1; destruct (H2 eq_refl); discriminate.
Qed.

(** Loading fails only for the documented reasons.  It succeeds exactly
    when the file is missing, or parses to a mapping or an empty value; the
    base URL of the inference service is not blanked; and, for the
    orchestrator, both Slack tokens are in the environment, the only place
    they can come from.  A failure names every missing value. *)
Theorem load_succeeds_iff safe_load files require_slack env path :
  ((exists r, load safe_load files require_slack env path = inr r) <->
   exists o, overlay_of safe_load files env path = inr o /\
     json_truthy (default (JStr DEFAULT_INFERENCE_BASE_URL) (yaml_value o "inference" "base_url")) = true /\
     (require_slack = true ->
      is_Some (env_value env "SLACK_BOT_TOKEN") /\ is_Some (env_value env "SLACK_APP_TOKEN"))) /\
  (forall e, load safe_load files require_slack env path = inl e ->
   overlay_of safe_load files env path = inl e \/
   exists missing, missing <> [] /\ e = required_error missing /\
     (forall m, m ∈ missing -> m ∈ ["SLACK_BOT_TOKEN"; "SLACK_APP_TOKEN"; "inference.base_url (YAML)"])).
Proof.
  rewrite load_eq. destruct (overlay_of safe_load files env path) as [e|o].
  { split; [|intros e' [= <-]; by left]. split; [by intros []|]. by intros (o & Ho & _). }
  assert (Hurl : field_truthy "inference" "base_url" (assembled env o) =
    json_truthy (default (JStr DEFAULT_INFERENCE_BASE_URL) (yaml_value o "inference" "base_url"))).
  { unfold field_truthy. rewrite assembled_get. done. }
  pose proof (slack_token env o "bot_token" "SLACK_BOT_TOKEN" (or_introl eq_refl)) as Hb.
  pose proof (slack_token env o "app_token" "SLACK_APP_TOKEN" (or_intror eq_refl)) as Ha.
  unfold missing_values. rewrite Hurl. setoid_rewrite <- Hb. setoid_rewrite <- Ha. clear Hurl Hb Ha.
  generalize (assembled env o, (apply_overlay o app_defaults).2) as r.
  generalize (field_truthy "slack" "bot_token" (assembled env o)) as b1.
  generalize (field_truthy "slack" "app_token" (assembled env o)) as b2. intros b2 b1 r.
  destruct (missing_list require_slack b1 b2
    (json_truthy (default (JStr DEFAULT_INFERENCE_BASE_URL) (yaml_value o "inference" "base_url")))
    "SLACK_BOT_TOKEN" "SLACK_APP_TOKEN" "inference.base_url (YAML)") as [Hnil Hin].
  destruct (_ ++ _) as [|m missing]; split.
  - split; [|by exists r]. intros _. exists o. split; [done|]. by apply Hnil.
  - done.
  - split; [by intros []|]. intros (o' & Ho & H). injection Ho as <-. by apply Hnil in H.
  - intros e He. right. exists (m :: missing). split; [done|]. split; [congruence|done].
Qed.

(** ** Types *)

(** The annotations of the dataclasses; an [int] is accepted for a [float]. *)
Inductive Ty := TStr | TInt | TFloat | TBool | TOptional (t : Ty).

Fixpoint has_ty (t : Ty) (v : json) : bool :=
  match t, v with
  | TStr, JStr _ | TInt, JInt _ | TFloat, (JFloat _ | JInt _) | TBool, JBool _ => true
  | TOptional _, JNull => true
  | TOptional t, v => has_ty t v
  | _, _ => false
  end.

Definition SCHEMA : gmap string (gmap string Ty) := list_to_map
  [("slack", list_to_map [("bot_token", TStr); ("app_token", TStr)]);
   ("inference", list_to_map [("base_url", TStr); ("api_key", TStr); ("model", TStr);
                              ("timeout_s", TInt); ("max_retries", TInt)]);
   ("orchestrator", list_to_map [("model", TStr); ("system_prompt_path", TStr);
                                 ("max_thread_history", TInt); ("temperature", TFloat);
                                 ("max_tokens", TInt)]);
   ("agent_loop", list_to_map [("model", TStr); ("temperature", TFloat); ("max_tokens", TInt);
                               ("max_tool_rounds", TInt); ("max_continuation_retries", TInt);
                               ("micro_compaction_chars", TInt); ("compaction_threshold_chars", TInt);
                               ("compaction_compress_ratio", TFloat); ("compaction_min_keep", TInt);
                               ("compaction_model", TStr)]);
   ("delegation", list_to_map [("enabled", TBool); ("max_concurrent", TInt); ("max_spawn_depth", TInt);
                               ("task_timeout_s", TOptional TFloat); ("spawn_ready_timeout_s", TFloat);
                               ("spawn_ready_poll_interval_s", TFloat); ("sub_agent_module", TStr)]);
   ("nmb", list_to_map [("broker_url", TStr); ("sandbox_id", TStr)]);
   ("log", list_to_map [("level", TStr); ("log_file", TOptional TStr)]);
   ("audit", list_to_map [("enabled", TBool); ("db_path", TStr); ("persist_payloads", TBool)]);
   ("jira", list_to_map [("enabled", TBool); ("url", TStr); ("auth_header", TStr)]);
   ("gitlab", list_to_map [("enabled", TBool); ("url", TStr); ("token", TStr)]);
   ("gerrit", list_to_map [("enabled", TBool); ("url", TStr); ("username", TStr); ("http_password", TStr)]);
   ("confluence", list_to_map [("enabled", TBool); ("url", TStr); ("username", TStr); ("api_token", TStr)]);
   ("slack_search", list_to_map [("enabled", TBool); ("user_token", TStr)]);
   ("web_search", list_to_map [("enabled", TBool); ("api_key", TStr); ("jina_api_key", TStr);
                               ("default_limit", TInt)]);
   ("coding", list_to_map [("enabled", TBool); ("workspace_root", TStr); ("git_clone_allowed_hosts", TStr)]);
   ("skills", list_to_map [("enabled", TBool); ("skills_dir", TStr)])].

Definition declared (section name : string) : option Ty := s ← SCHEMA !! section; s !! name.

Definition value_ok (section name : string) (v : json) : Prop :=
  exists t, declared section name = Some t /\ has_ty t v = true.

Definition well_typed (c : AppConfig) : Prop :=
  forall sec f v, field sec f c = Some v -> value_ok sec f v.

(** Every value the overlay gives a declared field has its type. *)
Definition overlay_typed (o : list (string * json)) : Prop :=
  forall sec f y, is_Some (declared sec f) -> yaml_value o sec f = Some y -> value_ok sec f y.

Definition default_ok (sec : string) (a : Attrs) : bool :=
  forallb (fun kv => match declared sec kv.1 with Some t => has_ty t kv.2 | None => false end)
          (map_to_list a).

Lemma defaults_typed : well_typed app_defaults.
Proof.
  assert (H : forallb (fun e => default_ok e.1 e.2) (map_to_list app_defaults) = true)
    by (vm_compute; reflexivity).
  rewrite forallb_forall in H. intros sec f v Hv. unfold field in Hv.
  apply bind_Some in Hv as (a & Ha & Hv).
  specialize (H (sec, a)). unfold default_ok in H. cbn [fst snd] in H.
  rewrite forallb_forall in H. specialize (H (proj1 (list_elem_of_In _ _) (proj2 (elem_of_map_to_list _ _ _) Ha))
    (f, v) (proj1 (list_elem_of_In _ _) (proj2 (elem_of_map_to_list _ _ _) Hv))). cbn [fst snd] in H.
  unfold value_ok. destruct (declared sec f) as [t|]; [by exists t|done].
Qed.

(** What is declared has a default. *)
Lemma declared_default sec f : is_Some (declared sec f) -> is_Some (field sec f app_defaults).
Proof.
  assert (H : forallb (fun e : string * gmap string Ty =>
      forallb (fun kt : string * Ty => bool_decide (is_Some (field e.1 kt.1 app_defaults)))
              (map_to_list e.2)) (map_to_list SCHEMA) = true) by (vm_compute; reflexivity).
  rewrite forallb_forall in H. intros [t Ht]. apply bind_Some in Ht as (a & Ha & Ht).
  specialize (H (sec, a) (proj1 (list_elem_of_In _ _) (proj2 (elem_of_map_to_list _ _ _) Ha))).
  cbn [fst snd] in H. rewrite forallb_forall in H.
  specialize (H (f, t) (proj1 (list_elem_of_In _ _) (proj2 (elem_of_map_to_list _ _ _) Ht))).
  by apply bool_decide_eq_true in H.
Qed.

Lemma override_typed env sec f v :
  env_override env sec f = Some v -> value_ok sec f (JStr v).
Proof.
  assert (H : forallb (fun e : string * (string * string) =>
      match declared e.2.1 e.2.2 with Some t => has_ty t (JStr "") | None => false end)
      (SECRETS ++ RUNTIME) = true) by (vm_compute; reflexivity).
  rewrite forallb_forall in H. unfold env_override.
  assert (Hin : forall t, env_for t env sec f = Some v -> exists e, In e t /\ e.2 = (sec, f)).
  { intros t. induction t as [|e t IH]; [done|]. cbn [env_for].
    destruct (env_for t env sec f) as [w|].
    - intros Hw. destruct (IH Hw) as (e' & Hin' & He). exists e'. split; [by right|done].
    - case_decide; [|done]. intros _. exists e. split; [by left|done]. }
  intros Hv. apply Hin in Hv as (e & He & Heq). specialize (H e He). rewrite Heq in H. cbn [fst snd] in H.
  assert (Hs : forall t w, has_ty t (JStr v) = has_ty t (JStr w)) by (intros t w; by induction t).
  unfold value_ok. destruct (declared sec f) as [t|]; [|done]. exists t. by rewrite (Hs t "").
Qed.

Lemma layered_typed env o sec f d :
  overlay_typed o -> field sec f app_defaults = Some d -> value_ok sec f (layered env o sec f d).
Proof.
  intros Ho Hd. pose proof (defaults_typed _ _ _ Hd) as Hdt. unfold layered.
  destruct (env_override env sec f) as [v|] eqn:He; cbn [fmap option_fmap option_map default from_option id].
  - by eapply override_typed.
  - destruct (yaml_value o sec f) as [y|] eqn:Hy; cbn; [|done]. apply (Ho _ _ _); [|done].
    destruct Hdt as (t & -> & _). by eexists.
Qed.

Lemma follows_same sec f source : follows sec f = Some source -> declared source f = declared sec f.
Proof.
  unfold follows. case_decide as Hs; [|done]. subst sec. unfold SHARED, List.find. cbn [fst snd].
  destruct (String.eqb_spec "model" f) as [<-|]; [intros [= <-]; by vm_compute|].
  destruct (String.eqb_spec "temperature" f) as [<-|]; [intros [= <-]; by vm_compute|].
  destruct (String.eqb_spec "max_tokens" f) as [<-|]; [intros [= <-]; by vm_compute|done].
Qed.

(** Every field the dataclasses declare is there. *)
Definition has_every_field (c : AppConfig) : Prop :=
  forall sec f, is_Some (declared sec f) -> is_Some (field sec f c).

Lemma assembled_complete env o : has_every_field (assembled env o).
Proof. intros sec f Ht. rewrite assembled_get. destruct (declared_default _ _ Ht) as [d ->]. by eexists. Qed.

Lemma assembled_typed env o : overlay_typed o -> well_typed (assembled env o).
Proof.
  intros Ho sec f v. rewrite assembled_get. intros Hv. apply bind_Some in Hv as (d & Hd & [= <-]).
  unfold final_value. destruct (follows sec f) as [source|] eqn:Hfo; [|by apply layered_typed].
  destruct (py_eq _ d); [|by apply layered_typed].
  pose proof (follows_same _ _ _ Hfo) as Hsame. destruct (defaults_typed _ _ _ Hd) as (t & Ht & _).
  destruct (declared_default source f) as [d' Hd']; [rewrite Hsame, Ht; by eexists|]. rewrite Hd'. cbn.
  destruct (layered_typed env o source f d' Ho Hd') as (t' & Ht' & Hv'). exists t'.
  by rewrite <- Hsame.
Qed.

(** A loaded configuration has the fields the dataclasses declare, all
    of them and no others, and when the overlay's values have the declared
    types, so has every field of the result.  Nothing checks the overlay: a
    value of the wrong type that is not overridden is loaded as it is. *)
Theorem loaded_types safe_load files require_slack env path c ws :
  load safe_load files require_slack env path = inr (c, ws) ->
  exists o, overlay_of safe_load files env path = inr o /\
    (forall sec f, is_Some (field sec f c) <-> is_Some (declared sec f)) /\
    (overlay_typed o -> well_typed c) /\
    (forall sec f t y, declared sec f = Some t -> yaml_value o sec f = Some y ->
       has_ty t y = false -> env_override env sec f = None -> follows sec f = None ->
       field sec f c = Some y /\ ~ well_typed c).
Proof.
  intros Hl. rewrite load_eq in Hl. destruct (overlay_of safe_load files env path) as [e|o]; [done|].
  exists o. split; [done|]. remember (assembled env o) as a eqn:Ha.
  generalize dependent (apply_overlay o app_defaults).2. intros ws0 Hl.
  destruct (missing_values require_slack a); [|done]. injection Hl as <- _. rewrite Ha. clear Ha a.
  split_and!.
  - intros sec f. split; [|apply assembled_complete]. rewrite assembled_get.
    intros [v Hv]. apply bind_Some in Hv as (d & Hd & _).
    destruct (defaults_typed _ _ _ Hd) as (t & -> & _). by eexists.
  - by apply assembled_typed.
  - intros sec f t y Ht Hy Hbad Henv Hfo.
    assert (Hv : field sec f (assembled env o) = Some y).
    { rewrite assembled_get. destruct (declared_default sec f) as [d ->]; [by rewrite Ht|]. cbn.
      unfold final_value, layered. by rewrite Hfo, Henv, Hy. }
    split; [done|]. intros Hw. destruct (Hw _ _ _ Hv) as (t' & Ht' & Hy'). congruence.
Qed.

(** ** Witnesses *)

(** An overlay that moves the inference model, pins the model of the agent
    loop to what is the default, and misspells a number. *)
Definition sample_overlay : list (string * json) :=
  [("inference", JObj [("model", JStr "m2")]);
   ("agent_loop", JObj [("model", JStr DEFAULT_INFERENCE_MODEL); ("max_tool_rounds", JStr "ten")])].

Definition sample_load (text : string) : string + json := inr (JObj sample_overlay).
Definition sample_files : gmap string string := {["/app/config.yaml" := "..."]}.
Definition sample_env : Environ := {["SLACK_BOT_TOKEN" := "xoxb"; "SLACK_APP_TOKEN" := "xapp"]}.

Definition sample_config : AppConfig * list Warning :=
  (assembled sample_env sample_overlay, (apply_overlay sample_overlay app_defaults).2).

Lemma sample_read : overlay_of sample_load sample_files sample_env None = inr sample_overlay.
Proof. vm_compute. reflexivity. Qed.

Lemma sample_loads : load sample_load sample_files true sample_env None = inr sample_config.
Proof.
  rewrite load_eq, sample_read.
  assert (H : missing_values true (assembled sample_env sample_overlay) = []) by (vm_compute; reflexivity).
  by rewrite H.
Qed.

(** No guard in the loader keeps a secret out of the overlay. *)
Example yaml_secret_is_loaded :
  let o := [("inference", JObj [("api_key", JStr "sk-from-yaml")])] in
  missing_values true (assembled sample_env o) = [] /\
  field "inference" "api_key" (assembled sample_env o) = Some (JStr "sk-from-yaml").
Proof. split; vm_compute; reflexivity. Qed.

Lemma load_precedence_witness :
  load sample_load sample_files true sample_env None = inr sample_config /\
  field "inference" "model" sample_config.1 = Some (JStr "m2") /\
  field "agent_loop" "model" sample_config.1 = Some (JStr "m2").
Proof.
  split; [exact sample_loads|].
  destruct (load_precedence sample_load sample_files true sample_env None sample_config.1
              sample_config.2 sample_loads) as (o & Ho & H).
  rewrite sample_read in Ho. injection Ho as <-.
  split; [rewrite (proj1 (H "inference" "model"))|rewrite (proj1 (H "agent_loop" "model"))];
    vm_compute; reflexivity.
Defined.

Lemma loaded_types_witness :
  load sample_load sample_files true sample_env None = inr sample_config /\
  field "agent_loop" "max_tool_rounds" sample_config.1 = Some (JStr "ten") /\
  ~ well_typed sample_config.1.
Proof.
  split; [exact sample_loads|].
  destruct (loaded_types sample_load sample_files true sample_env None sample_config.1
              sample_config.2 sample_loads) as (o & Ho & _ & _ & H).
  rewrite sample_read in Ho. injection Ho as <-.
  apply (H "agent_loop" "max_tool_rounds" TInt (JStr "ten")); vm_compute; reflexivity.
Defined.
