(* ===== verification/Skills.v ===== *)
(** * Skills

    The skill loader and the [skill] tool ([agent/skill_loader.py],
    [tools/skill.py]): the scan of a directory tree for SKILL.md files, their
    identifiers and front matter, loading one, and the tool that offers them.

    Outside are the file tree, the decoding of a file and the YAML parser;
    [rescan] and the tool read the tree as it is when they run.

    Theorems: what a scan finds, that it depends neither on what was known
    before nor on the order the file system lists directories in, what the
    [skill] tool answers, and how front matter is read. *)

From S2P Require Import Prelude Json AgentTypes Registry.
From stdpp Require Import sorting.
From Stdlib Require Import Ascii.

Definition _FRONTMATTER_DELIMITER : string := "---".
Definition _MAX_SKILL_SIZE_BYTES : Z := 64000.
Definition _ID_SEPARATOR : string := "-".

Record SkillInfo := {
  skill_id : string;
  skill_name : string;
  skill_description : string;
  skill_path : string
}.

(** [SkillLoader] *)
Record SkillLoader := { skills_dir : string; skills : gmap string SkillInfo }.

(** How [read_text] ends: the text, an [OSError] or, for bytes that are not
    UTF-8, a [UnicodeDecodeError]. *)
Inductive FileRead :=
| FileText (text : string)
| FileOSError (exc : string)
| FileUndecodable (exc : string).

(** The tree below the skills directory: whether the directory exists, the
    directories that hold a SKILL.md, as parts relative to it and in the
    order the file system lists them, and how a path is read. *)
Record SkillTree := {
  root_is_dir : bool;
  found : list (list string);
  read_text : string -> FileRead
}.

(** [yaml.safe_load] raises a [YAMLError], raises another exception (a
    [ValueError] for an impossible date) or returns. *)
Inductive YamlOutcome :=
| YamlError
| YamlRaises (exc : string)
| YamlValue (v : json).

(** ** Order *)

(** [sorted] of strings, by code point. *)
Definition sorted_strings : list string -> list string :=
  merge_sort (fun a b => Is_true (String.leb a b)).

(** [Path.__lt__] compares the parts. *)
Fixpoint parts_leb (a b : list string) : bool :=
  match a, b with
  | [], _ => true
  | _ :: _, [] => false
  | x :: a, y :: b => if String.eqb x y then parts_leb a b else String.leb x y
  end.

(** Of the files of two directories. *)
Definition file_leb (a b : list string) : bool := parts_leb (a ++ ["SKILL.md"]) (b ++ ["SKILL.md"]).

Definition sorted_files : list (list string) -> list (list string) :=
  merge_sort (fun a b => Is_true (file_leb a b)).

(** ** Identifiers *)

(** [rel] are the parts of the parent directory relative to the root. *)
Definition _derive_skill_id (rel : list string) : string :=
  match rel with [] => "SKILL" | _ => String.concat _ID_SEPARATOR rel end.

Definition file_path (root : string) (rel : list string) : string :=
  String.concat "/" (root :: rel ++ ["SKILL.md"]).

(** ** Front matter *)

(** [s.split(newline)] *)
Definition split_lines : string -> list string := split_on (ascii_of_nat 10).

(** The lines before the first one that is the delimiter. *)
Fixpoint until_delimiter (lines : list string) : option (list string) :=
  match lines with
  | [] => None
  | l :: ls => if String.eqb (strip l) _FRONTMATTER_DELIMITER then Some []
               else cons l <$> until_delimiter ls
  end.

Definition str_field (key d : string) (o : list (string * json)) : string :=
  match obj_get key o with Some v => json_str v | None => d end.

Section loader.
Context (safe_load : string -> YamlOutcome).

Definition _parse_frontmatter (raw fallback_name : string) : string + (string * string) :=
  let stripped := strip raw in
  if negb (startswith _FRONTMATTER_DELIMITER stripped) then inr (fallback_name, "")
  else
    match until_delimiter (tail (split_lines stripped)) with
    | None => inr (fallback_name, "")
    | Some yaml_block =>
        match safe_load (String.concat newline yaml_block) with
        | YamlError => inr (fallback_name, "")
        | YamlRaises exc => inl exc
        | YamlValue (JObj data) =>
            inr (str_field "name" fallback_name data, str_field "description" "" data)
        | YamlValue _ => inr (fallback_name, "")
        end
    end.

(** ** Scanning *)

(** One file of the scan; [inl] is an exception [_scan] does not catch. *)
Definition scan_file (tree : SkillTree) (root : string) (rel : list string)
  (s : gmap string SkillInfo) : string + gmap string SkillInfo :=
  let id := _derive_skill_id rel in
  match s !! id with
  | Some _ => inr s
  | None =>
      let path := file_path root rel in
      match read_text tree path with
      | FileOSError _ => inr s
      | FileUndecodable exc => inl exc
      | FileText raw =>
          (nd <-- _parse_frontmatter raw id;;
           inr (<[id := {| skill_id := id; skill_name := nd.1; skill_description := nd.2;
                           skill_path := path |}]> s))%result
      end
  end.

(** The skills found so far stay when an exception ends the scan. *)
Fixpoint scan_files (tree : SkillTree) (root : string) (files : list (list string))
  (s : gmap string SkillInfo) : option string * gmap string SkillInfo :=
  match files with
  | [] => (None, s)
  | rel :: files =>
      match scan_file tree root rel s with
      | inl exc => (Some exc, s)
      | inr s => scan_files tree root files s
      end
  end.

Definition _scan (tree : SkillTree) (l : SkillLoader) : option string * SkillLoader :=
  if root_is_dir tree then
    let '(exc, s) := scan_files tree (skills_dir l) (sorted_files (found tree)) (skills l) in
    (exc, {| skills_dir := skills_dir l; skills := s |})
  else (None, l).

(** [SkillLoader(skills_dir)] *)
Definition new_loader (tree : SkillTree) (dir : string) : string + SkillLoader :=
  match _scan tree {| skills_dir := dir; skills := ∅ |} with
  | (Some exc, _) => inl exc
  | (None, l) => inr l
  end.

Definition rescan (tree : SkillTree) (l : SkillLoader) : (string + nat) * SkillLoader :=
  match _scan tree {| skills_dir := skills_dir l; skills := ∅ |} with
  | (Some exc, l) => (inl exc, l)
  | (None, l) => (inr (size (skills l)), l)
  end.
End loader.

(** ** Using the skills *)

Definition available_ids (l : SkillLoader) : list string :=
  sorted_strings (map fst (map_to_list (skills l))).

Definition summary_line (l : SkillLoader) (sid : string) : string :=
  match skills l !! sid with
  | Some info =>
      "- " +:+ sid +:+ (if str_truthy (skill_description info) then " — " +:+ skill_description info
                        else "")
  | None => "- " +:+ sid
  end.

Definition available_skills_summary (l : SkillLoader) : string :=
  match available_ids l with
  | [] => "No skills available."
  | ids => String.concat newline (map (summary_line l) ids)
  end.

Inductive LoadExc :=
| UnknownSkill (message : string)
| LoadOSError (exc : string)
| LoadRaises (exc : string).

Definition unknown_skill (l : SkillLoader) (repr : string) : string :=
  "Unknown skill: " +:+ repr +:+ ". Available: " +:+
  json_repr (JArr (map JStr (available_ids l))).

(** [load]; the size of the file is only logged, so reading its status is
    part of reading it. *)
Definition load (tree : SkillTree) (l : SkillLoader) (sid : string) : LoadExc + string :=
  match skills l !! sid with
  | None =>
      inl (UnknownSkill (unknown_skill l (py_repr sid)))
  | Some info =>
      match read_text tree (skill_path info) with
      | FileText text => inr text
      | FileOSError exc => inl (LoadOSError exc)
      | FileUndecodable exc => inl (LoadRaises exc)
      end
  end.

(** ** The [skill] tool *)

(** [skill_tool]; [str] of a [KeyError] is the [repr] of its message. *)
Definition skill_tool (tree : SkillTree) (l : SkillLoader) (name : string) : string + string :=
  match load tree l name with
  | inr content => inr ("[Skill: " +:+ name +:+ "]" +:+ newline +:+ content)
  | inl (UnknownSkill message) => inr ("Error: " +:+ py_repr message)
  | inl (LoadOSError exc) => inr ("Error loading skill " +:+ py_repr name +:+ ": " +:+ exc)
  | inl (LoadRaises exc) => inl exc
  end.

Section tool.
(** The loader and the tree, as the outside state holds them; the text of
    the [TypeError] of a call with other arguments. *)
Context {W : Type} (loader_of : W -> SkillLoader) (tree_of : W -> SkillTree).
Context (bad_call : list (string * json) -> string).

Definition skill_handler : Handler W := fun args c =>
  match args with
  | [("skill_name", JStr name)] => (skill_tool (tree_of c.2) (loader_of c.2) name, c)
  | [("skill_name", (JArr _ | JObj _) as v)] =>
      (inl ("unhashable type: " +:+ py_repr (json_type_name v)), c)
  | [("skill_name", v)] =>
      (inr ("Error: " +:+ py_repr (unknown_skill (loader_of c.2) (json_repr v))), c)
  | _ => (inl (bad_call args), c)
  end.

Definition skill_schema (ids : list string) : json :=
  JObj [("type", JStr "object");
        ("properties", JObj
           [("skill_name", JObj [("type", JStr "string"); ("enum", JArr (map JStr ids));
                                 ("description", JStr "The skill to load.")])]);
        ("required", JArr [JStr "skill_name"])].

Definition skill_spec (ids : list string) : ToolSpec W :=
  {| name := "skill";
     description := "Load a specialized skill to guide your approach to a task. " +:+
                    "The skill content will provide detailed instructions.";
     input_schema := skill_schema ids;
     handler := skill_handler;
     is_read_only := true; is_concurrency_safe := true; is_core := true;
     ts_display_name := "Loading skill"; toolset := "skills"; check_fn := None;
     max_result_chars := _DEFAULT_MAX_RESULT_CHARS |}.

Definition register_skill_tool (l : SkillLoader) (r : Registry W) : string + Registry W :=
  match available_ids l with
  | [] => inr r
  | ids => register (skill_spec ids) r
  end.
End tool.

(** ** Order *)

#[export] Instance leb_is_total : Total (fun a b => Is_true (String.leb a b)).
Proof. intros a b. destruct (String.leb_total a b) as [->| ->]; [by left|by right]. Qed.

Lemma string_leb_refl a : String.leb a a = true.
Proof. by destruct (String.leb_total a a). Qed.

Lemma parts_leb_refl a : parts_leb a a = true.
Proof. induction a as [|x a IH]; [done|]. cbn. by rewrite String.eqb_refl. Qed.

Lemma parts_leb_total a b : parts_leb a b = true \/ parts_leb b a = true.
Proof.
  revert b; induction a as [|x a IH]; intros [|y b]; cbn; auto.
  rewrite (String.eqb_sym y x). destruct (String.eqb x y); [apply IH|apply String.leb_total].
Qed.

Lemma parts_leb_trans a b c :
  parts_leb a b = true -> parts_leb b c = true -> parts_leb a c = true.
Proof.
  revert b c; induction a as [|x a IH]; intros [|y b] [|z c]; cbn; try done.
  destruct (String.eqb_spec x y) as [->|Hxy], (String.eqb_spec y z) as [->|Hyz];
    [by apply IH|done|by rewrite (proj2 (String.eqb_neq _ _) Hxy)|].
  intros H1 H2. pose proof (leb_trans _ _ _ H1 H2) as H3.
  destruct (String.eqb_spec x z) as [->|]; [|done].
  exfalso; apply Hxy. by apply String.leb_antisym.
Qed.

Lemma parts_leb_antisym a b : parts_leb a b = true -> parts_leb b a = true -> a = b.
Proof.
  revert b; induction a as [|x a IH]; intros [|y b]; cbn; try done.
  rewrite (String.eqb_sym y x). destruct (String.eqb_spec x y) as [->|Hne].
  - intros. f_equal. auto.
  - intros H1 H2. destruct Hne. by apply String.leb_antisym.
Qed.

#[local] Abbreviation file_le := (fun a b => Is_true (file_leb a b)).

#[export] Instance file_total : Total file_le.
Proof.
  intros a b. unfold file_leb.
  by destruct (parts_leb_total (a ++ ["SKILL.md"]) (b ++ ["SKILL.md"])) as [->| ->]; [left|right].
Qed.

#[export] Instance file_trans : Transitive file_le.
Proof.
  intros a b c H1 H2. apply Is_true_true in H1, H2. apply Is_true_true.
  by eapply parts_leb_trans.
Qed.

#[export] Instance file_antisym : AntiSymm (=) file_le.
Proof.
  intros a b H1 H2. apply Is_true_true in H1, H2.
  apply (app_inj_tail _ _ _ _ (parts_leb_antisym _ _ H1 H2)).
Qed.

(** The file system's order does not matter. *)
Lemma sorted_files_perm a b : a ≡ₚ b -> sorted_files a = sorted_files b.
Proof.
  intros Hp. unfold sorted_files. apply (Sorted_unique file_le); try apply Sorted_merge_sort, _.
  by rewrite !merge_sort_Permutation.
Qed.

Lemma sorted_files_elem rel l : rel ∈ sorted_files l <-> rel ∈ l.
Proof. unfold sorted_files. by rewrite merge_sort_Permutation. Qed.

(** ** The scan *)

Section scan.
Context (safe_load : string -> YamlOutcome) (tree : SkillTree) (root : string).

(** What the file in the directory [rel] is known as, when it can be read. *)
Definition file_info (rel : list string) : option SkillInfo :=
  match read_text tree (file_path root rel) with
  | FileText raw =>
      match _parse_frontmatter safe_load raw (_derive_skill_id rel) with
      | inr nd => Some {| skill_id := _derive_skill_id rel; skill_name := nd.1;
                          skill_description := nd.2; skill_path := file_path root rel |}
      | inl _ => None
      end
  | _ => None
  end.

Definition candidate (id : string) (rel : list string) : option SkillInfo :=
  if String.eqb (_derive_skill_id rel) id then file_info rel else None.

(** The first readable file of an identifier. *)
Definition first_skill (files : list (list string)) (id : string) : option SkillInfo :=
  head (omap (candidate id) files).

(** No file is outside UTF-8 and the parser raises nothing but
    [YAMLError]. *)
Definition scans_cleanly (files : list (list string)) : Prop :=
  (forall rel exc, rel ∈ files -> read_text tree (file_path root rel) <> FileUndecodable exc) /\
  (forall text exc, safe_load text <> YamlRaises exc).

Lemma frontmatter_total raw id :
  (forall text exc, safe_load text <> YamlRaises exc) ->
  exists nd, _parse_frontmatter safe_load raw id = inr nd.
Proof.
  intros Hy. unfold _parse_frontmatter. case_if; [by eexists|].
  destruct (until_delimiter _) as [ls|]; [|by eexists].
  destruct (safe_load _) as [|exc|[]] eqn:Hs; try (by eexists). by destruct (Hy _ _ Hs).
Qed.

Lemma scan_file_spec rel s :
  scans_cleanly [rel] ->
  exists s', scan_file safe_load tree root rel s = inr s' /\
    forall id, s' !! id = match s !! id with Some i => Some i | None => candidate id rel end.
Proof.
  intros [Hu Hy]. specialize (fun exc => Hu rel exc (list_elem_of_here _ _)).
  unfold scan_file, candidate, file_info.
  destruct (s !! _derive_skill_id rel) as [i|] eqn:Hs.
  { exists s. split; [done|]. intros id. destruct (String.eqb_spec (_derive_skill_id rel) id) as [<-|].
    - by rewrite Hs.
    - by destruct (s !! id). }
  destruct (read_text tree (file_path root rel)) as [raw|exc|exc] eqn:Hr.
  - destruct (frontmatter_total raw (_derive_skill_id rel) Hy) as [nd Hnd]. rewrite Hnd. cbn.
    eexists; split; [done|]. intros id.
    destruct (String.eqb_spec (_derive_skill_id rel) id) as [<-|Hne].
    + by rewrite lookup_insert_eq, Hs.
    + rewrite lookup_insert_ne by done. by destruct (s !! id).
  - exists s. split; [done|]. intros id. destruct (s !! id); [done|]. by case_if.
  - by destruct (Hu exc).
Qed.

Lemma scan_files_spec files s :
  scans_cleanly files ->
  exists s', scan_files safe_load tree root files s = (None, s') /\
    forall id, s' !! id = match s !! id with Some i => Some i | None => first_skill files id end.
Proof.
  revert s; induction files as [|rel files IH]; intros s [Hu Hy]; cbn [scan_files].
  { exists s. split; [done|]. intros id. by destruct (s !! id). }
  destruct (scan_file_spec rel s) as (s1 & -> & H1).
  { split; [|done]. intros r exc ->%list_elem_of_singleton. by apply Hu, list_elem_of_here. }
  destruct (IH s1) as (s2 & -> & H2).
  { split; [|done]. intros r exc Hin. by apply Hu, list_elem_of_further. }
  exists s2. split; [done|]. intros id. rewrite H2, H1. unfold first_skill. cbn [omap list_omap].
  destruct (s !! id); [done|]. by destruct (candidate id rel).
Qed.

Lemma first_skill_some files id :
  is_Some (first_skill files id) <->
  exists rel, rel ∈ files /\ _derive_skill_id rel = id /\ is_Some (file_info rel).
Proof.
  unfold first_skill. split.
  - intros [i Hi]. apply head_Some_elem_of in Hi.
    apply list_elem_of_omap in Hi as (rel & Hin & Hc). exists rel.
    unfold candidate in Hc. destruct (String.eqb_spec (_derive_skill_id rel) id); [|done]. by rewrite Hc.
  - intros (rel & Hin & Hid & [i Hi]).
    assert (Hel : i ∈ omap (candidate id) files).
    { apply list_elem_of_omap. exists rel. split; [done|]. unfold candidate.
      by rewrite Hid, String.eqb_refl. }
    destruct (omap _ files); [by apply not_elem_of_nil in Hel|by eexists].
Qed.

(** Of the tree only the text of the files matters to a scan. *)
Lemma scan_files_tree tree' files s :
  read_text tree' = read_text tree ->
  scan_files safe_load tree' root files s = scan_files safe_load tree root files s.
Proof.
  intros Hr. revert s; induction files as [|rel files IH]; intros s; [done|].
  cbn [scan_files]. replace (scan_file safe_load tree' root rel s) with
    (scan_file safe_load tree root rel s) by (unfold scan_file; by rewrite Hr).
  destruct (scan_file safe_load tree root rel s); auto.
Qed.
End scan.

Lemma sorted_ids l :
  Sorted (fun a b => Is_true (String.leb a b)) (available_ids l) /\
  forall id, id ∈ available_ids l <-> is_Some (skills l !! id).
Proof.
  unfold available_ids, sorted_strings. split; [apply Sorted_merge_sort, _|]. intros id.
  rewrite merge_sort_Permutation, list_elem_of_fmap. split.
  - intros ([k i] & -> & Hin%elem_of_map_to_list). by eexists.
  - intros [i Hi]. exists (id, i). split; [done|]. by apply elem_of_map_to_list.
Qed.

(** A scan finds every skill.  When no file has bytes outside UTF-8 and
    the parser raises nothing but its own errors, a rescan ends, whatever was
    known before; the loader then knows exactly the identifiers of the
    readable files, each as the first of them by path, and offers them
    sorted.  The order in which the file system lists the tree makes no
    difference.  The tool answers a known identifier with the text its file
    has at the time of the call, and every other one with an error text. *)
Theorem scan_finds_every_skill safe_load tree l :
  root_is_dir tree = true ->
  scans_cleanly safe_load tree (skills_dir l) (found tree) ->
  exists l',
    rescan safe_load tree l = (inr (size (skills l')), l') /\
    (forall id, skills l' !! id =
       first_skill safe_load tree (skills_dir l) (sorted_files (found tree)) id) /\
    Sorted (fun a b => Is_true (String.leb a b)) (available_ids l') /\
    (forall id, id ∈ available_ids l' <->
       exists rel, rel ∈ found tree /\ _derive_skill_id rel = id /\
         is_Some (file_info safe_load tree (skills_dir l) rel)) /\
    (forall tree', root_is_dir tree' = true -> read_text tree' = read_text tree ->
       found tree' ≡ₚ found tree -> rescan safe_load tree' l = rescan safe_load tree l) /\
    (forall tree' id info, skills l' !! id = Some info ->
       skill_tool tree' l' id =
         match read_text tree' (skill_path info) with
         | FileText text => inr ("[Skill: " +:+ id +:+ "]" +:+ newline +:+ text)
         | FileOSError exc => inr ("Error loading skill " +:+ py_repr id +:+ ": " +:+ exc)
         | FileUndecodable exc => inl exc
         end) /\
    (forall tree' id, id ∉ available_ids l' ->
       skill_tool tree' l' id = inr ("Error: " +:+ py_repr (unknown_skill l' (py_repr id)))).
Proof.
  intros Hd [Hu Hy].
  destruct (scan_files_spec safe_load tree (skills_dir l) (sorted_files (found tree)) ∅)
    as (s' & Hs & Hk).
  { split; [|done]. intros rel exc Hin. apply (proj1 (sorted_files_elem _ _)) in Hin. exact (Hu rel exc Hin). }
  assert (Hr : forall tree', root_is_dir tree' = true -> read_text tree' = read_text tree ->
    found tree' ≡ₚ found tree ->
    rescan safe_load tree' l = (inr (size s'), {| skills_dir := skills_dir l; skills := s' |})).
  { intros tree' Hd' Hr' Hf'. unfold rescan, _scan. rewrite Hd'. cbn.
    rewrite (sorted_files_perm _ _ Hf'), (scan_files_tree _ tree) by done. by rewrite Hs. }
  exists {| skills_dir := skills_dir l; skills := s' |}.
  split_and!.
  - by apply Hr.
  - intros id. cbn. by rewrite Hk, lookup_empty.
  - apply sorted_ids.
  - intros id. rewrite (proj2 (sorted_ids _)). cbn. rewrite Hk, lookup_empty, first_skill_some.
    by setoid_rewrite sorted_files_elem.
  - intros tree' H1 H2 H3. by rewrite !Hr.
  - intros tree' id info Hi. unfold skill_tool, load. rewrite Hi.
    by destruct (read_text tree' (skill_path info)).
  - intros tree' id Hid. unfold skill_tool, load.
    destruct (skills _ !! id) eqn:Hi; [|done]. destruct Hid. apply sorted_ids. by rewrite Hi.
Qed.

(** ** Front matter *)

(** [lines], each with its newline, before [rest]. *)
Fixpoint lines_before (lines : list string) (rest : string) : string :=
  match lines with [] => rest | l :: ls => l +:+ newline +:+ lines_before ls rest end.

Lemma split_line l s :
  has_char (ascii_of_nat 10) l = false ->
  split_lines (l +:+ newline +:+ s) = l :: split_lines s.
Proof.
  unfold split_lines. induction l as [|c l IH]; [done|].
  rewrite string_app_cons. cbn [has_char split_on]. rewrite Ascii.eqb_sym. intros [Hc Hl]%orb_false_iff. by rewrite Hc, IH.
Qed.

Lemma split_lines_before lines rest :
  Forall (fun l => has_char (ascii_of_nat 10) l = false) lines ->
  split_lines (lines_before lines rest) = lines ++ split_lines rest.
Proof. induction 1 as [|l lines Hl _ IH]; [done|]. cbn [lines_before]. rewrite split_line by done. by rewrite IH. Qed.

Lemma all_space_line s : all_space (newline +:+ s) = all_space s.
Proof. by rewrite all_space_eq. Qed.

Lemma rstrip_before lines rest :
  all_space rest = false -> rstrip (lines_before lines rest) = lines_before lines (rstrip rest).
Proof.
  intros Hr. assert (Hb : forall lines, all_space (lines_before lines rest) = false).
  { induction lines0 as [|l ls IH]; [done|]. cbn [lines_before].
    by rewrite all_space_app, all_space_line, IH, andb_false_r by done. }
  induction lines as [|l lines IH]; [done|]. cbn [lines_before].
  rewrite rstrip_app by (try done; by rewrite all_space_line). f_equal.
  change (rstrip (newline +:+ ?s)) with
    (if all_space (newline +:+ s) then EmptyString else newline +:+ rstrip s).
  by rewrite all_space_line, Hb, IH.
Qed.

Lemma rstrip_visible_char c s :
  after_space (String c s) = None -> rstrip (String c s) = String c (rstrip s).
Proof. intros H. cbn [rstrip]. by rewrite all_space_eq, H. Qed.

Lemma stripped_frontmatter block body :
  strip (lines_before (_FRONTMATTER_DELIMITER :: block) (_FRONTMATTER_DELIMITER +:+ newline +:+ body)) =
  lines_before (_FRONTMATTER_DELIMITER :: block) (_FRONTMATTER_DELIMITER +:+ rstrip (newline +:+ body)).
Proof.
  assert (Hd : forall s, all_space (_FRONTMATTER_DELIMITER +:+ s) = false) by (intros s; by rewrite all_space_eq).
  set (l := lines_before _ _). assert (Hl : lstrip l = l) by (by rewrite lstrip_eq).
  unfold strip. rewrite Hl. unfold l. rewrite rstrip_before by apply Hd. f_equal.
  change (_FRONTMATTER_DELIMITER +:+ ?s) with (String "-" (String "-" (String "-" s))).
  assert (Hs : forall s, after_space (String "-" s) = None) by (by intros [|b [|c s]]).
  by rewrite 3!rstrip_visible_char by apply Hs.
Qed.

(** The rest after the closing delimiter is empty or starts a line. *)
Lemma split_delimiter body :
  exists rest, split_lines (_FRONTMATTER_DELIMITER +:+ rstrip (newline +:+ body)) =
    _FRONTMATTER_DELIMITER :: rest.
Proof.
  change (newline +:+ body) with (String (ascii_of_nat 10) body). cbn [rstrip].
  rewrite (all_space_line body : all_space (String (ascii_of_nat 10) body) = all_space body).
  by destruct (all_space body); eexists.
Qed.

Lemma until_block block rest :
  Forall (fun l => strip l <> _FRONTMATTER_DELIMITER) block ->
  until_delimiter (block ++ _FRONTMATTER_DELIMITER :: rest) = Some block.
Proof.
  induction 1 as [|l block Hl _ IH]; [done|]. cbn [until_delimiter app].
  rewrite (proj2 (String.eqb_neq _ _) Hl), IH. done.
Qed.

(** The front matter a skill is written with is the one it is read
    with: of any lines between two delimiters, none of them a delimiter, and
    any text after them, exactly these lines are parsed, and the name and
    description are those of the mapping they give, with the identifier and
    the empty text as defaults.  Anything that is no mapping gives the
    defaults, and so does a text that does not begin with the delimiter. *)
Theorem frontmatter_is_read safe_load block body fallback :
  Forall (fun l => has_char (ascii_of_nat 10) l = false /\ strip l <> _FRONTMATTER_DELIMITER) block ->
  _parse_frontmatter safe_load
    (lines_before (_FRONTMATTER_DELIMITER :: block) (_FRONTMATTER_DELIMITER +:+ newline +:+ body))
    fallback =
  match safe_load (String.concat newline block) with
  | YamlValue (JObj data) =>
      inr (str_field "name" fallback data, str_field "description" "" data)
  | YamlRaises exc => inl exc
  | _ => inr (fallback, "")
  end /\
  (startswith _FRONTMATTER_DELIMITER (strip body) = false ->
   _parse_frontmatter safe_load body fallback = inr (fallback, "")).
Proof.
  intros [Hn Hd]%Forall_and. split.
  - unfold _parse_frontmatter.
    rewrite stripped_frontmatter.
    destruct (split_delimiter body) as [rest Hr].
    rewrite split_lines_before by (by constructor). rewrite Hr. cbn [tail app negb startswith].
    rewrite until_block by done. cbn [lines_before].
    replace (startswith _ _) with true by (symmetry; apply Prelude.prefix_app). cbn.
    by destruct (safe_load _) as [| |[]].
  - intros Hs. unfold _parse_frontmatter. by rewrite Hs.
Qed.

(** ** Identifiers are not unique *)

(** Two paths with one identifier: [a/b] and [a-b]. *)
Example ids_collide : _derive_skill_id ["a"; "b"] = _derive_skill_id ["a-b"].
Proof. reflexivity. Qed.

(** ** A concrete tree *)

Definition sample_safe_load (text : string) : YamlOutcome :=
  if String.eqb text "name: Review" then YamlValue (JObj [("name", JStr "Review")])
  else if String.eqb text "description:" then YamlValue (JObj [("description", JNull)])
  else YamlError.

Definition sample_text (path : string) : FileRead :=
  if String.eqb path "/s/a/b/SKILL.md" then
    FileText ("---" +:+ newline +:+ "name: Review" +:+ newline +:+ "---" +:+ newline +:+ "Do.")
  else if String.eqb path "/s/a-b/SKILL.md" then FileText "hidden"
  else if String.eqb path "/s/SKILL.md" then
    FileText ("---" +:+ newline +:+ "description:" +:+ newline +:+ "---")
  else FileOSError "gone".

Definition sample_tree : SkillTree :=
  {| root_is_dir := true; found := [["c"]; ["a-b"]; ["a"; "b"]; []]; read_text := sample_text |}.

Definition sample_loader : SkillLoader := {| skills_dir := "/s"; skills := ∅ |}.

Definition scanned : SkillLoader := (rescan sample_safe_load sample_tree sample_loader).2.

Lemma scan_finds_every_skill_witness :
  root_is_dir sample_tree = true /\
  scans_cleanly sample_safe_load sample_tree "/s" (found sample_tree) /\
  (exists l', (rescan sample_safe_load sample_tree sample_loader).1 = inr (size (skills l'))) /\
  available_ids scanned = ["SKILL"; "a-b"] /\
  available_skills_summary scanned = "- SKILL — None" +:+ newline +:+ "- a-b" /\
  skill_tool sample_tree scanned "a-b" =
    inr ("[Skill: a-b]" +:+ newline +:+ "---" +:+ newline +:+ "name: Review" +:+ newline +:+
         "---" +:+ newline +:+ "Do.").
Proof.
  assert (Hc : scans_cleanly sample_safe_load sample_tree "/s" (found sample_tree)).
  { split; [intros rel exc _; cbn; unfold sample_text; by case_all|].
    intros text exc. unfold sample_safe_load. by case_all. }
  split; [done|]. split; [exact Hc|]. split.
  { destruct (scan_finds_every_skill sample_safe_load sample_tree sample_loader eq_refl Hc)
      as (l' & Hl & _). exists l'. by rewrite Hl. }
  vm_compute. done.
Defined.

Lemma frontmatter_is_read_witness :
  _parse_frontmatter sample_safe_load
    (lines_before ["---"; "name: Review"] ("---" +:+ newline +:+ "Do.")) "x" = inr ("Review", "").
Proof.
  assert (H := frontmatter_is_read sample_safe_load ["name: Review"] "Do." "x").
  refine (proj1 (H _)). constructor; [by split|done].
Defined.
