(* ===== verification/Tools.v ===== *)
(** * Tools

    What the model-callable tools share: Python's keyword arguments, the
    values they hold, the step from a tool definition to a registered
    [ToolSpec], and the agreement of a tool's JSON schema with its handler
    ([tools/registry.py], [tool]). *)

From S2P Require Import Prelude Json AgentTypes Registry Urls.
From Stdlib Require Import Ascii.

(** ** Python values *)

Section python.
(** The text of the [TypeError] or [AttributeError] an operation on a value
    of another type raises. *)
Context (type_error : json -> string).

Definition as_str (v : json) : string + string :=
  match v with JStr s => inr s | _ => inl (type_error v) end.

(** [quote(v, safe="")], [unquote(v)] and [v.split(",")] *)
Definition py_quote (v : json) : string + string := (s <-- as_str v;; inr (quote s))%result.
Definition py_unquote (v : json) : string + string := (s <-- as_str v;; inr (unquote s))%result.
Definition split_commas (v : json) : string + list string :=
  (s <-- as_str v;; inr (split_on ","%char s))%result.

(** [v.split(",") if v else None], and with every piece stripped *)
Definition split_or_none (v : json) : string + json :=
  if json_truthy v then (l <-- split_commas v;; inr (JArr (map JStr l)))%result else inr JNull.
Definition strip_split_or_none (v : json) : string + json :=
  if json_truthy v then (l <-- split_commas v;; inr (JArr (map (fun s => JStr (strip s)) l)))%result
  else inr JNull.

(** The decimal digits of [int], with single underscores between them. *)
Fixpoint int_digits (acc : Z) (after_digit : bool) (s : string) : option Z :=
  match s with
  | EmptyString => if after_digit then Some acc else None
  | String c s =>
      let n := N_of_ascii c in
      if (48 <=? n)%N && (n <=? 57)%N then int_digits (10 * acc + Z.of_N (n - 48)) true s
      else if Ascii.eqb c "_" && after_digit then int_digits acc false s
      else None
  end%Z.

(** [int(s)] of a text: ASCII whitespace and digits. *)
Definition py_int (s : string) : string + Z :=
  let bad := inl ("invalid literal for int() with base 10: " +:+ py_repr s) in
  match strip s with
  | String "-" ds => match int_digits 0 false ds with Some n => inr (- n)%Z | None => bad end
  | String "+" ds | ds => match int_digits 0 false ds with Some n => inr n | None => bad end
  end.

Fixpoint py_ints (l : list string) : string + list Z :=
  match l with
  | [] => inr []
  | s :: l => (n <-- py_int s;; ns <-- py_ints l;; inr (n :: ns))%result
  end.
End python.

(** [v or None], [v or d] *)
Definition or_none (v : json) : json := if json_truthy v then v else JNull.

(** [if v: d[key] = x] on a new key, and its [is not None] form. *)
Definition when_truthy (v : json) (entry : string * json) (d : list (string * json))
  : list (string * json) := if json_truthy v then d ++ [entry] else d.
Definition when_given (v : json) (entry : string * json) (d : list (string * json))
  : list (string * json) := match v with JNull => d | _ => d ++ [entry] end.

(** [v == s] *)
Definition is_str (s : string) (v : json) : bool :=
  match v with JStr t => String.eqb s t | _ => false end.

(** [[{"name": c} for c in v]] of a list *)
Definition names_of (v : json) : json :=
  match v with JArr l => JArr (map (fun c => JObj [("name", c)]) l) | _ => JArr [] end.

(** [s.rstrip(chars)] *)
Fixpoint rstrip_chars (chars s : string) : string :=
  match s with
  | EmptyString => EmptyString
  | String c s =>
      match rstrip_chars chars s with
      | EmptyString => if str_contains (String c EmptyString) chars then EmptyString
                       else String c EmptyString
      | s => String c s
      end
  end.

(** ** Tools *)

(** An [async def] with keyword parameters and a body of type [M]: [Arg] has
    no default. *)
Inductive Handler_ (M : Type) :=
| Do (m : M)
| Arg (name : string) (k : json -> Handler_ M)
| Opt (name : string) (d : json) (k : json -> Handler_ M).
Arguments Do {M} m.
Arguments Arg {M} name k.
Arguments Opt {M} name d k.

(** The parameters with their defaults. *)
Fixpoint parameters {M} (h : Handler_ M) : list (string * option json) :=
  match h with
  | Do _ => []
  | Arg n k => (n, None) :: parameters (k JNull)
  | Opt n d k => (n, Some d) :: parameters (k JNull)
  end.

Fixpoint fill {M} (h : Handler_ M) (args : list (string * json)) : option M :=
  match h with
  | Do m => Some m
  | Arg n k => v ← obj_get n args; fill (k v) args
  | Opt n d k => fill (k (default d (obj_get n args))) args
  end.

Definition known {M} (h : Handler_ M) (key : string) : bool :=
  existsb (String.eqb key) (map fst (parameters h)).

(** [handler( **args )]; [None] is a [TypeError]. *)
Definition apply_args {M} (h : Handler_ M) (args : list (string * json)) : option M :=
  if forallb (fun kv => known h kv.1) args then fill h args else None.

(** What [@tool] is given; [t_required] is absent from some schemas. *)
Record ApiTool (M : Type) := {
  t_name : string;
  t_description : string;
  t_properties : list (string * json);
  t_required : option (list string);
  t_display_name : string;
  t_read_only : bool;
  t_concurrency_safe : bool;
  t_core : bool;
  t_handler : Handler_ M
}.
Arguments t_name {M} _.
Arguments t_description {M} _.
Arguments t_properties {M} _.
Arguments t_required {M} _.
Arguments t_display_name {M} _.
Arguments t_read_only {M} _.
Arguments t_concurrency_safe {M} _.
Arguments t_core {M} _.
Arguments t_handler {M} _.

Definition property_ (ty desc : string) : json :=
  JObj [("type", JStr ty); ("description", JStr desc)].

Definition property_d (ty desc : string) (d : json) : json :=
  JObj [("type", JStr ty); ("description", JStr desc); ("default", d)].

Definition tool_schema {M} (t : ApiTool M) : json :=
  JObj ([("type", JStr "object"); ("properties", JObj (t_properties t))] ++
        match t_required t with
        | Some names => [("required", JArr (map JStr names))]
        | None => []
        end).

(** A body that uses the outside state alone, beside the surfaced tools. *)
Definition on_world {W M} (exec : M -> W -> (string + string) * W) (m : M) (c : gset string * W)
  : (string + string) * (gset string * W) :=
  let '(x, w) := exec m c.2 in (x, (c.1, w)).

Section registration.
Context {W M : Type}.
(** How a body runs; the text of the [TypeError] of a call whose arguments do
    not fit. *)
Context (exec : M -> gset string * W -> (string + string) * (gset string * W)).
Context (bad_call : list (string * json) -> string).

Definition tool_handler (t : ApiTool M) : Handler W := fun args c =>
  match apply_args (t_handler t) args with
  | None => (inl (bad_call args), c)
  | Some m => exec m c
  end.

(** [@tool(...)], with [spec.check_fn = check]. *)
Definition tool_spec (toolset : string) (check : option bool) (t : ApiTool M) : ToolSpec W :=
  {| name := t_name t; description := t_description t; input_schema := tool_schema t;
     handler := tool_handler t; is_read_only := t_read_only t;
     is_concurrency_safe := t_concurrency_safe t; is_core := t_core t;
     ts_display_name := t_display_name t; Registry.toolset := toolset;
     check_fn := check; max_result_chars := _DEFAULT_MAX_RESULT_CHARS |}.
End registration.

(** Registrations one after the other. *)
Fixpoint register_all {W} (specs : list (ToolSpec W)) (r : Registry W) : string + Registry W :=
  match specs with
  | [] => inr r
  | t :: specs => (r <-- register t r;; register_all specs r)%result
  end.

Lemma Forall_elem {A} (P : A -> Prop) l x : Forall P l -> x ∈ l -> P x.
Proof. rewrite List.Forall_forall. intros H Hx. apply H. by apply list_elem_of_In. Qed.

(** ** Schemas *)

(** The parameters do not depend on the arguments. *)
Fixpoint uniform {M} (h : Handler_ M) : Prop :=
  match h with
  | Do _ => True
  | Arg _ k | Opt _ _ k => forall v, uniform (k v) /\ parameters (k v) = parameters (k JNull)
  end.

Definition required_params (ps : list (string * option json)) : list string :=
  map fst (List.filter (fun p => match p.2 with None => true | Some _ => false end) ps).

Lemma fill_required {M} (h : Handler_ M) args :
  uniform h ->
  is_Some (fill h args) <->
  forall n, n ∈ required_params (parameters h) -> is_Some (obj_get n args).
Proof.
  induction h as [m|n k IH|n d k IH]; cbn; intros Hu.
  - split; [intros _ n Hn; by apply not_elem_of_nil in Hn|by eexists].
  - unfold required_params. cbn. split.
    + intros [m Hm] x [->|Hx]%elem_of_cons; destruct (obj_get n args) as [v|] eqn:Hn; try done.
      cbn in Hm. destruct (Hu v) as [Huv Hp]. apply (proj1 (IH v Huv)); [by eexists|].
      unfold required_params. by rewrite Hp.
    + intros Hall. destruct (Hall n) as [v Hv]; [by apply list_elem_of_here|]. rewrite Hv. cbn.
      destruct (Hu v) as [Huv Hp]. apply IH; [done|]. intros x Hx. apply Hall.
      apply list_elem_of_further. rewrite <- Hp. exact Hx.
  - unfold required_params. cbn. destruct (Hu (default d (obj_get n args))) as [Huv Hp].
    rewrite IH by done. unfold required_params. by rewrite Hp.
Qed.

(** The schema of a tool says what its handler takes: the same names, the
    same ones required, and no other default than the handler's. *)
Definition default_agrees (properties : list (string * json)) (p : string * option json) : Prop :=
  exists fields, obj_get p.1 properties = Some (JObj fields) /\
    forall d, obj_get "default" fields = Some d -> p.2 = Some d.

Definition schema_ok {M} (t : ApiTool M) : Prop :=
  let ps := parameters (t_handler t) in
  uniform (t_handler t) /\ NoDup (map fst ps) /\
  map fst (t_properties t) = map fst ps /\
  default [] (t_required t) = required_params ps /\
  Forall (default_agrees (t_properties t)) ps.

(** The calls that fit a schema are the calls that run. *)
Lemma schema_calls {M} (t : ApiTool M) args :
  schema_ok t ->
  is_Some (apply_args (t_handler t) args) <->
  (forall k v, (k, v) ∈ args -> k ∈ map fst (t_properties t)) /\
  (forall n, n ∈ default [] (t_required t) -> is_Some (obj_get n args)).
Proof.
  intros (Hu & _ & Hn & Hr & _). rewrite Hr, Hn, <- fill_required by done. unfold apply_args.
  destruct (forallb _ args) eqn:Hf; [|split; [by intros []|]].
  - split; [|tauto]. intros Hs. split; [|done]. intros k v Hin.
    rewrite forallb_forall in Hf. apply list_elem_of_In in Hin. specialize (Hf _ Hin). cbn in Hf.
    unfold known in Hf. apply existsb_exists in Hf as (x & Hx & ->%String.eqb_eq).
    by apply list_elem_of_In.
  - intros [Hall _]. exfalso. apply not_true_iff_false in Hf. apply Hf.
    apply forallb_forall. intros [k v] Hin%list_elem_of_In. unfold known.
    apply existsb_exists. exists k. split; [apply list_elem_of_In; eauto|apply String.eqb_refl].
Qed.

(** Unfolds the constant at the head of a term. *)
Ltac unfold_head t :=
  let rec head t := match t with ?f _ => head f | _ => t end in
  let h := head t in unfold h.

Ltac schema_fits :=
  match goal with |- schema_ok ?t => unfold schema_ok; unfold_head t end;
  cbn [t_handler t_properties t_required];
  split_and!;
  [ cbn; repeat (intros ?; split; [|reflexivity]); exact I
  | apply (bool_decide_unpack _); vm_compute; exact I
  | reflexivity | reflexivity
  | repeat (apply Forall_cons; [eexists; split; [reflexivity|by intros ? [= <-]]|]);
    apply Forall_nil ].

Ltac schemas_fit := repeat (apply Forall_cons; [schema_fits|]); apply Forall_nil.
