(* ===== verification/Processes.v ===== *)
(** * Processes

    The processes around the components.  [runtime.py]: which of six signals
    of an OpenShell sandbox are present, and whether they are enough to start.
    [main.py] and [_async_main] of [agent/__main__.py]: the orchestrator and
    the sub-agent from their start to their end.  [nmb/broker.py]: [start],
    [stop], [serve_forever] and the command line of the broker.
    [orchestrator/delegation.py]: what the sub-agent's process is started
    with, the configuration it then reads, and how it is stopped.
    [observability] and [orchestrator/request_context.py]: what a log line
    holds, the timer and the request context of a task.

    A process is the sequence of calls it makes that may fail, in the order
    it makes them; an argument says what each raises. *)

From S2P Require Import Prelude Json Config Urls Tools ConfigTheorems DelegateTask.

(** * The self-check *)

(** ** Signals *)

Inductive Signal :=
| OPENSHELL_ENV
| SANDBOX_DIR
| APP_SRC_PRESENT
| HTTPS_PROXY_ENV
| SSL_CERT_BUNDLE
| INFERENCE_DNS.

#[export] Instance Signal_eq : EqDecision Signal.
Proof. solve_decision. Defined.

Definition signal_name (s : Signal) : string :=
  match s with
  | OPENSHELL_ENV => "OPENSHELL_SANDBOX"
  | SANDBOX_DIR => "sandbox_dir_writable"
  | APP_SRC_PRESENT => "app_src_present"
  | HTTPS_PROXY_ENV => "https_proxy_env"
  | SSL_CERT_BUNDLE => "ssl_cert_bundle_env"
  | INFERENCE_DNS => "inference_local_resolves"
  end.

Definition _ALL_SIGNALS : list Signal :=
  [OPENSHELL_ENV; SANDBOX_DIR; APP_SRC_PRESENT; HTTPS_PROXY_ENV; SSL_CERT_BUNDLE; INFERENCE_DNS].

(** What the process finds outside: its environment variables, whether a path
    is a directory and may be written, and whether a name resolves. *)
Record Host := {
  environ : gmap string string;
  is_dir : string -> bool;
  writable : string -> bool;
  resolves : string -> bool
}.

Definition env_truthy (h : Host) (var : string) : bool :=
  match environ h !! var with Some v => str_truthy v | None => false end.

Definition _DEFAULT_SANDBOX_SIGNAL_THRESHOLD : Z := 4.
Definition _SANDBOX_SIGNAL_THRESHOLD_ENV : string := "NEMOCLAW_SANDBOX_SIGNAL_THRESHOLD".

Definition _sandbox_signal_threshold (h : Host) : Z :=
  match environ h !! _SANDBOX_SIGNAL_THRESHOLD_ENV with
  | None => _DEFAULT_SANDBOX_SIGNAL_THRESHOLD
  | Some raw => match py_int raw with inr n => n | inl _ => _DEFAULT_SANDBOX_SIGNAL_THRESHOLD end
  end.

Definition _check_openshell_env (h : Host) : bool := env_truthy h "OPENSHELL_SANDBOX".
Definition _check_sandbox_dir_writable (h : Host) : bool := is_dir h "/sandbox" && writable h "/sandbox".
Definition _check_app_src_present (h : Host) : bool := is_dir h "/app/src".
Definition _check_https_proxy_env (h : Host) : bool :=
  env_truthy h "HTTPS_PROXY" || env_truthy h "https_proxy".
Definition _check_ssl_cert_bundle_env (h : Host) : bool :=
  env_truthy h "SSL_CERT_FILE" || env_truthy h "REQUESTS_CA_BUNDLE".
Definition _check_inference_dns_resolves (h : Host) : bool := resolves h "inference.local".

Definition _evaluate_signal (h : Host) (s : Signal) : bool :=
  match s with
  | OPENSHELL_ENV => _check_openshell_env h
  | SANDBOX_DIR => _check_sandbox_dir_writable h
  | APP_SRC_PRESENT => _check_app_src_present h
  | HTTPS_PROXY_ENV => _check_https_proxy_env h
  | SSL_CERT_BUNDLE => _check_ssl_cert_bundle_env h
  | INFERENCE_DNS => _check_inference_dns_resolves h
  end.

(** ** Classification *)

Inductive RuntimeEnvironment := SANDBOX | INCONSISTENT.

Record RuntimeReport := {
  classification : RuntimeEnvironment;
  signals_present : list Signal;
  signals_missing : list Signal;
  likely_cause : string
}.

Definition has (s : Signal) (l : list Signal) : bool := bool_decide (s ∈ l).

Definition _classify (h : Host) (present : list Signal) : RuntimeEnvironment * string :=
  if (_sandbox_signal_threshold h <=? Z.of_nat (length present))%Z then (SANDBOX, "")
  else
    let has_env_signals :=
      has OPENSHELL_ENV present || has HTTPS_PROXY_ENV present || has SSL_CERT_BUNDLE present in
    let has_path_signals := has SANDBOX_DIR present || has APP_SRC_PRESENT present in
    (INCONSISTENT,
     if has_env_signals && negb has_path_signals then
       "sandbox env vars present but paths missing (not inside a sandbox)"
     else if has_path_signals && negb has_env_signals then
       "image built correctly but gateway didn't inject env " +:+
       "(recreate with `make run-local-sandbox`)"
     else if Nat.eqb (length present) 0 then
       "no sandbox signals present — run via `make run-local-sandbox`"
     else "OpenShell version drift or gateway misconfigured").

Definition detect_runtime_environment (h : Host) : RuntimeReport :=
  let present := List.filter (_evaluate_signal h) _ALL_SIGNALS in
  let missing := List.filter (fun s => negb (_evaluate_signal h s)) _ALL_SIGNALS in
  let '(c, cause) := _classify h present in
  {| classification := c; signals_present := present; signals_missing := missing;
     likely_cause := cause |}.

(** The text of a [SandboxConfigurationError]. *)
Definition names_or_none (l : list Signal) : string :=
  match l with [] => "none" | _ => String.concat ", " (map signal_name l) end.

Definition SandboxConfigurationError (r : RuntimeReport) : string :=
  "Sandbox detection inconsistent — " +:+ show_Z (Z.of_nat (length (signals_present r))) +:+ "/" +:+
  show_Z (Z.of_nat (length _ALL_SIGNALS)) +:+ " signals present; " +:+ "refusing to start.  " +:+
  "Missing: " +:+ names_or_none (signals_missing r) +:+ ".  " +:+
  "Present: " +:+ names_or_none (signals_present r) +:+ ".  " +:+
  "Run `make status` to inspect providers; recreate sandbox with " +:+ "`make run-local-sandbox`.".

(** ** What the check decides *)

(** [h'] has every signal [h] has, and the same threshold. *)
Definition more_signals (h h' : Host) : Prop :=
  _sandbox_signal_threshold h = _sandbox_signal_threshold h' /\
  forall s, _evaluate_signal h s = true -> _evaluate_signal h' s = true.

Lemma filter_length_le {A} (f g : A -> bool) l :
  (forall x, f x = true -> g x = true) -> length (List.filter f l) <= length (List.filter g l).
Proof.
  intros Hfg. induction l as [|x l IH]; simpl; [done|].
  destruct (f x) eqn:Hf; [rewrite (Hfg _ Hf); simpl; lia|]. destruct (g x); simpl; lia.
Qed.

Lemma filter_split_length {A} (f : A -> bool) l :
  length (List.filter f l) + length (List.filter (fun x => negb (f x)) l) = length l.
Proof. induction l as [|x l IH]; simpl; [done|]. destruct (f x); simpl; lia. Qed.

Lemma detect_sandbox h :
  classification (detect_runtime_environment h) = SANDBOX <->
  (_sandbox_signal_threshold h <= Z.of_nat (length (List.filter (_evaluate_signal h) _ALL_SIGNALS)))%Z.
Proof.
  unfold detect_runtime_environment, _classify. set (n := Z.of_nat _).
  destruct (Z.leb_spec (_sandbox_signal_threshold h) n); cbn [classification]; split; done || lia.
Qed.

(** The check counts.  The present and the missing signals are the six, each
    in one of the lists; the process starts exactly when as many are present
    as the threshold asks, four unless the variable holds a number; more
    signals never turn a start into a refusal; a refusal has a cause, a start
    none. *)
Theorem runtime_check_counts h :
  let r := detect_runtime_environment h in
  (forall s, s ∈ signals_present r <-> _evaluate_signal h s = true) /\
  (forall s, s ∈ signals_missing r <-> _evaluate_signal h s = false) /\
  length (signals_present r) + length (signals_missing r) = 6 /\
  (classification r = SANDBOX <->
     (_sandbox_signal_threshold h <= Z.of_nat (length (signals_present r)))%Z) /\
  (classification r = SANDBOX <-> likely_cause r = "") /\
  (forall h', more_signals h h' -> classification r = SANDBOX ->
     classification (detect_runtime_environment h') = SANDBOX).
Proof.
  intros r.
  assert (Hp : signals_present r = List.filter (_evaluate_signal h) _ALL_SIGNALS)
    by (unfold r, detect_runtime_environment; by destruct (_classify _ _)).
  assert (Hm : signals_missing r = List.filter (fun s => negb (_evaluate_signal h s)) _ALL_SIGNALS)
    by (unfold r, detect_runtime_environment; by destruct (_classify _ _)).
  rewrite Hp, Hm.
  assert (Hall : forall s : Signal, In s _ALL_SIGNALS) by (intros []; simpl; tauto).
  split; [|split; [|split; [|split; [|split]]]].
  - intros s. rewrite list_elem_of_In, filter_In. naive_solver.
  - intros s. rewrite list_elem_of_In, filter_In, negb_true_iff. naive_solver.
  - apply filter_split_length.
  - apply detect_sandbox.
  - unfold r, detect_runtime_environment, _classify.
    repeat (case_match; simplify_eq/=); done.
  - intros h' [Ht Hs]. unfold r. rewrite !detect_sandbox, <- Ht. intros H.
    pose proof (filter_length_le _ _ _ALL_SIGNALS Hs). lia.
Qed.

(** The escape hatch of the tests opens the check entirely. *)
Example zero_threshold :
  classification (detect_runtime_environment
    {| environ := {[ _SANDBOX_SIGNAL_THRESHOLD_ENV := " -1 " ]}; is_dir := fun _ => false;
       writable := fun _ => false; resolves := fun _ => false |}) = SANDBOX.
Proof. by vm_compute. Qed.

(** * Start-up and teardown *)

(** ** Calls that may fail *)

Inductive Call :=
| ScanSkills
| OpenAudit
| StartWriter
| ConnectBus
| StartDispatcher
| BuildRegistry
| StartConnector
| AwaitShutdown
| RunCli
| RunNmb
| StopConnector
| CloseDispatcher
| CloseDelegation
| CloseBus
| StopWriter
| CloseAudit
| CloseBackend.

#[export] Instance Call_eq : EqDecision Call.
Proof. solve_decision. Defined.

(** What leaves a block: an exception, or [sys.exit]. *)
Inductive Leaves := Raises (text : string) | Exits (code : Z).

Section process.
Context (fails : Call -> option string).

(** A block of code: how it ends and the calls made so far. *)
Definition Block (A : Type) : Type := list Call -> (Leaves + A) * list Call.

Definition done_ {A} (x : A) : Block A := fun tr => (inr x, tr).
Definition leave {A} (l : Leaves) : Block A := fun tr => (inl l, tr).
Definition bind {A B} (p : Block A) (f : A -> Block B) : Block B :=
  fun tr => match p tr with (inr x, tr) => f x tr | (inl l, tr) => (inl l, tr) end.

Definition do (c : Call) : Block unit :=
  fun tr => (match fails c with Some text => inl (Raises text) | None => inr tt end, tr ++ [c]).

(** [try: p except Exception: handler] *)
Definition try_ {A} (p : Block A) (handler : string -> Block A) : Block A :=
  fun tr => match p tr with (inl (Raises text), tr) => handler text tr | r => r end.

(** [try: p finally: q]: what [q] raises replaces the outcome of [p]. *)
Definition finally {A} (p : Block A) (q : Block unit) : Block A :=
  fun tr => let '(x, tr) := p tr in
            match q tr with (inl l, tr) => (inl l, tr) | (inr tt, tr) => (x, tr) end.

Notation "x <~ p ;; q" := (bind p (fun x => q)) (at level 100, p at next level, right associativity).
Notation "p ;;~ q" := (bind p (fun _ => q)) (at level 100, right associativity).

Definition if_ (b : bool) (p : Block unit) : Block unit := if b then p else done_ tt.

(** A close that may fail: the failure is only logged. *)
Definition close_quietly (c : Call) : Block unit := try_ (do c) (fun _ => done_ tt).

(** ** The orchestrator *)

(** What the configuration switches on. *)
Record Switches := { skills_on : bool; audit_on : bool; delegation_on : bool }.

Definition setting_on (section : string) (c : AppConfig) : bool :=
  match field section "enabled" c with Some v => json_truthy v | None => false end.

Definition switches (c : AppConfig) : Switches :=
  {| skills_on := setting_on "skills" c; audit_on := setting_on "audit" c;
     delegation_on := setting_on "delegation" c |}.

(** Steps 3 to 7: whether there is a bus, which is whether there is a
    dispatcher and a delegation manager. *)
Definition set_up (s : Switches) : Block bool :=
  if_ (skills_on s) (do ScanSkills) ;;~
  if_ (audit_on s) (do OpenAudit ;;~ do StartWriter) ;;~
  bus <~ (if delegation_on s then
            try_ (do ConnectBus ;;~ done_ true)
                 (fun _ => close_quietly CloseBus ;;~ done_ false)
          else done_ false);;
  if_ bus (do StartDispatcher) ;;~
  do BuildRegistry ;;~
  done_ bus.

(** The [finally] of step 9. *)
Definition teardown (s : Switches) (bus : bool) : Block unit :=
  do StopConnector ;;~
  if_ bus (close_quietly CloseDispatcher) ;;~
  if_ bus (close_quietly CloseDelegation) ;;~
  if_ bus (close_quietly CloseBus) ;;~
  if_ (audit_on s) (do StopWriter ;;~ do CloseAudit) ;;~
  do CloseBackend.

(** Step 9. *)
Definition serve (s : Switches) (bus : bool) : Block unit :=
  finally (try_ (do StartConnector ;;~ do AwaitShutdown) (fun _ => leave (Exits 1)))
          (teardown s bus).

Definition run_orchestrator (s : Switches) : Block unit := bus <~ set_up s;; serve s bus.

(** [main]: the self-check and the configuration come first; [loaded] is what
    [create_orchestrator_config] gives. *)
Definition main (h : Host) (loaded : string + Loading) : (Leaves + unit) * list Call :=
  let runtime := detect_runtime_environment h in
  match classification runtime with
  | INCONSISTENT => (inl (Raises (SandboxConfigurationError runtime)), [])
  | SANDBOX =>
      match loaded with
      | inl text => (inl (Raises text), [])
      | inr (c, _) => run_orchestrator (switches c) []
      end
  end.

(** The handler of SIGINT and SIGTERM: the second signal exits at once.  Left
    is the exit code, right whether the shutdown is under way. *)
Definition _signal_handler (shutting_down : bool) : Z + bool :=
  if shutting_down then inl 130%Z else inr true.

(** ** The sub-agent *)

(** The parsed arguments; [--task] and [--nmb] exclude each other, and one of
    them is there. *)
Inductive Mode := Task (description : string) | Nmb.

(** [if args.task]: an empty description is not a task. *)
Definition run_mode (m : Mode) : Call :=
  match m with Task t => if str_truthy t then RunCli else RunNmb | Nmb => RunNmb end.

(** [code] is what the mode returns. *)
Definition _async_main (h : Host) (loaded : string + Loading) (m : Mode) (code : Call -> Z)
  : (Leaves + Z) * list Call :=
  let runtime := detect_runtime_environment h in
  match classification runtime with
  | INCONSISTENT => (inl (Raises (SandboxConfigurationError runtime)), [])
  | SANDBOX =>
      match loaded with
      | inl text => (inl (Raises text), [])
      | inr _ =>
          finally (do (run_mode m) ;;~ done_ (code (run_mode m))) (do CloseBackend) []
      end
  end.

(** ** Setting up *)

(** What setting up opened, as its calls. *)
Definition opens_audit (s : Switches) : list Call := if audit_on s then [OpenAudit; StartWriter] else [].
Definition opens_bus (s : Switches) (bus : bool) : list Call :=
  if delegation_on s then
    if bus then [ConnectBus; StartDispatcher] else [ConnectBus; CloseBus]
  else [].

Definition set_up_calls (s : Switches) (bus : bool) : list Call :=
  (if skills_on s then [ScanSkills] else []) ++ opens_audit s ++ opens_bus s bus ++ [BuildRegistry].

(** The calls of the [finally]. *)
Definition teardown_calls (s : Switches) (bus : bool) : list Call :=
  [StopConnector] ++ (if bus then [CloseDispatcher; CloseDelegation; CloseBus] else []) ++
  (if audit_on s then [StopWriter; CloseAudit] else []) ++ [CloseBackend].

Lemma do_ok c tr : fails c = None -> do c tr = (inr tt, tr ++ [c]).
Proof. intros H. unfold do. by rewrite H. Qed.

Lemma close_quietly_ok c tr : close_quietly c tr = (inr tt, tr ++ [c]).
Proof. unfold close_quietly, try_, do. by destruct (fails c). Qed.

(** Runs a block through the calls it makes. *)
Ltac run_calls :=
  repeat match goal with
  | |- context [fails ?c] => destruct (fails c) eqn:?; simpl in *
  | H : context [fails ?c] |- _ => lazymatch type of H with fails c = _ => fail | _ => destruct (fails c) eqn:?; simpl in * end
  end.

Lemma set_up_ok s tr bus tr' :
  set_up s tr = (inr bus, tr') ->
  tr' = tr ++ set_up_calls s bus /\
  bus = delegation_on s && match fails ConnectBus with None => true | Some _ => false end.
Proof.
  unfold set_up, set_up_calls, opens_audit, opens_bus, close_quietly, if_, try_, bind, do, done_.
  intros H. destruct (skills_on s), (audit_on s), (delegation_on s); simpl in *;
    run_calls; simplify_eq; rewrite <- ?app_assoc; done.
Qed.

Lemma teardown_ok s bus tr :
  fails StopConnector = None -> fails StopWriter = None -> fails CloseAudit = None ->
  teardown s bus tr =
  (match fails CloseBackend with Some text => inl (Raises text) | None => inr tt end,
   tr ++ teardown_calls s bus).
Proof.
  intros H1 H2 H3.
  unfold teardown, teardown_calls, close_quietly, if_, try_, bind, do, done_. rewrite H1, H2, H3.
  destruct bus, (audit_on s); simpl; run_calls; simplify_eq; rewrite <- ?app_assoc; done.
Qed.

(** Everything that was opened is closed.  Once the set-up of the
    orchestrator succeeded, and if neither the connector nor the audit
    database fails to stop, the process makes exactly these calls: the
    set-up, the start of the connector, the wait, and the teardown in reverse
    order of dependence, each close once, whichever of them fail; and it exits
    with 1 exactly when the connector could not start or the wait was
    broken. *)
Theorem orchestrator_closes_what_it_opened s tr bus :
  fails StopConnector = None -> fails StopWriter = None -> fails CloseAudit = None ->
  set_up s [] = (inr bus, tr) ->
  let starts := match fails StartConnector with None => true | Some _ => false end in
  let waits := match fails AwaitShutdown with None => true | Some _ => false end in
  run_orchestrator s [] =
    (match fails CloseBackend with
     | Some text => inl (Raises text)
     | None => if starts && waits then inr tt else inl (Exits 1)
     end,
     set_up_calls s bus ++ StartConnector :: (if starts then [AwaitShutdown] else []) ++
     teardown_calls s bus) /\
  bus = delegation_on s && match fails ConnectBus with None => true | Some _ => false end.
Proof.
  intros H1 H2 H3 Hs starts waits. destruct (set_up_ok _ _ _ _ Hs) as [-> Hb]. split; [|done].
  unfold run_orchestrator, bind at 1. rewrite Hs. unfold serve, finally, try_, bind, do, leave.
  unfold starts, waits. destruct (fails StartConnector), (fails AwaitShutdown); simpl;
    rewrite teardown_ok by done; destruct (fails CloseBackend); simpl; by rewrite <- ?app_assoc.
Qed.

(** A failure of the set-up closes nothing. *)
Theorem failed_set_up_closes_nothing s text tr :
  set_up s [] = (inl (Raises text), tr) ->
  run_orchestrator s [] = (inl (Raises text), tr) /\
  Forall (fun c => c ∉ [StopConnector; CloseDispatcher; CloseDelegation; StopWriter; CloseAudit; CloseBackend]) tr.
Proof.
  intros Hs. split; [unfold run_orchestrator, bind at 1; by rewrite Hs|].
  unfold set_up, close_quietly, if_, try_, bind, do, done_ in Hs.
  destruct (skills_on s), (audit_on s), (delegation_on s); simpl in *;
    run_calls; simplify_eq; repeat constructor; set_solver.
Qed.

(** The backend of a sub-agent is closed however its mode ends. *)
Theorem sub_agent_closes_its_backend h c m code :
  classification (detect_runtime_environment h) = SANDBOX ->
  (_async_main h (inr c) m code).2 = [run_mode m; CloseBackend] /\
  (fails (run_mode m) = None -> fails CloseBackend = None ->
   (_async_main h (inr c) m code).1 = inr (code (run_mode m))).
Proof.
  intros Hc. unfold _async_main. rewrite Hc. unfold finally, bind, do, done_.
  split; [|intros H1 H2; by rewrite H1, H2].
  destruct (fails (run_mode m)), (fails CloseBackend); done.
Qed.
End process.

(** An empty [--task] waits on the bus instead. *)
Example empty_task_is_nmb : run_mode (Task "") = RunNmb.
Proof. done. Qed.

(** The dispatcher fails to start: bus and audit database stay open. *)
Example dispatcher_failure :
  run_orchestrator (fun c => if decide (c = StartDispatcher) then Some "boom" else None)
    {| skills_on := false; audit_on := true; delegation_on := true |} [] =
  (inl (Raises "boom"), [OpenAudit; StartWriter; ConnectBus; StartDispatcher]).
Proof. by vm_compute. Qed.

(** * The broker *)

(** The calls outside; [CancelTimeouts] is [Broker.stop]. *)
Inductive LifeCall :=
| OpenAuditDb | StartAuditWriter | BindServer | ServeForever | CloseServer | CancelTimeouts
| StopAuditWriter | CloseAuditDb.

#[export] Instance LifeCall_eq_dec : EqDecision LifeCall.
Proof. solve_decision. Defined.

(** Whether [_audit] and [_server] are set, and the calls made. *)
Record Life := {
  lf_audit : bool;
  lf_server : bool;
  lf_calls : list LifeCall
}.

Definition new_life : Life := {| lf_audit := false; lf_server := false; lf_calls := [] |}.

Section life.
(** The exception a call raises, if any. *)
Context (raises : LifeCall -> option string).

Definition LM : Type := Life -> (string + unit) * Life.

Definition ldo (c : LifeCall) : LM := fun s =>
  (match raises c with Some exc => inl exc | None => inr tt end,
   {| lf_audit := lf_audit s; lf_server := lf_server s; lf_calls := lf_calls s ++ [c] |}).

Definition lset (f : Life -> Life) : LM := fun s => (inr tt, f s).

Definition lseq (m k : LM) : LM := fun s =>
  match m s with (inr tt, s) => k s | (inl exc, s) => (inl exc, s) end.

Definition lif (b : Life -> bool) (m : LM) : LM := fun s => if b s then m s else (inr tt, s).

Declare Scope life_scope.
Delimit Scope life_scope with life.
Notation "m ;; k" := (lseq m k) (at level 100, right associativity) : life_scope.

Definition set_audit (s : Life) : Life :=
  {| lf_audit := true; lf_server := lf_server s; lf_calls := lf_calls s |}.
Definition set_server (s : Life) : Life :=
  {| lf_audit := lf_audit s; lf_server := true; lf_calls := lf_calls s |}.

(** [start()] *)
Definition start : LM :=
  (lset set_audit ;; ldo OpenAuditDb ;; ldo StartAuditWriter ;; ldo BindServer ;; lset set_server)%life.

(** [stop()] *)
Definition stop : LM :=
  (lif lf_server (ldo CloseServer) ;; ldo CancelTimeouts ;;
   lif lf_audit (ldo StopAuditWriter ;; ldo CloseAuditDb))%life.

(** [serve_forever()]; interrupting it is an exception of [ServeForever]. *)
Definition serve_forever : LM :=
  (start ;; lif lf_server (ldo ServeForever))%life.
End life.

(** ** [_main] and [_admin_command] *)

Record Args := {
  arg_health : bool;
  arg_query : option string;
  arg_export_jsonl : option string;
  arg_since : option string
}.

Inductive AdminCommand := Health | Query (sql : string) | ExportJsonl (path : string) (since : option string).

Definition is_admin (a : Args) : bool :=
  arg_health a || opt_truthy (arg_query a) || opt_truthy (arg_export_jsonl a).

(** The command the chain of conditions picks. *)
Definition admin_command (a : Args) : option AdminCommand :=
  if arg_health a then Some Health
  else match arg_query a, arg_export_jsonl a with
       | Some (String c q), _ => Some (Query (String c q))
       | _, Some (String c p) => Some (ExportJsonl (String c p) (if opt_truthy (arg_since a) then arg_since a else None))
       | _, _ => None
       end.

Section admin.
Context (raises : LifeCall -> option string).
(** [audit.query], [audit.export_messages_jsonl], and
    [datetime.fromisoformat(since).replace(tzinfo=UTC).timestamp()]. *)
Context (query : string -> string + list (list (string * json))).
Context (export : string -> option Z -> string + Z).
Context (since_timestamp : string -> string + Z).
(** [json.dumps(v, default=str)], with [indent=2] or without. *)
Context (dumps_indented dumps : json -> string).

Definition STATS_SQL : string :=
  "SELECT COUNT(*) AS total_messages, COUNT(DISTINCT from_sandbox) AS unique_senders, " +:+
  "MAX(timestamp) AS last_message_at FROM messages".
Definition CONNECTIONS_SQL : string :=
  "SELECT sandbox_id, connected_at, disconnected_at, disconnect_reason " +:+
  "FROM connections ORDER BY connected_at DESC LIMIT 20".

(** The lines printed. *)
Definition run_admin (c : AdminCommand) : string + list string :=
  match c with
  | Health =>
      (stats <-- query STATS_SQL;;
       conns <-- query CONNECTIONS_SQL;;
       inr [dumps_indented (JObj (default [] (head stats) ++
              [("recent_connections", JArr (map JObj conns))]))])%result
  | Query sql => (rows <-- query sql;; inr (map (fun row => dumps (JObj row)) rows))%result
  | ExportJsonl path since =>
      (since <-- match since with Some s => (t <-- since_timestamp s;; inr (Some t)) | None => inr None end;;
       count <-- export path since;;
       inr ["Exported " +:+ show_Z count +:+ " messages to " +:+ path])%result
  end.

(** [_admin_command]: the database is opened, the command runs, and the
    database is closed whatever came of it. *)
Definition _admin_command (a : Args) (s : Life) : (string + list string) * Life :=
  match ldo raises OpenAuditDb s with
  | (inl exc, s) => (inl exc, s)
  | (inr tt, s) =>
      let r := match admin_command a with Some c => run_admin c | None => inr [] end in
      match ldo raises CloseAuditDb s with
      | (inl exc, s) => (inl exc, s)
      | (inr tt, s) => (r, s)
      end
  end.

(** [_main]: the lines an admin command prints, or the broker's run. *)
Definition _main (a : Args) : (string + list string) * Life :=
  if is_admin a then _admin_command a new_life
  else match serve_forever raises new_life with
       | (inl exc, s) => (inl exc, s)
       | (inr tt, s) => (inr [], s)
       end.
End admin.

(** ** Theorems *)

Definition occurs (c : LifeCall) (s : Life) : Prop := c ∈ lf_calls s.

(** Wherever [start] failed, [stop] closes the server exactly when it was
    bound, always cancels the timeouts, and turns to the audit writer; it ends
    early only with the exception of a call of its own. *)
Lemma stop_closes raises :
  let s := (start raises new_life).2 in
  let closing := (if lf_server s then [CloseServer] else []) ++ [CancelTimeouts; StopAuditWriter; CloseAuditDb] in
  (forall c, c ∈ closing -> raises c = None) ->
  stop raises s = (inr tt, {| lf_audit := true; lf_server := lf_server s; lf_calls := lf_calls s ++ closing |}) /\
  (lf_server s = true <-> raises OpenAuditDb = None /\ raises StartAuditWriter = None /\ raises BindServer = None).
Proof.
  unfold start, stop, lseq, lif, ldo, lset.
  destruct (raises OpenAuditDb) as [x|]; simpl;
    [|destruct (raises StartAuditWriter) as [x|]; simpl;
      [|destruct (raises BindServer) as [x|]; simpl]];
    intros H; (split; [|naive_solver]);
    rewrite ?(H CloseServer), ?(H CancelTimeouts), ?(H StopAuditWriter), ?(H CloseAuditDb) by set_solver; done.
Qed.

(** The broker that runs standalone is never stopped: however [serve_forever]
    ends, the writer is not drained and the database not closed. *)
Lemma standalone_is_never_stopped raises q e st di d a :
  is_admin a = false ->
  let s := (_main raises q e st di d a).2 in
  ~ occurs StopAuditWriter s /\ ~ occurs CloseAuditDb s /\ ~ occurs CloseServer s.
Proof.
  intros Ha. unfold _main, occurs. rewrite Ha. unfold serve_forever, start, lseq, lif, ldo, lset. simpl.
  destruct (raises OpenAuditDb), (raises StartAuditWriter), (raises BindServer), (raises ServeForever);
    simpl; split_and!; intros Hin; repeat (apply elem_of_cons in Hin as [Hin|Hin]; [done|]);
    by apply not_elem_of_nil in Hin.
Qed.

(** An admin command leaves the database closed whatever it does, unless
    opening or closing it failed. *)
Lemma admin_closes raises q e st di d a :
  is_admin a = true -> raises OpenAuditDb = None -> raises CloseAuditDb = None ->
  let out := _main raises q e st di d a in
  lf_calls out.2 = [OpenAuditDb; CloseAuditDb] /\
  exists c, admin_command a = Some c /\ out.1 = run_admin q e st di d c.
Proof.
  intros Ha Ho Hc. unfold _main. rewrite Ha. unfold _admin_command, ldo. rewrite Ho, Hc. simpl.
  split; [done|]. unfold is_admin, admin_command in *.
  destruct (arg_health a); [by eexists|]. simpl in Ha.
  destruct (arg_query a) as [[|c q']|]; simpl in Ha; [| by eexists|];
    (destruct (arg_export_jsonl a) as [[|c' p]|]; simpl in Ha; [done|by eexists|done]).
Qed.

(** * Sub-agent processes *)

(** ** Starting *)

(** [os.environ.copy()] with the identity and the workspace. *)
Definition spawn_env (env : Environ) (sub_agent_sandbox_id workspace_root : string) : Environ :=
  <["NEMOCLAW_WORKSPACE_ROOT" := workspace_root]>
    (<["NEMOCLAW_SANDBOX_ID" := sub_agent_sandbox_id]> env).

Definition spawn_command (executable sub_agent_module : string) : list string :=
  [executable; "-m"; sub_agent_module; "--nmb"].

(** ** Stopping *)

(** The process as its parent sees it: its exit status, the status it exits
    with when it heeds a SIGTERM within five seconds, and the signals sent. *)
Record Proc := {
  pr_returncode : option Z;
  pr_on_term : option Z;
  pr_signals : list string
}.

Definition signal (name : string) (p : Proc) : Proc :=
  {| pr_returncode := pr_returncode p; pr_on_term := pr_on_term p; pr_signals := pr_signals p ++ [name] |}.

Definition exits (status : Z) (p : Proc) : Proc :=
  {| pr_returncode := Some status; pr_on_term := pr_on_term p; pr_signals := pr_signals p |}.

(** [_terminate()]; a killed process ends with [-SIGKILL]. *)
Definition _terminate (p : Proc) : Proc :=
  match pr_returncode p with
  | Some _ => p
  | None =>
      let p := signal "SIGTERM" p in
      match pr_on_term p with
      | Some status => exits status p
      | None => exits (-9) (signal "SIGKILL" p)
      end
  end.

Record SpawnedAgent := {
  sa_sandbox_id : string;
  sa_command : list string;
  sa_env : Environ;
  sa_process : Proc
}.

(** [_spawn]: [started] is the process, or what starting it raises. *)
Definition _spawn (executable sub_agent_module : string) (env : Environ) (started : string + Proc)
  (sub_agent_sandbox_id workspace_root : string) : string + SpawnedAgent :=
  match started with
  | inl exc => inl exc
  | inr p => inr {| sa_sandbox_id := sub_agent_sandbox_id;
                    sa_command := spawn_command executable sub_agent_module;
                    sa_env := spawn_env env sub_agent_sandbox_id workspace_root;
                    sa_process := p |}
  end.

(** ** Theorems *)

(** A stopped agent has exited; a process that had already is not signalled,
    and one is killed only when it did not heed the first signal. *)
Lemma terminate_ends p :
  is_Some (pr_returncode (_terminate p)) /\
  pr_signals (_terminate p) =
    pr_signals p ++ match pr_returncode p, pr_on_term p with
                    | Some _, _ => []
                    | None, Some _ => ["SIGTERM"]
                    | None, None => ["SIGTERM"; "SIGKILL"]
                    end.
Proof.
  unfold _terminate. destruct (pr_returncode p) as [z|] eqn:Hr.
  - rewrite Hr, app_nil_r. by eexists.
  - simpl. destruct (pr_on_term p); simpl; [by eexists|]. split; [by eexists|]. by rewrite <- app_assoc.
Qed.

Lemma terminate_twice p : _terminate (_terminate p) = _terminate p.
Proof. unfold _terminate at 1. by destruct (terminate_ends p) as [[z ->] _]. Qed.

Lemma spawn_env_value env id root var :
  env_value (spawn_env env id root) var =
  if decide (var = "NEMOCLAW_WORKSPACE_ROOT") then (if str_truthy root then Some root else None)
  else if decide (var = "NEMOCLAW_SANDBOX_ID") then (if str_truthy id then Some id else None)
  else env_value env var.
Proof.
  unfold env_value, spawn_env. case_decide as Hr; [subst; by rewrite lookup_insert_eq|].
  rewrite lookup_insert_ne by done. case_decide; [subst; by rewrite lookup_insert_eq|].
  by rewrite lookup_insert_ne by done.
Qed.

(** The fields the child's configuration takes from the spawn. *)
Definition spawned_field (id root section name : string) : option string :=
  if decide ((section, name) = ("nmb", "sandbox_id")) then Some id
  else if decide ((section, name) = ("coding", "workspace_root")) then Some root
  else None.

Lemma env_for_other t env id root sec f :
  Forall (fun e => e.1 ≠ "NEMOCLAW_WORKSPACE_ROOT" /\ e.1 ≠ "NEMOCLAW_SANDBOX_ID") t ->
  env_for t (spawn_env env id root) sec f = env_for t env sec f.
Proof.
  induction t as [|e t IH]; intros Ht; [done|]. apply Forall_cons_iff in Ht as [[H1 H2] Ht].
  cbn [env_for]. rewrite IH by done. rewrite spawn_env_value.
  rewrite (decide_False (P := e.1 = "NEMOCLAW_WORKSPACE_ROOT")) by done.
  by rewrite (decide_False (P := e.1 = "NEMOCLAW_SANDBOX_ID")) by done.
Qed.

Lemma override_spawned env id root sec f :
  str_truthy id = true -> str_truthy root = true ->
  env_override (spawn_env env id root) sec f =
  match spawned_field id root sec f with Some v => Some v | None => env_override env sec f end.
Proof.
  intros Hid Hroot. unfold env_override. rewrite !env_for_app, (env_for_other SECRETS).
  2: { apply (bool_decide_unpack _); vm_compute; exact I. }
  unfold RUNTIME, spawned_field. cbn [env_for fst snd]. rewrite !spawn_env_value, Hid, Hroot.
  repeat case_decide; simplify_eq; done.
Qed.

Lemma spawned_not_followed id root sec f : is_Some (spawned_field id root sec f) -> follows sec f = None.
Proof. unfold spawned_field, follows. intros [v Hv]. repeat case_decide; simplify_eq; done. Qed.

Lemma followed_not_spawned id root sec f source :
  follows sec f = Some source ->
  spawned_field id root sec f = None /\ spawned_field id root source f = None.
Proof.
  unfold spawned_field, follows. case_decide as Hs; [subst sec|done]. unfold SHARED, List.find. cbn [fst snd].
  destruct (String.eqb_spec "model" f) as [<-|];
    [|destruct (String.eqb_spec "temperature" f) as [<-|];
      [|destruct (String.eqb_spec "max_tokens" f) as [<-|]; [|done]]];
    intros [= <-]; done.
Qed.

(** Whatever the parent's environment and the overlay say, the configuration
    the child loads has the identity and the workspace it was spawned for;
    every other value is the one the parent's environment gives. *)
Lemma child_is_configured safe_load files env path id root c ws :
  str_truthy id = true -> str_truthy root = true ->
  create_coding_agent_config safe_load files (spawn_env env id root) path = inr (c, ws) ->
  field "nmb" "sandbox_id" c = Some (JStr id) /\ field "coding" "workspace_root" c = Some (JStr root) /\
  exists o, overlay_of safe_load files env path = inr o /\
    forall sec f, spawned_field id root sec f = None -> field sec f c = field sec f (assembled env o).
Proof.
  intros Hid Hroot. unfold create_coding_agent_config. rewrite load_eq.
  assert (Hov : overlay_of safe_load files (spawn_env env id root) path = overlay_of safe_load files env path).
  { unfold overlay_of, _resolve_yaml_path. rewrite spawn_env_value.
    rewrite (decide_False (P := "NEMOCLAW_CONFIG_PATH" = "NEMOCLAW_WORKSPACE_ROOT")) by done.
    by rewrite (decide_False (P := "NEMOCLAW_CONFIG_PATH" = "NEMOCLAW_SANDBOX_ID")) by done. }
  rewrite Hov. destruct (overlay_of safe_load files env path) as [e|o]; [done|].
  remember (assembled (spawn_env env id root) o) as a eqn:Ha.
  generalize (apply_overlay o app_defaults).2. intros ws0.
  destruct (missing_values false a); [|done]. intros Hl. injection Hl as <- _. subst a.
  assert (Hset : forall sec f v d, spawned_field id root sec f = Some v -> field sec f app_defaults = Some d ->
            field sec f (assembled (spawn_env env id root) o) = Some (JStr v)).
  { intros sec f v d Hv Hd. rewrite assembled_get, Hd. cbn [mbind option_bind]. unfold final_value, layered.
    rewrite (spawned_not_followed id root) by (rewrite Hv; eauto).
    by rewrite override_spawned, Hv by done. }
  split_and!.
  - eapply Hset; [done|]. vm_compute. reflexivity.
  - eapply Hset; [done|]. vm_compute. reflexivity.
  - exists o. split; [done|]. intros sec f Hn. rewrite !assembled_get.
    destruct (field sec f app_defaults) as [d|]; [|done]. cbn [mbind option_bind]. f_equal.
    assert (Hl : forall s d, spawned_field id root s f = None ->
              layered (spawn_env env id root) o s f d = layered env o s f d).
    { intros s d' Hs. unfold layered. by rewrite override_spawned, Hs by done. }
    unfold final_value. destruct (follows sec f) as [source|] eqn:Hf; [|by apply Hl].
    destruct (followed_not_spawned id root _ _ _ Hf) as [H1 H2]. by rewrite !Hl.
Qed.

(** * Logging and context *)

(** ** Log lines *)

(** A [LogRecord]: what [logging] itself stores, as far as it is read, and the
    attributes the caller added, in order. *)
Record LogRecord := {
  lr_created : string;
  lr_levelname : string;
  lr_name : string;
  lr_message : string;
  lr_extra : list (string * json);
  lr_exception : option string
}.

(** [_MergingAdapter.process]: the [extra] that is passed on. *)
Definition process (own : list (string * json)) (caller : option (list (string * json)))
  : list (string * json) :=
  fold_left (fun extra kv => obj_set kv.1 kv.2 extra) (default [] caller) own.

(** [get_logger]: the name of the logger and the adapter's fields. *)
Definition get_logger (component : string) : string * list (string * json) :=
  ("nemoclaw." +:+ component, [("component", JStr component)]).

Section format.
(** [_BUILTIN_ATTRS], the attributes every record has. *)
Context (_BUILTIN_ATTRS : list string).

Definition is_builtin (k : string) : bool := existsb (String.eqb k) _BUILTIN_ATTRS.

(** [logging]'s own check of [extra]: the names it refuses. *)
Definition refused_extra (k : string) : bool :=
  String.eqb k "message" || String.eqb k "asctime" || is_builtin k.

(** A call on a logger: the record, or the [KeyError] of [makeRecord]. *)
Definition makeRecord (created levelname name message : string) (extra : list (string * json))
  (exc : option string) : string + LogRecord :=
  match List.find (fun kv => refused_extra kv.1) extra with
  | Some kv => inl ("Attempt to overwrite " +:+ json_repr (JStr kv.1) +:+ " in LogRecord")
  | None =>
      inr {| lr_created := created; lr_levelname := levelname; lr_name := name; lr_message := message;
             lr_extra := extra; lr_exception := exc |}
  end.

Definition base_entry (r : LogRecord) : list (string * json) :=
  [("timestamp", JStr (lr_created r)); ("level", JStr (lr_levelname r));
   ("component", default (JStr (lr_name r)) (obj_get "component" (lr_extra r)));
   ("request_id", default JNull (obj_get "request_id" (lr_extra r)));
   ("message", JStr (lr_message r))].

Definition add_field (entry : list (string * json)) (kv : string * json) : list (string * json) :=
  match obj_get kv.1 entry with
  | Some _ => entry
  | None => if is_builtin kv.1 then entry else entry ++ [kv]
  end.

(** [format], before it is written with [json.dumps]. *)
Definition log_entry (r : LogRecord) : list (string * json) :=
  let entry := fold_left add_field (lr_extra r) (base_entry r) in
  match lr_exception r with
  | Some text => obj_set "exception" (JStr text) entry
  | None => entry
  end.

Definition format (r : LogRecord) : string := json_dumps (JObj (log_entry r)).

(** [logger.info(msg, extra=caller)] on the adapter of a component. *)
Definition log (component created levelname message : string) (caller : option (list (string * json)))
  (exc : option string) : string + string :=
  let '(name, own) := get_logger component in
  (r <-- makeRecord created levelname name message (process own caller) exc;; inr (format r))%result.
End format.

(** ** [setup_logging] *)

Inductive Handler := Stdout | File_ (path : string).

Record RootLogger := { rl_level : Z; rl_handlers : list Handler }.

(** The level of a name, [INFO] for an unknown one; the names of [logging]
    that are no levels are left out. *)
Definition level_of (upper : string) : Z :=
  match obj_get upper
    [("CRITICAL", JInt 50); ("FATAL", JInt 50); ("ERROR", JInt 40); ("WARNING", JInt 30); ("WARN", JInt 30);
     ("INFO", JInt 20); ("DEBUG", JInt 10); ("NOTSET", JInt 0)] with
  | Some (JInt z) => z
  | _ => 20
  end.

(** [opened] is what opening the file raises; the handlers are replaced, not
    added. *)
Definition setup_logging (upper : string -> string) (level : string) (log_file : option string)
  (opened : option string) (r : RootLogger) : (string + unit) * RootLogger :=
  let r := {| rl_level := level_of (upper level); rl_handlers := [Stdout] |} in
  match log_file with
  | Some path =>
      if str_truthy path then
        match opened with
        | Some exc => (inl exc, r)
        | None => (inr tt, {| rl_level := rl_level r; rl_handlers := rl_handlers r ++ [File_ path] |})
        end
      else (inr tt, r)
  | None => (inr tt, r)
  end.

(** ** [Timer], on a clock in milliseconds *)

Definition timer_enter (now : Z) : Z := now.
Definition timer_ms (now start : Z) : Z := now - start.

(** ** The request context *)

(** The contexts of the tasks by identity: a task made inside another starts
    with a copy of its context. *)
Definition Contexts : Type := gmap nat (option RequestContext).

Definition set_request_context (task : nat) (c : option RequestContext) (s : Contexts) : Contexts :=
  <[task := c]> s.

Definition current_request_context (task : nat) (s : Contexts) : option RequestContext :=
  match s !! task with Some c => c | None => None end.

Definition create_task (parent child : nat) (s : Contexts) : Contexts :=
  <[child := current_request_context parent s]> s.

(** ** Theorems *)

(** The merged fields: the caller's over the adapter's. *)
Lemma process_get own caller k :
  NoDup caller.*1 ->
  obj_get k (process own (Some caller)) = match obj_get k caller with Some v => Some v | None => obj_get k own end.
Proof.
  unfold process. simpl. revert own. induction caller as [|[k' v'] caller IH]; intros own Hn; simpl; [done|].
  simpl in Hn. apply list.NoDup_cons in Hn as [Hk Hn]. rewrite IH by done.
  destruct (String.eqb_spec k k') as [->|Hne].
  - rewrite obj_get_set. destruct (obj_get k' caller) eqn:Hg; [|done]. exfalso. apply Hk.
    clear -Hg. induction caller as [|[k v] caller IH]; simpl in *; [done|].
    destruct (String.eqb_spec k' k) as [->|]; [apply list_elem_of_here|apply list_elem_of_further; by apply IH].
  - by rewrite obj_get_set_ne.
Qed.

Section theorems.
Context (builtin : list string).

Lemma obj_get_app_one k entry kv :
  obj_get k (entry ++ [kv]) =
  match obj_get k entry with Some v => Some v | None => if String.eqb k kv.1 then Some kv.2 else None end.
Proof.
  induction entry as [|[k' v'] entry IH]; simpl; [by destruct kv|]. by destruct (String.eqb k k').
Qed.

Lemma fields_get extra entry k :
  obj_get k (fold_left (add_field builtin) extra entry) =
  match obj_get k entry with
  | Some v => Some v
  | None => if is_builtin builtin k then None else obj_get k extra
  end.
Proof.
  revert entry. induction extra as [|[k' v'] extra IH]; intros entry; simpl.
  { destruct (obj_get k entry); [done|]. by destruct (is_builtin builtin k). }
  rewrite IH. unfold add_field. simpl.
  destruct (obj_get k' entry) eqn:Hk'; [|destruct (is_builtin builtin k') eqn:Hb; [|rewrite obj_get_app_one; simpl]].
  - destruct (obj_get k entry) eqn:Hk; [done|]. destruct (String.eqb_spec k k') as [->|]; [congruence|done].
  - destruct (obj_get k entry); [done|]. destruct (String.eqb_spec k k') as [->|]; [by rewrite Hb|done].
  - destruct (obj_get k entry) as [v|] eqn:Hk; [done|].
    destruct (String.eqb_spec k k') as [->|]; [by rewrite Hb|done].
Qed.

Definition reserved (k : string) : bool := existsb (String.eqb k) ["timestamp"; "level"; "message"].

(** Every field the caller passed is in the line with its value, the names of
    the line itself and a field [exception] beside an exception apart; the
    component is the caller's when it passes one. *)
Lemma fields_are_logged component created level message caller exc line :
  NoDup caller.*1 -> is_builtin builtin "component" = false ->
  log builtin component created level message (Some caller) exc = inr line ->
  exists entry, line = json_dumps (JObj entry) /\
    (forall k v, obj_get k caller = Some v -> reserved k = false -> (k = "exception" -> exc = None) ->
       obj_get k entry = Some v) /\
    obj_get "component" entry = Some (default (JStr component) (obj_get "component" caller)) /\
    obj_get "message" entry = Some (JStr message) /\
    obj_get "level" entry = Some (JStr level).
Proof.
  intros Hn Hc. unfold log, get_logger, makeRecord.
  destruct (List.find _ _) as [kv|] eqn:Hf; [done|]. simpl. intros [= <-].
  set (r := {| lr_created := created |}). exists (log_entry builtin r). split; [done|].
  assert (Hex : forall k, (k = "exception" -> exc = None) ->
    obj_get k (log_entry builtin r) = obj_get k (fold_left (add_field builtin) (lr_extra r) (base_entry r))).
  { intros k Hk. unfold log_entry. simpl. destruct exc as [text|]; [|done].
    rewrite obj_get_set_ne; [done|]. intros ->. by discriminate Hk. }
  assert (Hget : forall k, obj_get k (process [("component", JStr component)] (Some caller)) =
    match obj_get k caller with Some v => Some v | None => obj_get k [("component", JStr component)] end).
  { intros k. by apply process_get. }
  assert (Hcomp : obj_get "component" (lr_extra r) = Some (default (JStr component) (obj_get "component" caller))).
  { simpl. rewrite Hget. by destruct (obj_get "component" caller). }
  split_and!.
  - intros k v Hk Hres Hexc. rewrite Hex, fields_get by done.
    assert (Hkv : obj_get k (lr_extra r) = Some v) by (simpl; by rewrite Hget, Hk).
    assert (Hb : is_builtin builtin k = false).
    { pose proof (List.find_none _ _ Hf) as Hnone.
      assert (Hin : In (k, v) (lr_extra r)).
      { clear -Hkv. revert Hkv. generalize (lr_extra r). intros l. induction l as [|[k' v'] l IH]; simpl; [done|].
        destruct (String.eqb_spec k k') as [->|]; [intros [= ->]; by left|]. intros H. right. by apply IH. }
      specialize (Hnone _ Hin). unfold refused_extra in Hnone. simpl in Hnone.
      by apply orb_false_iff in Hnone as [_ ?]. }
    unfold reserved in Hres. simpl in Hres. rewrite !orb_false_iff in Hres. destruct Hres as (H1 & H2 & H3 & _).
    unfold base_entry. cbn [obj_get]. rewrite H1, H2, H3, Hb, Hkv.
    destruct (String.eqb_spec k "component") as [->|].
    { etrans; [|exact Hkv]. by destruct (obj_get "component" (lr_extra r)). }
    destruct (String.eqb_spec k "request_id") as [->|]; [|done].
    etrans; [|exact Hkv]. by destruct (obj_get "request_id" (lr_extra r)).
  - rewrite Hex, fields_get by done. etrans; [|exact Hcomp].
    unfold base_entry. simpl. unfold process. simpl. by destruct (obj_get _ _).
  - by rewrite Hex, fields_get.
  - by rewrite Hex, fields_get.
Qed.
End theorems.

(** What one task binds no other sees; a task made later starts with what its
    parent had, and keeps it whatever the parent binds then. *)
Lemma contexts_are_isolated s parent child c c' :
  parent ≠ child ->
  current_request_context parent (set_request_context parent c s) = c /\
  current_request_context child (set_request_context parent c s) = current_request_context child s /\
  current_request_context child
    (set_request_context parent c' (create_task parent child (set_request_context parent c s))) = c /\
  current_request_context parent
    (set_request_context child c' (create_task parent child (set_request_context parent c s))) = c.
Proof.
  intros Hne. unfold create_task, current_request_context, set_request_context, Contexts in *.
  split_and!; rewrite !lookup_insert; repeat case_decide; congruence.
Qed.

Example one_line :
  log ["name"; "args"] "slack" "2026-05-03" "INFO" "posted" (Some [("ts", JStr "1.2"); ("component", JStr "c")]) None =
  inr (json_dumps (JObj [("timestamp", JStr "2026-05-03"); ("level", JStr "INFO"); ("component", JStr "c");
                         ("request_id", JNull); ("message", JStr "posted"); ("ts", JStr "1.2")])).
Proof. vm_compute. reflexivity. Qed.
