(* ===== verification/Service.v ===== *)
(** * Service

    What the service tools ([tools/gitlab.py], [tools/jira.py],
    [tools/gerrit.py], [tools/confluence.py], [tools/slack_search.py],
    [tools/web_search.py]) share: HTTP requests and the computations that
    send them.  Outside is the HTTP client. *)

From S2P Require Import Prelude Json Urls.

(** ** Requests *)

(** A request of [httpx]: [hr_auth] are its credentials, [hr_params] the
    query parameters and [hr_json] the JSON body. *)
Record HttpRequest := {
  hr_method : string;
  hr_url : string;
  hr_auth : list string;
  hr_params : option json;
  hr_json : option json
}.

(** An exception of the client ([http_error]: an [httpx.HTTPError]), or a
    response: status, text, content type and what [response.json()] gives. *)
Inductive HttpReply :=
| Failed (http_error : bool) (exc : string)
| Replied (status : Z) (text content_type : string) (body : string + json).

(** A computation that sends requests and may raise. *)
Inductive Call (A : Type) :=
| Ret (x : A)
| Raise (exc : string)
| Send (r : HttpRequest) (k : HttpReply -> Call A).
Arguments Ret {A} x.
Arguments Raise {A} exc.
Arguments Send {A} r k.

Fixpoint call_bind {A B} (f : A -> Call B) (m : Call A) : Call B :=
  match m with
  | Ret x => f x
  | Raise exc => Raise exc
  | Send r k => Send r (fun reply => call_bind f (k reply))
  end.

#[export] Instance call_mret : MRet Call := fun A x => Ret x.
#[export] Instance call_mbind : MBind Call := fun A B f m => call_bind f m.

(** A result of Python that may raise. *)
Definition lift {A} (x : string + A) : Call A :=
  match x with inl exc => Raise exc | inr x => Ret x end.

(** How the outside answers a request. *)
Class Service (W : Type) := request : HttpRequest -> W -> HttpReply * W.

Fixpoint run {W A} `{Service W} (m : Call A) (w : W) : (string + A) * W :=
  match m with
  | Ret x => (inr x, w)
  | Raise exc => (inl exc, w)
  | Send r k => let '(reply, w) := request r w in run (k reply) w
  end.

(** Every request the computation can send satisfies [P], whatever the
    answers. *)
Fixpoint sends_only {A} (P : HttpRequest -> Prop) (m : Call A) : Prop :=
  match m with
  | Send r k => P r /\ forall reply, sends_only P (k reply)
  | _ => True
  end.

Lemma sends_bind {A B} (P : HttpRequest -> Prop) (f : A -> Call B) (m : Call A) :
  sends_only P m -> (forall x, sends_only P (f x)) -> sends_only P (m ≫= f).
Proof.
  change (m ≫= f) with (call_bind f m).
  induction m as [x|exc|r k IH]; cbn; auto. intros [Hr Hk] Hf. split; auto.
Qed.

Lemma sends_weaken {A} (P Q : HttpRequest -> Prop) (m : Call A) :
  (forall r, P r -> Q r) -> sends_only P m -> sends_only Q m.
Proof. intros HPQ. induction m as [x|exc|r k IH]; cbn; auto. intros [Hr Hk]. auto. Qed.

Lemma sends_lift {A} P (x : string + A) : sends_only P (lift x).
Proof. by destruct x. Qed.

(** What a run leaves is related to what it found when every request it sends
    keeps the relation. *)
Lemma run_sends {W A} `{Service W} (P : HttpRequest -> Prop) (R : W -> W -> Prop) (m : Call A) w :
  Reflexive R -> Transitive R ->
  (forall r w, P r -> R w (request r w).2) -> sends_only P m -> R w (run m w).2.
Proof.
  intros Hr Ht HP. revert w. induction m as [x|exc|r k IH]; intros w; cbn; [done|done|].
  intros [Hp Hk]. specialize (HP r w Hp). destruct (request r w) as [reply w']; cbn in *.
  etransitivity; [done|]. by apply IH.
Qed.

(** ** Replies *)

(** [{"error": ..., "status_code": ..., "body": ...}] *)
Definition error_reply (service : string) (status : Z) (text : string) (max_chars : Z) : json :=
  JObj [("error", JStr (service +:+ " API returned " +:+ show_Z status));
        ("status_code", JInt status); ("body", JStr (py_prefix max_chars text))].

(** [_format] *)
Definition _format (data : json) : string := dumps_indent 0 data.
