(* ===== verification/GitLab.v ===== *)
(** * GitLab

    The GitLab client and its tools ([tools/gitlab.py]). *)

From S2P Require Import Prelude Json AgentTypes Registry Urls Tools Service.

Definition _ERROR_BODY_MAX_CHARS : Z := 500.
Definition _HTTP_ERROR_THRESHOLD : Z := 400.
Definition _DEFAULT_SEARCH_LIMIT : Z := 10.
Definition _DEFAULT_PER_PAGE : Z := 20.
Definition _TOOLSET : string := "gitlab".

(** [GitLabClient], without the pooled HTTP client. *)
Record GitLabClient := { base_url : string; token : string }.

(** [base_url.rstrip("/").rstrip("/api/v4")]: the second strips any of these
    characters. *)
Definition new_client (url tok : string) : GitLabClient :=
  {| base_url := rstrip_chars "/api/v4" (rstrip_chars "/" url); token := tok |}.

Definition configured (c : GitLabClient) : bool :=
  str_truthy (base_url c) && str_truthy (token c).

Section client.
Context (type_error : json -> string) (client : GitLabClient).

(** [quote(unquote(value), safe="")] *)
Definition _encode_path (value : json) : string + string :=
  (s <-- py_unquote type_error value;; inr (quote s))%result.

Definition reply_value (reply : HttpReply) : Call json :=
  match reply with
  | Failed _ exc => Raise exc
  | Replied status text _ body =>
      if (_HTTP_ERROR_THRESHOLD <=? status)%Z then
        Ret (error_reply "GitLab" status text _ERROR_BODY_MAX_CHARS)
      else lift body
  end.

Definition unconfigured : json :=
  JObj [("error", JStr "GitLab not configured. Set GITLAB_TOKEN.")].

Definition http (method endpoint : string) (params body : option json) : HttpRequest :=
  {| hr_method := method; hr_url := base_url client +:+ "/api/v4" +:+ endpoint;
     hr_auth := [token client]; hr_params := params; hr_json := body |}.

Definition _request (method endpoint : string) (params body : option json) : Call json :=
  if negb (configured client) then Ret unconfigured
  else Send (http method endpoint params body) reply_value.

Definition _request_text (endpoint : string) : Call string :=
  if negb (configured client) then Ret (json_dumps unconfigured)
  else
    Send (http "GET" endpoint None None) (fun reply =>
      match reply with
      | Failed _ exc => Raise exc
      | Replied status text _ _ =>
          if (_HTTP_ERROR_THRESHOLD <=? status)%Z then
            Ret (json_dumps (error_reply "GitLab" status text _ERROR_BODY_MAX_CHARS))
          else Ret text
      end).

(** *** Operations *)

Definition get_job_log (project_id job_id : json) : Call string :=
  encoded ← lift (_encode_path project_id);
  _request_text ("/projects/" +:+ encoded +:+ "/jobs/" +:+ json_str job_id +:+ "/trace").

(** The fields are the body. *)
Definition update_merge_request (project_id mr_iid : json) (fields : list (string * json))
  : Call json :=
  encoded ← lift (_encode_path project_id);
  _request "PUT" ("/projects/" +:+ encoded +:+ "/merge_requests/" +:+ json_str mr_iid) None
    (Some (JObj fields)).

Definition search_projects (query limit : json) : Call json :=
  _request "GET" "/projects" (Some (JObj [("search", query); ("per_page", limit)])) None.

Definition get_project (project_id : json) : Call json :=
  encoded ← lift (_encode_path project_id);
  _request "GET" ("/projects/" +:+ encoded) None None.

Definition list_merge_requests (project_id state limit : json) : Call json :=
  encoded ← lift (_encode_path project_id);
  _request "GET" ("/projects/" +:+ encoded +:+ "/merge_requests")
    (Some (JObj [("state", state); ("per_page", limit)])) None.

Definition get_merge_request (project_id mr_iid : json) : Call json :=
  encoded ← lift (_encode_path project_id);
  _request "GET" ("/projects/" +:+ encoded +:+ "/merge_requests/" +:+ json_str mr_iid) None None.

Definition get_merge_request_changes (project_id mr_iid : json) : Call json :=
  encoded ← lift (_encode_path project_id);
  _request "GET" ("/projects/" +:+ encoded +:+ "/merge_requests/" +:+ json_str mr_iid +:+
    "/diffs") None None.

Definition list_pipelines (project_id limit : json) : Call json :=
  encoded ← lift (_encode_path project_id);
  _request "GET" ("/projects/" +:+ encoded +:+ "/pipelines") (Some (JObj [("per_page", limit)]))
    None.

Definition get_pipeline (project_id pipeline_id : json) : Call json :=
  encoded ← lift (_encode_path project_id);
  _request "GET" ("/projects/" +:+ encoded +:+ "/pipelines/" +:+ json_str pipeline_id) None None.

Definition list_pipeline_jobs (project_id pipeline_id : json) : Call json :=
  encoded ← lift (_encode_path project_id);
  _request "GET" ("/projects/" +:+ encoded +:+ "/pipelines/" +:+ json_str pipeline_id +:+ "/jobs")
    None None.

Definition get_file (project_id file_path ref : json) : Call json :=
  proj ← lift (_encode_path project_id);
  fpath ← lift (_encode_path file_path);
  _request "GET" ("/projects/" +:+ proj +:+ "/repository/files/" +:+ fpath)
    (Some (JObj [("ref", ref)])) None.

Definition list_mr_notes (project_id mr_iid sort limit : json) : Call json :=
  encoded ← lift (_encode_path project_id);
  _request "GET" ("/projects/" +:+ encoded +:+ "/merge_requests/" +:+ json_str mr_iid +:+
    "/notes") (Some (JObj [("sort", sort); ("per_page", limit)])) None.

Definition list_mr_discussions (project_id mr_iid limit : json) : Call json :=
  encoded ← lift (_encode_path project_id);
  _request "GET" ("/projects/" +:+ encoded +:+ "/merge_requests/" +:+ json_str mr_iid +:+
    "/discussions") (Some (JObj [("per_page", limit)])) None.

Definition get_mr_approvals (project_id mr_iid : json) : Call json :=
  encoded ← lift (_encode_path project_id);
  _request "GET" ("/projects/" +:+ encoded +:+ "/merge_requests/" +:+ json_str mr_iid +:+
    "/approvals") None None.

Definition list_branches (project_id search limit : json) : Call json :=
  encoded ← lift (_encode_path project_id);
  let params := [("per_page", limit)] in
  let params := when_truthy search ("search", search) params in
  _request "GET" ("/projects/" +:+ encoded +:+ "/repository/branches") (Some (JObj params)) None.

Definition list_commits (project_id ref limit : json) : Call json :=
  encoded ← lift (_encode_path project_id);
  _request "GET" ("/projects/" +:+ encoded +:+ "/repository/commits")
    (Some (JObj [("ref_name", ref); ("per_page", limit)])) None.

Definition get_commit (project_id sha : json) : Call json :=
  encoded ← lift (_encode_path project_id);
  _request "GET" ("/projects/" +:+ encoded +:+ "/repository/commits/" +:+ json_str sha) None None.

Definition compare (project_id from_ref to_ref : json) : Call json :=
  encoded ← lift (_encode_path project_id);
  _request "GET" ("/projects/" +:+ encoded +:+ "/repository/compare")
    (Some (JObj [("from", from_ref); ("to", to_ref)])) None.

Definition get_current_user : Call json :=
  _request "GET" "/user" None None.

Definition create_merge_request_note (project_id mr_iid body : json) : Call json :=
  encoded ← lift (_encode_path project_id);
  _request "POST" ("/projects/" +:+ encoded +:+ "/merge_requests/" +:+ json_str mr_iid +:+
    "/notes") None (Some (JObj [("body", body)])).

Definition update_merge_request_note (project_id mr_iid note_id body : json) : Call json :=
  encoded ← lift (_encode_path project_id);
  _request "PUT" ("/projects/" +:+ encoded +:+ "/merge_requests/" +:+ json_str mr_iid +:+
    "/notes/" +:+ json_str note_id) None (Some (JObj [("body", body)])).

Definition reply_to_discussion (project_id mr_iid discussion_id body : json) : Call json :=
  encoded ← lift (_encode_path project_id);
  _request "POST" ("/projects/" +:+ encoded +:+ "/merge_requests/" +:+ json_str mr_iid +:+
    "/discussions/" +:+ json_str discussion_id +:+ "/notes") None (Some (JObj [("body", body)])).

Definition resolve_discussion (project_id mr_iid discussion_id resolved : json) : Call json :=
  encoded ← lift (_encode_path project_id);
  _request "PUT" ("/projects/" +:+ encoded +:+ "/merge_requests/" +:+ json_str mr_iid +:+
    "/discussions/" +:+ json_str discussion_id) None (Some (JObj [("resolved", resolved)])).

Definition approve_merge_request (project_id mr_iid : json) : Call json :=
  encoded ← lift (_encode_path project_id);
  _request "POST" ("/projects/" +:+ encoded +:+ "/merge_requests/" +:+ json_str mr_iid +:+
    "/approve") None None.

Definition unapprove_merge_request (project_id mr_iid : json) : Call json :=
  encoded ← lift (_encode_path project_id);
  _request "POST" ("/projects/" +:+ encoded +:+ "/merge_requests/" +:+ json_str mr_iid +:+
    "/unapprove") None None.

Definition merge_merge_request (project_id mr_iid merge_commit_message squash
  should_remove_source_branch : json) : Call json :=
  encoded ← lift (_encode_path project_id);
  let payload := [] in
  let payload := when_truthy merge_commit_message ("merge_commit_message", merge_commit_message)
    payload in
  let payload := when_truthy squash ("squash", JBool true) payload in
  let payload := when_truthy should_remove_source_branch
    ("should_remove_source_branch", JBool true) payload in
  _request "PUT" ("/projects/" +:+ encoded +:+ "/merge_requests/" +:+ json_str mr_iid +:+
    "/merge") None (Some (JObj payload)).

Definition rebase_merge_request (project_id mr_iid : json) : Call json :=
  encoded ← lift (_encode_path project_id);
  _request "PUT" ("/projects/" +:+ encoded +:+ "/merge_requests/" +:+ json_str mr_iid +:+
    "/rebase") None None.

Definition create_merge_request (project_id source_branch target_branch title description : json)
  : Call json :=
  encoded ← lift (_encode_path project_id);
  let payload := [("source_branch", source_branch); ("target_branch", target_branch);
    ("title", title)] in
  let payload := when_truthy description ("description", description) payload in
  _request "POST" ("/projects/" +:+ encoded +:+ "/merge_requests") None (Some (JObj payload)).

(** *** Tools *)

(** [[int(i) for i in v.split(",")]] when [v] is given *)
Definition id_list (v : json) : string + json :=
  if json_truthy v then
    (l <-- split_commas type_error v;; ns <-- py_ints l;; inr (JArr (map JInt ns)))%result
  else inr JNull.

Definition _make_gitlab_search_projects : ApiTool (Call string) :=
  {| t_name := "gitlab_search_projects";
     t_description := "Search GitLab projects by name or path.";
     t_properties := [("query", property_ "string" "Search query");
                    ("limit", property_d "integer" "Max results" (JInt 10))];
     t_required := Some ["query"];
     t_display_name := "Searching GitLab projects";
     t_read_only := true; t_concurrency_safe := true; t_core := false;
     t_handler :=
       Arg "query" (fun query => Opt "limit" (JInt _DEFAULT_SEARCH_LIMIT) (fun limit =>
       Do (data ← search_projects query limit; Ret (_format data)))) |}.

Definition _make_gitlab_get_project : ApiTool (Call string) :=
  {| t_name := "gitlab_get_project";
     t_description := "Get a GitLab project by numeric ID or path (e.g. 'group/project').";
     t_properties := [("project_id", property_ "string"
       "Project ID or path (e.g. 'dpickem/nv_tools')")];
     t_required := Some ["project_id"];
     t_display_name := "Getting GitLab project";
     t_read_only := true; t_concurrency_safe := true; t_core := false;
     t_handler :=
       Arg "project_id" (fun project_id => Do (data ← get_project project_id; Ret (_format data)))
         |}.

Definition _make_gitlab_list_merge_requests : ApiTool (Call string) :=
  {| t_name := "gitlab_list_merge_requests";
     t_description := "List merge requests for a GitLab project. Filterable by state.";
     t_properties := [("project_id", property_ "string" "Project ID or path");
                    ("state", property_d "string" "MR state filter: opened, closed, merged, all"
                      (JStr "opened"));
                    ("limit", property_d "integer" "Max results" (JInt 20))];
     t_required := Some ["project_id"];
     t_display_name := "Listing merge requests";
     t_read_only := true; t_concurrency_safe := true; t_core := false;
     t_handler :=
       Arg "project_id" (fun project_id => Opt "state" (JStr "opened") (fun state =>
       Opt "limit" (JInt _DEFAULT_PER_PAGE) (fun limit =>
       Do (data ← list_merge_requests project_id state limit; Ret (_format data))))) |}.

Definition _make_gitlab_get_merge_request : ApiTool (Call string) :=
  {| t_name := "gitlab_get_merge_request";
     t_description := "Get full details of a GitLab merge request by IID.";
     t_properties := [("project_id", property_ "string" "Project ID or path");
                    ("mr_iid", property_ "integer" "Merge request IID")];
     t_required := Some ["project_id"; "mr_iid"];
     t_display_name := "Getting merge request";
     t_read_only := true; t_concurrency_safe := true; t_core := false;
     t_handler :=
       Arg "project_id" (fun project_id => Arg "mr_iid" (fun mr_iid =>
       Do (data ← get_merge_request project_id mr_iid; Ret (_format data)))) |}.

Definition _make_gitlab_get_merge_request_changes : ApiTool (Call string) :=
  {| t_name := "gitlab_get_merge_request_changes";
     t_description := "Get the diff/changes of a GitLab merge request.";
     t_properties := [("project_id", property_ "string" "Project ID or path");
                    ("mr_iid", property_ "integer" "Merge request IID")];
     t_required := Some ["project_id"; "mr_iid"];
     t_display_name := "Getting MR changes";
     t_read_only := true; t_concurrency_safe := true; t_core := false;
     t_handler :=
       Arg "project_id" (fun project_id => Arg "mr_iid" (fun mr_iid =>
       Do (data ← get_merge_request_changes project_id mr_iid; Ret (_format data)))) |}.

Definition _make_gitlab_list_pipelines : ApiTool (Call string) :=
  {| t_name := "gitlab_list_pipelines";
     t_description := "List CI/CD pipelines for a GitLab project.";
     t_properties := [("project_id", property_ "string" "Project ID or path");
                    ("limit", property_d "integer" "Max results" (JInt 20))];
     t_required := Some ["project_id"];
     t_display_name := "Listing pipelines";
     t_read_only := true; t_concurrency_safe := true; t_core := false;
     t_handler :=
       Arg "project_id" (fun project_id => Opt "limit" (JInt _DEFAULT_PER_PAGE) (fun limit =>
       Do (data ← list_pipelines project_id limit; Ret (_format data)))) |}.

Definition _make_gitlab_get_pipeline : ApiTool (Call string) :=
  {| t_name := "gitlab_get_pipeline";
     t_description := "Get details of a specific CI/CD pipeline.";
     t_properties := [("project_id", property_ "string" "Project ID or path");
                    ("pipeline_id", property_ "integer" "Pipeline ID")];
     t_required := Some ["project_id"; "pipeline_id"];
     t_display_name := "Getting pipeline details";
     t_read_only := true; t_concurrency_safe := true; t_core := false;
     t_handler :=
       Arg "project_id" (fun project_id => Arg "pipeline_id" (fun pipeline_id =>
       Do (data ← get_pipeline project_id pipeline_id; Ret (_format data)))) |}.

Definition _make_gitlab_get_job_log : ApiTool (Call string) :=
  {| t_name := "gitlab_get_job_log";
     t_description := "Get the log output of a CI/CD job. Returns raw text.";
     t_properties := [("project_id", property_ "string" "Project ID or path");
                    ("job_id", property_ "integer" "Job ID")];
     t_required := Some ["project_id"; "job_id"];
     t_display_name := "Getting job log";
     t_read_only := true; t_concurrency_safe := true; t_core := false;
     t_handler :=
       Arg "project_id" (fun project_id => Arg "job_id" (fun job_id =>
       Do (get_job_log project_id job_id))) |}.

Definition _make_gitlab_list_pipeline_jobs : ApiTool (Call string) :=
  {| t_name := "gitlab_list_pipeline_jobs";
     t_description := "List jobs for a CI/CD pipeline.";
     t_properties := [("project_id", property_ "string" "Project ID or path");
                    ("pipeline_id", property_ "integer" "Pipeline ID")];
     t_required := Some ["project_id"; "pipeline_id"];
     t_display_name := "Listing pipeline jobs";
     t_read_only := true; t_concurrency_safe := true; t_core := false;
     t_handler :=
       Arg "project_id" (fun project_id => Arg "pipeline_id" (fun pipeline_id =>
       Do (data ← list_pipeline_jobs project_id pipeline_id; Ret (_format data)))) |}.

Definition _make_gitlab_get_file : ApiTool (Call string) :=
  {| t_name := "gitlab_get_file";
     t_description := "Get a file from a GitLab repository. Returns file metadata and " +:+
       "base64-encoded content. Use for reading config files, READMEs, etc.";
     t_properties := [("project_id", property_ "string" "Project ID or path");
                    ("file_path", property_ "string"
                      "Path to the file in the repo (e.g. 'src/main.py')");
                    ("ref", property_d "string" "Branch, tag, or commit SHA" (JStr "main"))];
     t_required := Some ["project_id"; "file_path"];
     t_display_name := "Getting file from GitLab";
     t_read_only := true; t_concurrency_safe := true; t_core := false;
     t_handler :=
       Arg "project_id" (fun project_id => Arg "file_path" (fun file_path =>
       Opt "ref" (JStr "main") (fun ref =>
       Do (data ← get_file project_id file_path ref; Ret (_format data))))) |}.

Definition _make_gitlab_list_mr_notes : ApiTool (Call string) :=
  {| t_name := "gitlab_list_mr_notes";
     t_description := "List notes (comments) on a merge request. Includes both user " +:+
       "comments and system notes (approvals, status changes).";
     t_properties := [("project_id", property_ "string" "Project ID or path");
                    ("mr_iid", property_ "integer" "Merge request IID");
                    ("sort", property_d "string" "Sort order: asc or desc" (JStr "asc"));
                    ("limit", property_d "integer" "Max results" (JInt 20))];
     t_required := Some ["project_id"; "mr_iid"];
     t_display_name := "Listing MR comments";
     t_read_only := true; t_concurrency_safe := true; t_core := false;
     t_handler :=
       Arg "project_id" (fun project_id => Arg "mr_iid" (fun mr_iid =>
       Opt "sort" (JStr "asc") (fun sort => Opt "limit" (JInt _DEFAULT_PER_PAGE) (fun limit =>
       Do (data ← list_mr_notes project_id mr_iid sort limit; Ret (_format data)))))) |}.

Definition _make_gitlab_list_mr_discussions : ApiTool (Call string) :=
  {| t_name := "gitlab_list_mr_discussions";
     t_description := "List threaded discussions on a merge request. Each discussion " +:+
       "contains one or more notes grouped as a conversation thread, including whether the " +:+
       "thread is resolved.";
     t_properties := [("project_id", property_ "string" "Project ID or path");
                    ("mr_iid", property_ "integer" "Merge request IID");
                    ("limit", property_d "integer" "Max results" (JInt 20))];
     t_required := Some ["project_id"; "mr_iid"];
     t_display_name := "Listing MR discussions";
     t_read_only := true; t_concurrency_safe := true; t_core := false;
     t_handler :=
       Arg "project_id" (fun project_id => Arg "mr_iid" (fun mr_iid =>
       Opt "limit" (JInt _DEFAULT_PER_PAGE) (fun limit =>
       Do (data ← list_mr_discussions project_id mr_iid limit; Ret (_format data))))) |}.

Definition _make_gitlab_get_mr_approvals : ApiTool (Call string) :=
  {| t_name := "gitlab_get_mr_approvals";
     t_description := "Get the approval state of a merge request (who approved, rules, etc.).";
     t_properties := [("project_id", property_ "string" "Project ID or path");
                    ("mr_iid", property_ "integer" "Merge request IID")];
     t_required := Some ["project_id"; "mr_iid"];
     t_display_name := "Getting MR approvals";
     t_read_only := true; t_concurrency_safe := true; t_core := false;
     t_handler :=
       Arg "project_id" (fun project_id => Arg "mr_iid" (fun mr_iid =>
       Do (data ← get_mr_approvals project_id mr_iid; Ret (_format data)))) |}.

Definition _make_gitlab_list_branches : ApiTool (Call string) :=
  {| t_name := "gitlab_list_branches";
     t_description := "List branches in a GitLab project. Optionally filter by name.";
     t_properties := [("project_id", property_ "string" "Project ID or path");
                    ("search", property_d "string" "Filter branches by name substring" (JStr ""));
                    ("limit", property_d "integer" "Max results" (JInt 20))];
     t_required := Some ["project_id"];
     t_display_name := "Listing branches";
     t_read_only := true; t_concurrency_safe := true; t_core := false;
     t_handler :=
       Arg "project_id" (fun project_id => Opt "search" (JStr "") (fun search =>
       Opt "limit" (JInt _DEFAULT_PER_PAGE) (fun limit =>
       Do (data ← list_branches project_id search limit; Ret (_format data))))) |}.

Definition _make_gitlab_list_commits : ApiTool (Call string) :=
  {| t_name := "gitlab_list_commits";
     t_description := "List recent commits on a branch or ref.";
     t_properties := [("project_id", property_ "string" "Project ID or path");
                    ("ref", property_d "string" "Branch name, tag, or commit SHA" (JStr "main"));
                    ("limit", property_d "integer" "Max results" (JInt 20))];
     t_required := Some ["project_id"];
     t_display_name := "Listing commits";
     t_read_only := true; t_concurrency_safe := true; t_core := false;
     t_handler :=
       Arg "project_id" (fun project_id => Opt "ref" (JStr "main") (fun ref =>
       Opt "limit" (JInt _DEFAULT_PER_PAGE) (fun limit =>
       Do (data ← list_commits project_id ref limit; Ret (_format data))))) |}.

Definition _make_gitlab_get_commit : ApiTool (Call string) :=
  {| t_name := "gitlab_get_commit";
     t_description := "Get details of a specific commit (message, author, stats, parent SHAs).";
     t_properties := [("project_id", property_ "string" "Project ID or path");
                    ("sha", property_ "string" "Commit SHA (full or short)")];
     t_required := Some ["project_id"; "sha"];
     t_display_name := "Getting commit details";
     t_read_only := true; t_concurrency_safe := true; t_core := false;
     t_handler :=
       Arg "project_id" (fun project_id => Arg "sha" (fun sha =>
       Do (data ← get_commit project_id sha; Ret (_format data)))) |}.

Definition _make_gitlab_compare : ApiTool (Call string) :=
  {| t_name := "gitlab_compare";
     t_description := "Compare two branches, tags, or commits. Returns the commits between " +:+
       "them and the diff. Useful for understanding what changed between releases.";
     t_properties := [("project_id", property_ "string" "Project ID or path");
                    ("from_ref", property_ "string" "Base ref (branch, tag, or SHA)");
                    ("to_ref", property_ "string" "Head ref (branch, tag, or SHA)")];
     t_required := Some ["project_id"; "from_ref"; "to_ref"];
     t_display_name := "Comparing refs";
     t_read_only := true; t_concurrency_safe := true; t_core := false;
     t_handler :=
       Arg "project_id" (fun project_id => Arg "from_ref" (fun from_ref =>
       Arg "to_ref" (fun to_ref =>
       Do (data ← compare project_id from_ref to_ref; Ret (_format data))))) |}.

Definition _make_gitlab_me : ApiTool (Call string) :=
  {| t_name := "gitlab_me";
     t_description := "Get the authenticated GitLab user's profile.";
     t_properties := [];
     t_required := None;
     t_display_name := "Checking GitLab profile";
     t_read_only := true; t_concurrency_safe := true; t_core := false;
     t_handler :=
       Do (data ← get_current_user; Ret (_format data)) |}.

Definition _make_gitlab_create_mr_note : ApiTool (Call string) :=
  {| t_name := "gitlab_create_mr_note";
     t_description := "Add a comment/note to a GitLab merge request. Requires approval.";
     t_properties := [("project_id", property_ "string" "Project ID or path");
                    ("mr_iid", property_ "integer" "Merge request IID");
                    ("body", property_ "string" "Comment body (Markdown)")];
     t_required := Some ["project_id"; "mr_iid"; "body"];
     t_display_name := "Commenting on merge request";
     t_read_only := false; t_concurrency_safe := true; t_core := false;
     t_handler :=
       Arg "project_id" (fun project_id => Arg "mr_iid" (fun mr_iid => Arg "body" (fun body =>
       Do (data ← create_merge_request_note project_id mr_iid body; Ret (_format data))))) |}.

Definition _make_gitlab_update_mr_note : ApiTool (Call string) :=
  {| t_name := "gitlab_update_mr_note";
     t_description := "Edit an existing note/comment on a merge request. Requires approval.";
     t_properties := [("project_id", property_ "string" "Project ID or path");
                    ("mr_iid", property_ "integer" "Merge request IID");
                    ("note_id", property_ "integer" "Note ID to edit");
                    ("body", property_ "string" "Updated comment body (Markdown)")];
     t_required := Some ["project_id"; "mr_iid"; "note_id"; "body"];
     t_display_name := "Editing MR comment";
     t_read_only := false; t_concurrency_safe := true; t_core := false;
     t_handler :=
       Arg "project_id" (fun project_id => Arg "mr_iid" (fun mr_iid =>
       Arg "note_id" (fun note_id => Arg "body" (fun body =>
       Do (data ← update_merge_request_note project_id mr_iid note_id body;
           Ret (_format data)))))) |}.

Definition _make_gitlab_reply_to_discussion : ApiTool (Call string) :=
  {| t_name := "gitlab_reply_to_discussion";
     t_description := "Reply to an existing discussion thread on a merge request. Use " +:+
       "gitlab_list_mr_discussions to get discussion IDs. Requires approval.";
     t_properties := [("project_id", property_ "string" "Project ID or path");
                    ("mr_iid", property_ "integer" "Merge request IID");
                    ("discussion_id", property_ "string"
                      "Discussion ID (from gitlab_list_mr_discussions)");
                    ("body", property_ "string" "Reply body (Markdown)")];
     t_required := Some ["project_id"; "mr_iid"; "discussion_id"; "body"];
     t_display_name := "Replying to MR discussion";
     t_read_only := false; t_concurrency_safe := true; t_core := false;
     t_handler :=
       Arg "project_id" (fun project_id => Arg "mr_iid" (fun mr_iid =>
       Arg "discussion_id" (fun discussion_id => Arg "body" (fun body =>
       Do (data ← reply_to_discussion project_id mr_iid discussion_id body;
           Ret (_format data)))))) |}.

Definition _make_gitlab_resolve_discussion : ApiTool (Call string) :=
  {| t_name := "gitlab_resolve_discussion";
     t_description := "Resolve or unresolve a discussion thread on a merge request. Use " +:+
       "gitlab_list_mr_discussions to get discussion IDs. Requires approval.";
     t_properties := [("project_id", property_ "string" "Project ID or path");
                    ("mr_iid", property_ "integer" "Merge request IID");
                    ("discussion_id", property_ "string"
                      "Discussion ID (from gitlab_list_mr_discussions)");
                    ("resolved", property_d "boolean" "True to resolve, false to unresolve"
                      (JBool true))];
     t_required := Some ["project_id"; "mr_iid"; "discussion_id"];
     t_display_name := "Resolving MR discussion";
     t_read_only := false; t_concurrency_safe := true; t_core := false;
     t_handler :=
       Arg "project_id" (fun project_id => Arg "mr_iid" (fun mr_iid =>
       Arg "discussion_id" (fun discussion_id => Opt "resolved" (JBool true) (fun resolved =>
       Do (data ← resolve_discussion project_id mr_iid discussion_id resolved;
           Ret (_format data)))))) |}.

Definition _make_gitlab_approve_mr : ApiTool (Call string) :=
  {| t_name := "gitlab_approve_mr";
     t_description := "Approve a merge request. Requires approval.";
     t_properties := [("project_id", property_ "string" "Project ID or path");
                    ("mr_iid", property_ "integer" "Merge request IID")];
     t_required := Some ["project_id"; "mr_iid"];
     t_display_name := "Approving merge request";
     t_read_only := false; t_concurrency_safe := true; t_core := false;
     t_handler :=
       Arg "project_id" (fun project_id => Arg "mr_iid" (fun mr_iid =>
       Do (data ← approve_merge_request project_id mr_iid; Ret (_format data)))) |}.

Definition _make_gitlab_unapprove_mr : ApiTool (Call string) :=
  {| t_name := "gitlab_unapprove_mr";
     t_description := "Remove your approval from a merge request. Requires approval.";
     t_properties := [("project_id", property_ "string" "Project ID or path");
                    ("mr_iid", property_ "integer" "Merge request IID")];
     t_required := Some ["project_id"; "mr_iid"];
     t_display_name := "Removing MR approval";
     t_read_only := false; t_concurrency_safe := true; t_core := false;
     t_handler :=
       Arg "project_id" (fun project_id => Arg "mr_iid" (fun mr_iid =>
       Do (data ← unapprove_merge_request project_id mr_iid; Ret (_format data)))) |}.

Definition _make_gitlab_merge_mr : ApiTool (Call string) :=
  {| t_name := "gitlab_merge_mr";
     t_description := "Merge a merge request. Optionally squash commits and/or remove the " +:+
       "source branch. Requires approval.";
     t_properties := [("project_id", property_ "string" "Project ID or path");
                    ("mr_iid", property_ "integer" "Merge request IID");
                    ("merge_commit_message", property_ "string"
                      "Custom merge commit message (optional)");
                    ("squash", property_d "boolean" "Squash commits into one before merging"
                      (JBool false));
                    ("should_remove_source_branch", property_d "boolean"
                      "Delete the source branch after merge" (JBool false))];
     t_required := Some ["project_id"; "mr_iid"];
     t_display_name := "Merging merge request";
     t_read_only := false; t_concurrency_safe := true; t_core := false;
     t_handler :=
       Arg "project_id" (fun project_id => Arg "mr_iid" (fun mr_iid =>
       Opt "merge_commit_message" (JStr "") (fun merge_commit_message =>
       Opt "squash" (JBool false) (fun squash =>
       Opt "should_remove_source_branch" (JBool false) (fun should_remove_source_branch =>
       Do (data ← merge_merge_request project_id mr_iid merge_commit_message squash
         should_remove_source_branch;
           Ret (_format data))))))) |}.

Definition _make_gitlab_rebase_mr : ApiTool (Call string) :=
  {| t_name := "gitlab_rebase_mr";
     t_description :=
       "Rebase a merge request's source branch onto the target branch. Requires approval.";
     t_properties := [("project_id", property_ "string" "Project ID or path");
                    ("mr_iid", property_ "integer" "Merge request IID")];
     t_required := Some ["project_id"; "mr_iid"];
     t_display_name := "Rebasing merge request";
     t_read_only := false; t_concurrency_safe := true; t_core := false;
     t_handler :=
       Arg "project_id" (fun project_id => Arg "mr_iid" (fun mr_iid =>
       Do (data ← rebase_merge_request project_id mr_iid; Ret (_format data)))) |}.

Definition _make_gitlab_update_mr : ApiTool (Call string) :=
  {| t_name := "gitlab_update_mr";
     t_description := "Update merge request fields: title, description, labels, assignees, " +:+
       "reviewers, target branch. Use state_event='close' or 'reopen' to change MR state. " +:+
       "Requires approval.";
     t_properties := [("project_id", property_ "string" "Project ID or path");
                    ("mr_iid", property_ "integer" "Merge request IID");
                    ("title", property_ "string" "New title");
                    ("description", property_ "string" "New description (Markdown)");
                    ("labels", property_ "string"
                      "Comma-separated labels (replaces all existing)");
                    ("assignee_ids", property_ "string" "Comma-separated user IDs to assign");
                    ("reviewer_ids", property_ "string"
                      "Comma-separated user IDs to add as reviewers");
                    ("target_branch", property_ "string" "Change target branch");
                    ("state_event", property_ "string" "State transition: 'close' or 'reopen'")];
     t_required := Some ["project_id"; "mr_iid"];
     t_display_name := "Updating merge request";
     t_read_only := false; t_concurrency_safe := true; t_core := false;
     t_handler :=
       Arg "project_id" (fun project_id => Arg "mr_iid" (fun mr_iid =>
       Opt "title" (JStr "") (fun title => Opt "description" (JStr "") (fun description =>
       Opt "labels" (JStr "") (fun labels => Opt "assignee_ids" (JStr "") (fun assignee_ids =>
       Opt "reviewer_ids" (JStr "") (fun reviewer_ids =>
       Opt "target_branch" (JStr "") (fun target_branch =>
       Opt "state_event" (JStr "") (fun state_event =>
       Do (
          let fields := when_truthy title ("title", title) [] in
          let fields := when_truthy description ("description", description) fields in
          let fields := when_truthy labels ("labels", labels) fields in
          assignees ← lift (id_list assignee_ids);
          let fields := when_given assignees ("assignee_ids", assignees) fields in
          reviewers ← lift (id_list reviewer_ids);
          let fields := when_given reviewers ("reviewer_ids", reviewers) fields in
          let fields := when_truthy target_branch ("target_branch", target_branch) fields in
          let fields := when_truthy state_event ("state_event", state_event) fields in
          match fields with
          | [] => Ret (_format (JObj [("error", JStr "No fields provided to update")]))
          | _ => data ← update_merge_request project_id mr_iid fields; Ret (_format data)
          end)))))))))) |}.

Definition _make_gitlab_create_mr : ApiTool (Call string) :=
  {| t_name := "gitlab_create_mr";
     t_description := "Create a new merge request. Requires approval.";
     t_properties := [("project_id", property_ "string" "Project ID or path");
                    ("source_branch", property_ "string" "Branch with the changes");
                    ("target_branch", property_ "string" "Branch to merge into");
                    ("title", property_ "string" "MR title");
                    ("description", property_ "string" "MR description (Markdown)")];
     t_required := Some ["project_id"; "source_branch"; "target_branch"; "title"];
     t_display_name := "Creating merge request";
     t_read_only := false; t_concurrency_safe := true; t_core := false;
     t_handler :=
       Arg "project_id" (fun project_id => Arg "source_branch" (fun source_branch =>
       Arg "target_branch" (fun target_branch => Arg "title" (fun title =>
       Opt "description" (JStr "") (fun description =>
       Do (data ← create_merge_request project_id source_branch target_branch title description;
           Ret (_format data))))))) |}.

Definition gitlab_tools : list (ApiTool (Call string)) :=
  [_make_gitlab_search_projects;
   _make_gitlab_get_project;
   _make_gitlab_list_merge_requests;
   _make_gitlab_get_merge_request;
   _make_gitlab_get_merge_request_changes;
   _make_gitlab_list_pipelines;
   _make_gitlab_get_pipeline;
   _make_gitlab_get_job_log;
   _make_gitlab_list_pipeline_jobs;
   _make_gitlab_get_file;
   _make_gitlab_list_mr_notes;
   _make_gitlab_list_mr_discussions;
   _make_gitlab_get_mr_approvals;
   _make_gitlab_list_branches;
   _make_gitlab_list_commits;
   _make_gitlab_get_commit;
   _make_gitlab_compare;
   _make_gitlab_me;
   _make_gitlab_create_mr_note;
   _make_gitlab_update_mr_note;
   _make_gitlab_reply_to_discussion;
   _make_gitlab_resolve_discussion;
   _make_gitlab_approve_mr;
   _make_gitlab_unapprove_mr;
   _make_gitlab_merge_mr;
   _make_gitlab_rebase_mr;
   _make_gitlab_update_mr;
   _make_gitlab_create_mr].
End client.

Definition register_gitlab_tools {W} `{Service W} type_error bad_call (url tok : string)
  (r : Registry W) : string + Registry W :=
  let client := new_client url tok in
  register_all (map (tool_spec (on_world run) bad_call _TOOLSET (Some (configured client)))
    (gitlab_tools type_error client)) r.
