(* ===== verification/Jira.v ===== *)
(** * Jira

    The Jira client and its tools ([tools/jira.py]). *)

From S2P Require Import Prelude Json AgentTypes Registry Urls Tools Service.

Definition _DEFAULT_FIELDS : string :=
  "status,labels,assignee,updated,created,issuetype," +:+
  "description,priority,summary,reporter,duedate,issuelinks,components".
Definition _ERROR_BODY_MAX_CHARS : Z := 500.
Definition _DEFAULT_SEARCH_LIMIT : Z := 10.
Definition _HTTP_ERROR_THRESHOLD : Z := 400.
Definition _SUCCESS_NO_BODY_CODES : list Z := [201; 204]%Z.
Definition _EPIC_LINK_FIELD : string := "customfield_10014".
Definition _TOOLSET : string := "jira".

(** [JiraClient], without the pooled HTTP client. *)
Record JiraClient := { base_url : string; auth_header : string }.

Definition new_client (url auth : string) : JiraClient :=
  {| base_url := rstrip_chars "/" url; auth_header := auth |}.

Definition configured (c : JiraClient) : bool :=
  str_truthy (base_url c) && str_truthy (auth_header c).

Section client.
Context (type_error : json -> string) (client : JiraClient).

Definition reply_value (reply : HttpReply) : Call json :=
  match reply with
  | Failed _ exc => Raise exc
  | Replied status text _ body =>
      if (_HTTP_ERROR_THRESHOLD <=? status)%Z then
        Ret (error_reply "Jira" status text _ERROR_BODY_MAX_CHARS)
      else if existsb (Z.eqb status) _SUCCESS_NO_BODY_CODES && negb (str_truthy (strip text)) then
        Ret (JObj [("success", JBool true)])
      else lift body
  end.

Definition _request (method endpoint : string) (params body : option json) : Call json :=
  if negb (configured client) then
    Ret (JObj [("error", JStr "Jira not configured. Set JIRA_URL and JIRA_AUTH.")])
  else
    Send {| hr_method := method; hr_url := base_url client +:+ endpoint;
            hr_auth := [auth_header client]; hr_params := params; hr_json := body |} reply_value.

(** *** Operations *)

Definition search (jql limit fields : json) : Call json :=
  fs ← (if is_str "*all" fields then Ret ["*all"] else lift (split_commas type_error fields));
  let payload := [("jql", jql); ("fields", JArr (map JStr fs)); ("maxResults", limit)] in
  _request "POST" "/rest/api/2/search" None (Some (JObj payload)).

Definition get_issue (issue_key fields : json) : Call json :=
  _request "GET" ("/rest/api/2/issue/" +:+ json_str issue_key) (Some (JObj [("fields", fields)]))
    None.

Definition get_transitions (issue_key : json) : Call json :=
  _request "GET" ("/rest/api/2/issue/" +:+ json_str issue_key +:+ "/transitions") None None.

Definition me : Call json :=
  _request "GET" "/rest/api/2/myself" None None.

Definition create_issue (project_key summary issue_type description assignee priority due_date
  labels components epic_key : json) : Call json :=
  let fields := [("project", JObj [("key", project_key)]); ("summary", summary);
    ("issuetype", JObj [("name", issue_type)])] in
  let fields := when_truthy description ("description", description) fields in
  let fields := when_truthy assignee ("assignee", JObj [("name", assignee)]) fields in
  let fields := when_truthy priority ("priority", JObj [("name", priority)]) fields in
  let fields := when_truthy due_date ("duedate", due_date) fields in
  let fields := when_truthy labels ("labels", labels) fields in
  let fields := when_truthy components ("components", names_of components) fields in
  let fields := when_truthy epic_key (_EPIC_LINK_FIELD, epic_key) fields in
  _request "POST" "/rest/api/2/issue" None (Some (JObj [("fields", JObj fields)])).

Definition update_issue (issue_key summary description assignee priority due_date labels
  components epic_key : json) : Call json :=
  let fields := [] in
  let fields := when_given summary ("summary", summary) fields in
  let fields := when_given description ("description", description) fields in
  let fields := when_given assignee ("assignee", JObj [("name", assignee)]) fields in
  let fields := when_given priority ("priority", JObj [("name", priority)]) fields in
  let fields := when_given due_date ("duedate", due_date) fields in
  let fields := when_given labels ("labels", labels) fields in
  let fields := when_given components ("components", names_of components) fields in
  let fields := when_given epic_key (_EPIC_LINK_FIELD, epic_key) fields in
  match fields with
  | [] => Ret (JObj [("error", JStr "No fields to update")])
  | _ =>
      _ ← _request "PUT" ("/rest/api/2/issue/" +:+ json_str issue_key) None
        (Some (JObj [("fields", JObj fields)]));
      get_issue issue_key (JStr _DEFAULT_FIELDS)
  end.

Definition add_comment (issue_key body : json) : Call json :=
  _request "POST" ("/rest/api/2/issue/" +:+ json_str issue_key +:+ "/comment") None
    (Some (JObj [("body", body)])).

Definition transition_issue (issue_key transition_id comment : json) : Call json :=
  let payload := [("transition", JObj [("id", transition_id)])] in
  let payload := when_truthy comment ("update", JObj
    [("comment", JArr [JObj [("add", JObj [("body", comment)])]])]) payload in
  _ ← _request "POST" ("/rest/api/2/issue/" +:+ json_str issue_key +:+ "/transitions") None
    (Some (JObj payload));
  get_issue issue_key (JStr _DEFAULT_FIELDS).

(** *** Tools *)

Definition _make_jira_get_issue : ApiTool (Call string) :=
  {| t_name := "jira_get_issue";
     t_description := "Get details of a Jira issue by key (e.g. PROJ-123).";
     t_properties := [("issue_key", property_ "string" "Issue key, e.g. PROJ-123")];
     t_required := Some ["issue_key"];
     t_display_name := "Getting Jira issue";
     t_read_only := true; t_concurrency_safe := true; t_core := false;
     t_handler :=
       Arg "issue_key" (fun issue_key =>
       Do (data ← get_issue issue_key (JStr _DEFAULT_FIELDS); Ret (_format data))) |}.

Definition _make_jira_search : ApiTool (Call string) :=
  {| t_name := "jira_search";
     t_description := "Search Jira issues using JQL. Example: jira_search(jql=" +:+ dquote +:+
       "project = MYPROJ AND status = Open" +:+ dquote +:+ ", limit=10)";
     t_properties := [("jql", property_ "string" "JQL query string");
                    ("limit", property_d "integer"
                      ("Max results (default " +:+ show_Z _DEFAULT_SEARCH_LIMIT +:+ ")")
                      (JInt _DEFAULT_SEARCH_LIMIT))];
     t_required := Some ["jql"];
     t_display_name := "Searching Jira";
     t_read_only := true; t_concurrency_safe := true; t_core := false;
     t_handler :=
       Arg "jql" (fun jql => Opt "limit" (JInt _DEFAULT_SEARCH_LIMIT) (fun limit =>
       Do (data ← search jql limit (JStr _DEFAULT_FIELDS); Ret (_format data)))) |}.

Definition _make_jira_me : ApiTool (Call string) :=
  {| t_name := "jira_me";
     t_description := "Get the authenticated user's Jira profile.";
     t_properties := [];
     t_required := None;
     t_display_name := "Checking Jira profile";
     t_read_only := true; t_concurrency_safe := true; t_core := false;
     t_handler :=
       Do (data ← me; Ret (_format data)) |}.

Definition _make_jira_get_transitions : ApiTool (Call string) :=
  {| t_name := "jira_get_transitions";
     t_description := "Get available status transitions for a Jira issue.";
     t_properties := [("issue_key", property_ "string" "Issue key")];
     t_required := Some ["issue_key"];
     t_display_name := "Getting issue transitions";
     t_read_only := true; t_concurrency_safe := true; t_core := false;
     t_handler :=
       Arg "issue_key" (fun issue_key =>
       Do (data ← get_transitions issue_key; Ret (_format data))) |}.

Definition _make_jira_create_issue : ApiTool (Call string) :=
  {| t_name := "jira_create_issue";
     t_description := "Create a new Jira issue. Requires approval.";
     t_properties := [("project_key", property_ "string" "Project key, e.g. MYPROJ");
                    ("summary", property_ "string" "Issue summary/title");
                    ("issue_type", property_d "string" "Issue type (default: Task)"
                      (JStr "Task"));
                    ("description", property_ "string" "Issue description");
                    ("assignee", property_ "string" "Assignee username");
                    ("priority", property_ "string" "Priority name (e.g. P1, Medium)");
                    ("due_date", property_ "string" "Due date in YYYY-MM-DD format");
                    ("labels", property_ "string" "Comma-separated labels");
                    ("components", property_ "string" "Comma-separated component names");
                    ("epic_key", property_ "string" "Epic issue key to link to (e.g. PROJ-100)")];
     t_required := Some ["project_key"; "summary"];
     t_display_name := "Creating Jira issue";
     t_read_only := false; t_concurrency_safe := true; t_core := false;
     t_handler :=
       Arg "project_key" (fun project_key => Arg "summary" (fun summary =>
       Opt "issue_type" (JStr "Task") (fun issue_type =>
       Opt "description" (JStr "") (fun description => Opt "assignee" (JStr "") (fun assignee =>
       Opt "priority" (JStr "") (fun priority => Opt "due_date" (JStr "") (fun due_date =>
       Opt "labels" (JStr "") (fun labels => Opt "components" (JStr "") (fun components =>
       Opt "epic_key" (JStr "") (fun epic_key =>
       Do (labels ← lift (split_or_none type_error labels);
           components ← lift (split_or_none type_error components);
           data ← create_issue project_key summary issue_type (or_none description)
             (or_none assignee) (or_none priority) (or_none due_date) labels components
             (or_none epic_key);
           Ret (_format data)))))))))))) |}.

Definition _make_jira_update_issue : ApiTool (Call string) :=
  {| t_name := "jira_update_issue";
     t_description := "Update fields on an existing Jira issue. Pass only the fields you " +:+
       "want to change. Requires approval.";
     t_properties := [("issue_key", property_ "string" "Issue key");
                    ("summary", property_ "string" "New summary");
                    ("description", property_ "string" "New description");
                    ("assignee", property_ "string" "New assignee username");
                    ("priority", property_ "string" "New priority (e.g. P1, Medium)");
                    ("due_date", property_ "string" "New due date in YYYY-MM-DD format");
                    ("labels", property_ "string" "Comma-separated labels (replaces all)");
                    ("components", property_ "string"
                      "Comma-separated component names (replaces all)");
                    ("epic_key", property_ "string" "Epic issue key to link to")];
     t_required := Some ["issue_key"];
     t_display_name := "Updating Jira issue";
     t_read_only := false; t_concurrency_safe := true; t_core := false;
     t_handler :=
       Arg "issue_key" (fun issue_key => Opt "summary" (JStr "") (fun summary =>
       Opt "description" (JStr "") (fun description => Opt "assignee" (JStr "") (fun assignee =>
       Opt "priority" (JStr "") (fun priority => Opt "due_date" (JStr "") (fun due_date =>
       Opt "labels" (JStr "") (fun labels => Opt "components" (JStr "") (fun components =>
       Opt "epic_key" (JStr "") (fun epic_key =>
       Do (labels ← lift (split_or_none type_error labels);
           components ← lift (strip_split_or_none type_error components);
           data ← update_issue issue_key (or_none summary) (or_none description)
             (or_none assignee) (or_none priority) (or_none due_date) labels components
             (or_none epic_key);
           Ret (_format data))))))))))) |}.

Definition _make_jira_add_comment : ApiTool (Call string) :=
  {| t_name := "jira_add_comment";
     t_description := "Add a comment to a Jira issue. Requires approval.";
     t_properties := [("issue_key", property_ "string" "Issue key");
                    ("body", property_ "string" "Comment text (Jira wiki markup)")];
     t_required := Some ["issue_key"; "body"];
     t_display_name := "Adding Jira comment";
     t_read_only := false; t_concurrency_safe := true; t_core := false;
     t_handler :=
       Arg "issue_key" (fun issue_key => Arg "body" (fun body =>
       Do (data ← add_comment issue_key body; Ret (_format data)))) |}.

Definition _make_jira_transition_issue : ApiTool (Call string) :=
  {| t_name := "jira_transition_issue";
     t_description := "Transition a Jira issue to a new status. Use jira_get_transitions " +:+
       "first to find the transition_id. Requires approval.";
     t_properties := [("issue_key", property_ "string" "Issue key");
                    ("transition_id", property_ "string"
                      "Transition ID (from jira_get_transitions)");
                    ("comment", property_ "string" "Optional transition comment")];
     t_required := Some ["issue_key"; "transition_id"];
     t_display_name := "Transitioning Jira issue";
     t_read_only := false; t_concurrency_safe := true; t_core := false;
     t_handler :=
       Arg "issue_key" (fun issue_key => Arg "transition_id" (fun transition_id =>
       Opt "comment" (JStr "") (fun comment =>
       Do (data ← transition_issue issue_key transition_id (or_none comment);
           Ret (_format data))))) |}.

Definition jira_tools : list (ApiTool (Call string)) :=
  [_make_jira_get_issue;
   _make_jira_search;
   _make_jira_me;
   _make_jira_get_transitions;
   _make_jira_create_issue;
   _make_jira_update_issue;
   _make_jira_add_comment;
   _make_jira_transition_issue].
End client.

Definition register_jira_tools {W} `{Service W} type_error bad_call (url auth : string)
  (r : Registry W) : string + Registry W :=
  let client := new_client url auth in
  register_all (map (tool_spec (on_world run) bad_call _TOOLSET (Some (configured client)))
    (jira_tools type_error client)) r.
