(* ===== verification/Gerrit.v ===== *)
(** * Gerrit

    The Gerrit client and its tools ([tools/gerrit.py]). *)

From S2P Require Import Prelude Json JsonLoads AgentTypes Registry Urls Tools Service.

Definition _ERROR_BODY_MAX_CHARS : Z := 500.
Definition _HTTP_ERROR_THRESHOLD : Z := 400.
Definition _DEFAULT_SEARCH_LIMIT : Z := 10.
Definition _GERRIT_XSSI_PREFIX : string := ")]}'".
Definition _TOOLSET : string := "gerrit".

(** [GerritClient], without the pooled HTTP client. *)
Record GerritClient := { base_url : string; username : string; http_password : string }.

Definition new_client (url user password : string) : GerritClient :=
  {| base_url := rstrip_chars "/" url; username := user; http_password := password |}.

Definition configured (c : GerritClient) : bool :=
  str_truthy (base_url c) && str_truthy (username c) && str_truthy (http_password c).

Section client.
Context (type_error : json -> string).
Context (client : GerritClient).

Definition _strip_xssi (text : string) : string + json :=
  if startswith _GERRIT_XSSI_PREFIX text
  then json_loads (String.substring (String.length _GERRIT_XSSI_PREFIX) (String.length text) text)
  else json_loads text.

Definition reply_value (reply : HttpReply) : Call json :=
  match reply with
  | Failed _ exc => Raise exc
  | Replied status text _ _ =>
      if (_HTTP_ERROR_THRESHOLD <=? status)%Z then
        Ret (error_reply "Gerrit" status text _ERROR_BODY_MAX_CHARS)
      else lift (_strip_xssi text)
  end.

Definition _request (method endpoint : string) (params body : option json) : Call json :=
  if negb (configured client) then
    Ret (JObj [("error", JStr ("Gerrit not configured. Set GERRIT_URL, GERRIT_USERNAME, " +:+
                               "and GERRIT_HTTP_PASSWORD."))])
  else
    Send {| hr_method := method; hr_url := base_url client +:+ endpoint;
            hr_auth := [username client; http_password client]; hr_params := params;
            hr_json := body |} reply_value.

(** *** Operations *)

Definition get_change (change_id : json) : Call json :=
  _request "GET" ("/changes/" +:+ json_str change_id) (Some (JObj [("o", JArr
    [JStr "CURRENT_REVISION"; JStr "LABELS"; JStr "DETAILED_ACCOUNTS"])])) None.

Definition list_changes (query limit : json) : Call json :=
  _request "GET" "/changes/" (Some (JObj [("q", query); ("n", limit)])) None.

Definition get_change_detail (change_id : json) : Call json :=
  _request "GET" ("/changes/" +:+ json_str change_id +:+ "/detail") (Some (JObj [("o", JArr [JStr
    "CURRENT_REVISION"; JStr "ALL_FILES"; JStr "LABELS"; JStr "DETAILED_ACCOUNTS"])])) None.

Definition get_comments (change_id : json) : Call json :=
  _request "GET" ("/changes/" +:+ json_str change_id +:+ "/comments") None None.

Definition list_files (change_id revision : json) : Call json :=
  _request "GET" ("/changes/" +:+ json_str change_id +:+ "/revisions/" +:+ json_str revision +:+
    "/files") None None.

Definition get_diff (change_id file_path revision : json) : Call json :=
  encoded_path ← lift (py_quote type_error file_path);
  _request "GET" ("/changes/" +:+ json_str change_id +:+ "/revisions/" +:+ json_str revision +:+
    "/files/" +:+ encoded_path +:+ "/diff") None None.

Definition get_account : Call json :=
  _request "GET" "/accounts/self" None None.

Definition set_review (change_id message labels revision : json) : Call json :=
  let payload := [] in
  let payload := when_truthy message ("message", message) payload in
  let payload := when_truthy labels ("labels", labels) payload in
  _request "POST" ("/changes/" +:+ json_str change_id +:+ "/revisions/" +:+ json_str revision +:+
    "/review") None (Some (JObj payload)).

Definition submit (change_id : json) : Call json :=
  _request "POST" ("/changes/" +:+ json_str change_id +:+ "/submit") None None.

Definition abandon (change_id message : json) : Call json :=
  let payload := [] in
  let payload := when_truthy message ("message", message) payload in
  _request "POST" ("/changes/" +:+ json_str change_id +:+ "/abandon") None (Some (JObj payload)).

(** *** Tools *)

(** [json.loads(labels) if labels else None] *)
Definition parse_labels (labels : json) : Call json :=
  if json_truthy labels
  then lift (s <-- as_str type_error labels;; json_loads s)%result else Ret JNull.

Definition _make_gerrit_get_change : ApiTool (Call string) :=
  {| t_name := "gerrit_get_change";
     t_description := "Get details of a Gerrit change by numeric ID or change-id.";
     t_properties := [("change_id", property_ "string" "Change ID (numeric or triplet)")];
     t_required := Some ["change_id"];
     t_display_name := "Getting Gerrit change";
     t_read_only := true; t_concurrency_safe := true; t_core := false;
     t_handler :=
       Arg "change_id" (fun change_id => Do (data ← get_change change_id; Ret (_format data))) |}.

Definition _make_gerrit_list_changes : ApiTool (Call string) :=
  {| t_name := "gerrit_list_changes";
     t_description := "Search Gerrit changes using a query string. Example: " +:+ dquote +:+
       "owner:self status:open" +:+ dquote;
     t_properties := [("query", property_ "string" "Gerrit search query");
                    ("limit", property_d "integer" "Max results" (JInt 10))];
     t_required := Some ["query"];
     t_display_name := "Searching Gerrit changes";
     t_read_only := true; t_concurrency_safe := true; t_core := false;
     t_handler :=
       Arg "query" (fun query => Opt "limit" (JInt _DEFAULT_SEARCH_LIMIT) (fun limit =>
       Do (data ← list_changes query limit; Ret (_format data)))) |}.

Definition _make_gerrit_get_change_detail : ApiTool (Call string) :=
  {| t_name := "gerrit_get_change_detail";
     t_description :=
       "Get detailed info about a Gerrit change including all revisions and labels.";
     t_properties := [("change_id", property_ "string" "Change ID")];
     t_required := Some ["change_id"];
     t_display_name := "Getting change detail";
     t_read_only := true; t_concurrency_safe := true; t_core := false;
     t_handler :=
       Arg "change_id" (fun change_id =>
       Do (data ← get_change_detail change_id; Ret (_format data))) |}.

Definition _make_gerrit_get_comments : ApiTool (Call string) :=
  {| t_name := "gerrit_get_comments";
     t_description := "Get all review comments on a Gerrit change.";
     t_properties := [("change_id", property_ "string" "Change ID")];
     t_required := Some ["change_id"];
     t_display_name := "Getting Gerrit comments";
     t_read_only := true; t_concurrency_safe := true; t_core := false;
     t_handler :=
       Arg "change_id" (fun change_id => Do (data ← get_comments change_id; Ret (_format data)))
         |}.

Definition _make_gerrit_list_files : ApiTool (Call string) :=
  {| t_name := "gerrit_list_files";
     t_description := "List files modified in a Gerrit change.";
     t_properties := [("change_id", property_ "string" "Change ID");
                    ("revision", property_d "string" "Revision (default: current)"
                      (JStr "current"))];
     t_required := Some ["change_id"];
     t_display_name := "Listing changed files";
     t_read_only := true; t_concurrency_safe := true; t_core := false;
     t_handler :=
       Arg "change_id" (fun change_id => Opt "revision" (JStr "current") (fun revision =>
       Do (data ← list_files change_id revision; Ret (_format data)))) |}.

Definition _make_gerrit_get_diff : ApiTool (Call string) :=
  {| t_name := "gerrit_get_diff";
     t_description := "Get the diff for a specific file in a Gerrit change.";
     t_properties := [("change_id", property_ "string" "Change ID");
                    ("file_path", property_ "string" "File path in the change");
                    ("revision", property_d "string" "Revision (default: current)"
                      (JStr "current"))];
     t_required := Some ["change_id"; "file_path"];
     t_display_name := "Getting file diff";
     t_read_only := true; t_concurrency_safe := true; t_core := false;
     t_handler :=
       Arg "change_id" (fun change_id => Arg "file_path" (fun file_path =>
       Opt "revision" (JStr "current") (fun revision =>
       Do (data ← get_diff change_id file_path revision; Ret (_format data))))) |}.

Definition _make_gerrit_me : ApiTool (Call string) :=
  {| t_name := "gerrit_me";
     t_description := "Get the authenticated Gerrit user's account info.";
     t_properties := [];
     t_required := None;
     t_display_name := "Checking Gerrit profile";
     t_read_only := true; t_concurrency_safe := true; t_core := false;
     t_handler :=
       Do (data ← get_account; Ret (_format data)) |}.

Definition _make_gerrit_set_review : ApiTool (Call string) :=
  {| t_name := "gerrit_set_review";
     t_description := "Post a review on a Gerrit change with a message and/or labels. " +:+
       "Labels should be a JSON string like '{" +:+ dquote +:+ "Code-Review" +:+ dquote +:+
       ": 1}'. Requires approval.";
     t_properties := [("change_id", property_ "string" "Change ID");
                    ("message", property_ "string" "Review message");
                    ("labels", property_ "string" ("JSON object of labels, e.g. {" +:+ dquote +:+
                      "Code-Review" +:+ dquote +:+ ": 1}"));
                    ("revision", property_d "string" "Revision (default: current)"
                      (JStr "current"))];
     t_required := Some ["change_id"];
     t_display_name := "Posting Gerrit review";
     t_read_only := false; t_concurrency_safe := true; t_core := false;
     t_handler :=
       Arg "change_id" (fun change_id => Opt "message" (JStr "") (fun message =>
       Opt "labels" (JStr "") (fun labels => Opt "revision" (JStr "current") (fun revision =>
       Do (parsed_labels ← parse_labels labels;
           data ← set_review change_id message parsed_labels revision;
           Ret (_format data)))))) |}.

Definition _make_gerrit_submit : ApiTool (Call string) :=
  {| t_name := "gerrit_submit";
     t_description := "Submit (merge) a Gerrit change. Requires approval.";
     t_properties := [("change_id", property_ "string" "Change ID")];
     t_required := Some ["change_id"];
     t_display_name := "Submitting Gerrit change";
     t_read_only := false; t_concurrency_safe := true; t_core := false;
     t_handler :=
       Arg "change_id" (fun change_id => Do (data ← submit change_id; Ret (_format data))) |}.

Definition _make_gerrit_abandon : ApiTool (Call string) :=
  {| t_name := "gerrit_abandon";
     t_description := "Abandon a Gerrit change. Requires approval.";
     t_properties := [("change_id", property_ "string" "Change ID");
                    ("message", property_ "string" "Optional reason for abandoning")];
     t_required := Some ["change_id"];
     t_display_name := "Abandoning Gerrit change";
     t_read_only := false; t_concurrency_safe := true; t_core := false;
     t_handler :=
       Arg "change_id" (fun change_id => Opt "message" (JStr "") (fun message =>
       Do (data ← abandon change_id message; Ret (_format data)))) |}.

Definition gerrit_tools : list (ApiTool (Call string)) :=
  [_make_gerrit_get_change;
   _make_gerrit_list_changes;
   _make_gerrit_get_change_detail;
   _make_gerrit_get_comments;
   _make_gerrit_list_files;
   _make_gerrit_get_diff;
   _make_gerrit_me;
   _make_gerrit_set_review;
   _make_gerrit_submit;
   _make_gerrit_abandon].
End client.

Definition register_gerrit_tools {W} `{Service W} type_error bad_call
  (url user password : string) (r : Registry W) : string + Registry W :=
  let client := new_client url user password in
  register_all (map (tool_spec (on_world run) bad_call _TOOLSET (Some (configured client)))
    (gerrit_tools type_error client)) r.
