(* ===== verification/Confluence.v ===== *)
(** * Confluence

    The Confluence client and its tools ([tools/confluence.py]). *)

From S2P Require Import Prelude Json AgentTypes Registry Urls Tools Service.

Definition _ERROR_BODY_MAX_CHARS : Z := 500.
Definition _HTTP_ERROR_THRESHOLD : Z := 400.
Definition _DEFAULT_SEARCH_LIMIT : Z := 10.
Definition _TOOLSET : string := "confluence".

(** [ConfluenceClient], without the pooled HTTP client. *)
Record ConfluenceClient := { base_url : string; username : string; api_token : string }.

Definition new_client (url user token : string) : ConfluenceClient :=
  {| base_url := rstrip_chars "/" url; username := user; api_token := token |}.

Definition configured (c : ConfluenceClient) : bool :=
  str_truthy (base_url c) && str_truthy (username c) && str_truthy (api_token c).

Section client.
Context (client : ConfluenceClient).

Definition reply_value (reply : HttpReply) : Call json :=
  match reply with
  | Failed _ exc => Raise exc
  | Replied status text _ body =>
      if (_HTTP_ERROR_THRESHOLD <=? status)%Z then
        Ret (error_reply "Confluence" status text _ERROR_BODY_MAX_CHARS)
      else if negb (str_truthy (strip text)) then Ret (JObj [("success", JBool true)])
      else lift body
  end.

Definition _request (method endpoint : string) (params body : option json) : Call json :=
  if negb (configured client) then
    Ret (JObj [("error", JStr ("Confluence not configured. Set CONFLUENCE_URL, " +:+
                               "CONFLUENCE_USERNAME, and CONFLUENCE_API_TOKEN."))])
  else
    Send {| hr_method := method; hr_url := base_url client +:+ endpoint;
            hr_auth := [username client; api_token client]; hr_params := params;
            hr_json := body |} reply_value.

(** *** Operations *)

Definition search (cql limit : json) : Call json :=
  _request "GET" "/rest/api/content/search" (Some (JObj
    [("cql", cql); ("limit", limit); ("expand", JStr "space,version")])) None.

Definition get_page (page_id expand : json) : Call json :=
  _request "GET" ("/rest/api/content/" +:+ json_str page_id) (Some (JObj [("expand", expand)]))
    None.

Definition get_page_children (page_id limit : json) : Call json :=
  _request "GET" ("/rest/api/content/" +:+ json_str page_id +:+ "/child/page")
    (Some (JObj [("limit", limit); ("expand", JStr "version")])) None.

Definition get_comments (page_id limit : json) : Call json :=
  _request "GET" ("/rest/api/content/" +:+ json_str page_id +:+ "/child/comment")
    (Some (JObj [("limit", limit); ("expand", JStr "body.storage")])) None.

Definition get_labels (page_id : json) : Call json :=
  _request "GET" ("/rest/api/content/" +:+ json_str page_id +:+ "/label") None None.

Definition create_page (space_key title body parent_id : json) : Call json :=
  let payload := [("type", JStr "page"); ("title", title); ("space", JObj [("key", space_key)]);
    ("body", JObj [("storage", JObj [("value", body); ("representation", JStr "storage")])])] in
  let payload := when_truthy parent_id ("ancestors", JArr [JObj [("id", parent_id)]]) payload in
  _request "POST" "/rest/api/content" None (Some (JObj payload)).

Definition update_page (page_id title body version_number : json) : Call json :=
  let payload := [("version", JObj [("number", version_number)]); ("title", title);
    ("type", JStr "page"); ("body", JObj [("storage", JObj
    [("value", body); ("representation", JStr "storage")])])] in
  _request "PUT" ("/rest/api/content/" +:+ json_str page_id) None (Some (JObj payload)).

Definition add_comment (page_id body : json) : Call json :=
  let payload := [("type", JStr "comment");
    ("container", JObj [("id", page_id); ("type", JStr "page")]); ("body", JObj [("storage", JObj
    [("value", body); ("representation", JStr "storage")])])] in
  _request "POST" "/rest/api/content" None (Some (JObj payload)).

Definition add_label (page_id label : json) : Call json :=
  _request "POST" ("/rest/api/content/" +:+ json_str page_id +:+ "/label") None
    (Some (JArr [JObj [("prefix", JStr "global"); ("name", label)]])).

(** *** Tools *)

Definition _make_confluence_search : ApiTool (Call string) :=
  {| t_name := "confluence_search";
     t_description := "Search Confluence pages using CQL. Example: " +:+
       "confluence_search(cql='type=page AND space=MYSPACE AND text~" +:+ dquote +:+ "deployment"
       +:+ dquote +:+ "')";
     t_properties := [("cql", property_ "string" "CQL query string.");
                    ("limit", property_d "integer" "Max results." (JInt _DEFAULT_SEARCH_LIMIT))];
     t_required := Some ["cql"];
     t_display_name := "Searching Confluence";
     t_read_only := true; t_concurrency_safe := true; t_core := false;
     t_handler :=
       Arg "cql" (fun cql => Opt "limit" (JInt _DEFAULT_SEARCH_LIMIT) (fun limit =>
       Do (data ← search cql limit; Ret (_format data)))) |}.

Definition _make_confluence_get_page : ApiTool (Call string) :=
  {| t_name := "confluence_get_page";
     t_description := "Get a Confluence page by ID, including its body content.";
     t_properties := [("page_id", property_ "string" "Confluence page ID.")];
     t_required := Some ["page_id"];
     t_display_name := "Getting Confluence page";
     t_read_only := true; t_concurrency_safe := true; t_core := false;
     t_handler :=
       Arg "page_id" (fun page_id =>
       Do (data ← get_page page_id (JStr "body.storage,version,space"); Ret (_format data))) |}.

Definition _make_confluence_get_page_children : ApiTool (Call string) :=
  {| t_name := "confluence_get_page_children";
     t_description := "List child pages of a Confluence page.";
     t_properties := [("page_id", property_ "string" "Parent page ID.");
                    ("limit", property_d "integer" "Max results." (JInt _DEFAULT_SEARCH_LIMIT))];
     t_required := Some ["page_id"];
     t_display_name := "Listing child pages";
     t_read_only := true; t_concurrency_safe := true; t_core := false;
     t_handler :=
       Arg "page_id" (fun page_id => Opt "limit" (JInt _DEFAULT_SEARCH_LIMIT) (fun limit =>
       Do (data ← get_page_children page_id limit; Ret (_format data)))) |}.

Definition _make_confluence_get_comments : ApiTool (Call string) :=
  {| t_name := "confluence_get_comments";
     t_description := "Get comments on a Confluence page.";
     t_properties := [("page_id", property_ "string" "Page ID.");
                    ("limit", property_d "integer" "Max results." (JInt _DEFAULT_SEARCH_LIMIT))];
     t_required := Some ["page_id"];
     t_display_name := "Getting page comments";
     t_read_only := true; t_concurrency_safe := true; t_core := false;
     t_handler :=
       Arg "page_id" (fun page_id => Opt "limit" (JInt _DEFAULT_SEARCH_LIMIT) (fun limit =>
       Do (data ← get_comments page_id limit; Ret (_format data)))) |}.

Definition _make_confluence_get_labels : ApiTool (Call string) :=
  {| t_name := "confluence_get_labels";
     t_description := "Get labels on a Confluence page.";
     t_properties := [("page_id", property_ "string" "Page ID.")];
     t_required := Some ["page_id"];
     t_display_name := "Getting page labels";
     t_read_only := true; t_concurrency_safe := true; t_core := false;
     t_handler :=
       Arg "page_id" (fun page_id => Do (data ← get_labels page_id; Ret (_format data))) |}.

Definition _make_confluence_create_page : ApiTool (Call string) :=
  {| t_name := "confluence_create_page";
     t_description := "Create a new Confluence page in a space. Requires approval.";
     t_properties := [("space_key", property_ "string" "Space key (e.g. MYSPACE).");
                    ("title", property_ "string" "Page title.");
                    ("body", property_ "string" "Page body (Confluence storage format).");
                    ("parent_id", property_ "string" "Optional parent page ID.")];
     t_required := Some ["space_key"; "title"; "body"];
     t_display_name := "Creating Confluence page";
     t_read_only := false; t_concurrency_safe := true; t_core := false;
     t_handler :=
       Arg "space_key" (fun space_key => Arg "title" (fun title => Arg "body" (fun body =>
       Opt "parent_id" (JStr "") (fun parent_id =>
       Do (data ← create_page space_key title body (or_none parent_id); Ret (_format data))))))
         |}.

Definition _make_confluence_update_page : ApiTool (Call string) :=
  {| t_name := "confluence_update_page";
     t_description := "Update an existing Confluence page. Requires approval.";
     t_properties := [("page_id", property_ "string" "Page ID to update.");
                    ("title", property_ "string" "New page title.");
                    ("body", property_ "string" "New page body (storage format).");
                    ("version_number", property_ "integer"
                      "New version number (current version + 1).")];
     t_required := Some ["page_id"; "title"; "body"; "version_number"];
     t_display_name := "Updating Confluence page";
     t_read_only := false; t_concurrency_safe := true; t_core := false;
     t_handler :=
       Arg "page_id" (fun page_id => Arg "title" (fun title => Arg "body" (fun body =>
       Arg "version_number" (fun version_number =>
       Do (data ← update_page page_id title body version_number; Ret (_format data)))))) |}.

Definition _make_confluence_add_comment : ApiTool (Call string) :=
  {| t_name := "confluence_add_comment";
     t_description := "Add a comment to a Confluence page. Requires approval.";
     t_properties := [("page_id", property_ "string" "Page ID.");
                    ("body", property_ "string" "Comment body (storage format).")];
     t_required := Some ["page_id"; "body"];
     t_display_name := "Adding Confluence comment";
     t_read_only := false; t_concurrency_safe := true; t_core := false;
     t_handler :=
       Arg "page_id" (fun page_id => Arg "body" (fun body =>
       Do (data ← add_comment page_id body; Ret (_format data)))) |}.

Definition _make_confluence_add_label : ApiTool (Call string) :=
  {| t_name := "confluence_add_label";
     t_description := "Add a label to a Confluence page. Requires approval.";
     t_properties := [("page_id", property_ "string" "Page ID.");
                    ("label", property_ "string" "Label name.")];
     t_required := Some ["page_id"; "label"];
     t_display_name := "Adding Confluence label";
     t_read_only := false; t_concurrency_safe := true; t_core := false;
     t_handler :=
       Arg "page_id" (fun page_id => Arg "label" (fun label =>
       Do (data ← add_label page_id label; Ret (_format data)))) |}.

Definition confluence_tools : list (ApiTool (Call string)) :=
  [_make_confluence_search;
   _make_confluence_get_page;
   _make_confluence_get_page_children;
   _make_confluence_get_comments;
   _make_confluence_get_labels;
   _make_confluence_create_page;
   _make_confluence_update_page;
   _make_confluence_add_comment;
   _make_confluence_add_label].
End client.

Definition register_confluence_tools {W} `{Service W} bad_call (url user token : string)
  (r : Registry W) : string + Registry W :=
  let client := new_client url user token in
  register_all (map (tool_spec (on_world run) bad_call _TOOLSET (Some (configured client)))
    (confluence_tools client)) r.
