(* ===== verification/SlackSearch.v ===== *)
(** * SlackSearch

    The Slack search client and its tools ([tools/slack_search.py]). *)

From S2P Require Import Prelude Json AgentTypes Registry Urls Tools Service.

Definition _DEFAULT_SEARCH_LIMIT : Z := 10.
Definition _DEFAULT_HISTORY_LIMIT : Z := 20.
Definition _SLACK_API_BASE : string := "https://slack.com/api".
Definition _TOOLSET : string := "slack_search".

(** [SlackSearchClient], without the pooled HTTP client. *)
Record SlackSearchClient := { user_token : string }.

Definition configured (c : SlackSearchClient) : bool := str_truthy (user_token c).

Section client.
Context (type_error : json -> string) (client : SlackSearchClient).

(** Slack reports errors in the body, whatever the status. *)
Definition reply_value (reply : HttpReply) : Call json :=
  match reply with
  | Failed _ exc => Raise exc
  | Replied _ _ _ (inl exc) => Raise exc
  | Replied _ _ _ (inr (JObj data)) =>
      if json_truthy (default JNull (obj_get "ok" data)) then Ret (JObj data)
      else
        Ret (JObj [("error", JStr ("Slack API error: " +:+
                                   json_str (default (JStr "unknown") (obj_get "error" data))));
                   ("details", JObj (List.filter (fun kv => negb (String.eqb kv.1 "ok")) data))])
  | Replied _ _ _ (inr data) => Raise (type_error data)
  end.

Definition _request (method endpoint : string) (params body : option json) : Call json :=
  if negb (configured client) then
    Ret (JObj [("error", JStr "Slack search not configured. Set SLACK_USER_TOKEN.")])
  else
    Send {| hr_method := method; hr_url := _SLACK_API_BASE +:+ endpoint;
            hr_auth := [user_token client]; hr_params := params; hr_json := body |} reply_value.

(** *** Operations *)

Definition search_messages (query count : json) : Call json :=
  _request "GET" "/search.messages" (Some (JObj [("query", query); ("count", count)])) None.

Definition list_channels (limit : json) : Call json :=
  _request "GET" "/conversations.list" (Some (JObj
    [("limit", limit); ("types", JStr "public_channel,private_channel")])) None.

Definition get_channel_history (channel_id limit : json) : Call json :=
  _request "GET" "/conversations.history"
    (Some (JObj [("channel", channel_id); ("limit", limit)])) None.

Definition get_thread_replies (channel_id thread_ts limit : json) : Call json :=
  _request "GET" "/conversations.replies" (Some
    (JObj [("channel", channel_id); ("ts", thread_ts); ("limit", limit)])) None.

Definition get_user_info (user_id : json) : Call json :=
  _request "GET" "/users.info" (Some (JObj [("user", user_id)])) None.

Definition send_message (channel_id text thread_ts : json) : Call json :=
  let payload := [("channel", channel_id); ("text", text)] in
  let payload := when_truthy thread_ts ("thread_ts", thread_ts) payload in
  _request "POST" "/chat.postMessage" None (Some (JObj payload)).

(** *** Tools *)

Definition _make_slack_search_messages : ApiTool (Call string) :=
  {| t_name := "slack_search_messages";
     t_description :=
       "Search Slack messages across all channels. Example: slack_search_messages(query=" +:+
       dquote +:+ "deployment issue in:#ops" +:+ dquote +:+ ")";
     t_properties := [("query", property_ "string" "Search query (Slack syntax)");
                    ("count", property_d "integer" "Max results" (JInt 10))];
     t_required := Some ["query"];
     t_display_name := "Searching Slack";
     t_read_only := true; t_concurrency_safe := true; t_core := false;
     t_handler :=
       Arg "query" (fun query => Opt "count" (JInt _DEFAULT_SEARCH_LIMIT) (fun count =>
       Do (data ← search_messages query count; Ret (_format data)))) |}.

Definition _make_slack_list_channels : ApiTool (Call string) :=
  {| t_name := "slack_list_channels";
     t_description := "List Slack channels accessible to the user.";
     t_properties := [("limit", property_d "integer" "Max results" (JInt 10))];
     t_required := None;
     t_display_name := "Listing Slack channels";
     t_read_only := true; t_concurrency_safe := true; t_core := false;
     t_handler :=
       Opt "limit" (JInt _DEFAULT_SEARCH_LIMIT) (fun limit =>
       Do (data ← list_channels limit; Ret (_format data))) |}.

Definition _make_slack_get_channel_history : ApiTool (Call string) :=
  {| t_name := "slack_get_channel_history";
     t_description := "Get recent messages from a Slack channel.";
     t_properties := [("channel_id", property_ "string" "Slack channel ID");
                    ("limit", property_d "integer" "Max messages" (JInt 20))];
     t_required := Some ["channel_id"];
     t_display_name := "Getting channel history";
     t_read_only := true; t_concurrency_safe := true; t_core := false;
     t_handler :=
       Arg "channel_id" (fun channel_id => Opt "limit" (JInt _DEFAULT_HISTORY_LIMIT) (fun limit =>
       Do (data ← get_channel_history channel_id limit; Ret (_format data)))) |}.

Definition _make_slack_get_thread_replies : ApiTool (Call string) :=
  {| t_name := "slack_get_thread_replies";
     t_description := "Get replies in a Slack thread.";
     t_properties := [("channel_id", property_ "string" "Slack channel ID");
                    ("thread_ts", property_ "string" "Thread timestamp");
                    ("limit", property_d "integer" "Max replies" (JInt 20))];
     t_required := Some ["channel_id"; "thread_ts"];
     t_display_name := "Getting thread replies";
     t_read_only := true; t_concurrency_safe := true; t_core := false;
     t_handler :=
       Arg "channel_id" (fun channel_id => Arg "thread_ts" (fun thread_ts =>
       Opt "limit" (JInt _DEFAULT_HISTORY_LIMIT) (fun limit =>
       Do (data ← get_thread_replies channel_id thread_ts limit; Ret (_format data))))) |}.

Definition _make_slack_get_user_info : ApiTool (Call string) :=
  {| t_name := "slack_get_user_info";
     t_description := "Get profile information about a Slack user by user ID.";
     t_properties := [("user_id", property_ "string" "Slack user ID (e.g. U12345)")];
     t_required := Some ["user_id"];
     t_display_name := "Getting Slack user info";
     t_read_only := true; t_concurrency_safe := true; t_core := false;
     t_handler :=
       Arg "user_id" (fun user_id => Do (data ← get_user_info user_id; Ret (_format data))) |}.

Definition _make_slack_send_message : ApiTool (Call string) :=
  {| t_name := "slack_send_message";
     t_description :=
       "Send a message to a Slack channel or thread using the user token. Requires approval.";
     t_properties := [("channel_id", property_ "string" "Slack channel ID");
                    ("text", property_ "string" "Message text");
                    ("thread_ts", property_ "string" "Thread timestamp (optional)")];
     t_required := Some ["channel_id"; "text"];
     t_display_name := "Sending Slack message";
     t_read_only := false; t_concurrency_safe := true; t_core := false;
     t_handler :=
       Arg "channel_id" (fun channel_id => Arg "text" (fun text =>
       Opt "thread_ts" (JStr "") (fun thread_ts =>
       Do (data ← send_message channel_id text thread_ts; Ret (_format data))))) |}.

Definition slack_search_tools : list (ApiTool (Call string)) :=
  [_make_slack_search_messages;
   _make_slack_list_channels;
   _make_slack_get_channel_history;
   _make_slack_get_thread_replies;
   _make_slack_get_user_info;
   _make_slack_send_message].
End client.

Definition register_slack_search_tools {W} `{Service W} type_error bad_call (token : string)
  (r : Registry W) : string + Registry W :=
  let client := {| user_token := token |} in
  register_all (map (tool_spec (on_world run) bad_call _TOOLSET (Some (configured client)))
    (slack_search_tools type_error client)) r.
