(* ===== verification/WebSearch.v ===== *)
(** * WebSearch

    The search client, the page fetcher and their tools
    ([tools/web_search.py]).  [html.unescape], which only looks characters up
    in a table, is an argument. *)

From S2P Require Import Prelude Json AgentTypes Registry Regex Urls Tools Service.
From Stdlib Require Import Ascii.

Definition _BRAVE_SEARCH_URL : string := "https://api.search.brave.com/res/v1/web/search".
Definition _JINA_READER_PREFIX : string := "https://r.jina.ai/".
Definition _ERROR_BODY_MAX_CHARS : Z := 500.
Definition _DEFAULT_SEARCH_LIMIT : Z := 5.
Definition _FETCH_MAX_CHARS : Z := 32768.
Definition _TOOLSET : string := "web_search".

(** [BraveSearchClient], without the pooled HTTP client. *)
Record BraveSearchClient := { api_key : string }.

Definition configured (c : BraveSearchClient) : bool := str_truthy (api_key c).

Section client.
Context (type_error : json -> string) (unescape : string -> string).
Context (client : BraveSearchClient) (jina_api_key : string).

Definition get (url : string) (auth : list string) (params : option json)
  (k : HttpReply -> Call json) : Call json :=
  Send {| hr_method := "GET"; hr_url := url; hr_auth := auth; hr_params := params;
          hr_json := None |} k.

(** *** Search *)

Definition search (query count : json) : Call json :=
  if negb (configured client) then
    Ret (JObj [("error", JStr "Web search not configured. Set BRAVE_SEARCH_API_KEY.")])
  else
    get _BRAVE_SEARCH_URL [api_key client] (Some (JObj [("q", query); ("count", count)]))
      (fun reply =>
         match reply with
         | Failed _ exc => Raise exc
         | Replied status text _ body =>
             if (400 <=? status)%Z then
               Ret (JObj [("error", JStr ("Brave Search API returned " +:+ show_Z status));
                          ("body", JStr (py_prefix _ERROR_BODY_MAX_CHARS text))])
             else lift body
         end).

(** ["error" in data] *)
Definition mentions_error (data : json) : string + bool :=
  match data with
  | JObj o => inr (match obj_get "error" o with Some _ => true | None => false end)
  | JArr l => inr (existsb (is_str "error") l)
  | JStr s => inr (str_contains "error" s)
  | _ => inl (type_error data)
  end.

(** [data.get(key, d)] *)
Definition get_or (key : string) (d data : json) : string + json :=
  match data with
  | JObj o => inr (default d (obj_get key o))
  | _ => inl (type_error data)
  end.

Fixpoint result_lines (i : Z) (results : list json) : string + list string :=
  match results with
  | [] => inr []
  | r :: results =>
      (title <-- get_or "title" (JStr "(no title)") r;;
       url <-- get_or "url" (JStr "") r;;
       snippet <-- get_or "description" (JStr "") r;;
       lines <-- result_lines (i + 1) results;;
       inr ((show_Z i +:+ ". " +:+ json_str title +:+ newline +:+ "   " +:+ json_str url +:+
             newline +:+ "   " +:+ json_str snippet) :: lines))%result
  end.

Definition _format_search_results (data : json) : string + string :=
  (error <-- mentions_error data;;
   if (error : bool) then inr (_format data)
   else
     web <-- get_or "web" (JObj []) data;;
     results <-- get_or "results" (JArr []) web;;
     if negb (json_truthy results) then inr "No results found."
     else match results with
          | JArr l => lines <-- result_lines 1 l;; inr (String.concat (newline +:+ newline) lines)
          | v => inl (type_error v)
          end)%result.

(** *** Fetching a page *)

Definition script_pattern : list item :=
  literal "<script" ++ [Rep true 0 None (not_char ">"%char)] ++ literal ">" ++
  [Rep false 0 None any] ++ literal "</script>".
Definition style_pattern : list item :=
  literal "<style" ++ [Rep true 0 None (not_char ">"%char)] ++ literal ">" ++
  [Rep false 0 None any] ++ literal "</style>".
Definition tag_pattern : list item := literal "<" ++ [Rep true 1 None (not_char ">"%char)] ++ literal ">".
Definition spaces_pattern : list item := [Rep true 1 None space_class].

Definition _strip_html (text : string) : string :=
  let text := sub script_pattern (fun _ => "") text in
  let text := sub style_pattern (fun _ => "") text in
  let text := sub tag_pattern (fun _ => " ") text in
  let text := unescape text in
  let text := sub spaces_pattern (fun _ => " ") text in
  strip text.

(** The text, or [JNull] for [None]. *)
Definition _fetch_via_jina (url : json) : Call json :=
  let auth := if str_truthy jina_api_key then ["Bearer " +:+ jina_api_key] else [] in
  get (_JINA_READER_PREFIX +:+ json_str url) auth None (fun reply =>
    match reply with
    | Failed true _ => Ret JNull
    | Failed false exc => Raise exc
    | Replied status text _ _ => if (400 <=? status)%Z then Ret JNull else Ret (JStr text)
    end).

Definition _fetch_direct (url : json) : Call json :=
  u ← lift (as_str type_error url);
  get u [] None (fun reply =>
    match reply with
    | Failed true exc => Ret (JStr ("Error fetching " +:+ u +:+ ": " +:+ exc))
    | Failed false exc => Raise exc
    | Replied status text content_type _ =>
        if (400 <=? status)%Z then
          Ret (JStr ("Error: HTTP " +:+ show_Z status +:+ " fetching " +:+ u))
        else if str_contains "html" content_type then Ret (JStr (_strip_html text))
        else Ret (JStr text)
    end).

(** [text if len(text) <= _FETCH_MAX_CHARS], or its beginning and a note *)
Definition cut_page (text : string) : string :=
  if (_FETCH_MAX_CHARS <? py_len text)%Z then
    py_prefix _FETCH_MAX_CHARS text +:+ newline +:+ "... (truncated at " +:+
    show_Z _FETCH_MAX_CHARS +:+ " chars)"
  else text.

Definition web_fetch (url : json) : Call string :=
  text ← _fetch_via_jina url;
  text ← (match text with JNull => _fetch_direct url | text => Ret text end);
  Ret (cut_page (json_str text)).

(** *** Tools *)

Definition _make_web_search (default_limit : json) : ApiTool (Call string) :=
  {| t_name := "web_search";
     t_description := "Search the web for real-time information. Returns titles, URLs, " +:+
       "and snippets for the top results. Use for current events, documentation " +:+
       "lookups, or any question that needs up-to-date info.";
     t_properties := [("query", property_ "string" "Search query.");
                      ("count", property_d "integer" "Number of results to return." default_limit)];
     t_required := Some ["query"];
     t_display_name := "Searching the web";
     t_read_only := true; t_concurrency_safe := true; t_core := false;
     t_handler :=
       Arg "query" (fun query => Opt "count" default_limit (fun count =>
       Do (data ← search query count; lift (_format_search_results data)))) |}.

Definition _make_web_fetch : ApiTool (Call string) :=
  {| t_name := "web_fetch";
     t_description := "Fetch a web page by URL and return its content as Markdown. " +:+
       "Use after web_search to read a specific page, or to fetch documentation, " +:+
       "README files, API references, etc.";
     t_properties := [("url", property_ "string" "Full URL to fetch (https://...).")];
     t_required := Some ["url"];
     t_display_name := "Fetching web page";
     t_read_only := true; t_concurrency_safe := true; t_core := false;
     t_handler := Arg "url" (fun url => Do (web_fetch url)) |}.
End client.

(** Only the search depends on its key. *)
Definition register_web_search_tools {W} `{Service W} type_error unescape bad_call
  (key jina_api_key : string) (default_limit : json) (r : Registry W) : string + Registry W :=
  let client := {| api_key := key |} in
  register_all
    [tool_spec (on_world run) bad_call _TOOLSET (Some (configured client))
       (_make_web_search type_error client default_limit);
     tool_spec (on_world run) bad_call _TOOLSET None (_make_web_fetch type_error unescape jina_api_key)] r.
