(* ===== verification/ServiceTheorems.v ===== *)
(** * ServiceTheorems

    The service tools together: which requests a read-only tool can send,
    which arguments a tool takes, what a path segment can hold, and what a
    refused Jira update looks like. *)

From S2P Require Import Prelude Json AgentTypes Registry Urls Tools Service.
From S2P Require Import GitLab Jira Gerrit Confluence SlackSearch WebSearch.
From Stdlib Require Import Ascii.

(** ** Handlers *)

(** Whatever the arguments, only requests that satisfy [P] are sent. *)
Fixpoint handler_sends (P : HttpRequest -> Prop) (h : Handler_ (Call string)) : Prop :=
  match h with
  | Do m => sends_only P m
  | Arg _ k | Opt _ _ k => forall v, handler_sends P (k v)
  end.

Lemma fill_sends P h args m : handler_sends P h -> fill h args = Some m -> sends_only P m.
Proof.
  induction h as [m'|n k IH|n d k IH]; cbn; intros Hh Hm.
  - by injection Hm as <-.
  - destruct (obj_get n args) as [v|]; [|done]. cbn in Hm. by eapply IH.
  - by eapply IH.
Qed.

(** ** The services *)

(** The texts of Python's errors, [html.unescape] and the
    clients with their credentials. *)
Record Services := {
  type_error : json -> string;
  unescape : string -> string;
  gitlab : GitLabClient;
  jira : JiraClient;
  gerrit : GerritClient;
  confluence : ConfluenceClient;
  slack : SlackSearchClient;
  brave : BraveSearchClient;
  jina_api_key : string;
  default_limit : json
}.

Section services.
Context (s : Services).

Definition service_tools : list (ApiTool (Call string)) :=
  gitlab_tools (type_error s) (gitlab s) ++ jira_tools (type_error s) (jira s) ++
  gerrit_tools (type_error s) (gerrit s) ++ confluence_tools (confluence s) ++
  slack_search_tools (type_error s) (slack s) ++
  [_make_web_search (type_error s) (brave s) (default_limit s);
   _make_web_fetch (type_error s) (unescape s) (jina_api_key s)].

(** A GET, or Jira's search, whose query is the body of a POST. *)
Definition reads (r : HttpRequest) : Prop :=
  hr_method r = "GET" \/
  hr_method r = "POST" /\ hr_url r = Jira.base_url (jira s) +:+ "/rest/api/2/search".

Lemma gitlab_get c ep ps b : sends_only reads (GitLab._request c "GET" ep ps b).
Proof.
  unfold GitLab._request. case_if; [done|]. split; [by left|].
  intros [h exc|st tx ct body]; cbn; [done|]. case_if; [done|apply sends_lift].
Qed.

Lemma gitlab_get_text c ep : sends_only reads (GitLab._request_text c ep).
Proof.
  unfold GitLab._request_text. case_if; [done|]. split; [by left|].
  intros [h exc|st tx ct body]; cbn; [done|]. by case_if.
Qed.

Lemma jira_get c ep ps b : sends_only reads (Jira._request c "GET" ep ps b).
Proof.
  unfold Jira._request. case_if; [done|]. split; [by left|].
  intros [h exc|st tx ct body]; cbn -[existsb]; [done|]. case_if; [done|].
  case_if; [done|apply sends_lift].
Qed.

Lemma jira_search_post ps b :
  sends_only reads (Jira._request (jira s) "POST" "/rest/api/2/search" ps b).
Proof.
  unfold Jira._request. case_if; [done|]. split; [by right|].
  intros [h exc|st tx ct body]; cbn -[existsb]; [done|]. case_if; [done|].
  case_if; [done|apply sends_lift].
Qed.

Lemma gerrit_get c ep ps b : sends_only reads (Gerrit._request c "GET" ep ps b).
Proof.
  unfold Gerrit._request. case_if; [done|]. split; [by left|].
  intros [h exc|st tx ct body]; cbn; [done|]. case_if; [done|apply sends_lift].
Qed.

Lemma confluence_get c ep ps b : sends_only reads (Confluence._request c "GET" ep ps b).
Proof.
  unfold Confluence._request. case_if; [done|]. split; [by left|].
  intros [h exc|st tx ct body]; cbn; [done|]. case_if; [done|]. case_if; [done|apply sends_lift].
Qed.

Lemma slack_get te c ep ps b : sends_only reads (SlackSearch._request te c "GET" ep ps b).
Proof.
  unfold SlackSearch._request. case_if; [done|]. split; [by left|].
  intros [h exc|st tx ct [exc|[]]]; cbn; try done. by case_if.
Qed.

Lemma web_get url auth ps k :
  (forall reply, sends_only reads (k reply)) -> sends_only reads (WebSearch.get url auth ps k).
Proof. intros Hk. split; [by left|done]. Qed.
End services.

Create HintDb service.
#[export] Hint Resolve sends_lift gitlab_get gitlab_get_text jira_get jira_search_post gerrit_get
  confluence_get slack_get : service.

(** Steps through a computation, unfolding the operation at its head. *)
Ltac sends_step :=
  cbv beta zeta;
  first
    [ exact I
    | solve [auto with service]
    | apply sends_bind; [|intros ?]
    | apply web_get; intros [[] ?|? ? ? ?]
    | case_if
    | match goal with |- sends_only _ (match ?x with _ => _ end) => destruct x end
    | match goal with |- sends_only _ ?m => unfold_head m end ].

(** A tool with its fields and parameters in view. *)
Ltac open_tool :=
  match goal with |- context [t_handler ?t] => unfold_head t end;
  cbn [t_read_only t_handler t_properties t_required handler_sends].

Definition read_only_reads (s : Services) (t : ApiTool (Call string)) : Prop :=
  t_read_only t = true -> handler_sends (reads s) (t_handler t).

Ltac reads_only :=
  repeat (apply Forall_cons;
          [open_tool; intros Hro; try discriminate Hro; intros; repeat sends_step|]);
  apply Forall_nil.

Lemma gitlab_reads s : Forall (read_only_reads s) (gitlab_tools (type_error s) (gitlab s)).
Proof. unfold gitlab_tools, read_only_reads. reads_only. Qed.

Lemma jira_reads s : Forall (read_only_reads s) (jira_tools (type_error s) (jira s)).
Proof. unfold jira_tools, read_only_reads. reads_only. Qed.

Lemma gerrit_reads s :
  Forall (read_only_reads s) (gerrit_tools (type_error s) (gerrit s)).
Proof. unfold gerrit_tools, read_only_reads. reads_only. Qed.

Lemma confluence_reads s : Forall (read_only_reads s) (confluence_tools (confluence s)).
Proof. unfold confluence_tools, read_only_reads. reads_only. Qed.

Lemma slack_reads s : Forall (read_only_reads s) (slack_search_tools (type_error s) (slack s)).
Proof. unfold slack_search_tools, read_only_reads. reads_only. Qed.

Lemma web_reads s :
  Forall (read_only_reads s)
    [_make_web_search (type_error s) (brave s) (default_limit s);
     _make_web_fetch (type_error s) (unescape s) (jina_api_key s)].
Proof. unfold read_only_reads. reads_only. Qed.

Lemma service_reads s : Forall (read_only_reads s) (service_tools s).
Proof.
  unfold service_tools. repeat (apply Forall_app; split); eauto using gitlab_reads, jira_reads,
    gerrit_reads, confluence_reads, slack_reads, web_reads.
Qed.

(** C11: a service tool that is registered as read-only only reads.
    Whatever the arguments and the answers, every request it sends is a GET,
    or the POST that carries the query of Jira's search; so whatever relation
    between states of the outside these requests keep, a call of the tool
    keeps.  And the flag is the one the model is told: exactly the tools that
    are not read-only are described to it as requiring approval. *)
Theorem read_only_tools_only_read s t :
  t ∈ service_tools s ->
  (t_read_only t = true ->
   (forall args m, apply_args (t_handler t) args = Some m -> sends_only (reads s) m) /\
   (forall W (S : Service W) bad_call toolset check (R : W -> W -> Prop),
      Reflexive R -> Transitive R -> (forall r w, reads s r -> R w (request r w).2) ->
      forall args c, R c.2 (handler (tool_spec (on_world run) bad_call toolset check t) args c).2.2)) /\
  endswith "Requires approval." (t_description t) = negb (t_read_only t).
Proof.
  intros Ht. split.
  - intros Hro.
    assert (Hs : forall args m, apply_args (t_handler t) args = Some m -> sends_only (reads s) m).
    { intros args m Hm. pose proof (Forall_elem _ _ _ (service_reads s) Ht Hro) as Hr.
      unfold apply_args in Hm. destruct (forallb _ args); [|done]. by eapply fill_sends. }
    split; [exact Hs|]. intros W S bad_call toolset check R HR HT Hk args c. cbn.
    unfold tool_handler, on_world. destruct (apply_args (t_handler t) args) as [m|] eqn:Hm; [|done].
    pose proof (run_sends (reads s) R m c.2 HR HT Hk (Hs _ _ Hm)) as Hrun.
    by destruct (run m c.2).
  - refine (Forall_elem (fun t => _ (t_description t) = negb (t_read_only t)) _ t _ Ht).
    unfold service_tools.
    repeat (apply Forall_cons; [vm_compute; reflexivity|]). apply Forall_nil.
Qed.

(** ** Schemas *)

Lemma gitlab_schemas s : Forall schema_ok (gitlab_tools (type_error s) (gitlab s)).
Proof. unfold gitlab_tools. schemas_fit. Qed.

Lemma jira_schemas s : Forall schema_ok (jira_tools (type_error s) (jira s)).
Proof. unfold jira_tools. schemas_fit. Qed.

Lemma gerrit_schemas s :
  Forall schema_ok (gerrit_tools (type_error s) (gerrit s)).
Proof. unfold gerrit_tools. schemas_fit. Qed.

Lemma confluence_schemas s : Forall schema_ok (confluence_tools (confluence s)).
Proof. unfold confluence_tools. schemas_fit. Qed.

Lemma slack_schemas s : Forall schema_ok (slack_search_tools (type_error s) (slack s)).
Proof. unfold slack_search_tools. schemas_fit. Qed.

Lemma web_schemas s :
  Forall schema_ok
    [_make_web_search (type_error s) (brave s) (default_limit s);
     _make_web_fetch (type_error s) (unescape s) (jina_api_key s)].
Proof. schemas_fit. Qed.

Lemma service_schemas s : Forall schema_ok (service_tools s).
Proof.
  unfold service_tools. repeat (apply Forall_app; split); eauto using gitlab_schemas,
    jira_schemas, gerrit_schemas, confluence_schemas, slack_schemas, web_schemas.
Qed.

(** C34: the schema the model is shown is the handler's signature.  For every
    service tool the properties are the parameters, in order and once each,
    the required ones those without a default, and a default of the schema is
    the handler's; so a call is a [TypeError] exactly when it names an unknown
    property or leaves out a required one, and is never one for a call that
    follows the schema. *)
Theorem schemas_are_signatures s t :
  t ∈ service_tools s ->
  let ps := parameters (t_handler t) in
  NoDup (map fst ps) /\
  map fst (t_properties t) = map fst ps /\
  default [] (t_required t) = required_params ps /\
  Forall (default_agrees (t_properties t)) ps /\
  forall args,
    is_Some (apply_args (t_handler t) args) <->
    (forall k v, (k, v) ∈ args -> k ∈ map fst (t_properties t)) /\
    (forall n, n ∈ default [] (t_required t) -> is_Some (obj_get n args)).
Proof.
  intros Ht. pose proof (Forall_elem _ _ _ (service_schemas s) Ht) as Hs.
  split_and!; [apply Hs..|]. intros args. by apply schema_calls.
Qed.

(** ** Path segments *)

(** A project or file path is one path segment of the request.  Of a
    text [_encode_path] makes only unreserved characters and percent signs, so
    no slash, question mark or hash ends the segment; it changes nothing the
    second time; a path without percent signs and its encoded form give the
    same segment, and decoding that gives the path back.  Only what is no text
    is an error. *)
Theorem paths_are_segments te v :
  (forall seg, _encode_path te v = inr seg ->
     all_chars segment_char seg = true /\
     (forall c, c ∈ ["/"; "?"; "#"]%char -> has_char c seg = false) /\
     _encode_path te (JStr seg) = inr seg) /\
  (forall p, v = JStr p -> utf8 p -> has_char "%" p = false ->
     _encode_path te v = inr (quote p) /\ _encode_path te (JStr (quote p)) = inr (quote p) /\
     unquote (quote p) = p) /\
  (forall exc, _encode_path te v = inl exc <-> exc = te v /\ forall p, v <> JStr p).
Proof.
  assert (He : forall p, _encode_path te (JStr p) = inr (encode p)) by done.
  split_and!.
  - intros seg Hseg. destruct v as [| | | |p| |]; try discriminate. rewrite He in Hseg.
    injection Hseg as <-. split_and!.
    + apply quote_segment.
    + intros c Hc. apply segment_no_char; [|apply quote_segment].
      repeat (apply elem_of_cons in Hc as [->|Hc]; [reflexivity|]). by apply not_elem_of_nil in Hc.
    + by rewrite He, encode_idempotent.
  - intros p -> Hu Hp. rewrite !He, encode_encoded, encode_plain, unquote_quoted by done. done.
  - intros exc. destruct v as [| | | |p| |]; cbn; split; try (by intros [= <-]);
      try (by intros [-> _]).
    intros [_ Hv]. by destruct (Hv p).
Qed.

(** ** Jira's updates *)

Section refused.
Context {W : Type} `{Service W} (c : JiraClient).

Lemma run_bind {A B} (m : Call A) (f : A -> Call B) (w : W) :
  run (m ≫= f) w = match run m w with (inl exc, w) => (inl exc, w) | (inr x, w) => run (f x) w end.
Proof.
  change (m ≫= f) with (call_bind f m). revert w.
  induction m as [x|exc|r k IH]; intros w; cbn; [done|done|]. destruct (request r w). apply IH.
Qed.

Lemma when_given_grows v x (fields : list (string * json)) :
  fields <> [] -> when_given v x fields <> [].
Proof. destruct fields; [done|]. by destruct v. Qed.

Lemma refused_reply meth endpoint body w w1 status text ct reply :
  Jira.configured c = true -> (400 <= status)%Z ->
  (forall r, hr_method r = meth -> request r w = (Replied status text ct reply, w1)) ->
  run (Jira._request c meth endpoint None body) w =
    (inr (error_reply "Jira" status text Jira._ERROR_BODY_MAX_CHARS), w1).
Proof.
  intros Hc Hs Hr. unfold Jira._request. rewrite Hc. cbn [negb run]. rewrite Hr by done.
  unfold Jira.reply_value, Jira._HTTP_ERROR_THRESHOLD. cbn [run].
  by rewrite (proj2 (Z.leb_le _ _) Hs).
Qed.

(** A refused update or transition is answered like an accepted one: what the
    caller gets is the issue as it is read afterwards. *)
Theorem refused_updates_look_accepted key sm d a p dd l co e tr cm w w1 status text ct reply :
  Jira.configured c = true -> (400 <= status)%Z ->
  let read := run (Jira.get_issue c key (JStr Jira._DEFAULT_FIELDS)) w1 in
  ((forall r, hr_method r = "PUT" -> request r w = (Replied status text ct reply, w1)) ->
   run (Jira.update_issue c key (JStr sm) d a p dd l co e) w = read) /\
  ((forall r, hr_method r = "POST" -> request r w = (Replied status text ct reply, w1)) ->
   run (Jira.transition_issue c key tr cm) w = read).
Proof.
  intros Hc Hs. split; intros Hr.
  - unfold Jira.update_issue. cbv zeta.
    match goal with |- run (match ?fields with _ => _ end) _ = _ =>
      assert (Hf : fields <> []) by (do 7 apply when_given_grows; discriminate);
      destruct fields; [done|]
    end.
    by rewrite run_bind, (refused_reply _ _ _ _ _ _ _ _ _ Hc Hs Hr).
  - unfold Jira.transition_issue. cbv zeta.
    by rewrite run_bind, (refused_reply _ _ _ _ _ _ _ _ _ Hc Hs Hr).
Qed.
End refused.

(** ** A concrete deployment *)

Definition sample_services : Services :=
  {| type_error := fun v => "bad " +:+ json_type_name v;
     unescape := fun s => s;
     gitlab := GitLab.new_client "https://gitlab.test/" "t";
     jira := Jira.new_client "https://jira.test" "Basic t";
     gerrit := Gerrit.new_client "https://gerrit.test" "u" "p";
     confluence := Confluence.new_client "https://wiki.test" "u" "p";
     slack := {| user_token := "x" |}; brave := {| api_key := "k" |};
     jina_api_key := ""; default_limit := JInt 5 |}.

(** The suffix [/api/v4] is not all that is stripped from a GitLab URL. *)
Example stripped_host : GitLab.base_url (GitLab.new_client "https://git.example.via" "t") =
  "https://git.example.".
Proof. vm_compute. reflexivity. Qed.

Definition sample_search : ApiTool (Call string) :=
  _make_jira_search (type_error sample_services) (jira sample_services).

Lemma sample_search_in : sample_search ∈ service_tools sample_services.
Proof. unfold service_tools. apply list_elem_of_In. cbn. do 29 right. left. reflexivity. Qed.

Lemma read_only_tools_only_read_witness :
  t_read_only sample_search = true /\
  exists m, apply_args (t_handler sample_search) [("jql", JStr "status = Open")] = Some m /\
    sends_only (reads sample_services) m.
Proof.
  split; [reflexivity|]. eexists. split; [reflexivity|].
  destruct (read_only_tools_only_read sample_services sample_search sample_search_in) as [H _].
  destruct (H eq_refl) as [Hs _]. apply (Hs [("jql", JStr "status = Open")]). reflexivity.
Defined.

Lemma schemas_are_signatures_witness :
  is_Some (apply_args (t_handler sample_search) [("limit", JInt 3); ("jql", JStr "q")]) /\
  apply_args (t_handler sample_search) [("limit", JInt 3)] = None.
Proof.
  split; [|reflexivity].
  apply (schemas_are_signatures sample_services sample_search sample_search_in). split.
  - intros k v Hin. cbn in *. set_solver.
  - intros n Hn. cbn in *. apply list_elem_of_singleton in Hn as ->. by eexists.
Defined.
