(* ===== verification/LiveChecks.v ===== *)
(** * LiveChecks

    The checks of the service clients against live endpoints
    ([testing/live_checks.py]), over the clients of [GitLab], [Jira],
    [Gerrit], [Confluence] and [SlackSearch]: what each asks, what it makes of
    the answer, and that none of them changes anything.

    Arguments are JSON values, as those of the clients are; the texts of the
    errors of slicing and indexing a value that has neither are arguments. *)

From S2P Require Import Prelude Json AgentTypes Registry Urls Tools Service.
From S2P Require Import GitLab Jira Gerrit Confluence SlackSearch ServiceTheorems.

(** ** Results *)

Record CheckResult := {
  ck_name : string;
  ck_passed : bool;
  ck_detail : json;
  ck_data : json
}.

(** [_no_error]: the failing result for an error dictionary. *)
Definition _no_error (data : json) (label : string) : option CheckResult :=
  match data with
  | JObj o =>
      match obj_get "error" o with
      | Some e => Some {| ck_name := label; ck_passed := false; ck_detail := JStr (json_str e); ck_data := JNull |}
      | None => None
      end
  | _ => None
  end.

(** What every check does with its answer. *)
Definition report (label : string) (detail : json -> string + json) (data : json) : Call CheckResult :=
  match _no_error data label with
  | Some failed => Ret failed
  | None =>
      d ← lift (detail data);
      Ret {| ck_name := label; ck_passed := true; ck_detail := d; ck_data := data |}
  end.

Definition checked (label : string) (call : Call json) (detail : json -> string + json) : Call CheckResult :=
  data ← call; report label detail data.

(** ** Reading an answer *)

Definition unknown : json := JStr "?".

(** [v.get(k, d)] *)
Definition get_or (k : string) (d v : json) : string + json :=
  match v with
  | JObj o => inr (default d (obj_get k o))
  | v => inl ("'" +:+ json_type_name v +:+ "' object has no attribute 'get'")
  end.

(** [len(v)] *)
Definition len_of (v : json) : string + Z :=
  match v with
  | JArr l => inr (Z.of_nat (length l))
  | JObj o => inr (Z.of_nat (length o))
  | JStr s => inr (py_len s)
  | v => inl ("object of type '" +:+ json_type_name v +:+ "' has no len()")
  end.

(** The characters of a text. *)
Fixpoint chars (s : string) : list string :=
  match s with
  | EmptyString => []
  | String c s =>
      match chars s with
      | (String c' w) :: l =>
          if is_continuation c' then String c (String c' w) :: l else String c "" :: String c' w :: l
      | l => String c "" :: l
      end
  end.

(** What [for x in v] goes through. *)
Definition iterate (v : json) : string + list json :=
  match v with
  | JArr l => inr l
  | JObj o => inr (map (fun kv => JStr kv.1) o)
  | JStr s => inr (map JStr (chars s))
  | v => inl ("'" +:+ json_type_name v +:+ "' object is not iterable")
  end.

Fixpoint sum_len (vs : list json) : string + Z :=
  match vs with
  | [] => inr 0%Z
  | v :: vs => (n <-- len_of v;; m <-- sum_len vs;; inr (n + m)%Z)%result
  end.

Definition counted (n : Z) (unit : string) : json := JStr (show_Z n +:+ unit).

(** [count = len(data) if isinstance(data, list) else "?"] *)
Definition listed (data : json) (unit : string) : json :=
  match data with
  | JArr l => counted (Z.of_nat (length l)) (" " +:+ unit)
  | _ => JStr ("? " +:+ unit)
  end.

Definition is_commit_msg (v : json) : bool :=
  match v with JStr s => String.eqb s "/COMMIT_MSG" | _ => false end.

(** ** The checks *)

Section checks.
(** The texts of the errors of [v[:80]] and of [v[0]], [v[k]]. *)
Context (not_sliceable not_subscriptable : json -> string).
Context (s : Services).

Local Abbreviation te := (type_error s) (only parsing).

Definition first80 (v : json) : string + json :=
  match v with
  | JStr t => inr (JStr (py_prefix 80 t))
  | JArr l => inr (JArr (take 80 l))
  | v => inl (not_sliceable v)
  end.

Definition first_item (v : json) : string + json :=
  match v with JArr (m :: _) => inr m | v => inl (not_subscriptable v) end.

Definition item (k : string) (v : json) : string + json :=
  match v with
  | JObj o => match obj_get k o with Some x => inr x | None => inl (py_repr k) end
  | v => inl (not_subscriptable v)
  end.

(** *** GitLab *)

Definition check_gitlab_whoami : Call CheckResult :=
  checked "gitlab_whoami"
    (GitLab.get_current_user (gitlab s))
    (get_or "username" unknown).

Definition check_gitlab_search_projects (query : json) : Call CheckResult :=
  checked "gitlab_search_projects"
    (GitLab.search_projects (gitlab s) query (JInt 5))
    (fun d => (n <-- len_of d;; inr (counted n " result(s)"))%result).

Definition check_gitlab_get_project (project_id : json) : Call CheckResult :=
  checked "gitlab_get_project"
    (GitLab.get_project te (gitlab s) project_id)
    (get_or "path_with_namespace" unknown).

Definition check_gitlab_get_project_encoded (project_id : json) : Call CheckResult :=
  encoded ← lift (py_quote te project_id);
  checked "gitlab_get_project_encoded" (GitLab.get_project te (gitlab s) (JStr encoded))
    (get_or "path_with_namespace" unknown).

Definition check_gitlab_list_merge_requests (project_id state : json) : Call CheckResult :=
  checked "gitlab_list_mrs"
    (GitLab.list_merge_requests te (gitlab s) project_id state (JInt 5))
    (fun d => (n <-- len_of d;; inr (counted n " MR(s)"))%result).

Definition check_gitlab_get_merge_request (project_id mr_iid : json) : Call CheckResult :=
  checked "gitlab_get_mr"
    (GitLab.get_merge_request te (gitlab s) project_id mr_iid)
    (fun d => (v <-- get_or "title" unknown d;; first80 v)%result).

Definition check_gitlab_get_mr_changes (project_id mr_iid : json) : Call CheckResult :=
  checked "gitlab_get_mr_changes"
    (GitLab.get_merge_request_changes te (gitlab s) project_id mr_iid)
    (fun d => inr (listed d "diff(s)")).

Definition check_gitlab_list_pipelines (project_id : json) : Call CheckResult :=
  checked "gitlab_list_pipelines"
    (GitLab.list_pipelines te (gitlab s) project_id (JInt 3))
    (fun d => (n <-- len_of d;; inr (counted n " pipeline(s)"))%result).

Definition check_gitlab_list_mr_notes (project_id mr_iid : json) : Call CheckResult :=
  checked "gitlab_list_mr_notes"
    (GitLab.list_mr_notes te (gitlab s) project_id mr_iid (JStr "asc") (JInt 10))
    (fun d => inr (listed d "note(s)")).

Definition check_gitlab_list_mr_discussions (project_id mr_iid : json) : Call CheckResult :=
  checked "gitlab_list_mr_discussions"
    (GitLab.list_mr_discussions te (gitlab s) project_id mr_iid (JInt 10))
    (fun d => inr (listed d "discussion(s)")).

Definition check_gitlab_get_mr_approvals (project_id mr_iid : json) : Call CheckResult :=
  checked "gitlab_get_mr_approvals"
    (GitLab.get_mr_approvals te (gitlab s) project_id mr_iid)
    (fun d => (a <-- get_or "approved" (JBool false) d;; inr (JStr ("approved=" +:+ json_str a)))%result).

Definition check_gitlab_list_branches (project_id : json) : Call CheckResult :=
  checked "gitlab_list_branches"
    (GitLab.list_branches te (gitlab s) project_id (JStr "") (JInt 5))
    (fun d => inr (listed d "branch(es)")).

Definition check_gitlab_list_commits (project_id : json) : Call CheckResult :=
  checked "gitlab_list_commits"
    (GitLab.list_commits te (gitlab s) project_id (JStr "main") (JInt 5))
    (fun d => inr (listed d "commit(s)")).

Definition check_gitlab_get_commit (project_id sha : json) : Call CheckResult :=
  checked "gitlab_get_commit"
    (GitLab.get_commit te (gitlab s) project_id sha)
    (fun d => (v <-- get_or "title" unknown d;; first80 v)%result).

(** *** Gerrit *)

Definition check_gerrit_whoami : Call CheckResult :=
  checked "gerrit_whoami"
    (Gerrit.get_account (gerrit s))
    (fun d => (u <-- get_or "username" unknown d;; get_or "name" u d)%result).

Definition check_gerrit_get_change (change_id : json) : Call CheckResult :=
  checked "gerrit_get_change"
    (Gerrit.get_change (gerrit s) change_id)
    (fun d => (n <-- get_or "_number" unknown d;; inr (JStr ("#" +:+ json_str n)))%result).

Definition check_gerrit_get_change_detail (change_id : json) : Call CheckResult :=
  checked "gerrit_get_change_detail"
    (Gerrit.get_change_detail (gerrit s) change_id)
    (fun d => (l <-- get_or "labels" (JObj []) d;; ks <-- iterate l;; inr (JStr ("labels=" +:+ json_str (JArr ks))))%result).

Definition check_gerrit_list_files (change_id : json) : Call CheckResult :=
  checked "gerrit_list_files"
    (Gerrit.list_files (gerrit s) change_id (JStr "current"))
    (fun d =>
    (fs <-- iterate d;;
     inr (counted (Z.of_nat (length (List.filter (fun f => negb (is_commit_msg f)) fs))) " file(s)"))%result).

Definition check_gerrit_get_comments (change_id : json) : Call CheckResult :=
  checked "gerrit_get_comments"
    (Gerrit.get_comments (gerrit s) change_id)
    (fun d =>
    match d with
    | JObj o => (n <-- sum_len (map snd o);; inr (counted n " comment(s)"))%result
    | _ => inr (counted 0 " comment(s)")
    end).

Definition check_gerrit_get_diff (change_id file_path : json) : Call CheckResult :=
  checked "gerrit_get_diff"
    (Gerrit.get_diff te (gerrit s) change_id file_path (JStr "current"))
    (fun _ => inr (JStr ("diff for " +:+ json_str file_path))).

Definition check_gerrit_list_changes (query limit : json) : Call CheckResult :=
  checked "gerrit_list_changes"
    (Gerrit.list_changes (gerrit s) query limit)
    (fun d => (n <-- len_of d;; inr (counted n " change(s)"))%result).

(** *** Jira *)

Definition check_jira_whoami : Call CheckResult :=
  checked "jira_whoami"
    (Jira.me (jira s))
    (get_or "displayName" unknown).

Definition check_jira_get_issue (issue_key : json) : Call CheckResult :=
  checked "jira_get_issue"
    (Jira.get_issue (jira s) issue_key (JStr _DEFAULT_FIELDS))
    (fun d =>
    (fields <-- get_or "fields" (JObj []) d;; summary <-- get_or "summary" unknown fields;;
     summary <-- first80 summary;; key <-- get_or "key" JNull d;;
     inr (JStr (json_str key +:+ ": " +:+ json_str summary)))%result).

Definition check_jira_search (jql limit : json) : Call CheckResult :=
  checked "jira_search"
    (Jira.search te (jira s) jql limit (JStr _DEFAULT_FIELDS))
    (fun d =>
    (total <-- get_or "total" (JInt 0) d;; issues <-- get_or "issues" (JArr []) d;; shown <-- len_of issues;;
     inr (JStr (json_str total +:+ " total, showing " +:+ show_Z shown)))%result).

Definition check_jira_get_issue_comments (issue_key : json) : Call CheckResult :=
  checked "jira_get_issue_comments"
    (Jira.get_issue (jira s) issue_key (JStr "comment"))
    (fun _ => inr (JStr ("fields for " +:+ json_str issue_key))).

Definition check_jira_get_transitions (issue_key : json) : Call CheckResult :=
  checked "jira_get_transitions"
    (Jira.get_transitions (jira s) issue_key)
    (fun d => (l <-- get_or "transitions" (JArr []) d;; n <-- len_of l;; inr (counted n " transition(s)"))%result).

(** *** Confluence *)

Definition check_confluence_get_page (page_id : json) : Call CheckResult :=
  checked "confluence_get_page"
    (Confluence.get_page (confluence s) page_id (JStr "body.storage,version,space"))
    (fun d => (v <-- get_or "title" unknown d;; first80 v)%result).

Definition check_confluence_search (cql limit : json) : Call CheckResult :=
  checked "confluence_search"
    (Confluence.search (confluence s) cql limit)
    (fun d => (l <-- get_or "results" (JArr []) d;; n <-- len_of l;; inr (counted n " result(s)"))%result).

Definition check_confluence_get_children (page_id : json) : Call CheckResult :=
  checked "confluence_get_children"
    (Confluence.get_page_children (confluence s) page_id (JInt 5))
    (fun d =>
    match d with
    | JObj _ => (l <-- get_or "results" (JArr []) d;; n <-- len_of l;; inr (counted n " child page(s)"))%result
    | _ => inr (JStr "? child page(s)")
    end).

Definition check_confluence_get_labels (page_id : json) : Call CheckResult :=
  checked "confluence_get_labels"
    (Confluence.get_labels (confluence s) page_id)
    (fun d =>
    match d with
    | JObj _ => (l <-- get_or "results" (JArr []) d;; n <-- len_of l;; inr (counted n " label(s)"))%result
    | _ => inr (JStr "? label(s)")
    end).

Definition check_confluence_get_comments (page_id : json) : Call CheckResult :=
  checked "confluence_get_comments"
    (Confluence.get_comments (confluence s) page_id (JInt 5))
    (fun d =>
    match d with
    | JObj _ => (l <-- get_or "results" (JArr []) d;; n <-- len_of l;; inr (counted n " comment(s)"))%result
    | _ => inr (JStr "? comment(s)")
    end).

(** *** Slack *)

Definition check_slack_search_messages (query count : json) : Call CheckResult :=
  checked "slack_search_messages"
    (SlackSearch.search_messages te (slack s) query count)
    (fun d =>
    (messages <-- get_or "messages" (JObj []) d;; total <-- get_or "total" (JInt 0) messages;;
     inr (JStr (json_str total +:+ " match(es)")))%result).

Definition check_slack_list_channels (limit : json) : Call CheckResult :=
  checked "slack_list_channels"
    (SlackSearch.list_channels te (slack s) limit)
    (fun d => (l <-- get_or "channels" (JArr []) d;; n <-- len_of l;; inr (counted n " channel(s)"))%result).

Definition check_slack_get_thread : Call CheckResult :=
  search ← SlackSearch.search_messages te (slack s) (JStr "from:me has:thread") (JInt 1);
  match _no_error search "slack_get_thread" with
  | Some failed => Ret failed
  | None =>
      messages ← lift (get_or "messages" (JObj []) search);
      matches ← lift (get_or "matches" (JArr []) messages);
      if negb (json_truthy matches) then
        Ret {| ck_name := "slack_get_thread"; ck_passed := true;
               ck_detail := JStr "no threads found (skipped)"; ck_data := JNull |}
      else
        msg ← lift (first_item matches);
        channel ← lift (item "channel" msg);
        channel_id ← lift (item "id" channel);
        thread_ts ← lift (get_or "ts" (JStr "") msg);
        checked "slack_get_thread"
          (SlackSearch.get_thread_replies te (slack s) channel_id thread_ts (JInt 5))
          (fun d => (l <-- get_or "messages" (JArr []) d;; n <-- len_of l;;
                     inr (counted n " reply/replies"))%result)
  end.

(** What the checks are run with. *)
Record CheckArgs := {
  ca_query : json;
  ca_project_id : json;
  ca_state : json;
  ca_mr_iid : json;
  ca_sha : json;
  ca_change_id : json;
  ca_file_path : json;
  ca_limit : json;
  ca_issue_key : json;
  ca_jql : json;
  ca_page_id : json;
  ca_cql : json;
  ca_count : json
}.

Definition live_checks (a : CheckArgs) : list (Call CheckResult) :=
  [check_gitlab_whoami;
   check_gitlab_search_projects (ca_query a);
   check_gitlab_get_project (ca_project_id a);
   check_gitlab_get_project_encoded (ca_project_id a);
   check_gitlab_list_merge_requests (ca_project_id a) (ca_state a);
   check_gitlab_get_merge_request (ca_project_id a) (ca_mr_iid a);
   check_gitlab_get_mr_changes (ca_project_id a) (ca_mr_iid a);
   check_gitlab_list_pipelines (ca_project_id a);
   check_gitlab_list_mr_notes (ca_project_id a) (ca_mr_iid a);
   check_gitlab_list_mr_discussions (ca_project_id a) (ca_mr_iid a);
   check_gitlab_get_mr_approvals (ca_project_id a) (ca_mr_iid a);
   check_gitlab_list_branches (ca_project_id a);
   check_gitlab_list_commits (ca_project_id a);
   check_gitlab_get_commit (ca_project_id a) (ca_sha a);
   check_gerrit_whoami;
   check_gerrit_get_change (ca_change_id a);
   check_gerrit_get_change_detail (ca_change_id a);
   check_gerrit_list_files (ca_change_id a);
   check_gerrit_get_comments (ca_change_id a);
   check_gerrit_get_diff (ca_change_id a) (ca_file_path a);
   check_gerrit_list_changes (ca_query a) (ca_limit a);
   check_jira_whoami;
   check_jira_get_issue (ca_issue_key a);
   check_jira_search (ca_jql a) (ca_limit a);
   check_jira_get_issue_comments (ca_issue_key a);
   check_jira_get_transitions (ca_issue_key a);
   check_confluence_get_page (ca_page_id a);
   check_confluence_search (ca_cql a) (ca_limit a);
   check_confluence_get_children (ca_page_id a);
   check_confluence_get_labels (ca_page_id a);
   check_confluence_get_comments (ca_page_id a);
   check_slack_search_messages (ca_query a) (ca_count a);
   check_slack_list_channels (ca_limit a);
   check_slack_get_thread].

(** ** Theorems *)

Lemma checked_sends P label call detail : sends_only P call -> sends_only P (checked label call detail).
Proof.
  intros Hc. unfold checked. apply sends_bind; [done|]. intros data. unfold report.
  destruct (_no_error data label); [done|]. apply sends_bind; [apply sends_lift|done].
Qed.

(** Nothing a live check can send, whatever it is run with and whatever it is
    answered, changes a service. *)
Theorem live_checks_only_read a : Forall (sends_only (reads s)) (live_checks a).
Proof.
  unfold live_checks.
  repeat (apply List.Forall_cons;
          [match goal with |- sends_only _ ?c => unfold_head c end;
           repeat first [apply checked_sends | sends_step]|]).
  apply List.Forall_nil.
Qed.

(** A check passes exactly when the client answers something other than an
    error dictionary whose fields it can read; an error dictionary is a failed
    check with its text, and a raise of the client is one of the check. *)
Theorem checked_spec {W} `{Service W} label call detail (w : W) :
  run (checked label call detail) w =
  match run call w with
  | (inl exc, w) => (inl exc, w)
  | (inr data, w) =>
      (match _no_error data label with
       | Some failed => inr failed
       | None =>
           match detail data with
           | inl exc => inl exc
           | inr d => inr {| ck_name := label; ck_passed := true; ck_detail := d; ck_data := data |}
           end
       end, w)
  end.
Proof.
  unfold checked. rewrite run_bind. destruct (run call w) as [[exc|data] w']; [done|].
  unfold report. destruct (_no_error data label); [done|]. rewrite run_bind.
  by destruct (detail data).
Qed.

Lemma error_answer_fails data label failed :
  _no_error data label = Some failed ->
  ck_passed failed = false /\ ck_name failed = label /\
  exists o e, data = JObj o /\ obj_get "error" o = Some e /\ ck_detail failed = JStr (json_str e).
Proof.
  unfold _no_error. destruct data as [| | | | | |o]; try done. destruct (obj_get "error" o) as [e|] eqn:He; [|done].
  intros [= <-]. eauto 10.
Qed.

(** A client without credentials fails its checks without a request. *)
Lemma unconfigured_fails {W} `{Service W} (w : W) :
  GitLab.configured (gitlab s) = false -> Gerrit.configured (gerrit s) = false ->
  Jira.configured (jira s) = false -> SlackSearch.configured (slack s) = false ->
  Forall (fun c => exists r, run c w = (inr r, w) /\ ck_passed r = false)
    [check_gitlab_whoami; check_gerrit_whoami; check_jira_whoami; check_slack_get_thread].
Proof.
  intros Hgl Hge Hji Hsl.
  unfold check_gitlab_whoami, check_gerrit_whoami, check_jira_whoami, check_slack_get_thread,
    GitLab.get_current_user, GitLab._request, Gerrit.get_account, Gerrit._request, Jira.me, Jira._request,
    SlackSearch.search_messages, SlackSearch._request.
  rewrite Hgl, Hge, Hji, Hsl. repeat (apply List.Forall_cons; [by eexists|]). apply List.Forall_nil.
Qed.
End checks.

(** A check may pass without having found anything: a service that knows no
    name for its user gives a detail that is no text. *)
Example nameless_user_passes :
  let answer := JObj [("username", JNull)] in
  report "gitlab_whoami" (get_or "username" unknown) answer =
  Ret {| ck_name := "gitlab_whoami"; ck_passed := true; ck_detail := JNull; ck_data := answer |}.
Proof. reflexivity. Qed.

Example characters : chars "aé/" = ["a"; "é"; "/"].
Proof. reflexivity. Qed.
