(* ===== verification/GitTools.v ===== *)
(** * GitTools

    The git tools of the coding agent ([tools/git.py]): the environment of
    the processes, [run_git], the five tools and the checks of [git_clone],
    with the part of [urllib.parse.urlparse] these use.

    Outside are the git process, [Path.resolve] and whether a path exists. *)

From S2P Require Import Prelude Json AgentTypes Finalization Registry Urls Tools.
From stdpp Require Import sorting.
From Stdlib Require Import Ascii.

Definition _DEFAULT_LOG_LIMIT : Z := 20.
Definition _TOOLSET : string := "git".
Definition _GIT_CLONE_TIMEOUT_S : Z := 300.

(** A git process in a directory, with a timeout; a path on the disk. *)
Class GitWorkspace (W : Type) := {
  git_process : string -> list string -> Z -> W -> GitProcess * W;
  path_exists : string -> W -> bool
}.

(** ** The environment *)

(** [env.get(a) or env.get(b)] decides the bundle git is told of. *)
Definition _build_git_env (env : gmap string string) : gmap string string :=
  match env !! "GIT_SSL_CAINFO" with
  | Some _ => env
  | None =>
      let ca_bundle := opt_or (env !! "SSL_CERT_FILE") (default "" (env !! "REQUESTS_CA_BUNDLE"))
        in
      if str_truthy ca_bundle then <["GIT_SSL_CAINFO" := ca_bundle]> env else env
  end.

(** ** Cutting texts *)

(** [s.partition(c)]: before and after the first [c], if there is one. *)
Fixpoint partition (c : ascii) (s : string) : string * option string :=
  match s with
  | EmptyString => (EmptyString, None)
  | String d s =>
      if Ascii.eqb d c then (EmptyString, Some s)
      else let '(a, b) := partition c s in (String d a, b)
  end.

(** [s.rpartition(c)[2]], which is [s.rsplit(c, 1)[-1]]: after the last [c]. *)
Fixpoint after_last (c : ascii) (s : string) : string :=
  match s with
  | EmptyString => EmptyString
  | String d s' => if has_char c s' then after_last c s'
                   else if Ascii.eqb d c then s' else s
  end.

(** The text up to the first character of a class. *)
Fixpoint until_char (stop : ascii -> bool) (s : string) : string :=
  match s with
  | EmptyString => EmptyString
  | String c s => if stop c then EmptyString else String c (until_char stop s)
  end.

Definition is_char (cs : string) (c : ascii) : bool := has_char c cs.

Fixpoint without_chars (drop : ascii -> bool) (s : string) : string :=
  match s with
  | EmptyString => EmptyString
  | String c s => if drop c then without_chars drop s else String c (without_chars drop s)
  end.

Fixpoint drop_leading (drop : ascii -> bool) (s : string) : string :=
  match s with
  | EmptyString => EmptyString
  | String c s' => if drop c then drop_leading drop s' else s
  end.

(** ** [urlparse(url).hostname] *)

Definition is_letter (c : ascii) : bool :=
  let n := N_of_ascii c in ((65 <=? n) && (n <=? 90) || (97 <=? n) && (n <=? 122))%N.
Definition scheme_char (c : ascii) : bool :=
  let n := N_of_ascii c in is_letter c || ((48 <=? n) && (n <=? 57))%N || is_char "+-." c.

Fixpoint all_of (p : ascii -> bool) (s : string) : bool :=
  match s with EmptyString => true | String c s => p c && all_of p s end.

(** What follows the scheme. *)
Definition after_scheme (url : string) : string :=
  match partition ":" url with
  | (String c scheme, Some rest) => if is_letter c && all_of scheme_char scheme then rest else url
  | _ => url
  end.

Section hostname.
(** The text of the [ValueError] of a malformed location, and whether what
    stands in brackets is an address. *)
Context (bad_netloc : string) (valid_brackets : string -> bool).

(** The host of a network location of ASCII characters. *)
Definition netloc_hostname (netloc : string) : string + option string :=
  if negb (Bool.eqb (has_char "[" netloc) (has_char "]" netloc))
     || (has_char "[" netloc && negb (valid_brackets netloc)) then inl bad_netloc
  else
    let hostinfo := after_last "@" netloc in
    let host :=
      match partition "[" hostinfo with
      | (_, Some bracketed) => (partition "]" bracketed).1
      | (h, None) => (partition ":" h).1
      end in
    if str_truthy host then
      let '(h, zone) := partition "%" host in
      inr (Some (lower h +:+ match zone with Some z => "%" +:+ z | None => "" end))
    else inr None.

Definition control_or_space (c : ascii) : bool := (N_of_ascii c <=? 32)%N.
Definition unsafe_byte (c : ascii) : bool :=
  let n := N_of_ascii c in ((n =? 9) || (n =? 10) || (n =? 13))%N.

Definition url_hostname (url : string) : string + option string :=
  let url := without_chars unsafe_byte (drop_leading control_or_space url) in
  let rest := after_scheme url in
  if startswith "//" rest then
    netloc_hostname
      (until_char (is_char "/?#") (String.substring 2 (String.length rest) rest))
  else inr None.

Definition _extract_git_url_host (repo_url : string) : string + option string :=
  if has_char "@" repo_url && has_char ":" repo_url && negb (str_contains "://" repo_url) then
    let after_at := default "" (partition "@" repo_url).2 in
    let host := (partition ":" after_at).1 in
    inr (if str_truthy host then Some host else None)
  else url_hostname repo_url.

End hostname.

(** ** The checks of [git_clone] *)

Definition _parse_allowed_hosts (raw : string) : gset string :=
  list_to_set (Registry.split (String.concat " " (split_on ","%char raw))).

Definition _default_clone_dest (repo_url : string) : string :=
  let tail := after_last ":" (after_last "/" (rstrip_chars "/" repo_url)) in
  let tail := if endswith ".git" tail
              then String.substring 0 (String.length tail - 4) tail else tail in
  str_or tail "repo".

(** [Path(root) / p], and [p.relative_to(root)] as a test. *)
Definition join_path (root p : string) : string :=
  if startswith "/" p then p else (if String.eqb root "/" then "" else root) +:+ "/" +:+ p.
Definition inside (root p : string) : bool :=
  String.eqb p root || startswith (if String.eqb root "/" then "/" else root +:+ "/") p.

Definition sorted_hosts (hosts : gset string) : list string :=
  merge_sort (fun a b => Is_true (String.leb a b)) (elements hosts).

Section tools.
Context {W : Type} `{GitWorkspace W}.
Context (type_error : json -> string) (bad_netloc : string) (valid_brackets : string -> bool).
Context (resolve : string -> string) (workspace_root : string) (allowed_hosts : gset string).

(** A tool's body: its exception or its text. *)
Definition Body : Type := W -> (string + string) * W.

Definition run_git (args : list string) (timeout : Z) (w : W) : string * W :=
  let '(p, w) := git_process workspace_root args timeout w in (git_output timeout p, w).

Definition git (args : list string) (timeout : Z) : Body := fun w =>
  let '(out, w) := run_git args timeout w in (inr out, w).

(** [v] among the arguments of a process, which have to be texts. *)
Definition with_text (v : json) (k : string -> Body) : Body := fun w =>
  match as_str type_error v with inl exc => (inl exc, w) | inr s => k s w end.

Definition git_diff (staged : json) : Body := fun w =>
  let args := "diff" :: (if json_truthy staged then ["--cached"] else []) in
  let '(result, w) := run_git args _GIT_TIMEOUT_S w in
  (inr (if str_truthy (strip result) then result else "No uncommitted changes."), w).

Definition git_commit (message add_all : json) : Body := fun w =>
  let commit := with_text message (fun m => git ["commit"; "-m"; m] _GIT_TIMEOUT_S) in
  if json_truthy add_all then
    let '(add_result, w) := run_git ["add"; "-A"] _GIT_TIMEOUT_S w in
    if is_git_error add_result then (inr ("Failed to stage: " +:+ add_result), w) else commit w
  else commit w.

Definition git_log (limit : json) : Body :=
  git ["log"; "--max-count=" +:+ json_str limit; "--oneline"; "--no-decorate"] _GIT_TIMEOUT_S.

Definition git_checkout (ref : json) : Body :=
  with_text ref (fun r => git ["checkout"; r] _GIT_TIMEOUT_S).

(** What is cloned where, or the answer that refuses it. *)
Definition clone_target (repo_url dest : json) (w : W) : (string + string) + (string * string) :=
  if bool_decide (allowed_hosts = ∅) then
    inl (inr ("Error: git_clone is disabled (GIT_CLONE_ALLOWED_HOSTS is empty). " +:+
              "Ask the operator to configure an allowlist."))
  else
    match (url <-- as_str type_error repo_url;;
           host <-- _extract_git_url_host bad_netloc valid_brackets url;; inr (url, host))%result
             with
    | inl exc => inl (inl exc)
    | inr (url, None) => inl (inr ("Error: could not parse host from URL " +:+ py_repr url))
    | inr (url, Some host) =>
        if negb (bool_decide (host ∈ allowed_hosts)) then
          inl (inr ("Error: host " +:+ py_repr host +:+ " is not in GIT_CLONE_ALLOWED_HOSTS. " +:+
                    "Allowed: " +:+ json_repr (JArr (map JStr (sorted_hosts allowed_hosts)))))
        else
          match (if json_truthy dest then as_str type_error dest
                 else inr (_default_clone_dest url)) with
          | inl exc => inl (inl exc)
          | inr dest =>
              let workspace_abs := resolve workspace_root in
              let dest_abs := resolve (join_path workspace_abs dest) in
              if negb (inside workspace_abs dest_abs) then
                inl (inr ("Error: destination " +:+ py_repr dest +:+
                  " escapes the workspace root"))
              else if path_exists dest_abs w then
                inl (inr ("Error: destination " +:+ py_repr dest +:+ " already exists"))
              else inr (url, dest_abs)
          end
    end.

Definition git_clone (repo_url dest : json) : Body := fun w =>
  match clone_target repo_url dest w with
  | inl answer => (answer, w)
  | inr (url, dest_abs) => git ["clone"; url; dest_abs] _GIT_CLONE_TIMEOUT_S w
  end.

(** *** Tools *)

Definition hosts_note : string :=
  if bool_decide (allowed_hosts = ∅) then
    "This tool is DISABLED on this deployment (no hosts approved) — any call will be rejected.  "
  else "Approved hosts: " +:+ String.concat ", " (sorted_hosts allowed_hosts) +:+ ".  ".

Definition _make_git_diff : ApiTool Body :=
  {| t_name := "git_diff";
     t_description :=
       "Show uncommitted changes in the workspace. Use staged=true for staged-only.";
     t_properties := [("staged", property_d "boolean" "Show only staged changes." (JBool false))];
     t_required := None;
     t_display_name := "Checking git diff";
     t_read_only := true; t_concurrency_safe := true; t_core := true;
     t_handler :=
       Opt "staged" (JBool false) (fun staged => Do (git_diff staged)) |}.

Definition _make_git_commit : ApiTool Body :=
  {| t_name := "git_commit";
     t_description := "Stage all changes and commit with a message.";
     t_properties := [("message", property_ "string" "Commit message.");
                    ("add_all", property_d "boolean" "Stage all changes first." (JBool true))];
     t_required := Some ["message"];
     t_display_name := "Committing changes";
     t_read_only := false; t_concurrency_safe := false; t_core := true;
     t_handler :=
       Arg "message" (fun message => Opt "add_all" (JBool true) (fun add_all =>
       Do (git_commit message add_all))) |}.

Definition _make_git_log : ApiTool Body :=
  {| t_name := "git_log";
     t_description := "Show recent commit history (one line per commit).";
     t_properties := [("limit", property_d "integer" "Max commits to show."
       (JInt _DEFAULT_LOG_LIMIT))];
     t_required := None;
     t_display_name := "Checking git log";
     t_read_only := true; t_concurrency_safe := true; t_core := true;
     t_handler :=
       Opt "limit" (JInt _DEFAULT_LOG_LIMIT) (fun limit => Do (git_log limit)) |}.

Definition _make_git_checkout : ApiTool Body :=
  {| t_name := "git_checkout";
     t_description := "Switch to an existing branch or commit in the workspace.  Does NOT " +:+
       "create new branches — use ``bash`` with ``git checkout -b`` for that.  Requires the " +:+
       "ref to already exist locally.";
     t_properties := [("ref", property_ "string" "Branch name or commit SHA to check out.")];
     t_required := Some ["ref"];
     t_display_name := "Switching branch";
     t_read_only := false; t_concurrency_safe := false; t_core := true;
     t_handler :=
       Arg "ref" (fun ref => Do (git_checkout ref)) |}.

Definition _make_git_clone : ApiTool Body :=
  {| t_name := "git_clone";
     t_description := "Clone a remote git repository into a subdirectory of the workspace.  " +:+
       hosts_note +:+
         "Paths are rooted in the workspace; relative ``..`` in ``dest`` is rejected.";
     t_properties := [("repo_url", property_ "string" "HTTPS or SSH git URL to clone.");
                    ("dest", property_d "string"
                      "Relative destination directory under workspace_root.  Defaults to the repo's basename (e.g. 'myproj.git' → 'myproj')."
                      (JStr ""))];
     t_required := Some ["repo_url"];
     t_display_name := "Cloning repository";
     t_read_only := false; t_concurrency_safe := false; t_core := true;
     t_handler :=
       Arg "repo_url" (fun repo_url => Opt "dest" (JStr "") (fun dest =>
       Do (git_clone repo_url dest))) |}.

Definition git_tools (include_commit : bool) : list (ApiTool Body) :=
  [_make_git_diff] ++ (if include_commit then [_make_git_commit] else []) ++
  [_make_git_log; _make_git_checkout; _make_git_clone].
End tools.

Definition register_git_tools {W} `{GitWorkspace W} type_error bad_netloc valid_brackets resolve
  bad_call
  (workspace_root git_clone_allowed_hosts : string) (include_commit : bool) (r : Registry W)
  : string + Registry W :=
  register_all (map (tool_spec (on_world (fun m w => m w)) bad_call _TOOLSET None)
    (git_tools type_error bad_netloc valid_brackets resolve workspace_root
       (_parse_allowed_hosts git_clone_allowed_hosts) include_commit)) r.
