(* ===== verification/GitToolsTheorems.v ===== *)
(** * GitToolsTheorems

    What [git_clone] clones and where, which commands the git tools run, and
    the agreement of their schemas with their handlers. *)

From S2P Require Import Prelude Json AgentTypes Finalization Registry Urls Tools GitTools.
From Stdlib Require Import Ascii.

Section clone.
Context {W : Type} `{GitWorkspace W}.
Context (type_error : json -> string) (bad_netloc : string) (valid_brackets : string -> bool).
Context (resolve : string -> string) (root : string) (allowed : gset string).

Abbreviation clone := (git_clone type_error bad_netloc valid_brackets resolve root allowed).
Abbreviation target := (clone_target type_error bad_netloc valid_brackets resolve root allowed).

(** A clone the checks let through. *)
Definition may_clone (repo_url : json) (w : W) (url dest : string) : Prop :=
  repo_url = JStr url /\
  (exists host, _extract_git_url_host bad_netloc valid_brackets url = inr (Some host) /\
     host ∈ allowed) /\
  inside (resolve root) dest = true /\ path_exists dest w = false.

Lemma target_checked repo_url dest w url d :
  target repo_url dest w = inr (url, d) -> may_clone repo_url w url d.
Proof.
  unfold clone_target, may_clone. case_if; [done|].
  destruct repo_url as [| | | |u| |]; cbn [as_str bind_result]; try done.
  destruct (_extract_git_url_host bad_netloc valid_brackets u) as [exc|[host|]] eqn:Hh;
    cbn [bind_result]; try done.
  destruct (bool_decide (host ∈ allowed)) eqn:Ha; cbn [negb]; [|done].
  destruct (if json_truthy dest then _ else _) as [exc|p]; [done|].
  destruct (inside (resolve root) (resolve (join_path (resolve root) p))) eqn:Hi; cbn [negb]; [|done].
  destruct (path_exists _ w) eqn:Hp; [done|]. intros [= <- <-].
  split_and!; [done| |done|done]. exists host. split; [done|]. by apply bool_decide_eq_true in Ha.
Qed.

(** C29: a clone stays within the allowlist and the workspace.  Whatever the
    model passes, [git_clone] starts at most one git process, and that one is
    a clone of the text it was given, whose host the program finds on the
    allowlist, into a directory inside the resolved workspace that does not
    exist.  Every other call is an answer or an exception that runs nothing;
    with an empty allowlist that is every call. *)
Theorem clone_is_confined repo_url dest w :
  ((clone repo_url dest w).2 = w \/
   exists url d,
     may_clone repo_url w url d /\
     clone repo_url dest w =
       (inr (git_output _GIT_CLONE_TIMEOUT_S
               (git_process root ["clone"; url; d] _GIT_CLONE_TIMEOUT_S w).1),
        (git_process root ["clone"; url; d] _GIT_CLONE_TIMEOUT_S w).2)) /\
  (allowed = ∅ -> (clone repo_url dest w).2 = w).
Proof.
  unfold git_clone. destruct (target repo_url dest w) as [answer|[url d]] eqn:Ht.
  - split; [by left|done].
  - pose proof (target_checked _ _ _ _ _ Ht) as Hc. split.
    + right. exists url, d. split; [done|]. unfold git, run_git.
      by destruct (git_process root ["clone"; url; d] _GIT_CLONE_TIMEOUT_S w).
    + intros Ha. destruct Hc as (_ & (host & _ & Hin) & _). set_solver.
Qed.
End clone.

(** The host git itself takes from an scp-like address: the text before the
    first colon, without a user name.  It is not the one that is checked. *)
Example checked_host_is_not_the_host_cloned_from :
  let url := "evil.test:repo@github.com:x" in
  _extract_git_url_host "" (fun _ => true) url = inr (Some "github.com") /\
  after_last "@" (partition ":" url).1 = "evil.test".
Proof. vm_compute. by split. Qed.

(** ** Commands *)

Section commands.
Context {W : Type} `{GitWorkspace W}.

(** Every process a body starts satisfies [P]; [R] is what such processes
    keep. *)
Definition runs_only (P : list string -> Prop) (b : @Body W) : Prop :=
  forall R : W -> W -> Prop,
    Reflexive R -> Transitive R ->
    (forall root args timeout w, P args -> R w (git_process root args timeout w).2) ->
    forall w, R w (b w).2.

Context (type_error : json -> string) (bad_netloc : string) (valid_brackets : string -> bool).
Context (resolve : string -> string) (root : string) (allowed : gset string).

Lemma git_runs_only (P : list string -> Prop) args timeout :
  P args -> runs_only P (git root args timeout).
Proof.
  intros HP R HR HT Hk w. unfold git, run_git. specialize (Hk root args timeout w HP).
  by destruct (git_process root args timeout w).
Qed.

Lemma with_text_runs_only P v k :
  (forall s, runs_only P (k s)) -> runs_only P (with_text (W:=W) type_error v k).
Proof.
  intros Hk R HR HT HP w. unfold with_text. destruct (as_str type_error v); [done|]. by apply Hk.
Qed.

(** Whatever the arguments, the body runs only such commands. *)
Fixpoint handler_runs (P : list string -> Prop) (h : Handler_ Body) : Prop :=
  match h with
  | Do m => runs_only P m
  | Arg _ k | Opt _ _ k => forall v, handler_runs P (k v)
  end.

Definition first_is (cs : list string) (args : list string) : Prop :=
  exists c, head args = Some c /\ c ∈ cs.

Lemma diff_runs cs staged : "diff" ∈ cs -> runs_only (first_is cs) (git_diff (W:=W) root staged).
Proof.
  intros Hc R HR HT HP w. unfold git_diff, run_git.
  set (args := "diff" :: _). assert (Ha : first_is cs args) by (by exists "diff").
  specialize (HP root args _GIT_TIMEOUT_S w Ha).
  by destruct (git_process root args _GIT_TIMEOUT_S w).
Qed.

Lemma clone_runs cs url dest :
  "clone" ∈ cs ->
  runs_only (first_is cs)
    (git_clone (W:=W) type_error bad_netloc valid_brackets resolve root allowed url dest).
Proof.
  intros Hc R HR HT HP w. unfold git_clone.
  destruct (clone_target _ _ _ _ _ _ _ _ w) as [answer|[u d]]; [done|].
  apply (git_runs_only (first_is cs)); [|done..]. by exists "clone".
Qed.

Definition agent_commands : list string := ["diff"; "log"; "checkout"; "clone"].

Abbreviation tools := (git_tools (W:=W) type_error bad_netloc valid_brackets resolve root allowed).

Lemma agent_git_commands :
  Forall (fun t => handler_runs (first_is agent_commands) (t_handler t)) (tools false).
Proof.
  unfold git_tools. cbn [app]. repeat apply Forall_cons; cbn; intros; try exact I.
  - apply diff_runs. set_solver.
  - apply git_runs_only. exists "log". set_solver.
  - apply with_text_runs_only. intros s. apply git_runs_only. exists "checkout". set_solver.
  - apply clone_runs. set_solver.
  - apply Forall_nil.
Qed.

Lemma read_only_git_commands b :
  Forall (fun t => t_read_only t = true ->
            handler_runs (first_is ["diff"; "log"]) (t_handler t)) (tools b).
Proof.
  unfold git_tools. destruct b; cbn [app]; repeat apply Forall_cons; cbn;
    try discriminate; intros; try apply Forall_nil.
  all: first [apply diff_runs; set_solver | apply git_runs_only; exists "log"; set_solver].
Qed.

Lemma git_schemas b : Forall schema_ok (tools b).
Proof. unfold git_tools. destruct b; cbn [app]; schemas_fit. Qed.
End commands.
