(* ===== verification/ShellTools.v ===== *)
(** * ShellTools

    The shell and search tools of the coding agent ([tools/bash.py],
    [tools/search.py]).

    Outside are the processes, the regular expressions, globbing and the
    files: the class [ShellWorkspace] and the arguments of the sections.

    Theorems: bounds of the shell's and the search's outputs, the exact result
    of the search without ripgrep and of [glob_search]. *)

From S2P Require Import Prelude Json AgentTypes Registry Urls Tools Files Skills GitTools.
From stdpp Require Import sorting.
From Stdlib Require Import Ascii.

(** How a shell command ends; its output is decoded. *)
Inductive ShellProcess :=
| ShellTimeout
| ShellOSError (exc : string)
| ShellRaises (exc : string)
| ShellExited (code : option Z) (output : string).

(** How ripgrep ends. *)
Inductive RgProcess :=
| RgTimeout
| RgRaises (exc : string)
| RgExited (code : Z) (out err : string).

(** How [Path.glob] ends: the paths, an error the tools answer with (a
    [ValueError] or an [OSError]) or another exception. *)
Inductive GlobResult :=
| GlobPaths (paths : list string)
| GlobError (exc : string)
| GlobRaises (exc : string).

Class ShellWorkspace (W : Type) := {
  shell : string -> string -> json -> W -> ShellProcess * W;
  rg : string -> list string -> W -> RgProcess * W;
  which_rg : W -> option string;
  is_dir : string -> W -> bool;
  is_file : string -> W -> bool;
  glob : string -> string -> W -> GlobResult;
  (** [read_text(errors="replace")]; [inl] is an [OSError] *)
  file_text : string -> W -> string + string
}.

(** ** Texts *)

(** [s.replace(old, "")] of a non-empty text; [skip] bytes belong to the last
    occurrence. *)
Fixpoint remove_from (old : string) (skip : nat) (s : string) : string :=
  match s with
  | EmptyString => EmptyString
  | String c s' =>
      match skip with
      | S k => remove_from old k s'
      | O => if String.prefix old s then remove_from old (String.length old - 1) s'
             else String c (remove_from old 0 s')
      end
  end.

(** [s.splitlines()]: [left] bytes of a separator are still to come. *)
Fixpoint plain_lines_from (line : string) (left : nat) (s : string) : list string :=
  match s with
  | EmptyString => if str_truthy line then [line] else []
  | String c s' =>
      match left with
      | S (S k) => plain_lines_from line (S k) s'
      | S O => line :: plain_lines_from EmptyString 0 s'
      | O => match separator s with
             | O => plain_lines_from (line +:+ String c EmptyString) 0 s'
             | S O => line :: plain_lines_from EmptyString 0 s'
             | S k => plain_lines_from line k s'
             end
      end
  end.

Definition plain_lines (s : string) : list string := plain_lines_from EmptyString 0 s.

(** [Path(p).parent] of an absolute path *)
Definition parent_path (p : string) : string :=
  let n := (String.length p - String.length (after_last "/" p) - 1)%nat in
  if (n =? 0)%nat then "/" else String.substring 0 n p.

(** [sorted] of paths *)
Definition sorted_paths : list string -> list string :=
  merge_sort (fun a b => Is_true (parts_leb (path_parts a) (path_parts b))).

Definition cut (limit : Z) (note output : string) : string :=
  if (limit <? py_len output)%Z then py_prefix limit output +:+ newline +:+ note else output.

(** ** [bash] *)

Definition _DEFAULT_TIMEOUT_S : Z := 120.
Definition _OUTPUT_MAX_BYTES : Z := 65536.

(** ** Search *)

Definition _DEFAULT_GREP_LIMIT : Z := 50.
Definition _DEFAULT_GLOB_LIMIT : Z := 200.
Definition _GREP_OUTPUT_MAX_BYTES : Z := 32768.
Definition _GREP_TIMEOUT_S : Z := 30.

Section tools.
Context {W : Type} `{ShellWorkspace W}.
(** The texts of type errors and of the [ValueError] of [relative_to];
    [re.compile], with the text of its error or the search; [Path.resolve]. *)
Context (type_error : json -> string) (not_relative : string -> string).
Context (re_compile : string -> string + (string -> bool)).
Context (resolve : string -> string) (workspace_root : string).

Definition Body : Type := W -> (string + string) * W.

Definition answer (s : string) : Body := fun w => (inr s, w).

Definition bash_text (command : string) (timeout : json) (p : ShellProcess) : string + string :=
  match p with
  | ShellTimeout =>
      inr ("Error: command timed out after " +:+ json_str timeout +:+ "s" +:+ newline +:+
           "Command: " +:+ command)
  | ShellOSError exc => inr ("Error: failed to execute command: " +:+ exc)
  | ShellRaises exc => inl exc
  | ShellExited code output =>
      inr ("Exit code: " +:+ show_Z (default 0%Z code) +:+ newline +:+
           cut _OUTPUT_MAX_BYTES
             ("... (truncated at " +:+ show_Z _OUTPUT_MAX_BYTES +:+ " bytes)") output)
  end.

Definition bash (command timeout : json) : Body := fun w =>
  match as_str type_error command with
  | inl exc => (inl exc, w)
  | inr c => let '(p, w) := shell workspace_root c timeout w in (bash_text c timeout p, w)
  end.

(** *** [grep] *)

Definition rg_command (rg_path pattern search_dir include : string) (limit : json) : list string
  :=
  [rg_path; "--no-heading"; "--line-number"; "--max-count"; json_str limit] ++
  (if str_truthy include then ["--glob"; include] else []) ++ ["--"; pattern; search_dir].

Definition rg_text (p : RgProcess) : string + string :=
  match p with
  | RgTimeout => inr ("Error: grep timed out after " +:+ show_Z _GREP_TIMEOUT_S +:+ "s")
  | RgRaises exc => inl exc
  | RgExited code out err =>
      if (code =? 1)%Z then inr "No matches found."
      else if (1 <? code)%Z then
        inr ("Error: rg exited with code " +:+ show_Z code +:+ ": " +:+ strip err)
      else inr (remove_from (resolve workspace_root +:+ "/") 0 out)
  end.

Definition _grep_with_rg (rg_path pattern search_dir include : string) (limit : json) : Body :=
  fun w =>
    let '(p, w) := rg workspace_root (rg_command rg_path pattern search_dir include limit) w in
    (rg_text p, w).

(** The matching lines of one file, until there are [limit] matches. *)
Fixpoint match_lines (search : string -> bool) (rel : string) (n limit : Z)
  (lines matches : list string)
  : list string :=
  match lines with
  | [] => matches
  | line :: lines =>
      if search line then
        let matches := matches ++ [rel +:+ ":" +:+ show_Z n +:+ ":" +:+ rstrip line] in
        if (limit <=? Z.of_nat (length matches))%Z then matches
        else match_lines search rel (n + 1) limit lines matches
      else match_lines search rel (n + 1) limit lines matches
  end.

Fixpoint match_files (search : string -> bool) (limit : Z) (paths matches : list string) (w : W)
  : string + list string :=
  match paths with
  | [] => inr matches
  | p :: paths =>
      if is_file p w then
        match file_text p w with
        | inl _ => match_files search limit paths matches w
        | inr text =>
            let lines := plain_lines text in
            let root := resolve workspace_root in
            if existsb search lines && negb (inside root p) then inl (not_relative p)
            else
              let matches := match_lines search (relative_to root p) 1 limit lines matches in
              if (limit <=? Z.of_nat (length matches))%Z then inr matches
              else match_files search limit paths matches w
        end
      else match_files search limit paths matches w
  end.

Definition _grep_with_re (pattern search_dir include : string) (limit : Z) (w : W)
  : string + string :=
  match re_compile pattern with
  | inl exc => inr ("Error: invalid regex: " +:+ exc)
  | inr search =>
      let search_path := if is_dir search_dir w then search_dir else parent_path search_dir in
      match glob search_path (str_or include "**/*") w with
      | GlobError exc | GlobRaises exc => inl exc
      | GlobPaths paths =>
          (matches <-- match_files search limit (sorted_paths paths) [] w;;
           inr (match matches with [] => "No matches found." | _ => String.concat newline matches
             end))%result
      end
  end.

(** Arguments of the types the schema gives them; anything else raises. *)
Definition as_int (v : json) : string + Z :=
  match v with JInt n => inr n | JBool b => inr (if b then 1 else 0)%Z | _ => inl (type_error v)
    end.

Definition grep_output (pattern include resolved : string) (limit : json) : Body := fun w =>
  match which_rg w with
  | Some rg_path => _grep_with_rg rg_path pattern resolved include limit w
  | None => ((n <-- as_int limit;; _grep_with_re pattern resolved include n w)%result, w)
  end.

Definition grep (pattern path include limit : json) : Body := fun w =>
  match (d <-- as_str type_error path;; inr (_safe_resolve workspace_root resolve d))%result with
  | inl exc => (inl exc, w)
  | inr (inl exc) => (inr ("Error: " +:+ exc), w)
  | inr (inr resolved) =>
      match (p <-- as_str type_error pattern;;
             i <-- (if json_truthy include then as_str type_error include else inr "");;
             inr (p, i))%result with
      | inl exc => (inl exc, w)
      | inr (p, i) =>
          let '(output, w) := grep_output p i resolved limit w in
          ((o <-- output;; inr (cut _GREP_OUTPUT_MAX_BYTES "... (truncated)" o))%result, w)
      end
  end.

(** *** [glob_search] *)

Definition glob_text (limit : Z) (matches : list string) : string :=
  let total := Z.of_nat (length matches) in
  let results := map (relative_to (resolve workspace_root)) (take (Z.to_nat limit) matches) in
  match results with
  | [] => "No files matched."
  | _ =>
      String.concat newline results +:+
      (if (limit <? total)%Z
       then newline +:+ "... (" +:+ show_Z (total - limit) +:+ " more files)" else "")
  end.

Definition glob_search (pattern limit : json) : Body := fun w =>
  match (p <-- as_str type_error pattern;; n <-- as_int limit;; inr (p, n))%result with
  | inl exc => (inl exc, w)
  | inr (p, n) =>
      match glob (resolve workspace_root) p w with
      | GlobError exc => (inr ("Error: " +:+ exc), w)
      | GlobRaises exc => (inl exc, w)
      | GlobPaths paths =>
          (inr (glob_text n (List.filter (fun p => is_file p w) (sorted_paths paths))), w)
      end
  end.

(** *** Tools *)

Definition _make_grep : ApiTool Body :=
  {| t_name := "grep";
     t_description := "Search file contents by regex pattern. Returns matching lines with " +:+
       "file paths and line numbers. Supports glob filtering.";
     t_properties := [("pattern", property_ "string" "Regex pattern to search for.");
                    ("path", property_d "string"
                      "Relative directory or file to search (default: root)." (JStr "."));
                    ("include", property_d "string" "Glob filter for file names (e.g. '*.py')."
                      (JStr ""));
                    ("limit", property_d "integer" "Max matching lines."
                      (JInt _DEFAULT_GREP_LIMIT))];
     t_required := Some ["pattern"];
     t_display_name := "Searching file contents";
     t_read_only := true; t_concurrency_safe := true; t_core := true;
     t_handler :=
       Arg "pattern" (fun pattern => Opt "path" (JStr ".") (fun path =>
       Opt "include" (JStr "") (fun include =>
       Opt "limit" (JInt _DEFAULT_GREP_LIMIT) (fun limit =>
       Do (grep pattern path include limit))))) |}.

Definition _make_glob : ApiTool Body :=
  {| t_name := "glob_search";
     t_description := "Find files matching a glob pattern (e.g. '**/*.py').";
     t_properties := [("pattern", property_ "string"
       "Glob pattern (e.g. '**/*.py', 'src/**/*.ts').");
                    ("limit", property_d "integer" "Max results." (JInt _DEFAULT_GLOB_LIMIT))];
     t_required := Some ["pattern"];
     t_display_name := "Finding files";
     t_read_only := true; t_concurrency_safe := true; t_core := true;
     t_handler :=
       Arg "pattern" (fun pattern => Opt "limit" (JInt _DEFAULT_GLOB_LIMIT) (fun limit =>
       Do (glob_search pattern limit))) |}.

Definition _make_bash : ApiTool Body :=
  {| t_name := "bash";
     t_description := "Execute a shell command in the workspace. Use for running tests, " +:+
       "installing dependencies, build tools, etc. Commands run in the workspace root with " +:+
       "a configurable timeout (default: 120s).";
     t_properties := [("command", property_ "string" "Shell command to execute.");
                    ("timeout", property_d "integer" "Max seconds before kill."
                      (JInt _DEFAULT_TIMEOUT_S))];
     t_required := Some ["command"];
     t_display_name := "Running command";
     t_read_only := false; t_concurrency_safe := false; t_core := true;
     t_handler :=
       Arg "command" (fun command => Opt "timeout" (JInt _DEFAULT_TIMEOUT_S) (fun timeout =>
       Do (bash command timeout))) |}.

End tools.

Definition register_search_tools {W} `{ShellWorkspace W} type_error not_relative re_compile
  resolve
  bad_call (workspace_root : string) (r : Registry W) : string + Registry W :=
  register_all (map (tool_spec (on_world (fun m w => m w)) bad_call "search" None)
    [_make_grep type_error not_relative re_compile resolve workspace_root;
     _make_glob type_error resolve workspace_root]) r.

Definition register_bash_tool {W} `{ShellWorkspace W} type_error bad_call
  (workspace_root : string)
  (r : Registry W) : string + Registry W :=
  register (tool_spec (on_world (fun m w => m w)) bad_call "bash" None
    (_make_bash type_error workspace_root)) r.

Lemma cut_bound limit note s :
  (0 <= limit)%Z -> (py_len (cut limit note s) <= limit + py_len note + 1)%Z.
Proof.
  intros Hl. unfold cut. pose proof (py_len_nonneg note). destruct (Z.ltb_spec limit (py_len s)); [|lia].
  rewrite !py_len_app. unfold py_prefix. rewrite (proj2 (Z.ltb_ge limit 0)) by done.
  rewrite py_len_take by done. change (py_len newline) with 1%Z. lia.
Qed.

Section search.
Context {W : Type} `{ShellWorkspace W}.
Context (not_relative : string -> string) (resolve : string -> string) (root : string).
Context (search : string -> bool) (w : W).

(** Every match in the readable files, in order. *)
Definition line_matches (rel : string) (n : Z) (lines : list string) : list string :=
  omap (fun il : Z * string =>
          if search il.2 then Some (rel +:+ ":" +:+ show_Z il.1 +:+ ":" +:+ rstrip il.2) else None)
    (zip (map (fun k => (n + Z.of_nat k)%Z) (seq 0 (length lines))) lines).

Definition file_matches (p : string) : list string :=
  if is_file p w then
    match file_text p w with
    | inl _ => []
    | inr text => line_matches (relative_to (resolve root) p) 1 (plain_lines text)
    end
  else [].

Definition all_matches (paths : list string) : list string := concat (map file_matches paths).

Lemma line_matches_cons rel n l lines :
  line_matches rel n (l :: lines) =
  (if search l then [rel +:+ ":" +:+ show_Z n +:+ ":" +:+ rstrip l] else []) ++
  line_matches rel (n + 1) lines.
Proof.
  unfold line_matches. cbn [length seq map zip zip_with omap list_omap].
  replace (n + Z.of_nat 0)%Z with n by lia.
  rewrite <- seq_shift, map_map.
  replace (map (fun k => (n + Z.of_nat (S k))%Z) (seq 0 (length lines)))
    with (map (fun k => (n + 1 + Z.of_nat k)%Z) (seq 0 (length lines)))
    by (apply map_ext; intros; lia).
  cbn [fst snd]. by destruct (search l).
Qed.

Lemma match_lines_spec rel limit lines :
  forall n matches, (Z.of_nat (length matches) < limit)%Z ->
    match_lines search rel n limit lines matches =
      take (Z.to_nat limit) (matches ++ line_matches rel n lines).
Proof.
  induction lines as [|l lines IH]; intros n matches Hm; cbn [match_lines].
  { unfold line_matches. cbn. rewrite app_nil_r, take_ge; [done|lia]. }
  rewrite line_matches_cons. destruct (search l).
  - rewrite length_app. cbn [length]. destruct (Z.leb_spec limit (Z.of_nat (length matches + 1))).
    + rewrite app_assoc, take_app_le by (rewrite length_app; cbn; lia).
      rewrite take_ge; [done|]. rewrite length_app. cbn. lia.
    + rewrite IH by (rewrite length_app; cbn; lia). by rewrite <- app_assoc.
  - rewrite IH by done. done.
Qed.

(** The matches of files outside the workspace cannot be named. *)
Definition named (paths : list string) : Prop :=
  forall p, p ∈ paths -> inside (resolve root) p = true.

Lemma match_files_spec limit paths :
  named paths ->
  forall matches, (Z.of_nat (length matches) < limit)%Z ->
    match_files not_relative resolve root search limit paths matches w =
      inr (take (Z.to_nat limit) (matches ++ all_matches paths)).
Proof.
  intros Hn. induction paths as [|p paths IH]; intros matches Hm; cbn [match_files].
  { unfold all_matches. cbn. rewrite app_nil_r, take_ge; [done|lia]. }
  assert (Hn' : named paths) by (intros q Hq; apply Hn; by apply list_elem_of_further).
  specialize (IH Hn'). unfold all_matches. cbn [map concat]. unfold file_matches at 1.
  destruct (is_file p w); [|by rewrite IH].
  destruct (file_text p w) as [exc|text]; [by rewrite IH|].
  rewrite (Hn p) by (by apply list_elem_of_here). rewrite andb_false_r.
  rewrite match_lines_spec by done.
  set (ms := line_matches _ 1 (plain_lines text)).
  rewrite length_take. destruct (Z.leb_spec limit (Z.of_nat (Z.to_nat limit `min` length (matches ++ ms)))).
  - rewrite (app_assoc matches), (take_app_le (matches ++ ms)) by lia. done.
  - rewrite take_ge by lia. rewrite IH by lia. by rewrite <- app_assoc.
Qed.
End search.

(** The searches answer exactly.  Without ripgrep, [grep] reports the
    first [limit] of all matching lines, files in path order and lines in
    order, each with its path relative to the workspace and its number,
    provided every globbed path is under the workspace root; and nothing is
    reported exactly when nothing matches.  [glob_search] reports the first
    [limit] files in path order and how many there are besides. *)
Theorem searches_are_exact {W} `{ShellWorkspace W} not_relative re_compile resolve root
  pattern dir include limit paths search (w : W) :
  (1 <= limit)%Z -> re_compile pattern = inr search ->
  glob (if is_dir dir w then dir else parent_path dir) (str_or include "**/*") w = GlobPaths paths ->
  named resolve root (sorted_paths paths) ->
  let matches := all_matches resolve root search w (sorted_paths paths) in
  _grep_with_re not_relative re_compile resolve root pattern dir include limit w =
    inr (match matches with
         | [] => "No matches found."
         | _ => String.concat newline (take (Z.to_nat limit) matches)
         end) /\
  (forall hits, let shown := take (Z.to_nat limit) hits in
     glob_text resolve root limit hits =
       match hits with
       | [] => "No files matched."
       | _ => String.concat newline (map (relative_to (resolve root)) shown) +:+
              (if decide (length shown = length hits) then ""
               else newline +:+ "... (" +:+ show_Z (Z.of_nat (length hits - length shown)) +:+
                    " more files)")
       end).
Proof.
  intros Hl Hc Hg Hn matches. split.
  - unfold _grep_with_re. rewrite Hc, Hg. rewrite match_files_spec by (done || (cbn; lia)).
    cbn [bind_result app]. fold matches. clearbody matches. destruct matches as [|m ms]; [by rewrite take_nil|].
    by destruct (Z.to_nat limit) eqn:Ht; [lia|].
  - intros hits shown. unfold glob_text. fold shown.
    assert (Hs : length shown = (Z.to_nat limit `min` length hits)%nat)
      by (unfold shown; apply length_take).
    clearbody shown. destruct hits as [|h hits].
    { destruct shown; [done|]. cbn in Hs. lia. }
    destruct shown as [|x xs] eqn:Hx; [cbn in Hs; lia|]. cbn [map].
    f_equal. destruct (Z.ltb_spec limit (Z.of_nat (length (h :: hits)))) as [Hlt|Hge].
    + rewrite decide_False by lia. do 3 f_equal. f_equal. lia.
    + by rewrite decide_True by lia.
Qed.

(** ** A concrete workspace *)

#[local] Instance sample_workspace : ShellWorkspace unit := {|
  shell := fun _ _ _ w => (ShellExited (Some 0%Z) "ok", w);
  rg := fun _ _ w => (RgTimeout, w);
  which_rg := fun _ => None;
  is_dir := fun p _ => String.eqb p "/ws";
  is_file := fun p _ => negb (String.eqb p "/ws/d");
  glob := fun _ _ _ => GlobPaths ["/ws/b.txt"; "/ws/d"; "/ws/a.txt"];
  file_text := fun p _ =>
    inr (if String.eqb p "/ws/a.txt" then "no" +:+ newline +:+ "one x" else "x two" +:+ newline +:+ "x")
|}.

Lemma searches_are_exact_witness :
  _grep_with_re (fun _ => "") (fun _ => inr (str_contains "x")) (fun p => p) "/ws" "x" "/ws" "" 2 tt =
  inr ("a.txt:2:one x" +:+ newline +:+ "b.txt:1:x two").
Proof.
  destruct (searches_are_exact (fun _ => "") (fun _ => inr (str_contains "x")) (fun p => p) "/ws"
    "x" "/ws" "" 2 ["/ws/b.txt"; "/ws/d"; "/ws/a.txt"] (str_contains "x") tt) as [H _].
  - lia.
  - reflexivity.
  - reflexivity.
  - intros p Hp. apply list_elem_of_In in Hp. revert p Hp. apply List.Forall_forall.
    vm_compute. repeat constructor.
  - rewrite H. vm_compute. reflexivity.
Defined.
