(* ===== verification/CodingTools.v ===== *)
(** * CodingTools

    The file tools as the model calls them ([tools/files.py]) and the
    definitions of [delegate_task] and [tool_search]
    ([tools/delegation.py], [tools/tool_search.py]). *)

From S2P Require Import Prelude Json JsonLoads AgentTypes Registry Urls Tools Files ShellTools.
From Stdlib Require Import Ascii QArith.

(** ** File tools *)

(** The files of the outside state. *)
Class FileWorkspace (W : Type) := { get_fs : W -> FS; set_fs : FS -> W -> W }.

Section files.
Context {W : Type} `{FileWorkspace W}.
Context (type_error : json -> string) (workspace_root : string) (resolve : string -> string).
Context (valid_utf8 : string -> bool) (replace_invalid : string -> string).
Context (os_error : OsOp -> string -> option string).

Definition Body : Type := W -> (string + string) * W.

(** Arguments of the types the schemas give them; anything else raises. *)
Definition optional_int (v : json) : string + option Z :=
  match v with JNull => inr None | v => (n <-- as_int type_error v;; inr (Some n))%result end.

Definition on_files (c : string + FileCall) : Body := fun w =>
  match c with
  | inl exc => (inl exc, w)
  | inr c =>
      let '(x, fs) :=
        run_file_call workspace_root resolve valid_utf8 replace_invalid os_error c (get_fs w) in
      (x, set_fs fs w)
  end.

Definition read_file_tool (path offset limit : json) : Body :=
  on_files (p <-- as_str type_error path;; o <-- optional_int offset;; n <-- optional_int limit;;
            inr (CallRead p o n))%result.

Definition write_file_tool (path content : json) : Body :=
  on_files (p <-- as_str type_error path;; c <-- as_str type_error content;;
            inr (CallWrite p c))%result.

Definition edit_file_tool (path old_string new_string : json) : Body :=
  on_files (p <-- as_str type_error path;; o <-- as_str type_error old_string;;
            n <-- as_str type_error new_string;; inr (CallEdit p o n))%result.

Definition list_directory_tool (path limit : json) : Body :=
  on_files (p <-- as_str type_error path;; n <-- as_int type_error limit;;
            inr (CallList p n))%result.

Definition _make_read_file : ApiTool Body :=
  {| t_name := "read_file";
     t_description := "Read a text file from the workspace. Returns numbered lines. Use " +:+
       "offset/limit for large files.";
     t_properties := [("path", property_ "string" "Relative path from workspace root.");
                    ("offset", property_ "integer" "Start line (1-indexed, optional).");
                    ("limit", property_d "integer" "Max lines to return."
                      (JInt _DEFAULT_READ_LINE_LIMIT))];
     t_required := Some ["path"];
     t_display_name := "Reading file";
     t_read_only := true; t_concurrency_safe := true; t_core := true;
     t_handler :=
       Arg "path" (fun path => Opt "offset" JNull (fun offset => Opt "limit" JNull (fun limit =>
       Do (read_file_tool path offset limit)))) |}.

Definition _make_write_file : ApiTool Body :=
  {| t_name := "write_file";
     t_description := "Create or overwrite a file in the workspace.";
     t_properties := [("path", property_ "string" "Relative path from workspace root.");
                    ("content", property_ "string" "Full file contents to write.")];
     t_required := Some ["path"; "content"];
     t_display_name := "Writing file";
     t_read_only := false; t_concurrency_safe := false; t_core := true;
     t_handler :=
       Arg "path" (fun path => Arg "content" (fun content => Do (write_file_tool path content)))
         |}.

Definition _make_edit_file : ApiTool Body :=
  {| t_name := "edit_file";
     t_description := "Apply a targeted edit to a file via old/new string replacement. The " +:+
       "old_string must occur exactly once. Preferred over write_file for surgical changes.";
     t_properties := [("path", property_ "string" "Relative path from workspace root.");
                    ("old_string", property_ "string"
                      "Exact text to find (must be unique in the file).");
                    ("new_string", property_ "string" "Replacement text.")];
     t_required := Some ["path"; "old_string"; "new_string"];
     t_display_name := "Editing file";
     t_read_only := false; t_concurrency_safe := false; t_core := true;
     t_handler :=
       Arg "path" (fun path => Arg "old_string" (fun old_string =>
       Arg "new_string" (fun new_string =>
       Do (edit_file_tool path old_string new_string)))) |}.

Definition _make_list_directory : ApiTool Body :=
  {| t_name := "list_directory";
     t_description := "List files and directories at a given path in the workspace.";
     t_properties := [("path", property_d "string" "Relative path (default: workspace root)."
       (JStr "."));
                    ("limit", property_d "integer" "Max entries to return."
                      (JInt _DEFAULT_LIST_LIMIT))];
     t_required := None;
     t_display_name := "Listing directory";
     t_read_only := true; t_concurrency_safe := true; t_core := true;
     t_handler :=
       Opt "path" (JStr ".") (fun path => Opt "limit" (JInt _DEFAULT_LIST_LIMIT) (fun limit =>
       Do (list_directory_tool path limit))) |}.

Definition file_tools : list (ApiTool Body) :=
  [_make_read_file; _make_write_file; _make_edit_file; _make_list_directory].
End files.

Definition register_file_tools {W} `{FileWorkspace W} type_error resolve valid_utf8
  replace_invalid
  os_error bad_call (workspace_root : string) (r : Registry W) : string + Registry W :=
  register_all (map (tool_spec (on_world (fun m w => m w)) bad_call "files" None)
    (file_tools type_error workspace_root resolve valid_utf8 replace_invalid os_error)) r.

(** ** [delegate_task] *)

Definition _MIN_MAX_TURNS : Z := 1.
Definition _BUDGET_HINT_LOOKUP_TURNS : Z := 3.
Definition _BUDGET_HINT_BUGFIX_TURNS : Z := 15.
Definition _BUDGET_HINT_REFACTOR_TURNS : Z := 30.

(** The body, on the prompt, the turns, the model and the baseline, is that
    of the file DelegateTask. *)
Definition _make_delegate_task {M} (delegate : json -> json -> json -> json -> M) : ApiTool M :=
  {| t_name := "delegate_task";
     t_description := "Delegate a coding task to a sub-agent. Use for multi-step coding " +:+
       "work, file edits, or test runs that benefit from a focused sandbox. Returns " +:+
       "immediately; the sub-agent's work appears as a separate message in the thread when " +:+
       "ready.";
     t_properties := [("prompt", property_ "string"
       "Natural-language description of the work the sub-agent should do.");
                    ("max_turns", JObj [("type", JStr "integer"); ("description", JStr
                      ("Optional cap on the sub-agent's tool-round budget for this task. Pick ~"
                      +:+ show_Z _BUDGET_HINT_LOOKUP_TURNS +:+ " for one-shot lookups, ~" +:+
                      show_Z _BUDGET_HINT_BUGFIX_TURNS +:+ " for routine bug fixes, ~" +:+ show_Z
                      _BUDGET_HINT_REFACTOR_TURNS +:+
                      " for multi-file refactors. Leave unset for the default."));
                      ("minimum", JInt _MIN_MAX_TURNS)]);
                    ("model", property_ "string"
                      "Optional model override for this delegation.  Operationally a no-op in M2b but recorded in the audit DB.");
                    ("workspace_baseline", JObj [("type", JStr "object"); ("description", JStr
                      "Optional git baseline the diff in task.complete should be computed against.  Pin this when the orchestrator already knows the repo + branch + base SHA the workflow targets.");
                      ("properties", JObj [("repo_url", JObj [("type", JStr "string")]);
                      ("branch", JObj [("type", JStr "string")]);
                      ("base_sha", JObj [("type", JStr "string")]); ("is_shallow", JObj
                      [("type", JStr "boolean"); ("default", JBool true)])]); ("required", JArr
                      [JStr "repo_url"; JStr "branch"; JStr "base_sha"])])];
     t_required := Some ["prompt"];
     t_display_name := "Delegating to sub-agent";
     t_read_only := false; t_concurrency_safe := false; t_core := true;
     t_handler :=
       Arg "prompt" (fun prompt => Opt "max_turns" JNull (fun max_turns =>
       Opt "model" JNull (fun model => Opt "workspace_baseline" JNull (fun workspace_baseline =>
       Do (delegate prompt max_turns model workspace_baseline))))) |}.

(** ** [tool_search] *)

Definition _MAX_LIMIT : Z := 15.
Definition _DEFAULT_LIMIT : Z := 5.

Section tool_search.
Context {W : Type}.
(** The text of a [TypeError], and the registry the tool was registered on as
    it is at the call. *)
Context (type_error : json -> string) (registry_now : W -> Registry W).

(** [None if limit is None else int(limit)] *)
Definition requested_limit (v : json) : string + option Z :=
  match v with
  | JNull => inr None
  | JInt n => inr (Some n)
  | JBool b => inr (Some (if b then 1 else 0)%Z)
  | JStr s => (n <-- py_int s;; inr (Some n))%result
  | JFloat r => (n <-- int_of_float r;; inr (Some n))%result
  | v => inl (type_error v)
  end.

Definition SurfaceBody : Type := gset string * W -> (string + string) * (gset string * W).

Definition tool_search_body (query limit : json) : SurfaceBody := fun c =>
  match (n <-- requested_limit limit;; q <-- as_str type_error query;; inr (q, n))%result with
  | inl exc => (inl exc, c)
  | inr (q, n) =>
      let '(payload, surface) := tool_search (registry_now c.2) q n c.1 in
      (inr (dumps_indent 0 payload), (surface, c.2))
  end.

Definition _make_tool_search : ApiTool SurfaceBody :=
  {| t_name := "tool_search";
     t_description := "Search the registry for tools that aren't currently in your tools " +:+
       "list.  Returns a ranked list of matching tool names, descriptions, and input " +:+
       "schemas; the matches become callable on your next turn.  Use this when the user's " +:+
       "request mentions a system or service (Jira, GitLab, Confluence, the web, …) you " +:+
       "don't already have a tool for.";
     t_properties := [("query", property_ "string"
       "Keywords describing the capability you need (e.g. 'jira issue', 'gitlab merge request', 'web search').");
                    ("limit", JObj [("type", JStr "integer"); ("minimum", JInt 1);
                      ("maximum", JInt _MAX_LIMIT); ("default", JInt _DEFAULT_LIMIT);
                      ("description", JStr "Maximum number of tools to surface this round.")])];
     t_required := Some ["query"];
     t_display_name := "Searching tools";
     t_read_only := true; t_concurrency_safe := true; t_core := true;
     t_handler :=
       Arg "query" (fun query => Opt "limit" (JInt _DEFAULT_LIMIT) (fun limit =>
       Do (tool_search_body query limit))) |}.

Definition register_tool_search_tool bad_call (r : Registry W) : string + Registry W :=
  register (tool_spec (fun m c => m c) bad_call "meta" None _make_tool_search) r.
End tool_search.
