(* ===== verification/ToolRegistryFactory.v ===== *)
(** * ToolRegistryFactory

    The two registries ([tools/tool_registry_factory.py]): the coding
    sub-agent's and the process-wide one, built from a loaded configuration. *)

From S2P Require Import Prelude Json Config AgentTypes.
From S2P Require Import GitLab Jira Gerrit Confluence SlackSearch WebSearch.
From S2P Require Import Registry Urls Tools Service Files Skills GitTools ShellTools CodingTools.
From Stdlib Require Import QArith.

(** What the tools are given from outside. *)
Record Outside (W : Type) := {
  o_type_error : json -> string;
  o_bad_call : list (string * json) -> string;
  o_unescape : string -> string;
  o_bad_netloc : string;
  o_valid_brackets : string -> bool;
  o_not_relative : string -> string;
  o_re_compile : string -> string + (string -> bool);
  o_resolve : string -> string;
  o_expanduser : string -> string;
  o_mkdir : string -> string + unit;
  o_valid_utf8 : string -> bool;
  o_replace_invalid : string -> string;
  o_os_error : OsOp -> string -> option string;
  o_registry : W -> Registry W;
  o_tree : W -> SkillTree;
  o_loader : W -> SkillLoader;
  (** The body of [delegate_task] for a parent and a workspace root. *)
  o_delegate : string -> string -> json -> json -> json -> json -> W -> (string + string) * W
}.
Arguments o_type_error {W} _.
Arguments o_bad_call {W} _.
Arguments o_unescape {W} _.
Arguments o_bad_netloc {W} _.
Arguments o_valid_brackets {W} _.
Arguments o_not_relative {W} _.
Arguments o_re_compile {W} _.
Arguments o_resolve {W} _.
Arguments o_expanduser {W} _.
Arguments o_mkdir {W} _.
Arguments o_valid_utf8 {W} _.
Arguments o_replace_invalid {W} _.
Arguments o_os_error {W} _.
Arguments o_registry {W} _.
Arguments o_tree {W} _.
Arguments o_loader {W} _.
Arguments o_delegate {W} _.

Section factory.
Context {W : Type} `{Service W} `{GitWorkspace W} `{ShellWorkspace W} `{FileWorkspace W}.
Context (o : Outside W).

(** [_register_coding_tools] *)
Definition _register_coding_tools (workspace_root git_clone_allowed_hosts : string)
  (include_git_commit : bool) (r : Registry W) : string + Registry W :=
  (r <-- register_file_tools (o_type_error o) (o_resolve o) (o_valid_utf8 o) (o_replace_invalid o)
           (o_os_error o) (o_bad_call o) workspace_root r;;
   r <-- register_search_tools (o_type_error o) (o_not_relative o) (o_re_compile o) (o_resolve o)
           (o_bad_call o) workspace_root r;;
   r <-- register_bash_tool (o_type_error o) (o_bad_call o) workspace_root r;;
   register_git_tools (o_type_error o) (o_bad_netloc o) (o_valid_brackets o) (o_resolve o)
     (o_bad_call o) workspace_root git_clone_allowed_hosts include_git_commit r)%result.

(** [if skill_loader is not None: register_skill_tool(...)] *)
Definition register_skills (skill_loader : option SkillLoader) (r : Registry W)
  : string + Registry W :=
  match skill_loader with
  | Some l => register_skill_tool (o_loader o) (o_tree o) (o_bad_call o) l r
  | None => inr r
  end.

Definition register_search (r : Registry W) : string + Registry W :=
  register_tool_search_tool (o_type_error o) (o_registry o)
    (o_bad_call o) r.

Definition create_coding_tool_registry (workspace_root git_clone_allowed_hosts : string)
  (skill_loader : option SkillLoader) : string + Registry W :=
  (r <-- _register_coding_tools workspace_root git_clone_allowed_hosts false [];;
   r <-- register_skills skill_loader r;;
   register_search r)%result.

(** ** The process-wide registry *)

(** [config.<section>.<name>]; the tools need texts. *)
Definition setting (section name : string) (c : AppConfig) : json :=
  default JNull (field section name c).
Definition text_setting (section name : string) (c : AppConfig) : string + string :=
  as_str (o_type_error o) (setting section name c).
Definition enabled (section : string) (c : AppConfig) : bool :=
  json_truthy (setting section "enabled" c).

Definition when (b : bool) (f : Registry W -> string + Registry W) (r : Registry W)
  : string + Registry W := if b then f r else inr r.

Definition add_jira (c : AppConfig) (r : Registry W) : string + Registry W :=
  (url <-- text_setting "jira" "url" c;; auth <-- text_setting "jira" "auth_header" c;;
   register_jira_tools (o_type_error o) (o_bad_call o) url auth r)%result.
Definition add_gitlab (c : AppConfig) (r : Registry W) : string + Registry W :=
  (url <-- text_setting "gitlab" "url" c;; token <-- text_setting "gitlab" "token" c;;
   register_gitlab_tools (o_type_error o) (o_bad_call o) url token r)%result.
Definition add_gerrit (c : AppConfig) (r : Registry W) : string + Registry W :=
  (url <-- text_setting "gerrit" "url" c;; user <-- text_setting "gerrit" "username" c;;
   password <-- text_setting "gerrit" "http_password" c;;
   register_gerrit_tools (o_type_error o) (o_bad_call o) url user password r)%result.
Definition add_confluence (c : AppConfig) (r : Registry W) : string + Registry W :=
  (url <-- text_setting "confluence" "url" c;; user <-- text_setting "confluence" "username" c;;
   token <-- text_setting "confluence" "api_token" c;;
   register_confluence_tools (o_bad_call o) url user token r)%result.
Definition add_slack (c : AppConfig) (r : Registry W) : string + Registry W :=
  (token <-- text_setting "slack_search" "user_token" c;;
   register_slack_search_tools (o_type_error o) (o_bad_call o) token r)%result.
Definition add_web (c : AppConfig) (r : Registry W) : string + Registry W :=
  (key <-- text_setting "web_search" "api_key" c;;
   jina <-- text_setting "web_search" "jina_api_key" c;;
   register_web_search_tools (o_type_error o) (o_unescape o) (o_bad_call o) key jina
     (setting "web_search" "default_limit" c) r)%result.

Definition workspace_of (c : AppConfig) : string + string :=
  (root <-- text_setting "coding" "workspace_root" c;; inr (o_expanduser o root))%result.

Definition add_coding (c : AppConfig) (r : Registry W) : string + Registry W :=
  (root <-- workspace_of c;; o_mkdir o root ;;;
   hosts <-- text_setting "coding" "git_clone_allowed_hosts" c;;
   _register_coding_tools root hosts true r)%result.

Definition add_delegation (c : AppConfig) (r : Registry W) : string + Registry W :=
  (root <-- workspace_of c;; sandbox <-- text_setting "nmb" "sandbox_id" c;;
   register (tool_spec (on_world (fun m w => m w)) (o_bad_call o) "delegation" None
     (_make_delegate_task (o_delegate o (str_or sandbox "orchestrator") root))) r)%result.

(** [manager]: whether a delegation manager is given. *)
Definition build_full_tool_registry (c : AppConfig) (skill_loader : option SkillLoader)
  (manager : bool) : string + Registry W :=
  (r <-- when (enabled "jira" c) (add_jira c) [];;
   r <-- when (enabled "gitlab" c) (add_gitlab c) r;;
   r <-- when (enabled "gerrit" c) (add_gerrit c) r;;
   r <-- when (enabled "confluence" c) (add_confluence c) r;;
   r <-- when (enabled "slack_search" c) (add_slack c) r;;
   r <-- when (enabled "web_search" c) (add_web c) r;;
   r <-- when (enabled "coding" c) (add_coding c) r;;
   r <-- when manager (add_delegation c) r;;
   r <-- register_skills skill_loader r;;
   register_search r)%result.
End factory.
