(* ===== verification/ToolRegistryFactoryTheorems.v ===== *)
(** * ToolRegistryFactoryTheorems

    Which tools the two registries hold: building them never meets a name
    twice, the sub-agent gets no way to commit, push or delegate, and a
    service's tools are there exactly when it is enabled and configured. *)

From S2P Require Import Prelude Json Config ConfigTheorems AgentTypes.
From S2P Require Import GitLab Jira Gerrit Confluence SlackSearch WebSearch.
From S2P Require Import Registry Urls Tools Service Files Skills GitTools GitToolsTheorems.
From S2P Require Import ShellTools CodingTools ToolRegistryFactory.
From Stdlib Require Import QArith.
From stdpp Require Import sorting.

Definition on {A} (b : bool) (l : list A) : list A := if b then l else [].

(** ** Registering *)

Section registering.
Context {W : Type}.
Implicit Types (t : ToolSpec W) (r : Registry W).

(** A tool without a check, or one whose check holds. *)
Definition usable t : bool := match check_fn t with Some b => b | None => true end.

Lemma get_new n r : n ∉ names r -> Registry.get n r = None.
Proof.
  unfold Registry.get. induction r as [|t r IH]; cbn; [done|]. intros Hn.
  destruct (String.eqb_spec (name t) n) as [<-|]; [by destruct Hn; left|].
  apply IH. intros Hin. apply Hn. by right.
Qed.

Lemma register_new t r :
  name t ∉ names r -> register t r = inr (r ++ on (usable t) [t]).
Proof.
  intros Hn. unfold register. rewrite (get_new _ _ Hn). unfold usable.
  destruct (check_fn t) as [[]|]; cbn; by rewrite ?app_nil_r.
Qed.

Lemma register_all_new specs r :
  NoDup (names r ++ map name specs) ->
  register_all specs r = inr (r ++ List.filter usable specs).
Proof.
  revert r; induction specs as [|t specs IH]; intros r Hn; cbn [register_all map List.filter].
  { by rewrite app_nil_r. }
  cbn [map] in Hn. rewrite register_new; cbn [bind_result].
  - rewrite IH.
    + rewrite <- app_assoc. by destruct (usable t).
    + unfold names in *. rewrite map_app, <- app_assoc.
      eapply sublist_NoDup; [exact Hn|]. apply sublist_app; [done|].
      destruct (usable t); cbn; [done|]. by constructor.
  - apply NoDup_app in Hn as (_ & Hd & _). intros Hin. apply (Hd _ Hin). by left.
Qed.

Lemma register_all_app a b r :
  register_all (a ++ b) r = (r' <-- register_all a r;; register_all b r')%result.
Proof.
  revert r; induction a as [|t a IH]; intros r; cbn; [done|].
  destruct (register t r); cbn; [done|]. apply IH.
Qed.

Lemma register_all_single t r : register_all [t] r = register t r.
Proof. cbn. by destruct (register t r). Qed.

Lemma usable_checked {M} exec bad toolset b (ts : list (ApiTool M)) :
  List.filter usable (map (tool_spec (W:=W) exec bad toolset (Some b)) ts) =
  on b (map (tool_spec exec bad toolset (Some b)) ts).
Proof.
  destruct b; cbn.
  - induction ts as [|t ts IH]; cbn; [done|]. by rewrite IH.
  - induction ts as [|t ts IH]; cbn; [done|]. exact IH.
Qed.

Lemma usable_unchecked {M} exec bad toolset (ts : list (ApiTool M)) :
  List.filter usable (map (tool_spec (W:=W) exec bad toolset None) ts) =
  map (tool_spec exec bad toolset None) ts.
Proof. induction ts as [|t ts IH]; cbn; [done|]. by rewrite IH. Qed.
End registering.

Section coding.
Context {W : Type} `{Service W} `{GitWorkspace W} `{ShellWorkspace W} `{FileWorkspace W}.
Context (o : Outside W).

Abbreviation pure := (on_world (fun (m : W -> (string + string) * W) w => m w)).

(** The coding tools in the order they are registered. *)
Definition coding_specs (root hosts : string) (commit : bool) : list (ToolSpec W) :=
  map (tool_spec pure (o_bad_call o) "files" None)
    (file_tools (o_type_error o) root (o_resolve o) (o_valid_utf8 o) (o_replace_invalid o)
       (o_os_error o)) ++
  map (tool_spec pure (o_bad_call o) "search" None)
    [_make_grep (o_type_error o) (o_not_relative o) (o_re_compile o) (o_resolve o) root;
     _make_glob (o_type_error o) (o_resolve o) root] ++
  [tool_spec pure (o_bad_call o) "bash" None (_make_bash (o_type_error o) root)] ++
  map (tool_spec pure (o_bad_call o) "git" None)
    (git_tools (o_type_error o) (o_bad_netloc o) (o_valid_brackets o) (o_resolve o) root
       (_parse_allowed_hosts hosts) commit).

Lemma coding_registered root hosts commit r :
  _register_coding_tools o root hosts commit r = register_all (coding_specs root hosts commit) r.
Proof.
  unfold _register_coding_tools, coding_specs. rewrite !register_all_app.
  unfold register_file_tools, register_search_tools, register_bash_tool, register_git_tools.
  match goal with |- context [register_all ?a r] => destruct (register_all a r) as [|r1] end;
    cbn [bind_result]; [done|].
  rewrite !register_all_app.
  match goal with |- context [register_all ?a r1] => destruct (register_all a r1) as [|r2] end;
    cbn [bind_result]; [done|].
  by rewrite register_all_app, register_all_single.
Qed.

(** The tools that depend on nothing but a skill. *)
Definition skill_specs (skill_loader : option SkillLoader) : list (ToolSpec W) :=
  match skill_loader with
  | Some l => match available_ids l with
              | [] => []
              | ids => [skill_spec (o_loader o) (o_tree o) (o_bad_call o) ids]
              end
  | None => []
  end.

Definition search_spec : ToolSpec W :=
  tool_spec (fun m c => m c) (o_bad_call o) "meta" None
    (_make_tool_search (o_type_error o) (o_registry o)).

Lemma skills_registered l r :
  register_skills o l r = register_all (skill_specs l) r.
Proof.
  destruct l as [l|]; [|done]. unfold register_skills, register_skill_tool, skill_specs.
  destruct (available_ids l); [done|]. by rewrite register_all_single.
Qed.

Definition file_names : list string := ["read_file"; "write_file"; "edit_file"; "list_directory"].
Definition coding_names (commit : bool) : list string :=
  file_names ++ ["grep"; "glob_search"; "bash"; "git_diff"] ++ on commit ["git_commit"] ++
  ["git_log"; "git_checkout"; "git_clone"].
Definition skill_names (l : option SkillLoader) : list string :=
  match l with Some l => match available_ids l with [] => [] | _ => ["skill"] end | None => [] end.

Lemma coding_spec_names root hosts commit : map name (coding_specs root hosts commit) = coding_names commit.
Proof. by destruct commit. Qed.

Lemma skill_spec_names l : map name (skill_specs l) = skill_names l.
Proof. destruct l as [l|]; [|done]. unfold skill_specs, skill_names. by destruct (available_ids l). Qed.

Lemma coding_usable root hosts commit :
  List.filter usable (coding_specs root hosts commit) = coding_specs root hosts commit.
Proof. by destruct commit. Qed.

Lemma skills_usable l : List.filter usable (skill_specs l) = skill_specs l.
Proof. destruct l as [l|]; [|done]. unfold skill_specs. by destruct (available_ids l). Qed.

Lemma sub_agent_registry root hosts l :
  create_coding_tool_registry o root hosts l =
  inr (coding_specs root hosts false ++ skill_specs l ++ [search_spec]).
Proof.
  unfold create_coding_tool_registry. rewrite coding_registered.
  transitivity (register_all (coding_specs root hosts false ++ skill_specs l ++ [search_spec])
    ([] : Registry W)).
  - rewrite register_all_app. destruct (register_all (coding_specs root hosts false) []); [done|].
    cbn [bind_result]. rewrite skills_registered, register_all_app.
    destruct (register_all (skill_specs l) _); [done|]. cbn [bind_result].
    by rewrite register_all_single.
  - rewrite register_all_new.
    + by rewrite !List.filter_app, coding_usable, skills_usable.
    + rewrite !map_app, coding_spec_names, skill_spec_names. unfold skill_names.
      destruct l as [l|]; [destruct (available_ids l)|];
        apply (bool_decide_unpack _); vm_compute; exact I.
Qed.
End coding.

(** ** The sub-agent's registry *)

Section sub_agent.
Context {W : Type} `{Service W} `{GitWorkspace W} `{ShellWorkspace W} `{FileWorkspace W}.
Context (o : Outside W).

(** The processes a handler starts satisfy [P]. *)
Definition spec_runs_only (P : list string -> Prop) (t : ToolSpec W) : Prop :=
  forall R : W -> W -> Prop,
    Reflexive R -> Transitive R ->
    (forall root args timeout w, P args -> R w (git_process root args timeout w).2) ->
    forall args c, R c.2 (handler t args c).2.2.

Lemma fill_runs P (h : Handler_ (@GitTools.Body W)) args m :
  handler_runs P h -> fill h args = Some m -> runs_only P m.
Proof.
  induction h as [m'|n k IH|n d k IH]; cbn; intros Hh.
  - by intros [= <-].
  - destruct (obj_get n args) as [v|]; cbn; [|done]. by apply IH.
  - by apply IH.
Qed.

Lemma tool_runs P bad toolset check (t : ApiTool (@GitTools.Body W)) :
  handler_runs P (t_handler t) ->
  spec_runs_only P (tool_spec (on_world (fun m w => m w)) bad toolset check t).
Proof.
  intros Hh R HR HT Hk args c. cbn. unfold tool_handler.
  match goal with |- context [apply_args ?h args] => destruct (apply_args h args) as [m|] eqn:Hm end;
    [|apply HR].
  unfold apply_args in Hm. destruct (forallb _ args); [|done]. unfold on_world.
  pose proof (fill_runs _ _ _ _ Hh Hm R HR HT Hk c.2) as Hrun. by destruct (m c.2).
Qed.

Lemma coding_git_runs root hosts t :
  t ∈ coding_specs o root hosts false -> toolset t = "git" ->
  spec_runs_only (first_is agent_commands) t.
Proof.
  unfold coding_specs. rewrite !elem_of_app. intros [Ht|[Ht|[Ht|Ht]]] Hset.
  3: by apply list_elem_of_singleton in Ht as ->.
  all: apply list_elem_of_In, in_map_iff in Ht as (t0 & <- & Hin); try done.
  apply tool_runs. refine (Forall_elem _ _ _ (agent_git_commands _ _ _ _ _ _) _).
  by apply list_elem_of_In.
Qed.

(** C17: what a sub-agent can call.  Assembling its registry always succeeds:
    no name is registered twice.  The tools are the coding tools without
    [git_commit], the skill tool when there is a skill, and [tool_search];
    every one is shown to the model from the first round on; there is no
    tool that delegates further; and whatever a git tool is called with, it
    runs no git command but diff, log, checkout and clone. *)
Theorem sub_agent_surface root hosts l :
  exists r, create_coding_tool_registry o root hosts l = inr r /\
    names r = coding_names false ++ skill_names l ++ ["tool_search"] /\
    NoDup (names r) /\
    ("git_commit" ∉ names r) /\ ("delegate_task" ∉ names r) /\
    (forall surface, tool_definitions r surface = map to_definition r) /\
    (forall t, t ∈ r -> toolset t = "git" -> spec_runs_only (first_is agent_commands) t).
Proof.
  eexists. split; [apply sub_agent_registry|].
  assert (Hnames : forall r, r = coding_specs o root hosts false ++ skill_specs o l ++ [search_spec o] ->
            names r = coding_names false ++ skill_names l ++ ["tool_search"]).
  { intros r ->. unfold names. by rewrite !map_app, coding_spec_names, skill_spec_names. }
  specialize (Hnames _ eq_refl). split; [exact Hnames|]. rewrite Hnames. split_and!.
  1-3: unfold skill_names; destruct l as [l|]; [destruct (available_ids l)|];
    apply (bool_decide_unpack _); vm_compute; exact I.
  - intros surface. unfold tool_definitions. f_equal. apply forallb_filter_id.
    rewrite !forallb_app. unfold skill_specs. destruct l as [l|]; [destruct (available_ids l)|]; done.
  - intros t Ht Hset. rewrite !elem_of_app in Ht. destruct Ht as [Ht|[Ht|Ht]].
    + by eapply coding_git_runs.
    + unfold skill_specs in Ht. destruct l as [l|]; [destruct (available_ids l)|].
      1, 3: by apply not_elem_of_nil in Ht.
      by apply list_elem_of_singleton in Ht as ->.
    + by apply list_elem_of_singleton in Ht as ->.
Qed.
End sub_agent.

(** ** The process-wide registry *)

Definition jira_names : list string :=
  ["jira_get_issue"; "jira_search"; "jira_me"; "jira_get_transitions"; "jira_create_issue";
   "jira_update_issue"; "jira_add_comment"; "jira_transition_issue"].
Definition gitlab_names : list string :=
  ["gitlab_search_projects"; "gitlab_get_project"; "gitlab_list_merge_requests";
   "gitlab_get_merge_request"; "gitlab_get_merge_request_changes"; "gitlab_list_pipelines";
   "gitlab_get_pipeline"; "gitlab_get_job_log"; "gitlab_list_pipeline_jobs"; "gitlab_get_file";
   "gitlab_list_mr_notes"; "gitlab_list_mr_discussions"; "gitlab_get_mr_approvals";
   "gitlab_list_branches"; "gitlab_list_commits"; "gitlab_get_commit"; "gitlab_compare";
   "gitlab_me"; "gitlab_create_mr_note"; "gitlab_update_mr_note"; "gitlab_reply_to_discussion";
   "gitlab_resolve_discussion"; "gitlab_approve_mr"; "gitlab_unapprove_mr"; "gitlab_merge_mr";
   "gitlab_rebase_mr"; "gitlab_update_mr"; "gitlab_create_mr"].
Definition gerrit_names : list string :=
  ["gerrit_get_change"; "gerrit_list_changes"; "gerrit_get_change_detail";
   "gerrit_get_comments"; "gerrit_list_files"; "gerrit_get_diff"; "gerrit_me";
   "gerrit_set_review"; "gerrit_submit"; "gerrit_abandon"].
Definition confluence_names : list string :=
  ["confluence_search"; "confluence_get_page"; "confluence_get_page_children";
   "confluence_get_comments"; "confluence_get_labels"; "confluence_create_page";
   "confluence_update_page"; "confluence_add_comment"; "confluence_add_label"].
Definition slack_names : list string :=
  ["slack_search_messages"; "slack_list_channels"; "slack_get_channel_history";
   "slack_get_thread_replies"; "slack_get_user_info"; "slack_send_message"].

(** A text of the configuration. *)
Definition text_of (section name : string) (c : AppConfig) : string :=
  match setting section name c with JStr s => s | _ => "" end.

(** The clients that are made of the settings. *)
Definition jira_of (c : AppConfig) : JiraClient :=
  Jira.new_client (text_of "jira" "url" c) (text_of "jira" "auth_header" c).
Definition gitlab_of (c : AppConfig) : GitLabClient :=
  GitLab.new_client (text_of "gitlab" "url" c) (text_of "gitlab" "token" c).
Definition gerrit_of (c : AppConfig) : GerritClient :=
  Gerrit.new_client (text_of "gerrit" "url" c) (text_of "gerrit" "username" c)
    (text_of "gerrit" "http_password" c).
Definition confluence_of (c : AppConfig) : ConfluenceClient :=
  Confluence.new_client (text_of "confluence" "url" c) (text_of "confluence" "username" c)
    (text_of "confluence" "api_token" c).
Definition slack_of (c : AppConfig) : SlackSearchClient :=
  {| user_token := text_of "slack_search" "user_token" c |}.
Definition brave_of (c : AppConfig) : BraveSearchClient :=
  {| api_key := text_of "web_search" "api_key" c |}.

(** The tools that a configuration calls for: those of the enabled services
    whose clients are configured, and those that need no service. *)
Definition service_names (c : AppConfig) : list string :=
  on (enabled "jira" c && Jira.configured (jira_of c)) jira_names ++
  on (enabled "gitlab" c && GitLab.configured (gitlab_of c)) gitlab_names ++
  on (enabled "gerrit" c && Gerrit.configured (gerrit_of c)) gerrit_names ++
  on (enabled "confluence" c && Confluence.configured (confluence_of c)) confluence_names ++
  on (enabled "slack_search" c && SlackSearch.configured (slack_of c)) slack_names ++
  on (enabled "web_search" c && WebSearch.configured (brave_of c)) ["web_search"] ++
  on (enabled "web_search" c) ["web_fetch"].
Definition local_names (c : AppConfig) (l : option SkillLoader) (manager : bool) : list string :=
  on (enabled "coding" c) (coding_names true) ++ on manager ["delegate_task"] ++
  skill_names l ++ ["tool_search"].

Section full.
Context {W : Type} `{Service W} `{GitWorkspace W} `{ShellWorkspace W} `{FileWorkspace W}.
Context (o : Outside W).

Abbreviation calls := (on_world (W:=W) run).
Abbreviation bad := (o_bad_call o).

(** The tools in the order they are offered, before their checks. *)
Definition service_specs (c : AppConfig) : list (ToolSpec W) :=
  on (enabled "jira" c) (map (tool_spec calls bad "jira" (Some (Jira.configured (jira_of c))))
    (jira_tools (o_type_error o) (jira_of c))) ++
  on (enabled "gitlab" c) (map (tool_spec calls bad "gitlab" (Some (GitLab.configured (gitlab_of c))))
    (gitlab_tools (o_type_error o) (gitlab_of c))) ++
  on (enabled "gerrit" c) (map (tool_spec calls bad "gerrit" (Some (Gerrit.configured (gerrit_of c))))
    (gerrit_tools (o_type_error o) (gerrit_of c))) ++
  on (enabled "confluence" c)
    (map (tool_spec calls bad "confluence" (Some (Confluence.configured (confluence_of c))))
      (confluence_tools (confluence_of c))) ++
  on (enabled "slack_search" c)
    (map (tool_spec calls bad "slack_search" (Some (SlackSearch.configured (slack_of c))))
      (slack_search_tools (o_type_error o) (slack_of c))) ++
  on (enabled "web_search" c)
    [tool_spec calls bad "web_search" (Some (WebSearch.configured (brave_of c)))
       (_make_web_search (o_type_error o) (brave_of c) (setting "web_search" "default_limit" c));
     tool_spec calls bad "web_search" None
       (_make_web_fetch (o_type_error o) (o_unescape o) (text_of "web_search" "jina_api_key" c))].

Definition root_of (c : AppConfig) : string :=
  o_expanduser o (text_of "coding" "workspace_root" c).

Definition local_specs (c : AppConfig) (l : option SkillLoader) (manager : bool) : list (ToolSpec W) :=
  on (enabled "coding" c)
    (coding_specs o (root_of c) (text_of "coding" "git_clone_allowed_hosts" c) true) ++
  on manager [tool_spec (on_world (fun m w => m w)) bad "delegation" None
    (_make_delegate_task
       (o_delegate o (str_or (text_of "nmb" "sandbox_id" c) "orchestrator") (root_of c)))] ++
  skill_specs o l ++ [search_spec o].

Lemma text_setting_is sec f c :
  well_typed c -> has_every_field c -> declared sec f = Some TStr ->
  text_setting o sec f c = inr (text_of sec f c).
Proof.
  intros Hw Hc Hd. unfold text_setting, text_of, setting.
  destruct (Hc sec f) as [v Hv]; [by rewrite Hd|]. rewrite Hv. cbn.
  destruct (Hw _ _ _ Hv) as (t & Ht & Hty). rewrite Hd in Ht. injection Ht as <-.
  by destruct v.
Qed.

Lemma when_registers (b : bool) (f : Registry W -> string + Registry W) specs r :
  (b = true -> f r = register_all specs r) -> when b f r = register_all (on b specs) r.
Proof. destruct b; cbn; [auto|done]. Qed.

Lemma usable_on (b : bool) (specs : list (ToolSpec W)) :
  List.filter usable (on b specs) = on b (List.filter usable specs).
Proof. by destruct b. Qed.

Lemma on_on {A} (b b' : bool) (l : list A) : on b (on b' l) = on (b && b') l.
Proof. by destruct b. Qed.

Lemma map_on {A B} (f : A -> B) (b : bool) l : map f (on b l) = on b (map f l).
Proof. by destruct b. Qed.

Section configured.
Context (c : AppConfig) (typed : well_typed c) (full : has_every_field c).

Lemma jira_added r : add_jira o c r = register_all (map (tool_spec calls bad "jira"
  (Some (Jira.configured (jira_of c)))) (jira_tools (o_type_error o) (jira_of c))) r.
Proof. unfold add_jira. by rewrite !text_setting_is. Qed.

Lemma gitlab_added r : add_gitlab o c r = register_all (map (tool_spec calls bad "gitlab"
  (Some (GitLab.configured (gitlab_of c)))) (gitlab_tools (o_type_error o) (gitlab_of c))) r.
Proof. unfold add_gitlab. by rewrite !text_setting_is. Qed.

Lemma gerrit_added r : add_gerrit o c r = register_all (map (tool_spec calls bad "gerrit"
  (Some (Gerrit.configured (gerrit_of c))))
  (gerrit_tools (o_type_error o) (gerrit_of c))) r.
Proof. unfold add_gerrit. by rewrite !text_setting_is. Qed.

Lemma confluence_added r : add_confluence o c r = register_all (map (tool_spec calls bad "confluence"
  (Some (Confluence.configured (confluence_of c)))) (confluence_tools (confluence_of c))) r.
Proof. unfold add_confluence. by rewrite !text_setting_is. Qed.

Lemma slack_added r : add_slack o c r = register_all (map (tool_spec calls bad "slack_search"
  (Some (SlackSearch.configured (slack_of c)))) (slack_search_tools (o_type_error o) (slack_of c))) r.
Proof. unfold add_slack. by rewrite !text_setting_is. Qed.

Lemma web_added r : add_web o c r = register_all
  [tool_spec calls bad "web_search" (Some (WebSearch.configured (brave_of c)))
     (_make_web_search (o_type_error o) (brave_of c) (setting "web_search" "default_limit" c));
   tool_spec calls bad "web_search" None
     (_make_web_fetch (o_type_error o) (o_unescape o) (text_of "web_search" "jina_api_key" c))] r.
Proof. unfold add_web. by rewrite !text_setting_is. Qed.

Lemma coding_added r :
  add_coding o c r = (o_mkdir o (root_of c) ;;;
    register_all (coding_specs o (root_of c) (text_of "coding" "git_clone_allowed_hosts" c) true) r)%result.
Proof.
  unfold add_coding, workspace_of. rewrite !text_setting_is by done. cbn [bind_result].
  unfold root_of. destruct (o_mkdir _ _); [done|]. cbn [bind_result]. apply coding_registered.
Qed.

Lemma delegation_added r : add_delegation o c r = register_all
  [tool_spec (on_world (fun m w => m w)) bad "delegation" None
    (_make_delegate_task
       (o_delegate o (str_or (text_of "nmb" "sandbox_id" c) "orchestrator") (root_of c)))] r.
Proof.
  rewrite register_all_single. unfold add_delegation, workspace_of. by rewrite !text_setting_is.
Qed.

(** One part of the assembly: [tac] shows what it registers. *)
Local Ltac assembled tac :=
  rewrite ?register_all_app; erewrite when_registers by tac;
  match goal with |- context [register_all ?a ?r] => destruct (register_all a r) end;
  cbn [bind_result]; [done|].

(** The workspace is made between the service tools and the local ones. *)
Definition workspace_made : string + unit :=
  if enabled "coding" c then o_mkdir o (root_of c) else inr tt.

Lemma built l manager :
  build_full_tool_registry o c l manager =
  (r <-- register_all (service_specs c) [];;
   workspace_made ;;; register_all (local_specs c l manager) r)%result.
Proof.
  unfold build_full_tool_registry, service_specs, local_specs, workspace_made.
  assembled ltac:(intros _; by apply jira_added).
  assembled ltac:(intros _; by apply gitlab_added).
  assembled ltac:(intros _; by apply gerrit_added).
  assembled ltac:(intros _; by apply confluence_added).
  assembled ltac:(intros _; by apply slack_added).
  rewrite ?register_all_app. erewrite when_registers by (intros _; by apply web_added).
  match goal with |- context [register_all ?a ?r] => destruct (register_all a r) as [|r6] end;
    cbn [bind_result]; [done|].
  transitivity (workspace_made ;;; register_all (local_specs c l manager) r6)%result; [|done].
  unfold workspace_made, local_specs.
  assert (Hcoding : when (enabled "coding" c) (add_coding o c) r6 =
    ((if enabled "coding" c then o_mkdir o (root_of c) else inr tt) ;;;
     register_all (on (enabled "coding" c)
       (coding_specs o (root_of c) (text_of "coding" "git_clone_allowed_hosts" c) true)) r6)%result).
  { destruct (enabled "coding" c); [apply coding_added|done]. }
  rewrite Hcoding. clear Hcoding. destruct (if enabled "coding" c then _ else _); [done|].
  cbn [bind_result]. rewrite register_all_app.
  match goal with |- context [register_all ?a ?r] => destruct (register_all a r) end;
    cbn [bind_result]; [done|].
  assembled ltac:(intros _; by apply delegation_added).
  rewrite register_all_app, skills_registered.
  match goal with |- context [register_all ?a ?r] => destruct (register_all a r) end; [done|].
  cbn [bind_result]. by rewrite register_all_single.
Qed.
End configured.

(** *** Names *)

Definition every_name : list string :=
  jira_names ++ gitlab_names ++ gerrit_names ++ confluence_names ++ slack_names ++
  ["web_search"] ++ ["web_fetch"] ++ coding_names true ++ ["delegate_task"] ++ ["skill"] ++
  ["tool_search"].

Lemma every_name_once : NoDup every_name.
Proof. apply (bool_decide_unpack _). vm_compute. exact I. Qed.

Lemma on_sublist {A} (b : bool) (l : list A) : sublist (on b l) l.
Proof. destruct b; cbn; [done|]. apply sublist_nil_l. Qed.

Lemma skill_names_sublist l : sublist (skill_names l) ["skill"].
Proof. unfold skill_names. destruct l as [l|]; [destruct (available_ids l)|]; solve [done|apply sublist_nil_l]. Qed.

Lemma service_spec_names c :
  map name (service_specs c) =
  on (enabled "jira" c) jira_names ++ on (enabled "gitlab" c) gitlab_names ++
  on (enabled "gerrit" c) gerrit_names ++ on (enabled "confluence" c) confluence_names ++
  on (enabled "slack_search" c) slack_names ++
  on (enabled "web_search" c) (["web_search"] ++ ["web_fetch"]).
Proof. unfold service_specs. by rewrite !map_app, !map_on. Qed.

Lemma local_spec_names c l manager :
  map name (local_specs c l manager) = local_names c l manager.
Proof.
  unfold local_specs, local_names. by rewrite !map_app, !map_on, skill_spec_names.
Qed.

Lemma specs_distinct c l manager :
  NoDup (map name (service_specs c) ++ map name (local_specs c l manager)).
Proof.
  eapply sublist_NoDup; [apply every_name_once|]. rewrite service_spec_names, local_spec_names.
  unfold local_names, every_name. rewrite <- !app_assoc.
  do 5 (apply sublist_app; [apply on_sublist|]). rewrite (app_assoc ["web_search"]).
  do 3 (apply sublist_app; [apply on_sublist|]).
  apply sublist_app; [apply skill_names_sublist|done].
Qed.

(** *** What the checks leave *)

Lemma forallb_on {A} (p : A -> bool) (b : bool) l : forallb p l = true -> forallb p (on b l) = true.
Proof. by destruct b. Qed.

Lemma service_names_left c : map name (List.filter usable (service_specs c)) = service_names c.
Proof.
  unfold service_specs, service_names.
  rewrite !List.filter_app, !usable_on, !usable_checked, !map_app, !map_on, !on_on.
  do 5 f_equal. destruct (enabled "web_search" c); [|done].
  by destruct (WebSearch.configured (brave_of c)) eqn:Hb; cbn; rewrite ?Hb.
Qed.

Lemma services_not_core c :
  forallb (fun t => negb (is_core t)) (List.filter usable (service_specs c)) = true.
Proof.
  unfold service_specs. rewrite !List.filter_app, !usable_on, !usable_checked, !forallb_app.
  do 5 (rewrite forallb_on; [|by apply forallb_on]). apply forallb_on.
  by destruct (WebSearch.configured (brave_of c)) eqn:Hb; cbn; rewrite ?Hb.
Qed.

Lemma local_left c l manager :
  List.filter usable (local_specs c l manager) = local_specs c l manager.
Proof.
  unfold local_specs. rewrite !List.filter_app, !usable_on, coding_usable, skills_usable. done.
Qed.

Lemma local_core c l manager : forallb is_core (local_specs c l manager) = true.
Proof.
  unfold local_specs. rewrite !forallb_app.
  do 2 (rewrite forallb_on; [|done]). unfold skill_specs.
  destruct l as [l|]; [destruct (available_ids l)|]; done.
Qed.

Lemma filter_sublist {A} (p : A -> bool) l : sublist (List.filter p l) l.
Proof. induction l as [|x l IH]; cbn; [done|]. destruct (p x); by constructor. Qed.

Lemma filter_nothing {A} (p : A -> bool) l :
  forallb (fun x => negb (p x)) l = true -> List.filter p l = [].
Proof. induction l as [|x l IH]; cbn; [done|]. by destruct (p x). Qed.

Lemma negb_forallb {A} (p : A -> bool) l :
  forallb p l = true -> forallb (fun x => negb (negb (p x))) l = true.
Proof. induction l as [|x l IH]; cbn; [done|]. by destruct (p x). Qed.

Lemma registry_of_config c l manager :
  well_typed c -> has_every_field c -> workspace_made c = inr tt ->
  build_full_tool_registry o c l manager =
  inr (List.filter usable (service_specs c) ++ local_specs c l manager).
Proof.
  intros Hw Hc Hm. rewrite built, Hm by done.
  transitivity (register_all (service_specs c ++ local_specs c l manager) ([] : Registry W)).
  - rewrite register_all_app. by destruct (register_all (service_specs c) []).
  - rewrite register_all_new; [by rewrite List.filter_app, local_left|].
    rewrite map_app. apply specs_distinct.
Qed.

(** The registry a loaded configuration gives.  When the overlay's
    values have the declared types, the assembly fails only if the workspace
    directory cannot be made.  Otherwise no name is registered twice; a
    service's tools are there exactly when the service is enabled and its
    client is configured, the coding tools when coding is enabled, and
    [delegate_task] when there is a delegation manager.  The tools of the
    services are exactly those that the model does not see until
    [tool_search] has surfaced them. *)
Theorem full_registry_assembles safe_load files require_slack env path c ws ov l manager :
  Config.load safe_load files require_slack env path = inr (c, ws) ->
  overlay_of safe_load files env path = inr ov -> overlay_typed ov ->
  match workspace_made c with
  | inl exc => build_full_tool_registry o c l manager = inl exc
  | inr _ =>
      exists r, build_full_tool_registry o c l manager = inr r /\
        NoDup (names r) /\
        names r = service_names c ++ local_names c l manager /\
        non_core_names r = service_names c /\
        core_names r = local_names c l manager
  end.
Proof.
  rewrite load_eq. intros Hl Hov Ht. rewrite Hov in Hl.
  generalize dependent (apply_overlay ov app_defaults).2. intros ws0 Hl.
  destruct (missing_values require_slack (assembled env ov)); [|done]. injection Hl as Hc _.
  assert (Hw : well_typed c) by (rewrite <- Hc; by apply assembled_typed).
  assert (Hf : has_every_field c) by (rewrite <- Hc; apply assembled_complete). clear Hc.
  destruct (workspace_made c) as [exc|[]] eqn:Hm.
  - rewrite built by done. rewrite register_all_new.
    + cbn [bind_result]. by rewrite Hm.
    + pose proof (specs_distinct c l manager) as Hd. by apply NoDup_app in Hd as (Hd & _).
  - eexists. split; [by apply registry_of_config|].
    assert (Hn : names (List.filter usable (service_specs c) ++ local_specs c l manager) =
                 service_names c ++ local_names c l manager).
    { unfold names. rewrite map_app, local_spec_names. f_equal. apply service_names_left. }
    split_and!; [|exact Hn| |].
    + rewrite <- (local_left c l manager), <- List.filter_app.
      eapply sublist_NoDup; [apply (specs_distinct c l manager)|]. rewrite <- map_app.
      apply fmap_sublist, filter_sublist.
    + unfold non_core_names. rewrite List.filter_app, (forallb_filter_id _ _ (services_not_core c)).
      rewrite map_app, service_names_left, (filter_nothing _ (local_specs c l manager)).
      * by rewrite app_nil_r.
      * apply negb_forallb, local_core.
    + unfold core_names. rewrite List.filter_app, (forallb_filter_id _ _ (local_core c l manager)).
      rewrite (filter_nothing _ _ (services_not_core c)). apply local_spec_names.
Qed.
End full.

(** ** A concrete deployment *)

#[local] Instance no_service : Service FS := fun _ w => (Failed true "refused", w).
#[local] Instance no_git : GitWorkspace FS :=
  {| git_process := fun _ _ _ w => (Finalization.GitMissing, w); path_exists := fun _ _ => false |}.
#[local] Instance no_shell : ShellWorkspace FS := {|
  shell := fun _ _ _ w => (ShellExited (Some 0%Z) "", w);
  rg := fun _ _ w => (RgTimeout, w);
  which_rg := fun _ => None;
  is_dir := fun _ _ => true;
  is_file := fun _ _ => false;
  glob := fun _ _ _ => GlobPaths [];
  file_text := fun _ _ => inl "missing"
|}.
#[local] Instance plain_files : FileWorkspace FS :=
  {| get_fs := fun w => w; set_fs := fun fs _ => fs |}.

Definition sample_outside : Outside FS := {|
  o_type_error := fun v => "bad " +:+ json_type_name v;
  o_bad_call := fun _ => "bad call";
  o_unescape := fun s => s;
  o_bad_netloc := "bad netloc";
  o_valid_brackets := fun _ => true;
  o_not_relative := fun _ => "not relative";
  o_re_compile := fun s => inr (String.eqb s);
  o_resolve := fun s => s;
  o_expanduser := fun s => s;
  o_mkdir := fun _ => inr tt;
  o_valid_utf8 := fun _ => true;
  o_replace_invalid := fun s => s;
  o_os_error := fun _ _ => None;
  o_registry := fun _ => [];
  o_tree := fun _ => {| root_is_dir := false; found := []; read_text := fun _ => FileText "" |};
  o_loader := fun _ => {| skills_dir := "skills"; skills := ∅ |};
  o_delegate := fun _ _ _ _ _ _ w => (inr "started", w)
|}.

(** Jira's credentials are set, no other service's. *)
Definition jira_env : Environ :=
  {["SLACK_BOT_TOKEN" := "xoxb"; "SLACK_APP_TOKEN" := "xapp"; "JIRA_AUTH" := "Basic x"]}.

Definition no_yaml (text : string) : string + json := inr JNull.

Lemma sample_overlay_of : overlay_of no_yaml ∅ jira_env None = inr [].
Proof. vm_compute. reflexivity. Qed.

Lemma nothing_overlaid : overlay_typed [].
Proof.
  intros sec f y _. unfold yaml_value, section_value. cbn [obj_get]. by repeat case_decide.
Qed.

Lemma jira_loads : exists ws, Config.load no_yaml ∅ true jira_env None = inr (assembled jira_env [], ws).
Proof.
  rewrite load_eq, sample_overlay_of.
  assert (H : missing_values true (assembled jira_env []) = []) by (vm_compute; reflexivity).
  rewrite H. by eexists.
Qed.

Lemma full_registry_assembles_witness :
  exists r, build_full_tool_registry sample_outside (assembled jira_env []) None true = inr r /\
    non_core_names r = jira_names ++ ["web_fetch"] /\
    core_names r = coding_names true ++ ["delegate_task"; "tool_search"].
Proof.
  destruct jira_loads as [ws Hl].
  assert (Hm : workspace_made sample_outside (assembled jira_env []) = inr tt) by (vm_compute; reflexivity).
  pose proof (full_registry_assembles sample_outside no_yaml ∅ true jira_env None
    (assembled jira_env []) ws [] None true Hl sample_overlay_of nothing_overlaid) as H.
  rewrite Hm in H. destruct H as (r & Hr & _ & _ & Hn & Hc). exists r. split; [exact Hr|].
  rewrite Hn, Hc. split; vm_compute; reflexivity.
Defined.
