(* ===== verification/AuditLog.v ===== *)
(** * AuditLog

    The audit database ([audit/db.py], the tables of [audit/models.py]) and
    the sub-agent's buffer ([agent/audit_buffer.py]).

    A table is a map from its primary key; an INSERT whose key is taken or
    that leaves a NOT NULL column empty is an [IntegrityError] and rolls the
    transaction back, an UPDATE changes the row of its key if there is one.
    What one operation meets outside is its [Env]: the clock, an identifier,
    whether SQLite fails, and how a checkpoint ends. *)

From S2P Require Import Prelude Json Messages.
From Stdlib Require Import Ascii.

(** ** Rows *)

Record MessageRow := {
  mr_id : string;
  mr_timestamp : seconds;
  mr_op : string;
  mr_from_sandbox : string;
  mr_to_sandbox : option string;
  mr_type : string;
  mr_reply_to : option string;
  mr_channel : option string;
  mr_payload : string;
  mr_payload_size : Z;
  mr_delivery_status : string
}.

Record ConnectionRow := {
  cr_sandbox_id : string;
  cr_connected_at : seconds;
  cr_disconnected_at : option seconds;
  cr_disconnect_reason : option string
}.

Record DelegationRow := {
  dr_workflow_id : string;
  dr_started_at : seconds;
  dr_completed_at : option seconds;
  dr_parent_sandbox_id : string;
  dr_agent_id : string;
  dr_workspace_root : string;
  dr_prompt : string;
  dr_requested_model : option string;
  dr_requested_max_turns : option Z;
  dr_base_sha : option string;
  dr_base_repo_url : option string;
  dr_base_branch : option string;
  dr_status : string;
  dr_error_kind : option string;
  dr_error_message : option string;
  dr_recoverable : option Z;
  dr_rounds_used : option Z;
  dr_tool_calls_made : option Z;
  dr_model_used : option string;
  dr_summary : option string;
  dr_diff_size : option Z
}.

Record ToolCallRow := {
  tr_id : string;
  tr_timestamp : seconds;
  tr_session_id : option string;
  tr_thread_ts : option string;
  tr_service : string;
  tr_command : string;
  tr_args : string;
  tr_operation_type : string;
  tr_approval_status : option string;
  tr_approved_by : option string;
  tr_approval_time_ms : option Z;
  tr_exit_code : option Z;
  tr_duration_ms : Z;
  tr_success : Z;
  tr_error_code : option string;
  tr_error_message : option string;
  tr_response_payload : option string;
  tr_payload_size : Z;
  tr_workflow_id : option string;
  tr_parent_sandbox_id : option string;
  tr_agent_id : option string;
  tr_agent_role : option string
}.

Record Tables := {
  messages : gmap string MessageRow;
  connections : gmap string ConnectionRow;
  delegations : gmap string DelegationRow;
  tool_calls : gmap string ToolCallRow
}.

Definition no_tables : Tables :=
  {| messages := ∅; connections := ∅; delegations := ∅; tool_calls := ∅ |}.

Definition set_messages (x : gmap string MessageRow) (t : Tables) : Tables :=
  {| messages := x; connections := connections t; delegations := delegations t;
     tool_calls := tool_calls t |}.
Definition set_connections (x : gmap string ConnectionRow) (t : Tables) : Tables :=
  {| messages := messages t; connections := x; delegations := delegations t;
     tool_calls := tool_calls t |}.
Definition set_delegations (x : gmap string DelegationRow) (t : Tables) : Tables :=
  {| messages := messages t; connections := connections t; delegations := x;
     tool_calls := tool_calls t |}.
Definition set_tool_calls (x : gmap string ToolCallRow) (t : Tables) : Tables :=
  {| messages := messages t; connections := connections t; delegations := delegations t;
     tool_calls := x |}.

(** INSERT into a table by primary key. *)
Definition insert_row {R} (key : string) (row : R) (t : gmap string R) : option (gmap string R) :=
  match t !! key with Some _ => None | None => Some (<[key := row]> t) end.

(** ** The handle *)

Definition DEFAULT_AUDIT_QUEUE_SIZE : Z := 10000.
Definition DEFAULT_AUDIT_BATCH_SIZE : nat := 100.
Definition DEFAULT_AUDIT_CHECKPOINT_INTERVAL : Z := 10.

(** [AuditDB]: [opened] is whether there is an engine.  [main_file] is what
    the file itself holds and [wal] the states of the commits that are still
    in the write-ahead log, oldest first. *)
Record AuditDB := {
  persist_payloads : bool;
  checkpoint_interval : Z;
  commits_since_checkpoint : Z;
  opened : bool;
  main_file : Tables;
  wal : list Tables
}.

(** What a connection reads. *)
Definition tables (a : AuditDB) : Tables := List.last (wal a) (main_file a).

Definition new_audit (persist : bool) (interval : Z) : AuditDB :=
  {| persist_payloads := persist; checkpoint_interval := interval;
     commits_since_checkpoint := 0; opened := false; main_file := no_tables; wal := [] |}.

(** [PRAGMA wal_checkpoint(TRUNCATE)] does its work, reports that a reader
    blocked it, or raises. *)
Inductive CheckpointResult := CheckpointDone | CheckpointBusy | CheckpointRaised.

Record Env := {
  now : seconds;
  uuid : string;
  db_fails : option string;
  checkpoint_result : CheckpointResult
}.

Inductive AuditExc :=
| NotOpen
| IntegrityError
| DatabaseError (text : string)
| QueryRefused (text : string)
| RowInvalid
| FileError (text : string).

Definition set_counter (n : Z) (a : AuditDB) : AuditDB :=
  {| persist_payloads := persist_payloads a; checkpoint_interval := checkpoint_interval a;
     commits_since_checkpoint := n; opened := opened a; main_file := main_file a; wal := wal a |}.

Definition set_opened (b : bool) (a : AuditDB) : AuditDB :=
  {| persist_payloads := persist_payloads a; checkpoint_interval := checkpoint_interval a;
     commits_since_checkpoint := commits_since_checkpoint a; opened := b;
     main_file := main_file a; wal := wal a |}.

Definition commit_tables (t : Tables) (a : AuditDB) : AuditDB :=
  {| persist_payloads := persist_payloads a; checkpoint_interval := checkpoint_interval a;
     commits_since_checkpoint := commits_since_checkpoint a; opened := opened a;
     main_file := main_file a; wal := wal a ++ [t] |}.

Definition fold_wal (a : AuditDB) : AuditDB :=
  {| persist_payloads := persist_payloads a; checkpoint_interval := checkpoint_interval a;
     commits_since_checkpoint := commits_since_checkpoint a; opened := opened a;
     main_file := tables a; wal := [] |}.

(** [checkpoint]: the result row of the pragma is not read. *)
Definition checkpoint (e : Env) (a : AuditDB) : AuditDB :=
  if opened a then
    match checkpoint_result e with
    | CheckpointDone => set_counter 0 (fold_wal a)
    | CheckpointBusy => set_counter 0 a
    | CheckpointRaised => a
    end
  else a.

Definition _maybe_checkpoint (e : Env) (a : AuditDB) : AuditDB :=
  if (checkpoint_interval a <=? 0)%Z then a
  else
    let a := set_counter (commits_since_checkpoint a + 1) a in
    if (checkpoint_interval a <=? commits_since_checkpoint a)%Z then checkpoint e a else a.

(** [async with self._session() as session: ...; await session.commit()]:
    [change] is [None] when a constraint fails. *)
Definition transaction (e : Env) (change : Tables -> option Tables) (a : AuditDB)
  : (AuditExc + unit) * AuditDB :=
  if negb (opened a) then (inl NotOpen, a)
  else
    match change (tables a), db_fails e with
    | _, Some exc => (inl (DatabaseError exc), a)
    | None, None => (inl IntegrityError, a)
    | Some t, None => (inr tt, commit_tables t a)
    end.

(** A transaction and the checkpoint after it. *)
Definition write (e : Env) (change : Tables -> option Tables) (a : AuditDB)
  : (AuditExc + unit) * AuditDB :=
  match transaction e change a with
  | (inr tt, a) => (inr tt, _maybe_checkpoint e a)
  | refused => refused
  end.

(** ** Opening and closing *)

(** What [_needs_migration] finds: no file, an error of SQLite, or the row of
    [alembic_version]. *)
Inductive DbProbe := FileAbsent | ProbeRaises | VersionRow (v : option string).

Section handle.
(** The head of the migration scripts and how [alembic upgrade head] ends:
    its return code. *)
Context (_HEAD_REVISION : string) (alembic : Z).

Definition _needs_migration (p : DbProbe) : bool :=
  match p with
  | FileAbsent | ProbeRaises | VersionRow None => true
  | VersionRow (Some v) => negb (String.eqb v _HEAD_REVISION)
  end.

(** [inl] is a [CalledProcessError]. *)
Definition _run_migrations (p : DbProbe) : Z + unit :=
  if negb (_needs_migration p) then inr tt
  else if (alembic =? 0)%Z then inr tt else inl alembic.

Definition open (p : DbProbe) (a : AuditDB) : (Z + unit) * AuditDB :=
  match _run_migrations p with
  | inl code => (inl code, a)
  | inr _ => (inr tt, set_opened true a)
  end.
End handle.

Definition close (e : Env) (a : AuditDB) : AuditDB :=
  if opened a then set_opened false (checkpoint e a) else a.

(** ** Messages *)

Definition status_value (s : DeliveryStatus) : string :=
  match s with ST_DELIVERED => "delivered" | ST_ERROR => "error" | ST_TIMEOUT => "timeout" end.

Definition payload_json (m : NMBMessage) : string :=
  match payload m with Some p => json_dumps (JObj p) | None => "" end.

(** [len(text.encode())] *)
Definition byte_size (s : string) : Z := Z.of_nat (String.length s).

(** [msg.timestamp or time.time()] *)
Definition stamped_at (e : Env) (m : NMBMessage) : seconds :=
  match timestamp m with Some t => if (t =? 0)%Z then now e else t | None => now e end.

(** The row of a message; [None] when a column that is NOT NULL is [None]. *)
Definition message_row (e : Env) (persist : bool) (m : NMBMessage) (s : DeliveryStatus)
  : option MessageRow :=
  from ← from_sandbox m; ty ← type m;
  Some {| mr_id := id m; mr_timestamp := stamped_at e m; mr_op := op_value (op m);
          mr_from_sandbox := from; mr_to_sandbox := to_sandbox m; mr_type := ty;
          mr_reply_to := reply_to m; mr_channel := channel m;
          mr_payload := if persist then payload_json m else "";
          mr_payload_size := byte_size (payload_json m);
          mr_delivery_status := status_value s |}.

Definition insert_message (e : Env) (persist : bool) (m : NMBMessage) (s : DeliveryStatus)
  (t : Tables) : option Tables :=
  row ← message_row e persist m s; rows ← insert_row (id m) row (messages t);
  Some (set_messages rows t).

Definition with_status (s : DeliveryStatus) (r : MessageRow) : MessageRow :=
  {| mr_id := mr_id r; mr_timestamp := mr_timestamp r; mr_op := mr_op r;
     mr_from_sandbox := mr_from_sandbox r; mr_to_sandbox := mr_to_sandbox r; mr_type := mr_type r;
     mr_reply_to := mr_reply_to r; mr_channel := mr_channel r; mr_payload := mr_payload r;
     mr_payload_size := mr_payload_size r; mr_delivery_status := status_value s |}.

(** [update(MessageRow).where(MessageRow.id == msg_id)] *)
Definition update_status (msg_id : string) (s : DeliveryStatus) (t : Tables) : Tables :=
  set_messages (alter (with_status s) msg_id (messages t)) t.

Definition log_message (e : Env) (m : NMBMessage) (s : DeliveryStatus) (a : AuditDB)
  : (AuditExc + unit) * AuditDB :=
  write e (insert_message e (persist_payloads a) m s) a.

Definition update_delivery_status (e : Env) (msg_id : string) (s : DeliveryStatus) (a : AuditDB)
  : (AuditExc + unit) * AuditDB :=
  write e (fun t => Some (update_status msg_id s t)) a.

(** ** The background writer *)

Inductive WriteItem :=
| Insert (m : NMBMessage) (s : DeliveryStatus)
| Update (msg_id : string) (s : DeliveryStatus).

Definition is_insert (i : WriteItem) : bool := match i with Insert _ _ => true | _ => false end.

Definition write_item (e : Env) (persist : bool) (i : WriteItem) (t : Tables) : option Tables :=
  match i with
  | Insert m s => insert_message e persist m s t
  | Update msg_id s => Some (update_status msg_id s t)
  end.

Fixpoint write_items (e : Env) (persist : bool) (l : list WriteItem) (t : Tables) : option Tables :=
  match l with
  | [] => Some t
  | i :: l => t ← write_item e persist i t; write_items e persist l t
  end.

(** All inserts, a flush, then all updates. *)
Definition batch_change (e : Env) (persist : bool) (batch : list WriteItem) (t : Tables)
  : option Tables :=
  t ← write_items e persist (List.filter is_insert batch) t;
  write_items e persist (List.filter (fun i => negb (is_insert i)) batch) t.

(** The batch in one transaction. *)
Definition _write_message_batch (e : Env) (batch : list WriteItem) (a : AuditDB)
  : (AuditExc + unit) * AuditDB :=
  write e (batch_change e (persist_payloads a) batch) a.

(** ** Connections *)

Definition log_connection (e : Env) (sandbox_id : string) (a : AuditDB)
  : (AuditExc + unit) * AuditDB :=
  write e (fun t =>
    rows ← insert_row sandbox_id
             {| cr_sandbox_id := sandbox_id; cr_connected_at := now e;
                cr_disconnected_at := None; cr_disconnect_reason := None |} (connections t);
    Some (set_connections rows t)) a.

Definition closed_at (at_ : seconds) (reason : string) (r : ConnectionRow) : ConnectionRow :=
  match cr_disconnected_at r with
  | Some _ => r
  | None => {| cr_sandbox_id := cr_sandbox_id r; cr_connected_at := cr_connected_at r;
               cr_disconnected_at := Some at_; cr_disconnect_reason := Some reason |}
  end.

Definition log_disconnection (e : Env) (sandbox_id reason : string) (a : AuditDB)
  : (AuditExc + unit) * AuditDB :=
  write e (fun t =>
    Some (set_connections (alter (closed_at (now e) reason) sandbox_id (connections t)) t)) a.

(** ** Tool calls *)

(** The arguments of [log_tool_call] that describe the call ... *)
Record CallRecord := {
  service : string;
  command : string;
  args : string;
  operation_type : string;
  approval_status : option string;
  approved_by : option string;
  approval_time_ms : option Z;
  exit_code : option Z;
  duration_ms : Z;
  success : bool;
  error_code : option string;
  error_message : option string;
  response_payload : string
}.

(** ... and those that say whose it is. *)
Record Attribution := {
  session_id : option string;
  thread_ts : option string;
  workflow_id : option string;
  parent_sandbox_id : option string;
  agent_id : option string;
  agent_role : option string
}.

Definition tool_call_row (e : Env) (persist : bool) (row_id : string) (w : Attribution)
  (c : CallRecord) : ToolCallRow :=
  {| tr_id := row_id; tr_timestamp := now e; tr_session_id := session_id w;
     tr_thread_ts := thread_ts w; tr_service := service c; tr_command := command c;
     tr_args := args c; tr_operation_type := operation_type c;
     tr_approval_status := approval_status c; tr_approved_by := approved_by c;
     tr_approval_time_ms := approval_time_ms c; tr_exit_code := exit_code c;
     tr_duration_ms := duration_ms c; tr_success := if success c then 1 else 0;
     tr_error_code := error_code c; tr_error_message := error_message c;
     tr_response_payload := Some (if persist then response_payload c else "");
     tr_payload_size := byte_size (response_payload c);
     tr_workflow_id := workflow_id w; tr_parent_sandbox_id := parent_sandbox_id w;
     tr_agent_id := agent_id w; tr_agent_role := agent_role w |}.

(** A taken key is success: the row is there already. *)
Definition log_tool_call (e : Env) (row_id : option string) (w : Attribution) (c : CallRecord)
  (a : AuditDB) : (AuditExc + string) * AuditDB :=
  let row_id := opt_or row_id (uuid e) in
  match transaction e (fun t =>
          rows ← insert_row row_id (tool_call_row e (persist_payloads a) row_id w c) (tool_calls t);
          Some (set_tool_calls rows t)) a with
  | (inr tt, a) => (inr row_id, _maybe_checkpoint e a)
  | (inl IntegrityError, a) => (inr row_id, a)
  | (inl exc, a) => (inl exc, a)
  end.

(** [AuditToolCallPayload] is a stable identifier with a call record. *)
Record AuditFlushPayload := {
  af_workflow_id : string;
  af_parent_sandbox_id : string;
  af_agent_id : string;
  af_agent_role : string;
  af_tool_calls : list (string * CallRecord)
}.

Definition attribution_of (p : AuditFlushPayload) : Attribution :=
  {| session_id := Some (af_workflow_id p); thread_ts := None;
     workflow_id := Some (af_workflow_id p);
     parent_sandbox_id := Some (af_parent_sandbox_id p);
     agent_id := Some (af_agent_id p); agent_role := Some (af_agent_role p) |}.

(** The rows one after the other, each with what its transaction meets; an
    exception leaves the rest. *)
Fixpoint ingest_rows (env : nat -> Env) (w : Attribution) (count : nat)
  (l : list (string * CallRecord)) (a : AuditDB) : (AuditExc + Z) * AuditDB :=
  match l with
  | [] => (inr (Z.of_nat count), a)
  | (row_id, c) :: l =>
      match log_tool_call (env count) (Some row_id) w c a with
      | (inl exc, a) => (inl exc, a)
      | (inr _, a) => ingest_rows env w (S count) l a
      end
  end.

Definition ingest_audit_flush (env : nat -> Env) (p : AuditFlushPayload) (a : AuditDB)
  : (AuditExc + Z) * AuditDB :=
  ingest_rows env (attribution_of p) 0 (af_tool_calls p) a.

(** ** The buffer of a sub-agent *)

Record AuditBuffer := {
  ab_workflow_id : string;
  ab_parent_sandbox_id : string;
  ab_agent_id : string;
  ab_agent_role : string;
  ab_tool_calls : list (string * CallRecord)
}.

(** The constraints of [AuditToolCallPayload]. *)
Definition payload_valid (row_id : string) (c : CallRecord) : bool :=
  str_truthy row_id && str_truthy (command c) && (0 <=? duration_ms c)%Z
  && (String.eqb (operation_type c) "READ" || String.eqb (operation_type c) "WRITE").

Definition buffer_tool_call (e : Env) (row_id : option string) (w : Attribution) (c : CallRecord)
  (b : AuditBuffer) : (AuditExc + string) * AuditBuffer :=
  let row_id := opt_or row_id (uuid e) in
  if payload_valid row_id c then
    (inr row_id,
     {| ab_workflow_id := ab_workflow_id b; ab_parent_sandbox_id := ab_parent_sandbox_id b;
        ab_agent_id := ab_agent_id b; ab_agent_role := ab_agent_role b;
        ab_tool_calls := ab_tool_calls b ++ [(row_id, c)] |})
  else (inl RowInvalid, b).

Definition to_payload (b : AuditBuffer) : AuditFlushPayload :=
  {| af_workflow_id := ab_workflow_id b; af_parent_sandbox_id := ab_parent_sandbox_id b;
     af_agent_id := ab_agent_id b; af_agent_role := ab_agent_role b;
     af_tool_calls := ab_tool_calls b |}.

(** [AuditSink]: what the agent loop logs its calls to.  It ignores what the
    sink raises. *)
Class AuditSink (T : Type) :=
  sink_log : Env -> option string -> Attribution -> CallRecord -> T -> (AuditExc + string) * T.

#[export] Instance db_sink : AuditSink AuditDB := log_tool_call.
#[export] Instance buffer_sink : AuditSink AuditBuffer := buffer_tool_call.

Definition log_calls {T} `{AuditSink T} (l : list (Env * option string * Attribution * CallRecord))
  (s : T) : T :=
  fold_left (fun s x => (sink_log x.1.1.1 x.1.1.2 x.1.2 x.2 s).2) l s.

(** ** Delegations *)

(** The arguments of [log_delegation_started]. *)
Record DelegationStart := {
  ds_workflow_id : string;
  ds_parent_sandbox_id : string;
  ds_agent_id : string;
  ds_workspace_root : string;
  ds_prompt : string;
  ds_requested_model : option string;
  ds_requested_max_turns : option Z;
  ds_base_sha : option string;
  ds_base_repo_url : option string;
  ds_base_branch : option string
}.

Definition started_row (e : Env) (d : DelegationStart) : DelegationRow :=
  {| dr_workflow_id := ds_workflow_id d; dr_started_at := now e; dr_completed_at := None;
     dr_parent_sandbox_id := ds_parent_sandbox_id d; dr_agent_id := ds_agent_id d;
     dr_workspace_root := ds_workspace_root d; dr_prompt := ds_prompt d;
     dr_requested_model := ds_requested_model d; dr_requested_max_turns := ds_requested_max_turns d;
     dr_base_sha := ds_base_sha d; dr_base_repo_url := ds_base_repo_url d;
     dr_base_branch := ds_base_branch d; dr_status := "started";
     dr_error_kind := None; dr_error_message := None; dr_recoverable := None;
     dr_rounds_used := None; dr_tool_calls_made := None; dr_model_used := None;
     dr_summary := None; dr_diff_size := None |}.

Definition log_delegation_started (e : Env) (d : DelegationStart) (a : AuditDB)
  : (AuditExc + unit) * AuditDB :=
  write e (fun t =>
    rows ← insert_row (ds_workflow_id d) (started_row e d) (delegations t);
    Some (set_delegations rows t)) a.

(** The columns [log_delegation_complete] sets. *)
Record Completion := {
  c_rounds_used : Z;
  c_tool_calls_made : Z;
  c_model_used : option string;
  c_summary : string;
  c_diff_size : Z
}.

Definition completed_row (at_ : seconds) (c : Completion) (r : DelegationRow) : DelegationRow :=
  {| dr_workflow_id := dr_workflow_id r; dr_started_at := dr_started_at r;
     dr_completed_at := Some at_;
     dr_parent_sandbox_id := dr_parent_sandbox_id r; dr_agent_id := dr_agent_id r;
     dr_workspace_root := dr_workspace_root r; dr_prompt := dr_prompt r;
     dr_requested_model := dr_requested_model r; dr_requested_max_turns := dr_requested_max_turns r;
     dr_base_sha := dr_base_sha r; dr_base_repo_url := dr_base_repo_url r;
     dr_base_branch := dr_base_branch r; dr_status := "complete";
     dr_error_kind := dr_error_kind r; dr_error_message := dr_error_message r;
     dr_recoverable := dr_recoverable r;
     dr_rounds_used := Some (c_rounds_used c); dr_tool_calls_made := Some (c_tool_calls_made c);
     dr_model_used := c_model_used c; dr_summary := Some (c_summary c);
     dr_diff_size := Some (c_diff_size c) |}.

Definition log_delegation_complete (e : Env) (workflow_id : string) (c : Completion) (a : AuditDB)
  : (AuditExc + unit) * AuditDB :=
  write e (fun t =>
    Some (set_delegations (alter (completed_row (now e) c) workflow_id (delegations t)) t)) a.

Definition failed_row (at_ : seconds) (kind message : string) (recoverable : bool)
  (r : DelegationRow) : DelegationRow :=
  {| dr_workflow_id := dr_workflow_id r; dr_started_at := dr_started_at r;
     dr_completed_at := Some at_;
     dr_parent_sandbox_id := dr_parent_sandbox_id r; dr_agent_id := dr_agent_id r;
     dr_workspace_root := dr_workspace_root r; dr_prompt := dr_prompt r;
     dr_requested_model := dr_requested_model r; dr_requested_max_turns := dr_requested_max_turns r;
     dr_base_sha := dr_base_sha r; dr_base_repo_url := dr_base_repo_url r;
     dr_base_branch := dr_base_branch r; dr_status := "error";
     dr_error_kind := Some kind; dr_error_message := Some message;
     dr_recoverable := Some (if recoverable then 1 else 0)%Z;
     dr_rounds_used := dr_rounds_used r; dr_tool_calls_made := dr_tool_calls_made r;
     dr_model_used := dr_model_used r; dr_summary := dr_summary r;
     dr_diff_size := dr_diff_size r |}.

Definition log_delegation_error (e : Env) (workflow_id kind message : string) (recoverable : bool)
  (a : AuditDB) : (AuditExc + unit) * AuditDB :=
  write e (fun t =>
    Some (set_delegations
            (alter (failed_row (now e) kind message recoverable) workflow_id (delegations t)) t)) a.

(** ** Queries *)

Definition upper_char (c : ascii) : ascii :=
  let n := N_of_ascii c in
  if ((97 <=? n) && (n <=? 122))%N then ascii_of_N (n - 32) else c.

(** [s.upper()], as far as the test for SELECT can tell: the one character
    outside ASCII that becomes a letter of that word is U+017F, the long s. *)
Fixpoint upper (s : string) : string :=
  match s with
  | EmptyString => EmptyString
  | String c1 rest =>
      match rest with
      | String c2 rest2 =>
          if (N_of_ascii c1 =? 197)%N && (N_of_ascii c2 =? 191)%N
          then String "S"%char (upper rest2)
          else String (upper_char c1) (upper rest)
      | EmptyString => String (upper_char c1) EmptyString
      end
  end.

(** Only a SELECT reaches the database; [run_sql] is what SQLite answers on
    the tables as they are.  Nothing is committed. *)
Definition query {R} (run_sql : string -> Tables -> string + R) (sql : string) (a : AuditDB)
  : AuditExc + R :=
  if negb (startswith "SELECT" (upper (strip sql))) then
    inl (QueryRefused ("Only SELECT queries are allowed, got: " +:+ py_repr (py_prefix 40 sql)))
  else if negb (opened a) then inl NotOpen
  else match run_sql sql (tables a) with
       | inl exc => inl (DatabaseError exc)
       | inr rows => inr rows
       end.

(** ** Export *)

Section export.
(** How a float is written, and whether the file can be opened and written. *)
Context (float_json : seconds -> json) (file_fails : option string).

Definition opt_str (s : option string) : json := match s with Some s => JStr s | None => JNull end.
Definition opt_int (n : option Z) : json := match n with Some n => JInt n | None => JNull end.
Definition opt_float (x : option Z) : json := match x with Some x => float_json x | None => JNull end.

Definition message_json (r : MessageRow) : json :=
  JObj [("id", JStr (mr_id r)); ("timestamp", float_json (mr_timestamp r)); ("op", JStr (mr_op r));
        ("from_sandbox", JStr (mr_from_sandbox r)); ("to_sandbox", opt_str (mr_to_sandbox r));
        ("type", JStr (mr_type r)); ("reply_to", opt_str (mr_reply_to r));
        ("channel", opt_str (mr_channel r)); ("payload", JStr (mr_payload r));
        ("payload_size", JInt (mr_payload_size r));
        ("delivery_status", JStr (mr_delivery_status r))].

Definition tool_call_json (r : ToolCallRow) : json :=
  JObj [("id", JStr (tr_id r)); ("timestamp", float_json (tr_timestamp r));
        ("session_id", opt_str (tr_session_id r)); ("thread_ts", opt_str (tr_thread_ts r));
        ("service", JStr (tr_service r)); ("command", JStr (tr_command r));
        ("args", JStr (tr_args r)); ("operation_type", JStr (tr_operation_type r));
        ("approval_status", opt_str (tr_approval_status r));
        ("approved_by", opt_str (tr_approved_by r));
        ("approval_time_ms", opt_float (tr_approval_time_ms r));
        ("exit_code", opt_int (tr_exit_code r)); ("duration_ms", float_json (tr_duration_ms r));
        ("success", JInt (tr_success r)); ("error_code", opt_str (tr_error_code r));
        ("error_message", opt_str (tr_error_message r));
        ("response_payload", opt_str (tr_response_payload r));
        ("payload_size", JInt (tr_payload_size r)); ("workflow_id", opt_str (tr_workflow_id r));
        ("parent_sandbox_id", opt_str (tr_parent_sandbox_id r));
        ("agent_id", opt_str (tr_agent_id r)); ("agent_role", opt_str (tr_agent_role r))].

Definition jsonl (l : list json) : string :=
  String.concat "" (map (fun j => json_dumps j +:+ newline) l).

Definition recent {R} (timestamp : R -> seconds) (since : option seconds) (r : R) : bool :=
  match since with Some t => (t <=? timestamp r)%Z | None => true end.

(** [order_by] is the order SQLite returns the rows in; what is written is
    the file's new text. *)
Definition export_rows {R} (order_by : list R -> list R) (timestamp : R -> seconds)
  (to_json : R -> json) (table : Tables -> gmap string R) (e : Env) (since : option seconds)
  (a : AuditDB) : AuditExc + (Z * string) :=
  if negb (opened a) then inl NotOpen
  else match db_fails e with
       | Some exc => inl (DatabaseError exc)
       | None =>
           let rows := order_by (List.filter (recent timestamp since)
                                   (map snd (map_to_list (table (tables a))))) in
           match file_fails with
           | Some exc => inl (FileError exc)
           | None => inr (Z.of_nat (length rows), jsonl (map to_json rows))
           end
       end.

Definition export_messages_jsonl (order_by : list MessageRow -> list MessageRow) :=
  export_rows order_by mr_timestamp message_json messages.
Definition export_tool_calls_jsonl (order_by : list ToolCallRow -> list ToolCallRow) :=
  export_rows order_by tr_timestamp tool_call_json tool_calls.

(** [write_jsonl_fallback]: a line per call with the envelope, the keys
    sorted; nothing for an empty buffer. *)
Definition fallback_line (b : AuditBuffer) (x : string * CallRecord) : json :=
  let c := x.2 in
  JObj [("agent_id", JStr (ab_agent_id b)); ("agent_role", JStr (ab_agent_role b));
        ("parent_sandbox_id", JStr (ab_parent_sandbox_id b));
        ("tool_call", JObj
          [("approval_status", opt_str (approval_status c));
           ("approval_time_ms", opt_float (approval_time_ms c));
           ("approved_by", opt_str (approved_by c)); ("args", JStr (args c));
           ("command", JStr (command c)); ("duration_ms", float_json (duration_ms c));
           ("error_code", opt_str (error_code c)); ("error_message", opt_str (error_message c));
           ("exit_code", opt_int (exit_code c)); ("id", JStr x.1);
           ("operation_type", JStr (operation_type c));
           ("response_payload", JStr (response_payload c)); ("service", JStr (service c));
           ("success", JBool (success c))]);
        ("workflow_id", JStr (ab_workflow_id b))].

Definition write_jsonl_fallback (b : AuditBuffer) : option (string + string) :=
  match ab_tool_calls b with
  | [] => None
  | calls => Some (match file_fails with
                   | Some exc => inl exc
                   | None => inr (jsonl (map (fallback_line b) calls))
                   end)
  end.
End export.
