(* ===== verification/BuildScripts.v ===== *)
(** * BuildScripts

    The two generators that resolve the committed templates with the
    operator's [.env] ([scripts/gen_config.py] and [scripts/gen_policy.py]):
    the parser of the file, the category-B overrides of the configuration, and
    the hosts and [allowed_ips] of the sandbox policy.

    A YAML document is the value [yaml.safe_load] makes of it, without
    anchors; what is written is the value given to [yaml.dump].

    Theorems: what the generators may write: of the configuration, three
    settings; of the policy, the hosts of the templated endpoints and the
    address ranges of the hosts the operator listed. *)

From S2P Require Import Prelude Json Registry Tools Files GitTools AuditLog.
From Stdlib Require Import Ascii.

(** ** [_load_dotenv] *)

(** [text.splitlines()]: [skip] bytes of a separator are still to come. *)
Fixpoint lines_from (line : string) (skip : nat) (s : string) : list string :=
  match s with
  | EmptyString => if str_truthy line then [line] else []
  | String c s' =>
      match skip with
      | S k => lines_from line k s'
      | O => match separator s with
             | O => lines_from (line +:+ String c EmptyString) 0 s'
             | S k => line :: lines_from EmptyString k s'
             end
      end
  end.

(** [s.strip(chars)] *)
Definition strip_chars (chars s : string) : string := rstrip_chars chars (drop_leading (is_char chars) s).

Definition quotes : string := String (ascii_of_N 39) (String (ascii_of_N 34) EmptyString).

(** The assignment of a line, if it is one. *)
Definition dotenv_line (raw : string) : option (string * string) :=
  let line := strip raw in
  if negb (str_truthy line) || startswith "#" line || negb (has_char "=" line) then None
  else
    let '(key, value) := partition "=" line in
    let key := strip key in
    if str_truthy key then Some (key, strip_chars quotes (strip (default "" value))) else None.

Definition parse_dotenv (text : string) : gmap string string :=
  fold_left (fun values line => match dotenv_line line with
                                | Some (k, v) => <[k := v]> values
                                | None => values
                                end) (lines_from "" 0 text) ∅.

(** [None] is a path without a file. *)
Definition _load_dotenv (file : option string) : gmap string string :=
  match file with Some text => parse_dotenv text | None => ∅ end.

(** ** [gen_config.py] *)

Definition _CATEGORY_B_KEYS : list (string * string) :=
  [("GIT_CLONE_ALLOWED_HOSTS", "coding.git_clone_allowed_hosts");
   ("GITLAB_URL", "toolsets.gitlab.url"); ("GERRIT_URL", "toolsets.gerrit.url")].

Definition _FORBIDDEN_KEY_SUFFIXES : list string :=
  ["_TOKEN"; "_AUTH"; "_PASSWORD"; "_KEY"; "_SECRET"; "_API_KEY"; "_BOT_TOKEN"; "_APP_TOKEN";
   "_USER_TOKEN"; "_USERNAME"; "_CREDENTIALS"; "_COOKIE"].

(** On the ASCII letters of the names of variables. *)
Definition _has_forbidden_suffix (key : string) : bool :=
  existsb (fun s => endswith s (upper key)) _FORBIDDEN_KEY_SUFFIXES.

(** How a generator ends: with an exit status, an exception, or having written
    a document; the lines printed. *)
Inductive ScriptEnd :=
| Exits (status : Z)
| Raises
| Written (doc : json).

(** [part in node] for a node that is no mapping: [None] is a [TypeError];
    found or not, the next step raises. *)
Fixpoint set_dotted (parts : list string) (value : string) (doc : json) : option json :=
  match parts, doc with
  | [], _ => Some doc
  | [last], JObj o => Some (JObj (obj_set last (JStr value) o))
  | p :: parts, JObj o =>
      node ← obj_get p o; node ← set_dotted parts value node; Some (JObj (obj_set p node o))
  | _, _ => None
  end.

(** [None] is the [KeyError] or [TypeError]. *)
Definition _apply_dotted_path (doc : json) (dotted value : string) : option json :=
  set_dotted (split_on "."%char dotted) value doc.

(** The loop over the allowlist: the document, what was applied, what was
    skipped because it is unset, and what has a forbidden suffix. *)
Record Overrides := {
  ov_doc : json;
  ov_applied : list string;
  ov_missing : list (string * string);
  ov_forbidden : list string
}.

Definition override (env : gmap string string) (o : option Overrides) (kd : string * string)
  : option Overrides :=
  o ← o;
  let value := default "" (env !! kd.1) in
  if negb (str_truthy value) then
    Some {| ov_doc := ov_doc o; ov_applied := ov_applied o;
            ov_missing := ov_missing o ++ [kd]; ov_forbidden := ov_forbidden o |}
  else if _has_forbidden_suffix kd.1 then
    Some {| ov_doc := ov_doc o; ov_applied := ov_applied o;
            ov_missing := ov_missing o; ov_forbidden := ov_forbidden o ++ [kd.1] |}
  else
    doc ← _apply_dotted_path (ov_doc o) kd.2 value;
    Some {| ov_doc := doc; ov_applied := ov_applied o ++ [kd.1 +:+ " → " +:+ kd.2];
            ov_missing := ov_missing o; ov_forbidden := ov_forbidden o |}.

Definition overrides (keys : list (string * string)) (env : gmap string string) (doc : json)
  : option Overrides :=
  fold_left (override env) keys
    (Some {| ov_doc := doc; ov_applied := []; ov_missing := []; ov_forbidden := [] |}).

Definition config_summary (o : Overrides) : list string :=
  (match ov_applied o with
   | [] => ["Config generated: config/orchestrator.resolved.yaml (no category-B overrides — all fields at fail-closed defaults)"]
   | l => ["Config generated: config/orchestrator.resolved.yaml";
           "  category-B overrides applied: " +:+ show_Z (Z.of_nat (length l))] ++
          map (fun x => "    • " +:+ x) l
   end) ++
  match ov_missing o with
  | [] => []
  | l => ["  category-B overrides skipped (unset / empty in .env): " +:+ show_Z (Z.of_nat (length l))] ++
         map (fun kd : string * string => "    • " +:+ kd.1 +:+ " → " +:+ kd.2) l ++
         ["    Set these in .env and re-run `make gen-config` if you need the corresponding features (e.g. GitLab / Gerrit tools)."]
  end.

(** [main]; [base] is the parsed [defaults.yaml], if it is there. *)
Definition gen_config (keys : list (string * string)) (dotenv : option string) (base : option json)
  : ScriptEnd * list string :=
  let env := _load_dotenv dotenv in
  match base with
  | None => (Exits 1, [])
  | Some doc =>
      match List.filter (fun kd => _has_forbidden_suffix kd.1) keys with
      | _ :: _ => (Exits 2, [])
      | [] =>
          match overrides keys env doc with
          | None => (Raises, [])
          | Some o =>
              match ov_forbidden o with
              | _ :: _ => (Exits 3, [])
              | [] => (Written (ov_doc o), config_summary o)
              end
          end
      end
  end.

(** ** [gen_policy.py] *)

Definition _POLICY_HOST_SUBSTITUTIONS : list (string * string) :=
  [("GITLAB_URL", "gitlab"); ("GERRIT_URL", "gerrit")].

Inductive SkipReason := missing | malformed | schema_drift.

#[export] Instance SkipReason_eq_dec : EqDecision SkipReason.
Proof. solve_decision. Defined.

(** [v or {}], of which [.get] is called: [None] is an [AttributeError]. *)
Definition mapping_or_empty (v : option json) : option (list (string * json)) :=
  match v with
  | None => Some []
  | Some v => if json_truthy v then match v with JObj o => Some o | _ => None end else Some []
  end.

Record HostState := {
  hs_policy : json;
  hs_applied : list string;
  hs_skipped : list (string * string * SkipReason);
  hs_warnings : list string
}.

Section policy.
Context (bad_netloc : string) (valid_brackets : string -> bool).

(** Whether [urlparse] finds a scheme. *)
Definition has_scheme (url : string) : bool :=
  let url := without_chars unsafe_byte (drop_leading control_or_space url) in
  match partition ":" url with
  | (String c scheme, Some _) => is_letter c && all_of scheme_char scheme
  | _ => false
  end.

(** [None] is the [ValueError] of a malformed location. *)
Definition _extract_host (url : string) : option string :=
  match url_hostname bad_netloc valid_brackets (strip url) with
  | inl _ => None
  | inr h => Some (if has_scheme (strip url) then default "" h else "")
  end.

(** [endpoints[0]["host"] = host] *)
Definition set_first_host (host : string) (endpoints : json) : option json :=
  match endpoints with
  | JArr (JObj e :: l) => Some (JArr (JObj (obj_set "host" (JStr host) e) :: l))
  | _ => None
  end.

(** One entry of the substitution table. *)
Definition substitute (env : gmap string string) (s : option HostState) (vp : string * string)
  : option HostState :=
  s ← s;
  let '(env_var, policy_name) := vp in
  let url := default "" (env !! env_var) in
  let skip r ws := Some {| hs_policy := hs_policy s; hs_applied := hs_applied s;
                           hs_skipped := hs_skipped s ++ [(env_var, policy_name, r)];
                           hs_warnings := hs_warnings s ++ ws |} in
  host ← _extract_host url;
  policy ← match hs_policy s with JObj o => Some o | _ => None end;
  policies ← mapping_or_empty (obj_get "network_policies" policy);
  entry ← mapping_or_empty (obj_get policy_name policies);
  let endpoints := obj_get "endpoints" entry in
  if negb (str_truthy host) then
    skip (if str_truthy (strip url) then malformed else missing) []
  else if negb (json_truthy (default (JArr []) endpoints)) then
    skip schema_drift
      ["  Warning: " +:+ policy_name +:+ " network_policy has no endpoints; cannot apply " +:+
       env_var +:+ " substitution."]
  else
    new ← set_first_host host (default (JArr []) endpoints);
    let entry := obj_set "endpoints" new entry in
    let policies := obj_set policy_name (JObj entry) policies in
    Some {| hs_policy := JObj (obj_set "network_policies" (JObj policies) policy);
            hs_applied := hs_applied s ++ [env_var +:+ " → " +:+ policy_name +:+ ".host = " +:+ host];
            hs_skipped := hs_skipped s; hs_warnings := hs_warnings s |}.

Definition _apply_host_substitutions (table : list (string * string)) (env : gmap string string)
  (policy : json) : option HostState :=
  fold_left (substitute env) table
    (Some {| hs_policy := policy; hs_applied := []; hs_skipped := []; hs_warnings := [] |}).

(** [h.strip() for h in raw.split(",") if h.strip()] *)
Definition comma_list (raw : string) : list string :=
  List.filter str_truthy (map strip (split_on ","%char raw)).

(** The injection into one endpoint: the endpoint, the hosts it counts for,
    the lines printed. *)
Definition inject_endpoint (needing ips : list string) (e : json)
  : option (json * list string * list string) :=
  match e with
  | JObj o =>
      match default (JStr "") (obj_get "host" o) with
      | JStr h =>
          if negb (existsb (String.eqb h) needing) then Some (e, [], [])
          else match ips with
               | [] => Some (e, [], ["  Warning: " +:+ h +:+ " needs allowed_ips but ALLOWED_IPS is not set in .env"])
               | _ => Some (JObj (obj_set "allowed_ips" (JArr (map JStr ips)) o), [h], [])
               end
      | JArr _ | JObj _ => None
      | _ => Some (e, [], [])
      end
  | _ => None
  end.

(** A loop over values, collecting what each step adds. *)
Fixpoint collect {A} (f : A -> option (A * list string * list string)) (l : list A)
  : option (list A * list string * list string) :=
  match l with
  | [] => Some ([], [], [])
  | x :: l =>
      '(x, a, p) ← f x;
      '(l, a', p') ← collect f l;
      Some (x :: l, a ++ a', p ++ p')
  end.

Definition inject_entry (needing ips : list string) (kv : string * json)
  : option ((string * json) * list string * list string) :=
  match kv.2 with
  | JObj entry =>
      match obj_get "endpoints" entry with
      | None => Some (kv, [], [])
      | Some (JArr l) =>
          '(l, a, p) ← collect (inject_endpoint needing ips) l;
          Some ((kv.1, JObj (obj_set "endpoints" (JArr l) entry)), a, p)
      | Some (JObj []) | Some (JStr "") => Some (kv, [], [])
      | _ => None
      end
  | _ => None
  end.

Definition inject (needing ips : list string) (policy : json)
  : option (json * list string * list string) :=
  match policy with
  | JObj o =>
      match obj_get "network_policies" o with
      | None => Some (policy, [], [])
      | Some (JObj entries) =>
          '(entries, a, p) ← collect (inject_entry needing ips) entries;
          Some (JObj (obj_set "network_policies" (JObj entries) o), a, p)
      | _ => None
      end
  | _ => None
  end.

Definition skipped_for (r : SkipReason) (skipped : list (string * string * SkipReason))
  : list (string * string) :=
  map fst (List.filter (fun x => bool_decide (x.2 = r)) skipped).

Definition _format_host_skip_summary (skipped : list (string * string * SkipReason)) : list string :=
  let target (x : string * string) :=
    "    • " +:+ x.1 +:+ " (→ network_policies." +:+ x.2 +:+ ".endpoints[0].host)" in
  match skipped_for missing skipped with
  | [] => []
  | (x :: _) as l =>
      ["  hostnames NOT substituted (env var missing from .env, policy stays fail-closed):"] ++
      map target l ++
      ["    Fix: add `" +:+ x.1 +:+ "=https://<your-host>` to .env, then re-run `make gen-policy`."]
  end ++
  match skipped_for malformed skipped with
  | [] => []
  | l => ["  hostnames NOT substituted (URL set but unparseable — need `scheme://host`):"] ++ map target l
  end ++
  match skipped_for schema_drift skipped with
  | [] => []
  | l => ["  hostnames NOT substituted (policy missing from base template):"] ++
         map (fun x : string * string => "    • " +:+ x.1 +:+ " (→ " +:+ x.2 +:+ ")") l
  end.

Definition policy_summary (needing ips injected : list string) (s : HostState) : list string :=
  ["Policy generated: policies/orchestrator.resolved.yaml"] ++
  match hs_applied s with
  | [] => []
  | l => ["  hostnames substituted: " +:+ show_Z (Z.of_nat (length l))] ++ map (fun x => "    • " +:+ x) l
  end ++
  _format_host_skip_summary (hs_skipped s) ++
  match injected, needing, hs_applied s with
  | _ :: _, _, _ => ["  allowed_ips injected for: " +:+ String.concat ", " injected;
                     "  CIDRs: " +:+ String.concat ", " ips]
  | [], _ :: _, _ :: _ => ["  no allowed_ips — ALLOWED_IPS not set in .env"]
  | _, _, _ => []
  end ++
  match needing, injected, hs_skipped s with
  | _ :: _, [], _ :: _ =>
      ["  note: ENDPOINTS_NEEDING_ALLOWED_IPS references " +:+
       json_repr (JArr (map JStr (sorted_hosts (list_to_set needing)))) +:+
       " but none matched the resolved hosts — fix the missing URL(s) above and these will auto-inject on the next run."]
  | _, _, _ => []
  end.

(** [main]; [base] is the parsed policy template, if it is there. *)
Definition gen_policy (dotenv : option string) (base : option json) : ScriptEnd * list string :=
  let env := _load_dotenv dotenv in
  let needing := comma_list (default "" (env !! "ENDPOINTS_NEEDING_ALLOWED_IPS")) in
  let ips := comma_list (default "" (env !! "ALLOWED_IPS")) in
  match base with
  | None => (Exits 1, [])
  | Some policy =>
      match (s ← _apply_host_substitutions _POLICY_HOST_SUBSTITUTIONS env policy;
             '(policy, injected, printed) ← inject needing ips (hs_policy s);
             Some (s, policy, injected, printed)) with
      | None => (Raises, [])
      | Some (s, policy, injected, printed) =>
          (Written policy, printed ++ policy_summary needing ips injected s)
      end
  end.
End policy.

(** ** Objects *)

Lemma obj_set_set k v w o : obj_set k v (obj_set k w o) = obj_set k v o.
Proof.
  induction o as [|[k' v'] o IH]; simpl; [by rewrite String.eqb_refl|].
  destruct (String.eqb k k') eqn:Hk; simpl; rewrite Hk; [done|by rewrite IH].
Qed.

Lemma obj_set_same k v o : obj_get k o = Some v -> obj_set k v o = o.
Proof.
  induction o as [|[k' v'] o IH]; simpl; [done|]. destruct (String.eqb k k'); [by intros [= ->]|].
  intros H. by rewrite IH.
Qed.

(** Related in one value, equal in the others. *)
Lemma obj_set_Forall2 (R : string * json -> string * json -> Prop) k v v' o :
  Reflexive R -> obj_get k o = Some v -> (forall k, R (k, v) (k, v')) -> Forall2 R o (obj_set k v' o).
Proof.
  intros HR Hg Hv. induction o as [|[k1 v1] o IH]; simpl in *; [done|].
  destruct (String.eqb k k1); [|by constructor; [|apply IH]].
  injection Hg as ->. constructor; [apply Hv|]. clear -HR. induction o; by constructor.
Qed.

(** ** Dotted paths *)

Fixpoint get_dotted (parts : list string) (doc : json) : option json :=
  match parts with
  | [] => Some doc
  | p :: parts => match doc with JObj o => node ← obj_get p o; get_dotted parts node | _ => None end
  end.

Lemma set_dotted_get parts v doc doc' :
  parts ≠ [] -> set_dotted parts v doc = Some doc' -> get_dotted parts doc' = Some (JStr v).
Proof.
  revert doc doc'. induction parts as [|p [|q parts] IH]; intros doc doc' Hne H; [done| |].
  - destruct doc; simpl in H; try done. injection H as <-. simpl. by rewrite obj_get_set.
  - destruct doc as [| | | | | |o]; try done.
    cbn [set_dotted] in H. fold (set_dotted (q :: parts)) in H.
    apply bind_Some in H as (node & Hn & H). apply bind_Some in H as (node' & Hn' & H).
    injection H as <-. cbn [get_dotted]. rewrite obj_get_set. by eapply IH.
Qed.

(** Neither path leads to the other. *)
Fixpoint apart (a b : list string) : bool :=
  match a, b with
  | x :: a, y :: b => if String.eqb x y then apart a b else true
  | _, _ => false
  end.

Lemma set_dotted_apart parts v doc doc' path :
  apart parts path = true -> set_dotted parts v doc = Some doc' -> get_dotted path doc' = get_dotted path doc.
Proof.
  revert doc doc' path. induction parts as [|p parts IH]; intros doc doc' [|q path] Ha H; try done.
  simpl in Ha. destruct doc as [| | | | | |o]; [by destruct parts..|].
  destruct (String.eqb_spec p q) as [<-|Hne].
  - destruct parts as [|p' parts]; [done|]. cbn [set_dotted] in H. fold (set_dotted (p' :: parts)) in H.
    apply bind_Some in H as (node & Hn & H). apply bind_Some in H as (node' & Hn' & H).
    injection H as <-. cbn [get_dotted]. rewrite obj_get_set, Hn. by eapply IH.
  - destruct parts as [|p' parts].
    + simpl in H. injection H as <-. cbn [get_dotted]. by rewrite obj_get_set_ne by congruence.
    + cbn [set_dotted] in H. fold (set_dotted (p' :: parts)) in H.
      apply bind_Some in H as (node & Hn & H). apply bind_Some in H as (node' & Hn' & H).
      injection H as <-. cbn [get_dotted]. by rewrite obj_get_set_ne by congruence.
Qed.

(** ** The configuration *)

Definition path_of (kd : string * string) : list string := split_on "."%char kd.2.

Definition setting (env : gmap string string) (kd : string * string) : string := default "" (env !! kd.1).

Lemma override_none env l : fold_left (override env) l None = None.
Proof. by induction l. Qed.

(** What a loop over keys without forbidden suffixes does. *)
Lemma overrides_from env keys o o' :
  Forall (fun kd => _has_forbidden_suffix kd.1 = false) keys ->
  Forall (fun kd => path_of kd ≠ []) keys ->
  fold_left (override env) keys (Some o) = Some o' ->
  ov_forbidden o' = ov_forbidden o /\
  (forall path, Forall (fun kd => str_truthy (setting env kd) = true -> apart (path_of kd) path = true) keys ->
     get_dotted path (ov_doc o') = get_dotted path (ov_doc o)) /\
  (forall kd, kd ∈ keys -> str_truthy (setting env kd) = true ->
     Forall (fun kd' => kd' ≠ kd -> apart (path_of kd') (path_of kd) = true) keys ->
     get_dotted (path_of kd) (ov_doc o') = Some (JStr (setting env kd))).
Proof.
  intros Hf Hp. revert o. induction keys as [|kd keys IH]; intros o H; simpl in H.
  { injection H as <-. split; [done|]. split; [done|]. intros kd Hin. by apply not_elem_of_nil in Hin. }
  apply list.Forall_cons in Hf as [Hf1 Hf], Hp as [Hp1 Hp].
  fold (setting env kd) in H. rewrite Hf1 in H.
  destruct (str_truthy (setting env kd)) eqn:Ht; simpl in H.
  - destruct (_apply_dotted_path (ov_doc o) kd.2 (setting env kd)) as [doc|] eqn:Hd; simpl in H;
      [|by rewrite override_none in H].
    destruct (IH Hf Hp _ H) as (H1 & H2 & H3). simpl in H1, H2, H3.
    split; [done|]. split.
    + intros path [Ha Hrest]%list.Forall_cons. rewrite H2 by done.
      by eapply set_dotted_apart; [apply Ha|].
    + intros kd' Hin Ht' [Ha Hrest]%list.Forall_cons.
      destruct (decide (kd' ∈ keys)) as [Hk|Hk]; [by apply H3|].
      apply elem_of_cons in Hin as [->|Hin]; [|done]. rewrite H2; [by eapply set_dotted_get|].
      apply Forall_forall. intros x Hx _. rewrite Forall_forall in Hrest. apply Hrest; [done|].
      intros ->. by apply Hk, list_elem_of_In.
  - destruct (IH Hf Hp _ H) as (H1 & H2 & H3). simpl in H1, H2, H3. split; [done|]. split.
    + intros path [Ha Hrest]%list.Forall_cons. by apply H2.
    + intros kd' Hin Ht' [Ha Hrest]%list.Forall_cons.
      apply elem_of_cons in Hin as [->|Hin]; [congruence|by apply H3].
Qed.

Lemma category_b_keys_allowed : Forall (fun kd => _has_forbidden_suffix kd.1 = false) _CATEGORY_B_KEYS.
Proof. repeat (constructor; [reflexivity|]). constructor. Qed.

Lemma category_b_paths : Forall (fun kd => path_of kd ≠ []) _CATEGORY_B_KEYS.
Proof. repeat (constructor; [discriminate|]). constructor. Qed.

Lemma category_b_apart kd :
  kd ∈ _CATEGORY_B_KEYS ->
  Forall (fun kd' => kd' ≠ kd -> apart (path_of kd') (path_of kd) = true) _CATEGORY_B_KEYS.
Proof.
  intros H. unfold _CATEGORY_B_KEYS in *.
  repeat (apply elem_of_cons in H as [->|H]; [repeat (constructor; [done|]); constructor|]).
  by apply not_elem_of_nil in H.
Qed.

(** Nothing but the three settings differs from the template. *)
Lemma gen_config_writes dotenv base doc :
  (gen_config _CATEGORY_B_KEYS dotenv (Some base)).1 = Written doc ->
  let env := _load_dotenv dotenv in
  (forall kd, kd ∈ _CATEGORY_B_KEYS -> str_truthy (setting env kd) = true ->
     get_dotted (path_of kd) doc = Some (JStr (setting env kd))) /\
  (forall path,
     Forall (fun kd => str_truthy (setting env kd) = true -> apart (path_of kd) path = true)
       _CATEGORY_B_KEYS ->
     get_dotted path doc = get_dotted path base).
Proof.
  unfold gen_config. replace (List.filter _ _CATEGORY_B_KEYS) with (@nil (string * string)) by reflexivity.
  destruct (overrides _ _ _) as [o|] eqn:Ho; [|done]. destruct (ov_forbidden o); [|done].
  intros [= <-].
  destruct (overrides_from _ _ _ _ category_b_keys_allowed category_b_paths Ho) as (_ & H2 & H3).
  split; [|exact H2]. intros kd Hin Ht. apply H3; [done|done|]. by apply category_b_apart.
Qed.

(** The two refusals of secrets cannot happen with the allowlist as it is. *)
Lemma gen_config_never_refuses dotenv base :
  match (gen_config _CATEGORY_B_KEYS dotenv base).1 with
  | Exits n => n = 1%Z /\ base = None
  | _ => True
  end.
Proof.
  unfold gen_config. destruct base as [base|]; [|done].
  replace (List.filter _ _CATEGORY_B_KEYS) with (@nil (string * string)) by reflexivity.
  destruct (overrides _ _ _) as [o|] eqn:Ho; [|done].
  destruct (overrides_from _ _ _ _ category_b_keys_allowed category_b_paths Ho) as (H1 & _).
  by rewrite H1.
Qed.

(** Of the file only the three settings are read. *)
Lemma gen_config_reads dotenv dotenv' base :
  Forall (fun kd => setting (_load_dotenv dotenv) kd = setting (_load_dotenv dotenv') kd) _CATEGORY_B_KEYS ->
  gen_config _CATEGORY_B_KEYS dotenv base = gen_config _CATEGORY_B_KEYS dotenv' base.
Proof.
  intros H. unfold gen_config. destruct base as [base|]; [|done]. case_match; [|done].
  assert (He : overrides _CATEGORY_B_KEYS (_load_dotenv dotenv) base =
               overrides _CATEGORY_B_KEYS (_load_dotenv dotenv') base); [|by rewrite He].
  unfold overrides. clear -H. match goal with |- fold_left _ _ ?o = _ => generalize o end.
  induction H as [|kd keys Hkd H IH]; intros o; simpl; [done|]. rewrite <- IH. f_equal.
  unfold override. destruct o; [|done]. unfold setting in Hkd. simpl. by rewrite Hkd.
Qed.

Lemma no_settings kd : setting ∅ kd = "".
Proof. unfold setting. by rewrite lookup_empty. Qed.

(** Without a file the template is written as it is. *)
Lemma gen_config_template base : (gen_config _CATEGORY_B_KEYS None (Some base)).1 = Written base.
Proof. unfold gen_config. reflexivity. Qed.

(** ** The policy *)

(** An endpoint whose host came from a variable of the table. *)
Definition hosted (extract : string -> option string) (env : gmap string string)
  (table : list (string * string)) (e e' : json) : Prop :=
  e' = e \/
  exists vp host o, vp ∈ table /\ extract (default "" (env !! vp.1)) = Some host /\
    str_truthy host = true /\ e = JObj o /\ e' = JObj (obj_set "host" (JStr host) o).

(** An endpoint of a listed host that was given the ranges. *)
Definition granted (needing ips : list string) (e e' : json) : Prop :=
  e' = e \/
  exists host o, e = JObj o /\ obj_get "host" o = Some (JStr host) /\ host ∈ needing /\ ips ≠ [] /\
    e' = JObj (obj_set "allowed_ips" (JArr (map JStr ips)) o).

(** A policy that differs from another in its endpoints at most. *)
Definition entry_differs (E : json -> json -> Prop) (kv kv' : string * json) : Prop :=
  kv' = kv \/
  exists entry l l', kv.2 = JObj entry /\ obj_get "endpoints" entry = Some (JArr l) /\
    Forall2 E l l' /\ kv' = (kv.1, JObj (obj_set "endpoints" (JArr l') entry)).

Definition policy_differs (E : json -> json -> Prop) (p p' : json) : Prop :=
  p' = p \/
  exists o entries entries', p = JObj o /\ obj_get "network_policies" o = Some (JObj entries) /\
    Forall2 (entry_differs E) entries entries' /\
    p' = JObj (obj_set "network_policies" (JObj entries') o).

Definition then_ (E E' : json -> json -> Prop) (a c : json) : Prop := exists b, E a b /\ E' b c.

Lemma Forall2_then {A} (R S T : A -> A -> Prop) l1 l2 l3 :
  (forall a b c, R a b -> S b c -> T a c) -> Forall2 R l1 l2 -> Forall2 S l2 l3 -> Forall2 T l1 l3.
Proof.
  intros HT H1. revert l3. induction H1 as [|a b l1 l2 Hab H1 IH]; intros l3 H2; inversion H2; subst; [done|].
  constructor; [by eapply HT|by apply IH].
Qed.

Lemma Forall2_mono {A} (R T : A -> A -> Prop) l l' : (forall a b, R a b -> T a b) -> Forall2 R l l' -> Forall2 T l l'.
Proof. intros H. by induction 1; constructor; auto. Qed.

Lemma entry_differs_then E E' a b c :
  Reflexive E -> Reflexive E' -> entry_differs E a b -> entry_differs E' b c -> entry_differs (then_ E E') a c.
Proof.
  intros HE HE' [->|(en & l & l' & Ha & Hl & H1 & ->)] [->|(en2 & l2 & l3 & Hb & Hl2 & H2 & ->)].
  - by left.
  - right. exists en2, l2, l3. split; [done|]. split; [done|]. split; [|done].
    eapply Forall2_mono; [|exact H2]. intros x y Hxy. by exists x.
  - right. exists en, l, l'. split; [done|]. split; [done|]. split; [|done].
    eapply Forall2_mono; [|exact H1]. intros x y Hxy. by exists y.
  - simpl in Hb. injection Hb as <-. rewrite obj_get_set in Hl2. injection Hl2 as <-.
    right. exists en, l, l3. split; [done|]. split; [done|]. rewrite obj_set_set. split; [|done].
    eapply Forall2_then; [|exact H1|exact H2]. intros x y z Hx Hz. by exists y.
Qed.

Lemma policy_differs_then E E' a b c :
  Reflexive E -> Reflexive E' -> policy_differs E a b -> policy_differs E' b c -> policy_differs (then_ E E') a c.
Proof.
  intros HE HE' [->|(o & l & l' & -> & Hl & H1 & ->)] [->|(o2 & l2 & l3 & Hb & Hl2 & H2 & ->)].
  - by left.
  - right. exists o2, l2, l3. split; [done|]. split; [done|]. split; [|done].
    eapply Forall2_mono; [|exact H2]. intros x y Hxy. eapply entry_differs_then; eauto. by left.
  - right. exists o, l, l'. split; [done|]. split; [done|]. split; [|done].
    eapply Forall2_mono; [|exact H1]. intros x y Hxy. eapply entry_differs_then; eauto. by left.
  - injection Hb as <-. rewrite obj_get_set in Hl2. injection Hl2 as <-.
    right. exists o, l, l3. split; [done|]. split; [done|]. rewrite obj_set_set. split; [|done].
    eapply Forall2_then; [|exact H1|exact H2]. intros x y z. by apply entry_differs_then.
Qed.

Lemma policy_differs_mono (E E' : json -> json -> Prop) a b :
  (forall x y, E x y -> E' x y) -> policy_differs E a b -> policy_differs E' a b.
Proof.
  intros HE [->|(o & l & l' & -> & Hl & H & ->)]; [by left|]. right. exists o, l, l'.
  split; [done|]. split; [done|]. split; [|done]. eapply Forall2_mono; [|exact H].
  intros x y [->|(en & m & m' & Hx & Hm & Hf & ->)]; [by left|]. right. exists en, m, m'.
  split; [done|]. split; [done|]. split; [|done]. by eapply Forall2_mono.
Qed.

Lemma collect_Forall2 {A} (f : A -> option (A * list string * list string)) (R : A -> A -> Prop) l l' a p :
  (forall x x' b q, f x = Some (x', b, q) -> R x x') -> collect f l = Some (l', a, p) -> Forall2 R l l'.
Proof.
  intros HR. revert l' a p. induction l as [|x l IH]; intros l' a p H; simpl in H.
  - injection H as <- _ _. constructor.
  - apply bind_Some in H as ([[x' b] q] & Hx & H). apply bind_Some in H as ([[l1 b'] q'] & Hl & H).
    injection H as <- _ _. constructor; [by eapply HR|by eapply IH].
Qed.

Lemma inject_differs needing ips p p' a w :
  Forall (fun h => str_truthy h = true) needing ->
  inject needing ips p = Some (p', a, w) -> policy_differs (granted needing ips) p p'.
Proof.
  intros Hn. unfold inject. destruct p as [| | | | | |o]; try done.
  destruct (obj_get "network_policies" o) as [v|] eqn:Hv; [|intros [= <- _ _]; by left].
  destruct v as [| | | | | |entries]; try done. intros H.
  apply bind_Some in H as ([[entries' b] q] & Hc & H). injection H as <- _ _.
  right. exists o, entries, entries'. split; [done|]. split; [done|]. split; [|done].
  eapply collect_Forall2; [|exact Hc]. clear -Hn. intros [k e] kv' b q H. unfold inject_entry in H. simpl in H.
  destruct e as [| | | | | |entry]; try done.
  destruct (obj_get "endpoints" entry) as [v|] eqn:Hv; [|injection H as <- _ _; by left].
  destruct v as [| | | |[]|l|[]]; try done; try (injection H as <- _ _; by left).
  apply bind_Some in H as ([[l' b'] q'] & Hc & H). injection H as <- _ _.
  right. exists entry, l, l'. split; [done|]. split; [done|]. split; [|done].
  eapply collect_Forall2; [|exact Hc]. clear -Hn. intros e e' b q H. unfold inject_endpoint in H.
  destruct e as [| | | | | |o]; try done.
  assert (Hempty : existsb (String.eqb "") needing = false).
  { apply not_true_is_false. intros (h & Hin & <-%String.eqb_eq)%existsb_exists.
    rewrite List.Forall_forall in Hn. by specialize (Hn _ Hin). }
  destruct (obj_get "host" o) as [h|] eqn:Hh; cbn [default id] in H.
  2:{ rewrite Hempty in H. by injection H as <- _ _; left. }
  unfold id in H. destruct h as [| | | |host| |]; try done; try (injection H as <- _ _; by left).
  destruct (existsb (String.eqb host) needing) eqn:Hx; cbn [negb] in H; [|injection H as <- _ _; by left].
  apply existsb_exists in Hx as (h' & Hin & <-%String.eqb_eq).
  destruct ips as [|ip ips]; injection H as <- _ _; [by left|]. right. exists host, o.
  by rewrite list_elem_of_In.
Qed.

Section policy.
Context (bad_netloc : string) (valid_brackets : string -> bool).

Abbreviation extract := (_extract_host bad_netloc valid_brackets).

Lemma hosted_then env table a c :
  then_ (hosted extract env table) (hosted extract env table) a c -> hosted extract env table a c.
Proof.
  intros (b & [->|(vp & h & o & Hvp & Hh & Ht & -> & ->)] & [->|(vp' & h' & o' & Hvp' & Hh' & Ht' & Hb & ->)]).
  - by left.
  - right. by exists vp', h', o'.
  - right. by exists vp, h, o.
  - injection Hb as <-. right. exists vp', h', o. by rewrite obj_set_set.
Qed.

Lemma mapping_get k o e : mapping_or_empty (obj_get k o) = Some e -> e ≠ [] -> obj_get k o = Some (JObj e).
Proof.
  unfold mapping_or_empty. intros H Hne.
  destruct (obj_get k o) as [v|]; [|by simplify_eq]. destruct (json_truthy v); [|by simplify_eq].
  destruct v; by simplify_eq.
Qed.

Lemma substitute_differs env table s s' vp :
  vp ∈ table -> substitute bad_netloc valid_brackets env (Some s) vp = Some s' ->
  policy_differs (hosted extract env table) (hs_policy s) (hs_policy s').
Proof.
  destruct vp as [var name]. intros Hin H. cbv beta zeta iota delta [substitute mbind option_bind] in H.
  apply bind_Some in H as (host & Hh & H). apply bind_Some in H as (policy & Hp & H).
  apply bind_Some in H as (policies & Hps & H). apply bind_Some in H as (entry & He & H).
  destruct (str_truthy host) eqn:Ht; cbn [negb] in H; [|injection H as <-; by left].
  destruct (obj_get "endpoints" entry) as [v|] eqn:Hv; [|simpl in H; injection H as <-; by left].
  change (default (JArr []) (Some v)) with v in H. destruct (json_truthy v); cbn [negb] in H; [|injection H as <-; by left].
  apply bind_Some in H as (new & Hnew & H). injection H as <-. cbn [hs_policy].
  assert (Hne : entry ≠ []) by (by intros ->).
  pose proof (mapping_get _ _ _ He Hne) as He'.
  assert (Hpne : policies ≠ []) by (by intros ->).
  pose proof (mapping_get _ _ _ Hps Hpne) as Hps'.
  destruct (hs_policy s) as [| | | | | |o]; try done. injection Hp as <-.
  right. exists o, policies, (obj_set name (JObj (obj_set "endpoints" new entry)) policies).
  split; [done|]. split; [done|]. split; [|done].
  eapply obj_set_Forall2; [intros x; by left|exact He'|]. intros k. right.
  destruct v as [| | | | |[|[| | | | | |e] l]|]; try done. injection Hnew as <-.
  exists entry, (JObj e :: l), (JObj (obj_set "host" (JStr host) e) :: l).
  split; [done|]. split; [done|]. split; [|done]. constructor.
  - right. exists (var, name), host, e. done.
  - clear. induction l; constructor; [by left|done].
Qed.

Lemma substitute_none env l : fold_left (substitute bad_netloc valid_brackets env) l None = None.
Proof. by induction l. Qed.

Lemma substitutions_differ env table l s s' :
  (forall vp, vp ∈ l -> vp ∈ table) ->
  fold_left (substitute bad_netloc valid_brackets env) l (Some s) = Some s' ->
  policy_differs (hosted extract env table) (hs_policy s) (hs_policy s').
Proof.
  revert s. induction l as [|vp l IH]; intros s Hl H; cbn [fold_left] in H.
  { injection H as <-. by left. }
  destruct (substitute bad_netloc valid_brackets env (Some s) vp) as [s1|] eqn:H1;
    [|by rewrite substitute_none in H].
  eapply policy_differs_mono; [apply hosted_then|].
  eapply policy_differs_then; [intros x; by left|intros x; by left| |].
  - eapply substitute_differs; [|exact H1]. apply Hl. by apply list_elem_of_here.
  - apply IH; [|exact H]. intros vp' Hvp'. apply Hl. by apply list_elem_of_further.
Qed.

Lemma comma_list_truthy raw : Forall (fun h => str_truthy h = true) (comma_list raw).
Proof. unfold comma_list. apply Forall_forall. by intros h [_ H]%List.filter_In. Qed.

(** What a written policy is of its template. *)
Lemma gen_policy_writes dotenv base policy :
  (gen_policy bad_netloc valid_brackets dotenv (Some base)).1 = Written policy ->
  let env := _load_dotenv dotenv in
  let listed v := comma_list (default "" (env !! v)) in
  policy_differs
    (then_ (hosted extract env _POLICY_HOST_SUBSTITUTIONS)
           (granted (listed "ENDPOINTS_NEEDING_ALLOWED_IPS") (listed "ALLOWED_IPS")))
    base policy.
Proof.
  cbv zeta. unfold gen_policy.
  destruct (_apply_host_substitutions _ _ _ _ _) as [s|] eqn:Hs; cbn [mbind option_bind]; [|done].
  destruct (inject _ _ _) as [[[p a] w]|] eqn:Hi; cbn [mbind option_bind]; [|done]. intros [= <-].
  eapply policy_differs_then; [intros x; by left|intros x; by left| |].
  - by eapply (substitutions_differ _ _ _ {| hs_policy := base |}); [|exact Hs].
  - eapply inject_differs; [apply comma_list_truthy|exact Hi].
Qed.

(** A policy whose endpoints are the same is the same. *)
Lemma policy_differs_eq (E : json -> json -> Prop) p p' :
  (forall e e', E e e' -> e' = e) -> policy_differs E p p' -> p' = p.
Proof.
  intros HE [->|(o & l & l' & -> & Hl & H & ->)]; [done|].
  assert (l' = l) as ->; [|by rewrite obj_set_same].
  clear Hl. induction H as [|kv kv' l l' Hkv H IH]; [done|]. f_equal; [|done].
  destruct Hkv as [->|(en & m & m' & Hk & Hm & Hf & ->)]; [done|].
  assert (m' = m) as ->; [|destruct kv; simpl in *; by rewrite obj_set_same, Hk].
  clear -Hf HE. induction Hf as [|e e' m m' He Hf IH]; [done|]. f_equal; [by apply HE|done].
Qed.

Lemma gen_policy_template base policy :
  (gen_policy bad_netloc valid_brackets None (Some base)).1 = Written policy -> policy = base.
Proof.
  intros H. apply gen_policy_writes in H. cbn [_load_dotenv] in H.
  eapply policy_differs_eq; [|exact H].
  intros e e'' (e' & [->|(vp & host & o & _ & Hh & Ht & _)] & [->|(h & o' & _ & _ & Hin & _)]); try done.
  - rewrite lookup_empty in Hin. by apply not_elem_of_nil in Hin.
  - rewrite lookup_empty in Hh. by injection Hh as <-.
  - rewrite lookup_empty in Hh. by injection Hh as <-.
Qed.
End policy.

(** C31: the generators write what the operator may set and nothing else.
    The resolved configuration has the value of each set category-B variable
    of [.env] at its path and is the template everywhere else; no other
    variable, so no secret, gets in, and the refusals of secrets cannot
    happen with the allowlist as it is.  The resolved policy is the template
    with endpoints changed in two ways only: an endpoint is given the host
    name of one of the two URL variables, and an endpoint is given the address
    ranges of [ALLOWED_IPS], which lift the protection against private
    addresses, only if its host is then one that
    [ENDPOINTS_NEEDING_ALLOWED_IPS] lists.  Without a [.env] both write the
    template, if they write. *)
Theorem generators_write_only_overrides bad_netloc valid_brackets dotenv base :
  let env := _load_dotenv dotenv in
  let listed v := comma_list (default "" (env !! v)) in
  let config file := (gen_config _CATEGORY_B_KEYS file (Some base)).1 in
  let policy file := (gen_policy bad_netloc valid_brackets file (Some base)).1 in
  (forall doc, config dotenv = Written doc ->
     (forall kd, kd ∈ _CATEGORY_B_KEYS -> str_truthy (setting env kd) = true ->
        get_dotted (path_of kd) doc = Some (JStr (setting env kd))) /\
     (forall path,
        Forall (fun kd => str_truthy (setting env kd) = true -> apart (path_of kd) path = true)
          _CATEGORY_B_KEYS ->
        get_dotted path doc = get_dotted path base)) /\
  (forall status, config dotenv <> Exits status) /\
  (forall doc, policy dotenv = Written doc ->
     policy_differs
       (then_ (hosted (_extract_host bad_netloc valid_brackets) env _POLICY_HOST_SUBSTITUTIONS)
              (granted (listed "ENDPOINTS_NEEDING_ALLOWED_IPS") (listed "ALLOWED_IPS")))
       base doc) /\
  config None = Written base /\ (forall doc, policy None = Written doc -> doc = base).
Proof.
  split; [intros doc; apply gen_config_writes|]. split.
  { intros n Hn. pose proof (gen_config_never_refuses dotenv (Some base)) as H. rewrite Hn in H.
    by destruct H. }
  split; [intros doc; apply gen_policy_writes|]. split; [apply gen_config_template|].
  intros doc. apply gen_policy_template.
Qed.

(** ** At work *)

Definition line (s : string) : string := s +:+ newline.

(** A secret, a setting, and two hosts of which one is listed. *)
Definition an_env : string :=
  line "# private" +:+ line "SLACK_BOT_TOKEN=xoxb-1" +:+
  line "GITLAB_URL = 'https://git.corp:8443/api'" +:+ line "GERRIT_URL=gerrit.corp" +:+
  line "ENDPOINTS_NEEDING_ALLOWED_IPS=git.corp, other.corp" +:+ line "ALLOWED_IPS=10.0.0.0/8".

Definition a_config : json :=
  JObj [("coding", JObj [("git_clone_allowed_hosts", JStr "")]);
        ("toolsets", JObj [("gitlab", JObj [("enabled", JBool true); ("url", JStr "")]);
                           ("gerrit", JObj [("url", JStr "")])])].

Definition a_policy : json :=
  JObj [("version", JInt 1);
        ("network_policies",
         JObj [("gitlab", JObj [("endpoints", JArr [JObj [("host", JStr ""); ("port", JInt 443)]])]);
               ("pypi", JObj [("endpoints", JArr [JObj [("host", JStr "pypi.org")]])])])].

Lemma generators_write_only_overrides_witness :
  (gen_policy "bad" (fun _ => false) (Some an_env) (Some a_policy)).1 =
  Written (JObj [("version", JInt 1);
        ("network_policies",
         JObj [("gitlab", JObj [("endpoints", JArr [JObj [("host", JStr "git.corp"); ("port", JInt 443);
                                                          ("allowed_ips", JArr [JStr "10.0.0.0/8"])]])]);
               ("pypi", JObj [("endpoints", JArr [JObj [("host", JStr "pypi.org")]])])])]) /\
  match (gen_config _CATEGORY_B_KEYS (Some an_env) (Some a_config)).1 with
  | Written doc =>
      get_dotted ["toolsets"; "gitlab"; "url"] doc = Some (JStr "https://git.corp:8443/api") /\
      get_dotted ["toolsets"; "gitlab"; "enabled"] doc = Some (JBool true)
  | _ => False
  end.
Proof.
  split; [vm_compute; reflexivity|].
  destruct (gen_config _CATEGORY_B_KEYS (Some an_env) (Some a_config)).1 as [n| |doc] eqn:Hw;
    [vm_compute in Hw; discriminate..|].
  destruct (generators_write_only_overrides "bad" (fun _ => false) (Some an_env) a_config) as [H _].
  destruct (H doc Hw) as [H1 H2]. split.
  - apply (H1 ("GITLAB_URL", "toolsets.gitlab.url")); [vm_compute; by right; left|reflexivity].
  - rewrite H2; [reflexivity|]. repeat (constructor; [intros _; reflexivity|]). constructor.
Defined.

(** A location that is no address leaves [gen_policy] with an exception, where
    [_extract_host] promises the empty string. *)
Example bad_location :
  (gen_policy "bad" (fun _ => false) (Some (line "GITLAB_URL=https://[oops]/")) (Some a_policy)).1 = Raises.
Proof. vm_compute. reflexivity. Qed.

(** A policy without an entry is a mapping for the hosts and an exception for
    the address ranges. *)
Example empty_section :
  (gen_policy "bad" (fun _ => false) None (Some (JObj [("network_policies", JNull)]))).1 = Raises.
Proof. vm_compute. reflexivity. Qed.
