(* ===== verification/AuditTheorems.v ===== *)
(** * AuditTheorems

    What the audit database keeps: nothing is lost or rewritten, a flush may
    be delivered any number of times, and the file itself is never far
    behind. *)

From S2P Require Import Prelude Json Messages AuditLog.
From stdpp Require Import list.

(** ** Growth *)

(** The columns of a delegation that are set when it starts. *)
Definition request_of (r : DelegationRow) : DelegationStart * seconds :=
  ({| ds_workflow_id := dr_workflow_id r; ds_parent_sandbox_id := dr_parent_sandbox_id r;
      ds_agent_id := dr_agent_id r; ds_workspace_root := dr_workspace_root r;
      ds_prompt := dr_prompt r; ds_requested_model := dr_requested_model r;
      ds_requested_max_turns := dr_requested_max_turns r; ds_base_sha := dr_base_sha r;
      ds_base_repo_url := dr_base_repo_url r; ds_base_branch := dr_base_branch r |},
   dr_started_at r).

(** Every row of [t] is in [t'], up to the change [R] its table allows. *)
Definition rows_kept {A} (R : A -> A -> Prop) (t t' : gmap string A) : Prop :=
  forall id r, t !! id = Some r -> exists r', t' !! id = Some r' /\ R r r'.

Definition restatused (r r' : MessageRow) : Prop := r' = r \/ exists s, r' = with_status s r.
Definition reclosed (r r' : ConnectionRow) : Prop :=
  r' = r \/ (cr_disconnected_at r = None /\ exists at_ reason, r' = closed_at at_ reason r).
Definition same_request (r r' : DelegationRow) : Prop := request_of r' = request_of r.

Record grows (t t' : Tables) : Prop := {
  grows_messages : rows_kept restatused (messages t) (messages t');
  grows_connections : rows_kept reclosed (connections t) (connections t');
  grows_delegations : rows_kept same_request (delegations t) (delegations t');
  grows_tool_calls : rows_kept eq (tool_calls t) (tool_calls t')
}.

Section kept.
Context {A : Type} (R : A -> A -> Prop) `{!PreOrder R}.

#[local] Instance rows_kept_preorder : PreOrder (rows_kept R).
Proof.
  split.
  - intros t id r Hr. by exists r.
  - intros t1 t2 t3 H12 H23 id r Hr. destruct (H12 _ _ Hr) as (r2 & Hr2 & HR).
    destruct (H23 _ _ Hr2) as (r3 & Hr3 & HR'). exists r3. split; [done|by etransitivity].
Qed.

Lemma rows_kept_refl t : rows_kept R t t.
Proof. reflexivity. Qed.

Lemma insert_row_kept key row t t' : insert_row key row t = Some t' -> rows_kept R t t'.
Proof.
  unfold insert_row. destruct (t !! key) eqn:Hk; [done|]. intros [= <-] id r Hr. exists r.
  split; [|done]. rewrite lookup_insert_ne; [done|]. congruence.
Qed.

Lemma alter_kept f key t : (forall r, R r (f r)) -> rows_kept R t (alter f key t).
Proof.
  intros Hf id r Hr. destruct (decide (key = id)) as [->|Hne].
  - exists (f r). by rewrite lookup_alter_eq, Hr.
  - exists r. by rewrite lookup_alter_ne.
Qed.
End kept.

#[export] Instance restatused_preorder : PreOrder restatused.
Proof.
  split; [by left|]. intros r1 r2 r3 [->|[s ->]] [->|[s' ->]]; [by left|right..].
  - by exists s'.
  - by exists s.
  - by exists s'.
Qed.

#[export] Instance reclosed_preorder : PreOrder reclosed.
Proof.
  split; [by left|]. intros r1 r2 r3 [->|(Hn & at_ & reason & ->)] [->|(Hn' & at' & reason' & ->)].
  - by left.
  - right. eauto.
  - right. eauto.
  - right. split; [done|]. exists at_, reason. unfold closed_at in *. by rewrite Hn in *.
Qed.

#[export] Instance same_request_preorder : PreOrder same_request.
Proof. split; [done|]. intros r1 r2 r3 H12 H23. unfold same_request in *. congruence. Qed.

#[export] Instance grows_preorder : PreOrder grows.
Proof.
  split.
  - intros t. split; (apply rows_kept_preorder; typeclasses eauto).
  - intros t1 t2 t3 [] []. split; (eapply rows_kept_preorder; [typeclasses eauto|done..]).
Qed.

(** A change of one table: [tac] proves it for that table. *)
Ltac grows_by tac :=
  split; cbn; first [solve [tac] | apply rows_kept_refl; typeclasses eauto].

Lemma insert_message_grows e persist m s t t' :
  insert_message e persist m s t = Some t' -> grows t t'.
Proof.
  intros (row & _ & Hr)%bind_Some. apply bind_Some in Hr as (rows & Hr & [= <-]).
  grows_by ltac:(eapply insert_row_kept; [typeclasses eauto|exact Hr]).
Qed.

Lemma update_status_grows msg_id s t : grows t (update_status msg_id s t).
Proof. grows_by ltac:(apply alter_kept; [typeclasses eauto|intros r; right; by exists s]). Qed.

Lemma write_items_grows e persist l t t' : write_items e persist l t = Some t' -> grows t t'.
Proof.
  revert t. induction l as [|i l IH]; cbn; intros t; [by intros [= <-]|].
  intros (t1 & H1 & H2)%bind_Some. transitivity t1; [|by apply IH].
  destruct i; [by eapply insert_message_grows|]. injection H1 as <-. apply update_status_grows.
Qed.

Lemma batch_grows e persist batch t t' : batch_change e persist batch t = Some t' -> grows t t'.
Proof.
  intros (t1 & H1 & H2)%bind_Some. transitivity t1; by eapply write_items_grows.
Qed.

(** ** Transactions *)

Lemma tables_commit t a : tables (commit_tables t a) = t.
Proof. unfold tables. cbn. apply last_last. Qed.

Lemma tables_counter n a : tables (set_counter n a) = tables a.
Proof. done. Qed.

Lemma tables_fold a : tables (fold_wal a) = tables a.
Proof. done. Qed.

Lemma tables_checkpoint e a : tables (checkpoint e a) = tables a.
Proof. unfold checkpoint. destruct (opened a); [|done]. by destruct (checkpoint_result e). Qed.

Lemma tables_maybe e a : tables (_maybe_checkpoint e a) = tables a.
Proof.
  unfold _maybe_checkpoint. destruct (_ <=? 0)%Z; [done|]. destruct (_ <=? _)%Z; [|done].
  by rewrite tables_checkpoint.
Qed.

(** Why a transaction is refused. *)
Definition refused (e : Env) (change : Tables -> option Tables) (a : AuditDB) (exc : AuditExc) : Prop :=
  (opened a = false /\ exc = NotOpen) \/
  (opened a = true /\ exists x, db_fails e = Some x /\ exc = DatabaseError x) \/
  (opened a = true /\ db_fails e = None /\ change (tables a) = None /\ exc = IntegrityError).

(** A transaction that is refused changes nothing; one that is not commits
    what its change makes of the tables. *)
Lemma transaction_cases e change a :
  (exists exc, transaction e change a = (inl exc, a) /\ refused e change a exc) \/
  (exists t, change (tables a) = Some t /\ opened a = true /\ db_fails e = None /\
     transaction e change a = (inr tt, commit_tables t a)).
Proof.
  unfold transaction, refused. destruct (opened a); cbn [negb]; [|left; eexists; split; [done|by left]].
  destruct (db_fails e) as [x|] eqn:Hf.
  - left. exists (DatabaseError x). split; [by destruct (change (tables a))|]. right; left. eauto.
  - destruct (change (tables a)) as [t|] eqn:Hc; [right; by exists t|].
    left. eexists. split; [done|]. right; right. done.
Qed.

Lemma write_cases e change a :
  (exists exc, write e change a = (inl exc, a) /\ refused e change a exc) \/
  (exists t, change (tables a) = Some t /\ opened a = true /\ db_fails e = None /\
     write e change a = (inr tt, _maybe_checkpoint e (commit_tables t a))).
Proof.
  unfold write. destruct (transaction_cases e change a) as [(exc & -> & Hx)|(t & Hc & Ho & Hf & ->)].
  - left. by eexists.
  - right. by exists t.
Qed.

Lemma tables_written e t a : tables (_maybe_checkpoint e (commit_tables t a)) = t.
Proof. by rewrite tables_maybe, tables_commit. Qed.

Lemma write_grows e change a :
  (forall t t', change t = Some t' -> grows t t') -> grows (tables a) (tables (write e change a).2).
Proof.
  intros Hg. destruct (write_cases e change a) as [(exc & -> & _)|(t & Hc & _ & _ & ->)]; [done|].
  cbn [snd]. rewrite tables_written. by apply Hg.
Qed.

(** A tool call whose identifier is taken is as good as written. *)
Lemma log_tool_call_cases e row_id w c a :
  let id := opt_or row_id (uuid e) in
  let row := tool_call_row e (persist_payloads a) id w c in
  (exists exc, log_tool_call e row_id w c a = (inl exc, a) /\
     (opened a = true -> is_Some (db_fails e))) \/
  (is_Some (tool_calls (tables a) !! id) /\ log_tool_call e row_id w c a = (inr id, a)) \/
  (tool_calls (tables a) !! id = None /\
   log_tool_call e row_id w c a =
     (inr id, _maybe_checkpoint e
                (commit_tables (set_tool_calls (<[id := row]> (tool_calls (tables a))) (tables a)) a))).
Proof.
  cbn zeta. unfold log_tool_call. set (id := opt_or row_id (uuid e)).
  match goal with |- context [transaction e ?ch a] =>
    destruct (transaction_cases e ch a) as [(exc & -> & Hx)|(t & Hc & Ho & Hf & ->)] end.
  - destruct Hx as [(Ho & ->)|[(Ho & x & Hf & ->)|(Ho & Hf & Hn & ->)]].
    + left. eexists. split; [done|]. by rewrite Ho.
    + left. eexists. split; [done|]. intros _. by eexists.
    + right; left. split; [|done]. unfold insert_row in Hn.
      destruct (tool_calls (tables a) !! id); [by eexists|done].
  - right; right. unfold insert_row in Hc.
    destruct (tool_calls (tables a) !! id) eqn:Hr; [done|]. injection Hc as <-. by split.
Qed.

(** ** Every operation *)

Inductive Action :=
| ALogMessage (m : NMBMessage) (s : DeliveryStatus)
| AUpdateStatus (msg_id : string) (s : DeliveryStatus)
| AWriteBatch (batch : list WriteItem)
| AConnect (sandbox_id : string)
| ADisconnect (sandbox_id reason : string)
| AToolCall (row_id : option string) (w : Attribution) (c : CallRecord)
| AFlush (env : nat -> Env) (p : AuditFlushPayload)
| AStarted (d : DelegationStart)
| AComplete (workflow_id : string) (c : Completion)
| AError (workflow_id kind message : string) (recoverable : bool)
| ACheckpoint
| AClose
| AOpen (head : string) (alembic : Z) (p : DbProbe).

(** The state an operation leaves, and whether it raised. *)
Definition act (e : Env) (x : Action) (a : AuditDB) : bool * AuditDB :=
  let done {A} (r : (AuditExc + A) * AuditDB) :=
    (match r.1 with inl _ => true | inr _ => false end, r.2) in
  match x with
  | ALogMessage m s => done (log_message e m s a)
  | AUpdateStatus i s => done (update_delivery_status e i s a)
  | AWriteBatch l => done (_write_message_batch e l a)
  | AConnect s => done (log_connection e s a)
  | ADisconnect s r => done (log_disconnection e s r a)
  | AToolCall i w c => done (log_tool_call e i w c a)
  | AFlush env p => done (ingest_audit_flush env p a)
  | AStarted d => done (log_delegation_started e d a)
  | AComplete i c => done (log_delegation_complete e i c a)
  | AError i k m r => done (log_delegation_error e i k m r a)
  | ACheckpoint => (false, checkpoint e a)
  | AClose => (false, close e a)
  | AOpen head alembic p => let '(r, a) := open head alembic p a in
                            (match r with inl _ => true | inr _ => false end, a)
  end.

Definition acts (l : list (Env * Action)) (a : AuditDB) : AuditDB :=
  fold_left (fun a x => (act x.1 x.2 a).2) l a.

(** An operation that writes in at most one transaction. *)
Definition single (x : Action) : bool := match x with AFlush _ _ => false | _ => true end.

Lemma log_tool_call_grows e row_id w c a :
  grows (tables a) (tables (log_tool_call e row_id w c a).2).
Proof.
  destruct (log_tool_call_cases e row_id w c a) as [(exc & -> & _)|[[_ ->]|[Hn ->]]]; [done..|].
  cbn [snd]. rewrite tables_written.
  grows_by ltac:(eapply insert_row_kept; [typeclasses eauto|unfold insert_row; by rewrite Hn]).
Qed.

Lemma ingest_grows env w n l a : grows (tables a) (tables (ingest_rows env w n l a).2).
Proof.
  revert n a. induction l as [|[row_id c] l IH]; intros n a; cbn; [done|].
  pose proof (log_tool_call_grows (env n) (Some row_id) w c a) as Hg.
  destruct (log_tool_call (env n) (Some row_id) w c a) as [[exc|i] a']; [done|].
  etransitivity; [exact Hg|]. apply IH.
Qed.

Lemma closed_reclosed at_ reason r : reclosed r (closed_at at_ reason r).
Proof.
  destruct (cr_disconnected_at r) eqn:Hd; [left; unfold closed_at; by rewrite Hd|right; eauto].
Qed.

Lemma act_grows e x a : grows (tables a) (tables (act e x a).2).
Proof.
  destruct x; cbn [act snd].
  - apply write_grows. apply insert_message_grows.
  - apply write_grows. intros t t' [= <-]. apply update_status_grows.
  - apply write_grows. apply batch_grows.
  - apply write_grows. intros t t' (rows & Hr & [= <-])%bind_Some.
    grows_by ltac:(eapply insert_row_kept; [typeclasses eauto|exact Hr]).
  - apply write_grows. intros t t' [= <-].
    grows_by ltac:(apply alter_kept; [typeclasses eauto|intros r; apply closed_reclosed]).
  - apply log_tool_call_grows.
  - apply ingest_grows.
  - apply write_grows. intros t t' (rows & Hr & [= <-])%bind_Some.
    grows_by ltac:(eapply insert_row_kept; [typeclasses eauto|exact Hr]).
  - apply write_grows. intros t t' [= <-].
    grows_by ltac:(apply alter_kept; [typeclasses eauto|done]).
  - apply write_grows. intros t t' [= <-].
    grows_by ltac:(apply alter_kept; [typeclasses eauto|done]).
  - by rewrite tables_checkpoint.
  - unfold close. destruct (opened a); [|done].
    change (grows (tables a) (tables (checkpoint e a))). by rewrite tables_checkpoint.
  - unfold open. by destruct (_run_migrations head alembic p).
Qed.

Lemma write_atomic e change a :
  (write e change a).1 <> inr tt -> (write e change a).2 = a.
Proof. by destruct (write_cases e change a) as [(exc & -> & _)|(t & _ & _ & _ & ->)]. Qed.

Lemma act_atomic e x a : single x = true -> (act e x a).1 = true -> (act e x a).2 = a.
Proof.
  intros Hs Hr. destruct x; cbn [act fst snd] in *; try done;
    try (apply write_atomic; match type of Hr with context [write ?e ?c ?a] =>
           by destruct (write e c a).1 as [|[]] end).
  all: try (unfold log_message, update_delivery_status, _write_message_batch, log_connection,
              log_disconnection, log_delegation_started, log_delegation_complete,
              log_delegation_error in *; apply write_atomic; intros Heq; by rewrite Heq in Hr).
  - destruct (log_tool_call_cases e row_id w c a) as [(exc & -> & _)|[[_ Heq]|[_ Heq]]]; [done|..];
      by rewrite Heq in Hr.
  - unfold open in *. by destruct (_run_migrations head alembic p).
Qed.

(** C18: the audit trail is append-only.  Whatever is logged, in any order
    and whatever fails, every row that was stored stays stored: a message
    changes nothing but its delivery status, a connection is closed at most
    once, a delegation keeps everything it was started with, and a tool call
    never changes.  An operation that raises leaves the database as it was,
    except that a flush keeps the rows it got to. *)
Theorem audit_is_append_only l a :
  grows (tables a) (tables (acts l a)) /\
  (forall e x, single x = true -> (act e x (acts l a)).1 = true ->
     (act e x (acts l a)).2 = acts l a).
Proof.
  split; [|intros e x; apply act_atomic]. revert a.
  induction l as [|x l IH]; intros a; cbn; [done|].
  etransitivity; [apply act_grows|]. apply IH.
Qed.

(** ** The file itself *)

(** With an interval, the commits that only the log holds are those since the
    last checkpoint. *)
Section file.
Context (interval : Z) (positive : (0 < interval)%Z).

Definition file_close (a : AuditDB) : Prop :=
  checkpoint_interval a = interval /\
  Z.of_nat (length (wal a)) = commits_since_checkpoint a /\
  (commits_since_checkpoint a < interval)%Z.

Definition checkpoints_work (e : Env) : Prop := checkpoint_result e = CheckpointDone.

(** What the operation and its rows meet. *)
Definition all_checkpoints_work (x : Env * Action) : Prop :=
  checkpoints_work x.1 /\
  match x.2 with AFlush env _ => forall n, checkpoints_work (env n) | _ => True end.

Lemma checkpoint_close e a : checkpoints_work e -> file_close a -> file_close (checkpoint e a).
Proof.
  intros Hk (Hi & Hw & Hc). unfold checkpoint. rewrite Hk. destruct (opened a); [|done].
  split_and!; cbn; [done|done|lia].
Qed.

(** A commit and the checkpoint after it, when the database is open. *)
Lemma committed_close e t a :
  checkpoints_work e -> opened a = true -> file_close a ->
  file_close (_maybe_checkpoint e (commit_tables t a)).
Proof.
  intros Hk Ho (Hi & Hw & Hc). unfold _maybe_checkpoint. cbn.
  rewrite Hi. destruct (Z.leb_spec interval 0); [lia|].
  destruct (Z.leb_spec interval (commits_since_checkpoint a + 1)).
  - unfold checkpoint. cbn. rewrite Ho, Hk. split_and!; cbn; [done|done|lia].
  - split_and!; cbn; [done| |done]. rewrite length_app. cbn. lia.
Qed.

Lemma write_close e change a :
  checkpoints_work e -> file_close a -> file_close (write e change a).2.
Proof.
  intros Hk Hc. destruct (write_cases e change a) as [(exc & -> & _)|(t & _ & Ho & _ & ->)]; [done|].
  by apply committed_close.
Qed.

Lemma tool_call_opened e row_id w c a :
  tool_calls (tables a) !! opt_or row_id (uuid e) = None ->
  (exists exc, log_tool_call e row_id w c a = (inl exc, a)) \/ opened a = true.
Proof.
  intros _. unfold log_tool_call, transaction. destruct (opened a); [by right|]. left. by eexists.
Qed.

Lemma log_tool_call_close e row_id w c a :
  checkpoints_work e -> file_close a -> file_close (log_tool_call e row_id w c a).2.
Proof.
  intros Hk Hc. destruct (log_tool_call_cases e row_id w c a) as [(exc & -> & _)|[[_ ->]|[Hn Heq]]];
    [done..|]. destruct (tool_call_opened e row_id w c a Hn) as [(exc & ->)|Ho]; [done|].
  rewrite Heq. by apply committed_close.
Qed.

Lemma ingest_close env w n l a :
  (forall n, checkpoints_work (env n)) -> file_close a -> file_close (ingest_rows env w n l a).2.
Proof.
  intros Hk. revert n a. induction l as [|[row_id c] l IH]; intros n a Hc; cbn; [done|].
  pose proof (log_tool_call_close (env n) (Some row_id) w c a (Hk n) Hc) as Hc'.
  destruct (log_tool_call (env n) (Some row_id) w c a) as [[exc|i] a']; [done|]. by apply IH.
Qed.

Lemma act_close e x a : all_checkpoints_work (e, x) -> file_close a -> file_close (act e x a).2.
Proof.
  intros [Hk Hx] Hc. destruct x; cbn [act snd] in *; try (by apply write_close).
  - by apply log_tool_call_close.
  - by apply ingest_close.
  - by apply checkpoint_close.
  - unfold close. destruct (opened a); [|done]. destruct (checkpoint_close e a Hk Hc) as (? & ? & ?).
    by split_and!.
  - unfold open. by destruct (_run_migrations head alembic p).
Qed.
End file.

(** The database file is never far behind.  When checkpoints are made
    every [checkpoint_interval] commits and none of them is blocked or fails,
    fewer commits than that are missing from the file at any time, whatever
    is logged, and none after the database is closed.  A checkpoint that a
    reader blocks is taken for one that worked: however often it happens, the
    counter starts again and the file does not change. *)
Theorem main_file_keeps_up persist interval l e a :
  (0 < interval)%Z -> Forall all_checkpoints_work l ->
  a = acts l (new_audit persist interval) ->
  (Z.of_nat (length (wal a)) < interval)%Z /\
  (checkpoints_work e -> opened a = true -> main_file (close e a) = tables a /\ wal (close e a) = []) /\
  (checkpoint_result e = CheckpointBusy -> opened a = true ->
     commits_since_checkpoint (checkpoint e a) = 0%Z /\ main_file (checkpoint e a) = main_file a /\
     wal (checkpoint e a) = wal a).
Proof.
  intros Hi Hl ->. split_and!.
  - enough (Hc : file_close interval (acts l (new_audit persist interval))) by (destruct Hc; lia).
    assert (Hc : file_close interval (new_audit persist interval)) by done.
    revert Hc. generalize (new_audit persist interval). induction Hl as [|[e' x] l Hx _ IH];
      intros a Hc; cbn; [done|]. apply IH. by apply act_close.
  - intros Hk Ho. unfold close, checkpoint. rewrite Ho, Hk. done.
  - intros Hk Ho. unfold checkpoint. by rewrite Ho, Hk.
Qed.

(** ** Flushes *)

(** The record a flush has for an identifier; the first one counts. *)
Fixpoint first_record (id : string) (l : list (string * CallRecord)) : option CallRecord :=
  match l with
  | [] => None
  | (i, c) :: l => if decide (i = id) then Some c else first_record id l
  end.

Definition well_identified (l : list (string * CallRecord)) : Prop :=
  Forall (fun x => str_truthy x.1 = true) l.

Section flush.
Context (w : Attribution).

(** What rows of [l] may have been added to [a], and what was added. *)
Record ingested (l : list (string * CallRecord)) (a a' : AuditDB) : Prop := {
  ing_same : opened a' = opened a /\ persist_payloads a' = persist_payloads a /\
    messages (tables a') = messages (tables a) /\
    connections (tables a') = connections (tables a) /\
    delegations (tables a') = delegations (tables a);
  ing_kept : forall id r, tool_calls (tables a) !! id = Some r -> tool_calls (tables a') !! id = Some r;
  ing_new : forall id r, tool_calls (tables a) !! id = None -> tool_calls (tables a') !! id = Some r ->
    exists e c, first_record id l = Some c /\ r = tool_call_row e (persist_payloads a) id w c
}.

Definition all_stored (l : list (string * CallRecord)) (a : AuditDB) : Prop :=
  forall id, is_Some (first_record id l) -> is_Some (tool_calls (tables a) !! id).

Lemma maybe_opened e a : opened (_maybe_checkpoint e a) = opened a /\
  persist_payloads (_maybe_checkpoint e a) = persist_payloads a.
Proof.
  unfold _maybe_checkpoint. destruct (_ <=? 0)%Z; [done|]. destruct (_ <=? _)%Z; [|done].
  unfold checkpoint. cbn. destruct (opened a) eqn:Ho; [|done]. by destruct (checkpoint_result e).
Qed.

Lemma ingested_refl l a : ingested l a a.
Proof. split; [done|done|]. intros id r Hn Hr. congruence. Qed.

Lemma ingested_trans l a b c : ingested l a b -> ingested l b c -> ingested l a c.
Proof.
  intros [(Ho & Hp & Hm & Hc & Hd) Hk Hn] [(Ho' & Hp' & Hm' & Hc' & Hd') Hk' Hn'].
  split; [split_and!; congruence|by eauto|]. intros id r Ha Hr.
  destruct (tool_calls (tables b) !! id) as [rb|] eqn:Hb.
  - rewrite (Hk' _ _ Hb) in Hr. injection Hr as <-. by apply Hn.
  - destruct (Hn' _ _ Hb Hr) as (e & x & Hf & ->). exists e, x. by rewrite Hp.
Qed.

(** One row. *)
Lemma log_row e row_id c l a :
  str_truthy row_id = true -> first_record row_id l = Some c \/ is_Some (tool_calls (tables a) !! row_id) ->
  ingested l a (log_tool_call e (Some row_id) w c a).2 /\
  (forall i, (log_tool_call e (Some row_id) w c a).1 = inr i ->
     is_Some (tool_calls (tables (log_tool_call e (Some row_id) w c a).2) !! row_id)).
Proof.
  intros Ht Hf. pose proof (log_tool_call_cases e (Some row_id) w c a) as Hcases. cbn zeta in Hcases.
  replace (opt_or (Some row_id) (uuid e)) with row_id in Hcases
    by (cbn; unfold str_or; by rewrite Ht).
  destruct Hcases as [(exc & -> & _)|[[Hs ->]|[Hn ->]]]; cbn [fst snd].
  - split; [apply ingested_refl|done].
  - split; [apply ingested_refl|done].
  - destruct (maybe_opened e (commit_tables (set_tool_calls
      (<[row_id := tool_call_row e (persist_payloads a) row_id w c]> (tool_calls (tables a))) (tables a)) a))
      as [Ho Hp].
    rewrite tables_written. split; [|intros i _; cbn; rewrite lookup_insert_eq; by eexists].
    split; rewrite ?Ho, ?Hp, ?tables_written; cbn; [done| |].
    + intros id r Hr. rewrite lookup_insert_ne; [done|]. congruence.
    + intros id r Ha Hr. destruct (decide (row_id = id)) as [<-|Hne].
      * rewrite lookup_insert_eq in Hr. injection Hr as <-. exists e, c. split; [|done].
        destruct Hf as [Hf|[r' Hr']]; [done|congruence].
      * rewrite lookup_insert_ne in Hr by done. congruence.
Qed.

Lemma first_record_app id l l' :
  first_record id (l ++ l') =
  match first_record id l with Some c => Some c | None => first_record id l' end.
Proof. induction l as [|[i c] l IH]; cbn; [done|]. by case_decide. Qed.

Lemma all_stored_snoc pre id c a :
  all_stored pre a -> is_Some (tool_calls (tables a) !! id) -> all_stored (pre ++ [(id, c)]) a.
Proof.
  intros Hp Hs i. rewrite first_record_app. destruct (first_record i pre) eqn:Hi.
  - intros _. apply Hp. by rewrite Hi.
  - cbn. case_decide as Hd; [by subst|by intros [? [=]]].
Qed.

Lemma ingested_stored l l' a a' : ingested l a a' -> all_stored l' a -> all_stored l' a'.
Proof. intros Hi Hs id Hf. destruct (Hs id Hf) as [r Hr]. exists r. by eapply ing_kept. Qed.

Lemma ingest_spec env suf : forall pre n a,
  well_identified suf -> all_stored pre a ->
  ingested (pre ++ suf) a (ingest_rows env w n suf a).2 /\
  (forall k, (ingest_rows env w n suf a).1 = inr k ->
     k = Z.of_nat (n + length suf) /\ all_stored (pre ++ suf) (ingest_rows env w n suf a).2).
Proof.
  induction suf as [|[id c] suf IH]; intros pre n a Hw Hp; cbn [ingest_rows].
  { rewrite app_nil_r. split; [apply ingested_refl|]. intros k [= <-]. cbn.
    by rewrite Nat.add_0_r. }
  apply Forall_cons_iff in Hw as [Ht Hw]. cbn in Ht.
  destruct (log_row (env n) id c (pre ++ (id, c) :: suf) a Ht) as [Hi Hs].
  { rewrite first_record_app. destruct (first_record id pre) eqn:Hf.
    - right. apply Hp. by rewrite Hf.
    - left. cbn. by rewrite decide_True. }
  destruct (log_tool_call (env n) (Some id) w c a) as [[exc|i] a'] eqn:Hl; cbn [fst snd] in *.
  { by split. }
  assert (Hp' : all_stored (pre ++ [(id, c)]) a').
  { apply all_stored_snoc; [|by eapply Hs]. by eapply ingested_stored. }
  destruct (IH (pre ++ [(id, c)]) (S n) a' Hw Hp') as [Hi' Hs'].
  rewrite <- app_assoc in Hi', Hs'. split; [by eapply ingested_trans|].
  intros k Hk. destruct (Hs' k Hk) as [-> Hst]. split; [cbn; lia|done].
Qed.

(** A row that is there already is not written again. *)
Lemma ingest_stored env l n a :
  well_identified l -> all_stored l a -> (ingest_rows env w n l a).2 = a.
Proof.
  revert n. induction l as [|[id c] l IH]; intros n Hw Hs; cbn [ingest_rows]; [done|].
  apply Forall_cons_iff in Hw as [Ht Hw]. cbn in Ht.
  assert (Hid : is_Some (tool_calls (tables a) !! id)) by (apply Hs; cbn; rewrite decide_True; done).
  assert (Hs' : all_stored l a).
  { intros i Hi. apply Hs. cbn. case_decide; [by eexists|done]. }
  pose proof (log_tool_call_cases (env n) (Some id) w c a) as Hcases. cbn zeta in Hcases.
  replace (opt_or (Some id) (uuid (env n))) with id in Hcases by (cbn; unfold str_or; by rewrite Ht).
  destruct Hcases as [(exc & -> & _)|[[_ ->]|[Hn _]]]; [done|by apply IH|].
  rewrite Hn in Hid. by destruct Hid.
Qed.

(** An open database that does not fail takes all of it. *)
Lemma ingest_succeeds env l n a :
  opened a = true -> (forall k, db_fails (env k) = None) ->
  (ingest_rows env w n l a).1 = inr (Z.of_nat (n + length l)).
Proof.
  intros Ho Hf. revert n a Ho. induction l as [|[id c] l IH]; intros n a Ho; cbn [ingest_rows].
  { cbn. by rewrite Nat.add_0_r. }
  destruct (log_tool_call_cases (env n) (Some id) w c a) as [(exc & -> & Hx)|[[_ ->]|[_ ->]]].
  - destruct (Hx Ho) as [x Hx']. rewrite Hf in Hx'. done.
  - rewrite IH by done. do 2 f_equal. cbn. lia.
  - rewrite IH; [do 2 f_equal; cbn; lia|]. rewrite (proj1 (maybe_opened _ _)). exact Ho.
Qed.
End flush.

Definition deliver (envs : list (nat -> Env)) (p : AuditFlushPayload) (a : AuditDB) : AuditDB :=
  fold_left (fun a env => (ingest_audit_flush env p a).2) envs a.

Lemma deliver_ingested envs p a :
  well_identified (af_tool_calls p) ->
  ingested (attribution_of p) (af_tool_calls p) a (deliver envs p a).
Proof.
  intros Hw. revert a. induction envs as [|env envs IH]; intros a; cbn; [apply ingested_refl|].
  eapply ingested_trans; [|apply IH].
  by destruct (ingest_spec (attribution_of p) env (af_tool_calls p) [] 0 a Hw) as [Hi _];
    [intros id []|].
Qed.

(** C28: a flush may be delivered any number of times.  Whatever fails in
    between, the deliveries only add rows, one for an identifier of the
    payload that was not taken before, with the first record the payload has
    for it and the payload's attribution.  Once a delivery has ended, all
    identifiers are there and a further delivery changes nothing; and a
    delivery ends, counting every item, when the database is open and does
    not fail, whatever became of the ones before. *)
Theorem flush_is_idempotent p envs a :
  Forall (fun x => str_truthy x.1 = true) (af_tool_calls p) ->
  let a' := deliver envs p a in
  let l := af_tool_calls p in
  (forall id r, tool_calls (tables a) !! id = Some r -> tool_calls (tables a') !! id = Some r) /\
  (forall id r, tool_calls (tables a) !! id = None -> tool_calls (tables a') !! id = Some r ->
     exists e c, first_record id l = Some c /\
       r = tool_call_row e (persist_payloads a) id (attribution_of p) c) /\
  (forall env k, (ingest_audit_flush env p a').1 = inr k ->
     let b := (ingest_audit_flush env p a').2 in
     k = Z.of_nat (length l) /\
     (forall id, is_Some (first_record id l) -> is_Some (tool_calls (tables b) !! id)) /\
     (forall envs', deliver envs' p b = b)) /\
  (forall env, opened a = true -> (forall n, db_fails (env n) = None) ->
     (ingest_audit_flush env p a').1 = inr (Z.of_nat (length l))).
Proof.
  intros Hw a' l. destruct (deliver_ingested envs p a Hw) as [(Ho & _) Hk Hn].
  split_and!; [exact Hk|exact Hn| |].
  - intros env k Hr b.
    destruct (ingest_spec (attribution_of p) env l [] 0 a' Hw) as [_ Hs]; [by intros id []|].
    destruct (Hs k Hr) as [-> Hst]. split_and!; [done|exact Hst|].
    assert (Hfix : forall env', (ingest_audit_flush env' p b).2 = b) by (intros; by apply ingest_stored).
    induction envs' as [|env' envs' IH]; cbn; [done|]. by rewrite Hfix.
  - intros env Hop Hf. unfold ingest_audit_flush. rewrite ingest_succeeds; [done| |done].
    by rewrite <- Hop.
Qed.

(** ** Buffered calls *)

(** What a row says of its call, without the time it was written and whose
    call it was. *)
Definition call_of (r : ToolCallRow) : CallRecord * Z :=
  ({| service := tr_service r; command := tr_command r; args := tr_args r;
      operation_type := tr_operation_type r; approval_status := tr_approval_status r;
      approved_by := tr_approved_by r; approval_time_ms := tr_approval_time_ms r;
      exit_code := tr_exit_code r; duration_ms := tr_duration_ms r;
      success := bool_decide (tr_success r = 1%Z); error_code := tr_error_code r;
      error_message := tr_error_message r;
      response_payload := default "" (tr_response_payload r) |}, tr_payload_size r).

Definition call : Type := Env * option string * Attribution * CallRecord.
Definition call_id (x : call) : string := opt_or x.1.1.2 (uuid x.1.1.1).
Definition empty_buffer (wf parent agent role : string) : AuditBuffer :=
  {| ab_workflow_id := wf; ab_parent_sandbox_id := parent; ab_agent_id := agent;
     ab_agent_role := role; ab_tool_calls := [] |}.

Definition buffered (l : list call) : list (string * CallRecord) :=
  omap (fun x => if payload_valid (call_id x) x.2 then Some (call_id x, x.2) else None) l.

Lemma log_calls_buffer l b :
  to_payload (log_calls l b) =
  {| af_workflow_id := ab_workflow_id b; af_parent_sandbox_id := ab_parent_sandbox_id b;
     af_agent_id := ab_agent_id b; af_agent_role := ab_agent_role b;
     af_tool_calls := ab_tool_calls b ++ buffered l |}.
Proof.
  unfold log_calls. revert b. induction l as [|[[[e i] w] c] l IH]; intros b; cbn [fold_left].
  - unfold buffered. cbn. rewrite app_nil_r. by destruct b.
  - rewrite IH. unfold sink_log, buffer_sink, buffer_tool_call, buffered. cbn [omap list_omap fst snd].
    change (call_id (e, i, w, c)) with (opt_or i (uuid e)).
    destruct (payload_valid (opt_or i (uuid e)) c); cbn; by rewrite <- ?app_assoc.
Qed.

Lemma buffered_elem l id c :
  (id, c) ∈ buffered l <-> exists x, x ∈ l /\ call_id x = id /\ x.2 = c /\ payload_valid id c = true.
Proof.
  unfold buffered. rewrite list_elem_of_omap. split.
  - intros (x & Hx & Hv). destruct (payload_valid (call_id x) x.2) eqn:Hp; [|done].
    injection Hv as <- <-. by exists x.
  - intros (x & Hx & <- & <- & Hp). exists x. by rewrite Hp.
Qed.

Lemma first_record_elem id c l : NoDup l.*1 -> (id, c) ∈ l -> first_record id l = Some c.
Proof.
  induction l as [|[i x] l IH]; intros Hn Hin; [by apply not_elem_of_nil in Hin|].
  apply NoDup_cons in Hn as [Hi Hn]. apply elem_of_cons in Hin as [[= -> ->]|Hin]; cbn.
  - by rewrite decide_True.
  - rewrite decide_False; [by apply IH|]. intros ->. apply Hi. apply list_elem_of_fmap.
    by exists (id, c).
Qed.

Lemma call_id_elem x l : x ∈ l -> call_id x ∈ map call_id l.
Proof. intros Hx. apply list_elem_of_In, in_map, list_elem_of_In, Hx. Qed.

Lemma call_id_unique l x y :
  NoDup (map call_id l) -> x ∈ l -> y ∈ l -> call_id x = call_id y -> x = y.
Proof.
  induction l as [|z l IH]; intros Hn Hx Hy Heq; [by apply not_elem_of_nil in Hx|].
  apply NoDup_cons in Hn as [Hz Hn].
  apply elem_of_cons in Hx as [->|Hx], Hy as [->|Hy]; [done| | |by apply IH].
  - destruct Hz. rewrite Heq. by apply call_id_elem.
  - destruct Hz. rewrite <- Heq. by apply call_id_elem.
Qed.

Lemma buffered_distinct l : NoDup (map call_id l) -> NoDup (buffered l).*1.
Proof.
  intros Hn. induction l as [|x l IH]; cbn; [constructor|].
  apply NoDup_cons in Hn as [Hx Hn]. specialize (IH Hn).
  destruct (payload_valid (call_id x) x.2); cbn; [|done]. apply NoDup_cons. split; [|done].
  intros ([i c] & Heq & Hin)%list_elem_of_fmap. apply buffered_elem in Hin as (y & Hy & Hid & _).
  apply Hx. cbn in Heq. rewrite Heq, <- Hid. by apply call_id_elem.
Qed.

Lemma buffered_identified l : well_identified (buffered l).
Proof.
  apply List.Forall_forall. intros [id c] Hin. apply list_elem_of_In in Hin.
  apply buffered_elem in Hin as (x & _ & _ & _ & Hp). unfold payload_valid in Hp. cbn.
  by destruct (str_truthy id).
Qed.

Lemma call_of_row e persist id w c :
  call_of (tool_call_row e persist id w c) =
  ({| service := service c; command := command c; args := args c;
      operation_type := operation_type c; approval_status := approval_status c;
      approved_by := approved_by c; approval_time_ms := approval_time_ms c;
      exit_code := exit_code c; duration_ms := duration_ms c; success := success c;
      error_code := error_code c; error_message := error_message c;
      response_payload := if persist then response_payload c else "" |},
   byte_size (response_payload c)).
Proof. unfold call_of, tool_call_row. cbn. by destruct (success c). Qed.

(** Directly logged calls are there under their identifiers. *)
Lemma log_calls_db l a :
  opened a = true -> (forall x, x ∈ l -> db_fails x.1.1.1 = None) -> NoDup (map call_id l) ->
  (forall x, x ∈ l -> tool_calls (tables a) !! call_id x = None) ->
  let a' := log_calls l a in
  opened a' = true /\ persist_payloads a' = persist_payloads a /\
  (forall id, id ∉ map call_id l -> tool_calls (tables a') !! id = tool_calls (tables a) !! id) /\
  (forall x, x ∈ l -> tool_calls (tables a') !! call_id x =
     Some (tool_call_row x.1.1.1 (persist_payloads a) (call_id x) x.1.2 x.2)).
Proof.
  unfold log_calls. revert a. induction l as [|[[[e i] w] c] l IH]; intros a Ho Hf Hn Hfresh; cbn zeta.
  { split_and!; [done..|]. intros x Hx. by apply not_elem_of_nil in Hx. }
  apply NoDup_cons in Hn as [Hx Hn]. change (call_id (e, i, w, c)) with (opt_or i (uuid e)) in Hx.
  assert (Hid : tool_calls (tables a) !! opt_or i (uuid e) = None)
    by (apply (Hfresh (e, i, w, c)), list_elem_of_here).
  cbn [fold_left fst snd]. change (sink_log e i w c a) with (log_tool_call e i w c a).
  destruct (log_tool_call_cases e i w c a) as [(exc & _ & Hexc)|[[Hs _]|[_ ->]]].
  { destruct (Hexc Ho) as [y Hy]. pose proof (Hf _ (list_elem_of_here (e, i, w, c) l)) as Hno. cbn in Hno. congruence. }
  { rewrite Hid in Hs. by destruct Hs. }
  cbn [snd].
  set (row := tool_call_row e (persist_payloads a) (opt_or i (uuid e)) w c).
  set (a1 := _maybe_checkpoint e _).
  destruct (maybe_opened e (commit_tables (set_tool_calls
    (<[opt_or i (uuid e) := row]> (tool_calls (tables a))) (tables a)) a)) as [Ho1 Hp1].
  assert (Ht1 : tool_calls (tables a1) = <[opt_or i (uuid e) := row]> (tool_calls (tables a)))
    by (unfold a1; by rewrite tables_written).
  fold a1 in Ho1, Hp1. cbn in Ho1, Hp1.
  destruct (IH a1) as (Ho2 & Hp2 & Hold & Hnew).
  { congruence. }
  { intros x Hin. apply Hf. by apply list_elem_of_further. }
  { exact Hn. }
  { intros x Hin. rewrite Ht1, lookup_insert_ne; [by apply Hfresh, list_elem_of_further|].
    intros Heq. apply Hx. rewrite Heq. by apply call_id_elem. }
  split_and!; [done|congruence| |].
  - intros id Hout. cbn [map] in Hout. apply not_elem_of_cons in Hout as [Hne Hout].
    rewrite Hold by done. rewrite Ht1, lookup_insert_ne; [done|]. intros Heq. by apply Hne.
  - intros x [->|Hin]%elem_of_cons; [|rewrite Hnew by done; congruence].
    change (call_id (e, i, w, c)) with (opt_or i (uuid e)). rewrite Hold by done.
    by rewrite Ht1, lookup_insert_eq.
Qed.

(** calls that a sub-agent buffers and flushes end up as they would have
    been logged directly.  When the identifiers are distinct and new and the
    database does not fail, every call that passes the buffer's validation is
    stored by both ways under the same identifier with the same record of the
    call; only the time and the attribution differ, which is that of the
    flush.  The calls that do not pass are the only ones a flush leaves
    out. *)
Theorem flushed_calls_are_logged_calls l wf parent agent role env a :
  opened a = true -> (forall x, x ∈ l -> db_fails x.1.1.1 = None) ->
  (forall n, db_fails (env n) = None) -> NoDup (map call_id l) ->
  (forall x, x ∈ l -> tool_calls (tables a) !! call_id x = None) ->
  let p := to_payload (log_calls l (empty_buffer wf parent agent role)) in
  let direct := tool_calls (tables (log_calls l a)) in
  let flushed := tool_calls (tables (ingest_audit_flush env p a).2) in
  forall x, x ∈ l ->
    exists r, direct !! call_id x = Some r /\
      if payload_valid (call_id x) x.2
      then exists r', flushed !! call_id x = Some r' /\ call_of r' = call_of r /\
             tr_workflow_id r' = Some wf /\ tr_agent_id r' = Some agent /\
             tr_parent_sandbox_id r' = Some parent /\ tr_agent_role r' = Some role
      else flushed !! call_id x = None.
Proof.
  intros Ho Hf Henv Hn Hfresh. cbn zeta. rewrite log_calls_buffer. cbn [app ab_tool_calls empty_buffer
    ab_workflow_id ab_parent_sandbox_id ab_agent_id ab_agent_role].
  match goal with |- context [ingest_audit_flush env ?q a] => set (p' := q) end. intros x Hx.
  destruct (log_calls_db l a Ho Hf Hn Hfresh) as (_ & _ & _ & Hdirect).
  eexists. split; [by apply Hdirect|].
  set (flushed := tool_calls (tables (ingest_audit_flush env p' a).2)).
  assert (Hw : well_identified (af_tool_calls p')) by apply buffered_identified.
  destruct (ingest_spec (attribution_of p') env (af_tool_calls p') [] 0 a Hw) as [[_ _ Hnew] Hst];
    [by intros id []|].
  specialize (Hst _ (ingest_succeeds (attribution_of p') env (af_tool_calls p') 0 a Ho Henv)) as [_ Hst].
  change (tool_calls (tables (ingest_rows env (attribution_of p') 0 (af_tool_calls p') a).2))
    with flushed in Hnew, Hst.
  destruct (payload_valid (call_id x) x.2) eqn:Hv.
  - assert (Hin : (call_id x, x.2) ∈ af_tool_calls p') by (apply buffered_elem; by exists x).
    assert (Hfirst : first_record (call_id x) (af_tool_calls p') = Some x.2)
      by (apply first_record_elem; [by apply buffered_distinct|done]).
    destruct (Hst (call_id x)) as [r' Hr'];
      [change (is_Some (first_record (call_id x) (af_tool_calls p'))); rewrite Hfirst; by eexists|].
    exists r'. split; [done|]. destruct (Hnew _ _ (Hfresh _ Hx) Hr') as (e & c & Hc & ->).
    cbn [app] in Hc. rewrite Hfirst in Hc. injection Hc as <-. rewrite !call_of_row. done.
  - destruct (flushed !! call_id x) as [r'|] eqn:Hr'; [|done]. exfalso.
    destruct (Hnew _ _ (Hfresh _ Hx) Hr') as (e & c & Hc & _).
    assert (Hin : (call_id x, c) ∈ af_tool_calls p').
    { cbn [app] in Hc. clear - Hc. revert Hc. generalize (af_tool_calls p'). intros l'. induction l' as [|[i d] l' IH]; cbn; [done|].
      case_decide as Hd; [intros [= ->]; subst; apply list_elem_of_here|].
      intros H. by apply list_elem_of_further, IH. }
    apply buffered_elem in Hin as (y & Hy & Hid & Hc' & Hv').
    pose proof (call_id_unique l y x Hn Hy Hx Hid) as ->. by rewrite Hc', Hv' in Hv.
Qed.

(** ** Delegations *)

(** A second [task.complete] is not a no-op, and a completion after an error
    leaves the error's columns. *)
Example late_completion :
  let start := {| ds_workflow_id := "w"; ds_parent_sandbox_id := "o"; ds_agent_id := "a";
                  ds_workspace_root := "/ws"; ds_prompt := "p"; ds_requested_model := None;
                  ds_requested_max_turns := None; ds_base_sha := None; ds_base_repo_url := None;
                  ds_base_branch := None |} in
  let c := {| c_rounds_used := 1%Z; c_tool_calls_made := 0%Z; c_model_used := None; c_summary := "s";
              c_diff_size := 0%Z |} in
  let at_ t := {| now := t; uuid := ""; db_fails := None; checkpoint_result := CheckpointDone |} in
  let a := acts [(at_ 1, AStarted start); (at_ 2, AError "w" "timeout" "late" true);
                 (at_ 3, AComplete "w" c); (at_ 4, AComplete "w" c)]%Z
             (set_opened true (new_audit true 10)) in
  (fun r => (dr_status r, dr_completed_at r, dr_error_kind r)) <$> delegations (tables a) !! "w" =
  Some ("complete", Some 4%Z, Some "timeout").
Proof. vm_compute. reflexivity. Qed.

(** ** Witnesses *)

Definition plain_env (id : string) : Env :=
  {| now := 5%Z; uuid := id; db_fails := None; checkpoint_result := CheckpointDone |}.

Definition sample_record (ok : bool) : CallRecord :=
  {| service := "jira"; command := if ok then "jira_search" else ""; args := "{}";
     operation_type := "READ"; approval_status := None; approved_by := None;
     approval_time_ms := None; exit_code := None; duration_ms := 12%Z; success := true;
     error_code := None; error_message := None; response_payload := "[]" |}.

Definition no_attribution : Attribution :=
  {| session_id := Some "r1"; thread_ts := None; workflow_id := None; parent_sandbox_id := None;
     agent_id := None; agent_role := None |}.

Definition sample_db : AuditDB := set_opened true (new_audit true 10).

Definition sample_flush : AuditFlushPayload :=
  {| af_workflow_id := "w"; af_parent_sandbox_id := "o"; af_agent_id := "a"; af_agent_role := "coding";
     af_tool_calls := [("c1", sample_record true); ("c1", sample_record false)] |}.

(** The first delivery fails at its second row. *)
Definition failing_env (n : nat) : Env :=
  {| now := 3%Z; uuid := ""; db_fails := match n with 0 => None | _ => Some "locked" end;
     checkpoint_result := CheckpointRaised |}%nat.

Lemma flush_is_idempotent_witness :
  (ingest_audit_flush failing_env sample_flush sample_db).1 = inl (DatabaseError "locked") /\
  (ingest_audit_flush (fun _ => plain_env "") sample_flush
     (deliver [failing_env] sample_flush sample_db)).1 = inr 2%Z /\
  deliver [failing_env; failing_env] sample_flush
    (ingest_audit_flush (fun _ => plain_env "") sample_flush
       (deliver [failing_env] sample_flush sample_db)).2 =
  (ingest_audit_flush (fun _ => plain_env "") sample_flush
     (deliver [failing_env] sample_flush sample_db)).2.
Proof.
  split; [vm_compute; reflexivity|].
  destruct (flush_is_idempotent sample_flush [failing_env] sample_db) as (_ & _ & Hagain & Hends).
  { repeat constructor. }
  assert (Hr := Hends (fun _ => plain_env "") eq_refl (fun _ => eq_refl)). split; [exact Hr|].
  destruct (Hagain (fun _ => plain_env "") _ Hr) as (_ & _ & Hfix). apply Hfix.
Defined.

Definition sample_calls : list call :=
  [(plain_env "c1", None, no_attribution, sample_record true);
   (plain_env "c2", None, no_attribution, sample_record false)].

Lemma flushed_calls_are_logged_calls_witness :
  exists r,
    tool_calls (tables (log_calls sample_calls sample_db)) !! "c1" = Some r /\
    exists r',
      tool_calls (tables (ingest_audit_flush (fun _ => plain_env "")
        (to_payload (log_calls sample_calls (empty_buffer "w" "o" "a" "coding"))) sample_db).2) !! "c1" =
        Some r' /\ call_of r' = call_of r /\ tr_workflow_id r' = Some "w".
Proof.
  destruct (flushed_calls_are_logged_calls sample_calls "w" "o" "a" "coding" (fun _ => plain_env "")
    sample_db) with (x := (plain_env "c1", @None string, no_attribution, sample_record true))
    as (r & Hr & Hv).
  - reflexivity.
  - intros x [->|[->|Hx]%elem_of_cons]%elem_of_cons; [done..|by apply not_elem_of_nil in Hx].
  - done.
  - apply (bool_decide_unpack _). vm_compute. exact I.
  - intros x _. reflexivity.
  - apply list_elem_of_here.
  - exists r. split; [exact Hr|]. destruct Hv as (r' & H1 & H2 & H3 & _). by exists r'.
Defined.
