(* ===== verification/AuditWriter.v ===== *)
(** * AuditWriter

    The background writer of the audit database ([audit/db.py]:
    [start_background_writer], [enqueue_message], [enqueue_status_update],
    [_flush_loop], [_drain_queue], [stop_background_writer]) as the steps
    between its awaits.

    Theorems: the background writer loses nothing on its own: every accepted
    item is settled once and in order, and cutting the stream into batches
    does not change what is stored.  What it does lose is the batch of a bad
    item and the batch in flight when it is stopped. *)

From stdpp Require Import list.
From S2P Require Import Prelude Json Messages Broker AuditLog AuditTheorems.

(** Where the flush task and [stop_background_writer] are: no task; the loop,
    with the batch it is writing; the task has been cancelled; the rest of
    the queue is being written. *)
Inductive Phase :=
| NoTask
| Looping (in_flight : option (list WriteItem))
| Cancelled
| Draining (batch : list WriteItem).

(** [_write_queue] is [None] outside a start and its stop. *)
Record Writer := {
  phase : Phase;
  write_queue : option (list WriteItem);
  db : AuditDB
}.

(** What an observer sees of a step. *)
Inductive WriterEvent :=
| Accepted (i : WriteItem)
| Dropped (i : WriteItem)
| Handled (batch : list WriteItem) (result : AuditExc + unit)
| Lost (batch : list WriteItem).

Inductive WriterLabel :=
| Start
| Put (i : WriteItem)
| Take
| Flush (e : Env)
(** Cancelling the task; a commit under way may still reach the file. *)
| Cancel (committed : option Env)
| Drain
| Finish (e : Env).

Definition set_queue (q : option (list WriteItem)) (w : Writer) : Writer :=
  {| phase := phase w; write_queue := q; db := db w |}.
Definition set_phase (p : Phase) (w : Writer) : Writer :=
  {| phase := p; write_queue := write_queue w; db := db w |}.
Definition set_db (a : AuditDB) (w : Writer) : Writer :=
  {| phase := phase w; write_queue := write_queue w; db := a |}.

Definition new_writer (a : AuditDB) : Writer := {| phase := NoTask; write_queue := None; db := a |}.

(** [start_background_writer] *)
Definition start_background_writer (w : Writer) : Writer :=
  set_phase (Looping None) (set_queue (Some []) w).

(** [enqueue_message] and [enqueue_status_update] *)
Definition enqueue (i : WriteItem) (w : Writer) : Writer * list WriterEvent :=
  match write_queue w with
  | None => (w, [])
  | Some q =>
      if (Z.of_nat (length q) <? DEFAULT_AUDIT_QUEUE_SIZE)%Z
      then (set_queue (Some (q ++ [i])) w, [Accepted i])
      else (w, [Dropped i])
  end.

(** One batch and its outcome; a failure is only logged. *)
Definition flush_batch (e : Env) (batch : list WriteItem) (w : Writer) : Writer * list WriterEvent :=
  let '(result, a) := _write_message_batch e batch (db w) in (set_db a w, [Handled batch result]).

(** [get] and then up to a batch of [get_nowait]. *)
Definition take_batch (w : Writer) : option Writer :=
  match phase w, write_queue w with
  | Looping None, Some (i :: q) =>
      Some (set_phase (Looping (Some (take DEFAULT_AUDIT_BATCH_SIZE (i :: q))))
              (set_queue (Some (drop DEFAULT_AUDIT_BATCH_SIZE (i :: q))) w))
  | _, _ => None
  end.

(** The transaction of a cancelled batch, when it is committed after all; the
    checkpoint after it is not reached. *)
Definition late_commit (e : Env) (batch : list WriteItem) (w : Writer) : Writer * list WriterEvent :=
  let '(result, a) := transaction e (batch_change e (persist_payloads (db w)) batch) (db w) in
  (set_db a w, [Handled batch result]).

Definition cancel (committed : option Env) (w : Writer) : option (Writer * list WriterEvent) :=
  match phase w with
  | Looping None => Some (set_phase Cancelled w, [])
  | Looping (Some batch) =>
      match committed with
      | None => Some (set_phase Cancelled w, [Lost batch])
      | Some e => let '(w, events) := late_commit e batch w in Some (set_phase Cancelled w, events)
      end
  | _ => None
  end.

(** The end of [stop_background_writer]. *)
Definition stopped (w : Writer) : Writer := set_phase NoTask (set_queue None w).

Definition writer_step (l : WriterLabel) (w : Writer) : option (Writer * list WriterEvent) :=
  match l, phase w with
  | Start, NoTask => Some (start_background_writer w, [])
  | Put i, _ => Some (enqueue i w)
  | Take, _ => w ← take_batch w; Some (w, [])
  | Flush e, Looping (Some batch) =>
      let '(w, events) := flush_batch e batch w in Some (set_phase (Looping None) w, events)
  | Cancel committed, _ => cancel committed w
  | Drain, Cancelled =>
      match write_queue w with
      | Some (i :: q) => Some (set_phase (Draining (i :: q)) (set_queue (Some []) w), [])
      | _ => Some (stopped w, [])
      end
  | Finish e, Draining batch =>
      let '(w', events) := flush_batch e batch w in
      Some (stopped w', events ++ [Lost (default [] (write_queue w))])
  | _, _ => None
  end.

Fixpoint writer_run (ls : list WriterLabel) (w : Writer) : option (Writer * list WriterEvent) :=
  match ls with
  | [] => Some (w, [])
  | l :: ls =>
      '(w, events) ← writer_step l w; '(w, later) ← writer_run ls w; Some (w, events ++ later)
  end.

(** ** Accounts *)

Definition accepted (events : list WriterEvent) : list WriteItem :=
  omap (fun x => match x with Accepted i => Some i | _ => None end) events.

(** The items of finished batches. *)
Definition settled (events : list WriterEvent) : list WriteItem :=
  concat (map (fun x => match x with Handled b _ | Lost b => b | _ => [] end) events).

Definition in_flight (w : Writer) : list WriteItem :=
  match phase w with Looping (Some b) | Draining b => b | _ => [] end.

Definition queued (w : Writer) : list WriteItem := default [] (write_queue w).

Lemma accepted_app a b : accepted (a ++ b) = accepted a ++ accepted b.
Proof. apply omap_app. Qed.

Lemma settled_app a b : settled (a ++ b) = settled a ++ settled b.
Proof. unfold settled. by rewrite map_app, concat_app. Qed.

(** Before a start and after a stop there is no queue. *)
Definition writer_ok (w : Writer) : Prop :=
  (phase w = NoTask -> write_queue w = None) /\
  (Z.of_nat (length (queued w)) <= DEFAULT_AUDIT_QUEUE_SIZE)%Z.

(** What one step accepts joins the end, what it settles leaves the front. *)
Lemma step_accounts l w w' events :
  writer_ok w -> writer_step l w = Some (w', events) ->
  writer_ok w' /\
  in_flight w ++ queued w ++ accepted events = settled events ++ in_flight w' ++ queued w'.
Proof.
  intros [Hq Hl] Hs. destruct w as [p q a]. unfold writer_ok, in_flight, queued in *. cbn [phase write_queue] in *.
  destruct l as [|i| |e|c| |e]; cbn [writer_step phase] in Hs.
  - destruct p; try done. injection Hs as <- <-. rewrite Hq by done. by split_and!.
  - injection Hs as Hs. unfold enqueue in Hs. cbn [write_queue] in Hs. destruct q as [q|].
    + destruct (Z.ltb_spec (Z.of_nat (length q)) DEFAULT_AUDIT_QUEUE_SIZE) as [Hlt|Hge];
        injection Hs as <- <-; cbn in *.
      * split_and!; [by intros Hp; specialize (Hq Hp)|rewrite length_app; cbn; lia|].
        done.
      * split_and!; [done..|]. by rewrite ?app_nil_r.
    + injection Hs as <- <-. cbn in *. split_and!; [done..|]. by rewrite ?app_nil_r.
  - apply bind_Some in Hs as (w1 & Ht & [= <- <-]). unfold take_batch in Ht. cbn [phase write_queue] in Ht.
    destruct p as [|[b|]| |b]; try done. destruct q as [[|i q]|]; try done.
    injection Ht as <-. cbn [phase write_queue set_phase set_queue default from_option id].
    split_and!; [done| |].
    + cbn in Hl |- *. pose proof (length_drop q 99). lia.
    + cbn. by rewrite app_nil_r, take_drop.
  - destruct p as [|[b|]| |b]; try done. unfold flush_batch in Hs. cbn [db] in Hs.
    destruct (_write_message_batch e b a) as [r a']. injection Hs as <- <-. cbn.
    by rewrite ?app_nil_r.
  - unfold AuditWriter.cancel in Hs. cbn [phase] in Hs. destruct p as [|[b|]| |b]; try done.
    + destruct c as [e|].
      * unfold late_commit in Hs. cbn [db] in Hs.
        match type of Hs with context [transaction e ?ch a] => destruct (transaction e ch a) as [r a'] end. injection Hs as <- <-. cbn. by rewrite ?app_nil_r.
      * injection Hs as <- <-. cbn. by rewrite ?app_nil_r.
    + injection Hs as <- <-. cbn. by rewrite ?app_nil_r.
  - destruct p as [|[b|]| |b]; try done. cbn [write_queue] in Hs.
    destruct q as [[|i q]|]; injection Hs as <- <-; cbn; split_and!; try done; try lia;
      by rewrite ?app_nil_r.
  - destruct p as [|[b|]| |b]; try done. unfold flush_batch in Hs. cbn [db write_queue] in Hs.
    destruct (_write_message_batch e b a) as [r a']. injection Hs as <- <-. cbn.
    split_and!; [done|lia|]. by rewrite ?app_nil_r.
Qed.

Lemma run_accounts ls : forall w w' events,
  writer_ok w -> writer_run ls w = Some (w', events) ->
  writer_ok w' /\
  in_flight w ++ queued w ++ accepted events = settled events ++ in_flight w' ++ queued w'.
Proof.
  induction ls as [|l ls IH]; intros w w' events Hok; cbn.
  { intros [= <- <-]. split; [done|]. cbn. by rewrite app_nil_r. }
  intros ([w1 ev1] & H1 & Hr)%bind_Some. apply bind_Some in Hr as ([w2 ev2] & H2 & [= <- <-]).
  destruct (step_accounts _ _ _ _ Hok H1) as [Hok1 Ha1]. destruct (IH _ _ _ Hok1 H2) as [Hok2 Ha2].
  split; [done|]. rewrite accepted_app, settled_app, <- app_assoc, <- Ha2.
  rewrite !app_assoc, <- (app_assoc (in_flight w)), Ha1. by rewrite !app_assoc.
Qed.

(** ** Batches *)

(** No status update comes before the message it is about. *)
Fixpoint orderly (l : list WriteItem) : Prop :=
  match l with
  | [] => True
  | Insert _ _ :: l => orderly l
  | Update i _ :: l =>
      Forall (fun x => match x with Insert m _ => id m <> i | Update _ _ => True end) l /\ orderly l
  end.

(** The broker has stamped the message, so its row does not depend on when it
    is written. *)
Definition stamped (x : WriteItem) : Prop :=
  match x with Insert m _ => exists t, timestamp m = Some t /\ t <> 0%Z | Update _ _ => True end.

Lemma orderly_app a b : orderly (a ++ b) -> orderly a /\ orderly b.
Proof.
  induction a as [|[m s|i s] a IH]; cbn; [done|done|].
  intros [Hf Ho]. apply Forall_app in Hf as [Hf _]. destruct (IH Ho). done.
Qed.

Section items.
Context (persist : bool).

Lemma write_items_app e l l' t :
  write_items e persist (l ++ l') t = (t' ← write_items e persist l t; write_items e persist l' t').
Proof.
  revert t. induction l as [|i l IH]; intros t; cbn; [done|].
  destruct (write_item e persist i t); cbn; [apply IH|done].
Qed.

Lemma write_items_env e e' l t :
  Forall stamped l -> write_items e persist l t = write_items e' persist l t.
Proof.
  intros Hs. revert t. induction Hs as [|x l Hx _ IH]; intros t; cbn; [done|].
  assert (Hi : write_item e persist x t = write_item e' persist x t).
  { destruct x as [m s|]; [|done]. destruct Hx as (ts & Hts & Hne). cbn.
    unfold insert_message, message_row, stamped_at. rewrite Hts. by destruct (Z.eqb_spec ts 0). }
  rewrite Hi. destruct (write_item e' persist x t); [apply IH|done].
Qed.

(** An update and an insert of another message commute. *)
Lemma insert_after_update e i s m s' t :
  id m <> i ->
  insert_message e persist m s' (update_status i s t) =
  (t' ← insert_message e persist m s' t; Some (update_status i s t')).
Proof.
  intros Hne. unfold insert_message. destruct (message_row e persist m s') as [row|]; [|done].
  unfold update_status. cbn [mbind option_bind messages set_messages]. unfold insert_row.
  rewrite lookup_alter_ne by done. destruct (messages t !! id m); [done|]. cbn.
  unfold set_messages. cbn. by rewrite alter_insert_ne.
Qed.

Lemma inserts_after_update e i s l t :
  Forall (fun x => match x with Insert m _ => id m <> i | Update _ _ => True end) l ->
  write_items e persist (List.filter is_insert l) (update_status i s t) =
  (t' ← write_items e persist (List.filter is_insert l) t; Some (update_status i s t')).
Proof.
  intros Hf. revert t. induction Hf as [|x l Hx _ IH]; intros t; cbn; [done|].
  destruct x as [m s'|]; cbn; [|apply IH]. rewrite insert_after_update by done.
  destruct (insert_message e persist m s' t); cbn; [apply IH|done].
Qed.

Lemma batch_in_order e l t :
  orderly l -> batch_change e persist l t = write_items e persist l t.
Proof.
  unfold batch_change. revert t. induction l as [|[m s|i s] l IH]; intros t; cbn; [done|..].
  - intros Ho. destruct (insert_message e persist m s t); cbn; [by apply IH|done].
  - intros [Hf Ho]. rewrite <- IH, inserts_after_update by done.
    by destruct (write_items e persist (List.filter is_insert l) t).
Qed.

(** Nothing of a batch with a bad item is written. *)
Lemma bad_item_fails e l m s t :
  Insert m s ∈ l -> from_sandbox m = None \/ type m = None \/ is_Some (messages t !! id m) ->
  batch_change e persist l t = None.
Proof.
  intros Hin Hbad. unfold batch_change.
  enough (H : write_items e persist (List.filter is_insert l) t = None) by by rewrite H.
  assert (Hin' : Insert m s ∈ List.filter is_insert l)
    by (apply list_elem_of_In, filter_In; by rewrite <- list_elem_of_In).
  revert t Hbad Hin'. generalize (List.filter is_insert l) as l'. clear l Hin.
  induction l' as [|x l' IH]; intros t Hbad Hin; [by apply not_elem_of_nil in Hin|]. cbn.
  apply elem_of_cons in Hin as [<-|Hin].
  - cbn. unfold insert_message, message_row, insert_row.
    destruct Hbad as [->|[->|[r Hr]]]; cbn; [done|by destruct (from_sandbox m)|].
    destruct (from_sandbox m); cbn; [|done]. destruct (type m); cbn; [|done]. by rewrite Hr.
  - destruct (write_item e persist x t) as [t'|] eqn:Hx; cbn; [|done]. apply IH; [|done].
    destruct Hbad as [Hf|[Ht|[r Hr]]]; [by left|by right; left|right; right].
    assert (Hg : grows t t').
    { destruct x; cbn in Hx; [by eapply insert_message_grows|].
      injection Hx as <-. apply update_status_grows. }
    destruct (grows_messages _ _ Hg _ _ Hr) as (r' & Hr' & _). by eexists.
Qed.
End items.

(** ** Runs *)

(** A batch that was written, and nothing lost. *)
Definition succeeded (x : WriterEvent) : Prop :=
  match x with Handled _ r => r = inr tt | Lost b => b = [] | _ => True end.

Lemma persist_transaction e change a :
  persist_payloads (transaction e change a).2 = persist_payloads a.
Proof. by destruct (transaction_cases e change a) as [(exc & -> & _)|(t & _ & _ & _ & ->)]. Qed.

Lemma persist_write e change a : persist_payloads (write e change a).2 = persist_payloads a.
Proof.
  destruct (write_cases e change a) as [(exc & -> & _)|(t & _ & _ & _ & ->)]; [done|].
  cbn. by rewrite (proj2 (maybe_opened _ _)).
Qed.

(** A batch that is written, by either way, is written in order. *)
Lemma batch_written e0 e l a :
  (_write_message_batch e l a).1 = inr tt -> orderly l -> Forall stamped l ->
  write_items e0 (persist_payloads a) l (tables a) = Some (tables (_write_message_batch e l a).2).
Proof.
  unfold _write_message_batch. intros Hr Ho Hs.
  destruct (write_cases e (batch_change e (persist_payloads a) l) a)
    as [(exc & Heq & _)|(t & Hc & _ & _ & Heq)]; rewrite Heq in *; [done|].
  cbn [snd]. rewrite tables_written, <- Hc, batch_in_order by done. by apply write_items_env.
Qed.

Lemma late_written e0 e l a :
  (transaction e (batch_change e (persist_payloads a) l) a).1 = inr tt -> orderly l -> Forall stamped l ->
  write_items e0 (persist_payloads a) l (tables a) =
  Some (tables (transaction e (batch_change e (persist_payloads a) l) a).2).
Proof.
  intros Hr Ho Hs.
  destruct (transaction_cases e (batch_change e (persist_payloads a) l) a)
    as [(exc & Heq & _)|(t & Hc & _ & _ & Heq)]; rewrite Heq in *; [done|].
  cbn [snd]. rewrite tables_commit, <- Hc, batch_in_order by done. by apply write_items_env.
Qed.

Lemma step_written e0 l w w' events :
  writer_step l w = Some (w', events) -> Forall succeeded events ->
  orderly (settled events) -> Forall stamped (settled events) ->
  persist_payloads (db w') = persist_payloads (db w) /\
  write_items e0 (persist_payloads (db w)) (settled events) (tables (db w)) = Some (tables (db w')).
Proof.
  intros Hs Hok Ho Hst. destruct w as [p q a]. cbn [db].
  assert (Hflush : forall e b, (_write_message_batch e b a).1 = inr tt -> orderly b -> Forall stamped b ->
    persist_payloads (_write_message_batch e b a).2 = persist_payloads a /\
    write_items e0 (persist_payloads a) b (tables a) = Some (tables (_write_message_batch e b a).2)).
  { intros e b Hr Hob Hsb. split; [apply persist_write|by apply batch_written]. }
  destruct l as [|i| |e|c| |e]; cbn [writer_step phase] in Hs.
  - destruct p; try done. by injection Hs as <- <-.
  - injection Hs as Hs. unfold enqueue in Hs. cbn [write_queue] in Hs.
    destruct q as [q|]; [destruct (_ <? _)%Z|]; by injection Hs as <- <-.
  - apply bind_Some in Hs as (w1 & Ht & [= <- <-]). unfold take_batch in Ht. cbn [phase write_queue] in Ht.
    destruct p as [|[b|]| |b]; try done. destruct q as [[|i q]|]; try done. by injection Ht as <-.
  - destruct p as [|[b|]| |b]; try done. unfold flush_batch in Hs. cbn [db] in Hs.
    specialize (Hflush e b). destruct (_write_message_batch e b a) as [r a']. injection Hs as <- <-.
    apply Forall_cons_iff in Hok as [-> _]. unfold settled in *. cbn in *. rewrite app_nil_r in *. by apply Hflush.
  - unfold AuditWriter.cancel in Hs. cbn [phase] in Hs. destruct p as [|[b|]| |b]; try done.
    + destruct c as [e|].
      * unfold late_commit in Hs. cbn [db] in Hs. pose proof (late_written e0 e b a) as Hl.
        pose proof (persist_transaction e (batch_change e (persist_payloads a) b) a) as Hp.
        destruct (transaction e _ a) as [r a']. injection Hs as <- <-.
        apply Forall_cons_iff in Hok as [-> _]. unfold settled in *. cbn in *. rewrite app_nil_r in *.
        split; [done|]. by apply Hl.
      * injection Hs as <- <-. apply Forall_cons_iff in Hok as [-> _]. done.
    + by injection Hs as <- <-.
  - destruct p as [|[b|]| |b]; try done. cbn [write_queue] in Hs.
    destruct q as [[|i q]|]; by injection Hs as <- <-.
  - destruct p as [|[b|]| |b]; try done. unfold flush_batch in Hs. cbn [db write_queue] in Hs.
    specialize (Hflush e b). destruct (_write_message_batch e b a) as [r a']. injection Hs as <- <-.
    apply Forall_cons_iff in Hok as [-> Hok]. apply Forall_cons_iff in Hok as [Hlost _].
    unfold settled in *. cbn in *. rewrite Hlost, !app_nil_r in *. by apply Hflush.
Qed.

Lemma run_written e0 ls : forall w w' events,
  writer_run ls w = Some (w', events) -> Forall succeeded events ->
  orderly (settled events) -> Forall stamped (settled events) ->
  write_items e0 (persist_payloads (db w)) (settled events) (tables (db w)) = Some (tables (db w')).
Proof.
  induction ls as [|l ls IH]; intros w w' events; cbn; [by intros [= <- <-]|].
  intros ([w1 ev1] & H1 & Hr)%bind_Some. apply bind_Some in Hr as ([w2 ev2] & H2 & [= <- <-]).
  intros [Hok1 Hok2]%Forall_app. rewrite settled_app. intros [Ho1 Ho2]%orderly_app [Hs1 Hs2]%Forall_app.
  destruct (step_written e0 _ _ _ _ H1 Hok1 Ho1 Hs1) as [Hp Hw].
  rewrite write_items_app, Hw. cbn. rewrite <- Hp. by eapply IH.
Qed.

(** C19: the background writer keeps the account of what it accepts.
    However enqueuing, batching, flushing and stopping interleave, the items
    it has accepted are, in order, the ones it has settled, the batch it is
    writing and the queue, which never exceeds its limit.  When every batch
    is written and none is lost in stopping, and no status update was
    enqueued before its message, the tables are those that writing the
    settled items one by one gives: how they were cut into batches makes no
    difference. *)
Theorem batching_is_invisible ls a w events :
  writer_run ls (new_writer a) = Some (w, events) ->
  accepted events = settled events ++ in_flight w ++ queued w /\
  (Z.of_nat (length (queued w)) <= DEFAULT_AUDIT_QUEUE_SIZE)%Z /\
  (Forall succeeded events -> orderly (accepted events) -> Forall stamped (accepted events) ->
   forall e, write_items e (persist_payloads a) (settled events) (tables a) = Some (tables (db w))).
Proof.
  intros Hr. destruct (run_accounts ls (new_writer a) w events) as [[_ Hq] Ha]; [done|done|].
  cbn in Ha. split_and!; [done|done|]. intros Hok Ho Hs e. rewrite Ha in Ho, Hs.
  apply orderly_app in Ho as [Ho _]. apply Forall_app in Hs as [Hs _].
  by apply (run_written e ls (new_writer a)).
Qed.

(** ** What loses a batch *)

(** [_audit_msg] and [_audit_update_status] of the broker as queue items. *)
Definition audit_items (l : list AuditEvent) : list WriteItem :=
  omap (fun x => match x with
                 | AuditMessage m s => Some (Insert m s)
                 | AuditStatus i s => Some (Update i s)
                 | _ => None
                 end) l.

(** One frame loses a batch.  A STREAM frame needs no type, so the
    broker routes one without; when its target is offline the broker puts it
    on the audit queue, where a row needs a type: of the batch that it is
    written with, nothing is stored, whoever the other messages were from.
    The same goes for a frame whose identifier, which the client chooses, is
    taken. *)
Theorem untyped_stream_loses_its_batch sok sender ws m b to p :
  op m = STREAM -> type m = None -> to_sandbox m = Some to -> str_truthy to = true ->
  is_Some (stream_id m) -> is_Some (seq m) -> payload m = Some p ->
  (payload_bytes p <= DEFAULT_NMB_MAX_PAYLOAD_BYTES)%Z ->
  Broker.connections b !! to = None -> has_audit b = true ->
  validate_frame m = inr tt /\
  audit_items (audit_log (_handle_stream sok sender ws m b)) =
    audit_items (audit_log b) ++ [Insert m ST_ERROR] /\
  (forall e batch a bad s,
     Insert bad s ∈ batch -> bad = m \/ is_Some (messages (tables a) !! id bad) ->
     (_write_message_batch e batch a).2 = a /\
     exists exc, (_write_message_batch e batch a).1 = inl exc).
Proof.
  intros Hop Hty Hto Ht [sid Hsid] [n Hseq] Hp Hsize Hoff Haudit. split_and!.
  - apply validate_frame_ok. rewrite Hop. split; [|intros p' Hp'; congruence].
    cbn. repeat constructor; cbn; by rewrite ?Hto, ?Hsid, ?Hseq, ?Hp.
  - unfold _handle_stream, opt_truthy. rewrite Hto, Ht. cbn [negb default from_option Datatypes.id].
    rewrite Hoff. unfold _send_error, audit_opt, _audit_msg, ws_send, audit.
    destruct (sok ws _); cbn; rewrite Haudit; unfold audit_items; by rewrite omap_app.
  - intros e batch a bad s Hin Hbad. unfold _write_message_batch.
    destruct (write_cases e (batch_change e (persist_payloads a) batch) a)
      as [(exc & -> & _)|(t & Hc & _)]; [by eauto|]. exfalso.
    rewrite (bad_item_fails _ _ _ bad s) in Hc; [done..|].
    destruct Hbad as [->|Hbad]; [by right; left|by right; right].
Qed.

(** ** Witnesses *)

Definition sample_message (i : string) : NMBMessage :=
  {| op := SEND; id := i; from_sandbox := Some "a"; to_sandbox := Some "b"; type := Some "task";
     reply_to := None; channel := None; stream_id := None; seq := None; done_ := None;
     timeout := None; timestamp := Some 7%Z; payload := Some []; code := None; message := None |}.

Definition sample_stream : NMBMessage :=
  {| op := STREAM; id := "s"; from_sandbox := Some "a"; to_sandbox := Some "b"; type := None;
     reply_to := None; channel := None; stream_id := Some "x"; seq := Some 0%Z; done_ := None;
     timeout := None; timestamp := Some 7%Z; payload := Some []; code := None; message := None |}.

(** Two batches, the second of them written while stopping. *)
Definition sample_labels : list WriterLabel :=
  [Start; Put (Insert (sample_message "m1") ST_DELIVERED); Take;
   Put (Insert (sample_message "m2") ST_DELIVERED); Put (Update "m2" ST_TIMEOUT);
   Flush (plain_env ""); Cancel None; Drain; Finish (plain_env "")].

Definition sample_items : list WriteItem :=
  [Insert (sample_message "m1") ST_DELIVERED; Insert (sample_message "m2") ST_DELIVERED;
   Update "m2" ST_TIMEOUT].

Lemma sample_writes : exists w events,
  writer_run sample_labels (new_writer sample_db) = Some (w, events) /\
  accepted events = sample_items /\ settled events = sample_items /\ Forall succeeded events.
Proof.
  eexists _, _. split; [vm_compute; reflexivity|]. split_and!; [reflexivity..|].
  repeat constructor.
Qed.

Lemma batching_is_invisible_witness : exists w events,
  writer_run sample_labels (new_writer sample_db) = Some (w, events) /\
  write_items (plain_env "") true sample_items (tables sample_db) = Some (tables (db w)).
Proof.
  destruct sample_writes as (w & events & Hr & Ha & Hs & Hok). exists w, events. split; [exact Hr|].
  destruct (batching_is_invisible sample_labels sample_db w events Hr) as (_ & _ & H).
  rewrite <- Hs. apply H; [exact Hok|rewrite Ha..].
  - repeat constructor; done.
  - repeat constructor; by exists 7%Z.
Defined.

Definition sample_broker : Broker :=
  new_broker {| max_pending_per_sandbox := 50; default_request_timeout := 300%Z;
                max_channels_per_sandbox := 50 |} true.

Lemma untyped_stream_loses_its_batch_witness :
  validate_frame sample_stream = inr tt /\
  (_write_message_batch (plain_env "")
     [Insert (sample_message "m1") ST_DELIVERED; Insert sample_stream ST_ERROR] sample_db).2 = sample_db.
Proof.
  destruct (untyped_stream_loses_its_batch (fun _ _ => true) "a" 0%nat sample_stream sample_broker "b" [])
    as (Hv & _ & H);
    [reflexivity|reflexivity|reflexivity|reflexivity|by eexists|by eexists|reflexivity|done
    |reflexivity|reflexivity|].
  split; [exact Hv|]. apply (H (plain_env "") _ sample_db sample_stream ST_ERROR); [|by left].
  apply list_elem_of_In. cbn. right. by left.
Defined.
