(* ===== verification/Payloads.v ===== *)
(** * Payloads

    The codec of the task protocol ([dump] and [load] of [nmb/protocol.py]):
    how each payload model is written to the dictionary of a frame and what
    of a received dictionary is accepted as one.

    A value of the declared type is read as it is; what pydantic makes of a
    value of another type ([lax_int], [lax_bool]) and the text of its errors
    are arguments.

    Theorems: the two sides of the task protocol agree: what one writes the
    other reads back, and what is accepted satisfies its model. *)

From S2P Require Import Prelude Json Protocol AuditLog.

Definition Dict : Type := list (string * json).

(** ** Remaining models *)

Inductive TaskProgressStatus :=
| STARTING | READING_WORKSPACE | WRITING_CODE | RUNNING_TESTS | FINALIZING.

Definition progress_text (s : TaskProgressStatus) : string :=
  match s with
  | STARTING => "starting" | READING_WORKSPACE => "reading_workspace"
  | WRITING_CODE => "writing_code" | RUNNING_TESTS => "running_tests"
  | FINALIZING => "finalizing"
  end.

Record TaskProgressPayload := {
  tp_workflow_id : string;
  tp_status : TaskProgressStatus;
  tp_pct : option Z;
  tp_current_round : option Z;
  tp_tokens_used : option Z;
  tp_note : option string
}.

(** ** Writing

    [model_dump(mode="json", exclude_none=True)]: the fields in the order of
    the class, those that are [None] left out. *)

Definition opt_field {A} (k : string) (w : A -> json) (v : option A) : Dict :=
  match v with Some x => [(k, w x)] | None => [] end.

Definition dump_baseline (b : WorkspaceBaseline) : Dict :=
  [("repo_url", JStr (repo_url b)); ("branch", JStr (branch b)); ("base_sha", JStr (base_sha b));
   ("is_shallow", JBool (is_shallow b))].

Definition dump_context_file (f : ContextFile) : Dict :=
  [("path", JStr (cf_path f)); ("content", JStr (cf_content f)); ("encoding", JStr (cf_encoding f))].

Definition dump_assign (t : TaskAssignPayload) : Dict :=
  [("prompt", JStr (ta_prompt t)); ("workflow_id", JStr (ta_workflow_id t));
   ("parent_sandbox_id", JStr (ta_parent_sandbox_id t)); ("agent_id", JStr (ta_agent_id t));
   ("workspace_root", JStr (ta_workspace_root t))] ++
  opt_field "max_turns" JInt (ta_max_turns t) ++
  opt_field "model" JStr (ta_model t) ++
  opt_field "tool_surface" (fun l => JArr (map JStr l)) (ta_tool_surface t) ++
  [("context_files", JArr (map (fun f => JObj (dump_context_file f)) (ta_context_files t)))] ++
  opt_field "workspace_baseline" (fun b => JObj (dump_baseline b)) (ta_workspace_baseline t) ++
  [("is_iteration", JBool (ta_is_iteration t));
   ("iteration_number", JInt (ta_iteration_number t))].

Definition dump_progress (p : TaskProgressPayload) : Dict :=
  [("workflow_id", JStr (tp_workflow_id p)); ("status", JStr (progress_text (tp_status p)))] ++
  opt_field "pct" JInt (tp_pct p) ++ opt_field "current_round" JInt (tp_current_round p) ++
  opt_field "tokens_used" JInt (tp_tokens_used p) ++ opt_field "note" JStr (tp_note p).

Definition dump_complete (c : TaskCompletePayload) : Dict :=
  [("workflow_id", JStr (tk_workflow_id c)); ("summary", JStr (tk_summary c));
   ("diff", JStr (tk_diff c))] ++
  opt_field "workspace_baseline" (fun b => JObj (dump_baseline b)) (tk_workspace_baseline c) ++
  [("files_changed", JArr (map JStr (tk_files_changed c)))] ++
  opt_field "notes_path" JStr (tk_notes_path c) ++
  opt_field "git_commit_sha" JStr (tk_git_commit_sha c) ++
  [("tool_calls_made", JInt (tk_tool_calls_made c)); ("rounds_used", JInt (tk_rounds_used c))] ++
  opt_field "model_used" JStr (tk_model_used c) ++
  opt_field "suggested_next_step" JStr (tk_suggested_next_step c).

Definition dump_error (e : TaskErrorPayload) : Dict :=
  [("workflow_id", JStr (te_workflow_id e)); ("error", JStr (te_error e));
   ("error_kind", JStr (kind_text (te_error_kind e))); ("recoverable", JBool (te_recoverable e))] ++
  opt_field "notes_path" JStr (te_notes_path e) ++ opt_field "traceback" JStr (te_traceback e).

(** ** Reading *)

Section codec.
(** What a value of another type becomes in lax mode, how a float is written
    and read, and the text of a [ValidationError]. *)
Context (lax_int : json -> option Z) (lax_bool : json -> option bool).
Context (float_json : Z -> json) (read_float : json -> option Z).
Context (validation_error : string -> Dict -> string).

Definition r_str (j : json) : option string := match j with JStr s => Some s | _ => None end.

(** [Field(min_length=1)] *)
Definition r_name (j : json) : option string :=
  s ← r_str j; if str_truthy s then Some s else None.

(** [Field(ge=lo, le=hi)] *)
Definition r_int (lo : Z) (hi : option Z) (j : json) : option Z :=
  n ← match j with JInt n => Some n | _ => lax_int j end;
  if (lo <=? n)%Z && match hi with Some h => (n <=? h)%Z | None => true end then Some n else None.

Definition r_bool (j : json) : option bool := match j with JBool b => Some b | _ => lax_bool j end.

Definition r_any_int (j : json) : option Z := match j with JInt n => Some n | _ => lax_int j end.

Definition r_float (j : json) : option Z := read_float j.

Definition r_nonneg_float (j : json) : option Z :=
  x ← read_float j; if (0 <=? x)%Z then Some x else None.

Definition r_opt {A} (r : json -> option A) (j : json) : option (option A) :=
  match j with JNull => Some None | _ => Some <$> r j end.

Definition r_list {A} (r : json -> option A) (j : json) : option (list A) :=
  match j with JArr l => mapM r l | _ => None end.

Definition r_enum {A} (values : list A) (text : A -> string) (j : json) : option A :=
  s ← r_str j; List.find (fun a => String.eqb (text a) s) values.

Definition r_model {A} (read : Dict -> option A) (j : json) : option A :=
  match j with JObj o => read o | _ => None end.

(** A field without and with a default. *)
Definition required {A} (o : Dict) (k : string) (r : json -> option A) : option A :=
  j ← obj_get k o; r j.

Definition defaulted {A} (o : Dict) (k : string) (r : json -> option A) (d : A) : option A :=
  match obj_get k o with Some j => r j | None => Some d end.

(** [extra="forbid"] *)
Definition only (names : list string) (o : Dict) : option unit :=
  if forallb (fun kv => existsb (String.eqb kv.1) names) o then Some tt else None.

Definition BASELINE_FIELDS : list string := ["repo_url"; "branch"; "base_sha"; "is_shallow"].

Definition read_baseline (o : Dict) : option WorkspaceBaseline :=
  _ ← only BASELINE_FIELDS o;
  u ← required o "repo_url" r_name; b ← required o "branch" r_name;
  s ← required o "base_sha" r_name; w ← defaulted o "is_shallow" r_bool true;
  Some {| repo_url := u; branch := b; base_sha := s; is_shallow := w |}.

Definition CONTEXT_FILE_FIELDS : list string := ["path"; "content"; "encoding"].

Definition read_context_file (o : Dict) : option ContextFile :=
  _ ← only CONTEXT_FILE_FIELDS o;
  p ← required o "path" r_name; c ← required o "content" r_str;
  e ← defaulted o "encoding" (r_enum ["utf-8"; "base64"] (fun s => s)) "utf-8";
  Some {| cf_path := p; cf_content := c; cf_encoding := e |}.

Definition ASSIGN_FIELDS : list string :=
  ["prompt"; "workflow_id"; "parent_sandbox_id"; "agent_id"; "workspace_root"; "max_turns"; "model";
   "tool_surface"; "context_files"; "workspace_baseline"; "is_iteration"; "iteration_number"].

Definition read_assign (o : Dict) : option TaskAssignPayload :=
  _ ← only ASSIGN_FIELDS o;
  p ← required o "prompt" r_name; w ← required o "workflow_id" r_name;
  s ← required o "parent_sandbox_id" r_name; a ← required o "agent_id" r_name;
  root ← required o "workspace_root" r_name;
  turns ← defaulted o "max_turns" (r_opt (r_int 1 None)) None;
  m ← defaulted o "model" (r_opt r_str) None;
  surface ← defaulted o "tool_surface" (r_opt (r_list r_str)) None;
  files ← defaulted o "context_files" (r_list (r_model read_context_file)) [];
  base ← defaulted o "workspace_baseline" (r_opt (r_model read_baseline)) None;
  it ← defaulted o "is_iteration" r_bool false;
  n ← defaulted o "iteration_number" (r_int 0 None) 0%Z;
  Some {| ta_prompt := p; ta_workflow_id := w; ta_parent_sandbox_id := s; ta_agent_id := a;
          ta_workspace_root := root; ta_max_turns := turns; ta_model := m;
          ta_tool_surface := surface; ta_context_files := files; ta_workspace_baseline := base;
          ta_is_iteration := it; ta_iteration_number := n |}.

Definition PROGRESS_FIELDS : list string :=
  ["workflow_id"; "status"; "pct"; "current_round"; "tokens_used"; "note"].

Definition ALL_STATUSES : list TaskProgressStatus :=
  [STARTING; READING_WORKSPACE; WRITING_CODE; RUNNING_TESTS; FINALIZING].

Definition read_progress (o : Dict) : option TaskProgressPayload :=
  _ ← only PROGRESS_FIELDS o;
  w ← required o "workflow_id" r_name;
  s ← required o "status" (r_enum ALL_STATUSES progress_text);
  p ← defaulted o "pct" (r_opt (r_int 0 (Some 100%Z))) None;
  c ← defaulted o "current_round" (r_opt (r_int 0 None)) None;
  t ← defaulted o "tokens_used" (r_opt (r_int 0 None)) None;
  n ← defaulted o "note" (r_opt r_str) None;
  Some {| tp_workflow_id := w; tp_status := s; tp_pct := p; tp_current_round := c;
          tp_tokens_used := t; tp_note := n |}.

Definition COMPLETE_FIELDS : list string :=
  ["workflow_id"; "summary"; "diff"; "workspace_baseline"; "files_changed"; "notes_path";
   "git_commit_sha"; "tool_calls_made"; "rounds_used"; "model_used"; "suggested_next_step"].

Definition read_complete (o : Dict) : option TaskCompletePayload :=
  _ ← only COMPLETE_FIELDS o;
  w ← required o "workflow_id" r_name; s ← required o "summary" r_name;
  d ← defaulted o "diff" r_str "";
  b ← defaulted o "workspace_baseline" (r_opt (r_model read_baseline)) None;
  fs ← defaulted o "files_changed" (r_list r_str) [];
  np ← defaulted o "notes_path" (r_opt r_str) None;
  sha ← defaulted o "git_commit_sha" (r_opt r_str) None;
  calls ← defaulted o "tool_calls_made" (r_int 0 None) 0%Z;
  rounds ← defaulted o "rounds_used" (r_int 0 None) 0%Z;
  m ← defaulted o "model_used" (r_opt r_str) None;
  next ← defaulted o "suggested_next_step" (r_opt r_str) None;
  Some {| tk_workflow_id := w; tk_summary := s; tk_diff := d; tk_workspace_baseline := b;
          tk_files_changed := fs; tk_notes_path := np; tk_git_commit_sha := sha;
          tk_tool_calls_made := calls; tk_rounds_used := rounds; tk_model_used := m;
          tk_suggested_next_step := next |}.

Definition ERROR_FIELDS : list string :=
  ["workflow_id"; "error"; "error_kind"; "recoverable"; "notes_path"; "traceback"].

Definition ALL_KINDS : list TaskErrorKind :=
  [MAX_TURNS_EXCEEDED; TOOL_FAILURE; POLICY_DENIED; INFERENCE_ERROR; OTHER].

Definition read_error (o : Dict) : option TaskErrorPayload :=
  _ ← only ERROR_FIELDS o;
  w ← required o "workflow_id" r_name; e ← required o "error" r_name;
  k ← required o "error_kind" (r_enum ALL_KINDS kind_text);
  r ← defaulted o "recoverable" r_bool false;
  np ← defaulted o "notes_path" (r_opt r_str) None;
  tb ← defaulted o "traceback" (r_opt r_str) None;
  Some {| te_workflow_id := w; te_error := e; te_error_kind := k; te_recoverable := r;
          te_notes_path := np; te_traceback := tb |}.

(** ** The audit flush *)

Definition TOOL_CALL_FIELDS : list string :=
  ["id"; "service"; "command"; "args"; "operation_type"; "approval_status"; "approved_by";
   "approval_time_ms"; "exit_code"; "duration_ms"; "success"; "error_code"; "error_message";
   "response_payload"].

Definition dump_tool_call (x : string * CallRecord) : Dict :=
  let c := x.2 in
  [("id", JStr x.1); ("service", JStr (service c)); ("command", JStr (command c));
   ("args", JStr (args c)); ("operation_type", JStr (operation_type c))] ++
  opt_field "approval_status" JStr (approval_status c) ++
  opt_field "approved_by" JStr (approved_by c) ++
  opt_field "approval_time_ms" float_json (approval_time_ms c) ++
  opt_field "exit_code" JInt (exit_code c) ++
  [("duration_ms", float_json (duration_ms c)); ("success", JBool (success c))] ++
  opt_field "error_code" JStr (error_code c) ++
  opt_field "error_message" JStr (error_message c) ++
  [("response_payload", JStr (response_payload c))].

Definition read_tool_call (o : Dict) : option (string * CallRecord) :=
  _ ← only TOOL_CALL_FIELDS o;
  i ← required o "id" r_name; sv ← defaulted o "service" r_str "";
  cmd ← required o "command" r_name; a ← defaulted o "args" r_str "";
  ty ← required o "operation_type" (r_enum ["READ"; "WRITE"] (fun s => s));
  st ← defaulted o "approval_status" (r_opt r_str) None;
  by_ ← defaulted o "approved_by" (r_opt r_str) None;
  time ← defaulted o "approval_time_ms" (r_opt r_float) None;
  code ← defaulted o "exit_code" (r_opt r_any_int) None;
  ms ← required o "duration_ms" r_nonneg_float; ok ← required o "success" r_bool;
  ec ← defaulted o "error_code" (r_opt r_str) None;
  em ← defaulted o "error_message" (r_opt r_str) None;
  out ← defaulted o "response_payload" r_str "";
  Some (i, {| service := sv; command := cmd; args := a; operation_type := ty;
              approval_status := st; approved_by := by_; approval_time_ms := time;
              exit_code := code; duration_ms := ms; success := ok; error_code := ec;
              error_message := em; response_payload := out |}).

Definition FLUSH_FIELDS : list string :=
  ["workflow_id"; "parent_sandbox_id"; "agent_id"; "agent_role"; "tool_calls"].

Definition dump_flush (p : AuditFlushPayload) : Dict :=
  [("workflow_id", JStr (af_workflow_id p)); ("parent_sandbox_id", JStr (af_parent_sandbox_id p));
   ("agent_id", JStr (af_agent_id p)); ("agent_role", JStr (af_agent_role p));
   ("tool_calls", JArr (map (fun x => JObj (dump_tool_call x)) (af_tool_calls p)))].

Definition read_flush (o : Dict) : option AuditFlushPayload :=
  _ ← only FLUSH_FIELDS o;
  w ← required o "workflow_id" r_name; s ← required o "parent_sandbox_id" r_name;
  a ← required o "agent_id" r_name; r ← defaulted o "agent_role" r_str "coding";
  calls ← defaulted o "tool_calls" (r_list (r_model read_tool_call)) [];
  Some {| af_workflow_id := w; af_parent_sandbox_id := s; af_agent_id := a; af_agent_role := r;
          af_tool_calls := calls |}.

(** ** [load] *)

(** A [PayloadValidationError] on the left. *)
Definition load {A} (payload_type : string) (read : Dict -> option A) (raw : option Dict) : string + A :=
  match raw with
  | None => inl (payload_type +:+ ": payload is None")
  | Some o =>
      match read o with
      | Some x => inr x
      | None => inl (payload_type +:+ ": " +:+ validation_error payload_type o)
      end
  end.
End codec.

(** ** [AgentSetupBundle] ([agent/types.py])

    Its fields are not checked. *)

Record AgentSetupBundle := {
  sb_task_id : json;
  sb_agent_id : json;
  sb_parent_agent_id : json;
  sb_task_description : json;
  sb_workspace_root : json;
  sb_source_type : json
}.

Definition to_dict (b : AgentSetupBundle) : Dict :=
  [("task_id", sb_task_id b); ("agent_id", sb_agent_id b);
   ("parent_agent_id", sb_parent_agent_id b); ("task_description", sb_task_description b);
   ("workspace_root", sb_workspace_root b); ("source_type", sb_source_type b)].

(** [payload[key]]: left is the key of a [KeyError]. *)
Definition item (k : string) (o : Dict) : string + json :=
  match obj_get k o with Some v => inr v | None => inl k end.

Definition from_dict (o : Dict) : string + AgentSetupBundle :=
  (t <-- item "task_id" o;;
   a <-- item "agent_id" o;;
   p <-- item "parent_agent_id" o;;
   d <-- item "task_description" o;;
   w <-- item "workspace_root" o;;
   inr {| sb_task_id := t; sb_agent_id := a; sb_parent_agent_id := p; sb_task_description := d;
          sb_workspace_root := w; sb_source_type := default (JStr "agent") (obj_get "source_type" o) |})%result.

(** ** The constraints of the models *)

Definition baseline_ok (b : WorkspaceBaseline) : bool :=
  str_truthy (repo_url b) && str_truthy (branch b) && str_truthy (base_sha b).

Definition context_file_ok (f : ContextFile) : bool :=
  str_truthy (cf_path f) && (String.eqb (cf_encoding f) "utf-8" || String.eqb (cf_encoding f) "base64").

Definition opt_ok {A} (ok : A -> bool) (o : option A) : bool := match o with Some x => ok x | None => true end.

Definition assign_ok (t : TaskAssignPayload) : bool :=
  assign_valid t && forallb context_file_ok (ta_context_files t) &&
  opt_ok baseline_ok (ta_workspace_baseline t).

Definition progress_ok (p : TaskProgressPayload) : bool :=
  str_truthy (tp_workflow_id p) && opt_ok (fun n => (0 <=? n)%Z && (n <=? 100)%Z) (tp_pct p) &&
  opt_ok (Z.leb 0) (tp_current_round p) && opt_ok (Z.leb 0) (tp_tokens_used p).

Definition complete_ok (c : TaskCompletePayload) : bool :=
  str_truthy (tk_workflow_id c) && str_truthy (tk_summary c) &&
  opt_ok baseline_ok (tk_workspace_baseline c) &&
  (0 <=? tk_tool_calls_made c)%Z && (0 <=? tk_rounds_used c)%Z.

Definition error_ok (e : TaskErrorPayload) : bool :=
  str_truthy (te_workflow_id e) && str_truthy (te_error e).

Definition flush_ok (p : AuditFlushPayload) : bool :=
  str_truthy (af_workflow_id p) && str_truthy (af_parent_sandbox_id p) && str_truthy (af_agent_id p) &&
  forallb (fun x => payload_valid x.1 x.2) (af_tool_calls p).

Section codec.
Context (lax_int : json -> option Z) (lax_bool : json -> option bool).
Context (float_json : Z -> json) (read_float : json -> option Z).
Context (validation_error : string -> Dict -> string).

(** ** Readers *)

Lemma r_name_str s : str_truthy s = true -> r_name (JStr s) = Some s.
Proof. intros H. unfold r_name. simpl. by rewrite H. Qed.

Lemma r_int_ok lo hi n :
  (lo <= n)%Z -> match hi with Some h => (n <= h)%Z | None => True end ->
  r_int lax_int lo hi (JInt n) = Some n.
Proof.
  intros H1 H2. unfold r_int. simpl. destruct (Z.leb_spec lo n); [|lia]. simpl.
  destruct hi as [h|]; [|done]. by destruct (Z.leb_spec n h); [|lia].
Qed.

Lemma r_list_map {A B} (r : json -> option A) (w : B -> json) (f : B -> A) l :
  Forall (fun x => r (w x) = Some (f x)) l -> r_list r (JArr (map w l)) = Some (map f l).
Proof.
  intros H. simpl. induction H as [|x l Hx Hl IH]; simpl; [done|].
  rewrite Hx. simpl. by rewrite IH.
Qed.

Lemma r_strings l : r_list r_str (JArr (map JStr l)) = Some l.
Proof.
  rewrite (r_list_map r_str JStr (fun s => s)); [by rewrite map_id|]. by apply Forall_true.
Qed.

Lemma r_name_inv j s : r_name j = Some s -> j = JStr s /\ str_truthy s = true.
Proof. unfold r_name, r_str. destruct j; simpl; try done. by case_match; intros [= <-]. Qed.

Lemma r_int_inv lo hi j n :
  r_int lax_int lo hi j = Some n ->
  (lo <=? n)%Z = true /\ match hi with Some h => (n <=? h)%Z = true | None => True end.
Proof.
  unfold r_int. destruct (match j with JInt _ => _ | _ => _ end) as [m|]; simpl; [|done].
  case_match eqn:H; [|done]. intros [= ->]. apply andb_true_iff in H as [H1 H2].
  split; [done|]. by destruct hi.
Qed.

Lemma r_opt_inv {A} (r : json -> option A) j o :
  r_opt r j = Some o -> match o with Some x => r j = Some x | None => j = JNull end.
Proof. destruct j; simpl; intros H; simplify_option_eq; done. Qed.

Lemma r_list_inv {A} (r : json -> option A) j l :
  r_list r j = Some l -> exists js, j = JArr js /\ Forall2 (fun j x => r j = Some x) js l.
Proof. destruct j; simpl; try done. intros H. eexists. split; [done|]. by apply mapM_Some. Qed.

Lemma r_model_inv {A} (read : Dict -> option A) j x :
  r_model read j = Some x -> exists o, j = JObj o /\ read o = Some x.
Proof. destruct j; simpl; try done. eauto. Qed.

Lemma required_inv {A} o k (r : json -> option A) x :
  required o k r = Some x -> exists j, obj_get k o = Some j /\ r j = Some x.
Proof. unfold required. destruct (obj_get k o); simpl; [eauto|done]. Qed.

Lemma defaulted_inv {A} o k (r : json -> option A) d x :
  defaulted o k r d = Some x -> (exists j, obj_get k o = Some j /\ r j = Some x) \/ x = d.
Proof. unfold defaulted. destruct (obj_get k o); [eauto|]. intros [= ->]. by right. Qed.

(** An optional field. *)
Lemma defaulted_opt {A} o k (r : json -> option A) x :
  defaulted o k (r_opt r) None = Some (Some x) -> exists j, r j = Some x.
Proof.
  intros H. apply defaulted_inv in H as [(j & _ & H)|H]; [|done]. apply r_opt_inv in H. eauto.
Qed.

(** A reader of a list of models. *)
Lemma models_ok {A} (read : Dict -> option A) (ok : A -> bool) o k l :
  (forall o x, read o = Some x -> ok x = true) ->
  defaulted o k (r_list (r_model read)) [] = Some l -> forallb ok l = true.
Proof.
  intros Hok H. apply defaulted_inv in H as [(j & _ & H)|H]; [|by subst].
  apply r_list_inv in H as (js & _ & H). induction H as [|j' x js l Hx _ IH]; simpl; [done|].
  apply r_model_inv in Hx as (o' & _ & Hx). by rewrite (Hok _ _ Hx), IH.
Qed.

Lemma only_known names o u : only names o = Some u -> Forall (fun kv => kv.1 ∈ names) o.
Proof.
  unfold only. case_match eqn:H; [|done]. intros _. rewrite forallb_forall in H.
  apply Forall_forall. intros kv Hin. specialize (H _ Hin).
  apply existsb_exists in H as (n & Hn & He). apply String.eqb_eq in He. rewrite He. by apply list_elem_of_In.
Qed.

Lemma load_inv {A} name (read : Dict -> option A) raw x :
  load validation_error name read raw = inr x -> exists o, raw = Some o /\ read o = Some x.
Proof. unfold load. destruct raw as [o|]; [|done]. destruct (read o) eqn:H; [|done]. intros [= ->]. eauto. Qed.

(** ** What is accepted satisfies the model *)

(** Splits the reads a reader made. *)
Ltac reads H :=
  repeat (apply bind_Some in H as (? & ? & H)); injection H as <-;
  repeat match goal with
  | E : required _ _ r_name = Some _ |- _ =>
      apply required_inv in E as (? & _ & E); apply r_name_inv in E as [_ E]
  end.

Lemma read_baseline_ok o b : read_baseline lax_bool o = Some b -> baseline_ok b = true.
Proof. unfold read_baseline. intros H. reads H. unfold baseline_ok. simpl. by repeat (apply andb_true_iff; split). Qed.

Lemma read_context_file_ok o f : read_context_file o = Some f -> context_file_ok f = true.
Proof.
  unfold read_context_file. intros H. reads H. unfold context_file_ok. simpl.
  apply andb_true_iff; split; [done|].
  match goal with E : defaulted _ "encoding" _ _ = Some _ |- _ =>
    apply defaulted_inv in E as [(j & _ & E)| ->]; [|done];
    unfold r_enum in E; apply bind_Some in E as (s & _ & E) end.
  cbn [List.find] in *. repeat case_match; simplify_eq/=; done.
Qed.

Lemma opt_int_ok o k lo hi n :
  defaulted o k (r_opt (r_int lax_int lo hi)) None = Some n ->
  opt_ok (fun n => (lo <=? n)%Z && match hi with Some h => (n <=? h)%Z | None => true end) n = true.
Proof.
  destruct n as [n|]; [|done]. intros H. apply defaulted_opt in H as [j H].
  apply r_int_inv in H as [H1 H2]. simpl. rewrite H1. by destruct hi.
Qed.

Lemma opt_baseline_ok o k b :
  defaulted o k (r_opt (r_model (read_baseline lax_bool))) None = Some b -> opt_ok baseline_ok b = true.
Proof.
  destruct b as [b|]; [|done]. intros H. apply defaulted_opt in H as [j H].
  apply r_model_inv in H as (o' & _ & H). by apply read_baseline_ok in H.
Qed.

Lemma int_ok o k lo d n :
  (lo <= d)%Z -> defaulted o k (r_int lax_int lo None) d = Some n -> (lo <=? n)%Z = true.
Proof.
  intros Hd H. apply defaulted_inv in H as [(j & _ & H)| ->]; [by apply r_int_inv in H as [H _]|lia].
Qed.

Lemma read_assign_ok o t : read_assign lax_int lax_bool o = Some t -> assign_ok t = true.
Proof.
  unfold read_assign. intros H. reads H. unfold assign_ok, assign_valid. simpl.
  repeat (apply andb_true_iff; split); try done.
  - match goal with E : defaulted _ "max_turns" _ _ = Some ?n |- _ =>
      apply opt_int_ok in E; destruct n; [|done]; simpl in *; lia end.
  - by eapply int_ok; [|done].
  - by eapply models_ok; [apply read_context_file_ok|done].
  - by eapply opt_baseline_ok.
Qed.

Lemma read_progress_ok o p : read_progress lax_int o = Some p -> progress_ok p = true.
Proof.
  unfold read_progress. intros H. reads H. unfold progress_ok. simpl.
  repeat (apply andb_true_iff; split); try done.
  - by eapply (opt_int_ok _ _ 0 (Some 100%Z)).
  - match goal with E : defaulted _ "current_round" _ _ = Some ?n |- _ =>
      apply opt_int_ok in E; by destruct n; simpl in *; rewrite ?andb_true_r in E end.
  - match goal with E : defaulted _ "tokens_used" _ _ = Some ?n |- _ =>
      apply opt_int_ok in E; by destruct n; simpl in *; rewrite ?andb_true_r in E end.
Qed.

Lemma read_complete_ok o c : read_complete lax_int lax_bool o = Some c -> complete_ok c = true.
Proof.
  unfold read_complete. intros H. reads H. unfold complete_ok. simpl.
  repeat (apply andb_true_iff; split); try done.
  - by eapply opt_baseline_ok.
  - by eapply int_ok; [|done].
  - by eapply int_ok; [|done].
Qed.

Lemma read_error_ok o e : read_error lax_bool o = Some e -> error_ok e = true.
Proof. unfold read_error. intros H. reads H. unfold error_ok. simpl. by apply andb_true_iff. Qed.

Lemma read_tool_call_ok o x :
  read_tool_call lax_int lax_bool read_float o = Some x -> payload_valid x.1 x.2 = true.
Proof.
  unfold read_tool_call. intros H. reads H. unfold payload_valid. simpl.
  repeat (apply andb_true_iff; split); try done.
  - match goal with E : required _ "duration_ms" _ = Some _ |- _ =>
      apply required_inv in E as (j & _ & E); unfold r_nonneg_float in E;
      apply bind_Some in E as (y & _ & E) end.
    by case_match; simplify_eq.
  - match goal with E : required _ "operation_type" _ = Some _ |- _ =>
      apply required_inv in E as (j & _ & E); unfold r_enum in E;
      apply bind_Some in E as (s & _ & E) end.
    cbn [List.find] in *. repeat case_match; simplify_eq/=; done.
Qed.

Lemma read_flush_ok o p :
  read_flush lax_int lax_bool read_float o = Some p -> flush_ok p = true.
Proof.
  unfold read_flush. intros H. reads H. unfold flush_ok. simpl.
  repeat (apply andb_true_iff; split); try done.
  by eapply (models_ok _ (fun x => payload_valid x.1 x.2)); [apply read_tool_call_ok|done].
Qed.

Lemma keys_known {A} names o (f : unit -> option A) x :
  only names o ≫= f = Some x -> Forall (fun kv => kv.1 ∈ names) o.
Proof. intros H. apply bind_Some in H as (u & H & _). by eapply only_known. Qed.

(** What the sub-agent relies on when it loads its assignment. *)
Lemma load_assign_validates raw t :
  load validation_error "task.assign" (read_assign lax_int lax_bool) raw = inr t -> assign_valid t = true.
Proof.
  intros (o & _ & H)%load_inv. apply read_assign_ok in H. unfold assign_ok in H.
  by apply andb_true_iff in H as [[H _]%andb_true_iff _].
Qed.

(** ** What was written is read back *)

Context (floats_read : forall x, read_float (float_json x) = Some x).
Context (null_no_float : read_float JNull = None).

Lemma r_opt_some {A} (r : json -> option A) j x : j ≠ JNull -> r j = Some x -> r_opt r j = Some (Some x).
Proof. intros Hj H. destruct j; simpl; try done; by rewrite H. Qed.

Lemma float_not_null x : float_json x ≠ JNull.
Proof. intros H. pose proof (floats_read x) as Hx. rewrite H in Hx. congruence. Qed.

Lemma r_opt_float x : r_opt (r_float read_float) (float_json x) = Some (Some x).
Proof. apply r_opt_some; [apply float_not_null|apply floats_read]. Qed.

(** The fields of a written dictionary. *)
Lemma get_field k v o : obj_get k ((k, v) :: o) = Some v.
Proof. simpl. by rewrite String.eqb_refl. Qed.

Lemma get_other_field k k' v o : String.eqb k k' = false -> obj_get k ((k', v) :: o) = obj_get k o.
Proof. intros H. simpl. by rewrite H. Qed.

Lemma get_opt_field {A} k (w : A -> json) v o :
  obj_get k o = None -> obj_get k (opt_field k w v ++ o) = w <$> v.
Proof. destruct v; [intros _; apply get_field|done]. Qed.

Lemma get_other_opt_field {A} k k' (w : A -> json) v o :
  String.eqb k k' = false -> obj_get k (opt_field k' w v ++ o) = obj_get k o.
Proof. destruct v; [apply get_other_field|done]. Qed.

Lemma last_opt_field {A} k (w : A -> json) v : opt_field k w v = opt_field k w v ++ [].
Proof. by rewrite app_nil_r. Qed.

Lemma only_field names k v o :
  existsb (String.eqb k) names = true -> only names o = Some tt -> only names ((k, v) :: o) = Some tt.
Proof. unfold only. intros H Ho. simpl. rewrite H. by destruct (forallb _ o). Qed.

Lemma only_opt_field {A} names k (w : A -> json) v o :
  existsb (String.eqb k) names = true -> only names o = Some tt ->
  only names (opt_field k w v ++ o) = Some tt.
Proof. destruct v; [apply only_field|done]. Qed.

Lemma required_field {A} o k (r : json -> option A) j x :
  obj_get k o = Some j -> r j = Some x -> required o k r = Some x.
Proof. unfold required. by intros ->. Qed.

Lemma defaulted_field {A} o k (r : json -> option A) d j x :
  obj_get k o = Some j -> r j = Some x -> defaulted o k r d = Some x.
Proof. unfold defaulted. by intros ->. Qed.

Lemma defaulted_opt_field {A} o k (r : json -> option A) w v :
  obj_get k o = w <$> v -> (forall x, v = Some x -> w x ≠ JNull /\ r (w x) = Some x) ->
  defaulted o k (r_opt r) None = Some v.
Proof.
  unfold defaulted. intros -> H. destruct v as [x|]; [|done]. destruct (H _ eq_refl) as [H1 H2].
  by apply r_opt_some.
Qed.

Lemma bind_read {A B} (m : option A) (f : A -> option B) x y : m = Some x -> f x = y -> m ≫= f = y.
Proof. by intros -> <-. Qed.

Lemma opt_read {A} (ok : A -> bool) (r : json -> option A) w v :
  (forall x, w x ≠ JNull) -> (forall x, ok x = true -> r (w x) = Some x) -> opt_ok ok v = true ->
  forall x, v = Some x -> w x ≠ JNull /\ r (w x) = Some x.
Proof. intros Hw Hr H x ->. eauto. Qed.

Lemma opt_str v : forall x : string, v = Some x -> JStr x ≠ JNull /\ r_str (JStr x) = Some x.
Proof. done. Qed.

Lemma nonneg_read n : (0 <=? n)%Z = true -> r_int lax_int 0 None (JInt n) = Some n.
Proof. intros H. apply r_int_ok; [lia|done]. Qed.

Lemma models_read {A} (read : Dict -> option A) (dump : A -> Dict) (ok : A -> bool) l :
  (forall x, ok x = true -> read (dump x) = Some x) -> forallb ok l = true ->
  r_list (r_model read) (JArr (map (fun x => JObj (dump x)) l)) = Some l.
Proof.
  intros Hr H. rewrite (r_list_map _ _ (fun f => f)); [by rewrite map_id|].
  rewrite forallb_forall in H. apply Forall_forall. intros f Hf. by apply Hr, H.
Qed.

Lemma status_read s : r_enum ALL_STATUSES progress_text (JStr (progress_text s)) = Some s.
Proof. by destruct s. Qed.

Lemma kind_read k : r_enum ALL_KINDS kind_text (JStr (kind_text k)) = Some k.
Proof. by destruct k. Qed.

Lemma either_read a b s :
  String.eqb s a || String.eqb s b = true -> r_enum [a; b] (fun s => s) (JStr s) = Some s.
Proof.
  intros H. unfold r_enum. cbn -[String.eqb]. rewrite (String.eqb_sym a), (String.eqb_sym b).
  destruct (String.eqb s a) eqn:Ha; [by apply String.eqb_eq in Ha as ->|]. simpl in H.
  rewrite H. by apply String.eqb_eq in H as ->.
Qed.

(** Finds a field, checks the keys, and reads the fields one after another. *)
Ltac field :=
  repeat first
    [ apply get_field
    | rewrite get_other_field by reflexivity
    | rewrite get_other_opt_field by reflexivity
    | apply get_opt_field; field
    | reflexivity ].
Ltac keys :=
  lazymatch goal with |- only _ _ = _ => repeat (apply only_field || apply only_opt_field); reflexivity end.
Ltac read_field :=
  eapply bind_read;
  [first [ keys
         | eapply required_field; [solve [field]|]
         | eapply defaulted_field; [solve [field]|]
         | eapply defaulted_opt_field; [solve [field]|]]|].

Lemma baseline_round_trip b :
  baseline_ok b = true -> read_baseline lax_bool (dump_baseline b) = Some b.
Proof.
  unfold baseline_ok. intros [[H1 H2]%andb_true_iff H3]%andb_true_iff.
  unfold read_baseline, dump_baseline.
  read_field. do 3 (read_field; [by apply r_name_str|]). read_field; [done|]. by destruct b.
Qed.

Lemma context_file_round_trip f :
  context_file_ok f = true -> read_context_file (dump_context_file f) = Some f.
Proof.
  unfold context_file_ok. intros [H1 H2]%andb_true_iff. unfold read_context_file, dump_context_file.
  read_field. read_field; [by apply r_name_str|]. read_field; [done|].
  read_field; [by apply either_read|]. by destruct f.
Qed.

Lemma assign_round_trip t :
  assign_ok t = true -> read_assign lax_int lax_bool (dump_assign t) = Some t.
Proof.
  unfold assign_ok, assign_valid. intros H. repeat (apply andb_true_iff in H as [H ?]).
  unfold read_assign, dump_assign. simpl app.
  read_field.
  do 5 (read_field; [by apply r_name_str|]).
  read_field.
  { intros x Hx. rewrite Hx in *. split; [done|]. apply r_int_ok; [lia|done]. }
  read_field; [apply opt_str|].
  read_field; [intros x _; split; [done|apply r_strings]|].
  read_field; [by apply (models_read _ _ context_file_ok); [apply context_file_round_trip|]|].
  read_field; [by apply (opt_read baseline_ok); [|apply baseline_round_trip|]|].
  read_field; [done|].
  read_field; [by apply nonneg_read|].
  by destruct t.
Qed.

Lemma progress_round_trip p :
  progress_ok p = true -> read_progress lax_int (dump_progress p) = Some p.
Proof.
  unfold progress_ok. intros H. repeat (apply andb_true_iff in H as [H ?]).
  unfold read_progress, dump_progress. rewrite (last_opt_field "note"). simpl app.
  read_field. read_field; [by apply r_name_str|].
  read_field; [apply status_read|].
  read_field.
  { eapply (opt_read (fun n => (0 <=? n)%Z && (n <=? 100)%Z)); [done| |done].
    intros n Hn. apply r_int_ok; lia. }
  do 2 (read_field; [by apply (opt_read (Z.leb 0)); [|apply nonneg_read|]|]).
  read_field; [apply opt_str|]. by destruct p.
Qed.

Lemma complete_round_trip c :
  complete_ok c = true -> read_complete lax_int lax_bool (dump_complete c) = Some c.
Proof.
  unfold complete_ok. intros H. repeat (apply andb_true_iff in H as [H ?]).
  unfold read_complete, dump_complete. rewrite (last_opt_field "suggested_next_step"). simpl app.
  read_field. do 2 (read_field; [by apply r_name_str|]).
  read_field; [done|].
  read_field; [by apply (opt_read baseline_ok); [|apply baseline_round_trip|]|].
  read_field; [apply r_strings|].
  do 2 (read_field; [apply opt_str|]).
  do 2 (read_field; [by apply nonneg_read|]).
  do 2 (read_field; [apply opt_str|]). by destruct c.
Qed.

Lemma error_round_trip e : error_ok e = true -> read_error lax_bool (dump_error e) = Some e.
Proof.
  unfold error_ok. intros [H1 H2]%andb_true_iff.
  unfold read_error, dump_error. rewrite (last_opt_field "traceback"). simpl app.
  read_field. do 2 (read_field; [by apply r_name_str|]).
  read_field; [apply kind_read|].
  read_field; [done|].
  do 2 (read_field; [apply opt_str|]). by destruct e.
Qed.

Lemma tool_call_round_trip x :
  payload_valid x.1 x.2 = true ->
  read_tool_call lax_int lax_bool read_float (dump_tool_call float_json x) = Some x.
Proof.
  unfold payload_valid. intros H. repeat (apply andb_true_iff in H as [H ?]).
  unfold read_tool_call, dump_tool_call. simpl app.
  read_field. read_field; [by apply r_name_str|]. read_field; [done|].
  read_field; [by apply r_name_str|]. read_field; [done|].
  read_field; [by apply either_read|].
  do 2 (read_field; [apply opt_str|]).
  read_field; [intros y _; split; [apply float_not_null|apply floats_read]|].
  read_field; [done|].
  read_field.
  { unfold r_nonneg_float. rewrite floats_read. simpl.
    match goal with E : (0 <=? _)%Z = true |- _ => by rewrite E end. }
  read_field; [done|].
  do 2 (read_field; [apply opt_str|]). read_field; [done|].
  destruct x as [i c]. by destruct c.
Qed.

Lemma flush_round_trip p :
  flush_ok p = true ->
  read_flush lax_int lax_bool read_float (dump_flush float_json p) = Some p.
Proof.
  unfold flush_ok. intros H. repeat (apply andb_true_iff in H as [H ?]).
  unfold read_flush, dump_flush.
  read_field. do 3 (read_field; [by apply r_name_str|]). read_field; [done|].
  read_field.
  { by apply (models_read _ _ (fun x => payload_valid x.1 x.2)); [apply tool_call_round_trip|]. }
  by destruct p.
Qed.

(** The two ends of a payload type agree: a payload within the constraints of
    its model is loaded as it was dumped, and whatever is loaded came from a
    dictionary without unknown keys and is within the constraints. *)
Definition agree {A} (name : string) (fields : list string) (ok : A -> bool)
  (dump : A -> Dict) (read : Dict -> option A) : Prop :=
  (forall x, ok x = true -> load validation_error name read (Some (dump x)) = inr x) /\
  (forall raw x, load validation_error name read raw = inr x ->
    ok x = true /\ exists o, raw = Some o /\ Forall (fun kv => kv.1 ∈ fields) o).

Lemma agree_intro {A} name fields (ok : A -> bool) dump (f : Dict -> unit -> option A) :
  (forall x, ok x = true -> only fields (dump x) ≫= f (dump x) = Some x) ->
  (forall o x, only fields o ≫= f o = Some x -> ok x = true) ->
  agree name fields ok dump (fun o => only fields o ≫= f o).
Proof.
  intros H1 H2. split.
  - intros x Hx. unfold load. by rewrite H1.
  - intros raw x (o & -> & H)%load_inv. split; [by eapply H2|]. exists o. split; [done|].
    by eapply keys_known.
Qed.

(** C16: Every payload of the task protocol survives the bus.  A
    [task.assign], [task.progress], [task.complete], [task.error] or
    [audit.flush] payload that satisfies the constraints its model declares
    (non-empty names, a turn limit of at least one, counters that are not
    negative, a percentage up to 100, the same for the models nested in it) is
    loaded by the receiver as exactly the payload that was dumped, with the
    fields that were [None] left out of the frame.  Conversely whatever a
    receiver's [load] accepts, whoever sent it, is not [None], has no key
    the model does not declare and satisfies the constraints, whatever pydantic
    coerces. *)
Theorem payloads_round_trip :
  agree "task.assign" ASSIGN_FIELDS assign_ok dump_assign (read_assign lax_int lax_bool) /\
  agree "task.progress" PROGRESS_FIELDS progress_ok dump_progress (read_progress lax_int) /\
  agree "task.complete" COMPLETE_FIELDS complete_ok dump_complete (read_complete lax_int lax_bool) /\
  agree "task.error" ERROR_FIELDS error_ok dump_error (read_error lax_bool) /\
  agree "audit.flush" FLUSH_FIELDS flush_ok (dump_flush float_json)
    (read_flush lax_int lax_bool read_float).
Proof.
  split; [apply agree_intro; [apply assign_round_trip|apply read_assign_ok]|].
  split; [apply agree_intro; [apply progress_round_trip|apply read_progress_ok]|].
  split; [apply agree_intro; [apply complete_round_trip|apply read_complete_ok]|].
  split; [apply agree_intro; [apply error_round_trip|apply read_error_ok]|].
  apply agree_intro; [apply flush_round_trip|apply read_flush_ok].
Qed.
End codec.

(** ** At work *)

Definition int_only (j : json) : option Z := match j with JInt n => Some n | _ => None end.
Definition terse (name : string) (o : Dict) : string := "invalid".

Definition an_error : TaskErrorPayload :=
  {| te_workflow_id := "wf-1"; te_error := "git failed"; te_error_kind := TOOL_FAILURE;
     te_recoverable := true; te_notes_path := None; te_traceback := Some "trace" |}.

Lemma payloads_round_trip_witness :
  load terse "task.error" (read_error (fun _ => None)) (Some (dump_error an_error)) = inr an_error.
Proof.
  destruct (payloads_round_trip (fun _ => None) (fun _ => None) JInt int_only terse
              (fun _ => eq_refl) eq_refl) as (_ & _ & _ & [H _] & _).
  apply H. reflexivity.
Defined.

(** A key the model does not have is refused, so is a missing one. *)
Example unknown_key :
  load terse "task.error" (read_error (fun _ => None)) (Some (dump_error an_error ++ [("x", JNull)])) =
  inl "task.error: invalid".
Proof. reflexivity. Qed.

Example missing_key :
  load terse "task.error" (read_error (fun _ => None)) (Some [("workflow_id", JStr "wf-1")]) =
  inl "task.error: invalid".
Proof. reflexivity. Qed.

(** ** The set-up bundle *)

Lemma bundle_round_trip b : from_dict (to_dict b) = inr b.
Proof. by destruct b. Qed.

(** A bundle without its source type is an agent's; one without any other
    key is a [KeyError]. *)
Lemma bundle_defaults o b :
  obj_get "source_type" o = None -> from_dict o = inr b -> sb_source_type b = JStr "agent".
Proof. unfold from_dict, item. intros Hs. repeat case_match; simpl; try done. rewrite Hs. by intros [= <-]. Qed.
