(* ===== verification/FinalizationRun.v ===== *)
(** * FinalizationRun

    One finalisation from end to end ([orchestrator/finalization.py] with
    [create_finalization_tool_registry] of [tools/finalization.py]): the
    baseline check, the diff, the row of the completion, the prompt with the
    sub-agent's notes, the agent loop over the six session tools, and the rows
    of its calls.

    The state of the loop is the session beside the state of the backend.

    Theorems: what a finalisation is end to end: the agent loop over the
    session's tools is a sequence of calls of the session, so the coordinator
    is the one of [Finalization]; the prompt and the notes it may hold. *)

From S2P Require Import Prelude Json JsonLoads AgentTypes Registry Compaction Loop LoopLemmas LoopTheorems.
From S2P Require Import Protocol Finalization FinalizationTheorems Tools GitTools AuditLog AuditTheorems.
From S2P Require Import CompactionTheorems.

(** ** The tools *)

(** What a call of a tool asks the session for; on the left a call with an
    argument that is not of its schema's type. *)
Definition FinBody : Type := (string * list json) + FinCall.

Definition opt_text (j : json) : option (option string) :=
  match j with JNull => Some None | JStr s => Some (Some s) | _ => None end.

Definition opt_int (j : json) : option (option Z) :=
  match j with JNull => Some None | JInt n => Some (Some n) | _ => None end.

Definition text_ (j : json) : option string := match j with JStr s => Some s | _ => None end.

Definition call_ (tool : string) (args : list json) (c : option FinCall) : FinBody :=
  match c with Some c => inr c | None => inl (tool, args) end.

Definition type_ (ty : string) : json := JObj [("type", JStr ty)].
Definition type_default (ty : string) (d : json) : json := JObj [("type", JStr ty); ("default", d)].

Definition finalization_tool (name desc : string) (properties : list (string * json))
  (required : option (list string)) (h : Handler_ FinBody) : ApiTool FinBody :=
  {| t_name := name; t_description := desc; t_properties := properties; t_required := required;
     t_display_name := ""; t_read_only := false; t_concurrency_safe := false; t_core := true;
     t_handler := h |}.

Definition _MIN_MAX_TURNS : Z := 1.

Definition present_tool : ApiTool FinBody :=
  finalization_tool "present_work_to_user"
    "Present synthesized sub-agent work to the user with review actions."
    [("summary", type_ "string"); ("include_diff", type_default "boolean" (JBool true))] None
    (Opt "summary" JNull (fun s => Opt "include_diff" (JBool true) (fun d =>
     Do (call_ "present_work_to_user" [s; d]
       (s ← opt_text s; match d with JBool d => Some (CallPresent s d) | _ => None end))))).

Definition push_tool : ApiTool FinBody :=
  finalization_tool "push_branch" "Commit delegated work and push a branch without creating a PR."
    [("branch_name", type_ "string");
     ("commit_message", type_default "string" (JStr _DEFAULT_COMMIT_MESSAGE));
     ("remote", type_default "string" (JStr _DEFAULT_REMOTE))] (Some ["branch_name"])
    (Arg "branch_name" (fun b => Opt "commit_message" (JStr _DEFAULT_COMMIT_MESSAGE) (fun m =>
     Opt "remote" (JStr _DEFAULT_REMOTE) (fun r =>
     Do (call_ "push_branch" [b; m; r]
       (b ← text_ b; m ← text_ m; r ← text_ r; Some (CallPush b m r))))))).

Definition push_pr_tool : ApiTool FinBody :=
  finalization_tool "push_and_create_pr"
    "Commit delegated work, push a branch, and create a GitHub PR."
    [("branch_name", type_ "string"); ("title", type_ "string");
     ("body", type_default "string" (JStr "")); ("remote", type_default "string" (JStr _DEFAULT_REMOTE))]
    (Some ["branch_name"; "title"])
    (Arg "branch_name" (fun b => Arg "title" (fun t => Opt "body" (JStr "") (fun y =>
     Opt "remote" (JStr _DEFAULT_REMOTE) (fun r =>
     Do (call_ "push_and_create_pr" [b; t; y; r]
       (b ← text_ b; t ← text_ t; y ← text_ y; r ← text_ r; Some (CallPushPR b t y r)))))))).

Definition discard_tool : ApiTool FinBody :=
  finalization_tool "discard_work" "Discard delegated workspace changes."
    [("reason", type_default "string" (JStr ""))] None
    (Opt "reason" (JStr "") (fun r =>
     Do (call_ "discard_work" [r] (r ← text_ r; Some (CallDiscard r))))).

Definition re_delegate_tool : ApiTool FinBody :=
  finalization_tool "re_delegate" "Send updated instructions to the same sub-agent baseline."
    [("prompt", type_ "string");
     ("max_turns", JObj [("type", JStr "integer"); ("minimum", JInt _MIN_MAX_TURNS)]);
     ("model", type_ "string")] (Some ["prompt"])
    (Arg "prompt" (fun p => Opt "max_turns" JNull (fun n => Opt "model" JNull (fun m =>
     Do (call_ "re_delegate" [p; n; m]
       (p ← text_ p; n ← opt_int n; m ← opt_text m; Some (CallReDelegate p n m))))))).

Definition destroy_tool : ApiTool FinBody :=
  finalization_tool "destroy_sandbox" "Tear down the sub-agent sandbox or process." [] None
    (Do (call_ "destroy_sandbox" [] (Some CallDestroy))).

Definition finalization_tools : list (ApiTool FinBody) :=
  [present_tool; push_tool; push_pr_tool; discard_tool; re_delegate_tool; destroy_tool].

(** ** The prompt *)

Definition _NOTES_TRUNCATION_CHARS : Z := 20000.

Section prompt.
(** [Path.resolve], [Path.expanduser], [Path.is_file], and [read_text]: the
    text of the exception, or the text of the file. *)
Context (resolve expanduser : string -> string) (is_file : string -> bool).
Context (read_text : string -> string + string).

Definition _read_notes (workspace_root : string) (notes_path : option string) : string + string :=
  match notes_path with
  | None | Some "" => inr ""
  | Some p =>
      let root := resolve (expanduser workspace_root) in
      let path := resolve (join_path root p) in
      if negb (inside root path) then inr "(notes path escaped workspace)"
      else if negb (is_file path) then inr ""
      else
        (text <-- read_text path;;
         if (_NOTES_TRUNCATION_CHARS <? py_len text)%Z then
           inr (py_prefix _NOTES_TRUNCATION_CHARS text +:+ newline +:+ "... (truncated, " +:+
                show_Z (py_len text - _NOTES_TRUNCATION_CHARS) +:+ " chars omitted)")
         else inr text)%result
  end.

(** The lines of the prompt, given the notes. *)
Definition prompt_lines (t : TaskAssignPayload) (c : TaskCompletePayload) (notes : string)
  : list string :=
  ["A coding sub-agent completed a delegated task.";
   "";
   "Workflow: " +:+ ta_workflow_id t;
   "Agent: " +:+ ta_agent_id t;
   "Original prompt: " +:+ ta_prompt t;
   "Summary: " +:+ tk_summary c;
   "Rounds used: " +:+ show_Z (tk_rounds_used c);
   "Tool calls made: " +:+ show_Z (tk_tool_calls_made c);
   "Model used: " +:+ opt_or (tk_model_used c) "(unknown)";
   "Suggested next step: " +:+ opt_or (tk_suggested_next_step c) "(none)";
   "";
   "Files changed:";
   str_or (String.concat newline (map (fun p => "- " +:+ p) (tk_files_changed c))) "(not provided)";
   "";
   "Notes:";
   str_or notes "(none)";
   "";
   "Diff:";
   str_or (tk_diff c) "(empty)";
   "";
   "Choose exactly one finalization tool. Prefer present_work_to_user unless " +:+
   "the result is clearly incomplete and needs re_delegate, or unsafe " +:+
   "and needs discard_work."].

Definition build_finalization_prompt (t : TaskAssignPayload) (c : TaskCompletePayload)
  : string + string :=
  (notes <-- _read_notes (ta_workspace_root t) (tk_notes_path c);;
   inr (String.concat newline (prompt_lines t c notes)))%result.
End prompt.

(** ** The audit rows *)

(** [_record_completion]: whatever the write raises is only logged. *)
Definition _record_completion (e : AuditLog.Env) (ctx : WorkflowContext) (c : TaskCompletePayload)
  (audit : option AuditDB) : option AuditDB :=
  match audit with
  | None => None
  | Some a =>
      Some (log_delegation_complete e (wf_workflow_id ctx)
              {| c_rounds_used := tk_rounds_used c; c_tool_calls_made := tk_tool_calls_made c;
                 c_model_used := tk_model_used c; c_summary := tk_summary c;
                 c_diff_size := Z.of_nat (String.length (tk_diff c)) |} a).2
  end.

(** The row of one call of the loop: what the registry says of the tool, the
    call, and what it raised or returned. *)
Definition loop_record {W} (tools : Registry W) (took : Z) (tc : ToolCall) (x : string + string)
  : CallRecord :=
  let spec := get (tc_name tc) tools in
  {| service := match spec with Some t => toolset t | None => "" end;
     command := tc_name tc; args := tc_arguments tc;
     operation_type := match spec with
                       | Some t => if is_read_only t then "READ" else "WRITE"
                       | None => "WRITE"
                       end;
     approval_status := None; approved_by := None; approval_time_ms := None; exit_code := None;
     duration_ms := took; success := match x with inr _ => true | inl _ => false end;
     error_code := None; error_message := match x with inr _ => None | inl exc => Some exc end;
     response_payload := match x with inr out => out | inl exc => error_payload exc (tc_name tc) end |}.

(** The audit writes of a loop that ran as request [rid] without a thread,
    one per dispatched call, in order: the [n]-th meets [env n] and took
    [took n] milliseconds. *)
Fixpoint loop_records {W} (env : nat -> AuditLog.Env) (took : nat -> Z) (tools : Registry W)
  (rid : string) (n : nat) (calls : list ToolCall) (outs : list (string + string))
  : list (AuditLog.Env * option string * Attribution * CallRecord) :=
  match calls, outs with
  | tc :: calls, x :: outs =>
      (env n, None,
       {| session_id := Some rid; thread_ts := None; workflow_id := None; parent_sandbox_id := None;
          agent_id := None; agent_role := None |},
       loop_record tools (took n) tc x) :: loop_records env took tools rid (S n) calls outs
  | _, _ => []
  end.

(** What the loop leaves of the audit; what a write raises is only logged. *)
Definition audit_loop {W} (env : nat -> AuditLog.Env) (took : nat -> Z) (tools : Registry W)
  (rid : string) (e : AgentTypes.Env W) (audit : option AuditDB) : option AuditDB :=
  option_map (log_calls (loop_records env took tools rid 0 (executed e) (outcomes e))) audit.

(** ** The loop over a session *)

Section coordinator.
Context (git : list (list string) -> string -> list string -> GitProcess).
Context (gh : list (list string) -> string -> list string -> GhProcess).
Context (resolve expanduser : string -> string).
Context (renderer : option (list Rendered -> Rendered -> option string)).
Context (path_exists : string -> bool) (rmtree : string -> option string).
Context (delegate : option (list TaskAssignPayload -> TaskAssignPayload -> option string)).
Context (validation_error : TaskAssignPayload -> string).
Context (is_file : string -> bool) (read_text : string -> string + string).
(** What a tool does with an argument of another type than its schema's, and
    the text of the [TypeError] of a call that does not fit the signature. *)
Context (ill_typed : string -> list json -> FM string).
Context (bad_call : list (string * json) -> string).

Abbreviation call_session :=
  (run_call git gh resolve renderer path_exists rmtree delegate validation_error).

(** A tool's call on its session. *)
Definition on_session (b : FinBody) : FM string :=
  match b with inr c => call_session c | inl (tool, args) => ill_typed tool args end.

Section loop.
(** The model. *)
Context {B : Type} (backend : InferenceRequest -> B -> (Exc + InferenceResponse) * B).
Context (not_a_mapping : json -> string).
Context (sched : list nat -> list nat) (config : AgentLoopConfig).

Definition exec_body (b : FinBody) (w : FinalizationSession * B)
  : (string + string) * (FinalizationSession * B) :=
  match on_session b w.1 with
  | (inl x, s) => (inl (exc_text x), (s, w.2))
  | (inr out, s) => (inr out, (s, w.2))
  end.

Definition finalization_specs : list (ToolSpec (FinalizationSession * B)) :=
  map (tool_spec (on_world exec_body) bad_call "finalization" None) finalization_tools.

(** Over any state of the backend, the session being part of the handlers. *)
Definition create_finalization_tool_registry : string + Registry (FinalizationSession * B) :=
  register_all finalization_specs [].

Definition session_backend : Backend (FinalizationSession * B) := fun rq w =>
  let '(x, b) := backend rq w.2 in (x, (w.1, b)).

(** [AgentLoop(...)] without an approval gate approves everything. *)
Definition finalization_loop (tools : Registry (FinalizationSession * B)) (ms : list Message)
  (rid : string) : M (FinalizationSession * B) AgentLoopResult :=
  @run _ session_backend auto_approval not_a_mapping sched tools config false ms rid [].

(** ** [FinalizationCoordinator.finalize] *)

Context (system_prompt : string).
(** What the audit writes meet: the row of the delegation, and those of the
    calls, with their durations. *)
Context (audit_env : AuditLog.Env) (call_env : nat -> AuditLog.Env) (took : nat -> Z).

(** The processes of the diff check are the first the session's log holds. *)
Definition session_of (ctx : WorkflowContext) (c : TaskCompletePayload) : FinalizationSession :=
  (_verify_diff git resolve (wf_task ctx)
     (new_session (wf_task ctx) c (Some (wf_task ctx)))).2.

Definition finalize (ctx : WorkflowContext) (c : TaskCompletePayload) (audit : option AuditDB) (b : B)
  : (Exc + FinalizationResult) * option AuditDB * AgentTypes.Env (FinalizationSession * B) :=
  let t := wf_task ctx in
  if negb (verify_baseline t c) then
    (inl (OtherError "workspace baseline drift"), audit,
     new_env (new_session t c (Some t), b))
  else
    let e := new_env (session_of ctx c, b) in
    let audit := _record_completion audit_env ctx c audit in
    match create_finalization_tool_registry,
          build_finalization_prompt resolve expanduser is_file read_text t c with
    | inl exc, _ | _, inl exc => (inl (OtherError exc), audit, e)
    | inr tools, inr prompt =>
        let rid := "finalize-" +:+ wf_workflow_id ctx in
        let '(out, e) := finalization_loop tools
                [text_message SYSTEM system_prompt; text_message USER prompt] rid e in
        let audit := audit_loop call_env took tools rid e audit in
        match out with
        | inl exc => (inl exc, audit, e)
        | inr r => (inr (finalization_result (lr_content r) (world e).1), audit, e)
        end
    end.

(** [finalize_to_text] *)
Definition finalize_to_text (t : TaskAssignPayload) (c : TaskCompletePayload)
  (audit : option AuditDB) (b : B) : Exc + string :=
  match (finalize {| wf_workflow_id := ta_workflow_id t; wf_task := t; wf_channel_id := None;
                     wf_thread_ts := None; wf_request_id := "" |} c audit b).1.1 with
  | inl exc => inl exc
  | inr r => inr (fr_message r)
  end.
End loop.
End coordinator.

(** * Theorems *)

(** ** The notes *)

Section notes.
Context (resolve expanduser : string -> string) (is_file : string -> bool).
Context (read_text : string -> string + string).

Abbreviation notes_of := (_read_notes resolve expanduser is_file read_text).

(** The prompt holds no other text than that of a file inside the resolved
    workspace, at most [_NOTES_TRUNCATION_CHARS] characters of it, or one of
    two constants. *)
Lemma notes_stay_in_workspace ws p text :
  notes_of ws p = inr text ->
  text = "" \/ text = "(notes path escaped workspace)" \/
  exists path raw, inside (resolve (expanduser ws)) path = true /\ is_file path = true /\
    read_text path = inr raw /\
    ((py_len raw <= _NOTES_TRUNCATION_CHARS)%Z /\ text = raw \/
     exists notice, text = py_prefix _NOTES_TRUNCATION_CHARS raw +:+ notice /\
       py_len (py_prefix _NOTES_TRUNCATION_CHARS raw) = _NOTES_TRUNCATION_CHARS).
Proof.
  unfold _read_notes. destruct p as [[|ch p]|]; [intros [= <-]; by left| |intros [= <-]; by left].
  cbv zeta. set (path := resolve (join_path _ _)). destruct (inside _ path) eqn:Hi; simpl.
  2:{ intros [= <-]. right. by left. }
  destruct (is_file path) eqn:Hf; simpl; [|intros [= <-]; by left].
  destruct (read_text path) as [exc|raw] eqn:Hr; simpl; [done|]. intros H. right. right.
  exists path, raw. split; [done|]. split; [done|]. split; [done|].
  destruct (Z.ltb_spec _NOTES_TRUNCATION_CHARS (py_len raw)) as [Hl|Hl]; injection H as <-.
  - right. eexists. split; [reflexivity|]. unfold py_prefix. cbn -[py_len take_chars].
    rewrite py_len_take by done. unfold _NOTES_TRUNCATION_CHARS in *. lia.
  - left. by split; [lia|].
Qed.

Lemma prompt_needs_notes t c exc :
  build_finalization_prompt resolve expanduser is_file read_text t c = inl exc ->
  exists path, inside (resolve (expanduser (ta_workspace_root t))) path = true /\ read_text path = inl exc.
Proof.
  unfold build_finalization_prompt, _read_notes.
  destruct (tk_notes_path c) as [[|ch p]|]; simpl; [done| |done].
  set (path := resolve (join_path _ _)). destruct (inside _ path) eqn:Hi; simpl; [|done].
  destruct (is_file path); simpl; [|done]. destruct (read_text path) eqn:Hr; simpl; [|by case_match].
  intros [= ->]. by exists path.
Qed.
End notes.

(** ** The tools *)

(** The schema the model is shown is the tool's signature. *)
Lemma finalization_schemas : Forall schema_ok finalization_tools.
Proof. unfold finalization_tools. schemas_fit. Qed.

(** The call of the session a tool call is, if it is one. *)
Definition body_of (tc : ToolCall) : option FinBody :=
  t ← List.find (fun t => String.eqb (t_name t) (tc_name tc)) finalization_tools;
  match (if str_truthy (tc_arguments tc) then json_loads (tc_arguments tc) else inr (JObj [])) with
  | inr (JObj args) => apply_args (t_handler t) args
  | _ => None
  end.

Definition call_of (tc : ToolCall) : option FinCall :=
  match body_of tc with Some (inr c) => Some c | _ => None end.

(** Its arguments are of the types of the schema. *)
Definition typed (tc : ToolCall) : Prop :=
  match body_of tc with Some (inl _) => False | _ => True end.

Lemma find_map {A B} (f : A -> B) (p : B -> bool) l :
  List.find p (map f l) = option_map f (List.find (fun x => p (f x)) l).
Proof. induction l as [|x l IH]; simpl; [done|]. by destruct (p (f x)). Qed.

Definition succeeded {A C} (x : A + C) : bool := match x with inr _ => true | inl _ => false end.

Definition TOOL_NAMES : list string := map t_name finalization_tools.
Definition rq_names (l : list ToolDefinition) : list string := map fn_name l.

Section loop.
Context (git : list (list string) -> string -> list string -> GitProcess).
Context (gh : list (list string) -> string -> list string -> GhProcess).
Context (resolve expanduser : string -> string).
Context (renderer : option (list Rendered -> Rendered -> option string)).
Context (path_exists : string -> bool) (rmtree : string -> option string).
Context (delegate : option (list TaskAssignPayload -> TaskAssignPayload -> option string)).
Context (validation_error : TaskAssignPayload -> string).
Context (is_file : string -> bool) (read_text : string -> string + string).
Context (ill_typed : string -> list json -> FM string).
Context (bad_call : list (string * json) -> string).
Context {B : Type} (backend : InferenceRequest -> B -> (Exc + InferenceResponse) * B).
Context (not_a_mapping : json -> string).
Context (sched : list nat -> list nat) (config : AgentLoopConfig).

Abbreviation calls_run :=
  (run_calls git gh resolve renderer path_exists rmtree delegate validation_error).
Abbreviation exec := (exec_body git gh resolve renderer path_exists rmtree delegate
  validation_error ill_typed (B := B)).
Abbreviation call_session :=
  (run_call git gh resolve renderer path_exists rmtree delegate validation_error).
Abbreviation specs := (finalization_specs git gh resolve renderer path_exists rmtree delegate
  validation_error ill_typed bad_call (B := B)).
Abbreviation loop := (finalization_loop backend not_a_mapping sched config).

Lemma registry_assembles :
  create_finalization_tool_registry git gh resolve renderer path_exists rmtree delegate
    validation_error ill_typed bad_call = inr specs.
Proof. reflexivity. Qed.

(** What a dispatched call does to the session. *)
Lemma dispatch_session tc (e : AgentTypes.Env (FinalizationSession * B)) :
  (world (dispatch_tool not_a_mapping specs tc e).2).1 =
  match body_of tc with
  | Some b => (on_session git gh resolve renderer path_exists rmtree delegate validation_error
                 ill_typed b (world e).1).2
  | None => (world e).1
  end.
Proof.
  unfold dispatch_tool, execute, get, finalization_specs, body_of. rewrite find_map. simpl name.
  destruct (List.find _ finalization_tools) as [t|]; simpl; [|done].
  destruct (if str_truthy _ then _ else _) as [exc|[]]; try done.
  unfold tool_handler. destruct (apply_args (t_handler t) _) as [b|]; [|done].
  unfold on_world, exec_body. simpl. by destruct (on_session _ _ _ _ _ _ _ _ _ _ _) as [[x|x] s].
Qed.

(** What a dispatched call answers. *)
Lemma dispatch_outcome tc (e : AgentTypes.Env (FinalizationSession * B)) :
  typed tc ->
  exists x, outcomes (dispatch_tool not_a_mapping specs tc e).2 = outcomes e ++ [x] /\
    succeeded x = match call_of tc with Some c => succeeded (call_session c (world e).1).1 | None => false end.
Proof.
  unfold typed, call_of, dispatch_tool, execute, get, finalization_specs, body_of. rewrite find_map. simpl name.
  destruct (List.find _ finalization_tools) as [t|]; simpl; [|by eexists].
  destruct (if str_truthy _ then _ else _) as [exc|[]]; try by eexists.
  unfold tool_handler. destruct (apply_args (t_handler t) _) as [[b|c]|]; simpl; [done| |by eexists].
  intros _. unfold on_world, exec_body. simpl.
  destruct (call_session c (world e).1) as [[x|x] s]; by eexists.
Qed.

(** Which of the calls succeed on a session, one after the other. *)
Fixpoint successes (calls : list ToolCall) (s : FinalizationSession) : list bool :=
  match calls with
  | [] => []
  | tc :: calls =>
      match call_of tc with
      | Some c => let '(x, s) := call_session c s in succeeded x :: successes calls s
      | None => false :: successes calls s
      end
  end.

Lemma successes_app l l' s :
  successes (l ++ l') s = successes l s ++ successes l' (calls_run (omap (call_of) l) s).
Proof.
  revert s. induction l as [|tc l IH]; intros s; [done|]. simpl.
  destruct (call_of tc) as [c|]; simpl; [|by rewrite IH].
  unfold run_calls. cbn [fold_left]. destruct (call_session c s) as [x s']. cbn [app snd]. by rewrite IH.
Qed.

(** The session across a part of the loop: the typed calls it dispatched. *)
Definition calls_between (e e' : AgentTypes.Env (FinalizationSession * B)) : Prop :=
  exists dn on, executed e' = executed e ++ dn /\ outcomes e' = outcomes e ++ on /\
    length on = length dn /\
    (Forall typed dn -> (world e').1 = calls_run (omap (call_of) dn) (world e).1 /\
       map succeeded on = successes dn (world e).1).

#[export] Instance calls_between_preorder : PreOrder calls_between.
Proof.
  split.
  - intros e. exists [], []. by rewrite !app_nil_r.
  - intros e1 e2 e3 (d1 & o1 & H1 & O1 & L1 & C1) (d2 & o2 & H2 & O2 & L2 & C2).
    exists (d1 ++ d2), (o1 ++ o2). rewrite H2, H1, O2, O1, <- !app_assoc, !length_app, L1, L2.
    split_and!; [done..|]. intros [F1 F2]%list.Forall_app. destruct (C1 F1) as [W1 S1], (C2 F2) as [W2 S2].
    split; [|by rewrite map_app, successes_app, S1, S2, W1].
    rewrite W2, W1. unfold run_calls. by rewrite omap_app, fold_left_app.
Qed.

Lemma no_call e e' :
  executed e' = executed e -> outcomes e' = outcomes e -> (world e').1 = (world e).1 -> calls_between e e'.
Proof. intros Hx Ho Hw. exists [], []. by rewrite Hx, Ho, !app_nil_r. Qed.

Lemma dispatch_between tc : steps calls_between (dispatch_tool not_a_mapping specs tc).
Proof.
  intros e. assert (Hx : exists x, executed (dispatch_tool not_a_mapping specs tc e).2 = executed e ++ [tc] /\
    outcomes (dispatch_tool not_a_mapping specs tc e).2 = outcomes e ++ [x]).
  { unfold dispatch_tool. destruct (execute _ _ _ _ _) as [x [s w]]. by exists x. }
  destruct Hx as (x & Hx & Ho). exists [tc], [x]. split_and!; [done..|].
  intros [Ht _]%list.Forall_cons. rewrite dispatch_session.
  destruct (dispatch_outcome tc e Ht) as (y & Hy & Hs). rewrite Ho in Hy. apply app_inj_tail in Hy as [_ <-].
  simpl. rewrite Hs. unfold typed, call_of in *. simpl. unfold call_of.
  destruct (body_of tc) as [[bad|c]|]; [done| |done]. by destruct (call_session c _).
Qed.

(** The loop over the session is the sequence of the calls it dispatched. *)
Lemma loop_is_calls ms rid : steps calls_between (loop specs ms rid).
Proof.
  unfold finalization_loop.
  apply steps_run; [exact _|try (intros; apply no_call; reflexivity)..|exact dispatch_between].
  intros q e. apply no_call; [done..|]. simpl. unfold AgentTypes.complete, session_backend.
  by destruct (backend q _).
Qed.

(** ** The coordinator *)

Context (system_prompt : string).
Context (audit_env : AuditLog.Env) (call_env : nat -> AuditLog.Env) (took : nat -> Z).

Abbreviation finalize_run := (FinalizationRun.finalize git gh resolve expanduser renderer path_exists
  rmtree delegate validation_error is_file read_text ill_typed bad_call backend
  not_a_mapping sched config system_prompt audit_env call_env took).
Abbreviation finalize_calls :=
  (Finalization.finalize git gh resolve renderer path_exists rmtree delegate validation_error).

Lemma specs_keep_surface : surface_kept specs.
Proof.
  intros t Ht _ args s w. unfold finalization_specs in Ht. apply list_elem_of_In, in_map_iff in Ht as (x & <- & _).
  simpl. unfold tool_handler. destruct (apply_args (t_handler x) args); [|done].
  unfold on_world. by destruct (exec _ _).
Qed.

Lemma offered pre : rq_names (tool_definitions specs (start_surface specs pre)) = TOOL_NAMES.
Proof. done. Qed.

(** The coordinator of [Finalization] on the calls and the outcome of a run. *)
Lemma finalize_calls_spec t c calls outcome :
  verify_baseline t c = true ->
  let s0 := new_session t c (Some t) in
  let s := calls_run calls (_verify_diff git resolve t s0).2 in
  finalize_calls calls outcome s0 =
  (match outcome with inl text => inl (FOther text) | inr content => inr (finalization_result content s) end, s).
Proof.
  intros Hv s0 s. unfold Finalization.finalize. simpl. rewrite Hv. unfold fbind.
  assert (H : _verify_diff git resolve t s0 = (inr tt, (_verify_diff git resolve t s0).2))
    by (unfold _verify_diff; by destruct (ta_workspace_baseline t)).
  rewrite H. by destruct outcome.
Qed.

Lemma verify_diff_outcome t s :
  st_action (_verify_diff git resolve t s).2 = st_action s /\
  st_is_terminal (_verify_diff git resolve t s).2 = st_is_terminal s.
Proof.
  unfold _verify_diff. destruct (ta_workspace_baseline t) as [b|]; [|done].
  unfold diff_against_baseline, fbind, run_git. simpl. by repeat case_match; simplify_eq/=.
Qed.

Lemma start_on_workflow t c :
  on_workflow resolve t (_verify_diff git resolve t (new_session t c (Some t))).2.
Proof.
  eapply on_workflow_core; [exact (verify_diff_core git resolve (new_session t c (Some t)))|].
  constructor; simpl; first [done | lia | by intros ? [= <-]].
Qed.

(** What the coordinator left behind. *)
Definition ran (t : TaskAssignPayload) (c : TaskCompletePayload)
  (x : Exc + FinalizationResult) (e : AgentTypes.Env (FinalizationSession * B)) : Prop :=
  length (requests e) <=
    2 * Z.to_nat (max_tool_rounds config) + Z.to_nat (max_continuation_retries config) /\
  Forall (fun q => match rq_tools q with Some ds => rq_names ds = TOOL_NAMES | None => True end)
    (requests e) /\
  length (outcomes e) = length (executed e) /\
  (let s := (_verify_diff git resolve t (new_session t c (Some t))).2 in
   Forall typed (executed e) ->
     (world e).1 = calls_run (omap (call_of) (executed e)) s /\
     map succeeded (outcomes e) = successes (executed e) s) /\
  match x with inr r => exists content, r = finalization_result content (world e).1 | inl _ => True end.

Lemma loop_ran ctx c b ms rid :
  (forall l, sched l ≡ₚ l) ->
  let r := loop specs ms rid (new_env (session_of git resolve ctx c, b)) in
  ran (wf_task ctx) c (match r.1 with
                       | inl exc => inl exc
                       | inr res => inr (finalization_result (lr_content res) (world r.2).1)
                       end) r.2.
Proof.
  intros Hs r. set (e0 := new_env (session_of git resolve ctx c, b)) in *.
  destruct (loop_is_calls ms rid e0) as (dn & on & Hx & Ho & Hl & Hc).
  pose proof (@rounds_bounded _ (session_backend backend) auto_approval not_a_mapping sched
    specs config false Hs (Z.to_nat (max_tool_rounds config)) rid 0%Z ms 0%Z
    (set_surface (start_surface specs []) e0)) as (rs & dn' & Hr & _ & Hlen & _).
  pose proof (@rounds_advertised _ (session_backend backend) auto_approval not_a_mapping
    sched specs config false Hs (Z.to_nat (max_tool_rounds config)) rid 0%Z ms 0%Z
    (set_surface (start_surface specs []) e0) specs_keep_surface) as (rs' & Hr' & Ha).
  rewrite <- run_rounds_of in Hr, Hr'. fold r in Hx, Ho, Hc.
  change (requests r.2 = rs) in Hr. change (requests r.2 = rs') in Hr'.
  split; [by rewrite Hr|]. split; [|split; [by rewrite Hx, Ho|split]].
  - rewrite Hr'. eapply List.Forall_impl; [|exact Ha]. intros q [-> | ->]; done.
  - rewrite Hx, Ho. exact Hc.
  - destruct r.1; [done|]. by eexists.
Qed.

Lemma coordinator_ran ctx c audit b :
  (forall l, sched l ≡ₚ l) -> verify_baseline (wf_task ctx) c = true ->
  let out := finalize_run ctx c audit b in
  out.1.2 = audit_loop call_env took specs ("finalize-" +:+ wf_workflow_id ctx) out.2
              (_record_completion audit_env ctx c audit) /\
  ran (wf_task ctx) c out.1.1 out.2.
Proof.
  intros Hs Hv. unfold FinalizationRun.finalize. rewrite Hv, registry_assembles. cbn [negb].
  destruct (build_finalization_prompt _ _ _ _ _ _) as [exc|prompt].
  { cbv zeta. split; [by destruct (_record_completion _ _ _ _)|]. split; [simpl; lia|].
    split; [constructor|]. split; [done|]. split; [|done]. by split. }
  pose proof (loop_ran ctx c b [text_message SYSTEM system_prompt; text_message USER prompt]
    ("finalize-" +:+ wf_workflow_id ctx) Hs) as H. cbv zeta in H.
  by destruct (loop _ _ _ _) as [[exc|r] e].
Qed.
End loop.

(** Rows of calls leave the other tables alone. *)
Lemma log_calls_tables l (a : AuditDB) :
  let t := tables (log_calls l a) in
  messages t = messages (tables a) /\ connections t = connections (tables a) /\
  delegations t = delegations (tables a).
Proof.
  unfold log_calls. revert a. induction l as [|[[[e i] w] c] l IH]; intros a; [done|]. cbn [fold_left fst snd].
  change (sink_log e i w c a) with (AuditLog.log_tool_call e i w c a).
  destruct (log_tool_call_cases e i w c a) as [(exc & -> & _)|[[_ ->]|[_ ->]]]; cbn [snd]; [apply IH..|].
  destruct (IH (_maybe_checkpoint e (commit_tables (set_tool_calls
    (<[opt_or i (uuid e) := tool_call_row e (persist_payloads a) (opt_or i (uuid e)) w c]> (tool_calls (tables a)))
    (tables a)) a))) as (Hm & Hc & Hd). by rewrite tables_written in Hm, Hc, Hd.
Qed.

Lemma loop_records_length {W} env took (tools : Registry W) rid n calls outs :
  length outs = length calls -> length (loop_records env took tools rid n calls outs) = length calls.
Proof.
  revert n outs. induction calls as [|tc calls IH]; intros n [|x outs] H; simpl in *; try done.
  by rewrite IH by lia.
Qed.

Lemma loop_records_success {W} env took (tools : Registry W) rid n calls outs :
  length outs = length calls ->
  map (fun r => success r.2) (loop_records env took tools rid n calls outs) = map succeeded outs.
Proof.
  revert n outs. induction calls as [|tc calls IH]; intros n [|x outs] H; simpl in *; try done.
  by rewrite IH by lia.
Qed.

(** C24: a finalisation is its session's tools, end to end.  When the
    completion does not echo the assigned baseline, [finalize] raises before
    it runs git, writes an audit row or asks the model anything.  Otherwise,
    for every model, schedule and renderer: the completion is recorded first
    and cannot stop it, and after it the audit gets one write per tool call
    the loop dispatched, in order, none of which touches what was recorded;
    the model is asked at most twice per configured round and the configured
    continuations, and offered exactly the six finalisation tools.  When
    every call has arguments of the types of the schemas, which the code does
    not check, the session it leaves and the result it returns are those of
    the calls the loop dispatched, in order, one after the other, and the
    audit rows say which of them succeeded; the session stays on its
    workflow; and a workflow whose work was only presented or re-delegated
    stays registered, unless no tool recorded an outcome. *)
Theorem finalization_run git gh resolve expanduser renderer path_exists rmtree delegate
  validation_error is_file read_text ill_typed bad_call {B}
  (backend : InferenceRequest -> B -> (Exc + InferenceResponse) * B) not_a_mapping sched
  config system_prompt audit_env call_env took ctx c audit b :
  (forall l, sched l ≡ₚ l) ->
  let t := wf_task ctx in
  let s0 := new_session t c (Some t) in
  let out := FinalizationRun.finalize git gh resolve expanduser renderer path_exists rmtree delegate
    validation_error is_file read_text ill_typed bad_call backend not_a_mapping sched
    config system_prompt audit_env call_env took ctx c audit b in
  let calls := omap (call_of) (executed out.2) in
  let recorded := _record_completion audit_env ctx c audit in
  let rows := loop_records call_env took
    (finalization_specs git gh resolve renderer path_exists rmtree delegate validation_error
       ill_typed bad_call (B := B))
    ("finalize-" +:+ wf_workflow_id ctx) 0 (executed out.2) (outcomes out.2) in
  (verify_baseline t c = false ->
     out = (inl (OtherError "workspace baseline drift"), audit, new_env (s0, b))) /\
  (verify_baseline t c = true ->
     (out.1.2 = option_map (log_calls rows) recorded /\ length rows = length (executed out.2) /\
      option_map (fun a => delegations (tables a)) out.1.2 =
        option_map (fun a => delegations (tables a)) recorded) /\
     length (requests out.2) <=
       2 * Z.to_nat (max_tool_rounds config) + Z.to_nat (max_continuation_retries config) /\
     (forall q, q ∈ requests out.2 ->
        match rq_tools q with Some ds => rq_names ds = TOOL_NAMES | None => True end) /\
     (Forall typed (executed out.2) ->
        on_workflow resolve t (world out.2).1 /\
        map (fun r => success r.2) rows =
          successes git gh resolve renderer path_exists rmtree delegate validation_error
            (executed out.2) (session_of git resolve ctx c) /\
        (exists outcome x,
           Finalization.finalize git gh resolve renderer path_exists rmtree delegate
             validation_error calls outcome s0 = (x, (world out.2).1) /\
           match out.1.1, x with inr r, inr r' => r = r' | inl _, inl _ => True | _, _ => False end) /\
        (Forall (fun c => keeps_open c = true) calls -> forall r, out.1.1 = inr r ->
           fr_is_terminal r = match st_action (world out.2).1 with Some _ => false | None => true end))).
Proof.
  intros Hs t s0 out calls recorded rows. split.
  { intros Hv. unfold out, FinalizationRun.finalize. fold t. by rewrite Hv. }
  intros Hv.
  destruct (coordinator_ran git gh resolve expanduser renderer path_exists rmtree delegate
    validation_error is_file read_text ill_typed bad_call backend not_a_mapping sched
    config system_prompt audit_env call_env took ctx c audit b Hs Hv) as (Ha & Hlen & Hq & Ho & Hc & Hr).
  fold out t s0 recorded in Ha, Hlen, Hq, Ho, Hc, Hr. unfold audit_loop in Ha. fold rows in Ha.
  split; [|split; [done|split]].
  { split; [done|]. split; [by apply loop_records_length|]. rewrite Ha. destruct recorded as [a|]; [|done].
    simpl. by rewrite (proj2 (proj2 (log_calls_tables rows a))). }
  { intros q Hin. rewrite List.Forall_forall in Hq. by apply Hq, list_elem_of_In. }
  intros Ht. destruct (Hc Ht) as [Hw Hsucc]. fold calls in Hw. split; [|split; [|split]].
  - rewrite Hw. apply calls_on_workflow, start_on_workflow.
  - unfold rows. by rewrite loop_records_success.
  - destruct out.1.1 as [exc|r].
    + exists (inl ""), (inl (FOther "")). unfold s0. by rewrite finalize_calls_spec, Hw.
    + destruct Hr as [content ->]. exists (inr content). unfold s0.
      rewrite finalize_calls_spec, Hw by done. by eexists.
  - intros Hopen r Hr'. rewrite Hr' in Hr. destruct Hr as [content ->]. rewrite Hw. simpl.
    rewrite open_calls by done.
    by rewrite (proj2 (verify_diff_outcome git resolve t s0)).
Qed.

(** ** At work *)

Definition fin_call (tool args : string) : ToolCall :=
  {| tc_id := tool; tc_name := tool; tc_arguments := args |}.

Definition fin_backend (_ : InferenceRequest) (script : list InferenceResponse)
  : (Exc + InferenceResponse) * list InferenceResponse :=
  match script with
  | r :: script => (inr r, script)
  | [] => (inl (OtherError "script is over"), [])
  end.

(** The model pushes, sends arguments that do not fit, and answers. *)
Definition fin_script : list InferenceResponse :=
  [{| rs_content := ""; finish_reason := "tool_calls";
      rs_tool_calls := Some [fin_call "push_branch" (json_dumps (JObj [("branch_name", JStr "fix/wf-1")])); fin_call "push_branch" "{}"] |};
   {| rs_content := "pushed"; finish_reason := "stop"; rs_tool_calls := None |}].

Definition fin_cfg : AgentLoopConfig := sample_cfg.

Definition fin_context : WorkflowContext :=
  {| wf_workflow_id := "wf-1"; wf_task := sample_assign; wf_channel_id := None;
     wf_thread_ts := None; wf_request_id := "r" |}.

(** git that commits and pushes. *)
Definition working_git : list (list string) -> string -> list string -> GitProcess :=
  fun _ _ args => match args with
                  | "rev-parse" :: _ => GitExited 0 ("/ws/agent-12" +:+ newline) ""
                  | "push" :: _ => GitExited 0 "branch pushed" ""
                  | _ => GitExited 0 "" ""
                  end.

Definition fin_env (id : string) : AuditLog.Env :=
  {| AuditLog.now := 0%Z; uuid := id; db_fails := None; checkpoint_result := CheckpointDone |}.

Definition call_id_of (n : nat) : AuditLog.Env := fin_env (show_Z (Z.of_nat n)).

Definition fin_run :=
  FinalizationRun.finalize working_git (fun _ _ _ => GhTimeout) (fun p => p) (fun p => p) None
    (fun _ => true) (fun _ => None) None (fun _ => "invalid") (fun _ => false) (fun _ => inr "")
    (fun _ _ s => (inl (FOther "ill typed"), s)) (fun _ => "bad call") fin_backend
    (fun _ => "not a mapping") (fun l => l) fin_cfg "You finalize." (fin_env "u") call_id_of (fun _ => 1%Z)
    fin_context sample_complete (Some sample_db) fin_script.

(** The row of a call in the audit the run leaves. *)
Definition fin_row (id : string) : option (string * Z * option string) :=
  match fin_run.1.2 with
  | Some a => option_map (fun r => (tr_command r, tr_success r, tr_error_message r)) (tool_calls (tables a) !! id)
  | None => None
  end.

(** The workspace is pushed, the second call is refused before it runs, both
    are in the audit, and the workflow is over. *)
Lemma finalization_run_witness :
  fin_run.1.1 = inr {| fr_action := PUSH_BRANCH; fr_message := "branch pushed"; fr_is_terminal := true |} /\
  fin_row "0" = Some ("push_branch", 1%Z, None) /\ fin_row "1" = Some ("push_branch", 0%Z, Some "bad call") /\
  on_workflow (fun p => p) sample_assign (world fin_run.2).1 /\
  length (requests fin_run.2) <= 22.
Proof.
  split; [vm_compute; reflexivity|]. split; [vm_compute; reflexivity|]. split; [vm_compute; reflexivity|].
  destruct (finalization_run working_git (fun _ _ _ => GhTimeout) (fun p => p) (fun p => p) None
    (fun _ => true) (fun _ => None) None (fun _ => "invalid") (fun _ => false) (fun _ => inr "")
    (fun _ _ s => (inl (FOther "ill typed"), s)) (fun _ => "bad call") fin_backend
    (fun _ => "not a mapping") (fun l => l) fin_cfg "You finalize." (fin_env "u") call_id_of (fun _ => 1%Z)
    fin_context sample_complete (Some sample_db) fin_script (fun l => Permutation_refl l)) as [_ H].
  destruct (H eq_refl) as (_ & Hlen & _ & Hw). split; [|exact Hlen].
  apply Hw. match goal with |- Forall _ ?l => set (dispatched := l) end.
  assert (Hd : dispatched = [fin_call "push_branch" (json_dumps (JObj [("branch_name", JStr "fix/wf-1")]));
                             fin_call "push_branch" "{}"]) by (vm_compute; reflexivity).
  rewrite Hd. repeat constructor; vm_compute; exact I.
Defined.
