(* ===== verification/Migrations.v ===== *)
(** * Migrations

    The schema of the audit database ([audit/alembic/versions/001] to [006])
    and the tables the application declares ([audit/models.py]).

    A script is the list of the statements it executes.  SQLite is [Sqlite], a
    parameter with what its documentation says a statement it accepts does to
    the schema ([ddl]), to the rows of a table ([rows_after]) and to the
    entries of a full-text table ([entries_after]).

    Theorems: what upgrading and downgrading the audit database does to its
    schema, its rows and its full-text indexes. *)

From S2P Require Import Prelude Json.

(** ** Statements *)

Inductive ColType := TEXT | REAL | INTEGER.

#[export] Instance ColType_eq_dec : EqDecision ColType.
Proof. solve_decision. Defined.

Record Column := {
  col_name : string;
  col_type : ColType;
  col_not_null : bool;
  col_primary : bool
}.

#[export] Instance Column_eq_dec : EqDecision Column.
Proof. solve_decision. Defined.

Definition primary (n : string) (t : ColType) : Column :=
  {| col_name := n; col_type := t; col_not_null := false; col_primary := true |}.
Definition required (n : string) (t : ColType) : Column :=
  {| col_name := n; col_type := t; col_not_null := true; col_primary := false |}.
Definition nullable (n : string) (t : ColType) : Column :=
  {| col_name := n; col_type := t; col_not_null := false; col_primary := false |}.

Inductive TriggerEvent := AfterInsert | AfterDelete | AfterUpdate.

#[export] Instance TriggerEvent_eq_dec : EqDecision TriggerEvent.
Proof. solve_decision. Defined.

(** The statements of a trigger: [INSERT INTO fts(rowid, cols) VALUES (new...)]
    and the ['delete'] command with the [old] values. *)
Inductive TrigStmt :=
| FtsAddNew (fts : string) (cols : list string)
| FtsDropOld (fts : string) (cols : list string).

#[export] Instance TrigStmt_eq_dec : EqDecision TrigStmt.
Proof. solve_decision. Defined.

Record Trigger := {
  tg_table : string;
  tg_event : TriggerEvent;
  tg_body : list TrigStmt
}.

#[export] Instance Trigger_eq_dec : EqDecision Trigger.
Proof. solve_decision. Defined.

Inductive Stmt :=
| CreateTable (name : string) (cols : list Column)
| CreateIndex (name table col : string)
| CreateFts (name : string) (cols : list string) (content : string)
| CreateTrigger (name : string) (t : Trigger)
| DropTable (name : string)
| DropTableIfExists (name : string)
| DropTriggerIfExists (name : string)
| DropIndexIfExists (name : string)
| RenameTable (old new : string)
| AddColumn (table : string) (c : Column)
| FtsRebuild (fts : string)
| InsertSelect (into : string) (cols : list string) (from : string)
| InsertLatest (into key latest : string) (cols : list string) (from : string).

(** ** The scripts *)

Record Revision := {
  revision : string;
  down_revision : option string;
  upgrade : list Stmt;
  downgrade : list Stmt
}.

Definition connections_cols : list Column :=
  [primary "sandbox_id" TEXT; required "connected_at" REAL; nullable "disconnected_at" REAL;
   nullable "disconnect_reason" TEXT].

Definition initial_schema : Revision := {|
  revision := "001";
  down_revision := None;
  upgrade :=
    [CreateTable "messages"
       [primary "id" TEXT; required "timestamp" REAL; required "op" TEXT; required "from_sandbox" TEXT;
        nullable "to_sandbox" TEXT; required "type" TEXT; nullable "reply_to" TEXT;
        nullable "channel" TEXT; required "payload" TEXT; required "payload_size" INTEGER;
        required "delivery_status" TEXT];
     CreateIndex "idx_messages_timestamp" "messages" "timestamp";
     CreateIndex "idx_messages_from" "messages" "from_sandbox";
     CreateIndex "idx_messages_to" "messages" "to_sandbox";
     CreateIndex "idx_messages_type" "messages" "type";
     CreateIndex "idx_messages_reply_to" "messages" "reply_to";
     CreateFts "messages_fts" ["payload"] "messages";
     CreateTable "connections" connections_cols];
  downgrade :=
    [DropTableIfExists "connections"; DropTableIfExists "messages_fts"; DropTableIfExists "messages"]
|}.

Definition fts_sync_triggers : Revision := {|
  revision := "002";
  down_revision := Some "001";
  upgrade :=
    [CreateTrigger "messages_fts_ai" {| tg_table := "messages"; tg_event := AfterInsert;
       tg_body := [FtsAddNew "messages_fts" ["payload"]] |};
     CreateTrigger "messages_fts_ad" {| tg_table := "messages"; tg_event := AfterDelete;
       tg_body := [FtsDropOld "messages_fts" ["payload"]] |};
     CreateTrigger "messages_fts_au" {| tg_table := "messages"; tg_event := AfterUpdate;
       tg_body := [FtsDropOld "messages_fts" ["payload"]; FtsAddNew "messages_fts" ["payload"]] |};
     FtsRebuild "messages_fts"];
  downgrade :=
    [DropTriggerIfExists "messages_fts_au"; DropTriggerIfExists "messages_fts_ad";
     DropTriggerIfExists "messages_fts_ai"]
|}.

Definition connection_columns : list string :=
  ["sandbox_id"; "connected_at"; "disconnected_at"; "disconnect_reason"].

Definition connections_history : Revision := {|
  revision := "003";
  down_revision := Some "002";
  upgrade :=
    [RenameTable "connections" "_connections_old";
     CreateTable "connections" connections_cols;
     CreateIndex "idx_connections_connected_at" "connections" "connected_at";
     InsertSelect "connections" connection_columns "_connections_old";
     DropTable "_connections_old"];
  downgrade :=
    [RenameTable "connections" "_connections_new";
     CreateTable "connections" connections_cols;
     InsertLatest "connections" "sandbox_id" "connected_at" connection_columns "_connections_new";
     DropTable "_connections_new"]
|}.

(** The rebuild at its end reads a table that was just created: it is there
    for symmetry with the second revision and indexes nothing. *)
Definition tool_calls_table : Revision := {|
  revision := "004";
  down_revision := Some "003";
  upgrade :=
    [CreateTable "tool_calls"
       [primary "id" TEXT; required "timestamp" REAL; nullable "session_id" TEXT;
        nullable "thread_ts" TEXT; required "service" TEXT; required "command" TEXT;
        required "args" TEXT; required "operation_type" TEXT; nullable "approval_status" TEXT;
        nullable "approved_by" TEXT; nullable "approval_time_ms" REAL; nullable "exit_code" INTEGER;
        required "duration_ms" REAL; required "success" INTEGER; nullable "error_code" TEXT;
        nullable "error_message" TEXT; nullable "response_payload" TEXT;
        required "payload_size" INTEGER];
     CreateIndex "idx_tc_timestamp" "tool_calls" "timestamp";
     CreateIndex "idx_tc_session" "tool_calls" "session_id";
     CreateIndex "idx_tc_service" "tool_calls" "service";
     CreateIndex "idx_tc_operation" "tool_calls" "operation_type";
     CreateFts "tool_calls_fts" ["args"; "response_payload"] "tool_calls";
     CreateTrigger "tool_calls_fts_ai" {| tg_table := "tool_calls"; tg_event := AfterInsert;
       tg_body := [FtsAddNew "tool_calls_fts" ["args"; "response_payload"]] |};
     CreateTrigger "tool_calls_fts_ad" {| tg_table := "tool_calls"; tg_event := AfterDelete;
       tg_body := [FtsDropOld "tool_calls_fts" ["args"; "response_payload"]] |};
     CreateTrigger "tool_calls_fts_au" {| tg_table := "tool_calls"; tg_event := AfterUpdate;
       tg_body := [FtsDropOld "tool_calls_fts" ["args"; "response_payload"];
                   FtsAddNew "tool_calls_fts" ["args"; "response_payload"]] |};
     FtsRebuild "tool_calls_fts"];
  downgrade :=
    [DropTriggerIfExists "tool_calls_fts_au"; DropTriggerIfExists "tool_calls_fts_ad";
     DropTriggerIfExists "tool_calls_fts_ai"; DropTableIfExists "tool_calls_fts";
     DropTableIfExists "tool_calls"]
|}.

Definition delegations_table : Revision := {|
  revision := "005";
  down_revision := Some "004";
  upgrade :=
    [CreateTable "delegations"
       [primary "workflow_id" TEXT; required "started_at" REAL; nullable "completed_at" REAL;
        required "parent_sandbox_id" TEXT; required "agent_id" TEXT; required "workspace_root" TEXT;
        required "prompt" TEXT; nullable "requested_model" TEXT;
        nullable "requested_max_turns" INTEGER; nullable "base_sha" TEXT;
        nullable "base_repo_url" TEXT; nullable "base_branch" TEXT; required "status" TEXT;
        nullable "error_kind" TEXT; nullable "error_message" TEXT; nullable "recoverable" INTEGER;
        nullable "rounds_used" INTEGER; nullable "tool_calls_made" INTEGER;
        nullable "model_used" TEXT; nullable "summary" TEXT; nullable "diff_size" INTEGER];
     CreateIndex "idx_dlg_started" "delegations" "started_at";
     CreateIndex "idx_dlg_agent" "delegations" "agent_id";
     CreateIndex "idx_dlg_status" "delegations" "status"];
  downgrade := [DropTableIfExists "delegations"]
|}.

Definition attribution_columns : list Column :=
  [nullable "workflow_id" TEXT; nullable "parent_sandbox_id" TEXT; nullable "agent_id" TEXT;
   nullable "agent_role" TEXT].

Definition tool_call_agent_attribution : Revision := {|
  revision := "006";
  down_revision := Some "005";
  upgrade :=
    map (AddColumn "tool_calls") attribution_columns ++
    [CreateIndex "idx_tc_workflow" "tool_calls" "workflow_id";
     CreateIndex "idx_tc_agent" "tool_calls" "agent_id"];
  downgrade := [DropIndexIfExists "idx_tc_agent"; DropIndexIfExists "idx_tc_workflow"]
|}.

Definition revisions : list Revision :=
  [initial_schema; fts_sync_triggers; connections_history; tool_calls_table; delegations_table;
   tool_call_agent_attribution].

(** ** The declared tables *)

Inductive OrmType := String_ | Float_ | Integer_.

(** How SQLAlchemy stores them in SQLite. *)
Definition stored_as (t : OrmType) : ColType :=
  match t with String_ => TEXT | Float_ => REAL | Integer_ => INTEGER end.

Definition mapped (n : string) (t : OrmType) (is_nullable : bool) : Column :=
  if is_nullable then nullable n (stored_as t) else required n (stored_as t).

Definition MessageRow : string * list Column :=
  ("messages",
   [primary "id" (stored_as String_); mapped "timestamp" Float_ false; mapped "op" String_ false;
    mapped "from_sandbox" String_ false; mapped "to_sandbox" String_ true; mapped "type" String_ false;
    mapped "reply_to" String_ true; mapped "channel" String_ true; mapped "payload" String_ false;
    mapped "payload_size" Integer_ false; mapped "delivery_status" String_ false]).

Definition ConnectionRow : string * list Column :=
  ("connections",
   [primary "sandbox_id" (stored_as String_); mapped "connected_at" Float_ false;
    mapped "disconnected_at" Float_ true; mapped "disconnect_reason" String_ true]).

Definition DelegationRow : string * list Column :=
  ("delegations",
   [primary "workflow_id" (stored_as String_); mapped "started_at" Float_ false;
    mapped "completed_at" Float_ true; mapped "parent_sandbox_id" String_ false;
    mapped "agent_id" String_ false; mapped "workspace_root" String_ false;
    mapped "prompt" String_ false; mapped "requested_model" String_ true;
    mapped "requested_max_turns" Integer_ true; mapped "base_sha" String_ true;
    mapped "base_repo_url" String_ true; mapped "base_branch" String_ true;
    mapped "status" String_ false; mapped "error_kind" String_ true;
    mapped "error_message" String_ true; mapped "recoverable" Integer_ true;
    mapped "rounds_used" Integer_ true; mapped "tool_calls_made" Integer_ true;
    mapped "model_used" String_ true; mapped "summary" String_ true;
    mapped "diff_size" Integer_ true]).

Definition ToolCallRow : string * list Column :=
  ("tool_calls",
   [primary "id" (stored_as String_); mapped "timestamp" Float_ false; mapped "session_id" String_ true;
    mapped "thread_ts" String_ true; mapped "service" String_ false; mapped "command" String_ false;
    mapped "args" String_ false; mapped "operation_type" String_ false;
    mapped "approval_status" String_ true; mapped "approved_by" String_ true;
    mapped "approval_time_ms" Float_ true; mapped "exit_code" Integer_ true;
    mapped "duration_ms" Float_ false; mapped "success" Integer_ false;
    mapped "error_code" String_ true; mapped "error_message" String_ true;
    mapped "response_payload" String_ true; mapped "payload_size" Integer_ false;
    mapped "workflow_id" String_ true; mapped "parent_sandbox_id" String_ true;
    mapped "agent_id" String_ true; mapped "agent_role" String_ true]).

(** [Base.metadata] *)
Definition target_metadata : gmap string (list Column) :=
  list_to_map [MessageRow; ConnectionRow; DelegationRow; ToolCallRow].

(** ** SQLite *)

(** The schema: ordinary tables, full-text tables with their columns and
    content table, indexes with their table and column, triggers. *)
Record Catalog := {
  cat_tables : gmap string (list Column);
  cat_fts : gmap string (list string * string);
  cat_indexes : gmap string (string * string);
  cat_triggers : gmap string Trigger
}.

#[export] Instance Catalog_eq_dec : EqDecision Catalog.
Proof. solve_decision. Defined.

Definition no_schema : Catalog :=
  {| cat_tables := ∅; cat_fts := ∅; cat_indexes := ∅; cat_triggers := ∅ |}.

Definition with_tables (t : gmap string (list Column)) (c : Catalog) : Catalog :=
  {| cat_tables := t; cat_fts := cat_fts c; cat_indexes := cat_indexes c; cat_triggers := cat_triggers c |}.
Definition with_fts (f : gmap string (list string * string)) (c : Catalog) : Catalog :=
  {| cat_tables := cat_tables c; cat_fts := f; cat_indexes := cat_indexes c; cat_triggers := cat_triggers c |}.
Definition with_indexes (i : gmap string (string * string)) (c : Catalog) : Catalog :=
  {| cat_tables := cat_tables c; cat_fts := cat_fts c; cat_indexes := i; cat_triggers := cat_triggers c |}.
Definition with_triggers (t : gmap string Trigger) (c : Catalog) : Catalog :=
  {| cat_tables := cat_tables c; cat_fts := cat_fts c; cat_indexes := cat_indexes c; cat_triggers := t |}.

(** Tables and indexes share one name space. *)
Definition name_taken (c : Catalog) (n : string) : bool :=
  bool_decide (is_Some (cat_tables c !! n)) || bool_decide (is_Some (cat_fts c !! n)) ||
  bool_decide (is_Some (cat_indexes c !! n)).

Definition has_columns (c : Catalog) (t : string) (cols : list string) : bool :=
  match cat_tables c !! t with
  | Some cs => forallb (fun n => bool_decide (n ∈ map col_name cs)) cols
  | None => false
  end.

(** A dropped table takes its indexes and triggers along. *)
Definition drop_table (n : string) (c : Catalog) : Catalog :=
  {| cat_tables := delete n (cat_tables c);
     cat_fts := delete n (cat_fts c);
     cat_indexes := filter (fun kv => kv.2.1 ≠ n) (cat_indexes c);
     cat_triggers := filter (fun kv => tg_table kv.2 ≠ n) (cat_triggers c) |}.

Definition retarget (old new t : string) : string := if bool_decide (t = old) then new else t.

(** What an accepted statement does to the schema; [None]: SQLite refuses.
    The statements that write rows or index entries leave the schema alone;
    what they write is [rows_after] and [entries_after]. *)
Definition ddl (s : Stmt) (c : Catalog) : option Catalog :=
  match s with
  | CreateTable n cols =>
      if name_taken c n then None else Some (with_tables (<[n := cols]> (cat_tables c)) c)
  | CreateIndex n t col =>
      if name_taken c n || negb (has_columns c t [col]) then None
      else Some (with_indexes (<[n := (t, col)]> (cat_indexes c)) c)
  | CreateFts n cols content =>
      if name_taken c n then None else Some (with_fts (<[n := (cols, content)]> (cat_fts c)) c)
  | CreateTrigger n t =>
      match cat_triggers c !! n, cat_tables c !! tg_table t with
      | None, Some _ => Some (with_triggers (<[n := t]> (cat_triggers c)) c)
      | _, _ => None
      end
  | DropTable n =>
      match cat_tables c !! n, cat_fts c !! n with
      | None, None => None
      | _, _ => Some (drop_table n c)
      end
  | DropTableIfExists n => Some (drop_table n c)
  | DropTriggerIfExists n => Some (with_triggers (delete n (cat_triggers c)) c)
  | DropIndexIfExists n => Some (with_indexes (delete n (cat_indexes c)) c)
  | RenameTable old new =>
      match cat_tables c !! old with
      | Some cols =>
          if name_taken c new then None
          else Some {| cat_tables := <[new := cols]> (delete old (cat_tables c));
                       cat_fts := cat_fts c;
                       cat_indexes := (fun i => (retarget old new i.1, i.2)) <$> cat_indexes c;
                       cat_triggers := (fun t => {| tg_table := retarget old new (tg_table t);
                                                    tg_event := tg_event t; tg_body := tg_body t |})
                                         <$> cat_triggers c |}
      | None => None
      end
  | AddColumn t col =>
      match cat_tables c !! t with
      | Some cols =>
          if bool_decide (col_name col ∈ map col_name cols) || col_primary col || col_not_null col then None
          else Some (with_tables (<[t := cols ++ [col]]> (cat_tables c)) c)
      | None => None
      end
  | FtsRebuild f => _ ← cat_fts c !! f; Some c
  | InsertSelect into cols from | InsertLatest into _ _ cols from =>
      if has_columns c into cols && has_columns c from cols then Some c else None
  end.

Inductive SqlValue := SInt (z : Z) | SReal (bits : Z) | SText (s : string).

#[export] Instance SqlValue_eq_dec : EqDecision SqlValue.
Proof. solve_decision. Defined.

(** A row by column; a column that is NULL is not in the map. *)
Definition Row : Type := gmap string SqlValue.

Definition project (cols : list string) (r : Row) : Row := filter (fun kv => kv.1 ∈ cols) r.

(** What an accepted statement does to the rows of the tables. *)
Definition rows_after (s : Stmt) (r : string -> list Row) (t : string) : list Row :=
  match s with
  | CreateTable n _ | DropTable n | DropTableIfExists n => if bool_decide (t = n) then [] else r t
  | RenameTable old new =>
      if bool_decide (t = new) then r old else if bool_decide (t = old) then [] else r t
  | InsertSelect into cols from | InsertLatest into _ _ cols from =>
      if bool_decide (t = into) then r into ++ map (project cols) (r from) else r t
  | _ => r t
  end.

(** The rows [INSERT OR REPLACE ... GROUP BY key] reads have distinct keys, and
    it fills an empty table: then it copies. *)
Definition copies (s : Stmt) (r : string -> list Row) : Prop :=
  match s with
  | InsertLatest into key _ _ from => r into = [] /\ NoDup (map (fun row => row !! key) (r from))
  | _ => True
  end.

(** ** The full-text index *)

(** An index over values by rowid; the ['delete'] command is documented for the
    values that are in the index. *)
Class FtsIndex (I : Type) := {
  entries : I -> gmap Z (list (option SqlValue));
  fts_add : Z -> list (option SqlValue) -> I -> I;
  fts_drop : Z -> list (option SqlValue) -> I -> I;
  entries_add r vs i : entries i !! r = None -> entries (fts_add r vs i) = <[r := vs]> (entries i);
  entries_drop r vs i : entries i !! r = Some vs -> entries (fts_drop r vs i) = delete r (entries i)
}.

(** A statement that touches one row of a table, by rowid. *)
Inductive RowStep :=
| RInsert (rowid : Z) (row : Row)
| RDelete (rowid : Z)
| RUpdate (rowid : Z) (row : Row).

Definition values (cols : list string) (r : Row) : list (option SqlValue) := map (fun c => r !! c) cols.

Section index.
Context {I : Type} `{FtsIndex I}.

(** One statement of a trigger fired for a row. *)
Definition run_trig (rowid : Z) (old new : Row) (s : TrigStmt) (ix : string -> I) : string -> I :=
  match s with
  | FtsAddNew f cols => fun g => if bool_decide (g = f) then fts_add rowid (values cols new) (ix g) else ix g
  | FtsDropOld f cols => fun g => if bool_decide (g = f) then fts_drop rowid (values cols old) (ix g) else ix g
  end.

Definition run_body (rowid : Z) (old new : Row) (ss : list TrigStmt) (ix : string -> I) : string -> I :=
  foldl (fun ix s => run_trig rowid old new s ix) ix ss.

Definition triggers_of (c : Catalog) (table : string) (ev : TriggerEvent) : list Trigger :=
  filter (fun t => tg_table t = table /\ tg_event t = ev) (map snd (map_to_list (cat_triggers c))).

Definition fire (c : Catalog) (table : string) (ev : TriggerEvent) (rowid : Z) (old new : Row)
  (ix : string -> I) : string -> I :=
  foldl (fun ix t => run_body rowid old new (tg_body t) ix) ix (triggers_of c table ev).

(** A step on the rows of a table and the indexes, its triggers included. *)
Definition row_step (c : Catalog) (table : string) (s : RowStep) (st : gmap Z Row * (string -> I))
  : option (gmap Z Row * (string -> I)) :=
  let '(content, ix) := st in
  match s with
  | RInsert r row =>
      match content !! r with
      | Some _ => None
      | None => Some (<[r := row]> content, fire c table AfterInsert r ∅ row ix)
      end
  | RDelete r =>
      old ← content !! r;
      Some (delete r content, fire c table AfterDelete r old ∅ ix)
  | RUpdate r row =>
      old ← content !! r;
      Some (<[r := row]> content, fire c table AfterUpdate r old row ix)
  end.

(** The index of [f] holds the columns of every row of its table, no others. *)
Definition in_sync (f : string) (cols : list string) (st : gmap Z Row * (string -> I)) : Prop :=
  entries (st.2 f) = values cols <$> st.1.
End index.

(** What an accepted statement does to the entries of the full-text table [f]:
    a new one is empty, and [INSERT INTO f(f) VALUES ('rebuild')] reads its
    content table. *)
Definition entries_after (s : Stmt) (c : Catalog) (content : string -> gmap Z Row)
  (e : string -> gmap Z (list (option SqlValue))) (f : string) : gmap Z (list (option SqlValue)) :=
  match s with
  | CreateFts g _ _ => if bool_decide (f = g) then ∅ else e f
  | FtsRebuild g =>
      match cat_fts c !! g with
      | Some (cols, table) => if bool_decide (f = g) then values cols <$> content table else e f
      | None => e f
      end
  | _ => e f
  end.

(** A statement that inserts rows into a table with triggers; no script has
    one, and what it does to the indexes is not said. *)
Definition fires (s : Stmt) (c : Catalog) : bool :=
  match s with
  | InsertSelect into _ _ | InsertLatest into _ _ _ _ =>
      existsb (fun t => bool_decide (tg_table t = into)) (map snd (map_to_list (cat_triggers c)))
  | _ => false
  end.

(** The tables whose rows a statement may change. *)
Definition touches (s : Stmt) (t : string) : bool :=
  match s with
  | CreateTable n _ | DropTable n | DropTableIfExists n => bool_decide (t = n)
  | RenameTable old new => bool_decide (t = old) || bool_decide (t = new)
  | InsertSelect into _ _ | InsertLatest into _ _ _ _ => bool_decide (t = into)
  | _ => false
  end.

Definition rows_of (c : gmap Z Row) : list Row := map snd (map_to_list c).

(** A database, whose full-text tables are of type [I]. *)
Class Sqlite (Db I : Type) `{FtsIndex I} := {
  (** One statement, or what SQLite raises. *)
  sql : Stmt -> Db -> string + Db;
  (** The application writes one row of a table; [None]: it is refused. *)
  write : string -> RowStep -> Db -> option Db;
  catalog : Db -> Catalog;
  (** The rows of an ordinary table by rowid, none when there is no such
      table. *)
  content : Db -> string -> gmap Z Row;
  index : Db -> string -> I;
  sql_catalog s d d' : sql s d = inr d' -> ddl s (catalog d) = Some (catalog d');
  sql_rows s d d' t :
    sql s d = inr d' -> copies s (fun t => rows_of (content d t)) ->
    rows_of (content d' t) ≡ₚ rows_after s (fun t => rows_of (content d t)) t;
  sql_content s d d' t : sql s d = inr d' -> touches s t = false -> content d' t = content d t;
  sql_index s d d' f :
    sql s d = inr d' -> fires s (catalog d) = false ->
    entries (index d' f) = entries_after s (catalog d) (content d) (fun f => entries (index d f)) f;
  write_catalog t s d d' : write t s d = Some d' -> catalog d' = catalog d;
  write_row t s d d' :
    write t s d = Some d' ->
    exists ix, row_step (catalog d) t s (content d t, index d) = Some (content d' t, ix) /\
      forall f, entries (index d' f) = entries (ix f);
  write_other t s d d' t' : write t s d = Some d' -> t' ≠ t -> content d' t' = content d t';
  content_columns d t cols r row :
    cat_tables (catalog d) !! t = Some cols -> content d t !! r = Some row ->
    dom row ⊆ list_to_set (map col_name cols)
}.

Definition rows {Db I} `{Sqlite Db I} (d : Db) (t : string) : list Row := rows_of (content d t).

(** ** Running the scripts *)

Section run.
Context {Db I : Type} {HI : FtsIndex I} {HS : Sqlite Db I}.

(** The statements of a script up to the first SQLite refuses. *)
Fixpoint run_script (ss : list Stmt) (d : Db) : (string + unit) * Db :=
  match ss with
  | [] => (inr tt, d)
  | s :: ss => match sql s d with inl e => (inl e, d) | inr d => run_script ss d end
  end.

Inductive Move := Up | Down.

(** One step of [alembic upgrade] or [alembic downgrade] from the revision
    with this number, 0 for none; [None] when there is no such step.  The
    version is stored only after the script. *)
Definition migrate (m : Move) (s : nat * Db) : option ((string + unit) * (nat * Db)) :=
  let '(n, d) := s in
  match m, n with
  | Up, n =>
      rev ← revisions !! n;
      let '(r, d) := run_script (upgrade rev) d in
      Some (r, (match r with inr _ => S n | inl _ => n end, d))
  | Down, S n =>
      rev ← revisions !! n;
      let '(r, d) := run_script (downgrade rev) d in
      Some (r, (match r with inr _ => n | inl _ => S n end, d))
  | Down, 0 => None
  end.

(** What happens to the database of an installation: moves that succeed, and
    the writes of the application between them. *)
Inductive DbEvent := Migrate (m : Move) | Write (t : string) (s : RowStep).

Inductive history : nat * Db -> list DbEvent -> nat * Db -> Prop :=
| history_nil s : history s [] s
| history_move s m s' es s'' :
    migrate m s = Some (inr tt, s') -> history s' es s'' -> history s (Migrate m :: es) s''
| history_write n d t s d' es s'' :
    write t s d = Some d' -> history (n, d') es s'' -> history (n, d) (Write t s :: es) s''.

Definition moves_of (es : list DbEvent) : list Move :=
  omap (fun e => match e with Migrate m => Some m | Write _ _ => None end) es.
End run.

(** ** The schema of every revision *)

Fixpoint ddl_all (ss : list Stmt) (c : Catalog) : option Catalog :=
  match ss with
  | [] => Some c
  | s :: ss => c ← ddl s c; ddl_all ss c
  end.

(** The schema the upgrades up to revision [n] make of an empty database. *)
Definition schema (n : nat) : Catalog :=
  default no_schema (ddl_all (concat (map upgrade (take n revisions))) no_schema).

(** A version of the database: its revision, and whether a downgrade from the
    last one left the attribution columns in [tool_calls]. *)
Record Version := { at_revision : nat; columns_left : bool }.

Definition expected (v : Version) : Catalog :=
  if columns_left v
  then with_tables (alter (fun cols => cols ++ attribution_columns) "tool_calls"
                      (cat_tables (schema (at_revision v)))) (schema (at_revision v))
  else schema (at_revision v).

(** The versions the moves lead through: an upgrade to the last revision is
    refused while the columns are there, and only dropping [tool_calls]
    removes them. *)
Definition version_move (m : Move) (v : Version) : option Version :=
  match m, v with
  | Up, {| at_revision := 5; columns_left := true |} => None
  | Up, {| at_revision := n; columns_left := l |} =>
      if (n <? 6)%nat then Some {| at_revision := S n; columns_left := l |} else None
  | Down, {| at_revision := 6 |} => Some {| at_revision := 5; columns_left := true |}
  | Down, {| at_revision := 4 |} => Some {| at_revision := 3; columns_left := false |}
  | Down, {| at_revision := S n; columns_left := l |} => Some {| at_revision := n; columns_left := l |}
  | Down, {| at_revision := 0 |} => None
  end.

Fixpoint version_moves (ms : list Move) (v : Version) : option Version :=
  match ms with
  | [] => Some v
  | m :: ms => v ← version_move m v; version_moves ms v
  end.

Definition all_versions : list Version :=
  map (fun n => {| at_revision := n; columns_left := false |}) (seq 0 7) ++
  [{| at_revision := 4; columns_left := true |}; {| at_revision := 5; columns_left := true |}].

(** The script of a move. *)
Definition script_of (m : Move) (n : nat) : list Stmt :=
  match m, n with
  | Up, n => default [] (upgrade <$> revisions !! n)
  | Down, S n => default [] (downgrade <$> revisions !! n)
  | Down, 0 => []
  end.

(** Each script, on each schema it can meet, makes the schema of the next
    version, or is refused. *)
Lemma scripts_check :
  forallb (fun v => forallb (fun m =>
    match version_move m v with
    | Some v' => bool_decide (ddl_all (script_of m (at_revision v)) (expected v) = Some (expected v'))
    | None => match m, at_revision v with
              | Up, 5 => bool_decide (ddl_all (script_of m 5) (expected v) = None)
              | Up, 6 => true
              | Down, 0 => true
              | _, _ => false
              end
    end) [Up; Down]) all_versions = true.
Proof. vm_compute. reflexivity. Qed.

Lemma version_closed m v v' : v ∈ all_versions -> version_move m v = Some v' -> v' ∈ all_versions.
Proof.
  assert (Hall : forallb (fun v => forallb (fun m =>
    match version_move m v with
    | Some v' => existsb (fun w => (at_revision w =? at_revision v')%nat &&
                                   Bool.eqb (columns_left w) (columns_left v')) all_versions
    | None => true
    end) [Up; Down]) all_versions = true) by (vm_compute; reflexivity).
  intros Hv Hm. rewrite forallb_forall in Hall. apply list_elem_of_In in Hv. specialize (Hall v Hv).
  rewrite forallb_forall in Hall. specialize (Hall m). rewrite Hm in Hall.
  assert (Hin : In m [Up; Down]) by (destruct m; simpl; tauto).
  apply Hall, existsb_exists in Hin as (w & Hw & [H1 H2]%andb_prop).
  apply Nat.eqb_eq in H1. apply eqb_prop in H2. apply list_elem_of_In.
  destruct w, v'; simpl in *; by subst.
Qed.

Lemma script_spec m v :
  v ∈ all_versions ->
  match version_move m v with
  | Some v' => ddl_all (script_of m (at_revision v)) (expected v) = Some (expected v')
  | None => m = Up /\ at_revision v = 5 /\ ddl_all (script_of Up 5) (expected v) = None \/
            m = Up /\ at_revision v = 6 \/ m = Down /\ at_revision v = 0
  end.
Proof.
  intros Hv%list_elem_of_In. pose proof scripts_check as Hall. rewrite forallb_forall in Hall.
  specialize (Hall v Hv). rewrite forallb_forall in Hall. specialize (Hall m).
  assert (Hin : In m [Up; Down]) by (destruct m; simpl; tauto). apply Hall in Hin. clear Hall Hv.
  destruct (version_move m v) as [v'|]; [by apply bool_decide_eq_true in Hin|].
  destruct m, (at_revision v) as [|[|[|[|[|[|[|n]]]]]]] eqn:Hn; try done; eauto.
  left. split_and!; try done. by apply bool_decide_eq_true in Hin.
Qed.

Section theorems.
Context {Db I : Type} {HI : FtsIndex I} {HS : Sqlite Db I}.

Lemma rows_columns d t cols row :
  cat_tables (catalog d) !! t = Some cols -> row ∈ rows d t -> dom row ⊆ list_to_set (map col_name cols).
Proof.
  intros Ht Hr. unfold rows, rows_of in Hr. apply list_elem_of_fmap in Hr as ([r row'] & -> & Hr).
  apply elem_of_map_to_list in Hr. by eapply content_columns.
Qed.

Lemma run_ddl ss d d' :
  run_script ss d = (inr tt, d') -> ddl_all ss (catalog d) = Some (catalog d').
Proof.
  revert d. induction ss as [|s ss IH]; simpl; intros d; [by intros [= ->]|].
  destruct (sql s d) as [e|d1] eqn:Hs; [done|]. intros Hr.
  rewrite (sql_catalog _ _ _ Hs). simpl. by apply IH.
Qed.

Lemma migrate_script m n d n' d' :
  migrate m (n, d) = Some (inr tt, (n', d')) ->
  run_script (script_of m n) d = (inr tt, d') /\
  match m with Up => n' = S n | Down => n = S n' end.
Proof.
  unfold migrate, script_of. destruct m.
  - destruct (revisions !! n) as [rev|]; [|done]. simpl.
    destruct (run_script (upgrade rev) d) as [[e|[]] d1]; [done|]. by intros [= <- <-].
  - destruct n as [|n]; [done|]. destruct (revisions !! n) as [rev|]; [|done]. simpl.
    destruct (run_script (downgrade rev) d) as [[e|[]] d1]; [done|]. by intros [= <- <-].
Qed.

Lemma revision_bound m n d out : migrate m (n, d) = Some out -> match m with Up => n < 6 | Down => 0 < n end.
Proof.
  unfold migrate. destruct m; [|destruct n; [done|lia]].
  destruct (decide (n < 6)) as [|Hn]; [done|].
  rewrite (proj2 (lookup_ge_None revisions n)) by (simpl; lia). done.
Qed.

Lemma version_at m v v' :
  version_move m v = Some v' ->
  match m with Up => at_revision v' = S (at_revision v) | Down => at_revision v = S (at_revision v') end.
Proof.
  destruct m, v as [[|[|[|[|[|[|[|n]]]]]]] []]; simpl; intros Hm; simplify_eq; done.
Qed.

(** One move that succeeds goes to the next version, with its schema. *)
Lemma migrate_version m v d n' d' :
  v ∈ all_versions -> catalog d = expected v -> migrate m (at_revision v, d) = Some (inr tt, (n', d')) ->
  exists v', version_move m v = Some v' /\ at_revision v' = n' /\ catalog d' = expected v'.
Proof.
  intros Hv Hc Hm. pose proof (revision_bound _ _ _ _ Hm) as Hb.
  destruct (migrate_script _ _ _ _ _ Hm) as [Hr Hn]. apply run_ddl in Hr. rewrite Hc in Hr.
  pose proof (script_spec m v Hv) as Hs. destruct (version_move m v) as [v'|] eqn:Hv'.
  - exists v'. split; [done|]. rewrite Hs in Hr. simplify_eq. split; [|congruence].
    apply version_at in Hv'. destruct m; lia.
  - destruct Hs as [(-> & H5 & Hd)|[(-> & H6)|(-> & H0)]]; [|lia|lia].
    rewrite H5, Hd in Hr. done.
Qed.

(** The last revision cannot be applied over the columns its downgrade left. *)
Lemma upgrade_again_refused d :
  catalog d = expected {| at_revision := 5; columns_left := true |} ->
  exists e d', migrate Up (5, d) = Some (inl e, (5, d')).
Proof.
  intros Hc. unfold migrate. cbn [revisions lookup list_lookup mbind option_bind].
  destruct (run_script (upgrade tool_call_agent_attribution) d) as [[e|[]] d'] eqn:Hr; [by eexists _, _|].
  apply run_ddl in Hr. rewrite Hc in Hr. exfalso. revert Hr.
  replace (ddl_all _ _) with (@None Catalog); [done|]. vm_compute. reflexivity.
Qed.

Lemma head_has_no_left_columns v : v ∈ all_versions -> at_revision v = 6 -> columns_left v = false.
Proof.
  unfold all_versions. intros Hv H6.
  repeat (apply elem_of_cons in Hv as [->|Hv]; [done|]). by apply not_elem_of_nil in Hv.
Qed.

Lemma head_tables v : v ∈ all_versions -> at_revision v = 6 -> cat_tables (expected v) = target_metadata.
Proof.
  intros Hv H6. pose proof (head_has_no_left_columns v Hv H6) as Hl. destruct v as [n l]. simpl in *. subst.
  vm_compute. reflexivity.
Qed.

(** ** Rows *)

Fixpoint rows_all (ss : list Stmt) (r : string -> list Row) : string -> list Row :=
  match ss with [] => r | s :: ss => rows_all ss (rows_after s r) end.

Fixpoint copies_all (ss : list Stmt) (r : string -> list Row) : Prop :=
  match ss with [] => True | s :: ss => copies s r /\ copies_all ss (rows_after s r) end.

Definition same_rows (r r' : string -> list Row) : Prop := forall t, r t ≡ₚ r' t.

Lemma rows_after_proper s r r' : same_rows r r' -> same_rows (rows_after s r) (rows_after s r').
Proof.
  intros Hr t. destruct s; simpl; repeat case_bool_decide; try done; try apply Hr;
    by rewrite ?(Hr _), ?(Hr into).
Qed.

Lemma rows_all_proper ss r r' : same_rows r r' -> same_rows (rows_all ss r) (rows_all ss r').
Proof. revert r r'. induction ss as [|s ss IH]; simpl; intros r r' Hr; [done|]. by apply IH, rows_after_proper. Qed.

Lemma copies_proper s r r' : same_rows r r' -> copies s r -> copies s r'.
Proof.
  intros Hr. destruct s; simpl; try done. intros [Hi Hk]. split.
  - apply Permutation_nil_r. rewrite <- Hi. symmetry. apply Hr.
  - by rewrite <- (Hr from).
Qed.

Lemma copies_all_proper ss r r' : same_rows r r' -> copies_all ss r -> copies_all ss r'.
Proof.
  revert r r'. induction ss as [|s ss IH]; simpl; intros r r' Hr; [done|]. intros [Hs Hss]. split.
  - by apply (copies_proper s r).
  - apply (IH (rows_after s r)); [|done]. by apply rows_after_proper.
Qed.

Lemma run_rows ss d d' :
  run_script ss d = (inr tt, d') -> copies_all ss (rows d) -> same_rows (rows d') (rows_all ss (rows d)).
Proof.
  revert d. induction ss as [|s ss IH]; simpl; intros d; [by intros [= ->] _ t|].
  destruct (sql s d) as [e|d1] eqn:Hs; [done|]. intros Hr [Hc Hcs].
  assert (Hd1 : same_rows (rows d1) (rows_after s (rows d))) by (intros t; by apply sql_rows).
  assert (Hd1' : same_rows (rows_after s (rows d)) (rows d1)) by (intros t; symmetry; apply Hd1).
  intros t. rewrite (IH d1 Hr (copies_all_proper _ _ _ Hd1' Hcs) t). by apply rows_all_proper.
Qed.

(** Copying every column of a row copies the row. *)
Lemma project_id cols (r : Row) : dom r ⊆ list_to_set cols -> project cols r = r.
Proof.
  intros Hd. apply map_filter_id. intros c x Hx. apply elem_of_dom_2 in Hx. set_solver.
Qed.

Lemma connections_copied d :
  cat_tables (catalog d) !! "connections" = Some connections_cols ->
  map (project connection_columns) (rows d "connections") = rows d "connections".
Proof.
  intros Hc. rewrite <- (map_id (rows d "connections")) at 2. apply map_ext_in. intros row Hin.
  apply project_id. apply (rows_columns d "connections" connections_cols); [done|by apply list_elem_of_In].
Qed.

Lemma connections_of v :
  v ∈ all_versions -> 0 < at_revision v -> cat_tables (expected v) !! "connections" = Some connections_cols.
Proof.
  unfold all_versions. intros Hv Hp.
  repeat (apply elem_of_cons in Hv as [->|Hv]; [first [done|vm_compute in Hp; lia|vm_compute; reflexivity]|]).
  by apply not_elem_of_nil in Hv.
Qed.

Definition known_tables (v : Version) : list string := map fst (map_to_list (cat_tables (expected v))).

Lemma known_table v t : is_Some (cat_tables (expected v) !! t) -> t ∈ known_tables v.
Proof.
  intros [cols Ht]. unfold known_tables. apply list_elem_of_fmap. exists (t, cols).
  split; [done|]. by apply elem_of_map_to_list.
Qed.

(** Case analysis on which of the tables of a concrete version it is. *)
Ltac table_cases H :=
  vm_compute in H;
  repeat (apply elem_of_cons in H as [->|H]); try solve [destruct (not_elem_of_nil _ H)].

Ltac decide_names :=
  repeat first [rewrite bool_decide_true by (by idtac) | rewrite bool_decide_false by (by intros [? ?] || done)].

(** An upgrade keeps every row of every table there was; the columns the last
    one adds are NULL. *)
Lemma upgrade_keeps_rows v d n' d' t :
  v ∈ all_versions -> catalog d = expected v -> migrate Up (at_revision v, d) = Some (inr tt, (n', d')) ->
  is_Some (cat_tables (expected v) !! t) ->
  rows d' t ≡ₚ rows d t.
Proof.
  intros Hv Hc Hm Ht. pose proof (revision_bound _ _ _ _ Hm) as Hb.
  destruct (migrate_script _ _ _ _ _ Hm) as [Hr ->].
  assert (Hcopy : copies_all (script_of Up (at_revision v)) (rows d)).
  { destruct (at_revision v) as [|[|[|[|[|[|n]]]]]]; simpl; tauto. }
  rewrite (run_rows _ _ _ Hr Hcopy t). clear Hr Hcopy Hm.
  pose proof (connections_of v Hv) as Hconn. rewrite <- Hc in Hconn.
  apply known_table in Ht. clear Hc. unfold all_versions in Hv.
  repeat (apply elem_of_cons in Hv as [->|Hv]; [table_cases Ht|]); try solve [destruct (not_elem_of_nil _ Hv)].
  all: simpl; decide_names; try done.
  all: by rewrite (connections_copied d) by (apply Hconn; simpl; lia).
Qed.

(** A downgrade keeps every row of every table that stays, when the rows of
    [connections] are told apart by their key. *)
Lemma downgrade_keeps_rows v v' d n' d' t :
  v ∈ all_versions -> catalog d = expected v -> migrate Down (at_revision v, d) = Some (inr tt, (n', d')) ->
  version_move Down v = Some v' -> is_Some (cat_tables (expected v') !! t) ->
  (n' = 2 -> NoDup (map (fun row => row !! "sandbox_id") (rows d "connections"))) ->
  rows d' t ≡ₚ rows d t.
Proof.
  intros Hv Hc Hm Hv' Ht Hkeys. pose proof (revision_bound _ _ _ _ Hm) as Hb.
  destruct (migrate_script _ _ _ _ _ Hm) as [Hr Hn].
  assert (Hcopy : copies_all (script_of Down (at_revision v)) (rows d)).
  { rewrite Hn in *. destruct n' as [|[|[|[|[|[|n]]]]]]; simpl; tauto. }
  rewrite (run_rows _ _ _ Hr Hcopy t). clear Hr Hcopy Hm Hkeys.
  pose proof (connections_of v Hv) as Hconn. rewrite <- Hc in Hconn.
  apply known_table in Ht. clear Hc. unfold all_versions in Hv.
  repeat (apply elem_of_cons in Hv as [->|Hv]; [simpl in Hv'; simplify_eq; table_cases Ht|]);
    try solve [destruct (not_elem_of_nil _ Hv)].
  all: simpl; decide_names; try done.
  all: by rewrite (connections_copied d) by (apply Hconn; simpl; lia).
Qed.
End theorems.

(** ** The full-text indexes *)

Section index.
Context {I : Type} `{FtsIndex I}.

(** The triggers a full-text table needs. *)
Definition kept_by_triggers (c : Catalog) (table f : string) (cols : list string) : Prop :=
  map tg_body (triggers_of c table AfterInsert) = [[FtsAddNew f cols]] /\
  map tg_body (triggers_of c table AfterDelete) = [[FtsDropOld f cols]] /\
  map tg_body (triggers_of c table AfterUpdate) = [[FtsDropOld f cols; FtsAddNew f cols]].

Lemma fire_one c table ev body r old new ix :
  map tg_body (triggers_of c table ev) = [body] ->
  fire c table ev r old new ix = run_body r old new body ix.
Proof.
  unfold fire. destruct (triggers_of c table ev) as [|t [|t' ts]]; simpl; [done| |done]. by intros [= ->].
Qed.

Lemma index_step c table f cols s st st' :
  kept_by_triggers c table f cols -> in_sync f cols st -> row_step c table s st = Some st' -> in_sync f cols st'.
Proof.
  intros (Hi & Hd & Hu). destruct st as [content ix], s as [r row|r|r row]; unfold in_sync; simpl;
    intros Hs; destruct (content !! r) as [old|] eqn:Hr; simpl; try done; intros [= <-]; simpl.
  - rewrite (fire_one _ _ _ _ _ _ _ _ Hi). simpl. rewrite bool_decide_true by done.
    rewrite entries_add; [by rewrite Hs, fmap_insert|]. by rewrite Hs, lookup_fmap, Hr.
  - rewrite (fire_one _ _ _ _ _ _ _ _ Hd). simpl. rewrite bool_decide_true by done.
    rewrite entries_drop; [by rewrite Hs, fmap_delete|]. by rewrite Hs, lookup_fmap, Hr.
  - rewrite (fire_one _ _ _ _ _ _ _ _ Hu). simpl. rewrite !bool_decide_true by done.
    assert (Hold : entries (ix f) !! r = Some (values cols old)) by by rewrite Hs, lookup_fmap, Hr.
    rewrite entries_add by (rewrite entries_drop by done; apply lookup_delete_eq).
    rewrite entries_drop by done. rewrite insert_delete_eq. by rewrite Hs, fmap_insert.
Qed.

(** The index of a full-text table of the schema, as its table and columns. *)
Definition indexed (v : Version) (f table : string) (cols : list string) : Prop :=
  cat_fts (expected v) !! f = Some (cols, table).

Lemma index_is_kept v f table cols :
  v ∈ all_versions -> indexed v f table cols -> at_revision v ≠ 1 -> kept_by_triggers (expected v) table f cols.
Proof.
  intros Hv Hf Hn.
  assert (Hin : (f, (cols, table)) ∈ map_to_list (cat_fts (expected v))) by by apply elem_of_map_to_list.
  clear Hf. unfold all_versions in Hv.
  repeat (apply elem_of_cons in Hv as [->|Hv]);
    [vm_compute in Hin; repeat (apply elem_of_cons in Hin as [Hin|Hin];
      [injection Hin as -> -> ->; first [by destruct Hn|by vm_compute]|]);
     solve [destruct (not_elem_of_nil _ Hin)] ..|destruct (not_elem_of_nil _ Hv)].
Qed.

(** The full-text tables a trigger writes to. *)
Definition writes_fts (t : Trigger) : list string :=
  map (fun s => match s with FtsAddNew f _ | FtsDropOld f _ => f end) (tg_body t).

Lemma body_other f body r old new ix :
  f ∉ map (fun s => match s with FtsAddNew f _ | FtsDropOld f _ => f end) body ->
  run_body r old new body ix f = ix f.
Proof.
  unfold run_body. revert ix. induction body as [|s body IH]; intros ix Hf; [done|]. cbn [map] in Hf.
  apply not_elem_of_cons in Hf as [Hs Hf]. cbn [foldl]. rewrite IH by done.
  destruct s; simpl; by rewrite bool_decide_false.
Qed.

Lemma fire_other c table ev r old new ix f :
  (forall t, t ∈ map snd (map_to_list (cat_triggers c)) -> tg_table t = table -> f ∉ writes_fts t) ->
  fire c table ev r old new ix f = ix f.
Proof.
  intros Hc. unfold fire. assert (Ht : forall t, t ∈ triggers_of c table ev -> f ∉ writes_fts t).
  { intros t Ht. apply list_elem_of_filter in Ht as [[Ht _] Hin]. by apply Hc. }
  clear Hc. revert ix. induction (triggers_of c table ev) as [|t ts IH]; intros ix; [done|]. cbn [foldl].
  rewrite IH by (intros t' Ht'; apply Ht; by right). apply body_other, Ht. by left.
Qed.

(** A write on one table leaves the indexes of the others alone. *)
Lemma index_step_other c table s f st st' :
  (forall t, t ∈ map snd (map_to_list (cat_triggers c)) -> tg_table t = table -> f ∉ writes_fts t) ->
  row_step c table s st = Some st' -> st'.2 f = st.2 f.
Proof.
  intros Hc. destruct st as [content ix], s as [r row|r|r row]; simpl; destruct (content !! r); simpl;
    try done; intros [= <-]; simpl; by apply fire_other.
Qed.

Lemma index_is_apart v f table cols t :
  v ∈ all_versions -> indexed v f table cols -> t ∈ map snd (map_to_list (cat_triggers (expected v))) ->
  tg_table t ≠ table -> f ∉ writes_fts t.
Proof.
  intros Hv Hf Ht Hne.
  assert (Hall : forallb (fun v => forallb (fun x => forallb (fun t =>
      bool_decide (tg_table t = x.2.2) || bool_decide (x.1 ∉ writes_fts t))
      (map snd (map_to_list (cat_triggers (expected v))))) (map_to_list (cat_fts (expected v))))
    all_versions = true) by (vm_compute; reflexivity).
  rewrite forallb_forall in Hall. apply list_elem_of_In in Hv. specialize (Hall v Hv).
  rewrite forallb_forall in Hall. specialize (Hall (f, (cols, table))).
  assert (Hin : In (f, (cols, table)) (map_to_list (cat_fts (expected v))))
    by (apply list_elem_of_In; by apply elem_of_map_to_list).
  apply Hall in Hin. rewrite forallb_forall in Hin. apply list_elem_of_In, Hin in Ht.
  apply orb_prop in Ht as [Ht|Ht]; by apply bool_decide_eq_true in Ht.
Qed.

(** At the first revision nothing keeps it: it does not change. *)
Lemma first_revision_index_is_dead s st st' :
  row_step (schema 1) "messages" s st = Some st' -> st'.2 = st.2.
Proof.
  assert (Ht : forall ev, triggers_of (schema 1) "messages" ev = []) by (intros []; vm_compute; done).
  destruct st as [content ix], s as [r row|r|r row]; simpl; destruct (content !! r); simpl; try done;
    intros [= <-]; simpl; unfold fire; by rewrite Ht.
Qed.
End index.

(** *** What the scripts do to the indexes

    Read off a script: the full-text tables that are in step with their
    content table after it, and the tables that are empty. *)
Record Known := { synced : list string; emptied : list string }.

Definition content_table (c : Catalog) (f : string) : option string := snd <$> cat_fts c !! f.

Definition know (s : Stmt) (c : Catalog) (k : Known) : Known :=
  match s with
  | CreateTable n _ =>
      {| synced := filter (fun f => content_table c f ≠ Some n) (synced k); emptied := n :: emptied k |}
  | DropTable n | DropTableIfExists n =>
      {| synced := filter (fun f => content_table c f ≠ Some n) (synced k); emptied := emptied k |}
  | CreateFts f _ t =>
      {| synced := if bool_decide (t ∈ emptied k) then f :: synced k else filter (fun g => g ≠ f) (synced k);
         emptied := emptied k |}
  | RenameTable old new =>
      {| synced := filter (fun f => content_table c f ≠ Some old /\ content_table c f ≠ Some new) (synced k);
         emptied := filter (fun t => t ≠ old /\ t ≠ new) (emptied k) |}
  | FtsRebuild f => {| synced := f :: synced k; emptied := emptied k |}
  | InsertSelect into _ _ | InsertLatest into _ _ _ _ =>
      {| synced := if fires s c then [] else filter (fun f => content_table c f ≠ Some into) (synced k);
         emptied := filter (fun t => t ≠ into) (emptied k) |}
  | _ => k
  end.

Fixpoint know_all (ss : list Stmt) (c : Catalog) (k : Known) : Known :=
  match ss with
  | [] => k
  | s :: ss => match ddl s c with Some c' => know_all ss c' (know s c k) | None => k end
  end.

(** The full-text tables that are in step at a version. *)
Definition in_step (v : Version) : list string :=
  if (1 <? at_revision v)%nat then map fst (map_to_list (cat_fts (expected v))) else [].

(** Every script keeps the promise of the version it leads to, from that of
    the version it starts at. *)
Lemma scripts_keep_step m v v' :
  v ∈ all_versions -> version_move m v = Some v' ->
  in_step v' ⊆ synced (know_all (script_of m (at_revision v)) (expected v) {| synced := in_step v; emptied := [] |}).
Proof.
  assert (Hall : forallb (fun v => forallb (fun m =>
    match version_move m v with
    | Some v' => forallb (fun f => bool_decide (f ∈ synced (know_all (script_of m (at_revision v)) (expected v)
                                     {| synced := in_step v; emptied := [] |}))) (in_step v')
    | None => true
    end) [Up; Down]) all_versions = true) by (vm_compute; reflexivity).
  intros Hv Hm f Hf. rewrite forallb_forall in Hall. apply list_elem_of_In in Hv. specialize (Hall v Hv).
  rewrite forallb_forall in Hall. specialize (Hall m). rewrite Hm in Hall.
  assert (Hin : In m [Up; Down]) by (destruct m; simpl; tauto). apply Hall in Hin.
  rewrite forallb_forall in Hin. apply list_elem_of_In, Hin in Hf. by apply bool_decide_eq_true in Hf.
Qed.

Section in_step.
Context {Db I : Type} {HI : FtsIndex I} {HS : Sqlite Db I}.

(** The full-text table [f] holds the columns of every row of its content
    table, and no others. *)
Definition index_in_sync (d : Db) (f : string) : Prop :=
  forall cols table, cat_fts (catalog d) !! f = Some (cols, table) ->
    entries (index d f) = values cols <$> content d table.

Definition knows (d : Db) (k : Known) : Prop :=
  (forall f, f ∈ synced k -> index_in_sync d f) /\ (forall t, t ∈ emptied k -> content d t = ∅).

Lemma no_rows (c : gmap Z Row) : rows_of c ≡ₚ [] -> c = ∅.
Proof.
  intros Hc. apply Permutation_nil_r in Hc. unfold rows_of in Hc. apply map_eq_nil in Hc.
  by apply map_to_list_empty_iff.
Qed.

(** An index whose table and columns a statement leaves alone. *)
Lemma sync_kept s d d' f :
  sql s d = inr d' -> fires s (catalog d) = false ->
  cat_fts (catalog d') !! f = cat_fts (catalog d) !! f ->
  (forall t, content_table (catalog d) f = Some t -> touches s t = false) ->
  entries_after s (catalog d) (content d) (fun f => entries (index d f)) f = entries (index d f) ->
  index_in_sync d f -> index_in_sync d' f.
Proof.
  intros Hs Hn Hc Ht He Hf cols table Hfts. rewrite Hc in Hfts.
  rewrite (sql_index s d d' f Hs Hn), He, (Hf _ _ Hfts).
  rewrite (sql_content s d d' table Hs); [done|]. apply Ht. unfold content_table. by rewrite Hfts.
Qed.

Lemma ddl_fts s c c' f :
  ddl s c = Some c' ->
  match s with
  | CreateFts g cols t => cat_fts c !! g = None /\ cat_fts c' !! f = <[g := (cols, t)]> (cat_fts c) !! f
  | DropTable g | DropTableIfExists g => cat_fts c' !! f = delete g (cat_fts c) !! f
  | _ => cat_fts c' !! f = cat_fts c !! f
  end.
Proof.
  intros Hd. destruct s; simpl in Hd; try (by repeat (case_match; simplify_eq/=));
    try (by injection Hd as <-).
  - destruct (name_taken c name) eqn:Ht; [done|]. injection Hd as <-. simpl. split; [|done].
    unfold name_taken in Ht. apply orb_false_iff in Ht as [[_ Ht]%orb_false_iff _].
    apply bool_decide_eq_false in Ht. by apply eq_None_not_Some.
  - destruct (cat_fts c !! fts); [|done]. by injection Hd as <-.
Qed.

Lemma sync_dropped s d d' n f :
  sql s d = inr d' -> fires s (catalog d) = false -> s = DropTable n \/ s = DropTableIfExists n ->
  content_table (catalog d) f ≠ Some n -> index_in_sync d f -> index_in_sync d' f.
Proof.
  intros Hs Hn Hds Ht Hk. pose proof (ddl_fts s _ _ f (sql_catalog _ _ _ Hs)) as Hfts.
  destruct (decide (f = n)) as [->|Hne].
  - intros cols table Hc. destruct Hds as [-> | ->]; by rewrite Hfts, lookup_delete_eq in Hc.
  - destruct Hds as [-> | ->]; (apply (sync_kept _ d d' f Hs Hn); [by rewrite Hfts, lookup_delete_ne| |done|done]);
      intros t Hc; simpl; apply bool_decide_false; congruence.
Qed.

Lemma know_emptied s d d' k t :
  sql s d = inr d' -> knows d k -> t ∈ emptied (know s (catalog d) k) -> content d' t = ∅.
Proof.
  intros Hs [_ Hk] Ht. destruct (touches s t) eqn:Hts.
  - destruct s; simpl in Hts; try done; try apply bool_decide_eq_true in Hts; subst.
    1-3: apply no_rows; rewrite (sql_rows _ _ _ _ Hs) by done; simpl; by rewrite bool_decide_true.
    all: simpl in Ht; apply list_elem_of_filter in Ht as [Ht _]; try done.
    apply orb_prop in Hts as [Hts|Hts]; apply bool_decide_eq_true in Hts; by destruct Ht.
  - rewrite (sql_content s d d' t Hs Hts). apply Hk. destruct s; simpl in Ht, Hts; try done;
      try (apply list_elem_of_filter in Ht as [_ Ht]; done).
    apply elem_of_cons in Ht as [->|Ht]; [|done]. by rewrite bool_decide_true in Hts.
Qed.

Lemma know_sound s d d' k : sql s d = inr d' -> knows d k -> knows d' (know s (catalog d) k).
Proof.
  intros Hs Hk. split; [|intros t; by apply (know_emptied s d d' k t)].
  destruct Hk as [Hk He]. intros f Hf.
  pose proof (ddl_fts s _ _ f (sql_catalog _ _ _ Hs)) as Hfts.
  destruct (fires s (catalog d)) eqn:Hn.
  { destruct s; try done; cbn [know synced] in Hf; rewrite Hn in Hf; by apply not_elem_of_nil in Hf. }
  destruct s; cbn [know synced] in Hf; rewrite ?Hn in Hf.
  - apply list_elem_of_filter in Hf as [Ht Hf]. apply (sync_kept _ d d' f Hs Hn Hfts); [|done|by apply Hk].
    intros t Hc. simpl. apply bool_decide_false. congruence.
  - apply (sync_kept _ d d' f Hs Hn Hfts); [done|done|by apply Hk].
  - destruct Hfts as [Hnone Hfts]. destruct (decide (f = name)) as [->|Hne].
    + case_bool_decide as Hemp; [|by apply list_elem_of_filter in Hf as [? _]].
      intros cols' table. rewrite Hfts, lookup_insert_eq. intros [= <- <-].
      rewrite (sql_index _ d d' name Hs Hn). simpl. rewrite bool_decide_true by done.
      rewrite (sql_content _ d d' content0 Hs eq_refl), (He _ Hemp). by rewrite fmap_empty.
    + apply (sync_kept _ d d' f Hs Hn); [by rewrite Hfts, lookup_insert_ne|done|simpl; by rewrite bool_decide_false|].
      apply Hk. case_bool_decide; [by apply elem_of_cons in Hf as [?|?]|by apply list_elem_of_filter in Hf as [_ ?]].
  - apply (sync_kept _ d d' f Hs Hn Hfts); [done|done|by apply Hk].
  - apply list_elem_of_filter in Hf as [Ht Hf]. apply (sync_dropped _ d d' name f Hs Hn); auto.
  - apply list_elem_of_filter in Hf as [Ht Hf]. apply (sync_dropped _ d d' name f Hs Hn); auto.
  - apply (sync_kept _ d d' f Hs Hn Hfts); [done|done|by apply Hk].
  - apply (sync_kept _ d d' f Hs Hn Hfts); [done|done|by apply Hk].
  - apply list_elem_of_filter in Hf as [[H1 H2] Hf]. apply (sync_kept _ d d' f Hs Hn Hfts); [|done|by apply Hk].
    intros t Hc. simpl. rewrite !bool_decide_false by congruence. done.
  - apply (sync_kept _ d d' f Hs Hn Hfts); [done|done|by apply Hk].
  - destruct (decide (f = fts)) as [->|Hne].
    + intros cols table Hc. rewrite Hfts in Hc. rewrite (sql_index _ d d' fts Hs Hn). simpl.
      rewrite Hc, bool_decide_true by done. by rewrite (sql_content _ d d' table Hs eq_refl).
    + apply elem_of_cons in Hf as [?|Hf]; [done|]. apply (sync_kept _ d d' f Hs Hn Hfts); [done| |by apply Hk].
      simpl. destruct (cat_fts (catalog d) !! fts) as [[]|]; [|done]. by rewrite bool_decide_false.
  - apply list_elem_of_filter in Hf as [Ht Hf]. apply (sync_kept _ d d' f Hs Hn Hfts); [|done|by apply Hk].
    intros t Hc. simpl. apply bool_decide_false. congruence.
  - apply list_elem_of_filter in Hf as [Ht Hf]. apply (sync_kept _ d d' f Hs Hn Hfts); [|done|by apply Hk].
    intros t Hc. simpl. apply bool_decide_false. congruence.
Qed.

Lemma script_knows ss d d' k :
  run_script ss d = (inr tt, d') -> knows d k -> knows d' (know_all ss (catalog d) k).
Proof.
  revert d k. induction ss as [|s ss IH]; simpl; intros d k; [by intros [= ->]|].
  destruct (sql s d) as [e|d1] eqn:Hs; [done|]. intros Hr Hk.
  rewrite (sql_catalog _ _ _ Hs). apply IH; [done|]. by apply know_sound.
Qed.

(** The promise of a version: its full-text tables are in step. *)
Definition keeps_step (v : Version) (d : Db) : Prop := forall f, f ∈ in_step v -> index_in_sync d f.

Lemma move_keeps_step m v v' d n' d' :
  v ∈ all_versions -> catalog d = expected v -> version_move m v = Some v' ->
  migrate m (at_revision v, d) = Some (inr tt, (n', d')) -> keeps_step v d -> keeps_step v' d'.
Proof.
  intros Hv Hc Hm Hstep Hk. destruct (migrate_script _ _ _ _ _ Hstep) as [Hr _].
  apply (script_knows _ _ _ {| synced := in_step v; emptied := [] |}) in Hr as [Hs _].
  - rewrite Hc in Hs. intros f Hf. by apply Hs, (scripts_keep_step m v v').
  - split; [exact Hk|]. intros t Ht. by apply not_elem_of_nil in Ht.
Qed.

Lemma in_step_indexed v f :
  f ∈ in_step v -> 1 < at_revision v /\ exists table cols, indexed v f table cols.
Proof.
  unfold in_step, indexed. destruct (Nat.ltb_spec 1 (at_revision v)); [|by intros ?%not_elem_of_nil].
  intros Hf. split; [done|]. apply list_elem_of_fmap in Hf as ([g [cols table]] & -> & Hf).
  apply elem_of_map_to_list in Hf. by eexists _, _.
Qed.

Lemma write_keeps_step v d t s d' :
  v ∈ all_versions -> catalog d = expected v -> write t s d = Some d' -> keeps_step v d -> keeps_step v d'.
Proof.
  intros Hv Hc Hw Hk f Hf cols table Hfts. rewrite (write_catalog _ _ _ _ Hw), Hc in Hfts.
  destruct (in_step_indexed v f Hf) as [Hn _].
  destruct (write_row _ _ _ _ Hw) as (ix & Hrow & Hix). rewrite Hc in Hrow. rewrite Hix.
  specialize (Hk f Hf cols table ltac:(by rewrite Hc)).
  destruct (decide (table = t)) as [->|Hne].
  - apply (index_step (expected v) t f cols s (content d t, index d) (content d' t, ix)); [|exact Hk|exact Hrow].
    apply index_is_kept; [done|done|lia].
  - rewrite (write_other _ _ _ _ _ Hw Hne). rewrite <- Hk.
    pose proof (index_step_other (expected v) t s f (content d t, index d) (content d' t, ix)) as Hother.
    simpl in Hother. rewrite Hother; [done| |done]. intros tr Htr <-.
    by apply (index_is_apart v f table cols tr).
Qed.

Lemma history_versions s es s' v :
  history s es s' -> v ∈ all_versions -> at_revision v = s.1 -> catalog s.2 = expected v -> keeps_step v s.2 ->
  exists v', version_moves (moves_of es) v = Some v' /\ v' ∈ all_versions /\ at_revision v' = s'.1 /\
    catalog s'.2 = expected v' /\ keeps_step v' s'.2.
Proof.
  intros Hm. revert v. induction Hm as [s|[n d] m [n1 d1] es s'' Hstep _ IH|n d t rs d' es s'' Hw _ IH];
    intros v Hv Hn Hc Hk; simpl in *.
  - eauto 10.
  - subst n. destruct (migrate_version _ _ _ _ _ Hv Hc Hstep) as (v1 & Hv1 & Hn1 & Hc1).
    unfold moves_of. cbn [omap list_omap]. fold (moves_of es).
    rewrite Hv1. simpl. apply IH; [by apply (version_closed m v)|done..|].
    by apply (move_keeps_step m v v1 d n1).
  - apply IH; [done..| |by apply (write_keeps_step v d t rs)]. by rewrite (write_catalog _ _ _ _ Hw).
Qed.
End in_step.

(** ** A sample database *)

(** Every row has only columns of its table. *)
Definition well_formed (c : Catalog) (r : string -> list Row) : Prop :=
  forall t row, row ∈ r t ->
    exists cols, cat_tables c !! t = Some cols /\ dom row ⊆ (list_to_set (map col_name cols) : gset string).

Lemma has_columns_spec c t cols :
  has_columns c t cols = true ->
  exists cs, cat_tables c !! t = Some cs /\ forall n, n ∈ cols -> n ∈ map col_name cs.
Proof.
  unfold has_columns. destruct (cat_tables c !! t) as [cs|]; [|done]. intros Hall. exists cs. split; [done|].
  intros n Hn. rewrite forallb_forall in Hall. apply list_elem_of_In, Hall in Hn. by apply bool_decide_eq_true in Hn.
Qed.

Lemma inserted_well_formed c r into cols from t row :
  has_columns c into cols = true -> well_formed c r ->
  row ∈ (if bool_decide (t = into) then r into ++ map (project cols) (r from) else r t) ->
  exists cs, cat_tables c !! t = Some cs /\ dom row ⊆ (list_to_set (map col_name cs) : gset string).
Proof.
  intros Hc Hw. case_bool_decide as Ht; [subst t|apply Hw].
  intros [Hin|Hin]%elem_of_app; [by apply Hw|].
  apply list_elem_of_fmap in Hin as (row' & -> & _).
  destruct (has_columns_spec _ _ _ Hc) as (cs & Hcs & Hall). exists cs. split; [done|].
  intros n Hn. apply elem_of_dom in Hn as [x [_ Hn]%map_lookup_filter_Some].
  by apply elem_of_list_to_set, Hall.
Qed.

Lemma ddl_well_formed s c c' r : ddl s c = Some c' -> well_formed c r -> well_formed c' (rows_after s r).
Proof.
  intros Hd Hw. destruct s; simpl in Hd.
  11: by simplify_option_eq.
  11-12: destruct (has_columns c into cols && has_columns c from cols) eqn:Hb; [|done];
         apply andb_prop in Hb as [Hb _]; simplify_eq; intros tb row; by apply inserted_well_formed.
  all: intros tb row; pose proof (Hw tb row) as Ht; simpl;
    repeat (case_match; try done); simplify_eq; simpl; repeat case_bool_decide; subst;
    intros Hin; try (by apply not_elem_of_nil in Hin); try specialize (Ht Hin) as (cs & Hcs & Hsub);
    simplify_eq/=; try done.
  all: try (exists cs; split; [|done]; simplify_map_eq; done).
  - apply Hw in Hin as (cs & Hcs & Hsub). exists l. rewrite lookup_insert_eq. split; [done|]. by simplify_eq.
  - destruct (decide (tb = table)) as [->|Hne].
    + eexists. rewrite lookup_insert_eq. split; [done|]. rewrite map_app, list_to_set_app. set_solver.
    + exists cs. by rewrite lookup_insert_ne.
Qed.

(** The rows of a database by rowid; inserted rows get a fresh one. *)
Definition append (c : gmap Z Row) (rs : list Row) : gmap Z Row :=
  foldl (fun c row => <[fresh (dom c) := row]> c) c rs.

Lemma rows_insert (c : gmap Z Row) i row : c !! i = None -> rows_of (<[i := row]> c) ≡ₚ row :: rows_of c.
Proof. intros Hi. unfold rows_of. by rewrite (map_to_list_insert c i row Hi). Qed.

Lemma rows_append c rs : rows_of (append c rs) ≡ₚ rows_of c ++ rs.
Proof.
  revert c. induction rs as [|row rs IH]; intros c; simpl; [by rewrite app_nil_r|].
  unfold append in *. simpl. rewrite IH, rows_insert by (apply not_elem_of_dom, is_fresh).
  simpl. by rewrite <- Permutation_middle.
Qed.

Definition content_after (s : Stmt) (r : string -> gmap Z Row) (t : string) : gmap Z Row :=
  match s with
  | CreateTable n _ | DropTable n | DropTableIfExists n => if bool_decide (t = n) then ∅ else r t
  | RenameTable old new =>
      if bool_decide (t = new) then r old else if bool_decide (t = old) then ∅ else r t
  | InsertSelect into cols from | InsertLatest into _ _ cols from =>
      if bool_decide (t = into) then append (r into) (map (project cols) (rows_of (r from))) else r t
  | _ => r t
  end.

Lemma content_after_rows s r t : rows_of (content_after s r t) ≡ₚ rows_after s (fun t => rows_of (r t)) t.
Proof. destruct s; simpl; repeat case_bool_decide; try done; apply rows_append. Qed.

Lemma content_after_kept s r t : touches s t = false -> content_after s r t = r t.
Proof.
  destruct s; simpl; try done; intros Ht; try by rewrite Ht.
  apply orb_false_iff in Ht as [H1 H2]. by rewrite H1, H2.
Qed.

Lemma well_formed_proper c r r' : (forall t, r t ≡ₚ r' t) -> well_formed c r -> well_formed c r'.
Proof. intros Hr Hw t row Hin. apply (Hw t). by rewrite Hr. Qed.

Lemma content_well_formed s c c' r :
  ddl s c = Some c' -> well_formed c (fun t => rows_of (r t)) ->
  well_formed c' (fun t => rows_of (content_after s r t)).
Proof.
  intros Hd Hw. apply (well_formed_proper _ (rows_after s (fun t => rows_of (r t)))).
  - intros t. symmetry. apply content_after_rows.
  - by apply (ddl_well_formed s c).
Qed.

Record Sample := {
  sample_catalog : Catalog;
  sample_content : string -> gmap Z Row;
  sample_index : string -> gmap Z (list (option SqlValue));
  sample_well_formed : well_formed sample_catalog (fun t => rows_of (sample_content t))
}.

Definition accept {A} (o : option A) (f : forall x, o = Some x -> Sample) : option Sample :=
  match o as o' return (forall x, o' = Some x -> Sample) -> option Sample with
  | Some x => fun f => Some (f x eq_refl)
  | None => fun _ => None
  end f.

Lemma accept_spec {A} (o : option A) f d' : accept o f = Some d' -> exists x Hx, o = Some x /\ d' = f x Hx.
Proof. destruct o as [x|]; simpl; [|done]. intros [= <-]. eauto. Qed.

(** It accepts what [ddl] accepts. *)
Definition sample_sql (s : Stmt) (d : Sample) : string + Sample :=
  match accept (ddl s (sample_catalog d)) (fun c Hc =>
    {| sample_catalog := c; sample_content := content_after s (sample_content d);
       sample_index := entries_after s (sample_catalog d) (sample_content d) (sample_index d);
       sample_well_formed := content_well_formed _ _ _ _ Hc (sample_well_formed d) |}) with
  | Some d => inr d
  | None => inl "refused"
  end.

Lemma sample_sql_spec s d d' :
  sample_sql s d = inr d' ->
  ddl s (sample_catalog d) = Some (sample_catalog d') /\ sample_content d' = content_after s (sample_content d) /\
  sample_index d' = entries_after s (sample_catalog d) (sample_content d) (sample_index d).
Proof.
  unfold sample_sql. destruct (accept _ _) as [d1|] eqn:Ha; [|done]. intros [= <-].
  by apply accept_spec in Ha as (c & Hc & Ho & ->).
Qed.

(** A map is an index. *)
#[export] Instance map_index : FtsIndex (gmap Z (list (option SqlValue))).
Proof.
  refine {| entries := Datatypes.id; fts_add := fun r vs i => <[r := vs]> i; fts_drop := fun r _ i => delete r i |}; done.
Defined.

(** It accepts a row of the columns of its table. *)
Definition row_fits (c : Catalog) (t : string) (s : RowStep) : bool :=
  match cat_tables c !! t with
  | Some cols =>
      match s with
      | RInsert _ row | RUpdate _ row => bool_decide (dom row ⊆ (list_to_set (map col_name cols) : gset string))
      | RDelete _ => true
      end
  | None => false
  end.

Lemma write_well_formed c t s r ix st :
  row_fits c t s = true -> row_step c t s (r t, ix) = Some st -> well_formed c (fun t => rows_of (r t)) ->
  well_formed c (fun t' => rows_of (if bool_decide (t' = t) then st.1 else r t')).
Proof.
  unfold row_fits. destruct (cat_tables c !! t) as [cols|] eqn:Ht; [|done]. intros Hf Hs Hw t' row Hin.
  case_bool_decide; [subst t'|by apply Hw]. exists cols. split; [done|].
  assert (Hold : forall r0 i row, r0 = r t -> r0 !! i = Some row -> dom row ⊆ (list_to_set (map col_name cols) : gset string)).
  { intros r0 i row' -> Hi. destruct (Hw t row') as (cs & Hcs & Hsub); [|by simplify_eq].
    apply list_elem_of_fmap. exists (i, row'). split; [done|]. by apply elem_of_map_to_list. }
  apply list_elem_of_fmap in Hin as ([i row'] & -> & Hi). apply elem_of_map_to_list in Hi. simpl in *.
  destruct s as [j new|j|j new]; simpl in Hs; destruct (r t !! j) eqn:Hj; simpl in Hs; try done;
    injection Hs as <-; simpl in Hi.
  - apply lookup_insert_Some in Hi as [[_ <-]|[_ Hi]]; [by apply bool_decide_eq_true in Hf|by eapply Hold].
  - apply lookup_delete_Some in Hi as [_ Hi]. by eapply Hold.
  - apply lookup_insert_Some in Hi as [[_ <-]|[_ Hi]]; [by apply bool_decide_eq_true in Hf|by eapply Hold].
Qed.

Definition sample_write (t : string) (s : RowStep) (d : Sample) : option Sample :=
  match decide (row_fits (sample_catalog d) t s = true) with
  | left Hf =>
      accept (row_step (sample_catalog d) t s (sample_content d t, sample_index d)) (fun st Hs =>
        {| sample_catalog := sample_catalog d;
           sample_content := fun t' => if bool_decide (t' = t) then st.1 else sample_content d t';
           sample_index := st.2;
           sample_well_formed := write_well_formed _ _ _ _ _ _ Hf Hs (sample_well_formed d) |})
  | right _ => None
  end.

Lemma sample_write_spec t s d d' :
  sample_write t s d = Some d' ->
  exists st, row_step (sample_catalog d) t s (sample_content d t, sample_index d) = Some st /\
    sample_catalog d' = sample_catalog d /\ sample_index d' = st.2 /\
    forall t', sample_content d' t' = if bool_decide (t' = t) then st.1 else sample_content d t'.
Proof.
  unfold sample_write. destruct (decide _) as [Hf|]; [|done]. intros (st & Hs & Ho & ->)%accept_spec.
  by exists st.
Qed.

#[export] Instance sample_sqlite : Sqlite Sample (gmap Z (list (option SqlValue))).
Proof.
  refine {| sql := sample_sql; write := sample_write; catalog := sample_catalog; content := sample_content;
            index := sample_index |}.
  - intros s d d' Hs. by apply sample_sql_spec.
  - intros s d d' t Hs _. apply sample_sql_spec in Hs as (_ & -> & _). apply content_after_rows.
  - intros s d d' t Hs Ht. apply sample_sql_spec in Hs as (_ & -> & _). by apply content_after_kept.
  - intros s d d' f Hs _. by apply sample_sql_spec in Hs as (_ & _ & ->).
  - intros t s d d' Hw. by apply sample_write_spec in Hw as (st & _ & Hc & _).
  - intros t s d d' Hw. apply sample_write_spec in Hw as ([ct ix] & Hs & _ & Hi & Hct).
    exists ix. rewrite Hct, bool_decide_true by done. rewrite Hi. by split.
  - intros t s d d' t' Hw Hne. apply sample_write_spec in Hw as (st & _ & _ & _ & Hct).
    by rewrite Hct, bool_decide_false.
  - intros d t cols r row Hc Hin. destruct (sample_well_formed d t row) as (cs & Hcs & Hsub); [|by simplify_eq].
    apply list_elem_of_fmap. exists (r, row). split; [done|]. by apply elem_of_map_to_list.
Defined.

Lemma nothing_stored : well_formed no_schema (fun _ => rows_of ∅).
Proof. intros t row Hin. by apply not_elem_of_nil in Hin. Qed.

Definition new_sample : Sample :=
  {| sample_catalog := no_schema; sample_content := fun _ => ∅; sample_index := fun _ => ∅;
     sample_well_formed := nothing_stored |}.

Fixpoint sample_history (es : list DbEvent) (s : nat * Sample) : option (nat * Sample) :=
  match es with
  | [] => Some s
  | Migrate m :: es =>
      match migrate m s with Some (inr _, s) => sample_history es s | _ => None end
  | Write t r :: es => d ← sample_write t r s.2; sample_history es (s.1, d)
  end.

Lemma sample_is_history es s s' : sample_history es s = Some s' -> history s es s'.
Proof.
  revert s. induction es as [|[m|t r] es IH]; simpl; intros s; [intros [= ->]; constructor| |].
  - destruct (migrate m s) as [[[e|[]] s1]|] eqn:Hm; try done. intros Hs.
    by apply history_move with s1; [|apply IH].
  - destruct s as [n d]. simpl. destruct (sample_write t r d) as [d1|] eqn:Hw; [|done]. simpl. intros Hs.
    by apply history_write with d1; [|apply IH].
Qed.

(** ** Main theorem *)

(** C32: Take any history of an audit database that starts empty: upgrades and
    downgrades that succeed, with the application writing rows in between.
    Its schema is the one of a version that only records whether the last
    upgrade was undone: the tables of the last revision are those the
    application declares, a further upgrade keeps every row, and the last
    upgrade is refused exactly where its columns were left behind.  From the
    second revision on every full-text index is equal to its table: the
    scripts that create the triggers also index what was written before
    there were any. *)
Theorem migrations_follow_versions {Db I} `{Sqlite Db I} (d0 d : Db) es n :
  catalog d0 = no_schema -> history (0, d0) es (n, d) ->
  exists v, version_moves (moves_of es) {| at_revision := 0; columns_left := false |} = Some v /\
    at_revision v = n /\ catalog d = expected v /\
    (n = 6 -> cat_tables (catalog d) = target_metadata) /\
    (forall n' d' t, migrate Up (n, d) = Some (inr tt, (n', d')) ->
       is_Some (cat_tables (catalog d) !! t) -> rows d' t ≡ₚ rows d t) /\
    (n = 5 -> columns_left v = true -> exists e d', migrate Up (n, d) = Some (inl e, (n, d'))) /\
    (1 < n -> forall f table cols, cat_fts (catalog d) !! f = Some (cols, table) ->
       entries (index d f) = values cols <$> content d table).
Proof.
  intros Hempty Hm. destruct (history_versions _ _ _ {| at_revision := 0; columns_left := false |} Hm)
    as (v & Hv & Hin & Hn & Hc & Hk); [by apply list_elem_of_here|done|exact Hempty| |].
  { intros f Hf. by apply not_elem_of_nil in Hf. }
  simpl in *. exists v. rewrite Hc. split_and!; try done.
  - intros ->. apply head_tables; [done|]. by apply Hn.
  - intros n' d' t Hup. rewrite <- Hn in Hup. by apply (upgrade_keeps_rows v d n' d' t).
  - intros -> Hl. apply upgrade_again_refused. rewrite Hc. destruct v; simpl in *; by subst.
  - intros Hb f table cols Hf. apply Hk; [|by rewrite Hc]. unfold in_step.
    destruct (Nat.ltb_spec 1 (at_revision v)); [|lia]. apply list_elem_of_fmap. exists (f, (cols, table)).
    split; [done|]. by apply elem_of_map_to_list.
Qed.

(** A message is written at the first revision, before there are triggers;
    then all upgrades, two downgrades and one upgrade. *)
Definition early_message : Row := {["id" := SText "m1"; "payload" := SText "{}"]}.

Definition sample_path : list DbEvent :=
  [Migrate Up; Write "messages" (RInsert 1 early_message)] ++
  map Migrate [Up; Up; Up; Up; Up; Down; Down; Up].

Lemma migrations_follow_versions_witness :
  exists d : Sample, history (0, new_sample) sample_path (5, d) /\
    catalog d = expected {| at_revision := 5; columns_left := true |} /\
    (exists e d', migrate Up (5, d) = Some (inl e, (5, d'))) /\
    index d "messages_fts" = values ["payload"] <$> content d "messages" /\
    content d "messages" = {[1%Z := early_message]}.
Proof.
  assert (Hn : (fun s => (s.1, bool_decide (sample_content s.2 "messages" = {[1%Z := early_message]}))) <$>
    sample_history sample_path (0, new_sample) = Some (5, true)) by (vm_compute; reflexivity).
  destruct (sample_history sample_path (0, new_sample)) as [[n d]|] eqn:Hs; [|done].
  injection Hn as -> Hm%bool_decide_eq_true. apply sample_is_history in Hs. exists d.
  destruct (migrations_follow_versions new_sample d sample_path 5)
    as (v & Hv & _ & Hc & _ & _ & Hr & Hi); [reflexivity|exact Hs|].
  assert (v = {| at_revision := 5; columns_left := true |}) as ->.
  { assert (Hcomp : version_moves (moves_of sample_path) {| at_revision := 0; columns_left := false |} =
      Some {| at_revision := 5; columns_left := true |}) by (vm_compute; reflexivity). congruence. }
  split; [exact Hs|]. split; [exact Hc|]. split; [by apply Hr|]. split; [|exact Hm].
  apply (Hi ltac:(lia) "messages_fts" "messages" ["payload"]). rewrite Hc. vm_compute. reflexivity.
Defined.
