(* ===== verification/Prototypes.v ===== *)
(** * Prototypes

    The two reachability prototypes.  [prototypes/browser_sandbox_http]: a
    small HTTP server for the sandbox and the host's probe of it.
    [prototypes/nmb_sandbox_communication]: the scripts of a broker sandbox
    and a client sandbox that hand one task over the bus.

    Outside are what an HTTP request over the network gives, the verdict on the brackets of a network location, the host name and the
    clock.

    Theorems: the probe finds a server that comes up within its attempts and
    gets its message back whatever the message, and its verdict is exactly
    what the answers say; the server fetches only http and https URLs, at
    most one per request; the scripts of the bus succeed together when their
    frames arrive, end what they opened, and wait for ever when the client
    publishes before the orchestrator has subscribed. *)

From Stdlib Require Import Ascii.
From stdpp Require Import sorting.
From S2P Require Import Prelude Json Urls JsonLoads Registry Tools GitTools.
From S2P Require Import Messages Broker BrokerInv BrokerTheorems Client.

Module HttpProbe.

(** ** URLs: [urlparse], [parse_qs], [urlencode] *)

Record SplitUrl := { scheme : string; netloc : string; path : string; query : string }.

(** [urllib.parse.uses_params] *)
Definition uses_params : list string :=
  ["" ; "ftp"; "hdl"; "prospero"; "http"; "https"; "shttp"; "rtsp"; "rtspu"; "sip"; "sips";
   "mms"; "sftp"; "tel"].

(** The scheme and what follows it. *)
Definition split_scheme (url : string) : string * string :=
  match partition ":" url with
  | (String c s, Some rest) =>
      if is_letter c && all_of scheme_char s then (lower (String c s), rest) else ("", url)
  | _ => ("", url)
  end.

(** [_splitparams]: the parameters of the last segment are cut off. *)
Fixpoint cut_params (url : string) : string :=
  match url with
  | EmptyString => EmptyString
  | String c url' => if has_char "/" url' then String c (cut_params url')
                     else if Ascii.eqb c "/" then String c (until_char (is_char ";") url')
                     else until_char (is_char ";") url
  end.

Definition is_ascii (c : ascii) : bool := (N_of_ascii c <? 128)%N.

Section urlparse.
(** Whether a network location with brackets is an address and its characters
    stay apart under NFKC; otherwise [urlparse] raises a [ValueError]. *)
Context (valid_netloc : string -> bool).

Definition urlparse (url : string) : option SplitUrl :=
  let url := without_chars unsafe_byte (drop_leading control_or_space url) in
  let '(s, rest) := split_scheme url in
  let n := if startswith "//" rest
           then until_char (is_char "/?#") (String.substring 2 (String.length rest) rest) else "" in
  let rest := if startswith "//" rest
              then String.substring (2 + String.length n) (String.length rest) rest else rest in
  if negb (Bool.eqb (has_char "[" n) (has_char "]" n))
     || ((has_char "[" n || negb (all_of is_ascii n)) && negb (valid_netloc n)) then None
  else
    let rest := (partition "#" rest).1 in
    let '(p, q) := partition "?" rest in
    Some {| scheme := s; netloc := n;
            path := if bool_decide (s ∈ uses_params) then cut_params p else p;
            query := default "" q |}.
End urlparse.

(** [s.replace(old, new)] of single characters. *)
Fixpoint replace_char (old new : ascii) (s : string) : string :=
  match s with
  | EmptyString => EmptyString
  | String c s => String (if Ascii.eqb c old then new else c) (replace_char old new s)
  end.

Definition unquote_plus (s : string) : string := unquote (replace_char "+" " " s).

(** [parse_qsl]: fields without a value are left out. *)
Definition parse_field (field : string) : option (string * string) :=
  let '(name, value) := partition "=" field in
  match value with
  | Some v => if str_truthy v then Some (unquote_plus name, unquote_plus v) else None
  | None => None
  end.

Definition parse_qsl (qs : string) : list (string * string) := omap parse_field (split_on "&" qs).

(** [parse_qs(qs).get(name, [fallback])[0]]: the first value of a name. *)
Fixpoint first_value (name fallback : string) (fields : list (string * string)) : string :=
  match fields with
  | [] => fallback
  | (n, v) :: fields => if String.eqb n name then v else first_value name fallback fields
  end.

(** [quote_plus]: a space is written as a plus sign. *)
Fixpoint quote_plus (s : string) : string :=
  match s with
  | EmptyString => EmptyString
  | String c s =>
      if Ascii.eqb c " " then String "+" (quote_plus s)
      else if unreserved c then String c (quote_plus s)
      else let n := N_of_ascii c in
           String "%" (String (upper_hex (n / 16)) (String (upper_hex (n mod 16)) (quote_plus s)))
  end.

(** [urlencode({name: value})] *)
Definition urlencode (name value : string) : string := quote_plus name +:+ "=" +:+ quote_plus value.

(** ** The server *)

(** [json.dumps(sort_keys=True)] writes this value. *)
Fixpoint sort_keys (j : json) : json :=
  match j with
  | JArr l => JArr (map sort_keys l)
  | JObj o => JObj (merge_sort (fun a b : string * json => Is_true (String.leb a.1 b.1))
                               (map (fun kv => (kv.1, sort_keys kv.2)) o))
  | _ => j
  end.

Definition _json_bytes (payload : list (string * json)) : string :=
  dumps_indent 0 (sort_keys (JObj payload)) +:+ newline.

Definition DEFAULT_OUTBOUND_URL : string := "https://example.com/".
Definition MAX_OUTBOUND_BYTES : nat := 512.

(** What [urlopen] gives the server: a response, one of the exceptions it
    catches, or another one. *)
Inductive Fetched :=
| FetchedOk (status : Z) (content_type : option string) (body : string)
| FetchedHttpError (code : Z) (text : string)
| FetchedUrlError (reason : string)
| FetchedOther (text : string).

(** A handled request: a response, or an exception that ends the connection
    without one. *)
Inductive Handled :=
| Responded (status : Z) (headers : list (string * string)) (body : string)
| Dropped (text : string).

Section server.
Context (valid_netloc : string -> bool) (urlopen : string -> Fetched).
(** [socket.gethostname()] and [time.time()] as [repr] writes it. *)
Context (hostname now : string).

Definition _send_json (status : Z) (payload : list (string * json)) : Handled :=
  let body := _json_bytes payload in
  Responded status [("Content-Type", "application/json");
                    ("Content-Length", show_Z (Z.of_nat (String.length body)))] body.

Definition opt_text (o : option string) : json := match o with Some t => JStr t | None => JNull end.

Definition outbound_payload (url : string) (status : Z) (content_type : option string) (body : string)
  : list (string * json) :=
  [("ok", JBool true); ("url", JStr url); ("status", JInt status);
   ("content_type", opt_text content_type);
   ("sample", JStr (decode_replace (String.substring 0 MAX_OUTBOUND_BYTES body)))].

(** The URLs the handler opens, and what it answers. *)
Definition _handle_outbound (outbound_url : string) : list string * Handled :=
  match urlparse valid_netloc outbound_url with
  | None => ([], Dropped "ValueError")
  | Some parsed =>
      if negb (bool_decide (scheme parsed ∈ ["http"; "https"])) then
        ([], _send_json 400 [("ok", JBool false);
                             ("error", JStr "only http and https URLs are supported")])
      else
        ([outbound_url],
         match urlopen outbound_url with
         | FetchedOk status content_type body =>
             _send_json 200 (outbound_payload outbound_url status content_type body)
         | FetchedHttpError code text =>
             _send_json 502 [("ok", JBool false); ("url", JStr outbound_url); ("status", JInt code);
                             ("error", JStr text)]
         | FetchedUrlError reason =>
             _send_json 502 [("ok", JBool false); ("url", JStr outbound_url); ("error", JStr reason)]
         | FetchedOther text => Dropped text
         end)
  end.

Definition service : json := JStr "browser-sandbox-http-prototype".

Definition health_payload : list (string * json) :=
  [("ok", JBool true); ("service", service); ("hostname", JStr hostname); ("time", JFloat now)].

Definition echo_payload (message : string) : list (string * json) :=
  [("ok", JBool true); ("message", JStr message); ("source", JStr "sandbox")].

(** [target] is [self.path], the target of the request line. *)
Definition do_GET (target : string) : list string * Handled :=
  match urlparse valid_netloc target with
  | None => ([], Dropped "ValueError")
  | Some parsed =>
      let params := parse_qsl (query parsed) in
      if bool_decide (path parsed ∈ [""; "/"]) then
        ([], _send_json 200
               [("ok", JBool true); ("service", service);
                ("endpoints", JArr [JStr "/api/health"; JStr "/api/echo?message=..."; JStr "/api/outbound"])])
      else if String.eqb (path parsed) "/api/health" then ([], _send_json 200 health_payload)
      else if String.eqb (path parsed) "/api/echo" then
        ([], _send_json 200 (echo_payload (first_value "message" "" params)))
      else if String.eqb (path parsed) "/api/outbound" then
        _handle_outbound (first_value "url" DEFAULT_OUTBOUND_URL params)
      else ([], _send_json 404 [("ok", JBool false); ("error", JStr "not found")])
  end.
End server.

(** ** The host *)

(** The exceptions of a request; the first four are the ones
    [_wait_for_health] repeats. *)
Inductive GetExc :=
| HTTPError (text : string)
| URLError (text : string)
| TimeoutError (text : string)
| JSONDecodeError (text : string)
| OtherError (text : string).

Definition exc_text (e : GetExc) : string :=
  match e with
  | HTTPError t | URLError t | TimeoutError t | JSONDecodeError t | OtherError t => t
  end.

Definition repeats (e : GetExc) : bool := match e with OtherError _ => false | _ => true end.

Record ProbeArgs := {
  base_url : string;
  arg_message : string;
  arg_outbound_url : string;
  skip_outbound : bool;
  attempts : Z
}.

Section host.
Context {W : Type}.
(** A request to the outside, and a pause of [delay] seconds. *)
Context (get : string -> W -> (GetExc + string) * W) (sleep : W -> W).

(** [bytes.decode("utf-8")] raises exactly on what decoding with replacement
    would change. *)
Definition decode_strict (b : string) : option string :=
  if String.eqb (decode_replace b) b then Some b else None.

Definition _get_json (url : string) (w : W) : (GetExc + json) * W :=
  match get url w with
  | (inl exc, w) => (inl exc, w)
  | (inr body, w) =>
      match decode_strict body with
      | None => (inl (OtherError "UnicodeDecodeError"), w)
      | Some text =>
          match load text with
          | inl (DecodeError _ _ as e) => (inl (JSONDecodeError (error_text text e)), w)
          | inl e => (inl (OtherError (error_text text e)), w)
          | inr j => (inr j, w)
          end
      end
  end.

(** [payload.get(key)]: only a dictionary has one. *)
Definition payload_get (key : string) (j : json) : GetExc + option json :=
  match j with
  | JObj o => inr (obj_get key o)
  | _ => inl (OtherError ("'" +:+ json_type_name j +:+ "' object has no attribute 'get'"))
  end.

(** One attempt: a healthy payload, or what is remembered of it; an
    exception that is not repeated leaves the loop. *)
Definition attempt_health (health_url : string) (w : W) : (GetExc + (string + json)) * W :=
  match _get_json health_url w with
  | (inl exc, w) => (if repeats exc then inr (inl (exc_text exc)) else inl exc, w)
  | (inr payload, w) =>
      match payload_get "ok" payload with
      | inl exc => (inl exc, w)
      | inr (Some (JBool true)) => (inr (inr payload), w)
      | inr _ => (inr (inl ("unexpected health payload: " +:+ json_repr payload)), w)
      end
  end.

(** The attempts still to come; there is a pause between two of them. *)
Fixpoint health_loop (health_url : string) (n : nat) (last_error : option string) (w : W)
  : (GetExc + (option string + json)) * W :=
  match n with
  | O => (inr (inl last_error), w)
  | S n =>
      match attempt_health health_url w with
      | (inl exc, w) => (inl exc, w)
      | (inr (inr payload), w) => (inr (inr payload), w)
      | (inr (inl text), w) =>
          health_loop health_url n (Some text) (match n with O => w | S _ => sleep w end)
      end
  end.

Definition _wait_for_health (base_url : string) (attempts : Z) (w : W) : (GetExc + json) * W :=
  match health_loop (rstrip_chars "/" base_url +:+ "/api/health") (Z.to_nat attempts) None w with
  | (inl exc, w) => (inl exc, w)
  | (inr (inr payload), w) => (inr payload, w)
  | (inr (inl last_error), w) =>
      (inl (OtherError ("health check failed after " +:+ show_Z attempts +:+ " attempts: "
                        +:+ default "None" last_error)), w)
  end.

(** [print(label, json.dumps(payload, sort_keys=True))] *)
Definition printed (label : string) (j : json) : string := label +:+ " " +:+ json_dumps (sort_keys j).

(** [m == text] *)
Definition is_text (text : string) (m : option json) : bool :=
  match m with Some (JStr t) => String.eqb t text | _ => false end.

(** The [try] block of [main]: what was printed, and how it ended. *)
Definition probe (a : ProbeArgs) (w : W) : (list string * (GetExc + unit)) * W :=
  let base := rstrip_chars "/" (base_url a) in
  match _wait_for_health base (attempts a) w with
  | (inl exc, w) => (([], inl exc), w)
  | (inr health, w) =>
      let out := [printed "health:" health] in
      match _get_json (base +:+ "/api/echo?" +:+ urlencode "message" (arg_message a)) w with
      | (inl exc, w) => ((out, inl exc), w)
      | (inr echo, w) =>
          let out := out ++ [printed "echo:" echo] in
          match payload_get "message" echo with
          | inl exc => ((out, inl exc), w)
          | inr m =>
              if negb (is_text (arg_message a) m) then
                ((out, inl (OtherError ("echo mismatch: " +:+ json_repr echo))), w)
              else if skip_outbound a then ((out, inr tt), w)
              else
                match _get_json (base +:+ "/api/outbound?" +:+ urlencode "url" (arg_outbound_url a)) w with
                | (inl exc, w) => ((out, inl exc), w)
                | (inr outbound, w) =>
                    let out := out ++ [printed "outbound:" outbound] in
                    match payload_get "ok" outbound with
                    | inl exc => ((out, inl exc), w)
                    | inr (Some (JBool true)) => ((out, inr tt), w)
                    | inr _ => ((out, inl (OtherError ("outbound probe failed: " +:+ json_repr outbound))), w)
                    end
                end
          end
      end
  end.

(** The exit status, standard output and standard error. *)
Definition main (a : ProbeArgs) (w : W) : (Z * list string * list string) * W :=
  match probe a w with
  | ((out, inl exc), w) => ((1%Z, out, ["ERROR: " +:+ exc_text exc]), w)
  | ((out, inr tt), w) => ((0%Z, out ++ ["OK: host reached the sandbox HTTP server"], []), w)
  end.
End host.

(** ** Encoding and decoding *)

Lemma upper_hex_no_plus c :
  Ascii.eqb (upper_hex (N_of_ascii c / 16)) "+" = false /\
  Ascii.eqb (upper_hex (N_of_ascii c mod 16)) "+" = false.
Proof. by destruct c as [[] [] [] [] [] [] [] []]. Qed.

Lemma unquote_quote_plus s : unquote_bytes 0 (replace_char "+" " " (quote_plus s)) = s.
Proof.
  induction s as [|c s IH]; [done|]. cbn [quote_plus].
  destruct (Ascii.eqb_spec c " ") as [->|Hsp]; [cbn; by rewrite IH|].
  destruct (unreserved c) eqn:Hu.
  - cbn [replace_char]. destruct (Ascii.eqb_spec c "+") as [->|]; [discriminate|].
    cbn [unquote_bytes]. destruct (Ascii.eqb_spec c "%") as [->|]; [discriminate|]. by rewrite IH.
  - cbn [replace_char]. destruct (upper_hex_no_plus c) as [-> ->].
    cbn [unquote_bytes Ascii.eqb]. rewrite hex_pair_back, ascii_N_embedding. cbn. by rewrite IH.
Qed.

Lemma unquote_plus_quoted s : utf8 s -> unquote_plus (quote_plus s) = s.
Proof. intros Hs. unfold unquote_plus, unquote. by rewrite unquote_quote_plus, decode_utf8. Qed.

(** The characters of an encoded query. *)
Definition query_char (c : ascii) : bool := segment_char c || is_char "+=" c.

Lemma quote_plus_query s : all_chars query_char (quote_plus s) = true.
Proof.
  induction s as [|c s IH]; [done|]. cbn [quote_plus].
  destruct (Ascii.eqb_spec c " ") as [->|_]; [by cbn [all_chars]; rewrite IH|].
  destruct (unreserved c) eqn:Hu; cbn [all_chars]; rewrite IH, !andb_true_r.
  - unfold query_char, segment_char. by rewrite Hu.
  - destruct (hex_is_segment c) as [H1 H2]. unfold query_char. by rewrite H1, H2.
Qed.

Lemma all_chars_app p a b : all_chars p (a +:+ b) = all_chars p a && all_chars p b.
Proof.
  induction a as [|c a IH]; [done|]. rewrite string_app_cons. cbn. by rewrite IH, andb_assoc.
Qed.

Lemma all_chars_weaken (p p' : ascii -> bool) s :
  all_chars p s = true -> (forall c, p c = true -> p' c = true) -> all_chars p' s = true.
Proof.
  intros Hs Hp. induction s as [|c s IH]; [done|]. cbn in *. apply andb_prop in Hs as [Hc Hs].
  by rewrite (Hp c Hc), IH.
Qed.

Lemma all_chars_has_char p c s : all_chars p s = true -> p c = false -> has_char c s = false.
Proof.
  intros Hs Hc. induction s as [|d s IH]; [done|]. cbn in *. apply andb_prop in Hs as [Hd Hs].
  destruct (Ascii.eqb_spec c d) as [->|]; [congruence|]. by apply IH.
Qed.

Lemma without_none p drop s :
  all_chars p s = true -> (forall c, p c = true -> drop c = false) -> without_chars drop s = s.
Proof.
  intros Hs Hp. induction s as [|c s IH]; [done|]. cbn in *. apply andb_prop in Hs as [Hc Hs].
  rewrite (Hp c Hc). by rewrite IH.
Qed.

Lemma partition_none c s : has_char c s = false -> partition c s = (s, None).
Proof.
  induction s as [|d s IH]; [done|]. cbn. intros [Hd Hs]%orb_false_iff.
  rewrite Ascii.eqb_sym, Hd. by rewrite IH.
Qed.

Lemma partition_at c a b : has_char c a = false -> partition c (a +:+ String c b) = (a, Some b).
Proof.
  induction a as [|d a IH].
  { intros _. change ("" +:+ String c b) with (String c b). cbn. by rewrite Ascii.eqb_refl. }
  cbn [has_char]. intros [Hd Ha]%orb_false_iff. rewrite string_app_cons. cbn.
  rewrite Ascii.eqb_sym, Hd. by rewrite IH.
Qed.

Lemma split_on_none c s : has_char c s = false -> split_on c s = [s].
Proof.
  induction s as [|d s IH]; [done|]. cbn. intros [Hd Hs]%orb_false_iff.
  rewrite Ascii.eqb_sym, Hd. by rewrite IH.
Qed.

Lemma has_char_app c a b : has_char c (a +:+ b) = has_char c a || has_char c b.
Proof.
  induction a as [|d a IH]; [done|]. rewrite string_app_cons. cbn. by rewrite IH, orb_assoc.
Qed.

(** A path of the server followed by an encoded query. *)
Lemma urlparse_query valid p q :
  p ∈ ["/api/echo"; "/api/outbound"] -> all_chars query_char q = true ->
  urlparse valid (p +:+ "?" +:+ q) = Some {| scheme := ""; netloc := ""; path := p; query := q |}.
Proof.
  intros Hp Hq.
  assert (Hc : forall c, query_char c = false -> has_char c q = false)
    by (intros c; by apply all_chars_has_char).
  assert (Hw : without_chars unsafe_byte (p +:+ "?" +:+ q) = p +:+ "?" +:+ q).
  { apply (without_none (fun c => query_char c || is_char "/?" c)).
    - rewrite !all_chars_app, (all_chars_weaken _ _ q Hq) by (intros c ->; done).
      by set_unfold in Hp; destruct_or! Hp; subst.
    - intros c. by destruct c as [[] [] [] [] [] [] [] []]. }
  assert (Hs : split_scheme (p +:+ "?" +:+ q) = ("", p +:+ "?" +:+ q)).
  { unfold split_scheme. rewrite partition_none; [by set_unfold in Hp; destruct_or! Hp; subst|].
    rewrite !has_char_app, (Hc ":"%char) by done. by set_unfold in Hp; destruct_or! Hp; subst. }
  assert (Hh : partition "#" (p +:+ "?" +:+ q) = (p +:+ "?" +:+ q, None)).
  { apply partition_none. rewrite !has_char_app, (Hc "#"%char) by done.
    by set_unfold in Hp; destruct_or! Hp; subst. }
  unfold urlparse.
  replace (without_chars unsafe_byte (drop_leading control_or_space (p +:+ "?" +:+ q)))
    with (p +:+ "?" +:+ q).
  2: { rewrite <- Hw at 1. f_equal. by set_unfold in Hp; destruct_or! Hp; subst. }
  rewrite Hs.
  replace (startswith "//" (p +:+ "?" +:+ q)) with false
    by (set_unfold in Hp; destruct_or! Hp; subst; by cbn).
  cbn [has_char Bool.eqb negb orb andb all_of]. rewrite Hh. cbn [fst].
  assert (Hn : has_char "?" p = false) by (set_unfold in Hp; destruct_or! Hp; by subst).
  change (p +:+ "?" +:+ q) with (p +:+ String "?" q). rewrite partition_at by done.
  by set_unfold in Hp; destruct_or! Hp; subst.
Qed.

Lemma parse_urlencoded name value :
  has_char "=" (quote_plus name) = false -> utf8 name -> utf8 value ->
  parse_qsl (urlencode name value) = if str_truthy value then [(name, value)] else [].
Proof.
  intros Hn Hu Hv. unfold parse_qsl, urlencode.
  rewrite split_on_none.
  2: { rewrite !has_char_app. by rewrite !(all_chars_has_char _ _ _ (quote_plus_query _)). }
  cbn [omap list_omap]. unfold parse_field.
  change (quote_plus name +:+ "=" +:+ quote_plus value) with (quote_plus name +:+ String "=" (quote_plus value)).
  rewrite partition_at by done. rewrite !unquote_plus_quoted by done.
  destruct value as [|c value]; [done|].
  assert (Ht : str_truthy (quote_plus (String c value)) = true).
  { cbn. repeat case_match; done. }
  by rewrite Ht.
Qed.

(** ** ASCII *)

Lemma ascii_utf8 s : all_of is_ascii s = true -> utf8 s.
Proof.
  induction s as [|c s IH]; [constructor|]. cbn. intros [Hc Hs]%andb_prop.
  apply (utf8_cons c [] ""); [|constructor|by apply IH].
  unfold continuation_ranges, between. unfold is_ascii in Hc.
  by destruct c as [[] [] [] [] [] [] [] []].
Qed.

Lemma all_of_app p a b : all_of p (a +:+ b) = all_of p a && all_of p b.
Proof.
  induction a as [|c a IH]; [done|]. rewrite string_app_cons. cbn. by rewrite IH, andb_assoc.
Qed.

Lemma hex_digit_ascii n : is_ascii (hex_digit (n mod 16)) = true.
Proof.
  assert (H : (n mod 16 < 16)%N) by (apply N.mod_lt; done). revert H. generalize (n mod 16)%N.
  intros k Hk. unfold hex_digit, is_ascii. rewrite N_ascii_embedding by (case_match; lia).
  case_match; apply N.ltb_lt; lia.
Qed.

Lemma u_escape_ascii n : all_of is_ascii (u_escape n) = true.
Proof. unfold u_escape. cbn. by rewrite !hex_digit_ascii. Qed.

Lemma cp_escape_ascii n : all_of is_ascii (cp_escape n) = true.
Proof. unfold cp_escape. case_match; [|rewrite all_of_app]; by rewrite !u_escape_ascii. Qed.

Lemma ascii_escape_ascii c : (N_of_ascii c <? 128)%N = true -> all_of is_ascii (ascii_escape c) = true.
Proof.
  intros Hc. unfold ascii_escape. repeat case_match; try done; [apply u_escape_ascii|].
  cbn. unfold is_ascii. by rewrite Hc.
Qed.

Lemma escape_ascii s k acc : all_of is_ascii (escape_from k acc s) = true.
Proof.
  revert k acc. induction s as [|c s IH]; intros k acc; [done|]. cbn [escape_from].
  repeat case_match; rewrite ?all_of_app, ?IH, ?cp_escape_ascii, ?ascii_escape_ascii by done; done.
Qed.

Lemma dump_str_ascii s : all_of is_ascii (dump_str s) = true.
Proof. unfold dump_str. by rewrite !all_of_app, escape_ascii. Qed.

Lemma pretty_N_ascii x s : all_of is_ascii s = true -> all_of is_ascii (pretty_N_go x s) = true.
Proof.
  revert s. induction (N.lt_wf_0 x) as [x _ IH]; intros s Hs.
  destruct (decide (x = 0)%N) as [->|Hx]; [by rewrite pretty_N_go_0|].
  rewrite pretty_N_go_step by lia. apply IH; [apply N.div_lt; lia|].
  cbn [all_of]. rewrite Hs, andb_true_r. unfold pretty_N_char. by repeat case_match.
Qed.

Lemma show_Z_ascii z : all_of is_ascii (show_Z z) = true.
Proof.
  assert (HN : forall n : N, all_of is_ascii (pretty n) = true).
  { intros n. unfold pretty, pretty_N. case_decide; [done|]. by apply pretty_N_ascii. }
  unfold show_Z. destruct z as [|p|p]; [done|apply (HN (Npos p))|].
  change (pretty (Z.neg p)) with ("-" +:+ pretty (Npos p)). by rewrite all_of_app, HN.
Qed.

(** The floats of a value are written in ASCII. *)
Fixpoint ascii_floats (j : json) : bool :=
  match j with
  | JFloat r => all_of is_ascii r
  | JArr l => forallb ascii_floats l
  | JObj o => forallb (fun kv => ascii_floats kv.2) o
  | _ => true
  end.

Lemma concat_ascii sep l :
  all_of is_ascii sep = true -> forallb (all_of is_ascii) l = true ->
  all_of is_ascii (String.concat sep l) = true.
Proof.
  intros Hs. induction l as [|x [|y l] IH]; [done| |]; cbn [forallb].
  - cbn. by intros [-> _]%andb_prop.
  - intros [Hx Hl]%andb_prop. change (String.concat sep (x :: y :: l)) with (x +:+ sep +:+ String.concat sep (y :: l)).
    by rewrite !all_of_app, Hx, Hs, IH.
Qed.

Lemma indentation_ascii n : all_of is_ascii (indentation n) = true.
Proof. by induction n. Qed.

(** The two printers write their parts between separators. *)
Lemma dumps_ascii j : ascii_floats j = true -> all_of is_ascii (json_dumps j) = true.
Proof.
  revert j. fix IH 1. intros [|[]|z|r|s|l|o] H; try done;
    [apply show_Z_ascii|by cbn; unfold dump_float; repeat case_match|apply dump_str_ascii| |].
  - assert (Hm : forallb (all_of is_ascii) (map json_dumps l) = true).
    { cbn in H. induction l as [|x l IHl]; [done|]. cbn in *. apply andb_prop in H as [Hx Hl].
      by rewrite (IH x Hx), IHl. }
    cbn. by rewrite !all_of_app, concat_ascii.
  - assert (Hm : forallb (all_of is_ascii)
      (map (fun kv => dump_str kv.1 +:+ ": " +:+ json_dumps kv.2) o) = true).
    { cbn in H. induction o as [|[k x] o IHo]; [done|]. cbn in *. apply andb_prop in H as [Hx Ho].
      by rewrite !all_of_app, dump_str_ascii, (IH x Hx), IHo. }
    cbn. by rewrite !all_of_app, concat_ascii.
Qed.

Lemma dumps_indent_ascii j n : ascii_floats j = true -> all_of is_ascii (dumps_indent n j) = true.
Proof.
  revert j n. fix IH 1. intros j n H.
  destruct j as [|b|z|r|s|[|x l]|[|[k x] o]]; try (by apply dumps_ascii).
  - assert (Hm : forallb (all_of is_ascii)
      (map (fun v => indentation (S n) +:+ dumps_indent (S n) v) (x :: l)) = true).
    { cbn [ascii_floats] in H. revert H. generalize (x :: l). clear x l. intros l.
      induction l as [|x l IHl]; [done|]. intros [Hx Hl]%andb_prop. cbn [map forallb].
      by rewrite !all_of_app, indentation_ascii, (IH x (S n) Hx), IHl. }
    cbn [dumps_indent]. by rewrite !all_of_app, concat_ascii, indentation_ascii.
  - assert (Hm : forallb (all_of is_ascii)
      (map (fun kv => indentation (S n) +:+ dump_str kv.1 +:+ ": " +:+ dumps_indent (S n) kv.2)
           ((k, x) :: o)) = true).
    { cbn [ascii_floats] in H. revert H. generalize ((k, x) :: o). clear k x o. intros o.
      induction o as [|[k x] o IHo]; [done|]. intros [Hx Ho]%andb_prop. cbn [map forallb fst snd].
      by rewrite !all_of_app, indentation_ascii, dump_str_ascii, (IH x (S n) Hx), IHo. }
    cbn [dumps_indent]. by rewrite !all_of_app, concat_ascii, indentation_ascii.
Qed.

(** ** What the server answers *)

Lemma urlencode_query name value : all_chars query_char (urlencode name value) = true.
Proof. unfold urlencode. by rewrite !all_chars_app, !quote_plus_query. Qed.

Section answers.
Context (valid_netloc : string -> bool) (urlopen : string -> Fetched) (hostname now : string).
Let serve := do_GET valid_netloc urlopen hostname now.

Lemma health_answer : serve "/api/health" = ([], _send_json 200 (health_payload hostname now)).
Proof. done. Qed.

Lemma echo_answer m :
  utf8 m -> serve ("/api/echo?" +:+ urlencode "message" m) = ([], _send_json 200 (echo_payload m)).
Proof.
  intros Hm. unfold serve, do_GET.
  change ("/api/echo?" +:+ urlencode "message" m) with ("/api/echo" +:+ "?" +:+ urlencode "message" m).
  rewrite urlparse_query by (apply urlencode_query || set_solver). cbn [query path].
  rewrite (parse_urlencoded "message" m) by (done || by apply (ascii_utf8 "message")).
  by destruct m.
Qed.

Lemma outbound_answer u :
  utf8 u -> serve ("/api/outbound?" +:+ urlencode "url" u) =
            _handle_outbound valid_netloc urlopen (str_or u DEFAULT_OUTBOUND_URL).
Proof.
  intros Hu. unfold serve, do_GET.
  change ("/api/outbound?" +:+ urlencode "url" u) with ("/api/outbound" +:+ "?" +:+ urlencode "url" u).
  rewrite urlparse_query by (apply urlencode_query || set_solver). cbn [query path].
  rewrite (parse_urlencoded "url" u) by (done || by apply (ascii_utf8 "url")).
  by destruct u.
Qed.
End answers.

(** The payloads in the order of their keys. *)
Lemma sorted_health hostname now :
  sort_keys (JObj (health_payload hostname now)) =
  JObj [("hostname", JStr hostname); ("ok", JBool true); ("service", service); ("time", JFloat now)].
Proof. reflexivity. Qed.

Lemma sorted_echo m :
  sort_keys (JObj (echo_payload m)) =
  JObj [("message", JStr m); ("ok", JBool true); ("source", JStr "sandbox")].
Proof. reflexivity. Qed.

Lemma sorted_outbound u st ct body :
  sort_keys (JObj (outbound_payload u st ct body)) =
  JObj [("content_type", opt_text ct); ("ok", JBool true);
        ("sample", JStr (decode_replace (String.substring 0 MAX_OUTBOUND_BYTES body)));
        ("status", JInt st); ("url", JStr u)].
Proof. by destruct ct. Qed.

Lemma rstrip_stripped chars s t : rstrip_chars chars s = t -> rstrip_chars chars t = t.
Proof.
  intros <-. induction s as [|c s IH]; [done|]. cbn [rstrip_chars].
  destruct (rstrip_chars chars s) as [|d r]; [|cbn [rstrip_chars] in *; by rewrite IH].
  destruct (str_contains _ chars) eqn:Hc; [done|]. cbn [rstrip_chars]. by rewrite Hc.
Qed.

(** ** The host and the server together *)

(** What the host sees of a handled request: a status outside 200..299 is an
    [HTTPError], a connection that ends without a response a
    [RemoteDisconnected]. *)
Definition seen (h : Handled) : GetExc + string :=
  match h with
  | Responded status _ body =>
      if (200 <=? status)%Z && (status <? 300)%Z then inr body
      else inl (HTTPError ("HTTP Error " +:+ show_Z status))
  | Dropped _ => inl (OtherError "Remote end closed connection without response")
  end.

(** A network on which the server answers at [base] after [waits] pauses;
    before that every request fails in a way that is repeated. *)
Record Network {W} (get : string -> W -> (GetExc + string) * W) (sleep : W -> W)
  (base : string) (answer : string -> Handled) (waits : W -> nat) : Prop := {
  nw_up w target : waits w = 0 -> exists w', get (base +:+ target) w = (seen (answer target), w') /\ waits w' = 0;
  nw_down w k url : waits w = S k -> exists e w', get url w = (inl e, w') /\ repeats e = true /\ waits w' = S k;
  nw_sleep w : waits (sleep w) = pred (waits w)
}.

Section together.
Context (valid_netloc : string -> bool) (urlopen : string -> Fetched) (hostname now : string).
Context {W : Type} (get : string -> W -> (GetExc + string) * W) (sleep : W -> W)
  (base : string) (waits : W -> nat).
Let answer (target : string) : Handled := (do_GET valid_netloc urlopen hostname now target).2.
Context (Hnet : Network get sleep base answer waits) (Hnow : all_of is_ascii now = true)
  (Htime : is_repr now) (Hhost : utf8 hostname).

(** The host reads a payload as the server wrote it. *)
Lemma payload_loaded o :
  loadable (sort_keys (JObj o)) -> load (_json_bytes o) = inr (sort_keys (JObj o)).
Proof.
  intros Ho. apply (load_reads _ "" (dumps_indent 0 (sort_keys (JObj o))) newline); [done|done|].
  by apply indented_reads.
Qed.

Lemma health_loadable : loadable (sort_keys (JObj (health_payload hostname now))).
Proof.
  rewrite sorted_health. cbn [loadable map fst snd fold_right]. split_and!; try done; try by apply ascii_utf8.
  apply (bool_decide_unpack (NoDup ["hostname"; "ok"; "service"; "time"])). by vm_compute.
Qed.

Lemma echo_loadable m : utf8 m -> loadable (sort_keys (JObj (echo_payload m))).
Proof.
  intros Hm. rewrite sorted_echo. cbn [loadable map fst snd fold_right].
  split_and!; try done; try by apply ascii_utf8.
  apply (bool_decide_unpack (NoDup ["message"; "ok"; "source"])). by vm_compute.
Qed.

(** A status and a content type as HTTP has them. *)
Definition readable_response (f : Fetched) : Prop :=
  match f with
  | FetchedOk status content_type _ => short_int status /\ (forall t, content_type = Some t -> utf8 t)
  | _ => True
  end.

Lemma outbound_loadable u status content_type body :
  utf8 u -> readable_response (FetchedOk status content_type body) ->
  loadable (sort_keys (JObj (outbound_payload u status content_type body))).
Proof.
  intros Hu [Hs Hc]. rewrite sorted_outbound. cbn [loadable map fst snd fold_right].
  assert (Hd : utf8 (decode_replace (String.substring 0 MAX_OUTBOUND_BYTES body)))
    by (apply (decode_utf8_from _ "" []); by left).
  split_and!; try done; try by apply ascii_utf8.
  - apply (bool_decide_unpack (NoDup ["content_type"; "ok"; "sample"; "status"; "url"])). by vm_compute.
  - destruct content_type as [t|]; [by apply Hc|done].
Qed.

Lemma default_url_utf8 u : utf8 u -> utf8 (str_or u DEFAULT_OUTBOUND_URL).
Proof. intros Hu. unfold str_or. destruct (str_truthy u); [done|]. by apply ascii_utf8. Qed.

Lemma payload_decoded o :
  ascii_floats (sort_keys (JObj o)) = true -> decode_strict (_json_bytes o) = Some (_json_bytes o).
Proof.
  intros Ho. unfold decode_strict. rewrite decode_utf8, String.eqb_refl; [done|].
  apply ascii_utf8. unfold _json_bytes. by rewrite all_of_app, dumps_indent_ascii.
Qed.

Lemma get_payload w target o :
  waits w = 0 -> answer target = _send_json 200 o ->
  ascii_floats (sort_keys (JObj o)) = true -> loadable (sort_keys (JObj o)) ->
  exists w', _get_json get (base +:+ target) w = (inr (sort_keys (JObj o)), w') /\ waits w' = 0.
Proof.
  intros Hw Ha Ho Hr. destruct (nw_up _ _ _ _ _ Hnet w target Hw) as (w' & Hg & Hw').
  exists w'. split; [|done]. unfold _get_json. rewrite Hg, Ha. cbn [seen _send_json].
  change ((200 <=? 200)%Z && (200 <? 300)%Z) with true. cbn iota.
  by rewrite payload_decoded, (payload_loaded o Hr).
Qed.

Lemma health_found n w last :
  waits w < n ->
  exists w', health_loop get sleep (base +:+ "/api/health") n last w =
    (inr (inr (sort_keys (JObj (health_payload hostname now)))), w') /\ waits w' = 0.
Proof.
  revert w last. induction n as [|n IH]; intros w last Hw; [lia|].
  cbn [health_loop]. unfold attempt_health. destruct (waits w) as [|k] eqn:Hk.
  - destruct (get_payload w "/api/health" (health_payload hostname now)) as (w' & Hg & Hw');
      [done|done|by rewrite sorted_health; cbn; rewrite Hnow|apply health_loadable|].
    rewrite Hg. exists w'. done.
  - destruct (nw_down _ _ _ _ _ Hnet w k (base +:+ "/api/health") Hk) as (e & w' & Hg & He & Hw').
    unfold _get_json. rewrite Hg, He. destruct n as [|n]; [lia|]. apply IH.
    rewrite (nw_sleep _ _ _ _ _ Hnet), Hw'. cbn. lia.
Qed.
(** The outbound probe succeeds exactly when the server could fetch the URL. *)
Definition fetches (u : string) : Prop :=
  exists parsed status content_type body,
    urlparse valid_netloc u = Some parsed /\ (scheme parsed = "http" \/ scheme parsed = "https") /\
    urlopen u = FetchedOk status content_type body.

Lemma fetches_dec u : fetches u \/ ~ fetches u.
Proof.
  unfold fetches. destruct (urlparse valid_netloc u) as [parsed|]; [|by right; naive_solver].
  destruct (decide (scheme parsed = "http" \/ scheme parsed = "https")); [|by right; naive_solver].
  destruct (urlopen u); [by left; eauto 10|by right; naive_solver..].
Qed.

Lemma outbound_failed u w :
  utf8 u -> waits w = 0 -> ~ fetches (str_or u DEFAULT_OUTBOUND_URL) ->
  exists exc w', _get_json get (base +:+ ("/api/outbound?" +:+ urlencode "url" u)) w = (inl exc, w').
Proof.
  intros Hu Hw Hf. destruct (nw_up _ _ _ _ _ Hnet w ("/api/outbound?" +:+ urlencode "url" u) Hw)
    as (w' & Hg & _).
  unfold _get_json. rewrite Hg. unfold answer. rewrite outbound_answer by done. unfold _handle_outbound.
  destruct (urlparse valid_netloc _) as [parsed|] eqn:Hp; [|by eauto].
  destruct (bool_decide _) eqn:Hs; cbn [negb snd]; [|by eauto].
  destruct (urlopen _) eqn:Ho; try by (cbn; eauto).
  destruct Hf. exists parsed. do 3 eexists. split; [done|]. split; [|done].
  apply bool_decide_eq_true in Hs. set_solver.
Qed.

Lemma outbound_succeeds u w parsed status content_type body :
  let url := str_or u DEFAULT_OUTBOUND_URL in
  utf8 u -> waits w = 0 -> urlparse valid_netloc url = Some parsed ->
  scheme parsed = "http" \/ scheme parsed = "https" ->
  urlopen url = FetchedOk status content_type body ->
  readable_response (urlopen url) ->
  exists w', _get_json get (base +:+ ("/api/outbound?" +:+ urlencode "url" u)) w =
    (inr (sort_keys (JObj (outbound_payload url status content_type body))), w').
Proof.
  intros url Hu Hw Hp Hs Ho Hr.
  destruct (get_payload w ("/api/outbound?" +:+ urlencode "url" u)
              (outbound_payload url status content_type body)) as (w' & Hg & _); [done| | | |by eauto].
  - unfold answer. rewrite outbound_answer by done. unfold _handle_outbound. fold url. rewrite Hp, Ho.
    rewrite bool_decide_eq_true_2 by (destruct Hs as [-> | ->]; set_solver). done.
  - rewrite sorted_outbound. by destruct content_type.
  - apply outbound_loadable; [by apply default_url_utf8|]. by rewrite <- Ho.
Qed.
(** The probe of a server that comes up within its attempts: it waits for it,
    gets its message back whatever the message is, prints what it was
    answered, and exits with 0 exactly when it was told to skip the outbound
    request or the server could fetch the requested URL, which is the default
    one when none was given. *)
Theorem host_reaches_sandbox a w :
  let url := str_or (arg_outbound_url a) DEFAULT_OUTBOUND_URL in
  let health := health_payload hostname now in
  let echo := echo_payload (arg_message a) in
  rstrip_chars "/" (base_url a) = base -> (Z.of_nat (waits w) < attempts a)%Z ->
  utf8 (arg_message a) -> utf8 (arg_outbound_url a) -> readable_response (urlopen url) ->
  let '(code, out, err) := (main get sleep a w).1 in
  take 2 out = [printed "health:" (sort_keys (JObj health)); printed "echo:" (sort_keys (JObj echo))] /\
  (code = 0%Z <-> skip_outbound a = true \/ fetches url) /\
  (code = 0%Z <-> err = []).
Proof.
  intros url health echo Hb Hw Hm Hu Ho.
  unfold main, probe, _wait_for_health. rewrite Hb, (rstrip_stripped _ _ _ Hb).
  destruct (health_found (Z.to_nat (attempts a)) w None) as (w1 & -> & Hw1); [lia|].
  change (base +:+ "/api/echo?" +:+ urlencode "message" (arg_message a))
    with (base +:+ ("/api/echo?" +:+ urlencode "message" (arg_message a))).
  destruct (get_payload w1 ("/api/echo?" +:+ urlencode "message" (arg_message a)) echo)
    as (w2 & -> & Hw2);
    [done|by unfold answer; rewrite echo_answer|by unfold echo; rewrite sorted_echo|by apply echo_loadable|].
  replace (payload_get "message" (sort_keys (JObj echo))) with
    (inr (Some (JStr (arg_message a))) : GetExc + option json) by (unfold echo; by rewrite sorted_echo).
  cbn [is_text]. rewrite String.eqb_refl. cbn [negb].
  destruct (skip_outbound a); [by cbn; naive_solver|].
  change (base +:+ "/api/outbound?" +:+ urlencode "url" (arg_outbound_url a))
    with (base +:+ ("/api/outbound?" +:+ urlencode "url" (arg_outbound_url a))).
  destruct (fetches_dec url) as [(parsed & status & content_type & body & Hp & Hs & Hf)|Hf].
  - destruct (outbound_succeeds (arg_outbound_url a) w2 parsed status content_type body) as (w3 & ->); try done.
    rewrite sorted_outbound. cbn. split_and!; [done| |done]. split; [|done]. right. unfold fetches. eauto 10.
  - destruct (outbound_failed (arg_outbound_url a) w2) as (exc & w3 & ->); try done.
    cbn. split_and!; [done| |done]. split; [done|]. by intros [|].
Qed.
End together.

(** ** Each side alone *)

(** Whatever is requested, the server opens at most one URL, an http or https
    one; every response is JSON with one of four statuses and the length of
    its body. *)
Theorem server_opens_only_http valid_netloc urlopen hostname now target :
  let r := do_GET valid_netloc urlopen hostname now target in
  (r.1 = [] \/ exists u parsed,
     r.1 = [u] /\ urlparse valid_netloc u = Some parsed /\
     (scheme parsed = "http" \/ scheme parsed = "https")) /\
  (forall status headers body, r.2 = Responded status headers body ->
     status ∈ [200; 400; 404; 502]%Z /\
     headers = [("Content-Type", "application/json");
                ("Content-Length", show_Z (Z.of_nat (String.length body)))]).
Proof.
  assert (Hsend : forall st o, st ∈ [200; 400; 404; 502]%Z ->
    forall status headers body, _send_json st o = Responded status headers body ->
    status ∈ [200; 400; 404; 502]%Z /\
    headers = [("Content-Type", "application/json");
               ("Content-Length", show_Z (Z.of_nat (String.length body)))]).
  { intros st o Hst status headers body [= <- <- <-]. done. }
  intros r. subst r. unfold do_GET, _handle_outbound.
  repeat case_match; cbn [fst snd]; split; try (by left); try (by intros; discriminate); try (apply Hsend; set_solver);
    right; do 2 eexists; (split; [done|split; [done|]]);
    match goal with H : negb (bool_decide _) = false |- _ =>
      apply negb_false_iff, bool_decide_eq_true in H; set_solver end.
Qed.

(** The wait for the server repeats only the listed exceptions: a server that
    would be healthy later is not waited for when a connection ends without a
    response. *)
Theorem dropped_connection_ends_wait {W} (get : string -> W -> (GetExc + string) * W) sleep base n w text w' :
  get (rstrip_chars "/" base +:+ "/api/health") w = (inl (OtherError text), w') -> (0 < n)%Z ->
  _wait_for_health get sleep base n w = (inl (OtherError text), w').
Proof.
  intros Hg Hn. unfold _wait_for_health. destruct (Z.to_nat n) eqn:Hz; [lia|].
  cbn [health_loop]. unfold attempt_health, _get_json. by rewrite Hg.
Qed.

(** ** A run *)

(** A network whose server comes up after [w] pauses. *)
Definition sample_server : string -> Handled :=
  fun target => (do_GET (fun _ => true) (fun _ => FetchedUrlError "refused") "box" "17.5" target).2.
Definition sample_get (url : string) (w : nat) : (GetExc + string) * nat :=
  match w with
  | O => (seen (sample_server (String.substring 8 (String.length url) url)), O)
  | S k => (inl (URLError "refused"), S k)
  end.
Definition sample_args (skip : bool) : ProbeArgs :=
  {| base_url := "http://b/"; arg_message := "hé & llo"; arg_outbound_url := ""; skip_outbound := skip;
     attempts := 3 |}.

Example sample_probes :
  ((main sample_get pred (sample_args true) 2).1.1.1,
   (main sample_get pred (sample_args false) 2).1.1.1,
   (main sample_get pred (sample_args true) 3).1.1.1) = (0, 1, 1)%Z.
Proof. vm_compute. reflexivity. Qed.

Lemma sample_network : Network sample_get pred "http://b" sample_server (fun w => w).
Proof.
  split.
  - intros w target ->. exists 0. split; [|done]. unfold sample_get. do 3 f_equal.
    change (String.substring 8 _ ("http://b" +:+ target)) with
      (String.substring 0 (String.length ("http://b" +:+ target)) target).
    apply substring_all. rewrite string_length_app. lia.
  - intros w k url ->. by exists (URLError "refused"), (S k).
  - done.
Qed.

Lemma host_reaches_sandbox_witness :
  let '(code, out, err) := (main sample_get pred (sample_args true) 2).1 in
  (code = 0%Z <-> true = true \/ fetches (fun _ => true) (fun _ => FetchedUrlError "refused") DEFAULT_OUTBOUND_URL).
Proof.
  assert (H := host_reaches_sandbox (fun _ => true) (fun _ => FetchedUrlError "refused") "box" "17.5"
    sample_get pred "http://b" (fun w => w) sample_network eq_refl (or_intror eq_refl)
    (ascii_utf8 "box" eq_refl) (sample_args true) 2 eq_refl eq_refl).
  assert (Hu : utf8 "hé & llo") by exact (decode_utf8_from "hé & llo" "" [] (or_introl eq_refl)).
  specialize (H Hu (utf8_nil)). destruct (main sample_get pred (sample_args true) 2) as [[[code out] err] w].
  by apply H.
Defined.

End HttpProbe.

Module Smoke.

(** ** Calls, exceptions and scripts *)

(** What a script does to the outside. *)
Inductive Act :=
| StartBroker
| StopBroker
| Connect (display_name : string)
| SendTo (to : option string) (ty : string) (p : list (string * json))
| SubscribeTo (ch : string)
| PublishTo (ch ty : string) (p : list (string * json))
| CloseBus
| WaitForSignal
| Marker (name : string) (fields : list (string * string)).

Inductive Exc :=
| Failed (text : string)
| WaitTimeout (text : string)
| StopAsyncIteration
| RuntimeError (text : string)
| AttributeError (text : string)
| ValueError (text : string).

(** What an iterator of the bus gives: a message after some time, or its
    end.  When nothing is left nothing arrives any more. *)
Inductive Arrival := Arrives (after : Z) (m : NMBMessage) | IteratorEnds (after : Z).

Definition wanted (expected_type : option string) (m : NMBMessage) : bool :=
  match expected_type with None => true | Some t => bool_decide (type m = Some t) end.

(** [_next_message]: [elapsed] has passed since the deadline was set; a
    message that comes when the time is over is left for the next reader. *)
Fixpoint next_from (timeout : Z) (expected_type : option string) (elapsed : Z) (items : list Arrival)
  : (Exc + NMBMessage) * list Arrival :=
  let remaining := (timeout - elapsed)%Z in
  if (remaining <=? 0)%Z then
    (inl (WaitTimeout ("Timed out waiting for " +:+ opt_or expected_type "message")), items)
  else
    match items with
    | [] => (inl (WaitTimeout ""), [])
    | IteratorEnds after :: _ =>
        (inl (if (after <? remaining)%Z then StopAsyncIteration else WaitTimeout ""), items)
    | Arrives after m :: rest =>
        if (after <? remaining)%Z then
          if wanted expected_type m then (inr m, rest)
          else next_from timeout expected_type (elapsed + after) rest
        else (inl (WaitTimeout ""), items)
    end.

Definition _next_message (timeout : Z) (expected_type : option string) (items : list Arrival)
  : (Exc + NMBMessage) * list Arrival := next_from timeout expected_type 0 items.

#[global] Arguments _next_message : simpl never.

(** The calls made, and what the two iterators still hold. *)
Record World := { calls : list Act; subscription : list Arrival; listening : list Arrival }.

Section scripts.
(** Which calls raise, the identity of a bus, and [task_id]'s defaults. *)
Context (fails : Act -> option string) (unique : string -> string).

Definition Script (A : Type) : Type := World -> (Exc + A) * World.

Definition ret {A} (x : A) : Script A := fun w => (inr x, w).
Definition throw {A} (e : Exc) : Script A := fun w => (inl e, w).
Definition bind {A B} (p : Script A) (f : A -> Script B) : Script B :=
  fun w => match p w with (inr x, w) => f x w | (inl e, w) => (inl e, w) end.

Definition call (c : Act) : Script unit :=
  fun w => (match fails c with Some text => inl (Failed text) | None => inr tt end,
            {| calls := calls w ++ [c]; subscription := subscription w; listening := listening w |}).

(** [try: p finally: q] *)
Definition try_finally {A} (p : Script A) (q : Script unit) : Script A :=
  fun w => let '(x, w) := p w in
           match q w with (inl e, w) => (inl e, w) | (inr tt, w) => (x, w) end.

(** The first step of the iterator subscribes. *)
Definition next_subscribed (ch : string) (timeout : Z) (ty : string) : Script NMBMessage :=
  bind (call (SubscribeTo ch)) (fun _ w =>
    let '(x, l) := _next_message timeout (Some ty) (subscription w) in
    (x, {| calls := calls w; subscription := l; listening := listening w |})).
Definition next_listened (timeout : Z) (ty : string) : Script NMBMessage :=
  fun w => let '(x, l) := _next_message timeout (Some ty) (listening w) in
           (x, {| calls := calls w; subscription := subscription w; listening := l |}).

Notation "x <~ p ;; q" := (bind p (fun x => q)) (at level 100, p at next level, right associativity).
Notation "p ;;~ q" := (bind p (fun _ => q)) (at level 100, right associativity).

Definition mark (name : string) (fields : list (string * string)) : Script unit := call (Marker name fields).

(** [str] of an optional text. *)
Definition shown (o : option string) : string := default "None" o.

(** [message.payload.get("task_id") != task_id] raises. *)
Definition check_task_id (task_id text : string) (m : NMBMessage) : Script unit :=
  match payload m with
  | None => throw (AttributeError "'NoneType' object has no attribute 'get'")
  | Some p => if HttpProbe.is_text task_id (obj_get "task_id" p) then ret tt
              else throw (RuntimeError (text +:+ json_repr (JObj p)))
  end.

Record SmokeArgs := {
  port : Z;
  broker_url : string;
  task_id : string;
  timeout : Z;
  keep_alive : bool;
  audit_db : string;
  sandbox_id : string
}.

Definition assignment (a : SmokeArgs) : list (string * json) :=
  [("task_id", JStr (task_id a)); ("instruction", JStr "Complete the NMB cross-sandbox smoke task.")].

Definition completion (a : SmokeArgs) : list (string * json) :=
  [("task_id", JStr (task_id a)); ("status", JStr "complete");
   ("result", JStr "NMB cross-sandbox task assignment completed.")].

(** The [try] block of [run_broker]. *)
Definition serve_smoke (a : SmokeArgs) : Script unit :=
  let url := "ws://127.0.0.1:" +:+ show_Z (port a) in
  call (Connect "nmb-smoke-orchestrator") ;;~
  mark "NMB_SMOKE_BROKER_READY"
    [("broker_url", url); ("orchestrator_id", unique "nmb-smoke-orchestrator")] ;;~
  ready <~ next_subscribed "smoke.ready" (timeout a) "client.ready" ;;
  mark "NMB_SMOKE_CLIENT_READY" [("client_id", shown (from_sandbox ready))] ;;~
  call (SendTo (from_sandbox ready) "task.assign" (assignment a)) ;;~
  mark "NMB_SMOKE_TASK_ASSIGNED" [("task_id", task_id a)] ;;~
  complete <~ next_listened (timeout a) "task.complete" ;;
  check_task_id (task_id a) "Unexpected task_id in task.complete: " complete ;;~
  mark "NMB_SMOKE_SUCCESS"
    [("task_id", task_id a); ("completed_by", shown (from_sandbox complete)); ("audit_db", audit_db a)] ;;~
  if keep_alive a then call WaitForSignal else ret tt.

Definition run_broker (a : SmokeArgs) : Script unit :=
  call StartBroker ;;~ try_finally (serve_smoke a) (call CloseBus ;;~ call StopBroker).

Definition client_body (a : SmokeArgs) : Script unit :=
  let id := unique "nmb-smoke-client" in
  mark "NMB_SMOKE_CLIENT_CONNECTED" [("broker_url", broker_url a); ("client_id", id)] ;;~
  call (PublishTo "smoke.ready" "client.ready" [("task_id", JStr (task_id a)); ("client_id", JStr id)]) ;;~
  mark "NMB_SMOKE_READY_PUBLISHED" [("channel", "smoke.ready")] ;;~
  assign <~ next_listened (timeout a) "task.assign" ;;
  check_task_id (task_id a) "Unexpected task_id in task.assign: " assign ;;~
  call (SendTo (from_sandbox assign) "task.complete" (completion a)) ;;~
  mark "NMB_SMOKE_CLIENT_SUCCESS" [("task_id", task_id a)].

Definition run_client (a : SmokeArgs) : Script unit :=
  call (Connect "nmb-smoke-client") ;;~ try_finally (client_body a) (call CloseBus).

Definition run_probe (a : SmokeArgs) : Script unit :=
  call (Connect (sandbox_id a)) ;;~
  try_finally (mark "NMB_SMOKE_PROBE_CONNECTED"
                 [("broker_url", broker_url a); ("probe_id", unique (sandbox_id a))])
              (call CloseBus).

(** ** Reachability *)

Definition is_digit (c : ascii) : bool := between 48 57 c.

(** [int(s)] of digits. *)
Fixpoint digits_value (acc : Z) (s : string) : Z :=
  match s with
  | EmptyString => acc
  | String c s => digits_value (10 * acc + Z.of_N (N_of_ascii c - 48)) s
  end.

(** [parsed.port] *)
Definition port_of (netloc : string) : Exc + option Z :=
  let hostinfo := after_last "@" netloc in
  let port :=
    match partition "[" hostinfo with
    | (_, Some bracketed) => default "" (partition ":" (default "" (partition "]" bracketed).2)).2
    | (h, None) => default "" (partition ":" h).2
    end in
  if str_truthy port then
    if all_of is_digit port then
      let n := digits_value 0 port in
      if (n <=? 65535)%Z then inr (Some n) else inl (ValueError "Port out of range 0-65535")
    else inl (ValueError ("Port could not be cast to integer value as " +:+ py_repr port))
  else inr None.

Definition _broker_host_port (valid_netloc : string -> bool) (url : string) : Exc + (string * Z) :=
  match HttpProbe.urlparse valid_netloc url with
  | None => inl (ValueError "Invalid IPv6 URL")
  | Some parsed =>
      let missing := inl (ValueError ("Broker URL must include host and port: " +:+ url)) in
      match netloc_hostname "" (fun _ => true) (HttpProbe.netloc parsed) with
      | inr (Some host) =>
          match port_of (HttpProbe.netloc parsed) with
          | inl e => inl e
          | inr None => missing
          | inr (Some port) => inr (host, port)
          end
      | _ => missing
      end
  end.

Definition proxy_env_keys : list string :=
  ["HTTP_PROXY"; "HTTPS_PROXY"; "ALL_PROXY"; "NO_PROXY";
   "http_proxy"; "https_proxy"; "all_proxy"; "no_proxy"].

(** What the diagnosis finds: the environment, the proxies of [urllib], the
    addresses of a host, whether a socket connects, and how a websocket
    opens. *)
Inductive WsOpen := WsOpened | WsTypeError (error : string) | WsError (error : string).

Record Surroundings := {
  environ : string -> option string;
  proxies : string;
  getaddrinfo : string -> Z -> string + list string;
  tcp_connect : string -> Z -> option string;
  ws_open : bool -> WsOpen
}.

Section diagnosis.
Context (e : Surroundings).

Fixpoint each {A} (f : A -> Script unit) (l : list A) : Script unit :=
  match l with [] => ret tt | x :: l => bind (f x) (fun _ => each f l) end.

Definition _probe_dns_and_tcp (host : string) (port : Z) : Script unit :=
  each (fun key => mark "NMB_SMOKE_CLIENT_ENV" [("key", key); ("value", default "" (environ e key))])
       proxy_env_keys ;;~
  mark "NMB_SMOKE_CLIENT_PROXIES" [("value", proxies e)] ;;~
  match getaddrinfo e host port with
  | inl error => mark "NMB_SMOKE_DNS_FAIL" [("host", host); ("error", error)]
  | inr infos =>
      let addresses := sorted_hosts (list_to_set infos) in
      mark "NMB_SMOKE_DNS_OK" [("host", host); ("addresses", String.concat "," addresses)] ;;~
      each (fun address =>
              match tcp_connect e address port with
              | Some error => mark "NMB_SMOKE_TCP_FAIL" [("address", address); ("port", show_Z port); ("error", error)]
              | None => mark "NMB_SMOKE_TCP_OK" [("address", address); ("port", show_Z port)]
              end) addresses
  end.

Definition _probe_websocket (url : string) (use_proxy : bool) : Script unit :=
  let label := if use_proxy then "default_proxy" else "proxy_disabled" in
  match ws_open e use_proxy with
  | WsOpened => mark "NMB_SMOKE_WS_OK" [("mode", label); ("broker_url", url)]
  | WsTypeError error => mark "NMB_SMOKE_WS_UNSUPPORTED" [("mode", label); ("error", error)]
  | WsError error => mark "NMB_SMOKE_WS_FAIL" [("mode", label); ("broker_url", url); ("error", error)]
  end.

Definition run_client_probe (valid_netloc : string -> bool) (a : SmokeArgs) : Script unit :=
  match _broker_host_port valid_netloc (broker_url a) with
  | inl exc => throw exc
  | inr (host, port) =>
      mark "NMB_SMOKE_CLIENT_PROBE_START"
        [("broker_url", broker_url a); ("host", host); ("port", show_Z port)] ;;~
      _probe_dns_and_tcp host port ;;~
      _probe_websocket (broker_url a) true ;;~
      _probe_websocket (broker_url a) false
  end.

(** [main] of the script, after the arguments are parsed. *)
Definition smoke_main (valid_netloc : string -> bool) (role : string) (a : SmokeArgs) : Script unit :=
  if String.eqb role "broker" then run_broker a
  else if String.eqb role "client" then run_client a
  else if String.eqb role "probe" then run_probe a
  else if String.eqb role "client-probe" then run_client_probe valid_netloc a
  else throw (ValueError ("Unknown role: " +:+ role)).
End diagnosis.
End scripts.

(** ** Both scripts on one broker

    The frames of the scripts go through the handlers of the broker in the
    order of one schedule: the subscription of the orchestrator before the
    publication of the client, or after it.  A script is run once to learn
    what it sends and again with what arrives then; its calls up to there are
    the same. *)

(** The line [_print_marker] prints. *)
Definition marker_line (name : string) (fields : list (string * string)) : string :=
  rstrip (name +:+ " " +:+ String.concat " " (map (fun kv => kv.1 +:+ "=" +:+ kv.2) fields)).

Section exchange.
Context (unique : string -> string) (wo wc : WS) (now : seconds) (ids : nat -> string) (delay : Z)
  (a : SmokeArgs).

Definition orchestrator_id : string := unique "nmb-smoke-orchestrator".
Definition client_id : string := unique "nmb-smoke-client".

(** What arrives on a socket between two states of the broker. *)
Definition arrivals (ws : WS) (b b' : Broker) : list Arrival :=
  omap (fun wm => if bool_decide (wm.1 = ws /\ op wm.2 = DELIVER) then Some (Arrives delay wm.2) else None)
       (drop (length (outbox b)) (outbox b')).

Definition subscribe_frame : NMBMessage :=
  stamp_identity orchestrator_id now (channel_frame SUBSCRIBE (ids 0) "smoke.ready").
Definition ready_frame : NMBMessage :=
  stamp_identity client_id now
    (publish_frame (ids 1) "smoke.ready" "client.ready"
       [("task_id", JStr (task_id a)); ("client_id", JStr client_id)]).

Definition subscribes (b : Broker) : Broker := _handle_subscribe every_send_ok orchestrator_id wo subscribe_frame b.
Definition publishes (b : Broker) : Broker := _handle_publish every_send_ok client_id wc ready_frame b.

(** The SENDs among the calls of a script, handled one after the other. *)
Definition sent_frame (sender : string) (c : Act) : option NMBMessage :=
  match c with
  | SendTo (Some to) ty p => Some (stamp_identity sender now (send_frame (ids 2) to ty p))
  | _ => None
  end.
Definition sends_of (sender : string) (ws : WS) (cs : list Act) (b : Broker) : Broker :=
  fold_left (fun b m => _handle_send every_send_ok sender ws m b) (omap (sent_frame sender) cs) b.

Definition orchestrator (ready done_ : list Arrival) : (Exc + unit) * World :=
  run_broker (fun _ => None) unique a {| calls := []; subscription := ready; listening := done_ |}.
Definition client (assigned : list Arrival) : (Exc + unit) * World :=
  run_client (fun _ => None) unique a {| calls := []; subscription := []; listening := assigned |}.

Definition smoke (subscribed_first : bool) (b : Broker) : ((Exc + unit) * World) * ((Exc + unit) * World) :=
  let b1 := if subscribed_first then publishes (subscribes b) else subscribes (publishes b) in
  let ready := arrivals wo b b1 in
  let b2 := sends_of orchestrator_id wo (calls (orchestrator ready []).2) b1 in
  let c := client (arrivals wc b b2) in
  let b3 := sends_of client_id wc (calls c.2) b2 in
  (orchestrator ready (arrivals wo b2 b3), c).

(** ** The scripts on what arrives *)

Lemma next_match timeout ty m rest :
  (0 < timeout)%Z -> (delay < timeout)%Z -> type m = Some ty ->
  _next_message timeout (Some ty) (Arrives delay m :: rest) = (inr m, rest).
Proof.
  intros Ht Hd Hm. unfold _next_message. cbn [next_from].
  destruct (Z.leb_spec (timeout - 0) 0); [lia|]. destruct (Z.ltb_spec delay (timeout - 0)); [|lia].
  unfold wanted. by rewrite bool_decide_eq_true_2.
Qed.

Lemma next_nothing timeout ty :
  exists text, _next_message timeout ty [] = (inl (WaitTimeout text), []).
Proof. unfold _next_message. cbn [next_from]. case_match; eauto. Qed.
Definition delivered_ready : NMBMessage := _make_deliver ready_frame.
Definition delivered_assign : NMBMessage :=
  _make_deliver (stamp_identity orchestrator_id now (send_frame (ids 2) client_id "task.assign" (assignment a))).
Definition delivered_complete : NMBMessage :=
  _make_deliver (stamp_identity client_id now (send_frame (ids 2) orchestrator_id "task.complete" (completion a))).

Definition success_marker : Act :=
  Marker "NMB_SMOKE_SUCCESS"
    [("task_id", task_id a); ("completed_by", client_id); ("audit_db", audit_db a)].

Section in_time.
Context (Htimeout : (0 < timeout a)%Z) (Hdelay : (delay < timeout a)%Z).

Lemma orchestrator_starves done_ :
  exists text, (orchestrator [] done_).1 = inl (WaitTimeout text) /\
    omap (sent_frame orchestrator_id) (calls (orchestrator [] done_).2) = [].
Proof.
  destruct (next_nothing (timeout a) (Some "client.ready")) as [text Hn]. exists text.
  unfold orchestrator, run_broker, serve_smoke, try_finally, next_subscribed, mark, call, bind. cbn.
  by rewrite Hn.
Qed.

Lemma client_starves :
  exists text, (client []).1 = inl (WaitTimeout text) /\
    omap (sent_frame client_id) (calls (client []).2) = [].
Proof.
  destruct (next_nothing (timeout a) (Some "task.assign")) as [text Hn]. exists text.
  unfold client, run_client, client_body, try_finally, next_listened, mark, call, bind. cbn.
  by rewrite Hn.
Qed.

Lemma orchestrator_assigns :
  omap (sent_frame orchestrator_id) (calls (orchestrator [Arrives delay delivered_ready] []).2) =
  [stamp_identity orchestrator_id now (send_frame (ids 2) client_id "task.assign" (assignment a))].
Proof.
  destruct (next_nothing (timeout a) (Some "task.complete")) as [text Hn].
  unfold orchestrator, run_broker, serve_smoke, try_finally, next_subscribed, next_listened, mark, call, bind.
  cbn. rewrite next_match by done. cbn. by rewrite Hn.
Qed.

Lemma client_completes :
  (client [Arrives delay delivered_assign]).1 = inr tt /\
  omap (sent_frame client_id) (calls (client [Arrives delay delivered_assign]).2) =
  [stamp_identity client_id now (send_frame (ids 2) orchestrator_id "task.complete" (completion a))].
Proof.
  unfold client, run_client, client_body, try_finally, next_listened, mark, call, bind.
  cbn. rewrite next_match by done. unfold check_task_id, ret. cbn. by rewrite String.eqb_refl.
Qed.

Lemma orchestrator_succeeds :
  let r := orchestrator [Arrives delay delivered_ready] [Arrives delay delivered_complete] in
  r.1 = inr tt /\ success_marker ∈ calls r.2.
Proof.
  unfold orchestrator, run_broker, serve_smoke, try_finally, next_subscribed, next_listened, mark, call, bind.
  cbn. rewrite next_match by done. cbn. rewrite next_match by done.
  unfold check_task_id, ret. cbn. rewrite String.eqb_refl.
  destruct (keep_alive a); cbn; (split; [done|]);
    apply list_elem_of_In; simpl; unfold success_marker; auto 20.
Qed.
End in_time.
(** ** The broker between them *)

(** The state before the exchange: both are connected, nobody listens on the
    channel, and the orchestrator may subscribe. *)
Record ready_to_start (b : Broker) : Prop := {
  rs_orchestrator : connections b !! orchestrator_id = Some wo;
  rs_client : connections b !! client_id = Some wc;
  rs_named : orchestrator_id ≠ "" /\ client_id ≠ "" /\ orchestrator_id ≠ client_id;
  rs_sockets : wo ≠ wc;
  rs_silent : default ∅ (channels b !! "smoke.ready") = ∅;
  rs_room : size (default ∅ (sandbox_channels b !! orchestrator_id)) < max_channels_per_sandbox (config b)
}.

Lemma subscribe_effect b :
  ready_to_start b ->
  outbox (subscribes b) = outbox b ++ [(wo, new_message ACK (ids 0))] /\
  connections (subscribes b) = connections b /\
  default ∅ (channels (subscribes b) !! "smoke.ready") = {[orchestrator_id]} ∪ default ∅ (channels b !! "smoke.ready").
Proof.
  intros Hb. unfold subscribes, _handle_subscribe. cbn [channel subscribe_frame stamp_identity channel_frame opt_truthy].
  change (str_truthy "smoke.ready") with true. cbn [negb default].
  change (config (set_channels _ _ b)) with (config b).
  assert (H := rs_room b Hb). apply Nat.leb_gt in H. rewrite H.
  rewrite send_ack_outbox by done. split; [done|].
  match goal with |- context [_send_ack every_send_ok wo ?i None ?b'] =>
    destruct (routing_eq_fields _ _ (send_ack_quiet every_send_ok wo i None b')) as (-> & _ & -> & _) end.
  cbn. split; [done|]. by rewrite lookup_insert_eq.
Qed.

(** The channel's subscribers but the sender receive a publication. *)
Lemma publish_effect b subs :
  default ∅ (channels b !! "smoke.ready") = subs -> connections b !! orchestrator_id = Some wo ->
  client_id ≠ orchestrator_id -> subs = ∅ \/ subs = {[orchestrator_id]} ->
  outbox (publishes b) = outbox b ++ (if decide (subs = ∅) then [] else [(wo, delivered_ready)])
                                  ++ [(wc, new_message ACK (ids 1))] /\
  routing_eq (publishes b) b.
Proof.
  intros Hs Ho Hne Hsubs. split; [|apply handle_publish_quiet].
  unfold publishes, _handle_publish. cbn [channel ready_frame stamp_identity publish_frame opt_truthy].
  change (str_truthy "smoke.ready") with true. cbn [negb default].
  rewrite send_ack_outbox, gather_outbox by done. rewrite <- app_assoc. f_equal. f_equal.
  unfold subscriber_sockets. cbn [from_option Datatypes.id]. rewrite Hs. destruct Hsubs as [-> | ->].
  - by rewrite elements_empty, decide_True.
  - rewrite elements_singleton, (decide_False (P := {[_]} = ∅)) by set_solver. cbn.
    rewrite decide_False by congruence. by rewrite Ho.
Qed.

(** One SEND between connected sandboxes. *)
Lemma send_effect b sender ws target to ty p :
  connections b !! to = Some target -> to ≠ "" ->
  let m := stamp_identity sender now (send_frame (ids 2) to ty p) in
  outbox (_handle_send every_send_ok sender ws m b) =
    outbox b ++ [(target, _make_deliver m); (ws, new_message ACK (ids 2))] /\
  connections (_handle_send every_send_ok sender ws m b) = connections b.
Proof.
  intros Hc Hne m. split.
  - unfold _handle_send. cbn [to_sandbox m stamp_identity send_frame]. rewrite (truthy_some _ Hne).
    cbn [negb from_option Datatypes.id]. rewrite Hc. unfold ws_send. cbn. rewrite send_ack_outbox by done. cbn.
    by rewrite <- app_assoc.
  - by destruct (routing_eq_fields _ _ (handle_send_quiet every_send_ok sender ws m b)).
Qed.
Lemma ready_quiet b b' : routing_eq b' b -> ready_to_start b -> ready_to_start b'.
Proof.
  intros Hq [Ho Hc Hn Hw Hs Hr].
  destruct (routing_eq_fields _ _ Hq) as (Ec & _ & Ech & Esc & _ & _ & _ & Ecfg).
  split; by rewrite ?Ec, ?Ech, ?Esc, ?Ecfg.
Qed.

(** Frames that are no deliveries to the socket do not arrive. *)
Lemma arrivals_of ws b b' fs ms :
  outbox b' = outbox b ++ fs ->
  omap (fun wm : WS * NMBMessage => if bool_decide (wm.1 = ws /\ op wm.2 = DELIVER) then Some wm.2 else None) fs = ms ->
  arrivals ws b b' = map (Arrives delay) ms.
Proof.
  intros Hb <-. unfold arrivals. rewrite Hb, drop_app_length. clear Hb.
  induction fs as [|wm fs IH]; [done|]. cbn. destruct (bool_decide _); cbn; [f_equal|]; exact IH.
Qed.

#[local] Ltac arrived := cbn; repeat case_bool_decide; naive_solver.

(** The two orders.  When the subscription is handled first both scripts
    succeed: the orchestrator reports the client as the one who completed the
    task.  When the publication is handled first it is acknowledged and
    reaches nobody, and both scripts end with a timeout. *)
Theorem smoke_needs_the_subscription_first b :
  ready_to_start b -> (0 < timeout a)%Z -> (delay < timeout a)%Z ->
  (let '(o, c) := smoke true b in
   o.1 = inr tt /\ success_marker ∈ calls o.2 /\ c.1 = inr tt) /\
  (let '(o, c) := smoke false b in
   (exists text, o.1 = inl (WaitTimeout text)) /\ (exists text, c.1 = inl (WaitTimeout text)) /\
   outbox (publishes b) = outbox b ++ [(wc, new_message ACK (ids 1))]).
Proof.
  intros Hb Ht Hd. pose proof Hb as [Ho Hc (Hon & Hcn & Hoc) Hws Hsilent Hroom]. split.
  - destruct (subscribe_effect b Hb) as (Hos & Hcs & Hchs). rewrite Hsilent, union_empty_r_L in Hchs.
    destruct (publish_effect (subscribes b) {[orchestrator_id]} Hchs) as [Hop Hq];
      [by rewrite Hcs|congruence|by right|].
    destruct (routing_eq_fields _ _ Hq) as (Hcp & _). rewrite Hcs in Hcp.
    rewrite decide_False in Hop by set_solver. rewrite Hos, <- app_assoc in Hop. cbn [app] in Hop.
    unfold smoke, sends_of. cbn zeta iota. set (b1 := publishes (subscribes b)) in *.
    rewrite (arrivals_of wo b b1 _ [delivered_ready] Hop) by arrived. cbn [map].
    rewrite orchestrator_assigns by done. cbn [fold_left].
    destruct (send_effect b1 orchestrator_id wo wc client_id "task.assign" (assignment a))
      as [Hosend Hcsend]; [by rewrite Hcp|done|].
    set (b2 := _handle_send every_send_ok orchestrator_id wo _ b1) in *.
    rewrite Hop, <- app_assoc in Hosend. cbn [app] in Hosend.
    rewrite (arrivals_of wc b b2 _ [delivered_assign] Hosend) by arrived. cbn [map].
    destruct client_completes as [Hclient Hsent]; [done..|].
    rewrite Hsent. cbn [fold_left].
    destruct (send_effect b2 client_id wc wo orchestrator_id "task.complete" (completion a))
      as [Hocomp _]; [by rewrite Hcsend, Hcp|done|].
    set (b3 := _handle_send every_send_ok client_id wc _ b2) in *.
    rewrite (arrivals_of wo b2 b3 _ [delivered_complete] Hocomp) by arrived. cbn [map].
    destruct orchestrator_succeeds as [Hr Hm]; done.
  - destruct (publish_effect b ∅ Hsilent Ho) as [Hop Hq]; [congruence|by left|].
    rewrite decide_True in Hop by done. cbn [app] in Hop.
    destruct (subscribe_effect (publishes b) (ready_quiet _ _ Hq Hb)) as (Hos & _).
    rewrite Hop, <- app_assoc in Hos. cbn [app] in Hos.
    unfold smoke, sends_of. cbn zeta iota. set (b1 := subscribes (publishes b)) in *.
    rewrite (arrivals_of wo b b1 _ [] Hos) by arrived. cbn [map].
    destruct (orchestrator_starves []) as (text & Hr & Hs).
    rewrite Hs. cbn [fold_left].
    rewrite (arrivals_of wc b b1 _ [] Hos) by arrived. cbn [map].
    destruct client_starves as (text' & Hr' & Hs'). rewrite Hs'. cbn [fold_left].
    rewrite (arrivals_of wo b1 b1 [] []) by (done || by rewrite app_nil_r). cbn [map].
    rewrite Hr, Hr'. eauto.
Qed.
End exchange.

(** ** A run *)

Definition sample_smoke : SmokeArgs :=
  {| port := 9876; broker_url := "ws://messages.local:9876"; task_id := "nmb-smoke-001"; timeout := 120;
     keep_alive := false; audit_db := "/sandbox/nmb-smoke-audit.db"; sandbox_id := "nmb-smoke-host-probe" |}.
Definition sample_broker : Broker :=
  _register "nmb-smoke-client" 2 (_register "nmb-smoke-orchestrator" 1 (new_broker sample_config true)).

Lemma smoke_needs_the_subscription_first_witness :
  let '(o, c) := smoke (fun name => name) 1 2 7%Z pretty 3%Z sample_smoke true sample_broker in
  o.1 = inr tt /\ c.1 = inr tt.
Proof.
  destruct (smoke_needs_the_subscription_first (fun name => name) 1 2 7%Z pretty 3%Z sample_smoke sample_broker)
    as [H _]; [|done|done|].
  { split; [done|done|by vm_compute|done|done|vm_compute; lia]. }
  destruct (smoke _ _ _ _ _ _ _ _ _) as [o c]. naive_solver.
Defined.

(** ** Waiting for a message *)

Definition arrival (x : Z * NMBMessage) : Arrival := Arrives x.1 x.2.
Definition total (l : list (Z * NMBMessage)) : Z := fold_right (fun x n => (x.1 + n)%Z) 0%Z l.

Lemma total_nonneg items skipped d m rest :
  (forall d x, Arrives d x ∈ items -> (0 <= d)%Z) ->
  items = map arrival skipped ++ Arrives d m :: rest -> (0 <= total skipped + d)%Z.
Proof.
  intros Hpos ->. assert (Hd : (0 <= d)%Z) by (apply (Hpos d m); set_solver).
  assert (Hs : (0 <= total skipped)%Z); [|lia].
  assert (Hpos' : forall x, x ∈ skipped -> (0 <= x.1)%Z).
  { intros [d' m'] Hx. apply (Hpos d' m'), elem_of_app. left. apply list_elem_of_fmap. by exists (d', m'). }
  clear Hpos Hd. unfold total. induction skipped as [|x l IH]; cbn; [lia|].
  assert (Hx := Hpos' x ltac:(left)). assert (H := IH ltac:(intros; apply Hpos'; by right)). lia.
Qed.

Lemma next_from_first timeout ty elapsed items m rest :
  (forall d x, Arrives d x ∈ items -> (0 <= d)%Z) ->
  next_from timeout ty elapsed items = (inr m, rest) <->
  exists skipped d, items = map arrival skipped ++ Arrives d m :: rest /\
    Forall (fun x => wanted ty x.2 = false) skipped /\ wanted ty m = true /\
    (elapsed + total skipped + d < timeout)%Z.
Proof.
  intros Hpos. revert elapsed. induction items as [|[d x|d] items IH]; intros elapsed; cbn [next_from].
  - split; [by case_match|]. intros ([|] & d & Hi & _); discriminate.
  - assert (Hd : (0 <= d)%Z) by (apply (Hpos d x); left).
    assert (Hrest : forall d x, Arrives d x ∈ items -> (0 <= d)%Z) by (intros; eapply Hpos; by right).
    pose proof Hpos as Hrest'. specialize (IH Hrest).
    destruct (Z.leb_spec (timeout - elapsed) 0) as [Hl|Hl].
    { split; [done|]. intros (skipped & d' & Hi & _ & _ & Ht). exfalso.
      pose proof (total_nonneg _ _ _ _ _ Hrest' Hi). lia. }
    destruct (Z.ltb_spec d (timeout - elapsed)) as [Hlt|Hlt].
    + destruct (wanted ty x) eqn:Hw.
      * split.
        -- intros [= <- <-]. exists [], d. cbn. split_and!; try done. lia.
        -- intros ([|y sk] & d' & Hi & Hf & _ & _); [by inversion Hi|].
           inversion Hi; subst. inversion Hf; subst. congruence.
      * rewrite IH. split.
        -- intros (sk & d' & -> & Hf & Hm & Ht). exists ((d, x) :: sk), d'.
           split_and!; [done|by constructor|done|]. unfold total in *. cbn. lia.
        -- intros ([|[dy y] sk] & d' & Hi & Hf & Hm & Ht); [injection Hi as <- <- <-; congruence|].
           injection Hi as <- <- Hi. apply Forall_cons_1 in Hf as [_ Hf].
           exists sk, d'. unfold total in *. cbn in Ht. split_and!; try done. lia.
    + split; [done|]. intros ([|[dy y] sk] & d' & Hi & _ & _ & Ht); unfold total in Ht; cbn in Ht.
      * injection Hi as <- <- <-. lia.
      * injection Hi as <- <- Hi. pose proof (total_nonneg _ _ _ _ _ Hrest Hi) as H0. unfold total in H0. lia.
  - split; [by repeat case_match|]. intros ([|] & d' & Hi & _); discriminate.
Qed.

(** [_next_message] returns the first message of the type asked for, and does
    so exactly when it and all before it arrive within the timeout of the
    call, however many other messages there are; what follows stays for the
    next call. *)
Theorem next_message_first timeout ty items m rest :
  (forall d x, Arrives d x ∈ items -> (0 <= d)%Z) ->
  _next_message timeout (Some ty) items = (inr m, rest) <->
  exists skipped d, items = map arrival skipped ++ Arrives d m :: rest /\
    Forall (fun x => type x.2 ≠ Some ty) skipped /\ type m = Some ty /\ (total skipped + d < timeout)%Z.
Proof.
  intros Hpos. unfold _next_message. rewrite next_from_first by done. cbn [wanted].
  setoid_rewrite bool_decide_eq_false. setoid_rewrite bool_decide_eq_true. setoid_rewrite Z.add_0_l. done.
Qed.

(** ** Ending what was started *)

Section ends.
Context (fails : Act -> option string) (unique : string -> string).

(** A script only adds to the calls that were made. *)
Definition extends {A} (p : Script A) : Prop := forall w, exists l, calls (p w).2 = calls w ++ l.

Lemma extends_ret {A} (x : A) : extends (ret x).
Proof. intros w. exists []. by rewrite app_nil_r. Qed.
Lemma extends_throw {A} e : extends (throw (A := A) e).
Proof. intros w. exists []. by rewrite app_nil_r. Qed.
Lemma extends_call c : extends (call fails c).
Proof. intros w. by exists [c]. Qed.
Lemma extends_bind {A B} (p : Script A) (f : A -> Script B) :
  extends p -> (forall x, extends (f x)) -> extends (bind p f).
Proof.
  intros Hp Hf w. unfold bind. destruct (Hp w) as [l Hl]. destruct (p w) as [[e|x] w']; cbn in *; [by eauto|].
  destruct (Hf x w') as [l' Hl']. exists (l ++ l'). by rewrite Hl', Hl, app_assoc.
Qed.
Lemma extends_listened t ty : extends (next_listened t ty).
Proof.
  intros w. unfold next_listened. destruct (_next_message _ _ _). exists []. by rewrite app_nil_r.
Qed.
Lemma extends_subscribed ch t ty : extends (next_subscribed fails ch t ty).
Proof.
  apply extends_bind; [apply extends_call|]. intros [] w.
  destruct (_next_message _ _ _). exists []. by rewrite app_nil_r.
Qed.
Lemma extends_check t text m : extends (check_task_id t text m).
Proof. unfold check_task_id. repeat case_match; apply extends_ret || apply extends_throw. Qed.

#[local] Hint Resolve extends_ret extends_throw extends_call extends_bind extends_listened
  extends_subscribed extends_check : core.

Lemma extends_serve a : extends (serve_smoke fails unique a).
Proof. unfold serve_smoke, mark. destruct (keep_alive a); repeat (apply extends_bind; intros; auto). Qed.

Lemma extends_client a : extends (client_body fails unique a).
Proof. unfold client_body, mark. repeat (apply extends_bind; intros; auto). Qed.

(** What the [finally] of [run_broker] calls. *)
Definition broker_ends : list Act :=
  CloseBus :: match fails CloseBus with None => [StopBroker] | Some _ => [] end.

(** Whatever fails and whatever arrives, a broker that was started is
    stopped, after the bus is closed, unless closing the bus itself raises;
    a broker whose start fails is not.  The client closes its bus exactly
    when it was connected. *)
Theorem scripts_end_what_they_started a w :
  (exists middle, calls (run_broker fails unique a w).2 = calls w ++ StartBroker ::
     match fails StartBroker with Some _ => [] | None => middle ++ broker_ends end) /\
  (exists middle, calls (run_client fails unique a w).2 = calls w ++ Connect "nmb-smoke-client" ::
     match fails (Connect "nmb-smoke-client") with Some _ => [] | None => middle ++ [CloseBus] end).
Proof.
  split.
  - unfold run_broker, bind at 1, call at 1. destruct (fails StartBroker) as [text|]; [by exists []|].
    unfold try_finally.
    destruct (extends_serve a {| calls := calls w ++ [StartBroker]; subscription := subscription w;
                                 listening := listening w |}) as [l Hl].
    destruct (serve_smoke _ _ _ _) as [x w']. cbn in Hl. exists l.
    unfold bind, call, broker_ends. destruct (fails CloseBus); cbn;
      [|destruct (fails StopBroker); cbn]; rewrite Hl, <- !app_assoc; done.
  - unfold run_client, bind at 1, call at 1. destruct (fails (Connect "nmb-smoke-client")) as [text|]; [by exists []|].
    unfold try_finally.
    destruct (extends_client a {| calls := calls w ++ [Connect "nmb-smoke-client"];
      subscription := subscription w; listening := listening w |}) as [l Hl].
    destruct (client_body _ _ _ _) as [x w']. cbn in Hl. exists l.
    unfold call. destruct (fails CloseBus); cbn; rewrite Hl, <- !app_assoc; done.
Qed.
End ends.

End Smoke.
